(* ===== verification/_CoqProject ===== *)
-Q . S2P
Prelude.v
Machine.v
Nla.v
NlaPut.v
Genl.v
Exchange.v
Hweight.v
Crc.v
Headers.v
SharedTool.v
ConfigFlags.v
Options.v
Address.v
AdmConfig.v
Deferred.v
Stages.v
Up.v
Adjust.v
AdjustNet.v
AdjustIdle.v
AdjustUp.v
Argv.v
Getopt.v
Numerals.v
Contexts.v
AdmCommands.v
ArgvFits.v
MetaData.v
OnDisk.v
Layout.v
FsDetect.v
GenId.v
ActivityLog.v
ApplyAl.v
OpenMd.v
SuperBlock.v
InitMd.v
Convert.v
Resize.v
Commands.v
Create.v
Created.v
Succeeds.v
Scanner.v
Restore.v
Windows.v
Dump.v
Main.v
Effects.v
Setup.v
SetupRequests.v
Understood.v
Requested.v
Settings.v
ConfigScanner.v
ConfigTokens.v
ConfigParser.v
ConfigEnds.v
ConfigReads.v
Show.v
ShowParsed.v
ShowConnections.v
