(* ===== verification/Prelude.v ===== *)
(** * Verification of drbd-utils

    The repository holds the user space tools of DRBD.  This development models
    three of its programs and the libraries they share: drbdmeta, which works on
    the persistent state of a replicated device (src/user/shared/drbdmeta.c),
    drbdsetup, which configures the kernel module over generic netlink
    (src/user/v9/drbdsetup.c), and drbdadm, which reads the configuration and
    calls the other two (src/user/v9/drbdadm_*.c).

    ** The programs

    A DRBD device keeps meta data next to its data: a super block with the sizes,
    the generation identifiers and the peers, an activity log (which extents had
    writes in flight) and a bitmap (which blocks a peer lacks).  drbdmeta creates,
    reads, converts, moves, dumps and restores them, for the formats of DRBD 0.6,
    0.7, 8 and 9.  Its [main] parses options and a command, refuses to work on
    attached devices, and calls the command; a command opens the device, which
    finds and decodes the super block, changes the working copy ([md_cpu]), writes
    activity log, bitmap and super block, and closes.

    drbdadm parses the configuration.  To bring a resource up it schedules
    commands in stages and runs them; to adjust a resource it has drbdsetup show
    what is running, parses that with the same parser, compares options, volumes,
    connections and paths, and schedules what makes up for the differences.  A
    command builds the command line of drbdsetup or drbdmeta in an array of fixed
    size and starts the program.  drbdsetup finds its command, the object and the
    options in that line, checks the options by their classes, puts them into the
    attributes of a request, sends it and takes the reply; for show, it prints
    the attributes of the replies as the text that drbdadm parses.

    ** Files, and the code they model

    - Prelude: record update, C integers, lists, automation.
    - Machine: memory as bytes, loads and stores, byte order
      (src/user/shared/drbd_endian.h, the helpers of drbdmeta.h), outcomes.
    - Headers: the constants and structure offsets of the drbd-headers submodule,
      which is not part of the repository, as a class [DrbdHeaders] with the facts
      the code relies on ([DrbdHeadersOk]) and an instance ([v9_headers]).
    - SharedTool: numbers with units, the scanf and printf formats in use, the
      last-known device file, [ppsize] (src/user/shared/shared_tool.c).

    Netlink (src/user/shared/libnla.c, libgenl.h, libgenl.c):
    - Nla: the walk over attributes, validation, parsing.  NlaPut: the message
      buffer and adding attributes.  Genl: headers, sending and receiving, the
      family.  Exchange: the loop of drbdsetup around a request.

    Options and drbdsetup (src/user/v9/config_flags.c, drbdsetup.c):
    - ConfigFlags: the classes of options.  Contexts: the tables of options of the
      commands.  Options: options into a request and out of a reply.
    - Getopt, Numerals: getopt_long, and numbers that are printed and read back.
    - Setup: the command line of drbdsetup.  SetupRequests: lines it understands.
    - Show: the text of drbdsetup show.

    drbdadm (src/user/v9/drbdadm_main.c, drbdadm_adjust.c, drbdadm_parser.c):
    - Address, AdmConfig: addresses, and the structures of the configuration.
    - Deferred: scheduling and running commands.  Stages, Up: the order in which
      they run, drbdadm up.
    - Adjust, AdjustNet: comparing and adjusting.  AdjustIdle, AdjustUp: what
      adjust does to a resource that runs as configured, or does not run.
    - Argv, AdmCommands: the arrays of arguments, the commands.  ArgvFits: the
      arrays are not overrun.
    - ConfigScanner, ConfigParser: the scanner (drbdadm_scanner.fl) as patterns
      with the longest match, and the parser as a state monad.  ConfigTokens,
      ConfigReads: how texts are cut into tokens, and a calculus for what the
      parser makes of them.  ConfigEnds: where the parser can go round for ever.
    - Understood, Requested, Settings, ShowParsed, ShowConnections: the programs
      together - drbdsetup understands drbdadm, settings come back, and drbdadm
      reads what drbdsetup shows.

    drbdmeta (src/user/shared/drbdmeta.c and its scanner, drbdmeta_linux.c):
    - Hweight, Crc: [generic_hweight32/64] and [crc32c] against their definitions.
    - MetaData: the working structures ([md_cpu], [struct format], the options),
      the world of a run (device, buffer, files, terminal) and the monad [M] of
      operations, whose outcomes are a value, exit, abort or an access outside of
      an array; disk access with its check of the written range, confirmation,
      random UUIDs.  The logic of relations that operations keep ([keeps]).
    - OnDisk: the on-disk structures of all formats and of the activity log.
    - Layout: placement and size of the parts, validity of a super block.
    - FsDetect: the search for existing data.
    - GenId: the generation counters and UUIDs, parsing, printing, changing.
    - ActivityLog, ApplyAl: which extents were hot, and marking them in the bitmap.
    - OpenMd: opening, reading, writing, closing.  SuperBlock: the abstract
      specification of the super block, and the refinement.
    - InitMd: empty activity log, initial bitmap, initial super blocks.
    - Convert, Resize: conversions between formats; moving after a resize.
    - Commands, Create: the commands.  Created: what create-md leaves is what is
      read.  Succeeds: create-md succeeds on a blank device.
    - Scanner, Restore, Windows: the tokens of a dump (drbdmeta_scanner.fl), the
      parser that restores it, and its loop over the windows of the bitmap.
    - Dump: show-gi, dump-md and the dumps of the super block.
    - Main: options, commands, the minor number.  Effects: what whole runs do and
      do not do to the device.

    ** What the theorems show

    - On-disk data: encoding and decoding are inverse for every format, no stale
      bytes are written, damage of an activity log block is detected, crc32c and
      the bit counts are what they should be; the super block operations refine a
      store with one cell.
    - Layout: the parts do not overlap, are aligned, fit, and pass the validity
      check; the size of the bitmap is enough for the data and fits its space.
    - Activity log: the ring is replayed in the order of its transaction numbers
      in spite of their wrap-around, the extents found are exactly the bits set in
      the bitmap; a fresh log is clean.
    - Safety: with the flexible internal layout writes spare the data of the user;
      dry runs, reading commands and runs on devices that are reported as attached
      leave the device alone; existing data are not overwritten without consent.
    - Commands of drbdmeta: conversions end in valid meta data, created meta data
      are read back, creating succeeds where it can.
    - Netlink: parsing depends on the bytes of the message only and yields entries
      that were validated, what is put is read back, requests and replies arrive,
      transient states are retried.
    - drbdadm: deferred commands run once, after what they depend on, and the loop
      over them ends; up runs them in order, adjust of a stopped resource runs the
      same, adjust of a resource that runs as configured schedules nothing; no
      array of arguments is overrun; the parser goes round for ever only at the
      end of a file.
    - The programs together: drbdsetup understands the command lines of drbdadm
      as they are meant, options that are set are shown with values that are found
      equal, and the text of drbdsetup show is parsed into what is shown.

    ** Bounds and fuel

    Loops of the code that are not structural take a bound: the copies of the
    bitmap in chunks ([chunks], one more than the quotient), the retries of
    [open] (the list of errors the system gives), the scanners (the length of the
    text), the parser of bitmap entries (the tokens left), the windows of a
    restored bitmap (two, [parse_bitmap_two_rounds]), the walk over attributes
    (their length), receiving (the events of the socket), retried requests (the
    rounds, an argument of the theorem), the turns over the stages (the commands
    that are outstanding, and one), the objects in a command line (the keys of a
    command), waiting for a size (the 30 or 100 turns of the code), the loops of
    the parser (the characters that are left, and one).  Walks
    and scanners cannot run out of their bound, because every step consumes a
    part of the text; where another bound runs out the model gives [Fault] or
    [None], and the theorems show the result, so that the bounds are enough.  The
    parser of the configuration gives [Endless] when
    a loop turns without reading, which is proved to happen at the end of a file
    only; included files and templates may be nested as deep as the argument
    [depth] says ([TooDeep] otherwise; the code has no limit).

    ** Not modelled

    Messages to stderr and the verbose dump of the activity log, usage texts, the
    lock files, logging and processes; the netlink socket ([genl_connect]); keys
    ([KEYUTILS]) and the support for DRBD 8.4 ([WITH_84_SUPPORT]); the limits and
    defaults of options, which come from drbd-headers; in drbdadm the checks and
    completions between parsing and using a configuration (drbdadm_postparse.c) -
    what they fill in is an argument of the commands -, dumping the configuration,
    the proxy, the counting of installations, interactive waiting; in drbdsetup
    the status, the events and the output in JSON; the tools of DRBD 8.4, drbdmon
    and the Windows port, as listed in the manifest.
*)

From stdpp Require Export base tactics numbers list strings.
From Stdlib Require Export ZArith Lia Bool.

#[global] Open Scope Z_scope.

(** ** Notations of the development *)

Declare Scope drbd_scope.
Delimit Scope drbd_scope with drbd.

(** ** Hint databases

    [drbd_range] closes range goals about machine integers;
    [drbd_int] rewrites away conversions that do not change the value. *)
Create HintDb drbd_range.
Create HintDb drbd_int.

(** ** Record update

    [upd f g r] replaces field [f] of the record [r] by [g (f r)].  A record
    type declares its eta-expansion as an instance of [Eta]; the updater of a
    field is then computed from it. *)
Class Eta (R : Type) := eta_of : R -> R.

Class Upd {R E : Type} (f : R -> E) := upd_with : (E -> E) -> R -> R.

Ltac derive_upd R f :=
  let e := eval cbv delta [eta_of] in (_ : Eta R) in
  let e := eval hnf in (@eta_of R _) in
  match eval pattern f in e with
  | ?k _ => exact (fun g => k (fun r => g (f r)))
  end.

#[export] Hint Extern 0 (@Upd ?R _ ?f) => derive_upd R f : typeclass_instances.

Definition upd {R E : Type} (f : R -> E) `{u : !Upd f} (g : E -> E) (r : R) : R :=
  u g r.
Arguments upd {R E} f {u} g r / : assert.

Notation "r <| f := v |>" := (upd f (fun _ => v) r)
  (at level 12, left associativity, f at next level, v at level 60,
   format "r  <| f  :=  v |>") : drbd_scope.
#[global] Open Scope drbd_scope.

(** ** C integers

    A value of an unsigned type of [w] bits is a [Z] in [0, 2^w); a value of
    a signed type of [w] bits is a [Z] in [-2^(w-1), 2^(w-1)).  The
    conversions below are the C conversions to these types (modulo 2^w, and
    for the signed ones the two's complement wrap the compilers use). *)
Definition u8 (x : Z) : Z := x mod 2 ^ 8.
Definition u16 (x : Z) : Z := x mod 2 ^ 16.
Definition u32 (x : Z) : Z := x mod 2 ^ 32.
Definition u64 (x : Z) : Z := x mod 2 ^ 64.
Definition s32 (x : Z) : Z := (x + 2 ^ 31) mod 2 ^ 32 - 2 ^ 31.
Definition s64 (x : Z) : Z := (x + 2 ^ 63) mod 2 ^ 64 - 2 ^ 63.

Definition in_u16 (x : Z) : Prop := 0 <= x < 2 ^ 16.
Definition in_u32 (x : Z) : Prop := 0 <= x < 2 ^ 32.
Definition in_u64 (x : Z) : Prop := 0 <= x < 2 ^ 64.
Definition in_s32 (x : Z) : Prop := - 2 ^ 31 <= x < 2 ^ 31.

#[export] Hint Unfold in_u16 in_u32 in_u64 in_s32 : drbd_range.

Lemma u8_range x : 0 <= u8 x < 256.
Proof. unfold u8. apply Z.mod_pos_bound. lia. Qed.

Lemma u16_range x : in_u16 (u16 x).
Proof. unfold in_u16, u16. apply Z.mod_pos_bound. lia. Qed.

Lemma u32_range x : in_u32 (u32 x).
Proof. unfold in_u32, u32. apply Z.mod_pos_bound. lia. Qed.

Lemma u64_range x : in_u64 (u64 x).
Proof. unfold in_u64, u64. apply Z.mod_pos_bound. lia. Qed.

Lemma s32_range x : in_s32 (s32 x).
Proof.
  unfold in_s32, s32. pose proof (Z.mod_pos_bound (x + 2 ^ 31) (2 ^ 32)). lia.
Qed.

#[export] Hint Resolve u8_range u16_range u32_range u64_range s32_range : drbd_range.

Lemma u16_id x : in_u16 x -> u16 x = x.
Proof. intros. unfold u16. by apply Z.mod_small. Qed.

Lemma u32_id x : in_u32 x -> u32 x = x.
Proof. intros. unfold u32. by apply Z.mod_small. Qed.

Lemma u64_id x : in_u64 x -> u64 x = x.
Proof. intros. unfold u64. by apply Z.mod_small. Qed.

Lemma s32_id x : in_s32 x -> s32 x = x.
Proof. unfold in_s32, s32. intros. rewrite Z.mod_small; lia. Qed.

Lemma s64_id x : - 2 ^ 63 <= x < 2 ^ 63 -> s64 x = x.
Proof. unfold s64. intros. rewrite Z.mod_small; lia. Qed.

(** Converting a signed value to unsigned and back is the identity. *)
Lemma s32_u32 x : s32 (u32 x) = s32 x.
Proof. unfold s32, u32. rewrite Zplus_mod_idemp_l. done. Qed.

Lemma u32_s32 x : u32 (s32 x) = u32 x.
Proof.
  unfold s32, u32. rewrite Zminus_mod_idemp_l. f_equal. lia.
Qed.

Lemma u32_u64 x : u32 (u64 x) = u32 x.
Proof.
  unfold u32, u64. apply Z.mod_mod_divide. by exists (2 ^ 32).
Qed.

(** [solve_int] : range side conditions of the conversions. *)
Ltac solve_int :=
  repeat match goal with
         | H : in_u16 _ |- _ => unfold in_u16 in H
         | H : in_u32 _ |- _ => unfold in_u32 in H
         | H : in_u64 _ |- _ => unfold in_u64 in H
         | H : in_s32 _ |- _ => unfold in_s32 in H
         end;
  unfold in_u16, in_u32, in_u64, in_s32 in *; try lia.

(** Removes the conversions whose argument is provably in range. *)
Ltac norm_int :=
  repeat first
    [ rewrite u64_id by solve_int
    | rewrite u32_id by solve_int
    | rewrite s32_id by solve_int
    | rewrite s64_id by solve_int ].

(** ** Alignment and powers of two *)

(** [ALIGN(x, a)] of drbdmeta.h, for an [x] of a 64 bit unsigned type. *)
Definition ALIGN (x a : Z) : Z :=
  Z.land (u64 (x + (a - 1))) (u64 (Z.lnot (a - 1))).

Definition is_power_of_2 (n : Z) : bool :=
  negb (n =? 0) && (Z.land n (u64 (n - 1)) =? 0).

Definition round_down (i g : Z) : Z := i / g * g.

(** [ilog2]: 63 minus the number of leading zeros of a nonzero 64 bit word. *)
Definition ilog2 (word : Z) : Z := Z.log2 word.

Lemma land_lnot_ones x k :
  0 <= k -> Z.land x (Z.lnot (2 ^ k - 1)) = x / 2 ^ k * 2 ^ k.
Proof.
  intros Hk. replace (2 ^ k - 1) with (Z.ones k) by (rewrite Z.ones_equiv; lia).
  rewrite <- Z.ldiff_land, Z.ldiff_ones_r, Z.shiftl_mul_pow2, Z.shiftr_div_pow2 by lia.
  done.
Qed.

Lemma land_le_r x y : 0 <= x -> 0 <= y -> 0 <= Z.land x y <= y.
Proof.
  intros. split; [apply Z.land_nonneg; lia|].
  rewrite <- (Z2N.id x), <- (Z2N.id y) by done.
  rewrite <- N2Z.inj_land, <- N2Z.inj_le. apply N.land_le_r.
Qed.

Lemma land_u64_r x y : in_u64 x -> Z.land x (u64 y) = Z.land x y.
Proof.
  intros Hx. unfold u64. rewrite <- Z.land_ones by lia.
  rewrite (Z.land_comm y), Z.land_assoc, (Z.land_ones x) by lia.
  by rewrite Z.mod_small by solve_int.
Qed.

Lemma ALIGN_spec x k :
  0 <= k < 64 -> 0 <= x -> x + 2 ^ k <= 2 ^ 64 ->
  ALIGN x (2 ^ k) = (x + 2 ^ k - 1) / 2 ^ k * 2 ^ k.
Proof.
  intros Hk Hx Hlt. assert (0 < 2 ^ k) by (apply Z.pow_pos_nonneg; lia).
  unfold ALIGN. rewrite u64_id by solve_int.
  rewrite land_u64_r by solve_int.
  rewrite land_lnot_ones by lia. do 2 f_equal. lia.
Qed.

(** The least multiple of [2^k] that is at least [x]. *)
Lemma ALIGN_bounds x k :
  0 <= k < 64 -> 0 <= x -> x + 2 ^ k <= 2 ^ 64 ->
  x <= ALIGN x (2 ^ k) < x + 2 ^ k /\ (2 ^ k | ALIGN x (2 ^ k)).
Proof.
  intros Hk Hx Hlt. assert (0 < 2 ^ k) by (apply Z.pow_pos_nonneg; lia).
  rewrite ALIGN_spec by done. split; [| by apply Z.divide_factor_r].
  pose proof (Z.div_mod (x + 2 ^ k - 1) (2 ^ k)).
  pose proof (Z.mod_pos_bound (x + 2 ^ k - 1) (2 ^ k)). lia.
Qed.

Lemma ALIGN_id x k :
  0 <= k < 64 -> 0 <= x -> x + 2 ^ k <= 2 ^ 64 -> (2 ^ k | x) -> ALIGN x (2 ^ k) = x.
Proof.
  intros Hk Hx Hlt [q ->]. assert (0 < 2 ^ k) by (apply Z.pow_pos_nonneg; lia).
  rewrite ALIGN_spec by done. f_equal. symmetry. apply Z.div_unique with (2 ^ k - 1); lia.
Qed.

Lemma ALIGN_mono x y k :
  0 <= k < 64 -> 0 <= x <= y -> y + 2 ^ k <= 2 ^ 64 -> ALIGN x (2 ^ k) <= ALIGN y (2 ^ k).
Proof.
  intros. assert (0 < 2 ^ k) by (apply Z.pow_pos_nonneg; lia).
  rewrite !ALIGN_spec by lia. apply Z.mul_le_mono_nonneg_r; [lia|].
  apply Z.div_le_mono; lia.
Qed.

Lemma is_power_of_2_spec n :
  in_u64 n -> is_power_of_2 n = true <-> exists k, 0 <= k < 64 /\ n = 2 ^ k.
Proof.
  intros Hn. unfold is_power_of_2. rewrite andb_true_iff, negb_true_iff, Z.eqb_neq, Z.eqb_eq.
  split.
  - intros [Hnz Hland]. rewrite land_u64_r in Hland by done.
    destruct Hn as [Hn0 Hn1].
    assert (0 <= Z.log2 n) by apply Z.log2_nonneg.
    exists (Z.log2 n). split.
    { split; [done|]. apply Z.log2_lt_pow2; lia. }
    destruct (Z.log2_spec n ltac:(lia)) as [Hlo Hhi].
    destruct (Z.eq_dec n (2 ^ Z.log2 n)) as [|Hne]; [done|].
    assert (Hbit : Z.testbit (Z.land n (n - 1)) (Z.log2 n) = true).
    { rewrite Z.land_spec, Z.bit_log2 by lia. simpl.
      assert (Z.log2 (n - 1) = Z.log2 n) as <-.
      { apply Z.log2_unique; lia. }
      apply Z.bit_log2. assert (0 < 2 ^ Z.log2 n) by (apply Z.pow_pos_nonneg; lia). lia. }
    by rewrite Hland, Z.bits_0 in Hbit.
  - intros (k & Hk & ->). assert (0 < 2 ^ k) by (apply Z.pow_pos_nonneg; lia).
    split; [lia|]. rewrite land_u64_r by done.
    replace (2 ^ k - 1) with (Z.ones k) by (rewrite Z.ones_equiv; lia).
    rewrite Z.land_ones by lia. apply Z.mod_same. lia.
Qed.

Lemma ilog2_pow2 k : 0 <= k -> ilog2 (2 ^ k) = k.
Proof. intros. by apply Z.log2_pow2. Qed.

(** ** Boolean decisions *)

(** The truth value C gives to an integer. *)
Definition truth (x : Z) : bool := negb (x =? 0).

Definition of_bool (b : bool) : Z := if b then 1 else 0.

(** Splits conjunctions of boolean tests in the hypotheses into linear facts. *)
Ltac bool_lia :=
  repeat match goal with
         | H : _ && _ = true |- _ => apply andb_true_iff in H; destruct H
         | H : _ || _ = false |- _ => apply orb_false_iff in H; destruct H
         | H : negb _ = true |- _ => apply negb_true_iff in H
         | H : negb _ = false |- _ => apply negb_false_iff in H
         end;
  lia.

(** ** Outcomes

    [exit(code)], [abort()] (a failed [ASSERT]) and an access outside of an
    array, which C leaves undefined. *)
Inductive res (A : Type) :=
  | Ok (a : A)
  | Exit (code : Z)
  | Abort
  | Fault.
Arguments Ok {A} a.
Arguments Exit {A} code.
Arguments Abort {A}.
Arguments Fault {A}.

(** Error numbers of [errno.h]. *)
Definition EINVAL : Z := 22.
Definition ERANGE : Z := 34.
Definition ENODATA : Z := 61.
Definition EMSGSIZE : Z := 90.

(** ** Lists *)

(** Reading an array at an index the C code computes: the code's arrays are
    read in range, and a [Z] index that is negative reads nothing. *)
Definition zlookup {A} (l : list A) (i : Z) : option A :=
  if i <? 0 then None else l !! Z.to_nat i.

Definition zinsert {A} (i : Z) (x : A) (l : list A) : list A :=
  if i <? 0 then l else <[Z.to_nat i := x]> l.

Lemma zlookup_lt {A} (l : list A) i x :
  zlookup l i = Some x -> 0 <= i < Z.of_nat (length l).
Proof.
  unfold zlookup. destruct (Z.ltb_spec i 0); [done|]. intros Hl.
  apply lookup_lt_Some in Hl. lia.
Qed.

Lemma zlookup_zinsert {A} (l : list A) i x :
  0 <= i < Z.of_nat (length l) -> zlookup (zinsert i x l) i = Some x.
Proof.
  intros. unfold zlookup, zinsert. destruct (Z.ltb_spec i 0); [lia|].
  apply list_lookup_insert_eq. lia.
Qed.

Lemma zlookup_zinsert_ne {A} (l : list A) i j x :
  i <> j -> zlookup (zinsert i x l) j = zlookup l j.
Proof.
  intros. unfold zlookup, zinsert. destruct (Z.ltb_spec i 0), (Z.ltb_spec j 0); try done.
  apply list_lookup_insert_ne. lia.
Qed.

Lemma length_zinsert {A} (l : list A) i x : length (zinsert i x l) = length l.
Proof. unfold zinsert. destruct (i <? 0); [done|]. apply length_insert. Qed.

Lemma zlookup_Forall {A} (P : A -> Prop) l i x : Forall P l -> zlookup l i = Some x -> P x.
Proof.
  intros Hl. unfold zlookup. destruct (i <? 0); [done|]. by apply Forall_lookup_1.
Qed.

Lemma find_app {A} (f : A -> bool) l1 l2 :
  List.find f (l1 ++ l2) = match List.find f l1 with Some x => Some x | None => List.find f l2 end.
Proof. induction l1 as [|x l1 IH]; [done|]. cbn. by destruct (f x). Qed.
