(* ===== verification/Machine.v ===== *)
(** * Byte memory, byte order and bit counting

    The memory of the tool: the I/O buffer [on_disk_buffer] and the content of
    the meta data device are both a [mem], a byte for every offset.  Loads and
    stores are those of a little-endian host; [__swab16], [__swab32],
    [__swab64] and the [cpu_to_*] conversions are those of
    user/shared/drbd_endian.h under [__BYTE_ORDER == __LITTLE_ENDIAN]. *)

From S2P Require Import Prelude.

(** ** Memories *)

Definition mem := Z -> Z.

(** Two memories are equivalent when they hold the same byte everywhere. *)
Definition mem_equiv (m1 m2 : mem) : Prop := forall i, m1 i = m2 i.

#[export] Instance mem_equiv_equivalence : Equivalence mem_equiv.
Proof.
  split; repeat intro; [done | by symmetry | by etransitivity; eauto].
Qed.

Definition zero_mem : mem := fun _ => 0.

(** Every cell is a byte. *)
Definition bytes (m : mem) : Prop := forall i, 0 <= m i < 256.

Definition in_range (i a n : Z) : bool := (a <=? i) && (i <? a + n).

(** [memset(m + a, c, n)] *)
Definition memset (m : mem) (a c n : Z) : mem :=
  fun i => if in_range i a n then c else m i.

(** [n] bytes of [src] from offset [sa] copied to offset [da] of [dst]. *)
Definition copy (dst : mem) (da : Z) (src : mem) (sa n : Z) : mem :=
  fun i => if in_range i da n then src (i - da + sa) else dst i.

Fixpoint load_le (n : nat) (m : mem) (a : Z) : Z :=
  match n with
  | O => 0
  | S n' => m a + 256 * load_le n' m (a + 1)
  end.

Fixpoint store_le (n : nat) (m : mem) (a v : Z) : mem :=
  match n with
  | O => m
  | S n' => store_le n' (fun i => if i =? a then v mod 256 else m i) (a + 1) (v / 256)
  end.

#[export] Instance memset_proper :
  Proper (mem_equiv ==> eq ==> eq ==> eq ==> mem_equiv) memset.
Proof.
  intros m1 m2 Hm a ? <- c ? <- n ? <- i. unfold memset. by destruct (in_range i a n).
Qed.

#[export] Instance copy_proper :
  Proper (mem_equiv ==> eq ==> mem_equiv ==> eq ==> eq ==> mem_equiv) copy.
Proof.
  intros d1 d2 Hd a ? <- s1 s2 Hs sa ? <- n ? <- i. unfold copy.
  by destruct (in_range i a n).
Qed.

#[export] Instance load_le_proper n : Proper (mem_equiv ==> eq ==> eq) (load_le n).
Proof.
  intros m1 m2 Hm a ? <-. revert a. induction n as [|n IH]; intros a; [done|].
  simpl. by rewrite Hm, IH.
Qed.

(** *** Loads and stores *)

Lemma store_le_other n m a v i : i < a \/ a + Z.of_nat n <= i -> store_le n m a v i = m i.
Proof.
  revert m a v. induction n as [|n IH]; intros m a v Hi; [done|].
  cbn [store_le]. rewrite IH by lia. destruct (Z.eqb_spec i a); [lia|done].
Qed.

Lemma load_le_ext n m1 m2 a :
  (forall i, a <= i < a + Z.of_nat n -> m1 i = m2 i) -> load_le n m1 a = load_le n m2 a.
Proof.
  revert a. induction n as [|n IH]; intros a Hm; [done|].
  cbn [load_le]. rewrite Hm by lia. rewrite (IH (a + 1)); [done|]. intros. apply Hm. lia.
Qed.

(** What a store leaves at [i] depends on the byte at [i] only. *)
Lemma store_le_ext_in n m1 m2 a v i :
  (m1 i = m2 i) -> store_le n m1 a v i = store_le n m2 a v i.
Proof.
  revert m1 m2 a v. induction n as [|n IH]; intros m1 m2 a v Hm; [done|]. cbn [store_le]. apply IH.
  by destruct (i =? a).
Qed.

Lemma load_store_le n m a v :
  load_le n (store_le n m a v) a = v mod 256 ^ Z.of_nat n.
Proof.
  revert m a v. induction n as [|n IH]; intros m a v.
  { simpl. symmetry. apply Z.mod_1_r. }
  cbn [load_le store_le]. rewrite IH, store_le_other by lia.
  rewrite Z.eqb_refl, Nat2Z.inj_succ, Z.pow_succ_r by lia.
  rewrite (Z.rem_mul_r v 256 (256 ^ Z.of_nat n)) by (try apply Z.pow_nonzero; lia).
  done.
Qed.

Lemma load_store_le_ne n k m a b v :
  b + Z.of_nat k <= a \/ a + Z.of_nat n <= b ->
  load_le k (store_le n m a v) b = load_le k m b.
Proof. intros Hd. apply load_le_ext. intros i Hi. apply store_le_other. lia. Qed.

Lemma store_le_bytes n m a v : bytes m -> bytes (store_le n m a v).
Proof.
  revert m a v. induction n as [|n IH]; intros m a v Hm; [done|].
  cbn [store_le]. apply IH. intros i. destruct (i =? a); [|apply Hm].
  apply Z.mod_pos_bound. lia.
Qed.

Lemma load_le_range n m a : bytes m -> 0 <= load_le n m a < 256 ^ Z.of_nat n.
Proof.
  intros Hm. revert a. induction n as [|n IH]; intros a; [done|].
  cbn [load_le]. specialize (IH (a + 1)). specialize (Hm a).
  rewrite Nat2Z.inj_succ, Z.pow_succ_r by lia. lia.
Qed.

Lemma memset_bytes m a c n : bytes m -> 0 <= c < 256 -> bytes (memset m a c n).
Proof. intros Hm Hc i. unfold memset. destruct (in_range i a n); auto. Qed.

Lemma copy_bytes d da s sa n : bytes d -> bytes s -> bytes (copy d da s sa n).
Proof. intros Hd Hs i. unfold copy. destruct (in_range i da n); auto. Qed.

#[export] Hint Resolve store_le_bytes memset_bytes copy_bytes : drbd_range.

Lemma in_range_spec i a n : in_range i a n = true <-> a <= i < a + n.
Proof. unfold in_range. rewrite andb_true_iff. lia. Qed.

Lemma in_range_false i a n : in_range i a n = false <-> ~ (a <= i < a + n).
Proof. rewrite <- not_true_iff_false, in_range_spec. done. Qed.

(** Decides every [in_range] test of the goal. *)
Ltac case_range :=
  repeat match goal with
         | |- context [in_range ?i ?a ?n] =>
             let H := fresh "Hr" in
             destruct (in_range i a n) eqn:H;
             [apply in_range_spec in H | apply in_range_false in H]
         end.

Lemma load_memset_zero n m a s k :
  s <= a -> a + Z.of_nat n <= s + k -> load_le n (memset m s 0 k) a = 0.
Proof.
  revert a. induction n as [|n IH]; intros a Hs Hk; [done|].
  cbn [load_le]. rewrite IH by lia. unfold memset. case_range; lia.
Qed.

Lemma load_copy n d da s sa k a :
  da <= a -> a + Z.of_nat n <= da + k ->
  load_le n (copy d da s sa k) a = load_le n s (a - da + sa).
Proof.
  revert a. induction n as [|n IH]; intros a Ha Hk; [done|].
  cbn [load_le]. rewrite IH by lia. unfold copy at 1. case_range; [|lia].
  do 3 f_equal; lia.
Qed.

(** ** Byte swapping (drbd_endian.h) *)

Definition __swab16 (x : Z) : Z :=
  let __x := u16 x in
  u16 (Z.lor (Z.shiftl (Z.land __x 0x00ff) 8)
             (Z.shiftr (Z.land __x 0xff00) 8)).

Definition __swab32 (x : Z) : Z :=
  let __x := u32 x in
  u32 (Z.lor (Z.lor (Z.lor
    (Z.shiftl (Z.land __x 0x000000ff) 24)
    (Z.shiftl (Z.land __x 0x0000ff00) 8))
    (Z.shiftr (Z.land __x 0x00ff0000) 8))
    (Z.shiftr (Z.land __x 0xff000000) 24)).

Definition __swab64 (x : Z) : Z :=
  let __x := u64 x in
  u64 (Z.lor (Z.lor (Z.lor (Z.lor (Z.lor (Z.lor (Z.lor
    (Z.shiftl (Z.land __x 0x00000000000000ff) 56)
    (Z.shiftl (Z.land __x 0x000000000000ff00) 40))
    (Z.shiftl (Z.land __x 0x0000000000ff0000) 24))
    (Z.shiftl (Z.land __x 0x00000000ff000000) 8))
    (Z.shiftr (Z.land __x 0x000000ff00000000) 8))
    (Z.shiftr (Z.land __x 0x0000ff0000000000) 24))
    (Z.shiftr (Z.land __x 0x00ff000000000000) 40))
    (Z.shiftr (Z.land __x 0xff00000000000000) 56)).

(** The conversions of a little-endian host. *)
Definition cpu_to_le64 (x : Z) : Z := u64 x.
Definition le64_to_cpu (x : Z) : Z := u64 x.
Definition cpu_to_le32 (x : Z) : Z := u32 x.
Definition le32_to_cpu (x : Z) : Z := u32 x.
Definition le16_to_cpu (x : Z) : Z := u16 x.
Definition cpu_to_be64 (x : Z) : Z := __swab64 x.
Definition be64_to_cpu (x : Z) : Z := __swab64 x.
Definition cpu_to_be32 (x : Z) : Z := __swab32 x.
Definition be32_to_cpu (x : Z) : Z := __swab32 x.
Definition cpu_to_be16 (x : Z) : Z := __swab16 x.
Definition be16_to_cpu (x : Z) : Z := __swab16 x.

(** *** Byte swapping reverses the bytes of the word *)

Fixpoint le_split (n : nat) (x : Z) : list Z :=
  match n with
  | O => []
  | S n' => x mod 256 :: le_split n' (x / 256)
  end.

Fixpoint le_combine (l : list Z) : Z :=
  match l with
  | [] => 0
  | b :: l' => b + 256 * le_combine l'
  end.

Definition byte_list (l : list Z) : Prop := Forall (fun b => 0 <= b < 256) l.

(** A memory that holds the list from offset 0 on. *)
Definition mem_of_list (l : list Z) : mem := fun i => default 0 (zlookup l i).

Lemma mem_of_list_bytes l : byte_list l -> bytes (mem_of_list l).
Proof.
  intros Hl i. unfold mem_of_list. destruct (zlookup l i) as [b|] eqn:Hb; [|done]. cbn.
  revert Hb. unfold zlookup. destruct (i <? 0); [done|]. intros Hb.
  by apply (Forall_lookup_1 _ _ _ _ Hl Hb).
Qed.

Lemma le_split_bytes n x : byte_list (le_split n x).
Proof.
  revert x. induction n as [|n IH]; intros x; [constructor|].
  constructor; [apply Z.mod_pos_bound; lia | apply IH].
Qed.

Lemma length_le_split n x : length (le_split n x) = n.
Proof. revert x. induction n; intros; simpl; auto. Qed.

Lemma le_split_combine l : byte_list l -> le_split (length l) (le_combine l) = l.
Proof.
  induction 1 as [|b l Hb _ IH]; [done|]. cbn [length le_split le_combine].
  assert ((b + 256 * le_combine l) mod 256 = b) as ->.
  { rewrite Z.mul_comm, Z.mod_add, Z.mod_small; lia. }
  assert ((b + 256 * le_combine l) / 256 = le_combine l) as ->.
  { rewrite Z.mul_comm, Z.div_add, Z.div_small; lia. }
  by rewrite IH.
Qed.

Lemma le_combine_split n x : le_combine (le_split n x) = x mod 256 ^ Z.of_nat n.
Proof.
  revert x. induction n as [|n IH]; intros x; [symmetry; apply Z.mod_1_r|].
  cbn [le_split le_combine]. rewrite IH, Nat2Z.inj_succ, Z.pow_succ_r by lia.
  rewrite (Z.rem_mul_r x 256) by (try apply Z.pow_nonzero; lia). done.
Qed.

Lemma le_combine_range l : byte_list l -> 0 <= le_combine l < 256 ^ Z.of_nat (length l).
Proof.
  induction 1 as [|b l Hb _ IH]; [done|]. cbn [length le_combine].
  rewrite Nat2Z.inj_succ, Z.pow_succ_r by lia. lia.
Qed.

Lemma lor_add a b k : 0 <= k -> (2 ^ k | a) -> 0 <= b < 2 ^ k -> Z.lor a b = a + b.
Proof.
  intros Hk [q ->] Hb.
  assert (Hland : Z.land (q * 2 ^ k) b = 0).
  { apply Z.bits_inj'. intros i Hi. rewrite Z.land_spec, Z.bits_0.
    destruct (Z.lt_ge_cases i k).
    - by rewrite Z.mul_pow2_bits_low.
    - assert (Z.testbit b i = false) as ->; [|by rewrite andb_false_r].
      destruct (Z.eq_dec b 0) as [->|]; [apply Z.bits_0|].
      apply Z.bits_above_log2; [lia|]. apply Z.log2_lt_pow2; [lia|].
      apply Z.lt_le_trans with (2 ^ k); [lia|]. by apply Z.pow_le_mono_r; lia. }
  by rewrite <- Z.lxor_lor, <- Z.add_nocarry_lxor.
Qed.

(** Masking byte [k] of a word. *)
Lemma land_byte x k :
  0 <= k -> Z.land x (255 * 2 ^ k) = (x / 2 ^ k) mod 256 * 2 ^ k.
Proof.
  intros Hk. replace (255 * 2 ^ k) with (Z.shiftl (Z.ones 8) k)
    by (rewrite Z.shiftl_mul_pow2 by lia; done).
  rewrite <- (Z.shiftl_mul_pow2 _ k) by lia.
  change 256 with (2 ^ 8). rewrite <- Z.land_ones, <- Z.shiftr_div_pow2 by lia.
  apply Z.bits_inj'. intros i Hi.
  rewrite Z.land_spec, !Z.shiftl_spec, Z.land_spec by lia.
  destruct (Z.lt_ge_cases i k).
  - rewrite !(Z.testbit_neg_r _ (i - k)) by lia. by rewrite andb_false_r.
  - rewrite Z.shiftr_spec by lia. repeat f_equal. lia.
Qed.

Lemma byte_shl x k s :
  0 <= k -> 0 <= s ->
  Z.shiftl (Z.land x (255 * 2 ^ k)) s = (x / 2 ^ k) mod 256 * 2 ^ (k + s).
Proof.
  intros. rewrite land_byte, Z.shiftl_mul_pow2, Z.pow_add_r by lia. ring.
Qed.

Lemma byte_shr x k s :
  0 <= s <= k ->
  Z.shiftr (Z.land x (255 * 2 ^ k)) s = (x / 2 ^ k) mod 256 * 2 ^ (k - s).
Proof.
  intros. rewrite land_byte, Z.shiftr_div_pow2 by lia.
  replace k with (k - s + s) at 2 by lia. rewrite Z.pow_add_r, Z.mul_assoc by lia.
  apply Z.div_mul. apply Z.pow_nonzero; lia.
Qed.

Lemma le_split_mod n x : le_split n (x mod 256 ^ Z.of_nat n) = le_split n x.
Proof.
  rewrite <- le_combine_split, <- (length_le_split n x) at 1.
  apply le_split_combine, le_split_bytes.
Qed.

(** Turns the or of bytes at distinct positions into a sum. *)
Ltac sum_bytes :=
  repeat match goal with
         | |- context [Z.lor ?a (?b * ?p)] =>
             lazymatch a with context [Z.lor _ _] => fail | _ => idtac end;
             let k := eval vm_compute in (Z.log2 p + 8) in
             rewrite (lor_add a (b * p) k);
             [| lia
              | let q := eval vm_compute in (2 ^ k) in change (2 ^ k) with q;
                repeat apply Z.divide_add_r;
                match goal with |- (_ | ?c * ?m) =>
                  let e := eval vm_compute in (m / q) in exists (c * e); lia end
              | let q := eval vm_compute in (2 ^ k) in change (2 ^ k) with q; lia ]
         end.

Ltac name_bytes :=
  repeat match goal with
         | |- context [?x mod 256] =>
             let b := fresh "b" in let Hb := fresh "Hb" in
             pose proof (Z.mod_pos_bound x 256 ltac:(lia)) as Hb;
             set (b := x mod 256) in *; clearbody b
         end.

Ltac masked_bytes :=
  repeat match goal with
         | |- context [Z.shiftl (Z.land ?x ?m) ?s] =>
             let k := eval vm_compute in (Z.log2 m - 7) in
             change (Z.land x m) with (Z.land x (255 * 2 ^ k));
             rewrite (byte_shl x k s) by lia
         | |- context [Z.shiftr (Z.land ?x ?m) ?s] =>
             let k := eval vm_compute in (Z.log2 m - 7) in
             change (Z.land x m) with (Z.land x (255 * 2 ^ k));
             rewrite (byte_shr x k s) by lia
         end;
  repeat match goal with
         | |- context [2 ^ ?e] => let v := eval vm_compute in (2 ^ e) in change (2 ^ e) with v
         end.

Lemma le_rev_range n x : 0 <= le_combine (rev (le_split n x)) < 256 ^ Z.of_nat n.
Proof.
  rewrite <- (length_le_split n x) at 3. rewrite <- length_rev.
  apply le_combine_range, Forall_rev, le_split_bytes.
Qed.

Ltac join_divs :=
  rewrite ?Z.div_div by lia; rewrite ?Z.div_1_r;
  repeat match goal with
         | |- context [_ / (?a * ?b)] =>
             let v := eval vm_compute in (a * b) in change (a * b) with v
         end.

(** [__swab{16,32,64}] on [n] bytes: both sides become the same weighted sum of
    the bytes of the argument. *)
Ltac swab_spec x n m :=
  rewrite <- (le_split_mod n x); generalize (le_rev_range n x);
  rewrite <- (le_split_mod n x);
  unfold __swab16, __swab32, __swab64, u16, u32, u64; cbv zeta;
  change (256 ^ Z.of_nat n) with m; generalize (x mod m);
  clear; let y := fresh in intros y;
  masked_bytes; cbn [le_split rev app le_combine]; join_divs;
  name_bytes; sum_bytes; intros; rewrite Z.mod_small; lia.

Lemma __swab16_spec x : __swab16 x = le_combine (rev (le_split 2 x)).
Proof. swab_spec x 2%nat (2 ^ 16). Qed.

Lemma __swab32_spec x : __swab32 x = le_combine (rev (le_split 4 x)).
Proof. swab_spec x 4%nat (2 ^ 32). Qed.

Lemma __swab64_spec x : __swab64 x = le_combine (rev (le_split 8 x)).
Proof. swab_spec x 8%nat (2 ^ 64). Qed.

Lemma swab_involutive n x :
  le_combine (rev (le_split n (le_combine (rev (le_split n x))))) = x mod 256 ^ Z.of_nat n.
Proof.
  rewrite <- (length_le_split n x) at 1. rewrite <- length_rev.
  rewrite le_split_combine by apply Forall_rev, le_split_bytes.
  by rewrite rev_involutive, le_combine_split.
Qed.

Lemma be16_cpu x : be16_to_cpu (cpu_to_be16 x) = u16 x.
Proof. unfold be16_to_cpu, cpu_to_be16. rewrite !__swab16_spec. apply swab_involutive. Qed.

Lemma be32_cpu x : be32_to_cpu (cpu_to_be32 x) = u32 x.
Proof. unfold be32_to_cpu, cpu_to_be32. rewrite !__swab32_spec. apply swab_involutive. Qed.

Lemma be64_cpu x : be64_to_cpu (cpu_to_be64 x) = u64 x.
Proof. unfold be64_to_cpu, cpu_to_be64. rewrite !__swab64_spec. apply swab_involutive. Qed.

Lemma be16_range x : in_u16 (be16_to_cpu x).
Proof. unfold be16_to_cpu. rewrite __swab16_spec. apply (le_rev_range 2). Qed.

Lemma be32_range x : in_u32 (be32_to_cpu x).
Proof. unfold be32_to_cpu. rewrite __swab32_spec. apply (le_rev_range 4). Qed.

Lemma be64_range x : in_u64 (be64_to_cpu x).
Proof. unfold be64_to_cpu. rewrite __swab64_spec. apply (le_rev_range 8). Qed.

#[export] Hint Resolve be16_range be32_range be64_range : drbd_range.

(** *** Bits of loaded and stored words *)

Lemma load_le_bit n m a j k :
  bytes m -> 0 <= j < Z.of_nat n -> 0 <= k < 8 ->
  Z.testbit (load_le n m a) (8 * j + k) = Z.testbit (m (a + j)) k.
Proof.
  intros Hm. revert a j. induction n as [|n IH]; intros a j Hj Hk; [lia|].
  cbn [load_le]. replace (m a + 256 * load_le n m (a + 1))
    with (Z.lor (load_le n m (a + 1) * 2 ^ 8) (m a))
    by (rewrite (lor_add _ _ 8); [lia | lia | apply Z.divide_factor_r | apply Hm]).
  rewrite Z.lor_spec. destruct (Z.eq_dec j 0) as [->|].
  - rewrite Z.mul_pow2_bits_low by lia. rewrite orb_false_l. by replace (a + 0) with a by lia.
  - rewrite Z.mul_pow2_bits by lia.
    replace (8 * j + k - 8) with (8 * (j - 1) + k) by lia. rewrite IH by lia.
    rewrite (Z.bits_above_log2 (m a)), orb_false_r.
    + do 2 f_equal. lia.
    + apply Hm.
    + destruct (Z.eq_dec (m a) 0) as [->|]; [cbn; lia|].
      assert (Z.log2 (m a) < 8) by (apply Z.log2_lt_pow2; pose proof (Hm a); lia). lia.
Qed.

Lemma store_le_bit n m a v j k :
  0 <= j < Z.of_nat n -> 0 <= k < 8 ->
  Z.testbit (store_le n m a v (a + j)) k = Z.testbit v (8 * j + k).
Proof.
  revert m a v j. induction n as [|n IH]; intros m a v j Hj Hk; [lia|]. cbn [store_le].
  destruct (Z.eq_dec j 0) as [->|].
  - rewrite store_le_other by lia. replace (a + 0 =? a) with true by lia.
    change 256 with (2 ^ 8). rewrite Z.mod_pow2_bits_low by lia. f_equal; lia.
  - replace (a + j) with (a + 1 + (j - 1)) by lia. rewrite IH by lia.
    change 256 with (2 ^ 8). rewrite Z.div_pow2_bits by lia. f_equal; lia.
Qed.
