(* ===== verification/Nla.v ===== *)
(** * Reading netlink attributes

    The reading half of user/shared/libnla.c and of the attribute functions of
    user/shared/libgenl.h: the loop over a stream of attributes, validation
    against a policy, [nla_parse], [nla_find] and the access to payloads.

    A received message is a memory and a pointer into it is an offset.  The
    constants and the layout of [struct nlattr] (two 16 bit words, [nla_len]
    and [nla_type], in the byte order of the host) are those of the kernel
    header linux/netlink.h. *)

From S2P Require Import Prelude Machine.
From stdpp Require Import gmap.

#[local] Open Scope Z_scope.

(** ** linux/netlink.h *)

Definition NLA_HDRLEN : Z := 4.
Definition NLA_F_NESTED : Z := 2 ^ 15.
Definition NLA_TYPE_MASK : Z := 2 ^ 14 - 1.

(** [int] arithmetic: [(len + 3) & ~3] *)
Definition NLA_ALIGN (len : Z) : Z := Z.land (s32 (len + 3)) (Z.lnot 3).

Definition nlattr_nla_len (m : mem) (nla : Z) : Z := load_le 2 m nla.
Definition nlattr_nla_type (m : mem) (nla : Z) : Z := load_le 2 m (nla + 2).

(** ** Sizes (libgenl.h) *)

Definition nla_attr_size (payload : Z) : Z := s32 (NLA_HDRLEN + payload).
Definition nla_total_size (payload : Z) : Z := NLA_ALIGN (nla_attr_size payload).
Definition nla_padlen (payload : Z) : Z := s32 (nla_total_size payload - nla_attr_size payload).

(** ** Attributes (libgenl.h) *)

Definition nla_type (m : mem) (nla : Z) : Z := Z.land (nlattr_nla_type m nla) NLA_TYPE_MASK.
Definition nla_data (nla : Z) : Z := nla + NLA_HDRLEN.
Definition nla_len (m : mem) (nla : Z) : Z := nlattr_nla_len m nla - NLA_HDRLEN.

Definition nla_ok (m : mem) (nla remaining : Z) : bool :=
  (4 <=? remaining) && (4 <=? nlattr_nla_len m nla) && (nlattr_nla_len m nla <=? remaining).

(** The next attribute, and what is left in [*remaining]. *)
Definition nla_next (m : mem) (nla remaining : Z) : Z * Z :=
  let totlen := NLA_ALIGN (nlattr_nla_len m nla) in
  (nla + totlen, s32 (remaining - totlen)).

(** The attributes [nla_for_each_attr] visits from [pos] on, and the [rem] it
    leaves.  An attribute takes at least four bytes: [rem] rounds are enough. *)
Fixpoint nla_walk (fuel : nat) (m : mem) (pos rem : Z) : list Z * Z :=
  match fuel with
  | O => ([], rem)
  | S fuel' =>
      if nla_ok m pos rem then
        let '(pos', rem') := nla_next m pos rem in
        let '(l, r) := nla_walk fuel' m pos' rem' in (pos :: l, r)
      else ([], rem)
  end.

Definition nla_for_each_attr (m : mem) (head len : Z) : list Z :=
  (nla_walk (S (Z.to_nat len)) m head len).1.

Definition nla_for_each_nested (m : mem) (nla : Z) : list Z :=
  nla_for_each_attr m (nla_data nla) (nla_len m nla).

(** ** Policies (libgenl.h) *)

Definition NLA_UNSPEC : Z := 0.
Definition NLA_U8 : Z := 1.
Definition NLA_U16 : Z := 2.
Definition NLA_U32 : Z := 3.
Definition NLA_U64 : Z := 4.
Definition NLA_STRING : Z := 5.
Definition NLA_FLAG : Z := 6.
Definition NLA_MSECS : Z := 7.
Definition NLA_NESTED : Z := 8.
Definition NLA_NESTED_COMPAT : Z := 9.
Definition NLA_NUL_STRING : Z := 10.
Definition NLA_BINARY : Z := 11.
Definition NLA_TYPE_MAX : Z := 11.

Record nla_policy := mk_nla_policy { pt_type : Z; pt_len : Z }.

(** An entry a designated initializer leaves out. *)
Definition no_policy : nla_policy := mk_nla_policy NLA_UNSPEC 0.

(** [NLA_TYPE_MAX + 1] entries; those without an initializer are zero. *)
Definition nla_attr_minlen : list Z := [0; 1; 2; 4; 8; 0; 0; 0; NLA_HDRLEN; 0; 0; 0].

(** ** Validation (libnla.c) *)

(** [memchr(m + a, c, n) != NULL] *)
Definition memchr (m : mem) (a c n : Z) : bool := existsb (fun i => m i =? c) (seqZ a n).

(** The cases [NLA_NUL_STRING] (up to the fall through), [NLA_STRING],
    [NLA_NESTED_COMPAT] and [default] of [validate_nla]. *)
Definition validate_nul (m : mem) (nla attrlen : Z) (pt : nla_policy) : bool :=
  let minlen := if truth (pt_len pt) then Z.min attrlen (pt_len pt + 1) else attrlen in
  truth minlen && memchr m (nla_data nla) 0 minlen.

Definition validate_string (m : mem) (nla attrlen : Z) (pt : nla_policy) : Z :=
  if attrlen <? 1 then - ERANGE
  else if truth (pt_len pt) then
    let attrlen := if m (nla_data nla + attrlen - 1) =? 0 then attrlen - 1 else attrlen in
    if pt_len pt <? attrlen then - ERANGE else 0
  else 0.

Definition validate_compat (m : mem) (nla attrlen : Z) (pt : nla_policy) : Z :=
  if attrlen <? pt_len pt then - ERANGE
  else if attrlen <? NLA_ALIGN (pt_len pt) then 0
  else if attrlen <? NLA_ALIGN (pt_len pt) + NLA_HDRLEN then - ERANGE
  else
    let nla := nla_data nla + NLA_ALIGN (pt_len pt) in
    if attrlen <? NLA_ALIGN (pt_len pt) + NLA_HDRLEN + nla_len m nla then - ERANGE else 0.

Definition validate_default (attrlen : Z) (pt : nla_policy) : res Z :=
  let check minlen := if attrlen <? minlen then Ok (- ERANGE) else Ok 0 in
  if truth (pt_len pt) then check (pt_len pt)
  else if negb (pt_type pt =? NLA_UNSPEC) then
    match zlookup nla_attr_minlen (pt_type pt) with Some n => check n | None => Fault end
  else check 0.

Definition validate_pt (m : mem) (nla : Z) (pt : nla_policy) : res Z :=
  let attrlen := nla_len m nla in
  let t := pt_type pt in
  if NLA_TYPE_MAX <? t then Abort
  else if t =? NLA_FLAG then Ok (if 0 <? attrlen then - ERANGE else 0)
  else if t =? NLA_NUL_STRING then
    Ok (if validate_nul m nla attrlen pt then validate_string m nla attrlen pt else - EINVAL)
  else if t =? NLA_STRING then Ok (validate_string m nla attrlen pt)
  else if t =? NLA_BINARY then
    Ok (if truth (pt_len pt) && (pt_len pt <? attrlen) then - ERANGE else 0)
  else if t =? NLA_NESTED_COMPAT then Ok (validate_compat m nla attrlen pt)
  else if (t =? NLA_NESTED) && (attrlen =? 0) then Ok 0
  else validate_default attrlen pt.

(** The policy is an array; an attribute whose type is beyond its end is read
    outside of it. *)
Definition validate_nla (m : mem) (nla maxtype : Z) (policy : list nla_policy) : res Z :=
  let type := nla_type m nla in
  if (type <=? 0) || (maxtype <? type) then Ok 0
  else match zlookup policy type with
       | Some pt => validate_pt m nla pt
       | None => Fault
       end.

Fixpoint validate_all (m : mem) (maxtype : Z) (policy : list nla_policy) (l : list Z) : res Z :=
  match l with
  | [] => Ok 0
  | nla :: l' =>
      match validate_nla m nla maxtype policy with
      | Ok err => if err <? 0 then Ok err else validate_all m maxtype policy l'
      | r => r
      end
  end.

Definition nla_validate (m : mem) (head len maxtype : Z) (policy : list nla_policy) : res Z :=
  validate_all m maxtype policy (nla_for_each_attr m head len).

Definition nla_validate_nested (m : mem) (start maxtype : Z) (policy : list nla_policy) : res Z :=
  nla_validate m (nla_data start) (nla_len m start) maxtype policy.

(** [None]: a policy type outside of [nla_attr_minlen]. *)
Fixpoint nla_policy_len (p : list nla_policy) (n : nat) (len : Z) : option Z :=
  match n, p with
  | O, _ => Some len
  | S n', pt :: p' =>
      if truth (pt_len pt) then nla_policy_len p' n' (s32 (len + nla_total_size (pt_len pt)))
      else
        minlen ← zlookup nla_attr_minlen (pt_type pt);
        nla_policy_len p' n' (if truth minlen then s32 (len + nla_total_size minlen) else len)
  | S _, [] => None
  end.

(** ** Parsing (libnla.c) *)

(** [tb]: the array of attribute pointers; a NULL entry is absent. *)
Fixpoint parse_all (m : mem) (maxtype : Z) (policy : option (list nla_policy))
    (l : list Z) (tb : gmap Z Z) : res Z * gmap Z Z :=
  match l with
  | [] => (Ok 0, tb)
  | nla :: l' =>
      let type := u16 (nla_type m nla) in
      if (0 <? type) && (type <=? maxtype) then
        match policy with
        | Some p =>
            match validate_nla m nla maxtype p with
            | Ok err =>
                if err <? 0 then (Ok err, tb)
                else parse_all m maxtype policy l' (<[type := nla]> tb)
            | r => (r, tb)
            end
        | None => parse_all m maxtype policy l' (<[type := nla]> tb)
        end
      else parse_all m maxtype policy l' tb
  end.

Definition nla_parse (m : mem) (maxtype head len : Z) (policy : option (list nla_policy)) :
    res Z * gmap Z Z :=
  parse_all m maxtype policy (nla_for_each_attr m head len) ∅.

Definition nla_parse_nested (m : mem) (maxtype nla : Z) (policy : option (list nla_policy)) :
    res Z * gmap Z Z :=
  nla_parse m maxtype (nla_data nla) (nla_len m nla) policy.

Definition nla_find (m : mem) (head len attrtype : Z) : option Z :=
  List.find (fun nla => nla_type m nla =? attrtype) (nla_for_each_attr m head len).

Definition nla_find_nested (m : mem) (nla attrtype : Z) : option Z :=
  nla_find m (nla_data nla) (nla_len m nla) attrtype.

(** ** Payloads (libnla.c, libgenl.h) *)

(** [n] bytes from offset [a]. *)
Definition bytes_of (m : mem) (a n : Z) : list Z := m <$> seqZ a n.

Definition payload (m : mem) (nla : Z) : list Z := bytes_of m (nla_data nla) (nla_len m nla).

(** The source's length without the trailing NUL, and the filled destination
    buffer. *)
Definition nla_strlcpy (m : mem) (nla dstsize : Z) : Z * list Z :=
  let srclen := u64 (nla_len m nla) in
  let src := nla_data nla in
  let srclen := if (0 <? srclen) && (m (src + srclen - 1) =? 0) then srclen - 1 else srclen in
  (srclen,
   if 0 <? dstsize then
     let len := if dstsize <=? srclen then dstsize - 1 else srclen in
     bytes_of m src len ++ replicate (Z.to_nat (dstsize - len)) 0
   else []).

(** The number of bytes and the bytes; a negative count is a huge [size_t]. *)
Definition nla_memcpy (m : mem) (src count : Z) : res (Z * list Z) :=
  let minlen := Z.min count (nla_len m src) in
  if minlen <? 0 then Fault else Ok (minlen, bytes_of m (nla_data src) minlen).

(** The sign of the difference at the first position where two lists differ:
    [memcmp]. *)
Fixpoint memcmp (a b : list Z) : Z :=
  match a, b with
  | x :: a', y :: b' => if x =? y then memcmp a' b' else Z.sgn (x - y)
  | _, _ => 0
  end.

Definition nla_memcmp (m : mem) (nla : Z) (data : list Z) : Z :=
  let size := Z.of_nat (length data) in
  let d := s32 (nla_len m nla - size) in
  if d =? 0 then memcmp (bytes_of m (nla_data nla) size) data else d.

(** [str]: the characters of the string, without the terminating NUL. *)
Definition nla_strcmp (m : mem) (nla : Z) (str : list Z) : Z :=
  let len := s32 (Z.of_nat (length str) + 1) in
  let d := s32 (nla_len m nla - len) in
  if d =? 0 then memcmp (bytes_of m (nla_data nla) len) (str ++ [0]) else d.

Definition nla_get_u8 (m : mem) (nla : Z) : Z := load_le 1 m (nla_data nla).
Definition nla_get_u16 (m : mem) (nla : Z) : Z := load_le 2 m (nla_data nla).
Definition nla_get_u32 (m : mem) (nla : Z) : Z := load_le 4 m (nla_data nla).

(** Copies at most eight bytes to a variable that has no initial value:
    [tmp] is what it happens to hold. *)
Definition nla_get_u64 (tmp : mem) (m : mem) (nla : Z) : res Z :=
  let minlen := Z.min 8 (nla_len m nla) in
  if minlen <? 0 then Fault else Ok (load_le 8 (copy tmp 0 m (nla_data nla) minlen) 0).

(** The payload as the bytes of a big-endian number, not converted. *)
Definition nla_get_be16 (m : mem) (nla : Z) : Z := load_le 2 m (nla_data nla).
Definition nla_get_le16 (m : mem) (nla : Z) : Z := load_le 2 m (nla_data nla).
Definition nla_get_be32 (m : mem) (nla : Z) : Z := load_le 4 m (nla_data nla).
Definition nla_get_be64 (m : mem) (nla : Z) : Z := load_le 8 m (nla_data nla).
Definition nla_get_flag (nla : option Z) : bool := bool_decide (is_Some nla).

(** ** The loop *)

(** The attribute at [nla], header and payload, lies in the [len] bytes from
    [head] on. *)
Definition inside (m : mem) (head len nla : Z) : Prop :=
  head <= nla /\ 0 <= nla_len m nla /\ nla_data nla + nla_len m nla <= head + len.

(** The two memories hold the same [n] bytes from [a] on. *)
Definition agree (m1 m2 : mem) (a n : Z) : Prop := forall i, a <= i < a + n -> m1 i = m2 i.

Lemma agree_sub m1 m2 a n b k : agree m1 m2 a n -> a <= b -> b + k <= a + n -> agree m1 m2 b k.
Proof. intros Hag Ha Hk i Hi. apply Hag. lia. Qed.

Lemma agree_load k m1 m2 a n b :
  agree m1 m2 a n -> a <= b -> b + Z.of_nat k <= a + n -> load_le k m1 b = load_le k m2 b.
Proof. intros Hag Ha Hk. apply load_le_ext. intros i Hi. apply Hag. lia. Qed.

Lemma agree_bytes_of m1 m2 a n b k :
  agree m1 m2 a n -> a <= b -> b + k <= a + n -> bytes_of m1 b k = bytes_of m2 b k.
Proof.
  intros Hag Ha Hk. unfold bytes_of. apply list_fmap_ext. intros ? i Hi%list_elem_of_lookup_2.
  apply elem_of_seqZ in Hi. apply Hag. lia.
Qed.

Lemma NLA_ALIGN_spec len : 0 <= len < 2 ^ 31 - 3 -> NLA_ALIGN len = (len + 3) / 4 * 4.
Proof. intros. unfold NLA_ALIGN. rewrite s32_id by solve_int. by apply (land_lnot_ones _ 2). Qed.

Lemma NLA_ALIGN_bounds len :
  0 <= len < 2 ^ 31 - 3 -> len <= NLA_ALIGN len <= len + 3 /\ NLA_ALIGN len mod 4 = 0.
Proof.
  intros. rewrite NLA_ALIGN_spec by done. split; [|apply Z.mod_mul; lia].
  pose proof (Z.div_mod (len + 3) 4). pose proof (Z.mod_pos_bound (len + 3) 4). lia.
Qed.

Lemma nla_len_range m nla : bytes m -> - 4 <= nla_len m nla < 2 ^ 16 - 4.
Proof.
  intros Hm. unfold nla_len, nlattr_nla_len, NLA_HDRLEN.
  pose proof (load_le_range 2 m nla Hm). lia.
Qed.

Lemma nla_ok_inside m pos rem : nla_ok m pos rem = true -> inside m pos rem pos.
Proof.
  unfold nla_ok, inside, nla_data, nla_len, NLA_HDRLEN. intros Hok.
  assert (4 <= nlattr_nla_len m pos <= rem) by (split; bool_lia). lia.
Qed.

(** What [nla_next] does after [nla_ok]: it moves past the attribute and its
    padding, without overflow. *)
Lemma nla_next_spec m pos rem :
  bytes m -> in_s32 rem -> nla_ok m pos rem = true ->
  exists t, nla_next m pos rem = (pos + t, rem - t) /\
    t = NLA_ALIGN (nlattr_nla_len m pos) /\
    4 <= t <= rem + 3 /\ nla_len m pos + 4 <= t <= nla_len m pos + 7 /\ in_s32 (rem - t).
Proof.
  intros Hm Hrem Hok. unfold nla_ok in Hok.
  pose proof (load_le_range 2 m pos Hm) as Hlen. fold (nlattr_nla_len m pos) in Hlen.
  change (256 ^ Z.of_nat 2) with 65536 in Hlen.
  assert (4 <= nlattr_nla_len m pos <= rem) as Hb by (split; bool_lia).
  destruct (NLA_ALIGN_bounds (nlattr_nla_len m pos)) as [Ht _]; [lia|].
  exists (NLA_ALIGN (nlattr_nla_len m pos)). unfold nla_next, nla_len, NLA_HDRLEN.
  rewrite s32_id by solve_int. split_and!; solve_int. done.
Qed.

Lemma nla_walk_S fuel m pos rem :
  nla_walk (S fuel) m pos rem =
  if nla_ok m pos rem then
    (pos :: (nla_walk fuel m (nla_next m pos rem).1 (nla_next m pos rem).2).1,
     (nla_walk fuel m (nla_next m pos rem).1 (nla_next m pos rem).2).2)
  else ([], rem).
Proof.
  cbn [nla_walk]. destruct (nla_ok m pos rem); [|done].
  destruct (nla_next m pos rem) as [p r]. cbn [fst snd]. by destruct (nla_walk fuel m p r).
Qed.

Lemma nla_walk_fuel m fuel1 fuel2 pos rem :
  bytes m -> in_s32 rem -> (Z.to_nat rem < fuel1)%nat -> (Z.to_nat rem < fuel2)%nat ->
  nla_walk fuel1 m pos rem = nla_walk fuel2 m pos rem.
Proof.
  intros Hm. revert fuel2 pos rem. induction fuel1 as [|f1 IH]; intros f2 pos rem Hrem H1 H2; [lia|].
  destruct f2 as [|f2]; [lia|]. rewrite !nla_walk_S.
  destruct (nla_ok m pos rem) eqn:Hok; [|done].
  destruct (nla_next_spec m pos rem) as (t & Hn & _ & Ht & _ & Hr); [done..|].
  rewrite Hn. cbn [fst snd]. rewrite (IH f2); [done|done|lia..].
Qed.

(** The loop, unfolded once. *)
Lemma attrs_unfold m head len :
  bytes m -> in_s32 len ->
  nla_for_each_attr m head len =
  if nla_ok m head len then
    head :: nla_for_each_attr m (nla_next m head len).1 (nla_next m head len).2
  else [].
Proof.
  intros Hm Hlen. unfold nla_for_each_attr. rewrite nla_walk_S.
  destruct (nla_ok m head len) eqn:Hok; [|done]. cbn [fst]. do 2 f_equal.
  destruct (nla_next_spec m head len) as (t & Hn & _ & Ht & _ & Hr); [done..|].
  rewrite Hn. cbn [fst snd]. apply nla_walk_fuel; [done..| |]; lia.
Qed.

(** Every attribute of the loop lies in the message. *)
Lemma nla_walk_inside fuel m pos rem :
  bytes m -> in_s32 rem -> Forall (inside m pos rem) (nla_walk fuel m pos rem).1.
Proof.
  intros Hm. revert pos rem. induction fuel as [|fuel IH]; intros pos rem Hrem; [constructor|].
  rewrite nla_walk_S. destruct (nla_ok m pos rem) eqn:Hok; [|constructor].
  constructor; [by apply nla_ok_inside|].
  destruct (nla_next_spec m pos rem) as (t & Hn & _ & Ht & _ & Hr); [done..|].
  rewrite Hn. cbn [fst snd]. eapply Forall_impl; [by apply IH|].
  intros nla. unfold inside. lia.
Qed.

Lemma attrs_inside m head len :
  bytes m -> in_s32 len -> Forall (inside m head len) (nla_for_each_attr m head len).
Proof. intros. by apply nla_walk_inside. Qed.

Lemma nla_ok_local m1 m2 pos rem :
  agree m1 m2 pos rem -> nla_ok m1 pos rem = nla_ok m2 pos rem.
Proof.
  intros Hag. unfold nla_ok. destruct (Z.leb_spec 4 rem); [|done].
  unfold nlattr_nla_len. rewrite (agree_load 2 m1 m2 pos rem pos) by (done || lia). done.
Qed.

Lemma nla_walk_local fuel m1 m2 pos rem :
  bytes m1 -> in_s32 rem -> agree m1 m2 pos rem ->
  nla_walk fuel m1 pos rem = nla_walk fuel m2 pos rem.
Proof.
  intros Hm. revert pos rem. induction fuel as [|fuel IH]; intros pos rem Hrem Hag; [done|].
  rewrite !nla_walk_S, <- (nla_ok_local m1 m2) by done.
  destruct (nla_ok m1 pos rem) eqn:Hok; [|done].
  assert (nla_next m2 pos rem = nla_next m1 pos rem) as ->.
  { unfold nla_next, nlattr_nla_len. rewrite (agree_load 2 m1 m2 pos rem pos); [done..|lia|].
    unfold nla_ok in Hok. bool_lia. }
  destruct (nla_next_spec m1 pos rem) as (t & Hn & _ & Ht & _ & Hr); [done..|].
  rewrite Hn. cbn [fst snd]. rewrite (IH (pos + t) (rem - t)); [done..|].
  eapply agree_sub; [done|lia..].
Qed.

Lemma attrs_local m1 m2 head len :
  bytes m1 -> in_s32 len -> agree m1 m2 head len ->
  nla_for_each_attr m1 head len = nla_for_each_attr m2 head len.
Proof. intros. unfold nla_for_each_attr. by rewrite (nla_walk_local _ m1 m2). Qed.

(** ** Validation and the message *)

Lemma memchr_local m1 m2 a c n b k :
  agree m1 m2 b k -> b <= a -> a + n <= b + k -> memchr m1 a c n = memchr m2 a c n.
Proof.
  intros Hag Ha Hn. unfold memchr. apply eq_true_iff_eq. rewrite !existsb_exists.
  split; intros (i & Hi & Hc); exists i; (split; [done|]);
    apply list_elem_of_In, elem_of_seqZ in Hi; rewrite <- Hc; f_equal; [symmetry|];
    apply Hag; lia.
Qed.

Lemma memchr_spec m a c n : memchr m a c n = true <-> exists i, a <= i < a + n /\ m i = c.
Proof.
  unfold memchr. rewrite existsb_exists. split.
  - intros (i & Hi%list_elem_of_In%elem_of_seqZ & Hc). exists i. split; [lia|]. by apply Z.eqb_eq.
  - intros (i & Hi & <-). exists i. split; [|apply Z.eqb_refl].
    apply list_elem_of_In, elem_of_seqZ. lia.
Qed.

Section Local.
Context (m1 m2 : mem) (head len nla : Z).
Hypothesis Hag : agree m1 m2 head len.
Hypothesis Hin : inside m1 head len nla.

Lemma header_local :
  nlattr_nla_len m1 nla = nlattr_nla_len m2 nla /\ nlattr_nla_type m1 nla = nlattr_nla_type m2 nla.
Proof using Hag Hin.
  destruct Hin as (H1 & H2 & H3). unfold nla_data, NLA_HDRLEN in H3.
  split; unfold nlattr_nla_len, nlattr_nla_type; eapply agree_load; first [exact Hag | lia].
Qed.

Lemma nla_len_local : nla_len m1 nla = nla_len m2 nla.
Proof using Hag Hin. unfold nla_len. by rewrite (proj1 header_local). Qed.

Lemma nla_type_local : nla_type m1 nla = nla_type m2 nla.
Proof using Hag Hin. unfold nla_type. by rewrite (proj2 header_local). Qed.

Lemma validate_pt_local pt :
  0 <= pt_len pt < 2 ^ 16 -> validate_pt m1 nla pt = validate_pt m2 nla pt.
Proof using Hag Hin.
  intros Hpt. unfold validate_pt. rewrite <- nla_len_local.
  destruct Hin as (H1 & H2 & H3).
  assert (validate_nul m1 nla (nla_len m1 nla) pt = validate_nul m2 nla (nla_len m1 nla) pt) as ->.
  { unfold validate_nul. f_equal. eapply memchr_local; [exact Hag| |];
      unfold nla_data, NLA_HDRLEN in *; [|destruct (truth _)]; lia. }
  assert (validate_string m1 nla (nla_len m1 nla) pt = validate_string m2 nla (nla_len m1 nla) pt) as ->.
  { unfold validate_string. destruct (Z.ltb_spec (nla_len m1 nla) 1); [done|].
    rewrite (Hag (nla_data nla + nla_len m1 nla - 1)); [done|].
    unfold nla_data, NLA_HDRLEN in *. lia. }
  assert (validate_compat m1 nla (nla_len m1 nla) pt = validate_compat m2 nla (nla_len m1 nla) pt) as ->;
    [|done].
  unfold validate_compat. destruct (Z.ltb_spec (nla_len m1 nla) (pt_len pt)); [done|].
  destruct (Z.ltb_spec (nla_len m1 nla) (NLA_ALIGN (pt_len pt))); [done|].
  destruct (Z.ltb_spec (nla_len m1 nla) (NLA_ALIGN (pt_len pt) + NLA_HDRLEN)); [done|].
  assert (nla_len m1 (nla_data nla + NLA_ALIGN (pt_len pt)) =
          nla_len m2 (nla_data nla + NLA_ALIGN (pt_len pt))) as ->; [|done].
  unfold nla_len at 1 2, nlattr_nla_len. f_equal. pose proof (NLA_ALIGN_bounds (pt_len pt)).
  eapply agree_load; [exact Hag| |]; unfold nla_data, NLA_HDRLEN in *; lia.
Qed.
End Local.

(** The lengths of a policy are 16 bit numbers. *)
Definition wf_policy (policy : list nla_policy) : Prop :=
  Forall (fun pt => 0 <= pt_len pt < 2 ^ 16) policy.

Lemma validate_nla_local m1 m2 head len nla maxtype policy :
  agree m1 m2 head len -> inside m1 head len nla -> wf_policy policy ->
  validate_nla m1 nla maxtype policy = validate_nla m2 nla maxtype policy.
Proof.
  intros Hag Hin Hwf. unfold validate_nla. rewrite <- (nla_type_local m1 m2 head len nla) by done.
  destruct (_ || _); [done|]. destruct (zlookup _ _) eqn:Hl; [|done].
  apply (validate_pt_local m1 m2 head len nla Hag Hin). apply (zlookup_Forall _ _ _ _ Hwf Hl).
Qed.

Lemma parse_all_local m1 m2 head len maxtype policy l tb :
  agree m1 m2 head len -> Forall (inside m1 head len) l ->
  (forall p, policy = Some p -> wf_policy p) ->
  parse_all m1 maxtype policy l tb = parse_all m2 maxtype policy l tb.
Proof.
  intros Hag Hl Hwf. revert tb. induction Hl as [|nla l Hin _ IH]; intros tb; [done|].
  cbn [parse_all]. rewrite (nla_type_local m1 m2 head len nla) by done.
  destruct (_ && _); [|apply IH]. destruct policy as [p|]; [|apply IH].
  rewrite (validate_nla_local m1 m2 head len nla) by auto.
  destruct (validate_nla m2 nla maxtype p) as [err| | |]; [|done..].
  destruct (err <? 0); [done | apply IH].
Qed.

(** C30: Parsing reads the message and nothing but the message: whatever the
    bytes received are, the outcome of [nla_parse] and the table it fills are
    the same on two memories that agree on the [len] bytes from [head] on.  No
    header, no string terminator and no nested header is read past the end. *)
Theorem parse_reads_message_only m1 m2 maxtype head len policy :
  bytes m1 -> in_s32 len -> (forall p, policy = Some p -> wf_policy p) ->
  agree m1 m2 head len ->
  nla_parse m1 maxtype head len policy = nla_parse m2 maxtype head len policy.
Proof.
  intros Hm Hlen Hwf Hag. unfold nla_parse. rewrite <- (attrs_local m1 m2) by done.
  apply (parse_all_local m1 m2 head len); [done| |done]. by apply attrs_inside.
Qed.

(** *** What an accepted payload satisfies *)

(** The guarantee a policy entry gives to the code that reads the payload, type by
    type.  A length in an entry for a number, for [NLA_UNSPEC] or [NLA_MSECS] is
    the least length of the payload - the comment of [struct nla_policy] calls it
    the exact one -, without it a number has at least its own bytes. *)
Definition payload_fits (m : mem) (nla : Z) (pt : nla_policy) : Prop :=
  let n := nla_len m nla in
  (pt_type pt = NLA_UNSPEC \/ pt_type pt = NLA_MSECS -> pt_len pt <= n) /\
  (NLA_U8 <= pt_type pt <= NLA_U64 ->
     if truth (pt_len pt) then pt_len pt <= n
     else n >= match pt_type pt with 1 => 1 | 2 => 2 | 3 => 4 | _ => 8 end) /\
  (pt_type pt = NLA_STRING -> 1 <= n /\ (pt_len pt = 0 \/ n <= pt_len pt + 1)) /\
  (pt_type pt = NLA_FLAG -> n = 0) /\
  (pt_type pt = NLA_NESTED -> n = 0 \/ if truth (pt_len pt) then pt_len pt <= n else NLA_HDRLEN <= n) /\
  (pt_type pt = NLA_NESTED_COMPAT ->
     let body := NLA_ALIGN (pt_len pt) in
     pt_len pt <= n /\ (n < body \/ body + NLA_HDRLEN + Z.max 0 (nla_len m (nla_data nla + body)) <= n)) /\
  (pt_type pt = NLA_NUL_STRING ->
     (exists i, 0 <= i < n /\ (pt_len pt = 0 \/ i <= pt_len pt) /\ m (nla_data nla + i) = 0) /\
     (pt_len pt = 0 \/ n <= pt_len pt + 1)) /\
  (pt_type pt = NLA_BINARY -> pt_len pt = 0 \/ n <= pt_len pt).

Lemma validate_string_ok m nla pt :
  0 <= pt_len pt -> validate_string m nla (nla_len m nla) pt = 0 ->
  1 <= nla_len m nla /\ (pt_len pt = 0 \/ nla_len m nla <= pt_len pt + 1).
Proof.
  unfold validate_string, truth, ERANGE. intros Hp.
  destruct (Z.ltb_spec (nla_len m nla) 1); [done|].
  destruct (Z.eqb_spec (pt_len pt) 0) as [Hz|Hz]; cbn [negb]; [by split; auto with lia|].
  destruct (m _ =? 0); match goal with |- context [?a <? ?b] => destruct (Z.ltb_spec a b) end;
    first [done | intros _; split; lia].
Qed.

Lemma validate_nul_ok m nla pt :
  0 <= pt_len pt -> validate_nul m nla (nla_len m nla) pt = true ->
  exists i, 0 <= i < nla_len m nla /\ (pt_len pt = 0 \/ i <= pt_len pt) /\ m (nla_data nla + i) = 0.
Proof.
  unfold validate_nul, truth. intros Hp [_ (i & Hi & Hz)%memchr_spec]%andb_true_iff.
  exists (i - nla_data nla). replace (nla_data nla + (i - nla_data nla)) with i by lia.
  destruct (Z.eqb_spec (pt_len pt) 0); cbn [negb] in Hi; split_and!; try done; lia.
Qed.

(** Goals about another type than the one at hand. *)
Ltac other_type :=
  let Ht := fresh in
  intros Ht; exfalso; clear - Ht;
  unfold NLA_UNSPEC, NLA_MSECS, NLA_U8, NLA_U64, NLA_STRING, NLA_FLAG, NLA_NESTED, NLA_NESTED_COMPAT, NLA_NUL_STRING,
    NLA_BINARY in Ht; lia.

Lemma validate_default_ok attrlen pt :
  0 <= attrlen -> validate_default attrlen pt = Ok 0 ->
  if truth (pt_len pt) then pt_len pt <= attrlen
  else attrlen >= match pt_type pt with 1 => 1 | 2 => 2 | 3 => 4 | 4 => 8 | 8 => NLA_HDRLEN | _ => 0 end.
Proof.
  unfold validate_default, ERANGE, NLA_UNSPEC. intros Hn Hd.
  destruct (truth (pt_len pt)); [destruct (Z.ltb_spec attrlen (pt_len pt)); [done|lia]|].
  destruct (Z.eqb_spec (pt_type pt) 0) as [->|_]; cbn [negb] in Hd; [lia|].
  destruct (zlookup nla_attr_minlen (pt_type pt)) as [min|] eqn:Hmin; [|done].
  assert (min <= attrlen) as Hle by (destruct (Z.ltb_spec attrlen min); [done|lia]). clear Hd.
  repeat case_match; subst; try lia; (assert (zlookup nla_attr_minlen _ = Some _) as Hv by exact Hmin);
    vm_compute in Hmin; injection Hmin as <-; unfold NLA_HDRLEN; lia.
Qed.

Lemma validate_compat_ok m nla pt :
  validate_compat m nla (nla_len m nla) pt = 0 ->
  pt_len pt <= nla_len m nla /\
  (nla_len m nla < NLA_ALIGN (pt_len pt) \/
   NLA_ALIGN (pt_len pt) + NLA_HDRLEN + Z.max 0 (nla_len m (nla_data nla + NLA_ALIGN (pt_len pt))) <= nla_len m nla).
Proof.
  unfold validate_compat, ERANGE. cbv zeta. generalize (NLA_ALIGN (pt_len pt)). intros body.
  repeat match goal with |- context [?a <? ?b] => destruct (Z.ltb_spec a b) end; intros Hv; try lia.
Qed.

Lemma validate_pt_ok m nla pt :
  0 <= nla_len m nla -> 0 <= pt_len pt -> validate_pt m nla pt = Ok 0 -> payload_fits m nla pt.
Proof.
  intros Hn Hp. unfold validate_pt, payload_fits. pose proof (validate_string_ok m nla pt Hp) as Hs.
  pose proof (validate_nul_ok m nla pt Hp) as Hnul. pose proof (validate_compat_ok m nla pt) as Hcompat.
  pose proof (validate_default_ok (nla_len m nla) pt Hn) as Hdef.
  destruct (NLA_TYPE_MAX <? pt_type pt); [done|].
  destruct (Z.eqb_spec (pt_type pt) NLA_FLAG) as [->|Hflag].
  { intros [= Hok]. destruct (Z.ltb_spec 0 (nla_len m nla)); [done|].
    split_and!; try other_type. lia. }
  destruct (Z.eqb_spec (pt_type pt) NLA_NUL_STRING) as [->|Hnotnul].
  { intros [= Hok]. destruct (validate_nul _ _ _ _); [|done].
    split_and!; try other_type. intros _. split; [by apply Hnul|by apply Hs]. }
  destruct (Z.eqb_spec (pt_type pt) NLA_STRING) as [->|Hstr].
  { intros [= Hok]. split_and!; try other_type. auto. }
  destruct (Z.eqb_spec (pt_type pt) NLA_BINARY) as [->|Hbin].
  { intros [= Hok]. split_and!; try other_type. intros _. unfold truth in Hok.
    destruct (Z.eqb_spec (pt_len pt) 0), (Z.ltb_spec (pt_len pt) (nla_len m nla)); first [lia | done]. }
  destruct (Z.eqb_spec (pt_type pt) NLA_NESTED_COMPAT) as [->|Hnocompat].
  { intros [= Hok]. split_and!; try other_type. auto. }
  destruct (Z.eqb_spec (pt_type pt) NLA_NESTED) as [Hnest|Hnest].
  { rewrite Hnest. destruct (Z.eqb_spec (nla_len m nla) 0) as [Hz|Hz]; cbn [andb]; intros Hok; split_and!; try other_type; [by left|].
    intros _. right. specialize (Hdef Hok). destruct (truth _); [done|]. rewrite Hnest in Hdef. cbn in Hdef. lia. }
  cbn [andb]. intros Hok%Hdef. split_and!; try done.
  - intros Ht. unfold truth in Hok. destruct (Z.eqb_spec (pt_len pt) 0); cbn in Hok; lia.
  - intros Ht. destruct (truth _); [done|]. unfold NLA_U8, NLA_U64 in Ht.
    assert (pt_type pt ∈ [1; 2; 3; 4]) as Hin by (rewrite !elem_of_cons; lia).
    repeat (apply elem_of_cons in Hin as [Heq|Hin]; [rewrite Heq in Hok |- *; exact Hok|]). by apply elem_of_nil in Hin.
Qed.

(** [validate_nla] returns zero or an error below zero. *)
Lemma validate_nla_sign m nla maxtype policy e :
  validate_nla m nla maxtype policy = Ok e -> e <= 0.
Proof.
  assert (forall attrlen pt e, validate_default attrlen pt = Ok e -> e <= 0) as Hd.
  { unfold validate_default, ERANGE. intros attrlen pt e0.
    repeat case_match; intros [= <-]; lia. }
  unfold validate_nla, validate_pt. intros He. repeat case_match; simplify_eq;
    try (by eapply Hd); unfold validate_string, validate_compat, ERANGE, EINVAL;
    repeat case_match; lia.
Qed.

Lemma u16_nla_type m nla : u16 (nla_type m nla) = nla_type m nla.
Proof.
  apply u16_id. unfold in_u16, nla_type, NLA_TYPE_MASK.
  replace (2 ^ 14 - 1) with (Z.ones 14) by done. rewrite Z.land_ones by done.
  pose proof (Z.mod_pos_bound (nlattr_nla_type m nla) (2 ^ 14)). lia.
Qed.

(** What an entry of the table satisfies. *)
Definition good_entry (m : mem) (maxtype : Z) (policy : option (list nla_policy))
    (P : Z -> Prop) (t nla : Z) : Prop :=
  0 < t <= maxtype /\ nla_type m nla = t /\ P nla /\
  forall p pt, policy = Some p -> zlookup p t = Some pt -> payload_fits m nla pt.

Lemma parse_all_good m maxtype policy P l tb r tb' :
  (forall p, policy = Some p -> wf_policy p) ->
  Forall P l -> (forall nla, P nla -> 0 <= nla_len m nla) ->
  map_Forall (good_entry m maxtype policy P) tb ->
  parse_all m maxtype policy l tb = (r, tb') ->
  map_Forall (good_entry m maxtype policy P) tb'.
Proof.
  intros Hwf Hl HP. revert tb. induction Hl as [|nla l Hnla _ IH]; intros tb Htb.
  { by intros [= _ <-]. }
  cbn [parse_all]. rewrite u16_nla_type.
  destruct ((0 <? nla_type m nla) && (nla_type m nla <=? maxtype)) eqn:Ht; [|by apply IH].
  assert (0 < nla_type m nla <= maxtype) as Hr by bool_lia.
  destruct policy as [p|].
  - destruct (validate_nla m nla maxtype p) as [e| | |] eqn:Hv; try by intros [= _ <-].
    pose proof (validate_nla_sign _ _ _ _ _ Hv).
    destruct (Z.ltb_spec e 0); [by intros [= _ <-]|]. apply IH. apply map_Forall_insert_2; [|done].
    split_and!; try done; [lia..|]. intros ? pt [= <-] Hpt.
    assert (e = 0) as -> by lia. unfold validate_nla in Hv. rewrite Hpt in Hv.
    destruct (_ || _) eqn:Hor; [rewrite orb_true_iff in Hor; lia|].
    apply validate_pt_ok; [by apply HP| |done].
    by eapply zlookup_Forall in Hpt; [|by apply Hwf]; cbn in Hpt; lia.
  - apply IH. apply map_Forall_insert_2; [|done]. split_and!; try done; lia.
Qed.

(** C31: What a parsed table promises, for a message of any bytes: an entry of
    the table is an attribute of the type it is filed under, it lies in the
    message with its whole payload, and, when a policy is given, its payload
    satisfies what the code checks for the entry of the type ([payload_fits]) - a
    number has at least its bytes, or those that the entry asks for, a string
    ends within the limit, a nested attribute is empty or holds a header, a
    compatible one its structure and the attribute behind it.  Where the length
    is a minimum, longer payloads are accepted.  This holds for the entries filed
    before an error, too. *)
Theorem parse_entries_good m maxtype head len policy r tb t nla :
  bytes m -> in_s32 len -> (forall p, policy = Some p -> wf_policy p) ->
  nla_parse m maxtype head len policy = (r, tb) -> tb !! t = Some nla ->
  good_entry m maxtype policy (inside m head len) t nla.
Proof.
  intros Hm Hlen Hwf Hp Hl.
  eapply (parse_all_good m maxtype policy (inside m head len)) in Hp; [by apply Hp|done| |by intros ? (_ & ? & _)|].
  - by apply attrs_inside.
  - apply map_Forall_empty.
Qed.

(** *** Which attribute is filed *)

Lemma parse_all_last m maxtype policy l tb tb' t :
  parse_all m maxtype policy l tb = (Ok 0, tb') -> 0 < t <= maxtype ->
  tb' !! t = match List.find (fun nla => nla_type m nla =? t) (rev l) with
             | Some nla => Some nla
             | None => tb !! t
             end.
Proof.
  intros Hp Ht. revert tb Hp. induction l as [|nla l IH]; intros tb; [by intros [= <-]|].
  cbn [parse_all rev]. rewrite u16_nla_type, find_app. cbn [List.find].
  destruct (Z.eqb_spec (nla_type m nla) t) as [Heq|Hne].
  - destruct ((0 <? nla_type m nla) && (nla_type m nla <=? maxtype)) eqn:Hr; [|bool_lia].
    assert (parse_all m maxtype policy l (<[nla_type m nla:=nla]> tb) = (Ok 0, tb') ->
            tb' !! t = match List.find (fun nla => nla_type m nla =? t) (rev l) with
                       | Some x => Some x | None => Some nla end) as Hstep.
    { intros Hp. rewrite (IH _ Hp). rewrite Heq, lookup_insert_eq. done. }
    destruct policy as [p|]; [destruct (validate_nla _ _ _ _) as [e| | |]; try done;
      destruct (Z.ltb_spec e 0); [intros [= -> _]; lia|]|];
      intros Hp; rewrite (Hstep Hp); by destruct (List.find _ _).
  - assert (forall tb0, tb0 !! t = tb !! t -> parse_all m maxtype policy l tb0 = (Ok 0, tb') ->
            tb' !! t = match List.find (fun nla => nla_type m nla =? t) (rev l) with
                       | Some x => Some x | None => tb !! t end) as Hstep.
    { intros tb0 Htb Hp. by rewrite (IH _ Hp), Htb. }
    assert (<[nla_type m nla:=nla]> tb !! t = tb !! t) as Hins by by rewrite lookup_insert_ne.
    destruct (_ && _); [destruct policy as [p|]; [destruct (validate_nla _ _ _ _) as [e| | |]; try done;
      destruct (Z.ltb_spec e 0); [intros [= -> _]; lia|]|]|];
      intros Hp; first [rewrite (Hstep _ Hins Hp) | rewrite (Hstep _ eq_refl Hp)]; by destruct (List.find _ _).
Qed.

(** When [nla_parse] succeeds, the table holds for each type up to
    [maxtype] the last attribute of this type in the message (where [nla_find]
    returns the first), and nothing when there is none. *)
Lemma parse_keeps_last m maxtype head len policy tb t :
  nla_parse m maxtype head len policy = (Ok 0, tb) -> 0 < t <= maxtype ->
  tb !! t = List.find (fun nla => nla_type m nla =? t) (rev (nla_for_each_attr m head len)).
Proof.
  intros Hp Ht. rewrite (parse_all_last _ _ _ _ _ _ _ Hp Ht). by destruct (List.find _ _).
Qed.

(** ** Examples *)

Ltac byte_list_tac := repeat (constructor; [lia|]); constructor.

(** A 32 bit number of type 3 and a string of type 10. *)
Definition example_stream : list Z := [8; 0; 3; 0; 1; 2; 3; 4; 7; 0; 10; 0; 97; 98; 0; 0].

Definition example_policy : list nla_policy :=
  replicate 3 no_policy ++ [mk_nla_policy NLA_U32 0] ++ replicate 6 no_policy ++
  [mk_nla_policy NLA_NUL_STRING 8].

Lemma example_stream_bytes : bytes (mem_of_list example_stream).
Proof. apply mem_of_list_bytes. byte_list_tac. Qed.

Lemma example_policy_wf p : Some example_policy = Some p -> wf_policy p.
Proof. intros [= <-]. by repeat (constructor; [done|]). Qed.

Lemma parse_reads_message_only_witness :
  let m := mem_of_list example_stream in
  nla_parse m 10 0 16 (Some example_policy) =
  nla_parse (fun i => if i <? 16 then m i else 255) 10 0 16 (Some example_policy).
Proof.
  intros m. apply (parse_reads_message_only m (fun i => if i <? 16 then m i else 255)).
  - apply example_stream_bytes.
  - solve_int.
  - apply example_policy_wf.
  - intros i Hi. by rewrite (proj2 (Z.ltb_lt i 16)) by lia.
Defined.

Lemma parse_entries_good_witness :
  let m := mem_of_list example_stream in
  good_entry m 10 (Some example_policy) (inside m 0 16) 10 8.
Proof.
  intros m. apply (parse_entries_good m 10 0 16 (Some example_policy)
    (nla_parse m 10 0 16 (Some example_policy)).1 (nla_parse m 10 0 16 (Some example_policy)).2).
  - apply example_stream_bytes.
  - solve_int.
  - apply example_policy_wf.
  - apply surjective_pairing.
  - vm_compute. reflexivity.
Defined.
