(* ===== verification/NlaPut.v ===== *)
(** * Building netlink messages

    The message buffer of user/shared/libgenl.h and the functions of
    user/shared/libnla.c and libgenl.h that add attributes to it.  A buffer is
    a memory with the offsets of its tail and of its end; the operations run in
    a monad on the buffer that ends in one of the outcomes of [res]: a
    [BUG_ON] aborts, a copy outside of the source or with a negative length is
    a [Fault]. *)

From S2P Require Import Prelude Machine Nla.

(** ** The buffer (libgenl.h) *)

Record msg_buff := mk_msg_buff { mb_tail : Z; mb_end : Z; mb_data : mem }.

#[export] Instance eta_msg_buff : Eta msg_buff :=
  fun r => mk_msg_buff (mb_tail r) (mb_end r) (mb_data r).

Definition B (A : Type) : Type := msg_buff -> res A * msg_buff.

#[export] Instance B_ret : MRet B := fun A a msg => (Ok a, msg).

#[export] Instance B_bind : MBind B := fun A B' k p msg =>
  match p msg with
  | (Ok a, msg') => k a msg'
  | (Exit c, msg') => (Exit c, msg')
  | (Abort, msg') => (Abort, msg')
  | (Fault, msg') => (Fault, msg')
  end.

#[export] Instance B_fmap : FMap B := fun A B' f p => a ← p; mret (f a).

Definition get_msg : B msg_buff := fun msg => (Ok msg, msg).
Definition BUG_ON (b : bool) : B unit := fun msg => (if b then Abort else Ok (), msg).
Definition msg_fault {A} : B A := fun msg => (Fault, msg).
Definition set_tail (t : Z) : B unit := fun msg => (Ok (), msg <| mb_tail := t |>).
Definition on_data (f : mem -> mem) : B unit :=
  fun msg => (Ok (), msg <| mb_data := f (mb_data msg) |>).

(** [memcpy(data + a, src, n)]; [n] is converted to [size_t]. *)
Definition memcpy_in (a : Z) (src : list Z) (n : Z) : B unit :=
  if (n <? 0) || (Z.of_nat (length src) <? n) then msg_fault
  else on_data (fun m => copy m a (mem_of_list src) 0 n).

Definition DEFAULT_MSG_SIZE : Z := 8192.

Definition msg_new (size : Z) : msg_buff := mk_msg_buff 0 size zero_mem.

Definition msg_tail_pointer (msg : msg_buff) : Z := mb_tail msg.
Definition msg_tailroom (msg : msg_buff) : Z := s32 (mb_end msg - mb_tail msg).

(** The old tail. *)
Definition msg_put (len : Z) : B Z :=
  msg ← get_msg;
  let tmp := mb_tail msg in
  set_tail (tmp + u32 len);;
  BUG_ON (mb_end msg <? tmp + u32 len);;
  mret tmp.

(** ** Reserving room (libnla.c) *)

Definition set_nla_type (nla v : Z) : B unit := on_data (fun m => store_le 2 m (nla + 2) v).
Definition set_nla_len (nla v : Z) : B unit := on_data (fun m => store_le 2 m nla v).

Definition __nla_reserve (attrtype attrlen : Z) : B Z :=
  nla ← msg_put (nla_total_size attrlen);
  set_nla_type nla attrtype;;
  set_nla_len nla (nla_attr_size attrlen);;
  on_data (fun m => memset m (nla + nlattr_nla_len m nla) 0 (nla_padlen attrlen));;
  mret nla.

Definition __nla_reserve_nohdr (attrlen : Z) : B Z :=
  start ← msg_put (NLA_ALIGN attrlen);
  on_data (fun m => memset m start 0 (NLA_ALIGN attrlen));;
  mret start.

(** [None] is the NULL pointer. *)
Definition nla_reserve (attrtype attrlen : Z) : B (option Z) :=
  msg ← get_msg;
  if msg_tailroom msg <? nla_total_size attrlen then mret None
  else Some <$> __nla_reserve attrtype attrlen.

Definition nla_reserve_nohdr (attrlen : Z) : B (option Z) :=
  msg ← get_msg;
  if msg_tailroom msg <? NLA_ALIGN attrlen then mret None
  else Some <$> __nla_reserve_nohdr attrlen.

(** ** Adding attributes (libnla.c) *)

Definition __nla_put (attrtype attrlen : Z) (data : list Z) : B unit :=
  nla ← __nla_reserve attrtype attrlen;
  if truth attrlen then memcpy_in (nla_data nla) data attrlen else mret ().

Definition __nla_put_nohdr (attrlen : Z) (data : list Z) : B unit :=
  start ← __nla_reserve_nohdr attrlen;
  if truth attrlen then memcpy_in start data attrlen else mret ().

Definition nla_put (attrtype attrlen : Z) (data : list Z) : B Z :=
  msg ← get_msg;
  if msg_tailroom msg <? nla_total_size attrlen then mret (- EMSGSIZE)
  else __nla_put attrtype attrlen data;; mret 0.

Definition nla_put_nohdr (attrlen : Z) (data : list Z) : B Z :=
  msg ← get_msg;
  if msg_tailroom msg <? NLA_ALIGN attrlen then mret (- EMSGSIZE)
  else __nla_put_nohdr attrlen data;; mret 0.

Definition nla_append (attrlen : Z) (data : list Z) : B Z :=
  msg ← get_msg;
  if msg_tailroom msg <? NLA_ALIGN attrlen then mret (- EMSGSIZE)
  else tmp ← msg_put attrlen; memcpy_in tmp data attrlen;; mret 0.

(** *** Alignment to 64 bits

    [CONFIG_HAVE_EFFICIENT_UNALIGNED_ACCESS] is defined: nothing is padded. *)

Definition IS_ALIGNED (x a : Z) : bool := Z.land x (a - 1) =? 0.

Definition CONFIG_HAVE_EFFICIENT_UNALIGNED_ACCESS : bool := true.

Definition nla_need_padding_for_64bit (msg : msg_buff) : bool :=
  if CONFIG_HAVE_EFFICIENT_UNALIGNED_ACCESS then false
  else IS_ALIGNED (msg_tail_pointer msg) 8.

Definition nla_align_64bit (padattr : Z) : B Z :=
  msg ← get_msg;
  if nla_need_padding_for_64bit msg then
    nla ← nla_reserve padattr 0;
    mret (if nla is Some _ then 0 else - EMSGSIZE)
  else mret 0.

Definition nla_total_size_64bit (payload : Z) : Z :=
  if CONFIG_HAVE_EFFICIENT_UNALIGNED_ACCESS then NLA_ALIGN (nla_attr_size payload)
  else NLA_ALIGN (nla_attr_size payload) + NLA_ALIGN (nla_attr_size 0).

Definition __nla_reserve_64bit (attrtype attrlen padattr : Z) : B Z :=
  msg ← get_msg;
  (if nla_need_padding_for_64bit msg then nla_align_64bit padattr else mret 0);;
  __nla_reserve attrtype attrlen.

Definition __nla_put_64bit (attrtype attrlen : Z) (data : list Z) (padattr : Z) : B unit :=
  nla ← __nla_reserve_64bit attrtype attrlen padattr;
  memcpy_in (nla_data nla) data attrlen.

(** [len] is a [size_t]: the room is compared as an unsigned number. *)
Definition nla_put_64bit (attrtype attrlen : Z) (data : list Z) (padattr : Z) : B Z :=
  msg ← get_msg;
  let len := u64 (if nla_need_padding_for_64bit msg then nla_total_size_64bit attrlen
                  else nla_total_size attrlen) in
  if u64 (msg_tailroom msg) <? len then mret (- EMSGSIZE)
  else __nla_put_64bit attrtype attrlen data padattr;; mret 0.

(** *** Basic types and nesting (libgenl.h) *)

Definition nla_put_u8 (attrtype value : Z) : B Z := nla_put attrtype 1 (le_split 1 value).
Definition nla_put_u16 (attrtype value : Z) : B Z := nla_put attrtype 2 (le_split 2 value).
Definition nla_put_u32 (attrtype value : Z) : B Z := nla_put attrtype 4 (le_split 4 value).
Definition nla_put_u64 (attrtype value : Z) : B Z := nla_put attrtype 8 (le_split 8 value).

(** [str]: the characters of the string; the NUL is sent, too. *)
Definition nla_put_string (attrtype : Z) (str : list Z) : B Z :=
  nla_put attrtype (s32 (Z.of_nat (length str) + 1)) (str ++ [0]).

Definition nla_put_flag (attrtype : Z) : B Z := nla_put attrtype 0 [].

Definition nla_nest_start (attrtype : Z) : B (option Z) :=
  msg ← get_msg;
  let start := mb_tail msg in
  err ← nla_put (Z.lor attrtype NLA_F_NESTED) 0 [];
  mret (if err <? 0 then None else Some start).

(** The total length of the message. *)
Definition nla_nest_end (start : Z) : B Z :=
  msg ← get_msg;
  set_nla_len start (mb_tail msg - start);;
  mret (s32 (mb_tail msg)).

(** ** One attribute *)

(** A buffer whose room is not negative and fits an [int]. *)
Definition wf_msg (msg : msg_buff) : Prop :=
  0 <= mb_tail msg <= mb_end msg /\ mb_end msg < 2 ^ 31.

(** The data the attribute leaves at [a]. *)
Definition put_mem (m : mem) (a attrtype attrlen : Z) (data : list Z) : mem :=
  let m := store_le 2 (store_le 2 m (a + 2) attrtype) a (nla_attr_size attrlen) in
  let m := memset m (a + u16 (nla_attr_size attrlen)) 0 (nla_padlen attrlen) in
  if truth attrlen then copy m (a + NLA_HDRLEN) (mem_of_list data) 0 attrlen else m.

Lemma nla_total_size_spec n :
  0 <= n < 2 ^ 31 - 8 ->
  nla_attr_size n = n + 4 /\ nla_total_size n = (n + 7) / 4 * 4 /\
  nla_padlen n = nla_total_size n - (n + 4) /\ 0 <= nla_padlen n <= 3.
Proof.
  intros Hn. unfold nla_padlen, nla_total_size, nla_attr_size, NLA_HDRLEN.
  rewrite (s32_id (4 + n)) by solve_int. pose proof (NLA_ALIGN_bounds (4 + n) ltac:(lia)) as [Hb _].
  rewrite s32_id by solve_int. rewrite NLA_ALIGN_spec in Hb |- * by lia.
  replace (4 + n + 3) with (n + 7) in Hb |- * by lia. split_and!; lia.
Qed.

Lemma msg_put_ok n msg :
  0 <= n < 2 ^ 32 -> mb_tail msg + n <= mb_end msg ->
  msg_put n msg = (Ok (mb_tail msg), mk_msg_buff (mb_tail msg + n) (mb_end msg) (mb_data msg)).
Proof.
  intros Hn Hroom. unfold msg_put, mbind, B_bind, get_msg, set_tail, BUG_ON. cbn.
  rewrite u32_id by solve_int. by rewrite (proj2 (Z.ltb_ge _ _)) by lia.
Qed.

(** [nla_put] either finds no room and leaves the buffer as it is, or writes
    the attribute. *)
Lemma nla_put_run t n d msg :
  wf_msg msg -> 0 <= n <= Z.of_nat (length d) -> n < 2 ^ 31 - 8 ->
  nla_put t n d msg =
  if mb_end msg - mb_tail msg <? nla_total_size n then (Ok (- EMSGSIZE), msg)
  else (Ok 0, mk_msg_buff (mb_tail msg + nla_total_size n) (mb_end msg)
                (put_mem (mb_data msg) (mb_tail msg) t n d)).
Proof.
  intros Hwf Hn Hmax. destruct (nla_total_size_spec n) as (Hs & Ht & Hp & Hpad); [lia|].
  unfold wf_msg in Hwf. unfold nla_put, msg_tailroom. unfold mbind at 1, B_bind at 1, get_msg at 1.
  rewrite s32_id by solve_int. destruct (Z.ltb_spec (mb_end msg - mb_tail msg) (nla_total_size n)); [done|].
  unfold __nla_put, __nla_reserve. unfold mbind, B_bind. rewrite msg_put_ok by lia.
  cbn [set_nla_type set_nla_len on_data]. unfold set_nla_type, set_nla_len, on_data, put_mem.
  cbn -[store_le load_le memset copy nla_attr_size nla_padlen].
  unfold nlattr_nla_len. rewrite load_store_le. change (256 ^ Z.of_nat 2) with (2 ^ 16).
  fold (u16 (nla_attr_size n)). unfold memcpy_in, truth.
  destruct (Z.eqb_spec n 0); [done|]. cbn [negb].
  rewrite (proj2 (Z.ltb_ge n 0)), (proj2 (Z.ltb_ge _ n)) by lia. done.
Qed.

(** Bytes outside of the attribute are not touched. *)
Lemma put_mem_other m a t n d i :
  0 <= n < 2 ^ 31 - 8 -> ~ (a <= i < a + nla_total_size n) -> put_mem m a t n d i = m i.
Proof.
  intros Hn Hi. destruct (nla_total_size_spec n Hn) as (Hs & Ht & Hp & Hpad).
  unfold put_mem, NLA_HDRLEN. rewrite Hs. pose proof (Z.mod_le (n + 4) (2 ^ 16)). pose proof (u16_range (n + 4)).
  unfold in_u16, u16 in *.
  assert (memset (store_le 2 (store_le 2 m (a + 2) t) a (n + 4)) (a + (n + 4) mod 2 ^ 16) 0 (nla_padlen n) i = m i) as Hm.
  { unfold memset. case_range; [lia|]. rewrite !store_le_other by lia. done. }
  destruct (truth n); [|done]. unfold copy. case_range; [lia|done].
Qed.

(** ** The bytes of a message *)

Lemma bytes_of_app m a n k :
  0 <= n -> 0 <= k -> bytes_of m a (n + k) = bytes_of m a n ++ bytes_of m (a + n) k.
Proof. intros. unfold bytes_of. by rewrite seqZ_app, fmap_app by lia. Qed.

Lemma length_bytes_of m a n : length (bytes_of m a n) = Z.to_nat n.
Proof. unfold bytes_of. by rewrite length_fmap, length_seqZ. Qed.

Lemma bytes_of_lookup m a n (i : nat) : Z.of_nat i < n -> bytes_of m a n !! i = Some (m (a + Z.of_nat i)).
Proof.
  intros Hi. unfold bytes_of. by rewrite list_lookup_fmap, lookup_seqZ_lt by done.
Qed.

Lemma bytes_of_le n m a : bytes_of m a (Z.of_nat n) = [] -> n = O.
Proof. intros Hl%(f_equal length). rewrite length_bytes_of in Hl. cbn in Hl. lia. Qed.

Lemma bytes_of_succ n m a : bytes_of m a (Z.of_nat (S n)) = m a :: bytes_of m (a + 1) (Z.of_nat n).
Proof.
  replace (Z.of_nat (S n)) with (1 + Z.of_nat n) by lia. rewrite bytes_of_app by lia.
  unfold bytes_of at 1. done.
Qed.

Lemma load_bytes_of n m a : load_le n m a = le_combine (bytes_of m a (Z.of_nat n)).
Proof.
  revert a. induction n as [|n IH]; intros a; [done|]. rewrite bytes_of_succ. cbn [load_le le_combine].
  by rewrite IH.
Qed.

Lemma bytes_of_store n m a v : bytes_of (store_le n m a v) a (Z.of_nat n) = le_split n v.
Proof.
  revert m a v. induction n as [|n IH]; intros m a v; [done|]. rewrite bytes_of_succ.
  cbn [store_le le_split]. rewrite IH, store_le_other by lia. by rewrite Z.eqb_refl.
Qed.

Lemma bytes_of_copy m a d n :
  Z.of_nat (length d) = n -> bytes_of (copy m a (mem_of_list d) 0 n) a n = d.
Proof.
  intros <-. apply list_eq. intros i. destruct (decide (i < length d)%nat) as [Hi|Hi].
  - rewrite bytes_of_lookup by lia. unfold copy. case_range; [|lia].
    replace (a + Z.of_nat i - a + 0) with (Z.of_nat i) by lia. unfold mem_of_list, zlookup.
    destruct (Z.ltb_spec (Z.of_nat i) 0); [lia|]. rewrite Nat2Z.id.
    by destruct (lookup_lt_is_Some_2 d i Hi) as [x ->].
  - rewrite !lookup_ge_None_2; [done| |rewrite length_bytes_of]; lia.
Qed.

Lemma bytes_of_memset m a c n : 0 <= n -> bytes_of (memset m a c n) a n = replicate (Z.to_nat n) c.
Proof.
  intros Hn. apply list_eq. intros i. destruct (decide (Z.of_nat i < n)) as [Hi|Hi].
  - rewrite bytes_of_lookup, lookup_replicate_2 by lia. unfold memset. case_range; [done|lia].
  - rewrite !lookup_ge_None_2; [done|rewrite length_replicate|rewrite length_bytes_of]; lia.
Qed.

(** ** Trees of attributes *)

(** What a message is made of: attributes with a payload and nested ones. *)
Inductive attr :=
  | Leaf (type : Z) (data : list Z)
  | Nest (type : Z) (l : list attr).

(** Adds an attribute, with [nla_put] or between [nla_nest_start] and
    [nla_nest_end]; stops at the first error. *)
Fixpoint put_attr (a : attr) : B Z :=
  match a with
  | Leaf t d => nla_put t (Z.of_nat (length d)) d
  | Nest t l =>
      start ← nla_nest_start t;
      match start with
      | None => mret (- EMSGSIZE)
      | Some start =>
          err ← (fix put_all (l : list attr) : B Z :=
                   match l with
                   | [] => mret 0
                   | a :: l' => err ← put_attr a; if err <? 0 then mret err else put_all l'
                   end) l;
          if err <? 0 then mret err else nla_nest_end start;; mret 0
      end
  end.

Fixpoint put_attrs (l : list attr) : B Z :=
  match l with
  | [] => mret 0
  | a :: l' => err ← put_attr a; if err <? 0 then mret err else put_attrs l'
  end.

(** The wire format. *)
Definition header (len type : Z) : list Z := le_split 2 len ++ le_split 2 type.

Definition padding (n : nat) : list Z := replicate (Z.to_nat ((Z.of_nat n + 3) / 4 * 4 - Z.of_nat n)) 0.

Fixpoint encode_attr (a : attr) : list Z :=
  match a with
  | Leaf t d => header (4 + Z.of_nat (length d)) t ++ d ++ padding (length d)
  | Nest t l =>
      let body := concat (encode_attr <$> l) in
      header (4 + Z.of_nat (length body)) (Z.lor t NLA_F_NESTED) ++ body
  end.

Definition encode_all (l : list attr) : list Z := concat (encode_attr <$> l).

(** Reads the attributes of the [len] bytes from [head] on, up to [depth]
    levels: those with the nested bit are read as streams of their own. *)
Fixpoint read_attrs (depth : nat) (m : mem) (head len : Z) : list attr :=
  match depth with
  | O => []
  | S depth' =>
      (fun nla =>
         if Z.testbit (nlattr_nla_type m nla) 15
         then Nest (nla_type m nla) (read_attrs depth' m (nla_data nla) (nla_len m nla))
         else Leaf (nla_type m nla) (payload m nla)) <$> nla_for_each_attr m head len
  end.

Fixpoint height (a : attr) : nat :=
  match a with
  | Leaf _ _ => 1
  | Nest _ l => S (list_max (height <$> l))
  end.

(** Types of at most 14 bits, payloads of bytes. *)
Inductive wf_attr : attr -> Prop :=
  | wf_leaf t d : 0 <= t < 2 ^ 14 -> byte_list d -> wf_attr (Leaf t d)
  | wf_nest t l : 0 <= t < 2 ^ 14 -> Forall wf_attr l -> wf_attr (Nest t l).

(** Induction over trees. *)
Lemma attr_ind_nested (P : attr -> Prop) :
  (forall t d, P (Leaf t d)) -> (forall t l, Forall P l -> P (Nest t l)) -> forall a, P a.
Proof.
  intros Hleaf Hnest. fix IH 1. intros [t d|t l]; [apply Hleaf|]. apply Hnest.
  induction l as [|a l IHl]; constructor; [apply IH | apply IHl].
Qed.

(** *** Writing *)

(** [msg'] is [msg] with [bs] added at its tail. *)
Definition wrote (msg msg' : msg_buff) (bs : list Z) : Prop :=
  mb_tail msg' = mb_tail msg + Z.of_nat (length bs) /\
  mb_end msg' = mb_end msg /\
  (forall i, i < mb_tail msg -> mb_data msg' i = mb_data msg i) /\
  bytes_of (mb_data msg') (mb_tail msg) (Z.of_nat (length bs)) = bs /\
  (bytes (mb_data msg) -> byte_list bs -> bytes (mb_data msg')).

Lemma wrote_nil msg : wrote msg msg [].
Proof. split_and!; try done. cbn. lia. Qed.

Lemma wrote_app msg1 msg2 msg3 b1 b2 :
  wrote msg1 msg2 b1 -> wrote msg2 msg3 b2 -> wrote msg1 msg3 (b1 ++ b2).
Proof.
  intros (Ht1 & He1 & Hd1 & Hb1 & Hm1) (Ht2 & He2 & Hd2 & Hb2 & Hm2). unfold wrote.
  rewrite length_app, Nat2Z.inj_add. split_and!; [lia|congruence| | |].
  - intros i Hi. rewrite Hd2, Hd1; [done|lia..].
  - rewrite bytes_of_app by lia. rewrite <- Ht1, Hb2. f_equal. rewrite <- Hb1 at 2.
    eapply agree_bytes_of with (a := mb_tail msg1) (n := Z.of_nat (length b1)); [|lia..].
    intros i Hi. apply Hd2. lia.
  - intros Hm [Hb1' Hb2']%Forall_app. auto.
Qed.

Lemma length_padding n : Z.of_nat (length (padding n)) = (Z.of_nat n + 3) / 4 * 4 - Z.of_nat n.
Proof.
  unfold padding. rewrite length_replicate.
  pose proof (Z.div_mod (Z.of_nat n + 3) 4). pose proof (Z.mod_pos_bound (Z.of_nat n + 3) 4). lia.
Qed.

Lemma length_leaf t d :
  Z.of_nat (length (encode_attr (Leaf t d))) = (Z.of_nat (length d) + 7) / 4 * 4.
Proof.
  change (encode_attr (Leaf t d)) with (header (4 + Z.of_nat (length d)) t ++ d ++ padding (length d)).
  unfold header. rewrite !length_app, !length_le_split, !Nat2Z.inj_add, length_padding.
  replace (Z.of_nat (length d) + 7) with (Z.of_nat (length d) + 3 + 1 * 4) by lia.
  rewrite Z.div_add by lia. lia.
Qed.

Lemma length_leaf_le t d : Z.of_nat (length d) + 4 <= Z.of_nat (length (encode_attr (Leaf t d))).
Proof.
  rewrite length_leaf. pose proof (Z.div_mod (Z.of_nat (length d) + 7) 4).
  pose proof (Z.mod_pos_bound (Z.of_nat (length d) + 7) 4). lia.
Qed.

Lemma length_header n t : length (header n t) = 4%nat.
Proof. unfold header. by rewrite length_app, !length_le_split. Qed.

Lemma length_nest t l :
  Z.of_nat (length (encode_attr (Nest t l))) = 4 + Z.of_nat (length (encode_all l)).
Proof.
  change (encode_attr (Nest t l)) with
    (header (4 + Z.of_nat (length (encode_all l))) (Z.lor t NLA_F_NESTED) ++ encode_all l).
  rewrite length_app, length_header. lia.
Qed.

Lemma bytes_of_header m a : bytes_of m a 4 = bytes_of m a 2 ++ bytes_of m (a + 2) 2.
Proof. by apply (bytes_of_app m a 2 2). Qed.

Lemma put_mem_bytes m a t n d : bytes m -> byte_list d -> bytes (put_mem m a t n d).
Proof.
  intros Hm Hd. pose proof (mem_of_list_bytes d Hd). unfold put_mem.
  destruct (truth n); auto with drbd_range lia.
Qed.

(** The bytes of an attribute whose length fits its header. *)
Lemma bytes_of_put_mem m a t d :
  Z.of_nat (length d) + 4 < 2 ^ 16 ->
  bytes_of (put_mem m a t (Z.of_nat (length d)) d) a (Z.of_nat (length (encode_attr (Leaf t d)))) =
  encode_attr (Leaf t d).
Proof.
  intros Hd. set (n := Z.of_nat (length d)) in *. pose proof (length_leaf t d) as Hlen. fold n in Hlen.
  destruct (nla_total_size_spec n) as (Hs & Ht & Hp & Hpad); [lia|].
  rewrite Hlen, <- Ht. change (encode_attr (Leaf t d)) with (header (4 + n) t ++ d ++ padding (length d)).
  replace (nla_total_size n) with (4 + (n + nla_padlen n)) by lia.
  rewrite !bytes_of_app by lia. unfold put_mem, NLA_HDRLEN. rewrite Hs, u16_id by solve_int.
  set (m0 := store_le 2 (store_le 2 m (a + 2) t) a (n + 4)).
  set (m1 := memset m0 (a + (n + 4)) 0 (nla_padlen n)).
  assert (forall b k, a <= b -> b + k <= a + 4 \/ (a + 4 + n <= b) ->
    bytes_of (if truth n then copy m1 (a + 4) (mem_of_list d) 0 n else m1) b k = bytes_of m1 b k) as Hcopy.
  { intros b k Hb Hk. destruct (truth n); [|done]. eapply agree_bytes_of with (a := b) (n := k); [|lia..].
    intros i Hi. unfold copy. case_range; [lia|done]. }
  f_equal; [|f_equal].
  - rewrite Hcopy by lia. rewrite bytes_of_header. unfold header. f_equal.
    + rewrite (agree_bytes_of m1 m0 a 2); [|intros i Hi; unfold m1, memset; case_range; lia|lia..].
      unfold m0. replace (4 + n) with (n + 4) by lia. apply (bytes_of_store 2).
    + rewrite (agree_bytes_of m1 m0 (a + 2) 2); [|intros i Hi; unfold m1, memset; case_range; lia|lia..].
      rewrite (agree_bytes_of m0 (store_le 2 m (a + 2) t) (a + 2) 2);
        [apply (bytes_of_store 2)|intros i Hi; unfold m0; apply store_le_other; lia|lia..].
  - unfold truth. destruct (Z.eqb_spec n 0) as [Hz|]; [|by apply bytes_of_copy].
    rewrite Hz. destruct d; [done|]. unfold n in Hz. cbn in Hz. lia.
  - rewrite Hcopy by lia. unfold m1. replace (a + 4 + n) with (a + (n + 4)) by lia.
    rewrite bytes_of_memset by lia. unfold padding. f_equal. fold n. rewrite Hp, Ht.
    replace (n + 7) with (n + 3 + 1 * 4) by lia. rewrite Z.div_add by lia. lia.
Qed.

(** Data behind the payload are not looked at. *)
Lemma put_mem_take m a t n d i :
  0 <= n <= Z.of_nat (length d) -> put_mem m a t n d i = put_mem m a t n (take (Z.to_nat n) d) i.
Proof.
  intros Hn. unfold put_mem. destruct (truth n); [|done]. unfold copy. case_range; [|done].
  unfold mem_of_list, zlookup. destruct (Z.ltb_spec (i - (a + NLA_HDRLEN) + 0) 0); [done|].
  by rewrite lookup_take_lt by lia.
Qed.

(** Adding an attribute to a message: for a payload of any admissible
    length, [nla_put] returns -EMSGSIZE and leaves the buffer as it was exactly
    when header, payload and padding do not fit into the room that is left;
    otherwise it returns zero, the tail moves by the padded size, which stays
    within the buffer, and no byte outside of these is written.  If the length
    fits the 16 bits of the header, the bytes between the old tail and the new
    one are exactly the length, the type, the payload and zeroes. *)
Theorem nla_put_outcome t n d msg :
  wf_msg msg -> 0 <= n <= Z.of_nat (length d) -> n < 2 ^ 31 - 8 ->
  exists r msg', nla_put t n d msg = (Ok r, msg') /\
    (r = - EMSGSIZE /\ msg' = msg /\ mb_end msg - mb_tail msg < n + 4 + nla_padlen n \/
     r = 0 /\ mb_tail msg' = mb_tail msg + n + 4 + nla_padlen n /\ mb_end msg' = mb_end msg /\
     wf_msg msg' /\
     (forall i, ~ (mb_tail msg <= i < mb_tail msg') -> mb_data msg' i = mb_data msg i) /\
     (n + 4 < 2 ^ 16 ->
      bytes_of (mb_data msg') (mb_tail msg) (mb_tail msg' - mb_tail msg) =
      le_split 2 (n + 4) ++ le_split 2 t ++ take (Z.to_nat n) d ++ replicate (Z.to_nat (nla_padlen n)) 0)).
Proof.
  intros Hwf Hn Hmax. rewrite nla_put_run by done.
  destruct (nla_total_size_spec n) as (Hs & Ht & Hp & Hpad); [lia|]. unfold wf_msg in *.
  destruct (Z.ltb_spec (mb_end msg - mb_tail msg) (nla_total_size n)); eexists _, _; split; try done.
  - left. split_and!; [done..|lia].
  - right. cbn [mb_tail mb_end mb_data]. split_and!; try done; try lia.
    { intros i Hi. apply put_mem_other; lia. }
    intros Hsmall. set (d' := take (Z.to_nat n) d).
    assert (Z.of_nat (length d') = n) as Hd by (unfold d'; rewrite length_take; lia).
    rewrite (agree_bytes_of _ (put_mem (mb_data msg) (mb_tail msg) t n d') (mb_tail msg) (mb_tail msg + nla_total_size n - mb_tail msg));
      [|intros i _; by apply put_mem_take|lia..].
    replace (mb_tail msg + nla_total_size n - mb_tail msg) with (Z.of_nat (length (encode_attr (Leaf t d'))))
      by (rewrite length_leaf, Hd; lia).
    rewrite <- Hd. rewrite bytes_of_put_mem by lia. cbn [encode_attr]. unfold header, padding.
    rewrite Hd, <- app_assoc. replace (4 + n) with (n + 4) by lia. do 4 f_equal.
    rewrite Hp, Ht. replace (n + 7) with (n + 3 + 1 * 4) by lia. rewrite Z.div_add by lia. lia.
Qed.

Lemma nla_put_wrote t d msg :
  wf_msg msg -> Z.of_nat (length d) + 4 < 2 ^ 16 ->
  mb_tail msg + Z.of_nat (length (encode_attr (Leaf t d))) <= mb_end msg ->
  exists msg', nla_put t (Z.of_nat (length d)) d msg = (Ok 0, msg') /\ wrote msg msg' (encode_attr (Leaf t d)).
Proof.
  intros Hwf Hd Hroom. rewrite nla_put_run by (done || lia).
  destruct (nla_total_size_spec (Z.of_nat (length d))) as (Hs & Ht & Hp & Hpad); [lia|].
  rewrite length_leaf, <- Ht in Hroom.
  destruct (Z.ltb_spec (mb_end msg - mb_tail msg) (nla_total_size (Z.of_nat (length d)))); [lia|].
  eexists. split; [done|]. unfold wrote. cbn [mb_tail mb_end mb_data].
  split_and!; [by rewrite length_leaf, Ht|done| | |].
  - intros i Hi. apply put_mem_other; lia.
  - by apply bytes_of_put_mem.
  - intros Hm Hbs. apply put_mem_bytes; [done|]. by apply Forall_app in Hbs as [_ [? _]%Forall_app].
Qed.

Lemma wrote_wf msg msg' bs : wf_msg msg -> wrote msg msg' bs ->
  mb_tail msg + Z.of_nat (length bs) <= mb_end msg -> wf_msg msg'.
Proof. unfold wf_msg. intros Hwf (Ht & He & _) Hroom. lia. Qed.

(** What [put_attr] does on a buffer with room for the attribute. *)
Definition puts (a : attr) : Prop := forall msg,
  wf_msg msg -> mb_end msg < 2 ^ 16 -> mb_tail msg + Z.of_nat (length (encode_attr a)) <= mb_end msg ->
  exists msg', put_attr a msg = (Ok 0, msg') /\ wrote msg msg' (encode_attr a).

Lemma encode_all_cons a l : encode_all (a :: l) = encode_attr a ++ encode_all l.
Proof. done. Qed.

Lemma put_attrs_wrote l msg :
  Forall puts l -> wf_msg msg -> mb_end msg < 2 ^ 16 ->
  mb_tail msg + Z.of_nat (length (encode_all l)) <= mb_end msg ->
  exists msg', put_attrs l msg = (Ok 0, msg') /\ wrote msg msg' (encode_all l).
Proof.
  intros Hl. revert msg. induction Hl as [|a l Ha _ IH]; intros msg Hwf Hend Hroom.
  { exists msg. split; [done|]. apply wrote_nil. }
  rewrite encode_all_cons in Hroom |- *. rewrite length_app in Hroom.
  destruct (Ha msg) as (msg1 & Hrun1 & Hw1); [done..|lia|].
  assert (wf_msg msg1) as Hwf1 by (eapply wrote_wf; [done..|lia]). pose proof Hw1 as (Ht1 & He1 & _).
  destruct (IH msg1) as (msg2 & Hrun2 & Hw2); [done|lia..|].
  exists msg2. split; [|by eapply wrote_app].
  cbn [put_attrs]. unfold mbind, B_bind. by rewrite Hrun1.
Qed.

Lemma put_attr_nest t l :
  put_attr (Nest t l) =
    (start ← nla_nest_start t;
     match start with
     | None => mret (- EMSGSIZE)
     | Some start =>
         err ← put_attrs l;
         if err <? 0 then mret err else nla_nest_end start;; mret 0
     end).
Proof. done. Qed.

Lemma encode_leaf_nil_bytes t : byte_list (encode_attr (Leaf t [])).
Proof. repeat apply Forall_app_2; try apply le_split_bytes; constructor. Qed.

(** Patching the length of the container. *)
Lemma nest_end_wrote msg msg1 msg2 t body :
  wrote msg msg1 (encode_attr (Leaf (Z.lor t NLA_F_NESTED) [])) -> wrote msg1 msg2 body ->
  exists msg3, nla_nest_end (mb_tail msg) msg2 = (Ok (s32 (mb_tail msg2)), msg3) /\
    wrote msg msg3 (header (4 + Z.of_nat (length body)) (Z.lor t NLA_F_NESTED) ++ body).
Proof.
  intros Hw1 Hw2. pose proof (wrote_app _ _ _ _ _ Hw1 Hw2) as (Ht & He & Hd & Hb & Hm).
  rewrite length_app in Ht, Hb. change (length (encode_attr (Leaf _ []))) with 4%nat in Ht, Hb.
  replace (Z.of_nat (4 + length body)) with (4 + Z.of_nat (length body)) in Ht, Hb by lia.
  rewrite bytes_of_app in Hb by lia. apply app_inj_1 in Hb as [Hb1 Hb2]; [|by rewrite length_bytes_of].
  exists (mk_msg_buff (mb_tail msg2) (mb_end msg2)
            (store_le 2 (mb_data msg2) (mb_tail msg) (mb_tail msg2 - mb_tail msg))).
  split; [done|]. unfold wrote. cbn [mb_tail mb_end mb_data]. rewrite length_app, length_header.
  replace (Z.of_nat (4 + length body)) with (4 + Z.of_nat (length body)) by lia.
  set (m := mb_data msg2) in *. set (T := mb_tail msg) in *.
  replace (mb_tail msg2 - T) with (4 + Z.of_nat (length body)) by lia.
  assert (forall b k, T + 2 <= b -> bytes_of (store_le 2 m T (4 + Z.of_nat (length body))) b k = bytes_of m b k) as Hrest.
  { intros b k Hbk. eapply agree_bytes_of with (a := b) (n := k); [|lia..].
    intros i Hi. apply store_le_other. lia. }
  split_and!; [lia|done| | |].
  - intros i Hi. rewrite store_le_other by lia. by apply Hd.
  - rewrite bytes_of_app, (Hrest (T + 4)), Hb2 by lia. f_equal.
    rewrite bytes_of_header, (Hrest (T + 2)) by lia. unfold header. f_equal; [apply (bytes_of_store 2)|].
    change (encode_attr (Leaf (Z.lor t NLA_F_NESTED) [])) with (le_split 2 4 ++ le_split 2 (Z.lor t NLA_F_NESTED)) in Hb1.
    rewrite bytes_of_header in Hb1. apply app_inj_1 in Hb1 as [_ ?]; [done|by rewrite length_bytes_of].
  - intros Hm0 [_ Hbody]%Forall_app. apply store_le_bytes, Hm; [done|]. apply Forall_app_2; [|done].
    apply encode_leaf_nil_bytes.
Qed.

Lemma put_attr_wrote a : puts a.
Proof.
  induction a as [t d|t l IH] using attr_ind_nested; intros msg Hwf Hend Hroom.
  { pose proof (length_leaf_le t d). apply nla_put_wrote; [done| |done]. unfold wf_msg in Hwf. lia. }
  rewrite length_nest in Hroom. rewrite put_attr_nest. unfold nla_nest_start. unfold mbind, B_bind, get_msg.
  destruct (nla_put_wrote (Z.lor t NLA_F_NESTED) [] msg) as (msg1 & Hrun1 & Hw1); [done|done| |].
  { change (length (encode_attr (Leaf _ []))) with 4%nat. lia. }
  change (Z.of_nat (length [])) with 0 in Hrun1. rewrite Hrun1. cbn [mret B_ret].
  change (0 <? 0) with false. cbv iota. pose proof Hw1 as (Ht1 & He1 & _).
  change (length (encode_attr (Leaf _ []))) with 4%nat in Ht1.
  destruct (put_attrs_wrote l msg1) as (msg2 & Hrun2 & Hw2); [done| |lia..|].
  { eapply wrote_wf; [done..|]. change (length (encode_attr (Leaf _ []))) with 4%nat. lia. }
  rewrite Hrun2. change (0 <? 0) with false. cbv iota.
  destruct (nest_end_wrote _ _ _ _ _ Hw1 Hw2) as (msg3 & Hrun3 & Hw3).
  exists msg3. by rewrite Hrun3.
Qed.

(** *** Reading *)

Definition wire_len (a : attr) : Z :=
  match a with
  | Leaf _ d => 4 + Z.of_nat (length d)
  | Nest _ l => 4 + Z.of_nat (length (encode_all l))
  end.

Definition wire_type (a : attr) : Z :=
  match a with Leaf t _ => t | Nest t _ => Z.lor t NLA_F_NESTED end.

Definition wire_body (a : attr) : list Z :=
  match a with Leaf _ d => d ++ padding (length d) | Nest _ l => encode_all l end.

Lemma encode_split a : encode_attr a = header (wire_len a) (wire_type a) ++ wire_body a.
Proof. by destruct a. Qed.

Lemma encode_aligned a : Z.of_nat (length (encode_attr a)) mod 4 = 0.
Proof.
  induction a as [t d|t l IH] using attr_ind_nested; [rewrite length_leaf; apply Z.mod_mul; lia|].
  rewrite length_nest. replace (4 + Z.of_nat (length (encode_all l)))
    with (Z.of_nat (length (encode_all l)) + 1 * 4) by lia. rewrite Z.mod_add by lia.
  induction IH as [|a l Ha _ IHl]; [done|]. rewrite encode_all_cons, length_app, Nat2Z.inj_add.
  by rewrite Z.add_mod, Ha, IHl by lia.
Qed.

Lemma length_encode_ALIGN a :
  wire_len a < 2 ^ 16 -> Z.of_nat (length (encode_attr a)) = NLA_ALIGN (wire_len a).
Proof.
  intros Hlt. pose proof (encode_aligned a) as Hmod. destruct a as [t d|t l]; cbn [wire_len] in *.
  - rewrite length_leaf, NLA_ALIGN_spec by lia. do 2 f_equal. lia.
  - rewrite length_nest in Hmod |- *. rewrite NLA_ALIGN_spec by lia.
    set (n := 4 + Z.of_nat (length (encode_all l))) in *. pose proof (Z.div_mod n 4).
    assert ((n + 3) / 4 = n / 4) as ->; [|lia].
    symmetry. apply Z.div_unique with 3; lia.
Qed.

Lemma wire_type_ok a :
  wf_attr a ->
  0 <= wire_type a < 2 ^ 16 /\
  match a with
  | Leaf t _ => Z.testbit (wire_type a) 15 = false /\ Z.land (wire_type a) NLA_TYPE_MASK = t
  | Nest t _ => Z.testbit (wire_type a) 15 = true /\ Z.land (wire_type a) NLA_TYPE_MASK = t
  end.
Proof.
  assert (forall t, 0 <= t < 2 ^ 14 -> Z.land t NLA_TYPE_MASK = t) as Hmask.
  { intros t Ht. unfold NLA_TYPE_MASK. replace (2 ^ 14 - 1) with (Z.ones 14) by done.
    rewrite Z.land_ones by done. by apply Z.mod_small. }
  destruct 1 as [t d Ht Hd|t l Ht Hl]; cbn [wire_type].
  - split_and!; [lia..| |by apply Hmask]. apply Z.bits_above_log2; [lia|].
    destruct (Z.eq_dec t 0) as [->|]; [done|]. apply Z.log2_lt_pow2; lia.
  - assert (Z.lor t NLA_F_NESTED = NLA_F_NESTED + t) as Hsum.
    { rewrite Z.lor_comm. apply (lor_add _ _ 15); [done| |lia]. exists 1. done. }
    split_and!.
    + rewrite Hsum. unfold NLA_F_NESTED. lia.
    + rewrite Hsum. unfold NLA_F_NESTED. lia.
    + rewrite Z.lor_spec. unfold NLA_F_NESTED. rewrite Z.pow2_bits_true by done. apply orb_true_r.
    + rewrite Z.land_comm, Z.land_lor_distr_r, (Z.land_comm _ t), Hmask by done.
      change (Z.land NLA_TYPE_MASK NLA_F_NESTED) with 0. apply Z.lor_0_r.
Qed.

Lemma header_read m a n t :
  0 <= n < 2 ^ 16 -> 0 <= t < 2 ^ 16 -> bytes_of m a 4 = header n t ->
  nlattr_nla_len m a = n /\ nlattr_nla_type m a = t.
Proof.
  intros Hn Ht Hb. rewrite bytes_of_header in Hb. unfold header in Hb.
  apply app_inj_1 in Hb as [Hb1 Hb2]; [|by rewrite length_bytes_of, length_le_split].
  unfold nlattr_nla_len, nlattr_nla_type. rewrite !load_bytes_of. change (Z.of_nat 2) with 2.
  rewrite Hb1, Hb2, !le_combine_split, !Z.mod_small by done. done.
Qed.

(** The bytes of the attributes [l] are found at [a]. *)
Definition holds (m : mem) (a : Z) (l : list attr) : Prop :=
  bytes_of m a (Z.of_nat (length (encode_all l))) = encode_all l.

Lemma wire_len_range a : 4 <= wire_len a <= Z.of_nat (length (encode_attr a)).
Proof.
  destruct a as [t d|t l]; cbn [wire_len]; [pose proof (length_leaf_le t d)|rewrite length_nest]; lia.
Qed.

(** The attribute a stream starts with. *)
Lemma holds_first m a x l :
  holds m a (x :: l) -> wf_attr x -> Z.of_nat (length (encode_attr x)) < 2 ^ 16 ->
  nlattr_nla_len m a = wire_len x /\ nlattr_nla_type m a = wire_type x /\
  bytes_of m (a + 4) (Z.of_nat (length (wire_body x))) = wire_body x /\
  holds m (a + Z.of_nat (length (encode_attr x))) l.
Proof.
  unfold holds. rewrite encode_all_cons, length_app, Nat2Z.inj_add, bytes_of_app by lia.
  intros [Hx Hl]%app_inj_1 Hwf Hlt; [|rewrite length_bytes_of; lia].
  pose proof (wire_len_range x). destruct (wire_type_ok x Hwf) as [Ht _].
  rewrite encode_split, length_app, length_header, Nat2Z.inj_add, bytes_of_app in Hx by lia.
  apply app_inj_1 in Hx as [Hh Hb]; [|by rewrite length_bytes_of].
  destruct (header_read m a (wire_len x) (wire_type x)); [lia|done|done|]. done.
Qed.

Lemma holds_unfold m a x l :
  bytes m -> holds m a (x :: l) -> wf_attr x -> Z.of_nat (length (encode_all (x :: l))) < 2 ^ 16 ->
  nla_for_each_attr m a (Z.of_nat (length (encode_all (x :: l)))) =
  a :: nla_for_each_attr m (a + Z.of_nat (length (encode_attr x))) (Z.of_nat (length (encode_all l))).
Proof.
  intros Hm Hh Hwf Hlt. rewrite encode_all_cons, length_app, Nat2Z.inj_add in Hlt |- *.
  destruct (holds_first m a x l Hh Hwf) as (Hn & Ht & _); [lia|].
  pose proof (wire_len_range x). pose proof (length_encode_ALIGN x ltac:(lia)) as Hal.
  rewrite attrs_unfold by (done || solve_int). unfold nla_ok, nla_next. rewrite Hn, <- Hal.
  rewrite !(proj2 (Z.leb_le _ _)) by lia. cbn [andb fst snd]. rewrite s32_id by solve_int.
  do 2 f_equal. lia.
Qed.

Lemma read_holds depth m a l :
  bytes m -> holds m a l -> Forall wf_attr l -> (list_max (height <$> l) <= depth)%nat ->
  Z.of_nat (length (encode_all l)) < 2 ^ 16 ->
  read_attrs depth m a (Z.of_nat (length (encode_all l))) = l.
Proof.
  intros Hm. revert a l. induction depth as [|depth IH]; intros a l Hh Hwf Hd Hlt.
  { destruct l as [|x l]; [done|]. destruct x; cbn in Hd; lia. }
  revert a Hh Hd Hlt. induction Hwf as [|x l Hx Hl IHl]; intros a Hh Hd Hlt.
  { cbn [read_attrs]. by rewrite attrs_unfold. }
  cbn [read_attrs] in IHl |- *. rewrite holds_unfold by done. rewrite fmap_cons.
  rewrite encode_all_cons, length_app, Nat2Z.inj_add in Hlt.
  change (list_max (height <$> x :: l)) with (Nat.max (height x) (list_max (height <$> l))) in Hd.
  destruct (holds_first m a x l Hh Hx) as (Hn & Ht & Hb & Hrest); [lia|].
  f_equal; [|apply IHl; [done|lia..]].
  destruct (wire_type_ok x Hx) as [_ Hty]. unfold payload, nla_type, nla_len, nla_data, NLA_HDRLEN.
  rewrite Ht, Hn. destruct x as [t d|t l']; destruct Hty as [-> ->]; f_equal; cbn [wire_len wire_body] in *.
  - rewrite length_app, Nat2Z.inj_add, bytes_of_app in Hb by lia.
    apply app_inj_1 in Hb as [Hb _]; [|rewrite length_bytes_of; lia].
    by replace (4 + Z.of_nat (length d) - 4) with (Z.of_nat (length d)) by lia.
  - replace (4 + Z.of_nat (length (encode_all l')) - 4) with (Z.of_nat (length (encode_all l'))) by lia.
    inversion Hx; subst. rewrite length_nest in Hlt. apply IH; [done|done|cbn in Hd; lia|lia].
Qed.

(** The attribute found at [nla] is [x]. *)
Definition is_attr (m : mem) (nla : Z) (x : attr) : Prop :=
  match x with
  | Leaf t d => nla_type m nla = t /\ nla_len m nla = Z.of_nat (length d) /\ payload m nla = d
  | Nest t l => nla_type m nla = t /\ nla_len m nla = Z.of_nat (length (encode_all l)) /\
                holds m (nla_data nla) l
  end.

Lemma holds_positions m a l :
  bytes m -> holds m a l -> Forall wf_attr l -> Z.of_nat (length (encode_all l)) < 2 ^ 16 ->
  Forall2 (is_attr m) (nla_for_each_attr m a (Z.of_nat (length (encode_all l)))) l.
Proof.
  intros Hm Hh Hwf. revert a Hh. induction Hwf as [|x l Hx Hl IH]; intros a Hh Hlt.
  { by rewrite attrs_unfold. }
  rewrite holds_unfold by done. rewrite encode_all_cons, length_app, Nat2Z.inj_add in Hlt.
  destruct (holds_first m a x l Hh Hx) as (Hn & Ht & Hb & Hrest); [lia|].
  constructor; [|apply IH; [done|lia]].
  destruct (wire_type_ok x Hx) as [_ Hty]. unfold is_attr, payload, nla_type, nla_len, nla_data, NLA_HDRLEN.
  rewrite Ht, Hn. destruct x as [t d|t l']; destruct Hty as [_ ->]; cbn [wire_len wire_body] in *.
  - rewrite length_app, Nat2Z.inj_add, bytes_of_app in Hb by lia.
    apply app_inj_1 in Hb as [Hb _]; [|rewrite length_bytes_of; lia].
    replace (4 + Z.of_nat (length d) - 4) with (Z.of_nat (length d)) by lia. done.
  - split_and!; [done|lia|exact Hb].
Qed.

Lemma wf_encode_bytes a : wf_attr a -> byte_list (encode_attr a).
Proof.
  induction a as [t d|t l IH] using attr_ind_nested; intros Hwf.
  - inversion_clear Hwf. repeat apply Forall_app_2; try apply le_split_bytes; [done|].
    unfold padding. by apply Forall_replicate.
  - inversion_clear Hwf as [|? ? _ Hl].
    change (byte_list (header (4 + Z.of_nat (length (encode_all l))) (Z.lor t NLA_F_NESTED) ++ encode_all l)).
    repeat apply Forall_app_2; try apply le_split_bytes. unfold encode_all. apply Forall_concat, Forall_fmap.
    rewrite Forall_forall in IH, Hl |- *. intros x Hx. apply (IH x Hx), (Hl x Hx).
Qed.

Lemma wf_encode_all_bytes l : Forall wf_attr l -> byte_list (encode_all l).
Proof.
  intros Hl. unfold encode_all. apply Forall_concat, Forall_fmap.
  eapply Forall_impl; [exact Hl|]. apply wf_encode_bytes.
Qed.

(** C32: Round trip of a message: attributes of any nesting, with payloads of
    any bytes, are added to a message that has room for them by [nla_put],
    [nla_nest_start] and [nla_nest_end]; the loops over the attributes of the
    bytes that were added, and over the attributes nested in them, then visit
    the same attributes with the same types and payloads.  The bytes before
    the old tail are left alone. *)
Theorem put_then_read l msg depth :
  wf_msg msg -> mb_end msg < 2 ^ 16 -> bytes (mb_data msg) ->
  Forall wf_attr l -> (list_max (height <$> l) <= depth)%nat ->
  mb_tail msg + Z.of_nat (length (encode_all l)) <= mb_end msg ->
  exists msg', put_attrs l msg = (Ok 0, msg') /\
    (forall i, i < mb_tail msg -> mb_data msg' i = mb_data msg i) /\
    read_attrs depth (mb_data msg') (mb_tail msg) (mb_tail msg' - mb_tail msg) = l.
Proof.
  intros Hwf Hend Hm Hl Hd Hroom.
  destruct (put_attrs_wrote l msg) as (msg' & Hrun & Ht & He & Hbefore & Hb & Hm'); [|done..|].
  { apply Forall_true. apply put_attr_wrote. }
  exists msg'. split_and!; [done|done|].
  replace (mb_tail msg' - mb_tail msg) with (Z.of_nat (length (encode_all l))) by lia.
  unfold wf_msg in Hwf. apply read_holds; [|done..|lia].
  apply Hm'; [done|]. by apply wf_encode_all_bytes.
Qed.

(** ** Examples *)

(** The payload is shorter than the data that are given; the buffer just has room. *)
Lemma nla_put_outcome_witness :
  exists r msg', nla_put 5 3 [1; 2; 3; 9] (msg_new 8) = (Ok r, msg') /\
    (r = - EMSGSIZE /\ msg' = msg_new 8 /\ mb_end (msg_new 8) - mb_tail (msg_new 8) < 3 + 4 + nla_padlen 3 \/
     r = 0 /\ mb_tail msg' = mb_tail (msg_new 8) + 3 + 4 + nla_padlen 3 /\
     mb_end msg' = mb_end (msg_new 8) /\ wf_msg msg' /\
     (forall i, ~ (mb_tail (msg_new 8) <= i < mb_tail msg') -> mb_data msg' i = mb_data (msg_new 8) i) /\
     (3 + 4 < 2 ^ 16 ->
      bytes_of (mb_data msg') (mb_tail (msg_new 8)) (mb_tail msg' - mb_tail (msg_new 8)) = [7; 0; 5; 0; 1; 2; 3; 0])).
Proof.
  apply (nla_put_outcome 5 3 [1; 2; 3; 9] (msg_new 8)); [unfold wf_msg|..]; cbn; lia.
Defined.

Definition example_attrs : list attr :=
  [Leaf 3 [1; 2; 3; 4]; Nest 2 [Leaf 10 [97; 98; 0]; Nest 1 [Leaf 7 []]]; Leaf 3 []].

Lemma example_attrs_wf : Forall wf_attr example_attrs.
Proof. repeat first [constructor | lia]. Qed.

Lemma put_then_read_witness :
  exists msg', put_attrs example_attrs (msg_new 8192) = (Ok 0, msg') /\
    (forall i, i < 0 -> mb_data msg' i = 0) /\
    read_attrs 3 (mb_data msg') 0 (mb_tail msg' - 0) = example_attrs.
Proof.
  apply (put_then_read example_attrs (msg_new 8192) 3).
  - unfold wf_msg. cbn. lia.
  - cbn. lia.
  - intros i. change (0 <= 0 < 256). lia.
  - apply example_attrs_wf.
  - vm_compute. lia.
  - vm_compute. discriminate.
Defined.
