(* ===== verification/Genl.v ===== *)
(** * Generic netlink messages

    Netlink messages (user/shared/libgenl.h), sending and receiving them
    (user/shared/libgenl.c) and what the tools learn about a generic netlink
    family from the controller.

    The socket is modelled by what comes out of it: a queue of datagrams,
    errors and silences.  [recvmsg] delivers at most the size of the buffer
    and tells when a datagram was longer; with [MSG_PEEK] the datagram stays
    in the queue.  Setting up the socket ([genl_connect]), memory exhaustion
    and the messages to stderr are not modelled.  The constants are those of
    linux/netlink.h and linux/genetlink.h. *)

From S2P Require Import Prelude Machine Nla NlaPut.
From stdpp Require Import gmap.

#[local] Open Scope Z_scope.
#[local] Open Scope list_scope.

(** ** linux/netlink.h, linux/genetlink.h *)

Definition NLMSG_HDRLEN : Z := 16.
Definition GENL_HDRLEN : Z := 4.

(** [NLMSG_ALIGNTO] is unsigned. *)
Definition NLMSG_ALIGN (len : Z) : Z := Z.land (u32 (len + 3)) (u32 (Z.lnot 3)).

Definition NLM_F_REQUEST : Z := 1.
Definition NLM_F_ECHO : Z := 8.
Definition NLMSG_NOOP : Z := 1.
Definition NLMSG_ERROR : Z := 2.
Definition NLMSG_DONE : Z := 3.
Definition NLMSG_OVERRUN : Z := 4.

(** [struct nlmsghdr] *)
Definition nlh_len (m : mem) (nlh : Z) : Z := load_le 4 m nlh.
Definition nlh_type (m : mem) (nlh : Z) : Z := load_le 2 m (nlh + 4).
Definition nlh_flags (m : mem) (nlh : Z) : Z := load_le 2 m (nlh + 6).
Definition nlh_seq (m : mem) (nlh : Z) : Z := load_le 4 m (nlh + 8).
Definition nlh_pid (m : mem) (nlh : Z) : Z := load_le 4 m (nlh + 12).

(** ** Messages (libgenl.h) *)

Definition nlmsg_msg_size (payload : Z) : Z := s32 (NLMSG_HDRLEN + payload).
Definition nlmsg_total_size (payload : Z) : Z := s32 (NLMSG_ALIGN (nlmsg_msg_size payload)).
Definition nlmsg_padlen (payload : Z) : Z :=
  s32 (nlmsg_total_size payload - nlmsg_msg_size payload).

Definition nlmsg_data (nlh : Z) : Z := nlh + NLMSG_HDRLEN.
Definition nlmsg_len (m : mem) (nlh : Z) : Z := s32 (nlh_len m nlh - NLMSG_HDRLEN).
Definition nlmsg_attrdata (nlh hdrlen : Z) : Z := nlmsg_data nlh + NLMSG_ALIGN hdrlen.
Definition nlmsg_attrlen (m : mem) (nlh hdrlen : Z) : Z :=
  s32 (nlmsg_len m nlh - NLMSG_ALIGN hdrlen).

Definition nlmsg_ok (m : mem) (nlh remaining : Z) : bool :=
  (16 <=? remaining) && (16 <=? nlh_len m nlh) && (nlh_len m nlh <=? u32 remaining).

Definition nlmsg_next (m : mem) (nlh remaining : Z) : Z * Z :=
  let totlen := s32 (NLMSG_ALIGN (nlh_len m nlh)) in
  (nlh + totlen, s32 (remaining - totlen)).

(** The messages [nlmsg_for_each_msg] visits. *)
Fixpoint nlmsg_walk (fuel : nat) (m : mem) (pos rem : Z) : list Z :=
  match fuel with
  | O => []
  | S fuel' =>
      if nlmsg_ok m pos rem then
        let '(pos', rem') := nlmsg_next m pos rem in pos :: nlmsg_walk fuel' m pos' rem'
      else []
  end.

Definition nlmsg_for_each_msg (m : mem) (head len : Z) : list Z :=
  nlmsg_walk (S (Z.to_nat len)) m head len.

Definition nlmsg_for_each_attr (m : mem) (nlh hdrlen : Z) : list Z :=
  nla_for_each_attr m (nlmsg_attrdata nlh hdrlen) (nlmsg_attrlen m nlh hdrlen).

Definition nlmsg_parse (m : mem) (nlh hdrlen maxtype : Z) (policy : option (list nla_policy)) :
    res Z * gmap Z Z :=
  if nlh_len m nlh <? u32 (nlmsg_msg_size hdrlen) then (Ok (- EINVAL), ∅)
  else nla_parse m maxtype (nlmsg_attrdata nlh hdrlen) (nlmsg_attrlen m nlh hdrlen) policy.

Definition nlmsg_find_attr (m : mem) (nlh hdrlen attrtype : Z) : option Z :=
  nla_find m (nlmsg_attrdata nlh hdrlen) (nlmsg_attrlen m nlh hdrlen) attrtype.

Definition nlmsg_validate (m : mem) (nlh hdrlen maxtype : Z) (policy : list nla_policy) : res Z :=
  if nlh_len m nlh <? u32 (nlmsg_msg_size hdrlen) then Ok (- EINVAL)
  else nla_validate m (nlmsg_attrdata nlh hdrlen) (nlmsg_attrlen m nlh hdrlen) maxtype policy.

Definition nlmsg_report (m : mem) (nlh : Z) : bool := truth (Z.land (nlh_flags m nlh) NLM_F_ECHO).

Definition genlmsg_data (gnlh : Z) : Z := gnlh + GENL_HDRLEN.
Definition genlmsg_len (m : mem) (gnlh : Z) : Z :=
  s32 (nlh_len m (gnlh - NLMSG_HDRLEN) - GENL_HDRLEN - NLMSG_HDRLEN).
Definition genlmsg_msg_size (payload : Z) : Z := s32 (GENL_HDRLEN + payload).
Definition genlmsg_total_size (payload : Z) : Z := s32 (NLMSG_ALIGN (genlmsg_msg_size payload)).

(** ** Families and sockets (libgenl.h) *)

Definition GENL_MAX_OPS : Z := 128.
Definition GENL_NAMSIZ : Z := 16.

Record genl_multicast_group := mk_mcg { mcg_name : list Z; mcg_id : Z }.

Record genl_family := mk_genl_family {
  fam_id : Z;
  fam_hdrsize : Z;
  fam_name : list Z;
  fam_version : Z;
  fam_maxattr : Z;
  fam_mc_groups : list genl_multicast_group;   (* 32 entries *)
  fam_nl_groups : Z;
  fam_op_known : list bool                     (* [GENL_MAX_OPS] entries *)
}.

#[export] Instance eta_genl_family : Eta genl_family :=
  fun r => mk_genl_family (fam_id r) (fam_hdrsize r) (fam_name r) (fam_version r) (fam_maxattr r)
    (fam_mc_groups r) (fam_nl_groups r) (fam_op_known r).

Record genl_sock := mk_genl_sock {
  s_local_pid : Z;
  s_seq_next : Z;
  s_seq_expect : Z
}.

#[export] Instance eta_genl_sock : Eta genl_sock :=
  fun r => mk_genl_sock (s_local_pid r) (s_seq_next r) (s_seq_expect r).

(** ** Requests *)

Definition genlmsg_put (family : genl_family) (flags cmd : Z) : B (option Z) :=
  let hdrsize := u32 (NLMSG_HDRLEN + GENL_HDRLEN + fam_hdrsize family) in
  msg ← get_msg;
  if msg_tailroom msg <? nlmsg_total_size (s32 hdrsize) then mret None
  else
    nlh ← msg_put hdrsize;
    on_data (fun m => store_le 2 m (nlh + 4) (fam_id family));;
    on_data (fun m => store_le 2 m (nlh + 6) flags);;
    on_data (fun m => store_le 4 m (nlh + 12) 0);;
    on_data (fun m => store_le 4 m (nlh + 8) 0);;
    let hdr := nlmsg_data nlh in
    on_data (fun m => store_le 1 m hdr cmd);;
    on_data (fun m => store_le 1 m (hdr + 1) (fam_version family));;
    on_data (fun m => store_le 2 m (hdr + 2) 0);;
    mret (Some (hdr + GENL_HDRLEN)).

(** What one [write] returns: a number of bytes, or an error. *)
Inductive write_result := Wrote (c : Z) | WriteEINTR | WriteError.

(** The return value and the bytes the kernel took; [None] while the socket
    has not answered all the writes. *)
Fixpoint do_send (ws : list write_result) (buf : list Z) : option (Z * list Z) :=
  match ws with
  | [] => None
  | WriteEINTR :: ws' => do_send ws' buf
  | WriteError :: _ => Some (- 1, [])
  | Wrote c :: ws' =>
      let len := Z.of_nat (length buf) in
      if c <? len then
        match do_send ws' (drop (Z.to_nat c) buf) with
        | Some (r, sent) => Some (r, take (Z.to_nat c) buf ++ sent)
        | None => None
        end
      else Some (0, buf)
  end.

(** Completes the header of the message. *)
Definition finish_msg (s : genl_sock) (msg : msg_buff) : genl_sock * msg_buff :=
  let seq := s_seq_next s in
  let m := mb_data msg in
  let m := store_le 4 m 0 (mb_tail msg) in
  let m := store_le 2 m 6 (Z.lor (nlh_flags m 0) NLM_F_REQUEST) in
  let m := store_le 4 m 8 seq in
  let m := store_le 4 m 12 (s_local_pid s) in
  (s <| s_seq_expect := seq |> <| s_seq_next := u32 (seq + 1) |>, msg <| mb_data := m |>).

Definition genl_send (s : genl_sock) (ws : list write_result) (msg : msg_buff) :
    option (Z * list Z) * genl_sock * msg_buff :=
  let '(s', msg') := finish_msg s msg in
  (do_send ws (bytes_of (mb_data msg') 0 (s32 (nlh_len (mb_data msg') 0))), s', msg').

(** ** Receiving *)

Record datagram := mk_datagram { dg_pid : Z; dg_namelen : Z; dg_data : list Z }.

(** What the socket has to offer next: nothing in time, an error of
    [recvmsg], or a datagram. *)
Inductive recv_item := Quiet | RecvErr (errno : Z) | Datagram (d : datagram).

Definition EINTR : Z := 4.
Definition EAGAIN : Z := 11.
Definition ENOBUFS : Z := 105.
Definition sizeof_sockaddr_nl : Z := 12.

Definition E_RCV_TIMEDOUT : Z := 0.
Definition E_RCV_FAILED : Z := 1.
Definition E_RCV_NO_SOURCE_ADDR : Z := 2.
Definition E_RCV_SEQ_MISMATCH : Z := 3.
Definition E_RCV_MSG_TRUNC : Z := 4.
Definition E_RCV_UNEXPECTED_TYPE : Z := 5.
Definition E_RCV_NLMSG_DONE : Z := 6.
Definition E_RCV_ERROR_REPLY : Z := 7.
Definition E_RCV_ENOBUFS : Z := 8.

(** [iov]: the length of the buffer and its content. *)
Record iovec := mk_iovec { iov_len : Z; iov_base : list Z }.

(** The loop of [genl_recv_timeout] from the label [retry] on; [peek] is
    [flags == MSG_PEEK].  The result is the return value, the buffer and what
    is left in the socket; [None]: out of fuel. *)
Fixpoint recv_loop (fuel : nat) (peek : bool) (iov : iovec) (q : list recv_item) :
    option (Z * iovec * list recv_item) :=
  match fuel with
  | O => None
  | S fuel' =>
      match q with
      | [] => Some (0, iov, [])
      | Quiet :: q' => Some (0, iov, q')
      | RecvErr errno :: q' =>
          if errno =? EINTR then recv_loop fuel' peek iov q'
          else if errno =? EAGAIN then Some (0, iov, q')
          else if errno =? ENOBUFS then Some (- E_RCV_ENOBUFS, iov, q')
          else Some (- E_RCV_FAILED, iov, q')
      | Datagram d :: q' =>
          let size := Z.of_nat (length (dg_data d)) in
          let n := Z.min size (iov_len iov) in
          let iov := mk_iovec (iov_len iov) (take (Z.to_nat n) (dg_data d)) in
          let q := if peek then q else q' in
          if n =? 0 then Some (0, iov, q)
          else if iov_len iov <? size then
            recv_loop fuel' peek (mk_iovec (u64 (iov_len iov * 2)) (iov_base iov)) q
          else if peek then recv_loop fuel' false iov q
          else if negb (dg_namelen d =? sizeof_sockaddr_nl) then Some (- E_RCV_NO_SOURCE_ADDR, iov, q)
          else if negb (dg_pid d =? 0) then recv_loop fuel' peek iov q
          else Some (n, iov, q)
      end
  end.

Definition genl_recv_timeout (fuel : nat) (iov : iovec) (q : list recv_item) :
    option (Z * iovec * list recv_item) :=
  recv_loop fuel true (if truth (iov_len iov) then iov else mk_iovec 8192 []) q.

(** The return value and [*err_desc]; [strerror] is the C library's. *)
Definition check_reply (strerror : Z -> string) (s : genl_sock) (m : mem) (c : Z) : Z * option string :=
  let nlh := 0 in
  if negb (nlmsg_ok m nlh c) then (- E_RCV_MSG_TRUNC, Some "truncated message in netlink reply"%string)
  else if truth (s_seq_expect s) && negb (nlh_seq m nlh =? s_seq_expect s) then
    (- E_RCV_SEQ_MISMATCH, Some "sequence mismatch in netlink reply"%string)
  else if (nlh_type m nlh =? NLMSG_NOOP) || (nlh_type m nlh =? NLMSG_OVERRUN) then
    (- E_RCV_UNEXPECTED_TYPE, Some "unexpected message type in reply"%string)
  else if nlh_type m nlh =? NLMSG_DONE then (- E_RCV_NLMSG_DONE, None)
  else if nlh_type m nlh =? NLMSG_ERROR then
    let errno := s32 (- s32 (load_le 4 m (nlmsg_data nlh))) in
    (- E_RCV_ERROR_REPLY, if truth errno then Some (strerror errno) else None)
  else (c, None).

Definition genl_recv_msgs (strerror : Z -> string) (fuel : nat) (s : genl_sock) (iov : iovec)
    (q : list recv_item) : option (Z * option string * iovec * list recv_item) :=
  match genl_recv_timeout fuel iov q with
  | None => None
  | Some (c, iov, q) =>
      if c <=? 0 then
        Some (c, Some (if c =? - E_RCV_TIMEDOUT then "timed out waiting for reply"%string
                       else if c =? - E_RCV_NO_SOURCE_ADDR then "no source address!"%string
                       else if c =? - E_RCV_ENOBUFS
                            then "packets droped, socket receive buffer overrun"%string
                       else "failed to receive netlink reply"%string), iov, q)
      else
        let '(r, e) := check_reply strerror s (mem_of_list (iov_base iov)) c in
        Some (r, e, iov, q)
  end.

(** ** What the controller says about a family

    The kernel headers define all of the attributes ([HAVE_CTRL_ATTR_VERSION],
    [HAVE_CTRL_ATTR_HDRSIZE], [HAVE_CTRL_ATTR_MCAST_GROUPS]). *)

Definition CTRL_ATTR_FAMILY_ID : Z := 1.
Definition CTRL_ATTR_FAMILY_NAME : Z := 2.
Definition CTRL_ATTR_VERSION : Z := 3.
Definition CTRL_ATTR_HDRSIZE : Z := 4.
Definition CTRL_ATTR_OPS : Z := 6.
Definition CTRL_ATTR_MCAST_GROUPS : Z := 7.
Definition CTRL_ATTR_MCAST_GRP_NAME : Z := 1.
Definition CTRL_ATTR_MCAST_GRP_ID : Z := 2.
Definition CTRL_ATTR_MCAST_GRP_MAX : Z := 2.
Definition CTRL_ATTR_OP_ID : Z := 1.
Definition CTRL_ATTR_OP_MAX : Z := 2.
Definition CTRL_CMD_GETFAMILY : Z := 3.
Definition GENL_ID_CTRL : Z := 16.
Definition CTRL_ATTR_MAX : Z := 10.

Definition no_groups : list genl_multicast_group := replicate 32 (mk_mcg (replicate 16 0) 0).

Definition genl_ctrl : genl_family :=
  mk_genl_family GENL_ID_CTRL 0 [110; 108; 99; 116; 114; 108] 2 CTRL_ATTR_MAX no_groups 0
    (replicate 128 false).

Definition mcast_policy : list nla_policy :=
  [no_policy; mk_nla_policy NLA_NUL_STRING GENL_NAMSIZ; mk_nla_policy NLA_U32 0].

(** The groups: [i] counts those that were found. *)
Fixpoint mcast_groups (m : mem) (l : list Z) (i : Z) (groups : list genl_multicast_group) :
    res (list genl_multicast_group) :=
  match l with
  | [] => Ok groups
  | idx :: l' =>
      if 32 <=? i then Abort
      else
        let '(r, ntb) := nla_parse_nested m CTRL_ATTR_MCAST_GRP_MAX idx (Some mcast_policy) in
        match r with
        | Ok _ =>
            match ntb !! CTRL_ATTR_MCAST_GRP_NAME, ntb !! CTRL_ATTR_MCAST_GRP_ID with
            | Some name, Some id =>
                let grp := mk_mcg (nla_strlcpy m name GENL_NAMSIZ).2 (nla_get_u32 m id) in
                mcast_groups m l' (i + 1) (zinsert i grp groups)
            | _, _ => mcast_groups m l' i groups
            end
        | Exit c => Exit c
        | Abort => Abort
        | Fault => Fault
        end
  end.

(** The operations: a negative id is an access before the array. *)
Fixpoint known_ops (m : mem) (l : list Z) (known : list bool) : res (list bool) :=
  match l with
  | [] => Ok known
  | idx :: l' =>
      let '(_, ntb) := nla_parse_nested m CTRL_ATTR_OP_MAX idx None in
      match ntb !! CTRL_ATTR_OP_ID with
      | Some op =>
          let id := s32 (nla_get_u32 m op) in
          if id <? GENL_MAX_OPS then
            if id <? 0 then Fault else known_ops m l' (zinsert id true known)
          else known_ops m l' known
      | None => known_ops m l' known
      end
  end.

Definition family_attr (m : mem) (nla : Z) (family : genl_family) : res genl_family :=
  let t := nla_type m nla in
  if t =? CTRL_ATTR_FAMILY_ID then Ok (family <| fam_id := nla_get_u16 m nla |>)
  else if t =? CTRL_ATTR_VERSION then Ok (family <| fam_version := nla_get_u32 m nla |>)
  else if t =? CTRL_ATTR_HDRSIZE then Ok (family <| fam_hdrsize := nla_get_u32 m nla |>)
  else if t =? CTRL_ATTR_MCAST_GROUPS then
    match mcast_groups m (nla_for_each_nested m nla) 0 (fam_mc_groups family) with
    | Ok groups => Ok (family <| fam_mc_groups := groups |>)
    | Exit c => Exit c | Abort => Abort | Fault => Fault
    end
  else if t =? CTRL_ATTR_OPS then
    match known_ops m (nla_for_each_nested m nla) (fam_op_known family) with
    | Ok known => Ok (family <| fam_op_known := known |>)
    | Exit c => Exit c | Abort => Abort | Fault => Fault
    end
  else Ok family.

Fixpoint family_attrs (m : mem) (l : list Z) (family : genl_family) : res genl_family :=
  match l with
  | [] => Ok family
  | nla :: l' =>
      match family_attr m nla family with
      | Ok family' => family_attrs m l' family'
      | r => r
      end
  end.

(** What [genl_connect_to_family] does with the reply in [m]. *)
Definition read_family_reply (m : mem) (family : genl_family) : res genl_family :=
  family_attrs m (nlmsg_for_each_attr m 0 GENL_HDRLEN) family.

(** The request it sends. *)
Definition family_request (name : list Z) : B unit :=
  genlmsg_put genl_ctrl 0 CTRL_CMD_GETFAMILY;;
  nla_put_string CTRL_ATTR_FAMILY_NAME name;;
  mret ().

(** [None]: an access before the array. *)
Definition genl_op_known (family : genl_family) (id : Z) : option bool :=
  if GENL_MAX_OPS <=? id then Some false else zlookup (fam_op_known family) id.

(** The group id [genl_join_mc_group] asks the socket to join, or [None] for
    its result -2; the names are NUL terminated. *)
Fixpoint cstring (l : list Z) : list Z :=
  match l with
  | [] => []
  | c :: l' => if c =? 0 then [] else c :: cstring l'
  end.

Definition genl_join_mc_group (family : genl_family) (name : list Z) : option Z :=
  mcg_id <$> List.find (fun g => truth (mcg_id g) && bool_decide (cstring (mcg_name g) = name))
               (take 32 (fam_mc_groups family)).

(** ** A request, from construction to the bytes in the socket *)

Lemma do_send_result ws buf r sent :
  Forall (fun w => match w with Wrote c => 0 <= c | _ => True end) ws ->
  do_send ws buf = Some (r, sent) -> r = 0 /\ sent = buf \/ r = - 1.
Proof.
  intros Hws. revert buf sent. induction Hws as [|w ws Hw _ IH]; intros buf sent; [done|].
  cbn [do_send]. destruct w as [c| |]; [|apply IH|intros [= <- _]; by right].
  destruct (Z.ltb_spec c (Z.of_nat (length buf))); [|intros [= <- <-]; by left].
  destruct (do_send ws (drop (Z.to_nat c) buf)) as [[r' sent']|] eqn:Hs; [|done].
  intros [= -> <-]. destruct (IH _ _ Hs) as [[-> ->]| ->]; [left|by right].
  split; [done|]. apply take_drop.
Qed.

(** A message of a family with attributes. *)
Definition request (family : genl_family) (flags cmd : Z) (l : list attr) : B Z :=
  hdr ← genlmsg_put family flags cmd;
  match hdr with None => mret (- EMSGSIZE) | Some _ => put_attrs l end.

Definition put_header (m : mem) (family : genl_family) (flags cmd : Z) : mem :=
  let m := store_le 2 m (0 + 4) (fam_id family) in
  let m := store_le 2 m (0 + 6) flags in
  let m := store_le 4 m (0 + 12) 0 in
  let m := store_le 4 m (0 + 8) 0 in
  let m := store_le 1 m 16 cmd in
  let m := store_le 1 m (16 + 1) (fam_version family) in
  store_le 2 m (16 + 2) 0.

Lemma NLMSG_ALIGN_4 x : 0 <= x < 2 ^ 31 -> x mod 4 = 0 -> NLMSG_ALIGN x = x.
Proof.
  intros Hx Hm. unfold NLMSG_ALIGN. rewrite u32_id by solve_int.
  change (u32 (Z.lnot 3)) with (Z.land (Z.lnot 3) (2 ^ 32 - 1)).
  rewrite (Z.land_comm (Z.lnot 3)), Z.land_assoc. replace (2 ^ 32 - 1) with (Z.ones 32) by done.
  rewrite Z.land_ones, Z.mod_small by lia. change (Z.lnot 3) with (Z.lnot (2 ^ 2 - 1)).
  rewrite land_lnot_ones by done. change (2 ^ 2) with 4. pose proof (Z.div_mod x 4).
  assert ((x + 3) / 4 = x / 4) as ->; [|lia]. symmetry. apply Z.div_unique with 3; lia.
Qed.

(** It asks for the room of another netlink header, which it does not use. *)
Lemma genlmsg_put_run family flags cmd size :
  0 <= fam_hdrsize family -> fam_hdrsize family mod 4 = 0 -> 36 + fam_hdrsize family <= size < 2 ^ 16 ->
  genlmsg_put family flags cmd (msg_new size) =
    (Ok (Some 20), mk_msg_buff (20 + fam_hdrsize family) size (put_header zero_mem family flags cmd)).
Proof.
  intros Hh Hm Hs. set (h := fam_hdrsize family) in *.
  assert (NLMSG_ALIGN (36 + h) = 36 + h) as Hal.
  { apply NLMSG_ALIGN_4; [lia|]. replace (36 + h) with (h + 9 * 4) by lia. by rewrite Z.mod_add. }
  unfold genlmsg_put, NLMSG_HDRLEN, GENL_HDRLEN. fold h. rewrite (u32_id (16 + 4 + h)) by solve_int.
  rewrite (s32_id (16 + 4 + h)) by solve_int. unfold mbind at 1, B_bind at 1, get_msg at 1.
  unfold msg_tailroom. cbn [mb_end mb_tail msg_new]. rewrite s32_id by solve_int.
  unfold nlmsg_total_size, nlmsg_msg_size, NLMSG_HDRLEN.
  rewrite (s32_id (16 + (16 + 4 + h))) by solve_int.
  replace (16 + (16 + 4 + h)) with (36 + h) by lia. rewrite Hal, s32_id by solve_int.
  rewrite (proj2 (Z.ltb_ge _ _)) by lia. unfold mbind at 1, B_bind at 1.
  rewrite msg_put_ok; [|lia|cbn; lia]. cbn [mb_end mb_tail msg_new].
  replace (0 + (16 + 4 + h)) with (20 + h) by lia. done.
Qed.

Lemma put_header_bytes m family flags cmd : bytes m -> bytes (put_header m family flags cmd).
Proof. intros Hm. unfold put_header. auto 10 using store_le_bytes. Qed.

(** The memory of [finish_msg]. *)
Definition finish_mem (m : mem) (tail seq pid : Z) : mem :=
  store_le 4 (store_le 4 (store_le 2 (store_le 4 m 0 tail) 6
    (Z.lor (nlh_flags (store_le 4 m 0 tail) 0) NLM_F_REQUEST)) 8 seq) 12 pid.

Lemma finish_mem_fields m tail seq pid :
  nlh_len (finish_mem m tail seq pid) 0 = tail mod 2 ^ 32 /\
  nlh_type (finish_mem m tail seq pid) 0 = nlh_type m 0 /\
  nlh_flags (finish_mem m tail seq pid) 0 = u16 (Z.lor (nlh_flags m 0) NLM_F_REQUEST) /\
  nlh_seq (finish_mem m tail seq pid) 0 = u32 seq /\
  nlh_pid (finish_mem m tail seq pid) 0 = u32 pid /\
  forall i, 16 <= i -> finish_mem m tail seq pid i = m i.
Proof.
  unfold finish_mem, nlh_len, nlh_type, nlh_flags, nlh_seq, nlh_pid.
  rewrite ?(load_store_le_ne 4 _ _ 12) by lia. rewrite ?(load_store_le_ne 4 _ _ 8) by lia.
  rewrite ?(load_store_le_ne 2 _ _ 6) by lia. rewrite ?(load_store_le_ne 4 _ _ 0) by lia.
  rewrite !load_store_le. split_and!; try done. intros i Hi. by rewrite !store_le_other by lia.
Qed.

(** The header fields [genlmsg_put] writes. *)
Lemma put_header_fields m family flags cmd :
  let m' := put_header m family flags cmd in
  nlh_type m' 0 = u16 (fam_id family) /\ nlh_flags m' 0 = u16 flags /\
  load_le 1 m' 16 = u8 cmd /\ load_le 1 m' 17 = u8 (fam_version family).
Proof.
  unfold put_header, nlh_type, nlh_flags. cbv zeta.
  rewrite ?(load_store_le_ne 2 _ _ (16 + 2)) by lia. rewrite ?(load_store_le_ne 1 _ _ (16 + 1)) by lia.
  rewrite ?(load_store_le_ne 1 _ _ 16) by lia. rewrite ?(load_store_le_ne 4 _ _ (0 + 8)) by lia.
  rewrite ?(load_store_le_ne 4 _ _ (0 + 12)) by lia. rewrite ?(load_store_le_ne 2 _ _ (0 + 6)) by lia.
  split_and!; [apply (load_store_le 2)..| |]; [apply (load_store_le 1)|apply (load_store_le 1)].
Qed.

(** What the receiver of the request finds in the bytes [sent]. *)
Definition request_received (s : genl_sock) (family : genl_family) (flags cmd : Z) (l : list attr)
    (depth : nat) (sent : list Z) : Prop :=
  let m := mem_of_list sent in
  let len := Z.of_nat (length sent) in
  nlmsg_for_each_msg m 0 len = [0] /\
  nlh_type m 0 = u16 (fam_id family) /\
  nlh_flags m 0 = u16 (Z.lor (u16 flags) NLM_F_REQUEST) /\
  nlh_seq m 0 = s_seq_expect s /\ nlh_pid m 0 = s_local_pid s /\
  load_le 1 m (nlmsg_data 0) = u8 cmd /\ load_le 1 m (nlmsg_data 0 + 1) = u8 (fam_version family) /\
  let hdrlen := GENL_HDRLEN + fam_hdrsize family in
  read_attrs depth m (nlmsg_attrdata 0 hdrlen) (nlmsg_attrlen m 0 hdrlen) = l.

Lemma agree_mem_of_bytes m n : agree (mem_of_list (bytes_of m 0 n)) m 0 n.
Proof.
  intros i Hi. unfold mem_of_list, zlookup. destruct (Z.ltb_spec i 0); [lia|].
  rewrite bytes_of_lookup by lia. cbn. f_equal. lia.
Qed.

Lemma encode_all_aligned l : Z.of_nat (length (encode_all l)) mod 4 = 0.
Proof.
  induction l as [|a l IH]; [done|]. rewrite encode_all_cons, length_app, Nat2Z.inj_add.
  by rewrite Z.add_mod, encode_aligned, IH by lia.
Qed.

Lemma for_each_one_msg m n :
  nlh_len m 0 = n -> 16 <= n < 2 ^ 31 -> n mod 4 = 0 -> nlmsg_for_each_msg m 0 n = [0].
Proof.
  intros Hl Hn Hm. unfold nlmsg_for_each_msg. cbn [nlmsg_walk]. unfold nlmsg_ok at 1, nlmsg_next.
  rewrite Hl, u32_id by solve_int. rewrite !(proj2 (Z.leb_le _ _)) by lia. cbn [andb].
  rewrite NLMSG_ALIGN_4, !s32_id by solve_int. replace (n - n) with 0 by lia.
  f_equal. by destruct (Z.to_nat n).
Qed.

Lemma request_run family flags cmd l size :
  0 <= fam_hdrsize family -> fam_hdrsize family mod 4 = 0 -> Forall wf_attr l ->
  36 + fam_hdrsize family + Z.of_nat (length (encode_all l)) <= size < 2 ^ 16 ->
  exists msg, request family flags cmd l (msg_new size) = (Ok 0, msg) /\
    mb_tail msg = 20 + fam_hdrsize family + Z.of_nat (length (encode_all l)) /\
    (forall i, i < 20 + fam_hdrsize family -> mb_data msg i = put_header zero_mem family flags cmd i) /\
    holds (mb_data msg) (20 + fam_hdrsize family) l /\ bytes (mb_data msg).
Proof.
  intros Hh Hm Hl Hs. unfold request. unfold mbind, B_bind. rewrite genlmsg_put_run by lia.
  set (msg1 := mk_msg_buff _ _ _).
  destruct (put_attrs_wrote l msg1) as (msg & Hrun & Ht & _ & Hb & Hholds & Hbytes);
    [apply Forall_true, put_attr_wrote|unfold wf_msg; cbn; lia|cbn; lia|cbn; lia|].
  exists msg. split_and!; [done|done|done|done|]. apply Hbytes.
  - by apply put_header_bytes.
  - by apply wf_encode_all_bytes.
Qed.

Lemma received_of_finished s s' family flags cmd l depth msg :
  let h := fam_hdrsize family in
  let n := 20 + h + Z.of_nat (length (encode_all l)) in
  0 <= h -> h mod 4 = 0 -> n < 2 ^ 16 -> mb_tail msg = n ->
  Forall wf_attr l -> (list_max (height <$> l) <= depth)%nat ->
  (forall i, i < 20 + h -> mb_data msg i = put_header zero_mem family flags cmd i) ->
  holds (mb_data msg) (20 + h) l -> bytes (mb_data msg) ->
  in_u32 (s_seq_next s) -> in_u32 (s_local_pid s) ->
  s_seq_expect s' = s_seq_next s -> s_local_pid s' = s_local_pid s ->
  let m3 := finish_mem (mb_data msg) (mb_tail msg) (s_seq_next s) (s_local_pid s) in
  request_received s' family flags cmd l depth (bytes_of m3 0 (s32 (nlh_len m3 0))).
Proof.
  intros h n Hh Hm Hn Ht Hl Hd Hhead Hholds Hb Hseq Hpid Hs1 Hs2 m3.
  destruct (finish_mem_fields (mb_data msg) (mb_tail msg) (s_seq_next s) (s_local_pid s))
    as (F1 & F2 & F3 & F4 & F5 & F6). fold m3 in F1, F2, F3, F4, F5, F6.
  assert (0 <= Z.of_nat (length (encode_all l))) by lia.
  rewrite Z.mod_small in F1 by lia. rewrite F1, s32_id, Ht by solve_int.
  assert (n mod 4 = 0) as Hal.
  { unfold n. pose proof (encode_all_aligned l). rewrite Z.add_mod, (Z.add_mod 20 h), Hm by done.
    by rewrite H0. }
  unfold request_received. rewrite length_bytes_of, Z2Nat.id by lia.
  pose proof (agree_mem_of_bytes m3 n) as Hag. set (m := mem_of_list _) in *.
  destruct (put_header_fields zero_mem family flags cmd) as (P1 & P2 & P3 & P4).
  assert (forall k a, 0 <= a -> a + Z.of_nat k <= n -> load_le k m a = load_le k m3 a) as Hload.
  { intros k a Ha Hk. eapply agree_load; [exact Hag|lia..]. }
  assert (forall k a, a + Z.of_nat k <= 20 -> load_le k (mb_data msg) a = load_le k (put_header zero_mem family flags cmd) a) as Hput.
  { intros k a Ha. apply load_le_ext. intros i Hi. apply Hhead. lia. }
  assert (nlh_len m 0 = n) as Hlen by (unfold nlh_len in *; rewrite Hload by lia; congruence).
  split_and!.
  - by apply for_each_one_msg; [|lia|].
  - unfold nlh_type in *. rewrite Hload by lia. rewrite F2, Hput by lia. done.
  - unfold nlh_flags in *. rewrite Hload by lia. rewrite F3, Hput by lia. by rewrite P2.
  - unfold nlh_seq in *. rewrite Hload by lia. rewrite F4, Hs1. by apply u32_id.
  - unfold nlh_pid in *. rewrite Hload by lia. rewrite F5, Hs2. by apply u32_id.
  - change (nlmsg_data 0) with 16. rewrite Hload by lia.
    rewrite (load_le_ext 1 m3 (mb_data msg)), Hput by (lia || intros; apply F6; lia). done.
  - change (nlmsg_data 0 + 1) with 17. rewrite Hload by lia.
    rewrite (load_le_ext 1 m3 (mb_data msg)), Hput by (lia || intros; apply F6; lia). done.
  - unfold nlmsg_attrdata, nlmsg_attrlen, nlmsg_len, nlmsg_data, NLMSG_HDRLEN, GENL_HDRLEN. fold h.
    rewrite NLMSG_ALIGN_4; [|lia|by replace (4 + h) with (h + 1 * 4) by lia; rewrite Z.mod_add].
    rewrite Hlen, (s32_id (n - 16)), s32_id by solve_int.
    replace (n - 16 - (4 + h)) with (Z.of_nat (length (encode_all l))) by lia.
    replace (0 + 16 + (4 + h)) with (20 + h) by lia. apply read_holds; [|..|done|done|lia].
    + apply mem_of_list_bytes. unfold bytes_of. apply Forall_fmap, Forall_true. intros i.
      unfold m3, finish_mem. apply store_le_bytes, store_le_bytes, store_le_bytes, store_le_bytes, Hb.
    + unfold holds. rewrite (agree_bytes_of m m3 0 n) by (done || lia).
      rewrite (agree_bytes_of m3 (mb_data msg) (20 + h) (n - (20 + h))); [done| |lia..].
      intros i Hi. apply F6. lia.
Qed.

Lemma genl_send_run s ws msg :
  let m := finish_mem (mb_data msg) (mb_tail msg) (s_seq_next s) (s_local_pid s) in
  genl_send s ws msg =
    (do_send ws (bytes_of m 0 (s32 (nlh_len m 0))),
     mk_genl_sock (s_local_pid s) (u32 (s_seq_next s + 1)) (s_seq_next s),
     mk_msg_buff (mb_tail msg) (mb_end msg) m).
Proof. done. Qed.

(** C33: Round trip of a request: a message is started with [genlmsg_put],
    attributes of any nesting are added, and [genl_send] hands it to a socket
    that may take it in any number of pieces.  When the sending succeeds, what
    the socket has got is one netlink message, with the type of the family,
    the command, the sequence number a reply is expected to carry and the
    attributes that were added. *)
Theorem request_roundtrip family flags cmd l size depth s ws r sent s' msg msg' :
  0 <= fam_hdrsize family -> fam_hdrsize family mod 4 = 0 ->
  Forall wf_attr l -> (list_max (height <$> l) <= depth)%nat ->
  36 + fam_hdrsize family + Z.of_nat (length (encode_all l)) <= size < 2 ^ 16 ->
  in_u32 (s_seq_next s) -> in_u32 (s_local_pid s) ->
  Forall (fun w => match w with Wrote c => 0 <= c | _ => True end) ws ->
  request family flags cmd l (msg_new size) = (Ok r, msg) ->
  genl_send s ws msg = (Some (0, sent), s', msg') ->
  r = 0 /\ request_received s' family flags cmd l depth sent.
Proof.
  intros Hh Hm Hl Hd Hs Hseq Hpid Hws Hreq Hsend.
  destruct (request_run family flags cmd l size) as (msg0 & Hrun & Ht & Hhead & Hholds & Hb); [done..|].
  rewrite Hrun in Hreq. injection Hreq as [= <- <-]. split; [done|].
  rewrite genl_send_run in Hsend. pose proof (f_equal (fun x => x.1.1) Hsend) as Hdo.
  pose proof (f_equal (fun x => x.1.2) Hsend) as Hs'. cbn [fst snd] in Hdo, Hs'. clear Hsend.
  apply do_send_result in Hdo as [[_ ->]|]; [|done|done]. rewrite <- Hs'.
  apply (received_of_finished s); done || lia.
Qed.

(** ** A reply *)

(** A datagram of the kernel. *)
Definition from_kernel (d : datagram) : Prop :=
  dg_pid d = 0 /\ dg_namelen d = sizeof_sockaddr_nl /\ 0 < Z.of_nat (length (dg_data d)) < 2 ^ 31.

(** The buffer is doubled until the datagram fits; then it is read. *)
Lemma recv_grow d q fuel L base :
  from_kernel d -> 0 < L < 2 ^ 63 ->
  (Z.to_nat (Z.of_nat (length (dg_data d)) - L) + 2 <= fuel)%nat ->
  exists L', recv_loop fuel true (mk_iovec L base) (Datagram d :: q) =
    Some (Z.of_nat (length (dg_data d)), mk_iovec L' (dg_data d), q) /\
    Z.of_nat (length (dg_data d)) <= L'.
Proof.
  intros (Hpid & Hname & Hsize). revert L base. induction fuel as [|fuel IH]; intros L base HL Hf; [lia|].
  cbn [recv_loop]. set (size := Z.of_nat (length (dg_data d))) in *. cbn [iov_len iov_base].
  rewrite (proj2 (Z.eqb_neq (Z.min size L) 0)) by lia. destruct (Z.ltb_spec L size).
  - rewrite u64_id by solve_int. apply IH; lia.
  - destruct fuel as [|fuel]; [lia|]. cbn [recv_loop iov_len iov_base]. fold size.
    rewrite Hpid, Hname, (proj2 (Z.eqb_neq (Z.min size L) 0)), (proj2 (Z.ltb_ge L size)) by lia.
    exists L. split; [|done]. cbn. rewrite Z.min_l by lia. unfold size. by rewrite Nat2Z.id, take_ge.
Qed.

Lemma recv_interrupted k fuel peek iov q :
  recv_loop (k + fuel) peek iov (replicate k (RecvErr EINTR) ++ q) = recv_loop fuel peek iov q.
Proof. induction k as [|k IH]; [done|]. apply IH. Qed.

Definition special_type (t : Z) : Prop :=
  t = NLMSG_NOOP \/ t = NLMSG_ERROR \/ t = NLMSG_DONE \/ t = NLMSG_OVERRUN.

(** [check_reply] accepts the reply to the last request. *)
Lemma check_reply_spec strerror s m c :
  0 < c ->
  let acceptable := nlmsg_ok m 0 c = true /\ (s_seq_expect s <> 0 -> nlh_seq m 0 = s_seq_expect s) /\
                    ~ special_type (nlh_type m 0) in
  (acceptable -> check_reply strerror s m c = (c, None)) /\
  (~ acceptable -> (check_reply strerror s m c).1 < 0).
Proof.
  intros Hc acceptable. unfold acceptable, special_type, check_reply, truth.
  destruct (nlmsg_ok m 0 c); cbn [negb]; [|split; [by intros [? _]|done]].
  destruct (Z.eqb_spec (s_seq_expect s) 0), (Z.eqb_spec (nlh_seq m 0) (s_seq_expect s)); cbn [negb andb];
    try (split; [intros (_ & ? & _); exfalso; auto|done]);
  destruct (Z.eqb_spec (nlh_type m 0) NLMSG_NOOP), (Z.eqb_spec (nlh_type m 0) NLMSG_OVERRUN),
    (Z.eqb_spec (nlh_type m 0) NLMSG_DONE), (Z.eqb_spec (nlh_type m 0) NLMSG_ERROR); cbn [orb];
  (split; [intros (_ & _ & Hs); try done; exfalso; apply Hs; auto | intros Hn; try done; exfalso; apply Hn; naive_solver]).
Qed.

(** C34: Receiving a reply: when the next datagram in the socket is one of the
    kernel, of any size, then, after any number of interruptions and however
    small the buffer is, [genl_recv_msgs] ends, the buffer holds the whole
    datagram, which is taken from the socket, and the return value is its
    length if its first message is complete, carries the sequence number of
    the last request and is no control message, and negative otherwise. *)
Theorem reply_received strerror s k fuel iov d q :
  from_kernel d -> 0 <= iov_len iov < 2 ^ 63 ->
  (k + length (dg_data d) + 2 <= fuel)%nat ->
  exists r e L,
    genl_recv_msgs strerror fuel s iov (replicate k (RecvErr EINTR) ++ Datagram d :: q) =
      Some (r, e, mk_iovec L (dg_data d), q) /\
    let m := mem_of_list (dg_data d) in
    let c := Z.of_nat (length (dg_data d)) in
    let acceptable := nlmsg_ok m 0 c = true /\ (s_seq_expect s <> 0 -> nlh_seq m 0 = s_seq_expect s) /\
                      ~ special_type (nlh_type m 0) in
    c <= L /\ (acceptable -> r = c /\ e = None) /\ (~ acceptable -> r < 0).
Proof.
  intros Hd Hiov Hf. pose proof Hd as (_ & _ & Hsize).
  set (iov1 := if truth (iov_len iov) then iov else mk_iovec 8192 []).
  assert (0 < iov_len iov1 < 2 ^ 63) as HL1.
  { unfold iov1, truth. destruct (Z.eqb_spec (iov_len iov) 0); cbn; lia. }
  destruct (recv_grow d q (fuel - k) (iov_len iov1) (iov_base iov1)) as (L & Hrun & HL); [done..|lia|].
  destruct (check_reply strerror s (mem_of_list (dg_data d)) (Z.of_nat (length (dg_data d)))) as [r e] eqn:Hc.
  exists r, e, L. split.
  - unfold genl_recv_msgs, genl_recv_timeout. fold iov1.
    replace fuel with (k + (fuel - k))%nat by lia. rewrite recv_interrupted.
    replace iov1 with (mk_iovec (iov_len iov1) (iov_base iov1)) by by destruct iov1. rewrite Hrun.
    rewrite (proj2 (Z.leb_gt _ 0)) by lia. cbn [iov_base]. by rewrite Hc.
  - cbv zeta. split; [done|].
    destruct (check_reply_spec strerror s (mem_of_list (dg_data d)) (Z.of_nat (length (dg_data d)))) as [Ha Hn]; [lia|].
    rewrite Hc in Ha, Hn. split; [|exact Hn]. intros [= -> ->]%Ha. done.
Qed.

(** A datagram of another process, which fits into the buffer, followed by a
    longer one of the kernel. *)
Lemma recv_foreign_then_large d1 d2 q fuel L base :
  dg_namelen d1 = sizeof_sockaddr_nl -> dg_pid d1 <> 0 ->
  0 < Z.of_nat (length (dg_data d1)) <= L -> L < Z.of_nat (length (dg_data d2)) -> 2 * L < 2 ^ 64 ->
  recv_loop (S (S (S fuel))) true (mk_iovec L base) (Datagram d1 :: Datagram d2 :: q) =
  recv_loop fuel false (mk_iovec (L * 2) (take (Z.to_nat L) (dg_data d2))) q.
Proof.
  intros Hname Hpid H1 H2 HL. cbn [recv_loop iov_len iov_base].
  rewrite !(proj2 (Z.eqb_neq (Z.min _ _) 0)) by lia.
  rewrite (proj2 (Z.ltb_ge L (Z.of_nat (length (dg_data d1))))) by lia.
  rewrite (proj2 (Z.ltb_lt L (Z.of_nat (length (dg_data d2))))) by lia.
  rewrite Hname, Z.eqb_refl, (proj2 (Z.eqb_neq (dg_pid d1) 0)) by done. cbn [negb].
  rewrite u64_id by solve_int. rewrite (Z.min_r (Z.of_nat (length (dg_data d2)))) by lia.
  by rewrite (proj2 (Z.eqb_neq L 0)) by lia.
Qed.

(** A message of another process makes the tools lose a long reply: after
    [genl_recv_timeout] has ignored a datagram that does not come from the
    kernel, it reads on without [MSG_PEEK]; a reply of the kernel that is
    longer than the buffer is then cut off, removed from the socket and never
    returned, and the call times out. *)
Theorem foreign_message_loses_reply d1 d2 fuel L :
  dg_namelen d1 = sizeof_sockaddr_nl -> dg_pid d1 <> 0 -> from_kernel d2 ->
  0 < Z.of_nat (length (dg_data d1)) <= L -> L < Z.of_nat (length (dg_data d2)) ->
  exists iov, genl_recv_timeout (4 + fuel) (mk_iovec L []) [Datagram d1; Datagram d2] =
    Some (- E_RCV_TIMEDOUT, iov, []).
Proof.
  intros Hname Hpid (_ & _ & Hd2) H1 H2. unfold genl_recv_timeout, truth. cbn [iov_len].
  rewrite (proj2 (Z.eqb_neq L 0)) by lia. cbn [negb].
  change (4 + fuel)%nat with (S (S (S (S fuel)))). rewrite recv_foreign_then_large by (done || lia).
  by eexists.
Qed.

(** ** Examples *)

(** A family like the one of DRBD: a header of eight bytes. *)
Definition example_family : genl_family :=
  mk_genl_family 27 8 [100; 114; 98; 100] 1 128 no_groups 0 (replicate 128 false).

Definition example_sock : genl_sock := mk_genl_sock 1234 100 0.

Definition example_request : res Z * msg_buff :=
  request example_family 0 5 example_attrs (msg_new DEFAULT_MSG_SIZE).

Definition example_send := genl_send example_sock [Wrote 10; WriteEINTR; Wrote 50] example_request.2.

Lemma example_request_ok : example_request.1 = Ok 0.
Proof. vm_compute. reflexivity. Qed.

Lemma example_send_sock : example_send.1.2 = mk_genl_sock 1234 101 100.
Proof. vm_compute. reflexivity. Qed.

Lemma request_roundtrip_witness :
  exists sent, Z.of_nat (length sent) = 60 /\
    request_received (mk_genl_sock 1234 101 100) example_family 0 5 example_attrs 3 sent.
Proof.
  assert (exists sent, example_send.1.1 = Some (0, sent) /\ Z.of_nat (length sent) = 60) as (sent & Hsent & Hlen).
  { eexists. split; [vm_compute; reflexivity | reflexivity]. }
  exists sent. split; [exact Hlen|].
  apply (request_roundtrip example_family 0 5 example_attrs DEFAULT_MSG_SIZE 3 example_sock
    [Wrote 10; WriteEINTR; Wrote 50] 0 sent (mk_genl_sock 1234 101 100) example_request.2 example_send.2).
  - done.
  - done.
  - apply example_attrs_wf.
  - vm_compute. lia.
  - vm_compute. split; [discriminate | reflexivity].
  - by split.
  - by split.
  - repeat constructor; lia.
  - change (example_request = (Ok 0, example_request.2)). rewrite <- example_request_ok.
    apply surjective_pairing.
  - change (example_send = (Some (0, sent), mk_genl_sock 1234 101 100, example_send.2)).
    rewrite <- Hsent, <- example_send_sock. destruct example_send as [[? ?] ?]. reflexivity.
Defined.

Lemma reply_received_witness :
  exists r e L,
    genl_recv_msgs (fun _ => "?"%string) 20 example_sock (mk_iovec 4 [])
      (replicate 1 (RecvErr EINTR) ++ [Datagram (mk_datagram 0 12 (replicate 16 1)); Quiet]) =
      Some (r, e, mk_iovec L (replicate 16 1), [Quiet]) /\ 16 <= L /\ r < 0.
Proof.
  destruct (reply_received (fun _ => "?"%string) example_sock 1 20 (mk_iovec 4 [])
              (mk_datagram 0 12 (replicate 16 1)) [Quiet]) as (r & e & L & Hrun & HL & _ & Hr).
  - split_and!; done.
  - done.
  - cbn. lia.
  - exists r, e, L. split; [exact Hrun|]. split; [exact HL|]. apply Hr. by intros [Hok _].
Defined.

Lemma foreign_message_loses_reply_witness :
  exists iov, genl_recv_timeout 4 (mk_iovec 8 [])
    [Datagram (mk_datagram 77 12 [1; 2]); Datagram (mk_datagram 0 12 (replicate 20 0))] =
    Some (- E_RCV_TIMEDOUT, iov, []).
Proof.
  apply (foreign_message_loses_reply (mk_datagram 77 12 [1; 2]) (mk_datagram 0 12 (replicate 20 0)) 0 8);
    try done.
Defined.
