(* ===== verification/Exchange.v ===== *)
(** * Configuration requests of drbdsetup

    The loop of [_generic_config_cmd] (user/v9/drbdsetup.c) that sends a
    request, receives the reply and starts over, after a pause, while the
    kernel answers with a transient state.

    [ret_code], the return code in the header of a reply, and the value of
    [SS_IN_TRANSIENT_STATE] come from the drbd-headers submodule and are
    parameters; [strerror] is the C library's. *)

From S2P Require Import Prelude Machine Nla NlaPut Genl.
From Stdlib Require Import String.
From stdpp Require Import strings.

#[local] Open Scope string_scope.
#[local] Open Scope list_scope.
#[local] Open Scope Z_scope.

(** ** The pause between two attempts *)

Record timespec := mk_timespec { tv_sec : Z; tv_nsec : Z }.

Definition retry_timeout : timespec := mk_timespec 0 62500000.

(** "Double the timeout, up to 10 seconds." *)
Definition double_timeout (t : timespec) : timespec :=
  if tv_sec t <? 10 then
    let sec := tv_sec t * 2 in
    let nsec := tv_nsec t * 2 in
    if 1000000000 <? nsec then mk_timespec (sec + 1) (nsec - 1000000000) else mk_timespec sec nsec
  else t.

(** [nanosleep] refuses any other argument with [EINVAL], at once. *)
Definition nanosleep_sleeps (t : timespec) : bool :=
  (0 <=? tv_sec t) && (0 <=? tv_nsec t) && (tv_nsec t <=? 999999999).

(** ** The loop *)

(** How the exchange ends: with a code of the kernel, or with [OTHER_ERROR] and
    a description. *)
Inductive answer := Code (rv : Z) | OtherError (desc : string).

(** What the socket does in one round: the results of the writes, and what has
    arrived when the reply is waited for. *)
Record round := mk_round { rd_writes : list write_result; rd_arrivals : list recv_item }.

(** What an attempt did: the bytes that were sent, and the argument of
    [nanosleep] when another attempt followed. *)
Record attempt := mk_attempt { at_sent : list Z; at_pause : option timespec }.

Section Exchange.
Context (strerror : Z -> string) (ret_code : mem -> Z) (SS_IN_TRANSIENT_STATE : Z).

(** After the inner loop: [do { ... } while (false)] is left by [continue], too.
    [dh] points to the buffer as it was allocated: when the buffer has been
    enlarged, it is dangling.  [errno] is 0 if the error of the reply has no
    description. *)
Definition received_code (received : Z) (desc : option string) (iov : iovec) : res answer :=
  if (received <=? 0) && negb ((received =? - E_RCV_ERROR_REPLY) && bool_decide (desc = None)) then
    Ok (OtherError (default "error receiving config reply" desc))
  else if negb (iov_len iov =? DEFAULT_MSG_SIZE) then Fault
  else Ok (Code (ret_code (mem_of_list (iov_base iov)))).

(** [q] is what is left in the socket, [t] the next pause.  The result is the
    answer, the attempts and what is left in the socket; [None]: the socket has
    not answered. *)
Fixpoint exchange (fuel : nat) (s : genl_sock) (smsg : msg_buff) (iov : iovec) (q : list recv_item)
    (t : timespec) (rounds : list round) : option (res answer * list attempt * list recv_item) :=
  match rounds with
  | [] => None
  | r :: rounds' =>
      let '(sent, s, smsg) := genl_send s (rd_writes r) smsg in
      match sent with
      | None => None
      | Some (err, sent) =>
          if truth err then Some (Ok (OtherError "error sending config command"), [mk_attempt sent None], q)
          else
            match genl_recv_msgs strerror fuel s iov (q ++ rd_arrivals r) with
            | None => None
            | Some (received, desc, iov, q) =>
                let rv := received_code received desc iov in
                if match rv with Ok (Code rv) => rv =? SS_IN_TRANSIENT_STATE | _ => false end then
                  match exchange fuel s smsg iov q (double_timeout t) rounds' with
                  | Some (a, l, q) => Some (a, mk_attempt sent (Some t) :: l, q)
                  | None => None
                  end
                else Some (rv, [mk_attempt sent None], q)
            end
      end
  end.

(** The exchange of a command. *)
Definition config_exchange (fuel : nat) (s : genl_sock) (smsg : msg_buff) (rounds : list round) :=
  exchange fuel s smsg (mk_iovec DEFAULT_MSG_SIZE []) [] retry_timeout rounds.

(** ** Transient states *)

(** A datagram of the kernel that answers the request [seq]. *)
Definition reply_to (seq : Z) (d : datagram) : Prop :=
  let m := mem_of_list (dg_data d) in
  let c := Z.of_nat (length (dg_data d)) in
  from_kernel d /\ c <= DEFAULT_MSG_SIZE /\ nlmsg_ok m 0 c = true /\ nlh_seq m 0 = seq /\
  ~ special_type (nlh_type m 0).

(** The sequence numbers of [n] requests, and the pauses after them. *)
Fixpoint seqs (seq : Z) (n : nat) : list Z :=
  match n with O => [] | S n' => seq :: seqs (u32 (seq + 1)) n' end.

Fixpoint pauses (t : timespec) (n : nat) : list timespec :=
  match n with O => [] | S n' => t :: pauses (double_timeout t) n' end.

Definition code_of (d : datagram) : Z := ret_code (mem_of_list (dg_data d)).

(** The socket takes the whole message at once and delivers the reply. *)
Definition answered (tail : Z) (d : datagram) : round := mk_round [Wrote tail] [Datagram d].

Lemma recv_fits d fuel L base :
  from_kernel d -> Z.of_nat (length (dg_data d)) <= L ->
  recv_loop (S (S fuel)) true (mk_iovec L base) [Datagram d] =
    Some (Z.of_nat (length (dg_data d)), mk_iovec L (dg_data d), []).
Proof using.
  intros (Hpid & Hname & Hsize) HL. cbn [recv_loop iov_len iov_base].
  rewrite Z.min_l, !(proj2 (Z.eqb_neq (Z.of_nat _) 0)), !(proj2 (Z.ltb_ge L _)) by lia.
  by rewrite Hname, Hpid, Nat2Z.id, take_ge.
Qed.

Lemma reply_received_code seq s d fuel base :
  reply_to seq d -> s_seq_expect s = seq ->
  exists received, genl_recv_msgs strerror (S (S fuel)) s (mk_iovec DEFAULT_MSG_SIZE base) [Datagram d] =
    Some (received, None, mk_iovec DEFAULT_MSG_SIZE (dg_data d), []) /\ 0 < received.
Proof using.
  intros (Hd & Hc & Hok & Hseq & Ht) Hs. exists (Z.of_nat (length (dg_data d))).
  pose proof Hd as (_ & _ & Hsize). split; [|lia].
  unfold genl_recv_msgs, genl_recv_timeout. cbn [iov_len].
  change (truth DEFAULT_MSG_SIZE) with true. cbn iota. rewrite recv_fits by done.
  rewrite (proj2 (Z.leb_gt _ 0)) by lia. cbn [iov_base].
  destruct (check_reply_spec strerror s (mem_of_list (dg_data d)) (Z.of_nat (length (dg_data d)))) as [-> _]; [lia|done|].
  split_and!; [done|congruence|done].
Qed.

(** A request is sent. *)
Lemma request_sent s smsg :
  in_u32 (s_seq_next s) -> 16 <= mb_tail smsg < 2 ^ 31 ->
  exists s' smsg' sent, genl_send s [Wrote (mb_tail smsg)] smsg = (Some (0, sent), s', smsg') /\
    s_seq_expect s' = s_seq_next s /\ s_seq_next s' = u32 (s_seq_next s + 1) /\
    mb_tail smsg' = mb_tail smsg /\ nlh_seq (mem_of_list sent) 0 = s_seq_next s.
Proof using.
  intros Hseq Ht. rewrite genl_send_run.
  destruct (finish_mem_fields (mb_data smsg) (mb_tail smsg) (s_seq_next s) (s_local_pid s)) as (F1 & _ & _ & F4 & _).
  set (m := finish_mem _ _ _ _) in *. rewrite Z.mod_small in F1 by lia. rewrite F1, s32_id by solve_int.
  cbn [do_send]. rewrite length_bytes_of, Z2Nat.id, (proj2 (Z.ltb_ge _ _)) by lia.
  do 3 eexists. split; [done|]. split_and!; [done..|].
  rewrite <- (u32_id (s_seq_next s)), <- F4 by done. unfold nlh_seq.
  eapply agree_load; [apply agree_mem_of_bytes|lia|lia].
Qed.

(** Attempts [l] with these sequence numbers and pauses. *)
Definition attempts_are (l : list attempt) (sq : list Z) (ps : list (option timespec)) : Prop :=
  Forall2 (fun a seq => nlh_seq (mem_of_list (at_sent a)) 0 = seq) l sq /\ (at_pause <$> l) = ps.

Lemma exchange_transient fuel ds d s smsg base t :
  in_u32 (s_seq_next s) -> 16 <= mb_tail smsg < 2 ^ 31 ->
  Forall2 reply_to (seqs (s_seq_next s) (S (length ds))) (ds ++ [d]) ->
  Forall (fun d => code_of d = SS_IN_TRANSIENT_STATE) ds -> code_of d <> SS_IN_TRANSIENT_STATE ->
  exists l, exchange (S (S fuel)) s smsg (mk_iovec DEFAULT_MSG_SIZE base) [] t
      (answered (mb_tail smsg) <$> ds ++ [d]) = Some (Ok (Code (code_of d)), l, []) /\
    attempts_are l (seqs (s_seq_next s) (S (length ds))) ((Some <$> pauses t (length ds)) ++ [None]).
Proof using.
  revert s smsg base t. induction ds as [|d' ds IH]; intros s smsg base t Hs Ht Hr Htr Hd;
    apply Forall2_cons in Hr as [Hr Hrs];
    destruct (request_sent s smsg Hs Ht) as (s' & smsg' & sent & Hsend & He & Hn & Ht' & Hsq);
    cbn [exchange fmap list_fmap app answered rd_writes rd_arrivals]; rewrite Hsend;
    change (truth 0) with false; cbn iota;
    [destruct (reply_received_code _ s' d fuel base Hr He) as (c & -> & Hc)
    |destruct (reply_received_code _ s' d' fuel base Hr He) as (c & -> & Hc)];
    unfold received_code; rewrite (proj2 (Z.leb_gt _ 0)) by lia; cbn [andb iov_len iov_base];
    rewrite Z.eqb_refl; cbn [negb]; cbn iota.
  - fold (code_of d). rewrite (proj2 (Z.eqb_neq _ _)) by done. eexists. split; [done|].
    split; [by repeat constructor|done].
  - apply Forall_cons in Htr as [Hd' Htr]. fold (code_of d'). rewrite Hd', Z.eqb_refl.
    destruct (IH s' smsg' (dg_data d') (double_timeout t)) as (l & Hrun & Hsqs & Hps);
      [rewrite Hn; apply Z.mod_pos_bound; lia|lia|by rewrite Hn|done|done|].
    rewrite Ht' in Hrun. rewrite Hrun. eexists. split; [done|]. rewrite Hn in Hsqs. split.
    + by apply Forall2_cons.
    + cbn. by rewrite Hps.
Qed.

(** C29: A request that finds the kernel in a transient state is repeated: when
    the kernel answers it any number of times with a transient state and then
    with another code, the exchange ends with this code after as many requests,
    each with the next sequence number and each answered by the reply to this
    very request, with a pause of doubled length after each but the last. *)
Theorem transient_states_are_retried fuel ds d s smsg :
  in_u32 (s_seq_next s) -> 16 <= mb_tail smsg < 2 ^ 31 ->
  Forall2 reply_to (seqs (s_seq_next s) (S (length ds))) (ds ++ [d]) ->
  Forall (fun d => code_of d = SS_IN_TRANSIENT_STATE) ds -> code_of d <> SS_IN_TRANSIENT_STATE ->
  exists l, config_exchange (S (S fuel)) s smsg (answered (mb_tail smsg) <$> ds ++ [d]) =
      Some (Ok (Code (code_of d)), l, []) /\
    attempts_are l (seqs (s_seq_next s) (S (length ds))) ((Some <$> pauses retry_timeout (length ds)) ++ [None]).
Proof using. apply exchange_transient. Qed.

(** A positive acknowledgement is taken for the reply: the return code is read
    from it, and the reply stays in the socket. *)
Lemma ack_taken_for_reply fuel s smsg ack d base t rounds received s' smsg' sent iov :
  genl_send s [Wrote (mb_tail smsg)] smsg = (Some (0, sent), s', smsg') ->
  genl_recv_msgs strerror fuel s' (mk_iovec DEFAULT_MSG_SIZE base) [Datagram ack; Datagram d] =
    Some (received, None, iov, [Datagram d]) ->
  received = - E_RCV_ERROR_REPLY -> iov_len iov = DEFAULT_MSG_SIZE ->
  ret_code (mem_of_list (iov_base iov)) <> SS_IN_TRANSIENT_STATE ->
  exchange fuel s smsg (mk_iovec DEFAULT_MSG_SIZE base) [] t
    (mk_round [Wrote (mb_tail smsg)] [Datagram ack; Datagram d] :: rounds) =
  Some (Ok (Code (ret_code (mem_of_list (iov_base iov)))), [mk_attempt sent None], [Datagram d]).
Proof using.
  intros Hsend Hrecv -> Hlen Hcode. cbn [exchange rd_writes rd_arrivals app]. rewrite Hsend.
  change (truth 0) with false. cbn iota. rewrite Hrecv. unfold received_code.
  change ((- E_RCV_ERROR_REPLY <=? 0) && _) with false. cbn iota. rewrite Hlen.
  cbn [negb Z.eqb Pos.eqb DEFAULT_MSG_SIZE]. cbn iota. by rewrite (proj2 (Z.eqb_neq _ _)).
Qed.
End Exchange.

(** ** The pauses *)

Lemma pauses_lookup t n k :
  (k < n)%nat -> pauses t n !! k = Some (Nat.iter k double_timeout t).
Proof.
  revert t k. induction n as [|n IH]; intros t [|k] Hk; [lia..|done|]. cbn [pauses lookup list_lookup].
  rewrite IH by lia. f_equal. by rewrite Nat.iter_succ_r.
Qed.

(** The pauses never change again after the eighth. *)
Lemma pauses_fixed n : Nat.iter (8 + n) double_timeout retry_timeout = mk_timespec 15 1000000000.
Proof. induction n as [|n IH]; [done|]. rewrite Nat.add_succ_r. change (Nat.iter (S ?k) ?f ?x) with (f (Nat.iter k f x)). by rewrite IH. Qed.

(** The pauses between the attempts: the first four last a sixteenth, an
    eighth, a quarter and half a second; from the fifth on the argument of
    [nanosleep] has a billion nanoseconds, which [nanosleep] refuses: the
    request is then repeated without any pause, for as long as the transient
    state lasts. *)
Theorem retry_pauses n k :
  (k < n)%nat ->
  exists t, pauses retry_timeout n !! k = Some t /\
    nanosleep_sleeps t = (k <? 4)%nat /\
    ((k < 4)%nat -> tv_sec t = 0 /\ tv_nsec t = 62500000 * 2 ^ Z.of_nat k) /\
    ((4 <= k)%nat -> tv_nsec t = 1000000000).
Proof.
  intros Hk. rewrite pauses_lookup by done. eexists. split; [done|].
  destruct (decide (k < 8)%nat) as [Hlt|Hge].
  - do 8 (destruct k as [|k]; [vm_compute; by split_and!; try (intros; exfalso; lia)|]). lia.
  - assert (exists j, k = (8 + j)%nat) as [j ->] by (exists (k - 8)%nat; lia). rewrite pauses_fixed.
    split_and!; [|lia|done]. symmetry. apply Nat.ltb_ge. lia.
Qed.

Lemma retry_pauses_witness :
  exists t, pauses retry_timeout 10 !! 7%nat = Some t /\
    nanosleep_sleeps t = (7 <? 4)%nat /\
    ((7 < 4)%nat -> tv_sec t = 0 /\ tv_nsec t = 62500000 * 2 ^ Z.of_nat 7) /\
    ((4 <= 7)%nat -> tv_nsec t = 1000000000).
Proof. apply (retry_pauses 10 7). lia. Defined.

(** A reply to the request 100 or so, with a code. *)
Definition example_reply (seq code : Z) : datagram :=
  mk_datagram 0 sizeof_sockaddr_nl
    (le_split 4 24 ++ le_split 2 27 ++ le_split 2 0 ++ le_split 4 seq ++ le_split 4 0 ++
     le_split 4 0 ++ le_split 4 code).

Lemma transient_states_are_retried_witness :
  exists l, config_exchange (fun _ => "error") (fun m => load_le 4 m 20) 7 2 example_sock
      (mk_msg_buff 28 8192 zero_mem)
      (answered 28 <$> [example_reply 100 7; example_reply 101 7] ++ [example_reply 102 1]) =
    Some (Ok (Code 1), l, []) /\
    attempts_are l [100; 101; 102] [Some retry_timeout; Some (mk_timespec 0 125000000); None].
Proof.
  apply (transient_states_are_retried (fun _ => "error") (fun m => load_le 4 m 20) 7 0
    [example_reply 100 7; example_reply 101 7] (example_reply 102 1) example_sock (mk_msg_buff 28 8192 zero_mem)).
  - done.
  - done.
  - repeat (apply Forall2_cons; split);
      [split_and!; [done| |done|done|intros [? | [? | [? | ?]]]; done]..|constructor]; vm_compute; done.
  - by repeat constructor.
  - vm_compute. done.
Defined.
