(* ===== verification/Hweight.v ===== *)
(** * Hamming weight (drbd_endian.h)

    [generic_hweight32] and [generic_hweight64] count bits with masked
    parallel additions; they are proved equal to the sum of the bits. *)

From S2P Require Import Prelude Machine.

Definition generic_hweight32 (w : Z) : Z :=
  let res := u32 (Z.land w 0x55555555 + Z.land (Z.shiftr w 1) 0x55555555) in
  let res := u32 (Z.land res 0x33333333 + Z.land (Z.shiftr res 2) 0x33333333) in
  let res := u32 (Z.land res 0x0F0F0F0F + Z.land (Z.shiftr res 4) 0x0F0F0F0F) in
  let res := u32 (Z.land res 0x00FF00FF + Z.land (Z.shiftr res 8) 0x00FF00FF) in
  u32 (Z.land res 0x0000FFFF + Z.land (Z.shiftr res 16) 0x0000FFFF).

Definition generic_hweight64 (w : Z) : Z :=
  let res := u64 (Z.land w 0x5555555555555555 + Z.land (Z.shiftr w 1) 0x5555555555555555) in
  let res := u64 (Z.land res 0x3333333333333333 + Z.land (Z.shiftr res 2) 0x3333333333333333) in
  let res := u64 (Z.land res 0x0F0F0F0F0F0F0F0F + Z.land (Z.shiftr res 4) 0x0F0F0F0F0F0F0F0F) in
  let res := u64 (Z.land res 0x00FF00FF00FF00FF + Z.land (Z.shiftr res 8) 0x00FF00FF00FF00FF) in
  let res := u64 (Z.land res 0x0000FFFF0000FFFF + Z.land (Z.shiftr res 16) 0x0000FFFF0000FFFF) in
  u64 (Z.land res 0x00000000FFFFFFFF + Z.land (Z.shiftr res 32) 0x00000000FFFFFFFF).

(** The reference: the number of set bits among the lowest [n]. *)
Fixpoint popcount (n : nat) (w : Z) : Z :=
  match n with
  | O => 0
  | S n' => w mod 2 + popcount n' (w / 2)
  end.

(** ** Digits

    [val s l] is the number with the digits [l] in base [2^s], least
    significant first; [mask s n] selects the even digits of [2 * n] of them. *)
Definition val (s : Z) (l : list Z) : Z := foldr (fun d acc => d + 2 ^ s * acc) 0 l.

Definition mask (s : Z) (n : nat) : Z := val (2 * s) (replicate n (2 ^ s - 1)).

Definition digits (s : Z) (l : list Z) : Prop := Forall (fun d => 0 <= d < 2 ^ s) l.

Fixpoint pair_sum (n : nat) (l : list Z) : list Z :=
  match n, l with
  | S n', d0 :: d1 :: l' => d0 + d1 :: pair_sum n' l'
  | _, _ => []
  end.

Definition sum (l : list Z) : Z := foldr Z.add 0 l.

Lemma cat_bit t a b i :
  0 <= t -> 0 <= a < 2 ^ t -> 0 <= i ->
  Z.testbit (a + 2 ^ t * b) i = if i <? t then Z.testbit a i else Z.testbit b (i - t).
Proof.
  intros Ht Ha Hi. replace (a + 2 ^ t * b) with (Z.lor (b * 2 ^ t) a).
  2: { rewrite (lor_add _ _ t); [lia | lia | apply Z.divide_factor_r | lia]. }
  rewrite Z.lor_spec. destruct (Z.ltb_spec i t).
  - by rewrite Z.mul_pow2_bits_low.
  - rewrite Z.mul_pow2_bits by lia.
    rewrite <- (Z.mod_small a (2 ^ t)), Z.mod_pow2_bits_high by lia.
    apply orb_false_r.
Qed.

Lemma land_cat t a b m n :
  0 <= t -> 0 <= a < 2 ^ t -> 0 <= m < 2 ^ t ->
  Z.land (a + 2 ^ t * b) (m + 2 ^ t * n) = Z.land a m + 2 ^ t * Z.land b n.
Proof.
  intros Ht Ha Hm. pose proof (land_le_r a m).
  apply Z.bits_inj'. intros i Hi.
  rewrite Z.land_spec, !cat_bit, !Z.land_spec by lia.
  by destruct (i <? t).
Qed.

(** One masked addition adds the digits in pairs. *)
Lemma step_val s n l :
  0 < s -> length l = (2 * n)%nat -> digits s l ->
  Z.land (val s l) (mask s n) + Z.land (Z.shiftr (val s l) s) (mask s n) =
  val (2 * s) (pair_sum n l).
Proof.
  intros Hs. assert (Hp : 0 < 2 ^ s) by (apply Z.pow_pos_nonneg; lia).
  assert (Hp2 : 2 ^ (2 * s) = 2 ^ s * 2 ^ s) by (rewrite <- Z.pow_add_r by lia; f_equal; lia).
  assert (Hone : forall d b m, 0 <= d < 2 ^ s ->
    Z.land (d + 2 ^ s * b) (2 ^ s - 1 + 2 ^ (2 * s) * m) =
    d + 2 ^ (2 * s) * Z.land (Z.shiftr b s) m).
  { intros d b m Hd. rewrite Z.shiftr_div_pow2 by lia.
    pose proof (Z.mod_pos_bound b (2 ^ s)).
    replace (d + 2 ^ s * b) with (d + 2 ^ s * (b mod 2 ^ s) + 2 ^ (2 * s) * (b / 2 ^ s))
      by (rewrite Hp2; pose proof (Z.div_mod b (2 ^ s)); nia).
    rewrite land_cat by nia. f_equal.
    replace (2 ^ s - 1) with (Z.ones s) by (rewrite Z.ones_equiv; lia).
    rewrite Z.land_ones by lia. rewrite (Z.mul_comm (2 ^ s)), Z.mod_add by lia.
    by apply Z.mod_small. }
  revert l. induction n as [|n IH]; intros l Hlen Hd.
  { destruct l; [|discriminate]. cbn. by rewrite !Z.land_0_r. }
  destruct l as [|d0 [|d1 l]]; [discriminate | cbn in Hlen; lia |].
  inversion_clear Hd as [|? ? Hd0 Hd']. inversion_clear Hd' as [|? ? Hd1 Hd''].
  change (mask s (S n)) with (2 ^ s - 1 + 2 ^ (2 * s) * mask s n).
  change (val s (d0 :: d1 :: l)) with (d0 + 2 ^ s * (d1 + 2 ^ s * val s l)).
  change (val (2 * s) (pair_sum (S n) (d0 :: d1 :: l)))
    with (d0 + d1 + 2 ^ (2 * s) * val (2 * s) (pair_sum n l)).
  rewrite <- IH by (done || cbn in Hlen; lia).
  assert (Z.shiftr (d0 + 2 ^ s * (d1 + 2 ^ s * val s l)) s = d1 + 2 ^ s * val s l) as ->.
  { rewrite Z.shiftr_div_pow2, Z.mul_comm, Z.div_add, Z.div_small by lia. lia. }
  rewrite !Hone by done.
  assert (Z.shiftr (d1 + 2 ^ s * val s l) s = val s l) as ->.
  { rewrite Z.shiftr_div_pow2, Z.mul_comm, Z.div_add, Z.div_small by lia. lia. }
  lia.
Qed.

Lemma length_pair_sum n l : length l = (2 * n)%nat -> length (pair_sum n l) = n.
Proof.
  revert l. induction n as [|n IH]; intros l Hl; [done|].
  destruct l as [|d0 [|d1 l]]; cbn in *; try lia. rewrite IH; lia.
Qed.

Lemma digits_pair_sum s n l : 0 < s -> digits s l -> digits (2 * s) (pair_sum n l).
Proof.
  intros Hs. assert (2 * 2 ^ s <= 2 ^ (2 * s)).
  { change 2 with (2 ^ 1) at 1. rewrite <- Z.pow_add_r by lia. apply Z.pow_le_mono_r; lia. }
  revert l. induction n as [|n IH]; intros l Hl; [constructor|].
  destruct l as [|d0 [|d1 l]]; [constructor..|].
  inversion_clear Hl as [|? ? Hd0 Hl']. inversion_clear Hl'. constructor; [lia|]. by apply IH.
Qed.

Lemma sum_pair_sum n l : length l = (2 * n)%nat -> sum (pair_sum n l) = sum l.
Proof.
  unfold sum. revert l. induction n as [|n IH]; intros l Hl.
  { by destruct l. }
  destruct l as [|d0 [|d1 l]]; cbn in *; try lia. rewrite IH by lia. lia.
Qed.

(** ** The routines count bits *)

Fixpoint bits (n : nat) (w : Z) : list Z :=
  match n with
  | O => []
  | S n' => w mod 2 :: bits n' (w / 2)
  end.

Lemma bits_digits n w : digits 1 (bits n w).
Proof.
  revert w. induction n as [|n IH]; intros w; constructor; [|apply IH].
  apply Z.mod_pos_bound. lia.
Qed.

Lemma length_bits n w : length (bits n w) = n.
Proof. revert w. induction n; intros; cbn; auto. Qed.

Lemma sum_bits n w : sum (bits n w) = popcount n w.
Proof. revert w. induction n as [|n IH]; intros w; [done|]. cbn. by rewrite <- IH. Qed.

Lemma val_bits n w : val 1 (bits n w) = w mod 2 ^ Z.of_nat n.
Proof.
  revert w. induction n as [|n IH]; intros w; [symmetry; apply Z.mod_1_r|].
  cbn [bits val foldr]. fold (val 1 (bits n (w / 2))).
  rewrite IH, Nat2Z.inj_succ, Z.pow_succ_r by lia.
  rewrite (Z.rem_mul_r w 2) by lia. done.
Qed.

(** One line of the routines: the wrap to the word size is the identity. *)
Lemma step_word s n l W :
  0 < s -> length l = (2 * n)%nat -> digits s l -> 2 * mask s n < W ->
  (Z.land (val s l) (mask s n) + Z.land (Z.shiftr (val s l) s) (mask s n)) mod W =
  val (2 * s) (pair_sum n l).
Proof.
  intros Hs Hl Hd HW. rewrite <- step_val by done. apply Z.mod_small.
  assert (Hval : forall t k, digits t k -> 0 < t -> 0 <= val t k).
  { intros t k Hk Ht. induction Hk as [|d k Hdk _ IH]; [done|].
    cbn. fold (val t k). assert (0 < 2 ^ t) by (apply Z.pow_pos_nonneg; lia). nia. }
  assert (0 <= mask s n).
  { apply Hval; [|lia]. apply Forall_replicate.
    assert (0 < 2 ^ s) by (apply Z.pow_pos_nonneg; lia).
    assert (2 ^ s < 2 ^ (2 * s)) by (apply Z.pow_lt_mono_r; lia). lia. }
  pose proof (land_le_r (val s l) (mask s n) ltac:(auto) ltac:(auto)).
  pose proof (land_le_r (Z.shiftr (val s l) s) (mask s n)
    ltac:(apply Z.shiftr_nonneg; auto) ltac:(auto)). lia.
Qed.

Lemma val_single s l : length l = 1%nat -> val s l = sum l.
Proof. destruct l as [|d [|]]; try done. intros _. cbn. lia. Qed.

Ltac len_side :=
  first [ done | rewrite length_pair_sum; [done | len_side] ].

Ltac digits_side :=
  first
    [ assumption
    | match goal with |- digits ?s (pair_sum ?n ?l) =>
        let h := eval vm_compute in (s / 2) in
        refine (digits_pair_sum h n l _ _); [lia | digits_side]
      end ].

Ltac list_side := first [ lia | done | len_side | digits_side ].

(** The addition with digit width [s] of a word of [2 * n] such digits. *)
Ltac hweight_step s n :=
  match goal with |- context [(Z.land (val s ?l) _ + _) mod ?W] =>
    rewrite (step_word s n l W) by list_side
  end;
  let t := eval vm_compute in (2 * s) in change (2 * s) with t.

Lemma generic_hweight32_digits l :
  length l = 32%nat -> digits 1 l -> generic_hweight32 (val 1 l) = sum l.
Proof.
  intros Hl Hd. unfold generic_hweight32, u32. cbv zeta.
  change 0x55555555 with (mask 1 16). hweight_step 1 16%nat.
  change 0x33333333 with (mask 2 8). hweight_step 2 8%nat.
  change 0x0F0F0F0F with (mask 4 4). hweight_step 4 4%nat.
  change 0x00FF00FF with (mask 8 2). hweight_step 8 2%nat.
  change 0x0000FFFF with (mask 16 1). hweight_step 16 1%nat.
  by rewrite val_single, !sum_pair_sum by list_side.
Qed.

Lemma generic_hweight64_digits l :
  length l = 64%nat -> digits 1 l -> generic_hweight64 (val 1 l) = sum l.
Proof.
  intros Hl Hd. unfold generic_hweight64, u64. cbv zeta.
  change 0x5555555555555555 with (mask 1 32). hweight_step 1 32%nat.
  change 0x3333333333333333 with (mask 2 16). hweight_step 2 16%nat.
  change 0x0F0F0F0F0F0F0F0F with (mask 4 8). hweight_step 4 8%nat.
  change 0x00FF00FF00FF00FF with (mask 8 4). hweight_step 8 4%nat.
  change 0x0000FFFF0000FFFF with (mask 16 2). hweight_step 16 2%nat.
  change 0x00000000FFFFFFFF with (mask 32 1). hweight_step 32 1%nat.
  by rewrite val_single, !sum_pair_sum by list_side.
Qed.

Lemma generic_hweight32_popcount w : in_u32 w -> generic_hweight32 w = popcount 32 w.
Proof.
  intros Hw. rewrite <- sum_bits, <- generic_hweight32_digits
    by (apply length_bits || apply bits_digits).
  rewrite val_bits. symmetry. f_equal. by apply Z.mod_small.
Qed.

Lemma generic_hweight64_popcount w : in_u64 w -> generic_hweight64 w = popcount 64 w.
Proof.
  intros Hw. rewrite <- sum_bits, <- generic_hweight64_digits
    by (apply length_bits || apply bits_digits).
  rewrite val_bits. symmetry. f_equal. by apply Z.mod_small.
Qed.
