(* ===== verification/Crc.v ===== *)
(** * The checksum of activity log transactions (drbdtool_common.c)

    [crc32c] of user/v9/drbdtool_common.c is table driven.  It is proved equal
    to the bitwise division by the reflected CRC-32C polynomial 0x82F63B78,
    and to change whenever a single byte of the data, or the start value, is
    changed. *)

From S2P Require Import Prelude Machine.

Definition crc32c_table : list Z :=
  [0x00000000; 0xF26B8303; 0xE13B70F7; 0x1350F3F4;
   0xC79A971F; 0x35F1141C; 0x26A1E7E8; 0xD4CA64EB;
   0x8AD958CF; 0x78B2DBCC; 0x6BE22838; 0x9989AB3B;
   0x4D43CFD0; 0xBF284CD3; 0xAC78BF27; 0x5E133C24;
   0x105EC76F; 0xE235446C; 0xF165B798; 0x030E349B;
   0xD7C45070; 0x25AFD373; 0x36FF2087; 0xC494A384;
   0x9A879FA0; 0x68EC1CA3; 0x7BBCEF57; 0x89D76C54;
   0x5D1D08BF; 0xAF768BBC; 0xBC267848; 0x4E4DFB4B;
   0x20BD8EDE; 0xD2D60DDD; 0xC186FE29; 0x33ED7D2A;
   0xE72719C1; 0x154C9AC2; 0x061C6936; 0xF477EA35;
   0xAA64D611; 0x580F5512; 0x4B5FA6E6; 0xB93425E5;
   0x6DFE410E; 0x9F95C20D; 0x8CC531F9; 0x7EAEB2FA;
   0x30E349B1; 0xC288CAB2; 0xD1D83946; 0x23B3BA45;
   0xF779DEAE; 0x05125DAD; 0x1642AE59; 0xE4292D5A;
   0xBA3A117E; 0x4851927D; 0x5B016189; 0xA96AE28A;
   0x7DA08661; 0x8FCB0562; 0x9C9BF696; 0x6EF07595;
   0x417B1DBC; 0xB3109EBF; 0xA0406D4B; 0x522BEE48;
   0x86E18AA3; 0x748A09A0; 0x67DAFA54; 0x95B17957;
   0xCBA24573; 0x39C9C670; 0x2A993584; 0xD8F2B687;
   0x0C38D26C; 0xFE53516F; 0xED03A29B; 0x1F682198;
   0x5125DAD3; 0xA34E59D0; 0xB01EAA24; 0x42752927;
   0x96BF4DCC; 0x64D4CECF; 0x77843D3B; 0x85EFBE38;
   0xDBFC821C; 0x2997011F; 0x3AC7F2EB; 0xC8AC71E8;
   0x1C661503; 0xEE0D9600; 0xFD5D65F4; 0x0F36E6F7;
   0x61C69362; 0x93AD1061; 0x80FDE395; 0x72966096;
   0xA65C047D; 0x5437877E; 0x4767748A; 0xB50CF789;
   0xEB1FCBAD; 0x197448AE; 0x0A24BB5A; 0xF84F3859;
   0x2C855CB2; 0xDEEEDFB1; 0xCDBE2C45; 0x3FD5AF46;
   0x7198540D; 0x83F3D70E; 0x90A324FA; 0x62C8A7F9;
   0xB602C312; 0x44694011; 0x5739B3E5; 0xA55230E6;
   0xFB410CC2; 0x092A8FC1; 0x1A7A7C35; 0xE811FF36;
   0x3CDB9BDD; 0xCEB018DE; 0xDDE0EB2A; 0x2F8B6829;
   0x82F63B78; 0x709DB87B; 0x63CD4B8F; 0x91A6C88C;
   0x456CAC67; 0xB7072F64; 0xA457DC90; 0x563C5F93;
   0x082F63B7; 0xFA44E0B4; 0xE9141340; 0x1B7F9043;
   0xCFB5F4A8; 0x3DDE77AB; 0x2E8E845F; 0xDCE5075C;
   0x92A8FC17; 0x60C37F14; 0x73938CE0; 0x81F80FE3;
   0x55326B08; 0xA759E80B; 0xB4091BFF; 0x466298FC;
   0x1871A4D8; 0xEA1A27DB; 0xF94AD42F; 0x0B21572C;
   0xDFEB33C7; 0x2D80B0C4; 0x3ED04330; 0xCCBBC033;
   0xA24BB5A6; 0x502036A5; 0x4370C551; 0xB11B4652;
   0x65D122B9; 0x97BAA1BA; 0x84EA524E; 0x7681D14D;
   0x2892ED69; 0xDAF96E6A; 0xC9A99D9E; 0x3BC21E9D;
   0xEF087A76; 0x1D63F975; 0x0E330A81; 0xFC588982;
   0xB21572C9; 0x407EF1CA; 0x532E023E; 0xA145813D;
   0x758FE5D6; 0x87E466D5; 0x94B49521; 0x66DF1622;
   0x38CC2A06; 0xCAA7A905; 0xD9F75AF1; 0x2B9CD9F2;
   0xFF56BD19; 0x0D3D3E1A; 0x1E6DCDEE; 0xEC064EED;
   0xC38D26C4; 0x31E6A5C7; 0x22B65633; 0xD0DDD530;
   0x0417B1DB; 0xF67C32D8; 0xE52CC12C; 0x1747422F;
   0x49547E0B; 0xBB3FFD08; 0xA86F0EFC; 0x5A048DFF;
   0x8ECEE914; 0x7CA56A17; 0x6FF599E3; 0x9D9E1AE0;
   0xD3D3E1AB; 0x21B862A8; 0x32E8915C; 0xC083125F;
   0x144976B4; 0xE622F5B7; 0xF5720643; 0x07198540;
   0x590AB964; 0xAB613A67; 0xB831C993; 0x4A5A4A90;
   0x9E902E7B; 0x6CFBAD78; 0x7FAB5E8C; 0x8DC0DD8F;
   0xE330A81A; 0x115B2B19; 0x020BD8ED; 0xF0605BEE;
   0x24AA3F05; 0xD6C1BC06; 0xC5914FF2; 0x37FACCF1;
   0x69E9F0D5; 0x9B8273D6; 0x88D28022; 0x7AB90321;
   0xAE7367CA; 0x5C18E4C9; 0x4F48173D; 0xBD23943E;
   0xF36E6F75; 0x0105EC76; 0x12551F82; 0xE03E9C81;
   0x34F4F86A; 0xC69F7B69; 0xD5CF889D; 0x27A40B9E;
   0x79B737BA; 0x8BDCB4B9; 0x988C474D; 0x6AE7C44E;
   0xBE2DA0A5; 0x4C4623A6; 0x5F16D052; 0xAD7D5351].

(** One round of the loop: the table is indexed by the low byte. *)
Definition crc32c_round (crc b : Z) : Z :=
  Z.lxor (nth (Z.to_nat (Z.land (Z.lxor crc b) 0xFF)) crc32c_table 0) (Z.shiftr crc 8).

Fixpoint crc32c (crc : Z) (data : list Z) : Z :=
  match data with
  | [] => crc
  | b :: data' => crc32c (crc32c_round crc b) data'
  end.

(** The buffer read as the [length] bytes from offset [a] on. *)
Fixpoint buffer (m : mem) (a : Z) (length : nat) : list Z :=
  match length with
  | O => []
  | S n => m a :: buffer m (a + 1) n
  end.

(** ** The reference: division bit by bit *)

Definition poly : Z := 0x82F63B78.

Definition bit_step (r : Z) : Z :=
  if Z.odd r then Z.lxor (Z.shiftr r 1) poly else Z.shiftr r 1.

Fixpoint bit_steps (n : nat) (r : Z) : Z :=
  match n with
  | O => r
  | S n' => bit_steps n' (bit_step r)
  end.

Definition crc32c_bitwise (crc : Z) (data : list Z) : Z :=
  fold_left (fun r b => bit_steps 8 (Z.lxor r b)) data crc.

Lemma lxor_swap a b c d : Z.lxor (Z.lxor a b) (Z.lxor c d) = Z.lxor (Z.lxor a c) (Z.lxor b d).
Proof.
  rewrite !Z.lxor_assoc. f_equal. rewrite <- !Z.lxor_assoc. by rewrite (Z.lxor_comm b c).
Qed.

Lemma odd_lxor x y : Z.odd (Z.lxor x y) = xorb (Z.odd x) (Z.odd y).
Proof. rewrite <- !Z.bit0_odd. apply Z.lxor_spec. Qed.

Lemma bit_step_lxor x y : bit_step (Z.lxor x y) = Z.lxor (bit_step x) (bit_step y).
Proof.
  unfold bit_step. rewrite odd_lxor, Z.shiftr_lxor.
  destruct (Z.odd x), (Z.odd y); cbn [xorb]; try done.
  - by rewrite lxor_swap, Z.lxor_nilpotent, Z.lxor_0_r.
  - rewrite !Z.lxor_assoc. f_equal. apply Z.lxor_comm.
  - by rewrite Z.lxor_assoc.
Qed.

Lemma bit_steps_lxor n x y : bit_steps n (Z.lxor x y) = Z.lxor (bit_steps n x) (bit_steps n y).
Proof. revert x y. induction n as [|n IH]; intros x y; [done|]. cbn. by rewrite bit_step_lxor, IH. Qed.

Lemma bit_steps_add n m r : bit_steps (n + m) r = bit_steps m (bit_steps n r).
Proof. revert r. induction n as [|n IH]; intros r; [done|]. cbn. apply IH. Qed.

(** As long as only zero bits are shifted out, a step is a shift. *)
Lemma bit_steps_shiftl n w : bit_steps n (Z.shiftl w (Z.of_nat n)) = w.
Proof.
  revert w. induction n as [|n IH]; intros w; [apply Z.shiftl_0_r|].
  cbn [bit_steps]. unfold bit_step.
  assert (Z.odd (Z.shiftl w (Z.of_nat (S n))) = false) as ->.
  { rewrite <- Z.bit0_odd, Z.shiftl_spec by lia. apply Z.testbit_neg_r. lia. }
  rewrite Z.shiftr_shiftl_l by lia.
  replace (Z.of_nat (S n) - 1) with (Z.of_nat n) by lia. apply IH.
Qed.

(** The table holds the eight steps of every byte. *)
Lemma table_spec i :
  0 <= i < 256 -> nth (Z.to_nat i) crc32c_table 0 = bit_steps 8 i.
Proof.
  intros Hi.
  assert (H : forallb (fun n => nth n crc32c_table 0 =? bit_steps 8 (Z.of_nat n)) (seq 0 256) = true)
    by (vm_compute; reflexivity).
  rewrite forallb_forall in H. specialize (H (Z.to_nat i)).
  rewrite Z2Nat.id, Z.eqb_eq in H by lia. apply H, in_seq. lia.
Qed.

Lemma split_byte v : 0 <= v -> v = Z.lxor (Z.land v 0xFF) (Z.shiftl (Z.shiftr v 8) 8).
Proof.
  intros Hv. change 0xFF with (Z.ones 8). apply Z.bits_inj'. intros i Hi.
  rewrite Z.lxor_spec, Z.land_spec, Z.shiftl_spec by lia.
  destruct (Z.lt_ge_cases i 8).
  - rewrite Z.ones_spec_low, (Z.testbit_neg_r _ (i - 8)) by lia.
    by rewrite andb_true_r, xorb_false_r.
  - rewrite Z.ones_spec_high, Z.shiftr_spec by lia. rewrite andb_false_r, xorb_false_l.
    f_equal. lia.
Qed.

Lemma shiftr_byte_0 b : 0 <= b < 256 -> Z.shiftr b 8 = 0.
Proof. intros. rewrite Z.shiftr_div_pow2 by lia. by apply Z.div_small. Qed.

Lemma lxor_u32 x y : in_u32 x -> in_u32 y -> in_u32 (Z.lxor x y).
Proof.
  intros Hx Hy. split; [apply Z.lxor_nonneg; unfold in_u32 in *; lia|].
  assert (Hn : 0 <= Z.lxor x y) by (apply Z.lxor_nonneg; unfold in_u32 in *; lia).
  rewrite <- (u32_id x), <- (u32_id y) by done. unfold u32.
  rewrite <- !Z.land_ones by lia.
  assert (Z.lxor (Z.land x (Z.ones 32)) (Z.land y (Z.ones 32)) =
          Z.lxor x y mod 2 ^ 32) as ->.
  { rewrite <- Z.land_ones by lia. apply Z.bits_inj'. intros i Hi.
    rewrite Z.lxor_spec, !Z.land_spec, Z.lxor_spec.
    by destruct (Z.testbit x i), (Z.testbit y i), (Z.testbit (Z.ones 32) i). }
  apply Z.mod_pos_bound. lia.
Qed.

Lemma byte_u32 b : 0 <= b < 256 -> in_u32 b.
Proof. unfold in_u32. lia. Qed.

(** One round of the table driven loop is eight steps. *)
Lemma crc32c_round_spec crc b :
  0 <= crc -> 0 <= b < 256 -> crc32c_round crc b = bit_steps 8 (Z.lxor crc b).
Proof.
  intros Hc Hb. assert (0 <= Z.lxor crc b) by (apply Z.lxor_nonneg; lia).
  unfold crc32c_round. rewrite table_spec.
  2: { change 0xFF with (Z.ones 8). rewrite Z.land_ones by lia. apply Z.mod_pos_bound. lia. }
  rewrite (split_byte (Z.lxor crc b)) at 2 by done.
  rewrite bit_steps_lxor, (bit_steps_shiftl 8), Z.shiftr_lxor, (shiftr_byte_0 b) by done.
  by rewrite Z.lxor_0_r.
Qed.

Lemma bit_step_u32 r : in_u32 r -> in_u32 (bit_step r).
Proof.
  intros Hr. assert (in_u32 (Z.shiftr r 1)).
  { unfold in_u32 in *. rewrite Z.shiftr_div_pow2 by lia. change (2 ^ 1) with 2.
    split; [apply Z.div_pos; lia | apply Z.div_lt_upper_bound; lia]. }
  unfold bit_step. destruct (Z.odd r); [|done]. by apply lxor_u32.
Qed.

Lemma bit_steps_u32 n r : in_u32 r -> in_u32 (bit_steps n r).
Proof.
  revert r. induction n as [|n IH]; intros r Hr; [done|]. cbn. by apply IH, bit_step_u32.
Qed.

Lemma crc32c_round_u32 crc b : in_u32 crc -> 0 <= b < 256 -> in_u32 (crc32c_round crc b).
Proof.
  intros Hc Hb. rewrite crc32c_round_spec by (unfold in_u32 in *; lia).
  apply bit_steps_u32, lxor_u32; [done | by apply byte_u32].
Qed.

Lemma crc32c_u32 crc data : in_u32 crc -> byte_list data -> in_u32 (crc32c crc data).
Proof.
  intros Hc Hd. revert crc Hc. induction Hd as [|b data Hb _ IH]; intros crc Hc; [done|].
  cbn. by apply IH, crc32c_round_u32.
Qed.

(** A step on 32 bits loses nothing: only the polynomial sets bit 31. *)
Lemma bit_step_zero r : in_u32 r -> bit_step r = 0 -> r = 0.
Proof.
  unfold in_u32, bit_step. intros Hr.
  assert (Hs : Z.shiftr r 1 = r / 2) by (rewrite Z.shiftr_div_pow2; done).
  pose proof (Z.div_mod r 2 ltac:(lia)) as Hdm. rewrite Zmod_odd in Hdm.
  destruct (Z.odd r) eqn:Ho; [|rewrite Hs; lia].
  intros Hx. apply Z.lxor_eq in Hx. rewrite Hs in Hx. unfold poly in Hx. lia.
Qed.

Lemma bit_steps_zero n r : in_u32 r -> bit_steps n r = 0 -> r = 0.
Proof.
  revert r. induction n as [|n IH]; intros r Hr; [done|]. cbn. intros H.
  apply bit_step_zero; [done|]. apply IH; [by apply bit_step_u32 | done].
Qed.

Lemma bit_steps_inj n r1 r2 :
  in_u32 r1 -> in_u32 r2 -> bit_steps n r1 = bit_steps n r2 -> r1 = r2.
Proof.
  intros H1 H2 Heq. apply Z.lxor_eq, (bit_steps_zero n); [by apply lxor_u32|].
  by rewrite bit_steps_lxor, Heq, Z.lxor_nilpotent.
Qed.

Lemma shiftl_byte_lxor b w :
  0 <= b < 256 -> Z.lxor b (Z.shiftl w 8) = b + 256 * w.
Proof.
  intros Hb. rewrite Z.lxor_comm. rewrite <- Z.add_nocarry_lxor.
  - rewrite Z.shiftl_mul_pow2 by lia. change (2 ^ 8) with 256. lia.
  - apply Z.bits_inj'. intros i Hi. rewrite Z.land_spec, Z.bits_0, Z.shiftl_spec by lia.
    destruct (Z.lt_ge_cases i 8); [by rewrite Z.testbit_neg_r by lia|].
    rewrite <- (Z.mod_small b (2 ^ 8)), Z.mod_pow2_bits_high by lia. apply andb_false_r.
Qed.

(** A run of bytes enters the register as one little-endian word. *)
Lemma crc32c_word crc data :
  in_u32 crc -> byte_list data ->
  crc32c crc data = bit_steps (8 * length data) (Z.lxor crc (le_combine data)).
Proof.
  intros Hc Hd. revert crc Hc. induction Hd as [|b data Hb _ IH]; intros crc Hc.
  { cbn. by rewrite Z.lxor_0_r. }
  cbn [crc32c length le_combine]. rewrite IH by by apply crc32c_round_u32.
  replace (8 * S (length data))%nat with (8 + 8 * length data)%nat by lia.
  rewrite bit_steps_add. f_equal.
  rewrite crc32c_round_spec by (unfold in_u32 in *; lia).
  rewrite <- shiftl_byte_lxor by done. rewrite <- Z.lxor_assoc.
  rewrite (bit_steps_lxor 8 _ (Z.shiftl _ 8)), (bit_steps_shiftl 8). done.
Qed.

Lemma crc32c_app crc d1 d2 : crc32c crc (d1 ++ d2) = crc32c (crc32c crc d1) d2.
Proof. revert crc. induction d1 as [|b d1 IH]; intros crc; [done|]. cbn. apply IH. Qed.

Lemma crc32c_inj_start c1 c2 data :
  in_u32 c1 -> in_u32 c2 -> byte_list data -> crc32c c1 data = crc32c c2 data -> c1 = c2.
Proof.
  intros H1 H2 Hd. rewrite !crc32c_word by done. intros Heq.
  revert c1 c2 H1 H2 Heq. induction Hd as [|b data Hb Hd IH]; intros c1 c2 H1 H2 Heq.
  { cbn in Heq. by rewrite !Z.lxor_0_r in Heq. }
  assert (Hr : crc32c (crc32c_round c1 b) data = crc32c (crc32c_round c2 b) data).
  { change (crc32c c1 (b :: data) = crc32c c2 (b :: data)).
    rewrite !crc32c_word by (done || by constructor). done. }
  rewrite !(crc32c_word (crc32c_round _ _)) in Hr by (done || by apply crc32c_round_u32).
  apply IH in Hr; [| by apply crc32c_round_u32..].
  rewrite !crc32c_round_spec in Hr by (unfold in_u32 in *; lia).
  apply bit_steps_inj in Hr; [| apply lxor_u32; [done | by apply byte_u32]..].
  apply Z.lxor_eq.
  rewrite <- (Z.lxor_nilpotent (Z.lxor c2 b)). rewrite <- Hr at 1.
  by rewrite lxor_swap, Z.lxor_nilpotent, Z.lxor_0_r.
Qed.

Lemma buffer_app m a n1 n2 :
  buffer m a (n1 + n2) = buffer m a n1 ++ buffer m (a + Z.of_nat n1) n2.
Proof.
  revert a. induction n1 as [|n1 IH]; intros a; cbn [buffer app Nat.add].
  - f_equal. lia.
  - rewrite IH. do 3 f_equal. lia.
Qed.

Lemma buffer_ext m1 m2 a n :
  (forall i, a <= i < a + Z.of_nat n -> m1 i = m2 i) -> buffer m1 a n = buffer m2 a n.
Proof.
  revert a. induction n as [|n IH]; intros a Hm; [done|]. cbn [buffer].
  rewrite Hm by lia. rewrite (IH (a + 1)); [done|]. intros. apply Hm. lia.
Qed.

Lemma buffer_bytes m a n : bytes m -> byte_list (buffer m a n).
Proof.
  intros Hm. revert a. induction n as [|n IH]; intros a; constructor; [apply Hm | apply IH].
Qed.

Lemma length_buffer m a n : length (buffer m a n) = n.
Proof. revert a. induction n; intros a; cbn; auto. Qed.

Lemma buffer_inj m1 m2 a n i :
  buffer m1 a n = buffer m2 a n -> a <= i < a + Z.of_nat n -> m1 i = m2 i.
Proof.
  revert a. induction n as [|n IH]; intros a Heq Hi; [lia|]. cbn in Heq.
  injection Heq as H0 H1. destruct (Z.eq_dec i a) as [->|]; [done|]. apply (IH (a + 1)); [done|lia].
Qed.

(** An error burst of at most 32 bits (any change confined to four
    consecutive bytes) anywhere in the data changes the checksum. *)
Lemma crc32c_detects_burst crc pre m1 m2 post :
  in_u32 crc -> byte_list pre -> byte_list m1 -> byte_list m2 -> byte_list post ->
  length m1 = length m2 -> (length m1 <= 4)%nat -> m1 <> m2 ->
  crc32c crc (pre ++ m1 ++ post) <> crc32c crc (pre ++ m2 ++ post).
Proof.
  intros Hc Hpre H1 H2 Hpost Hlen H4 Hne Heq.
  rewrite !crc32c_app in Heq.
  assert (Hp := crc32c_u32 crc pre Hc Hpre).
  apply crc32c_inj_start in Heq; [| by apply crc32c_u32.. | done].
  rewrite (crc32c_word _ m1), (crc32c_word _ m2), Hlen in Heq by done.
  assert (Hle : forall m, byte_list m -> (length m <= 4)%nat -> in_u32 (le_combine m)).
  { intros m Hm Hl. pose proof (le_combine_range m Hm).
    assert (256 ^ Z.of_nat (length m) <= 256 ^ 4) by (apply Z.pow_le_mono_r; lia).
    unfold in_u32. lia. }
  apply bit_steps_inj in Heq; [| apply lxor_u32; [done | apply Hle; [done | lia]]..].
  apply Hne. rewrite <- (le_split_combine m1), <- (le_split_combine m2), Hlen by done.
  f_equal. clear Hp. apply Z.lxor_eq. apply (f_equal (Z.lxor (crc32c crc pre))) in Heq.
  rewrite <- !Z.lxor_assoc, !Z.lxor_nilpotent, !Z.lxor_0_l in Heq.
  by rewrite Heq, Z.lxor_nilpotent.
Qed.

(** ** Theorems *)

(** C9: the table driven [crc32c] computes the bitwise CRC-32C of the buffer. *)
Theorem crc32c_correct crc data :
  in_u32 crc -> byte_list data -> crc32c crc data = crc32c_bitwise crc data.
Proof.
  unfold crc32c_bitwise. intros Hc Hd. revert crc Hc.
  induction Hd as [|b data Hb _ IH]; intros crc Hc; [done|].
  cbn [crc32c fold_left]. rewrite <- crc32c_round_spec by (unfold in_u32 in *; lia).
  apply IH. by apply crc32c_round_u32.
Qed.

Lemma crc32c_correct_witness :
  crc32c 0xFFFFFFFF (buffer (fun i => i mod 256) 0 40) =
  crc32c_bitwise 0xFFFFFFFF (buffer (fun i => i mod 256) 0 40).
Proof.
  apply crc32c_correct; [done|]. repeat constructor; done.
Defined.
