(* ===== verification/Headers.v ===== *)
(** * What the tool takes from the drbd-headers submodule

    The submodule (linux/drbd.h, drbd_meta_data.h, drbd_limits.h) is not part
    of the repository.  Its constants and the layout of its on-disk structures
    are the fields of the class [DrbdHeaders]; what the code relies on is the
    class [DrbdHeadersOk].  [v9_headers] is an instance that satisfies it, for
    the theorems that are evaluated on concrete inputs. *)

From S2P Require Import Prelude.

Class DrbdHeaders := {
  (* linux/drbd.h *)
  DRBD_MAGIC : Z;
  DRBD_AL_MAGIC : Z;
  DRBD_AL_PMEM_MAGIC : Z;
  DRBD_MD_INDEX_INTERNAL : Z;
  DRBD_MD_INDEX_FLEX_EXT : Z;
  DRBD_MD_INDEX_FLEX_INT : Z;
  DRBD_PEERS_MAX : Z;
  DRBD_NODE_ID_MAX : Z;
  UUID_JUST_CREATED : Z;
  UI_CURRENT : Z;
  UI_BITMAP : Z;
  UI_HISTORY_START : Z;
  UI_HISTORY_END : Z;
  UI_SIZE : Z;
  (* drbd_meta_data.h: flags of the device and of its peers *)
  MDF_CONSISTENT : Z;
  MDF_PRIMARY_IND : Z;
  MDF_CONNECTED_IND : Z;
  MDF_FULL_SYNC : Z;
  MDF_WAS_UP_TO_DATE : Z;
  MDF_PEER_OUT_DATED : Z;
  MDF_CRASHED_PRIMARY : Z;
  MDF_AL_CLEAN : Z;
  MDF_AL_DISABLED : Z;
  MDF_PRIMARY_LOST_QUORUM : Z;
  MDF_HAVE_QUORUM : Z;
  MDF_PEER_CONNECTED : Z;
  MDF_PEER_OUTDATED : Z;
  MDF_PEER_FENCING : Z;
  MDF_PEER_FULL_SYNC : Z;
  MDF_PEER_DEVICE_SEEN : Z;
  MDF_NODE_EXISTS : Z;
  MDF_HAVE_BITMAP : Z;
  (* drbd_meta_data.h, drbd_limits.h: sizes *)
  BM_BLOCK_SIZE_MIN : Z;
  BM_BLOCK_SIZE_4k : Z;
  BM_BLOCK_SIZE_MAX : Z;
  AL_UPDATES_PER_TRANSACTION : Z;
  AL_CONTEXT_PER_TRANSACTION : Z;
  AL_TR_UPDATE : Z;
  AL_TR_INITIALIZED : Z;
  (* byte offsets of the members of struct meta_data_on_disk_9 *)
  d9_effective_size : Z;
  d9_current_uuid : Z;
  d9_device_uuid : Z;
  d9_members : Z;
  d9_flags : Z;
  d9_magic : Z;
  d9_md_size_sect : Z;
  d9_al_offset : Z;
  d9_al_nr_extents : Z;
  d9_bm_offset : Z;
  d9_bm_bytes_per_bit : Z;
  d9_la_peer_max_bio_size : Z;
  d9_bm_max_peers : Z;
  d9_node_id : Z;
  d9_al_stripes : Z;
  d9_al_stripe_size_4k : Z;
  d9_peers : Z;              (* peers[0] *)
  d9_sizeof_peer : Z;        (* sizeof(peers[0]) *)
  d9_peer_bitmap_uuid : Z;   (* members of one element of peers *)
  d9_peer_bitmap_dagtag : Z;
  d9_peer_flags : Z;
  d9_peer_bitmap_index : Z;
  d9_history_uuids : Z;
  d9_reserved_u64 : Z;       (* unused members, which are only dumped *)
  d9_reserved_u32 : Z;
  d9_peer_reserved_u32 : Z;
  d9_padding_start : Z;
  d9_padding_end : Z;
  (* byte offsets of the members of struct al_transaction_on_disk *)
  al_magic : Z;
  al_tr_number : Z;
  al_crc32c : Z;
  al_transaction_type : Z;
  al_n_updates : Z;
  al_context_size : Z;
  al_context_start_slot_nr : Z;
  al_update_slot_nr : Z;
  al_update_extent_nr : Z;
  al_context : Z;
  (* byte offsets of the members of struct al_on_pmem *)
  pmem_magic : Z;
  pmem_slots : Z
}.

(** ** Fields of an on-disk structure *)

(** A member: its offset and its size in bytes. *)
Notation field := (Z * nat)%type.

Definition disjoint_field (f g : field) : bool :=
  (f.1 + Z.of_nat f.2 <=? g.1) || (g.1 + Z.of_nat g.2 <=? f.1).

(** Every member lies within [size] bytes and no two of them overlap. *)
Fixpoint layout_ok (size : Z) (l : list field) : bool :=
  match l with
  | [] => true
  | f :: l' =>
      (0 <=? f.1) && (f.1 + Z.of_nat f.2 <=? size) &&
      forallb (disjoint_field f) l' && layout_ok size l'
  end.

(** The indices [0 .. n-1]. *)
Definition upto (n : Z) : list Z := seqZ 0 n.

Definition d9_peer `{DrbdHeaders} (p m : Z) : Z := d9_peers + p * d9_sizeof_peer + m.

(** The array of history UUIDs of the code has 32 elements; a build assertion
    of the code ties it to the array of the header. *)
Definition HISTORY_UUIDS : Z := 32.
Definition HISTORY_UUIDS_V08 : Z := 2.

Definition d9_fields `{DrbdHeaders} : list field :=
  [(d9_effective_size, 8%nat); (d9_device_uuid, 8%nat); (d9_flags, 4%nat);
   (d9_members, 8%nat); (d9_magic, 4%nat); (d9_md_size_sect, 4%nat);
   (d9_al_offset, 4%nat); (d9_al_nr_extents, 4%nat); (d9_bm_offset, 4%nat);
   (d9_bm_bytes_per_bit, 4%nat); (d9_la_peer_max_bio_size, 4%nat);
   (d9_bm_max_peers, 4%nat); (d9_node_id, 4%nat); (d9_al_stripes, 4%nat);
   (d9_al_stripe_size_4k, 4%nat); (d9_current_uuid, 8%nat)] ++
  (upto DRBD_NODE_ID_MAX ≫= fun p =>
     [(d9_peer p d9_peer_flags, 4%nat); (d9_peer p d9_peer_bitmap_index, 4%nat);
      (d9_peer p d9_peer_bitmap_uuid, 8%nat); (d9_peer p d9_peer_bitmap_dagtag, 8%nat)]) ++
  ((fun i => (d9_history_uuids + 8 * i, 8%nat)) <$> upto HISTORY_UUIDS).

Definition al_fields `{DrbdHeaders} : list field :=
  [(al_magic, 4%nat); (al_tr_number, 4%nat); (al_crc32c, 4%nat);
   (al_transaction_type, 2%nat); (al_n_updates, 2%nat); (al_context_size, 2%nat);
   (al_context_start_slot_nr, 2%nat)] ++
  ((fun i => (al_update_slot_nr + 2 * i, 2%nat)) <$> upto AL_UPDATES_PER_TRANSACTION) ++
  ((fun i => (al_update_extent_nr + 4 * i, 4%nat)) <$> upto AL_UPDATES_PER_TRANSACTION) ++
  ((fun i => (al_context + 4 * i, 4%nat)) <$> upto AL_CONTEXT_PER_TRANSACTION).

(** ** What the code relies on *)

Class DrbdHeadersOk `{DrbdHeaders} : Prop := {
  (* the magics are 32 bit words, the derived ones too *)
  magic_range : 0 <= DRBD_MAGIC /\ DRBD_MAGIC + 6 < 2 ^ 32;
  al_magic_range : in_u32 DRBD_AL_MAGIC;
  al_magics_ne : DRBD_AL_MAGIC <> DRBD_AL_PMEM_MAGIC;
  (* the special indices are negative and distinct *)
  md_index_neg : DRBD_MD_INDEX_INTERNAL < 0 /\ DRBD_MD_INDEX_FLEX_EXT < 0 /\
                 DRBD_MD_INDEX_FLEX_INT < 0;
  md_index_ne : DRBD_MD_INDEX_INTERNAL <> DRBD_MD_INDEX_FLEX_EXT /\
                DRBD_MD_INDEX_INTERNAL <> DRBD_MD_INDEX_FLEX_INT /\
                DRBD_MD_INDEX_FLEX_EXT <> DRBD_MD_INDEX_FLEX_INT;
  peers_max : 1 < DRBD_PEERS_MAX <= 32;
  node_id_max : 1 <= DRBD_NODE_ID_MAX <= DRBD_PEERS_MAX;
  ui_order : 0 <= UI_CURRENT /\ UI_BITMAP = UI_CURRENT + 1 /\
             UI_HISTORY_START = UI_BITMAP + 1 /\ UI_HISTORY_END = UI_HISTORY_START + 1 /\
             UI_HISTORY_END < UI_SIZE <= 8;
  block_sizes : BM_BLOCK_SIZE_4k = 4096 /\ BM_BLOCK_SIZE_MIN = 4096 /\
                BM_BLOCK_SIZE_MAX = 1048576;
  al_counts : 0 < AL_UPDATES_PER_TRANSACTION < 2 ^ 16 /\
              0 < AL_CONTEXT_PER_TRANSACTION < 2 ^ 16;
  (* constants that reach the super block *)
  just_created_range : in_u64 UUID_JUST_CREATED;
  al_clean_range : in_u32 MDF_AL_CLEAN;
  al_types : AL_TR_UPDATE <> AL_TR_INITIALIZED /\ in_u16 AL_TR_INITIALIZED;
  d9_layout : layout_ok 4096 d9_fields = true;
  al_layout : layout_ok 4096 al_fields = true
}.

(** An instance for the examples.  The magic numbers, the special indices and
    UUID_JUST_CREATED are those of user/v84/linux/drbd.h; the rest is one choice
    that satisfies [DrbdHeadersOk]. *)
#[export] Instance v9_headers : DrbdHeaders := {|
  DRBD_MAGIC := 0x83740267;
  DRBD_AL_MAGIC := 0x69cb65a2;
  DRBD_AL_PMEM_MAGIC := 0x6aa667a6;
  DRBD_MD_INDEX_INTERNAL := -1;
  DRBD_MD_INDEX_FLEX_EXT := -2;
  DRBD_MD_INDEX_FLEX_INT := -3;
  DRBD_PEERS_MAX := 32;
  DRBD_NODE_ID_MAX := 32;
  UUID_JUST_CREATED := 4;
  UI_CURRENT := 0;
  UI_BITMAP := 1;
  UI_HISTORY_START := 2;
  UI_HISTORY_END := 3;
  UI_SIZE := 4;
  MDF_CONSISTENT := 2 ^ 0;
  MDF_PRIMARY_IND := 2 ^ 1;
  MDF_CONNECTED_IND := 2 ^ 2;
  MDF_FULL_SYNC := 2 ^ 3;
  MDF_WAS_UP_TO_DATE := 2 ^ 4;
  MDF_PEER_OUT_DATED := 2 ^ 5;
  MDF_CRASHED_PRIMARY := 2 ^ 6;
  MDF_AL_CLEAN := 2 ^ 7;
  MDF_AL_DISABLED := 2 ^ 8;
  MDF_PRIMARY_LOST_QUORUM := 2 ^ 9;
  MDF_HAVE_QUORUM := 2 ^ 10;
  MDF_PEER_CONNECTED := 2 ^ 0;
  MDF_PEER_OUTDATED := 2 ^ 1;
  MDF_PEER_FENCING := 2 ^ 2;
  MDF_PEER_FULL_SYNC := 2 ^ 3;
  MDF_PEER_DEVICE_SEEN := 2 ^ 4;
  MDF_NODE_EXISTS := 2 ^ 16;
  MDF_HAVE_BITMAP := 2 ^ 31;
  BM_BLOCK_SIZE_MIN := 4096;
  BM_BLOCK_SIZE_4k := 4096;
  BM_BLOCK_SIZE_MAX := 1048576;
  AL_UPDATES_PER_TRANSACTION := 64;
  AL_CONTEXT_PER_TRANSACTION := 919;
  AL_TR_UPDATE := 0;
  AL_TR_INITIALIZED := 0xffff;
  d9_effective_size := 0;
  d9_current_uuid := 8;
  d9_device_uuid := 16;
  d9_members := 24;
  d9_flags := 32;
  d9_magic := 36;
  d9_md_size_sect := 40;
  d9_al_offset := 44;
  d9_al_nr_extents := 48;
  d9_bm_offset := 52;
  d9_bm_bytes_per_bit := 56;
  d9_la_peer_max_bio_size := 60;
  d9_bm_max_peers := 64;
  d9_node_id := 68;
  d9_al_stripes := 72;
  d9_al_stripe_size_4k := 76;
  d9_peers := 128;
  d9_sizeof_peer := 32;
  d9_peer_bitmap_uuid := 0;
  d9_peer_bitmap_dagtag := 8;
  d9_peer_flags := 16;
  d9_peer_bitmap_index := 20;
  d9_history_uuids := 1152;
  d9_reserved_u64 := 80;
  d9_reserved_u32 := 104;
  d9_peer_reserved_u32 := 24;
  d9_padding_start := 1408;
  d9_padding_end := 4096;
  al_magic := 0;
  al_tr_number := 4;
  al_crc32c := 8;
  al_transaction_type := 12;
  al_n_updates := 14;
  al_context_size := 16;
  al_context_start_slot_nr := 18;
  al_update_slot_nr := 36;
  al_update_extent_nr := 164;
  al_context := 420;
  pmem_magic := 0;
  pmem_slots := 4
|}.

#[export] Instance v9_headers_ok : @DrbdHeadersOk v9_headers.
Proof. split; vm_compute; intuition congruence. Qed.

(** ** Layout lemmas *)

Lemma layout_ok_in size l f :
  layout_ok size l = true -> f ∈ l -> 0 <= f.1 /\ f.1 + Z.of_nat f.2 <= size.
Proof.
  induction l as [|g l IH]; cbn; intros Hl Hf; [by apply elem_of_nil in Hf|].
  rewrite !andb_true_iff, !Z.leb_le in Hl. destruct Hl as [[[? ?] _] Hl].
  apply elem_of_cons in Hf as [->|Hf]; auto.
Qed.

(** Two members at different places of the list do not overlap. *)
Lemma layout_ok_ne size l i j f g :
  layout_ok size l = true -> l !! i = Some f -> l !! j = Some g -> i <> j ->
  disjoint_field f g = true.
Proof.
  assert (Hcomm : forall f g, disjoint_field f g = disjoint_field g f).
  { intros. unfold disjoint_field. apply orb_comm. }
  revert i j f g. induction l as [|h l IH]; intros i j f g; [done|].
  cbn [layout_ok]. rewrite !andb_true_iff, forallb_forall. intros [[_ Hh] Hl].
  destruct i as [|i], j as [|j]; cbn; intros Hf Hg Hij; [done| | |].
  - injection Hf as <-. apply Hh, list_elem_of_In. by eapply list_elem_of_lookup_2.
  - injection Hg as <-. rewrite Hcomm. apply Hh, list_elem_of_In.
    by eapply list_elem_of_lookup_2.
  - eapply IH; eauto.
Qed.
