(* ===== verification/SharedTool.v ===== *)
(** * Helpers of shared_tool.c

    Numbers with units ([new_strtoll]), the number scanners of the C library
    it relies on ([strtoul], [strtol], the [%llu] and [%llx] conversions of
    [scanf]), size pretty printing, and the file that remembers where the meta
    data of a device was last seen ([lk_bdev_save], [lk_bdev_load]).

    C strings are [string]s; a NUL character never occurs in them. *)

From S2P Require Import Prelude.
From Stdlib Require Import Ascii String.
From stdpp Require Import strings.

#[local] Open Scope string_scope.
#[local] Open Scope Z_scope.

(** ** Characters *)

Definition code (c : ascii) : Z := Z.of_nat (nat_of_ascii c).

Definition between (lo hi x : Z) : bool := (lo <=? x) && (x <=? hi).

Definition isdigit (c : ascii) : bool := between 48 57 (code c).

(** [isspace] in the C locale. *)
Definition isspace (c : ascii) : bool := (code c =? 32) || between 9 13 (code c).

Definition NL : ascii := ascii_of_nat 10.
Definition nl : string := String NL EmptyString.
Definition TAB : ascii := ascii_of_nat 9.
Definition QUOTE : ascii := ascii_of_nat 34.
Definition BACKSLASH : ascii := ascii_of_nat 92.

(** ** Number scanners of the C library *)

Definition digit_val (c : ascii) : option Z :=
  let x := code c in
  if between 48 57 x then Some (x - 48)
  else if between 97 122 x then Some (x - 87)
  else if between 65 90 x then Some (x - 55)
  else None.

Definition digit_in (base : Z) (c : ascii) : option Z :=
  match digit_val c with
  | Some d => if d <? base then Some d else None
  | None => None
  end.

Fixpoint skip_space (s : string) : string :=
  match s with
  | String c s' => if isspace c then skip_space s' else s
  | EmptyString => s
  end.

(** Digits of [s] in [base], accumulated on [acc], and the rest. *)
Fixpoint scan_digits (base acc : Z) (s : string) : Z * string :=
  match s with
  | String c s' =>
      match digit_in base c with
      | Some d => scan_digits base (acc * base + d) s'
      | None => (acc, s)
      end
  | EmptyString => (acc, s)
  end.

Definition starts_digit (base : Z) (s : string) : bool :=
  match s with
  | String c _ => match digit_in base c with Some _ => true | None => false end
  | EmptyString => false
  end.

(** The optional sign: is the number negative, and the rest. *)
Definition scan_sign (s : string) : bool * string :=
  match s with
  | String c s' =>
      if Ascii.eqb c "-" then (true, s')
      else if Ascii.eqb c "+" then (false, s')
      else (false, s)
  | EmptyString => (false, s)
  end.

(** Base 0 is resolved by the prefix; base 16 allows the prefix 0x. *)
Definition scan_prefix (base : Z) (s : string) : Z * string :=
  match s with
  | String z (String x s') =>
      if Ascii.eqb z "0" && (Ascii.eqb x "x" || Ascii.eqb x "X") &&
         ((base =? 0) || (base =? 16)) && starts_digit 16 s'
      then (16, s')
      else if base =? 0 then (if Ascii.eqb z "0" then 8 else 10, s) else (base, s)
  | String z EmptyString =>
      if base =? 0 then (if Ascii.eqb z "0" then 8 else 10, s) else (base, s)
  | EmptyString => (if base =? 0 then 10 else base, s)
  end.

(** Sign, magnitude and rest of a number; [None] when there is none. *)
Definition scan_number (base : Z) (s : string) : option (bool * Z * string) :=
  let '(neg, s1) := scan_sign (skip_space s) in
  let '(b, s2) := scan_prefix base s1 in
  if starts_digit b s2
  then let '(v, rest) := scan_digits b 0 s2 in Some (neg, v, rest)
  else None.

(** [strtoul]/[strtoull] of a 64 bit host: value, where it stopped, [errno]. *)
Definition strto_u64 (s : string) (base : Z) : Z * string * bool :=
  match scan_number base s with
  | None => (0, s, false)
  | Some (neg, v, rest) =>
      if 2 ^ 64 <=? v then (2 ^ 64 - 1, rest, true)
      else (u64 (if neg : bool then - v else v), rest, false)
  end.

Definition strtol (s : string) (base : Z) : Z * string * bool :=
  match scan_number base s with
  | None => (0, s, false)
  | Some (neg, v, rest) =>
      let x := if neg : bool then - v else v in
      if x <? - 2 ^ 63 then (- 2 ^ 63, rest, true)
      else if 2 ^ 63 - 1 <? x then (2 ^ 63 - 1, rest, true)
      else (x, rest, false)
  end.

(** The [%llu] and [%llx] conversions of [scanf]. *)
Definition scanf_llu (base : Z) (s : string) : option (Z * string) :=
  match scan_number base s with
  | None => None
  | Some _ => let '(v, rest, _) := strto_u64 s base in Some (v, rest)
  end.

(** ** Printing numbers *)

Definition digit_char (d : Z) : ascii :=
  ascii_of_nat (Z.to_nat (if d <? 10 then 48 + d else 55 + d)).

(** The lowest [k] digits of [n], before [tail] ([%0kX] for numbers that fit). *)
Fixpoint fixed_digits (base : Z) (k : nat) (n : Z) (tail : string) : string :=
  match k with
  | O => tail
  | S k' => fixed_digits base k' (n / base) (String (digit_char (n mod base)) tail)
  end.

(** All digits of [n]; [fuel] bounds their number. *)
Fixpoint all_digits (base : Z) (fuel : nat) (n : Z) (tail : string) : string :=
  let s := String (digit_char (n mod base)) tail in
  match fuel with
  | O => s
  | S f => if n / base =? 0 then s else all_digits base f (n / base) s
  end.

(** [%llu] of a 64 bit number (20 digits are enough), [%d] of a 64 bit one, [%016llX]. *)
Definition show_u (n : Z) (tail : string) : string := all_digits 10 20 n tail.
Definition show_d (n : Z) (tail : string) : string :=
  if n <? 0 then String "-" (show_u (- n) tail) else show_u n tail.
Definition show_x16 (n : Z) (tail : string) : string := fixed_digits 16 16 n tail.

(** ** Numbers with units *)

Inductive new_strtoll_errs :=
  | MSE_OK
  | MSE_DEFAULT_UNIT
  | MSE_MISSING_NUMBER
  | MSE_INVALID_NUMBER
  | MSE_INVALID_UNIT
  | MSE_OUT_OF_RANGE.

#[export] Instance new_strtoll_errs_eq_dec : EqDecision new_strtoll_errs.
Proof. solve_decision. Defined.

Definition def_unit_shift (def_unit : ascii) : option Z :=
  let u := code def_unit in
  if (u =? 0) || (u =? 1) || Ascii.eqb def_unit "1" then Some 0
  else if Ascii.eqb def_unit "K" || Ascii.eqb def_unit "k" then Some (-10)
  else if Ascii.eqb def_unit "s" then Some (-9)
  else None.

Definition unit_shift (unit : ascii) : option Z :=
  if Ascii.eqb unit "K" || Ascii.eqb unit "k" then Some 10
  else if Ascii.eqb unit "M" || Ascii.eqb unit "m" then Some 20
  else if Ascii.eqb unit "G" || Ascii.eqb unit "g" then Some 30
  else if Ascii.eqb unit "s" then Some 9
  else None.

(** The value is that of [*rv] when the result is [MSE_OK]. *)
Definition new_strtoll (s : string) (def_unit : ascii) : new_strtoll_errs * Z :=
  match def_unit_shift def_unit with
  | None => (MSE_DEFAULT_UNIT, 0)
  | Some shift =>
      match s with
      | EmptyString => (MSE_MISSING_NUMBER, 0)
      | _ =>
          match scanf_llu 10 s with
          | None => (MSE_INVALID_NUMBER, 0)
          | Some (rv, EmptyString) => (MSE_OK, rv)
          | Some (rv, String unit EmptyString) =>
              match unit_shift unit with
              | None => (MSE_INVALID_UNIT, rv)
              | Some d =>
                  let shift := shift + d in
                  if shift <? 0 then
                    let shift := - shift in
                    (MSE_OK, Z.shiftr (u64 (u64 (rv + Z.shiftl 1 shift) - 1)) shift)
                  else if Z.shiftr (2 ^ 64 - 1) shift <? rv then (MSE_OUT_OF_RANGE, rv)
                  else (MSE_OK, u64 (Z.shiftl rv shift))
              end
          | Some (rv, String _ (String _ _)) => (MSE_INVALID_NUMBER, rv)
          end
      end
  end.

(** The exit code for an error. *)
Definition print_strtoll_error_and_exit (err : new_strtoll_errs) : Z :=
  match err with
  | MSE_OK | MSE_DEFAULT_UNIT | MSE_MISSING_NUMBER => 100
  | MSE_INVALID_NUMBER | MSE_INVALID_UNIT | MSE_OUT_OF_RANGE => 20
  end.

(** The value, or the exit code. *)
Definition m_strtoll (s : string) (def_unit : ascii) : Z + Z :=
  match new_strtoll s def_unit with
  | (MSE_OK, r) => inl r
  | (err, _) => inr (print_strtoll_error_and_exit err)
  end.

(** ** Small helpers *)

Fixpoint all_chars (f : ascii -> bool) (s : string) : bool :=
  match s with
  | EmptyString => true
  | String c s' => f c && all_chars f s'
  end.

Definition only_digits (s : string) : bool :=
  match s with
  | EmptyString => false
  | _ => all_chars isdigit s
  end.

Fixpoint unescape (ue : string) : string :=
  match ue with
  | EmptyString => EmptyString
  | String c ue' =>
      if Ascii.eqb c QUOTE then unescape ue'
      else if Ascii.eqb c BACKSLASH then
        match ue' with
        | EmptyString => EmptyString
        | String d ue'' => String d (unescape ue'')
        end
      else String c (unescape ue')
  end.

(** The loop of [ppsize]: [base] counts up to the last of the six units. *)
Fixpoint ppsize_loop (left : nat) (size base : Z) : Z * Z :=
  match left with
  | O => (size, base)
  | S left' =>
      if 10000 <=? size then
        ppsize_loop left'
          (u64 (Z.shiftr size 10 + of_bool (truth (Z.land size (Z.shiftl 1 9))))) (base + 1)
      else (size, base)
  end.

Definition ppsize_units : list ascii := ["K"; "M"; "G"; "T"; "P"; "E"]%char.

Definition ppsize (size : Z) : string :=
  let '(size, base) := ppsize_loop 5 size 0 in
  show_u (u32 size) (String " " (String (nth (Z.to_nat base) ppsize_units " "%char) "B")).

(** ** The last-known block device info *)

Record bdev_info := mk_bdev_info {
  bd_size : Z;
  bd_uuid : Z;
  bd_name : option string
}.

#[export] Instance eta_bdev_info : Eta bdev_info :=
  fun r => mk_bdev_info (bd_size r) (bd_uuid r) (bd_name r).

(** What glibc prints for a NULL string. *)
Definition str_or_null (s : option string) : string := default "(null)" s.

(** The text [lk_bdev_save] writes to the file of the minor. *)
Definition lk_bdev_save (bd : bdev_info) : string :=
  show_u (bd_size bd) (String TAB (str_or_null (bd_name bd) +:+ String NL
    (if bd_uuid bd =? 0 then ""
     else "uuid:" +:+ String TAB (show_x16 (bd_uuid bd) (String NL ""))))).

(** The conversions [%ms], [%[\n]] and a literal of [scanf]. *)
Fixpoint take_word (s : string) : string * string :=
  match s with
  | EmptyString => ("", "")
  | String c s' =>
      if isspace c then ("", s)
      else let '(w, r) := take_word s' in (String c w, r)
  end.

Definition scanf_ms (s : string) : option (string * string) :=
  match take_word (skip_space s) with
  | (EmptyString, _) => None
  | (w, r) => Some (w, r)
  end.

Fixpoint drop_nl (s : string) : string :=
  match s with
  | String c s' => if Ascii.eqb c NL then drop_nl s' else s
  | EmptyString => s
  end.

Definition scanf_nl (s : string) : option string :=
  match s with
  | String c s' => if Ascii.eqb c NL then Some (drop_nl s') else None
  | EmptyString => None
  end.

Fixpoint scanf_literal (l s : string) : option string :=
  match l, s with
  | EmptyString, _ => Some s
  | String c l', String d s' => if Ascii.eqb c d then scanf_literal l' s' else None
  | String _ _, EmptyString => None
  end.

(** The [fscanf] of [lk_bdev_load] and what is kept of it for each number of
    successful conversions; [None] when even the first one fails. *)
Definition lk_bdev_load (file : string) : option bdev_info :=
  match scanf_llu 10 file with
  | None => None
  | Some (size, r1) =>
      match scanf_ms r1 with
      | None => Some (mk_bdev_info size 0 None)
      | Some (name, r2) =>
          let partial := mk_bdev_info size 0 (Some name) in
          match scanf_nl r2 with
          | None => Some partial
          | Some r3 =>
              match scanf_literal "uuid:" r3 with
              | None => Some partial
              | Some r4 =>
                  match scanf_llu 16 r4 with
                  | None => Some partial
                  | Some (uuid, _) => Some (mk_bdev_info size uuid (Some name))
                  end
              end
          end
      end
  end.

(** ** Printing and scanning are inverse *)

Lemma digit_val_char base d : 2 <= base <= 16 -> 0 <= d < base -> digit_in base (digit_char d) = Some d.
Proof.
  intros Hb Hd.
  assert (H : forallb (fun n => match digit_val (digit_char (Z.of_nat n)) with
                      | Some e => e =? Z.of_nat n | None => false end) (seq 0 16) = true)
    by (vm_compute; reflexivity).
  rewrite forallb_forall in H. specialize (H (Z.to_nat d)).
  rewrite Z2Nat.id in H by lia. unfold digit_in.
  destruct (digit_val (digit_char d)) as [e|].
  - assert (e = d) as -> by (apply Z.eqb_eq, H, in_seq; lia).
    by destruct (Z.ltb_spec d base); [|lia].
  - discriminate H. apply in_seq. lia.
Qed.

Lemma digit_char_plain d : 0 <= d < 16 -> isspace (digit_char d) = false /\
  Ascii.eqb (digit_char d) "-" = false /\ Ascii.eqb (digit_char d) "+" = false /\
  Ascii.eqb (digit_char d) "x" = false /\ Ascii.eqb (digit_char d) "X" = false /\
  Ascii.eqb (digit_char d) NL = false.
Proof.
  intros Hd. rewrite <- (Z2Nat.id d) by lia.
  assert (Hn : (Z.to_nat d < 16)%nat) by lia. revert Hn. generalize (Z.to_nat d). clear.
  intros n Hn. do 16 (destruct n as [|n]; [by vm_compute|]). lia.
Qed.

Lemma scan_fixed_digits base k n acc tail :
  2 <= base <= 16 ->
  scan_digits base acc (fixed_digits base k n tail) =
  scan_digits base (acc * base ^ Z.of_nat k + n mod base ^ Z.of_nat k) tail.
Proof.
  intros Hb. revert n acc tail. induction k as [|k IH]; intros n acc tail.
  { cbn [fixed_digits]. f_equal. change (Z.of_nat 0) with 0. rewrite Z.pow_0_r, Z.mod_1_r. lia. }
  cbn [fixed_digits]. rewrite IH. cbn [scan_digits].
  rewrite digit_val_char by (auto using Z.mod_pos_bound with lia || (pose proof (Z.mod_pos_bound n base); lia)).
  f_equal. rewrite Nat2Z.inj_succ, Z.pow_succ_r by lia.
  rewrite (Z.rem_mul_r n base) by (try apply Z.pow_nonzero; lia). lia.
Qed.

Lemma all_digits_fixed base fuel n tail :
  2 <= base <= 16 -> 0 <= n < base ^ Z.of_nat (S fuel) ->
  exists k, (0 < k)%nat /\ 0 <= n < base ^ Z.of_nat k /\
    all_digits base fuel n tail = fixed_digits base k n tail.
Proof.
  intros Hb. revert n tail. induction fuel as [|fuel IH]; intros n tail Hn.
  { exists 1%nat. split; [lia|]. done. }
  cbn [all_digits]. destruct (Z.eqb_spec (n / base) 0) as [H0|H0].
  { exists 1%nat. split; [lia|]. split; [|done].
    apply Z.div_small_iff in H0; [|lia]. rewrite Z.pow_1_r. lia. }
  destruct (IH (n / base) (String (digit_char (n mod base)) tail)) as (k & Hk & Hr & ->).
  { split; [apply Z.div_pos; lia|]. apply Z.div_lt_upper_bound; [lia|].
    rewrite <- Z.pow_succ_r by lia. rewrite <- Nat2Z.inj_succ. lia. }
  exists (S k). split; [lia|]. split; [|done].
  rewrite Nat2Z.inj_succ, Z.pow_succ_r by lia.
  pose proof (Z.div_mod n base). pose proof (Z.mod_pos_bound n base). nia.
Qed.

(** The most significant digit comes first. *)
Lemma fixed_digits_head base k n tail :
  2 <= base ->
  fixed_digits base (S k) n tail =
  String (digit_char ((n / base ^ Z.of_nat k) mod base)) (fixed_digits base k n tail).
Proof.
  intros Hb. revert n tail. induction k as [|k IH]; intros n tail.
  { cbn. by rewrite Z.div_1_r. }
  change (fixed_digits base (S (S k)) n tail)
    with (fixed_digits base (S k) (n / base) (String (digit_char (n mod base)) tail)).
  rewrite IH. rewrite Nat2Z.inj_succ, Z.pow_succ_r by lia.
  rewrite Z.div_div by (try apply Z.pow_pos_nonneg; lia). done.
Qed.

(** What follows a printed number must not continue it. *)
Definition ends_number (base : Z) (rest : string) : bool := negb (starts_digit base rest).

Lemma scan_digits_stop base acc s :
  ends_number base s = true -> scan_digits base acc s = (acc, s).
Proof.
  destruct s as [|c s]; [done|]. unfold ends_number. cbn.
  by destruct (digit_in base c).
Qed.

Lemma scan_number_digits base k n rest :
  base = 10 \/ base = 16 -> (0 < k)%nat -> (base = 16 -> (1 < k)%nat) -> ends_number base rest = true ->
  scan_number base (fixed_digits base k n rest) = Some (false, n mod base ^ Z.of_nat k, rest).
Proof.
  intros Hb Hk Hk16 Hr. assert (2 <= base <= 16) by lia.
  assert (Hdig : forall m, 0 <= m mod base < 16).
  { intros m. pose proof (Z.mod_pos_bound m base). lia. }
  assert (Hscan : scan_digits base 0 (fixed_digits base k n rest) = (n mod base ^ Z.of_nat k, rest)).
  { rewrite scan_fixed_digits by lia. by apply scan_digits_stop. }
  destruct k as [|k]; [lia|]. revert Hscan. rewrite fixed_digits_head by lia.
  destruct (digit_char_plain _ (Hdig (n / base ^ Z.of_nat k))) as (Hsp & Hm & Hp & _).
  unfold scan_number. cbn [skip_space]. rewrite Hsp. cbn [scan_sign]. rewrite Hm, Hp.
  assert (Hsd : starts_digit base (String (digit_char ((n / base ^ Z.of_nat k) mod base))
                  (fixed_digits base k n rest)) = true).
  { cbn. rewrite digit_val_char; [done | lia | apply Z.mod_pos_bound; lia]. }
  intros Hscan.
  assert (Hpre : scan_prefix base (String (digit_char ((n / base ^ Z.of_nat k) mod base))
     (fixed_digits base k n rest)) = (base, String (digit_char ((n / base ^ Z.of_nat k) mod base))
     (fixed_digits base k n rest))).
  { unfold scan_prefix. replace (base =? 0) with false by lia.
    destruct (fixed_digits base k n rest) as [|x s'] eqn:Hx; [done|].
    destruct Hb as [->| ->]; [by rewrite !andb_false_r|].
    destruct k as [|k]; [lia|]. rewrite fixed_digits_head in Hx by lia. injection Hx as <- _.
    destruct (digit_char_plain _ (Hdig (n / 16 ^ Z.of_nat k))) as (_ & _ & _ & Hx & HX & _).
    by rewrite Hx, HX, andb_false_r. }
  by rewrite Hpre, Hsd, Hscan.
Qed.

Lemma scanf_llu_digits base k n rest :
  base = 10 \/ base = 16 -> (0 < k)%nat -> (base = 16 -> (1 < k)%nat) -> ends_number base rest = true ->
  0 <= n < base ^ Z.of_nat k -> n < 2 ^ 64 ->
  scanf_llu base (fixed_digits base k n rest) = Some (n, rest).
Proof.
  intros Hb Hk Hk16 Hr Hn Hn64. unfold scanf_llu, strto_u64.
  rewrite scan_number_digits, Z.mod_small by done.
  replace (2 ^ 64 <=? n) with false by lia. by rewrite u64_id by solve_int.
Qed.

(** A printed 64 bit number is read back. *)
Lemma scanf_show_u n rest :
  in_u64 n -> ends_number 10 rest = true -> scanf_llu 10 (show_u n rest) = Some (n, rest).
Proof.
  intros Hn Hr. unfold show_u.
  destruct (all_digits_fixed 10 20 n rest) as (k & Hk & Hnk & ->); [lia | solve_int |].
  apply scanf_llu_digits; [lia | lia | lia | done | lia | solve_int].
Qed.

Lemma scanf_show_x16 n rest :
  in_u64 n -> ends_number 16 rest = true -> scanf_llu 16 (show_x16 n rest) = Some (n, rest).
Proof.
  intros Hn Hr. apply scanf_llu_digits; [lia | lia | lia | done | solve_int | solve_int].
Qed.

Lemma show_u_cons n rest : exists c s, show_u n rest = String c s.
Proof.
  unfold show_u. generalize 20%nat. intros f. revert n rest.
  induction f as [|f IH]; intros n rest; cbn [all_digits]; [eauto|].
  destruct (n / 10 =? 0); eauto.
Qed.

(** ** Theorems *)

(** The factor between a unit and the default unit, as a power of two. *)
Definition unit_scale (def_unit unit : ascii) : option Z :=
  match def_unit_shift def_unit, unit_shift unit with
  | Some s, Some d => Some (s + d)
  | _, _ => None
  end.

(** A number of few digits is printed as a short text. *)
Lemma all_digits_length fuel n tail j :
  (0 < j)%nat -> 0 <= n < 10 ^ Z.of_nat j -> (String.length (all_digits 10 fuel n tail) <= j + String.length tail)%nat.
Proof.
  revert n tail j. induction fuel as [|fuel IH]; intros n tail j Hj Hn; cbn [all_digits].
  - cbn [String.length]. lia.
  - destruct (Z.eqb_spec (n / 10) 0) as [|Hne]; [cbn [String.length]; lia|]. destruct j as [|[|j]]; [lia| |].
    { exfalso. apply Hne. apply Z.div_small. cbn in Hn. lia. }
    rewrite (IH _ _ (S j)); [cbn [String.length]; lia|lia|]. split; [apply Z.div_pos; lia|].
    apply Z.div_lt_upper_bound; [lia|]. replace (Z.of_nat (S (S j))) with (Z.of_nat (S j) + 1) in Hn by lia.
    rewrite Z.pow_add_r in Hn by lia. lia.
Qed.

(** What becomes of a decimal number with a unit, for every number of 64
    bits: a larger unit than the default one multiplies, and the number is
    refused exactly when the product does not fit in 64 bits; a smaller unit
    divides, rounding up - except when the number is less than one default unit
    below 2^64: then the rounding wraps around, and 0 is given without an error
    (the code does not check this sum). *)
Theorem new_strtoll_unit n unit def_unit e :
  in_u64 n -> unit_scale def_unit unit = Some e ->
  new_strtoll (show_u n (String unit "")) def_unit =
  if e <? 0 then (MSE_OK, if n + 2 ^ (- e) - 1 <? 2 ^ 64 then (n + 2 ^ (- e) - 1) / 2 ^ (- e) else 0)
  else if n * 2 ^ e <? 2 ^ 64 then (MSE_OK, n * 2 ^ e)
  else (MSE_OUT_OF_RANGE, n).
Proof.
  unfold unit_scale. intros Hn He.
  destruct (def_unit_shift def_unit) as [s|] eqn:Hs; [|done].
  destruct (unit_shift unit) as [d|] eqn:Hd; [|done]. injection He as He.
  assert (Hu : ends_number 10 (String unit "") = true).
  { revert Hd. unfold ends_number, unit_shift. cbn. clear.
    destruct unit as [[] [] [] [] [] [] [] []]; vm_compute; intros; congruence. }
  assert (Hds : -10 <= s <= 0 /\ 9 <= d <= 30).
  { revert Hs Hd. clear. unfold def_unit_shift, unit_shift. repeat case_match; intros; simplify_eq; lia. }
  unfold new_strtoll. rewrite Hs, scanf_show_u by done.
  destruct (show_u_cons n (String unit "")) as (c & str & ->). rewrite Hd, He.
  destruct (Z.ltb_spec e 0) as [Hneg|Hpos].
  - assert (0 < 2 ^ (- e)) by (apply Z.pow_pos_nonneg; lia).
    assert (2 ^ (- e) <= 2 ^ 10) by (apply Z.pow_le_mono_r; lia).
    rewrite Z.shiftl_1_l, Z.shiftr_div_pow2 by lia. f_equal. unfold in_u64 in Hn.
    replace (u64 (u64 (n + 2 ^ (- e)) - 1)) with (u64 (n + 2 ^ (- e) - 1)) by (unfold u64; by rewrite Zminus_mod_idemp_l).
    destruct (Z.ltb_spec (n + 2 ^ (- e) - 1) (2 ^ 64)); [by rewrite u64_id by solve_int|].
    unfold u64. rewrite <- (Z.mod_unique _ (2 ^ 64) 1 (n + 2 ^ (- e) - 1 - 2 ^ 64)) by lia. apply Z.div_small. lia.
  - assert (0 < 2 ^ e) by (apply Z.pow_pos_nonneg; lia).
    rewrite Z.shiftr_div_pow2, Z.shiftl_mul_pow2 by lia.
    assert (H64 : 2 ^ 64 = 2 ^ (64 - e) * 2 ^ e) by (rewrite <- Z.pow_add_r by lia; f_equal; lia).
    assert (Hq : (2 ^ 64 - 1) / 2 ^ e = 2 ^ (64 - e) - 1).
    { symmetry. apply Z.div_unique with (2 ^ e - 1); lia. }
    rewrite Hq.
    destruct (Z.ltb_spec (2 ^ (64 - e) - 1) n), (Z.ltb_spec (n * 2 ^ e) (2 ^ 64)); try nia; [done|].
    rewrite u64_id; [done|]. split; [unfold in_u64 in Hn; nia | lia].
Qed.

Lemma new_strtoll_unit_witness :
  new_strtoll (show_u 5 (String "s" "")) "k" = (MSE_OK, 3) /\
  new_strtoll (show_u 7 (String "G" "")) "s" = (MSE_OK, 7 * 2 ^ 21) /\
  new_strtoll (show_u (2 ^ 60) (String "M" "")) "1" = (MSE_OUT_OF_RANGE, 2 ^ 60) /\
  new_strtoll (show_u (2 ^ 64 - 1) (String "s" "")) "k" = (MSE_OK, 0).
Proof.
  split_and!.
  - apply (new_strtoll_unit 5 "s" "k" (-1)); done.
  - apply (new_strtoll_unit 7 "G" "s" 21); done.
  - apply (new_strtoll_unit (2 ^ 60) "M" "1" 20); done.
  - apply (new_strtoll_unit (2 ^ 64 - 1) "s" "k" (-1)); done.
Defined.

#[local] Arguments isspace : simpl never.

(** A name that [%ms] reads whole. *)
Definition word (s : string) : Prop := s <> "" /\ all_chars (fun c => negb (isspace c)) s = true.

Lemma append_nil_l s : "" +:+ s = s.
Proof. done. Qed.

Lemma append_cons_l c s1 s2 : String c s1 +:+ s2 = String c (s1 +:+ s2).
Proof. done. Qed.

Lemma take_word_app w c rest :
  all_chars (fun c => negb (isspace c)) w = true -> isspace c = true ->
  take_word (w +:+ String c rest) = (w, String c rest).
Proof.
  induction w as [|d w IH]; intros Hw Hc.
  { rewrite append_nil_l. cbn [take_word]. by rewrite Hc. }
  cbn [all_chars] in Hw. apply andb_true_iff in Hw as [Hd Hw]. apply negb_true_iff in Hd.
  rewrite append_cons_l. cbn [take_word]. by rewrite Hd, IH.
Qed.

Lemma scanf_ms_word w c rest :
  word w -> isspace c = true -> scanf_ms (String TAB (w +:+ String c rest)) = Some (w, String c rest).
Proof.
  intros [Hne Hw] Hc. unfold scanf_ms. change (skip_space (String TAB ?s)) with (skip_space s).
  assert (skip_space (w +:+ String c rest) = w +:+ String c rest) as ->.
  { destruct w as [|d w]; [done|]. cbn [all_chars] in Hw. apply andb_true_iff in Hw as [Hd _].
    apply negb_true_iff in Hd. rewrite append_cons_l. cbn [skip_space]. by rewrite Hd. }
  rewrite take_word_app by done. by destruct w.
Qed.

Lemma scanf_literal_app l s : scanf_literal l (l +:+ s) = Some s.
Proof. induction l as [|c l IH]; [done|]. rewrite append_cons_l. cbn [scanf_literal].
  by rewrite Ascii.eqb_refl.
Qed.

Lemma scanf_nl_uuid s : scanf_nl (String NL ("uuid:" +:+ s)) = Some ("uuid:" +:+ s).
Proof. done. Qed.

Lemma scanf_llu_tab n :
  in_u64 n -> scanf_llu 16 (String TAB (show_x16 n (String NL ""))) = Some (n, String NL "").
Proof.
  intros Hn. rewrite <- (scanf_show_x16 n (String NL "")) by done.
  unfold scanf_llu, strto_u64. change (scan_number 16 (String TAB ?s)) with (scan_number 16 s).
  by destruct (scan_number 16 _) as [[[??]?]|].
Qed.

(** What [lk_bdev_save] stores of a device is what [lk_bdev_load] finds,
    for a device name without white space. *)
Theorem lk_bdev_roundtrip size uuid name :
  in_u64 size -> in_u64 uuid -> word name ->
  lk_bdev_load (lk_bdev_save (mk_bdev_info size uuid (Some name))) =
  Some (mk_bdev_info size uuid (Some name)).
Proof.
  intros Hs Hu Hname. unfold lk_bdev_load, lk_bdev_save. cbn [bd_size bd_uuid bd_name].
  rewrite scanf_show_u by done. change (str_or_null (Some name)) with name.
  rewrite scanf_ms_word by done. destruct (Z.eqb_spec uuid 0) as [->|Hnz]; [done|].
  rewrite scanf_nl_uuid. by rewrite scanf_literal_app, scanf_llu_tab.
Qed.

Lemma lk_bdev_roundtrip_witness :
  lk_bdev_load (lk_bdev_save (mk_bdev_info 4294967296 0xfedcba9876543210 (Some "/dev/sdb1"))) =
  Some (mk_bdev_info 4294967296 0xfedcba9876543210 (Some "/dev/sdb1")).
Proof. apply lk_bdev_roundtrip; done. Defined.

(** *** Pretty printed sizes *)

(** Shifting and rounding never exceeds the exact quotient rounded up. *)
Lemma ppsize_step size x :
  0 <= size <= 1024 * x ->
  0 <= u64 (Z.shiftr size 10 + of_bool (truth (Z.land size (Z.shiftl 1 9)))) <= x.
Proof.
  intros Hs. rewrite Z.shiftr_div_pow2 by lia. change (2 ^ 10) with 1024.
  set (r := of_bool _). assert (0 <= r <= 1) by (unfold r, of_bool; destruct (truth _); lia).
  assert (0 <= size / 1024) by (apply Z.div_pos; lia).
  pose proof (u64_range (size / 1024 + r)) as Hr. unfold in_u64 in Hr.
  assert (u64 (size / 1024 + r) <= size / 1024 + r) by (apply Z.mod_le; lia).
  destruct (Z.eq_dec size (1024 * x)) as [Heq|Hne].
  - assert (r = 0) as ->; [|rewrite Heq, Z.mul_comm, Z.div_mul in *; lia].
    unfold r. assert (Z.land size (Z.shiftl 1 9) = 0) as ->; [|done].
    apply Z.bits_inj'. intros i Hi. rewrite Z.land_spec, Z.bits_0, Z.shiftl_1_l.
    destruct (Z.eq_dec i 9) as [->|]; [|by rewrite Z.pow2_bits_false, andb_false_r by lia].
    rewrite Heq, Z.mul_comm. change 1024 with (2 ^ 10). by rewrite Z.mul_pow2_bits_low.
  - assert (size / 1024 < x) by (apply Z.div_lt_upper_bound; lia). lia.
Qed.

Lemma ppsize_loop_bound left size base x :
  10000 <= x -> 0 <= size <= x * 1024 ^ Z.of_nat left ->
  0 <= (ppsize_loop left size base).1 <= x /\
  base <= (ppsize_loop left size base).2 <= base + Z.of_nat left.
Proof.
  intros Hx. revert size base. induction left as [|left IH]; intros size base Hs; cbn [ppsize_loop].
  { cbn in *. lia. }
  destruct (Z.leb_spec 10000 size); [|cbn; lia].
  rewrite Nat2Z.inj_succ, Z.pow_succ_r in Hs by lia.
  destruct (IH _ (base + 1) (ppsize_step size (x * 1024 ^ Z.of_nat left) ltac:(lia))) as [? ?].
  split; [done|]. lia.
Qed.

(** the number [ppsize] prints is at most 16384 and its unit is one of the
    six, for every 64 bit size: as its comment says, text and terminating NUL
    need at most 9 bytes. *)
Theorem ppsize_fits size :
  in_u64 size ->
  (String.length (ppsize size) <= 8)%nat /\
  0 <= (ppsize_loop 5 size 0).1 <= 16384 /\
  nth_error ppsize_units (Z.to_nat (ppsize_loop 5 size 0).2) <> None.
Proof.
  intros Hs. destruct (ppsize_loop_bound 5 size 0 16384) as [Hv Hb]; [lia | |].
  { change (16384 * 1024 ^ Z.of_nat 5) with (2 ^ 64). solve_int. }
  unfold ppsize. destruct (ppsize_loop 5 size 0) as [v b]. cbn [fst snd] in *. cbv beta iota.
  rewrite u32_id by (unfold in_u32; lia).
  assert (Hlen : forall f n k tail, 0 <= n < 10 ^ Z.of_nat (S k) ->
    (String.length (all_digits 10 f n tail) <= S k + String.length tail)%nat).
  { intros f. induction f as [|f IH]; intros n k tail Hn; cbn [all_digits]; [cbn; lia|].
    destruct (Z.eqb_spec (n / 10) 0) as [H0|H0]; [cbn; lia|].
    destruct k as [|k].
    { exfalso. apply H0, Z.div_small. rewrite Z.pow_1_r in Hn. lia. }
    etransitivity; [apply (IH _ k)|cbn; lia].
    rewrite Nat2Z.inj_succ, Z.pow_succ_r in Hn by lia.
    split; [apply Z.div_pos; lia | apply Z.div_lt_upper_bound; lia]. }
  split; [|split; [done|]].
  - etransitivity; [apply (Hlen _ _ 4%nat); change (10 ^ Z.of_nat 5) with 100000; lia|]. done.
  - apply nth_error_Some. cbn. lia.
Qed.

Lemma ppsize_fits_witness : (String.length (ppsize (2 ^ 64 - 1)) <= 8)%nat /\
  0 <= (ppsize_loop 5 (2 ^ 64 - 1) 0).1 <= 16384 /\
  nth_error ppsize_units (Z.to_nat (ppsize_loop 5 (2 ^ 64 - 1) 0).2) <> None.
Proof. apply ppsize_fits. done. Defined.
