(* ===== verification/ConfigFlags.v ===== *)
(** * Classes of configuration options

    user/v9/config_flags.c: how the value of an option is checked, compared,
    put into a netlink attribute and printed from one, for each class of
    options.  The tables of the contexts (which options there are) are made of
    names and limits of the drbd-headers submodule, which is not part of the
    sources: a context is a parameter.  [KEYUTILS] is not defined.

    A value is a C string that may be NULL; [fd_u] is the union of the
    structure, and reading another member than the one that is set is a
    [Fault].  Operations that may leave the program, as [m_strtoll] does, end
    in an outcome of [res]. *)

From S2P Require Import Prelude Machine Nla NlaPut SharedTool.
From Stdlib Require Import Ascii String.
From stdpp Require Import strings.

#[local] Open Scope string_scope.
#[local] Open Scope list_scope.
#[local] Open Scope Z_scope.

(** ** Fields and contexts (config_flags.h) *)

Inductive check_codes :=
  | CC_OK | CC_NOT_AN_ENUM | CC_NOT_A_BOOL | CC_NOT_A_NUMBER | CC_TOO_SMALL | CC_TOO_BIG
  | CC_STR_TOO_LONG | CC_NOT_AN_ENUM_NUM.

#[export] Instance check_codes_eq_dec : EqDecision check_codes.
Proof. solve_decision. Defined.

Inductive field_u :=
  | U_e (map : list (option string)) (def : Z)
  | U_n (min max def : Z) (is_signed : bool) (scale : ascii)
  | U_b (def : bool)
  | U_s (max_len : Z)
  | U_en (map : list (string * Z)) (min max def : Z)
  | U_k (type : string).

(** The objects [fc_enum], [fc_enum_nocase], ... [ops] points to. *)
Inductive class_name :=
  | fc_enum | fc_enum_nocase | fc_numeric | fc_enum_num | fc_boolean | fc_flag | fc_string
  | fc_key_serial.

Record field_def := mk_field_def {
  fd_name : string;
  fd_nla_type : Z;
  fd_ops : class_name;
  fd_u : field_u;
  needs_double_quoting : bool;
  argument_is_optional : bool;
  checked_in_postparse : bool;
  implicit_clamp : bool;
  fd_unit : option string
}.

#[export] Instance class_name_eq_dec : EqDecision class_name.
Proof. solve_decision. Defined.

#[export] Instance field_u_eq_dec : EqDecision field_u.
Proof. solve_decision. Defined.

#[export] Instance field_def_eq_dec : EqDecision field_def.
Proof. solve_decision. Defined.

Record context_def := mk_context_def {
  ctx_nla_policy : list nla_policy;
  ctx_nla_type : Z;
  ctx_fields : list field_def
}.

Definition nla_policy_size (ctx : context_def) : Z := Z.of_nat (length (ctx_nla_policy ctx)).

(** The operations of a class. *)
Record field_class := mk_field_class {
  fc_is_default : field_def -> option string -> res bool;
  fc_is_equal : field_def -> option string -> option string -> res bool;
  fc_get : context_def -> field_def -> mem -> Z -> res (option string);
  fc_put : context_def -> field_def -> option string -> B bool;
  fc_usage : field_def -> res string;
  fc_describe_xml : field_def -> res string;
  fc_check : field_def -> option string -> res check_codes
}.

(** ** Outcomes *)

#[export] Instance res_ret : MRet res := fun A a => Ok a.

#[export] Instance res_fmap : FMap res := fun A B f r =>
  match r with Ok a => Ok (f a) | Exit c => Exit c | Abort => Abort | Fault => Fault end.

#[export] Instance res_bind : MBind res := fun A B k r =>
  match r with Ok a => k a | Exit c => Exit c | Abort => Abort | Fault => Fault end.

Definition lift_res {A} (r : res A) : B A := fun msg => (r, msg).

(** [assert] *)
Definition assert_res (b : bool) : res unit := if b then Ok () else Abort.

(** ** C strings *)

(** The bytes of a string, without the NUL. *)
Fixpoint codes (s : string) : list Z :=
  match s with
  | EmptyString => []
  | String c s' => code c :: codes s'
  end.

Definition char_of (b : Z) : ascii := ascii_of_nat (Z.to_nat b).

(** The string at [a], when a NUL is found in [n] bytes. *)
Fixpoint read_cstring (n : nat) (m : mem) (a : Z) : option string :=
  match n with
  | O => None
  | S n' => if m a =? 0 then Some "" else String (char_of (m a)) <$> read_cstring n' m (a + 1)
  end.

Definition tolower (c : ascii) : ascii :=
  if SharedTool.between 65 90 (code c) then ascii_of_nat (nat_of_ascii c + 32) else c.

Fixpoint lower (s : string) : string :=
  match s with
  | EmptyString => ""
  | String c s' => String (tolower c) (lower s')
  end.

(** [!strcmp(a, b)], [!strcasecmp(a, b)] *)
Definition streq (a b : string) : bool := String.eqb a b.
Definition strcaseeq (a b : string) : bool := String.eqb (lower a) (lower b).

Lemma streq_refl a : streq a a = true.
Proof. apply String.eqb_refl. Qed.

Lemma streq_sym a b : streq a b = true -> streq b a = true.
Proof. unfold streq. by rewrite String.eqb_sym. Qed.

Lemma streq_trans a b c : streq a b = true -> streq b c = true -> streq a c = true.
Proof. unfold streq. by intros ->%String.eqb_eq. Qed.

Lemma strcaseeq_sym a b : strcaseeq a b = true -> strcaseeq b a = true.
Proof. unfold strcaseeq. by rewrite String.eqb_sym. Qed.

Lemma strcaseeq_trans a b c : strcaseeq a b = true -> strcaseeq b c = true -> strcaseeq a c = true.
Proof. unfold strcaseeq. by intros ->%String.eqb_eq. Qed.

(** Comparison functions of the C library read both strings: NULL is a [Fault]. *)
Definition compare_strings (eq : string -> string -> bool) (a b : option string) : res bool :=
  match a, b with Some a, Some b => Ok (eq a b) | _, _ => Fault end.

(** ** Enumerations *)

(** [size] is the number of entries of the map. *)
Fixpoint enum_search (eq : string -> string -> bool) (map : list (option string)) (n : Z) (value : string) : Z :=
  match map with
  | [] => - 1
  | Some name :: map' => if eq value name then n else enum_search eq map' (n + 1) value
  | None :: map' => enum_search eq map' (n + 1) value
  end.

Definition enum_string_to_int (map : list (option string)) (value : option string)
    (eq : string -> string -> bool) : Z :=
  match value with
  | None => - 1
  | Some value => enum_search eq map 0 value
  end.

Definition u_e (field : field_def) : res (list (option string) * Z) :=
  match fd_u field with U_e map def => Ok (map, def) | _ => Fault end.

Definition enum_is_default_by (eq : string -> string -> bool) (field : field_def)
    (value : option string) : res bool :=
  '(map, def) ← u_e field; mret (enum_string_to_int map value eq =? def).

Definition enum_is_default := enum_is_default_by streq.
Definition enum_is_default_nocase := enum_is_default_by strcaseeq.

Definition enum_is_equal (field : field_def) (a b : option string) : res bool := compare_strings streq a b.
Definition enum_is_equal_nocase (field : field_def) (a b : option string) : res bool := compare_strings strcaseeq a b.

(** The policy entry of the field. *)
Definition policy_of_field (ctx : context_def) (field : field_def) : res nla_policy :=
  match zlookup (ctx_nla_policy ctx) (fd_nla_type field) with Some pt => Ok pt | None => Fault end.

Definition type_of_field (ctx : context_def) (field : field_def) : res Z :=
  pt ← policy_of_field ctx field; mret (pt_type pt).
Definition len_of_field (ctx : context_def) (field : field_def) : res Z :=
  pt ← policy_of_field ctx field; mret (pt_len pt).

Definition assert_type (ctx : context_def) (field : field_def) (t : Z) : res unit :=
  t' ← type_of_field ctx field; assert_res (t' =? t).

Definition get_enum (ctx : context_def) (field : field_def) (m : mem) (nla : Z) : res (option string) :=
  assert_type ctx field NLA_U32;;
  '(map, _) ← u_e field;
  let i := s32 (nla_get_u32 m nla) in
  if (i <? 0) || (Z.of_nat (length map) <=? i) then mret None
  else mret (match zlookup map i with Some name => name | None => None end).

Definition put_enum_by (eq : string -> string -> bool) (ctx : context_def) (field : field_def)
    (value : option string) : B bool :=
  '(map, _) ← lift_res (u_e field);
  let n := enum_string_to_int map value eq in
  if n =? - 1 then mret false
  else
    lift_res (assert_type ctx field NLA_U32);;
    nla_put_u32 (fd_nla_type field) n;;
    mret true.

Definition put_enum := put_enum_by streq.
Definition put_enum_nocase := put_enum_by strcaseeq.

Definition enum_check_by (eq : string -> string -> bool) (field : field_def) (value : option string) :
    res check_codes :=
  '(map, _) ← u_e field;
  mret (if enum_string_to_int map value eq =? - 1 then CC_NOT_AN_ENUM else CC_OK).

Definition enum_check := enum_check_by streq.
Definition enum_check_nocase := enum_check_by strcaseeq.

(** The names, each after [sep], then after bars. *)
Fixpoint usage_names (sep : string) (names : list string) : string :=
  match names with
  | [] => ""
  | name :: names' => sep +:+ name +:+ usage_names "|" names'
  end.

Definition enum_usage (field : field_def) : res string :=
  '(map, _) ← u_e field;
  let names := omap id map in
  assert_res (negb (bool_decide (names = [])));;
  mret ("[--" +:+ fd_name field +:+ "=" +:+ usage_names "{" names +:+ "}]").

Definition dq : string := String QUOTE "".

Definition xml_option (field : field_def) (type body : string) : string :=
  String TAB ("<option name=" +:+ dq +:+ fd_name field +:+ dq +:+ " type=" +:+ dq +:+ type +:+ dq +:+ ">" +:+ nl) +:+
  body +:+ String TAB ("</option>" +:+ nl).

Definition xml_line (tag text : string) : string :=
  String TAB (String TAB ("<" +:+ tag +:+ ">" +:+ text +:+ "</" +:+ tag +:+ ">" +:+ nl)).

Definition enum_describe_xml (field : field_def) : res string :=
  '(map, _) ← u_e field;
  mret (xml_option field "handler" (String.concat "" (xml_line "handler" <$> omap id map))).

(** ** Numbers *)

Definition u_n (field : field_def) : res (Z * Z * Z * bool * ascii) :=
  match fd_u field with
  | U_n min max def is_signed scale => Ok (min, max, def, is_signed, scale)
  | _ => Fault
  end.

(** [m_strtoll] of a string that may be NULL; it exits on an error. *)
Definition m_strtoll_res (value : option string) (scale : ascii) : res Z :=
  match value with
  | None => Exit (print_strtoll_error_and_exit MSE_MISSING_NUMBER)
  | Some s => match m_strtoll s scale with inl r => Ok r | inr c => Exit c end
  end.

(** [long long l = m_strtoll(...)] *)
Definition numeric_value (value : option string) (scale : ascii) : res Z :=
  s64 <$> m_strtoll_res value scale.

Definition numeric_is_default (field : field_def) (value : option string) : res bool :=
  '(_, _, def, _, scale) ← u_n field;
  l ← numeric_value value scale;
  mret (l =? def).

Definition numeric_is_equal (field : field_def) (a b : option string) : res bool :=
  '(_, _, _, _, scale) ← u_n field;
  la ← numeric_value a scale;
  lb ← numeric_value b scale;
  mret (la =? lb).

(** Sign extension from [w] bits to [unsigned long long]. *)
Definition sign_extend (w l : Z) : Z :=
  u64 ((l + 2 ^ (w - 1)) mod 2 ^ w - 2 ^ (w - 1)).

(** The width of the attribute and its value; of an attribute that is too short
    for [nla_get_u64] a variable without a value is read. *)
Definition get_numeric_raw (t : Z) (m : mem) (nla : Z) : res (option (Z * Z)) :=
  if t =? NLA_U8 then Ok (Some (8, nla_get_u8 m nla))
  else if t =? NLA_U16 then Ok (Some (16, nla_get_u16 m nla))
  else if t =? NLA_U32 then Ok (Some (32, nla_get_u32 m nla))
  else if t =? NLA_U64 then
    if nla_len m nla <? 8 then Fault else l ← nla_get_u64 zero_mem m nla; mret (Some (64, l))
  else Ok None.

(** The character [%c] prints after the number: a NUL, which ends the string,
    when the scale is '1' or when there is none. *)
Definition scale_suffix (scale : ascii) : string :=
  if Ascii.eqb scale "1" || (code scale =? 0) then "" else String scale "".

Definition get_numeric (ctx : context_def) (field : field_def) (m : mem) (nla : Z) : res (option string) :=
  '(_, _, _, is_signed, scale) ← u_n field;
  t ← type_of_field ctx field;
  raw ← get_numeric_raw t m nla;
  match raw with
  | None => mret None
  | Some (w, l) =>
      mret (Some (if is_signed : bool then show_d (s64 (sign_extend w l)) (scale_suffix scale)
                  else show_u l (scale_suffix scale)))
  end.

Definition put_numeric (ctx : context_def) (field : field_def) (value : option string) : B bool :=
  '(_, _, _, _, scale) ← lift_res (u_n field);
  l ← lift_res (numeric_value value scale);
  t ← lift_res (type_of_field ctx field);
  if t =? NLA_U8 then nla_put_u8 (fd_nla_type field) l;; mret true
  else if t =? NLA_U16 then nla_put_u16 (fd_nla_type field) l;; mret true
  else if t =? NLA_U32 then nla_put_u32 (fd_nla_type field) l;; mret true
  else if t =? NLA_U64 then nla_put_u64 (fd_nla_type field) l;; mret true
  else mret false.

Definition numeric_usage (field : field_def) : res string :=
  '(min, max, _, _, _) ← u_n field;
  mret ("[--" +:+ fd_name field +:+ "=(" +:+ show_d min (" ... " +:+ show_d max ")]")).

Definition numeric_describe_xml (field : field_def) : res string :=
  '(min, max, def, _, scale) ← u_n field;
  mret (xml_option field "numeric"
    (xml_line "min" (show_d min "") +:+ xml_line "max" (show_d max "") +:+
     xml_line "default" (show_d def "") +:+ xml_line "unit_prefix" (String scale "") +:+
     match fd_unit field with Some unit => xml_line "unit" unit | None => "" end)).

(** [l] is unsigned: the bounds are converted to [unsigned long long].  The
    clamped value is not used any further. *)
Definition numeric_check (field : field_def) (value : option string) : res check_codes :=
  '(min, max, _, _, scale) ← u_n field;
  let '(e, l) := match value with Some s => new_strtoll s scale | None => (MSE_MISSING_NUMBER, 0) end in
  if negb (bool_decide (e = MSE_OK)) then mret CC_NOT_A_NUMBER
  else if (l <? u64 min) && negb (implicit_clamp field) then mret CC_TOO_SMALL
  else
    let l := if l <? u64 min then u64 min else l in
    if (u64 max <? l) && negb (implicit_clamp field) then mret CC_TOO_BIG
    else mret CC_OK.

(** ** Numbers with names *)

Definition u_en (field : field_def) : res (list (string * Z) * Z * Z * Z) :=
  match fd_u field with U_en map min max def => Ok (map, min, max, def) | _ => Fault end.

(** The value and what is assigned to [*err_p], if anything is. *)
Definition enum_num_to_int (map : list (string * Z)) (value : option string) : Z * option new_strtoll_errs :=
  match value with
  | None => (- 1, Some MSE_MISSING_NUMBER)
  | Some value =>
      match List.find (fun e => streq value e.1) map with
      | Some (_, n) => (n, None)
      | None =>
          let '(e, l) := new_strtoll value (ascii_of_nat 1) in
          (if bool_decide (e = MSE_OK) then s32 l else - 1, Some e)
      end
  end.

Definition enum_num_is_default (field : field_def) (value : option string) : res bool :=
  '(map, _, _, def) ← u_en field; mret ((enum_num_to_int map value).1 =? def).

Definition enum_num_is_equal (field : field_def) (a b : option string) : res bool := compare_strings streq a b.

Definition enum_num_to_string (map : list (string * Z)) (value : Z) : string :=
  match List.find (fun e => value =? e.2) map with
  | Some (name, _) => name
  | None => show_d value ""
  end.

Definition get_enum_num (ctx : context_def) (field : field_def) (m : mem) (nla : Z) : res (option string) :=
  assert_type ctx field NLA_U32;;
  '(map, _, _, _) ← u_en field;
  mret (Some (enum_num_to_string map (s32 (nla_get_u32 m nla)))).

Definition put_enum_num (ctx : context_def) (field : field_def) (value : option string) : B bool :=
  '(map, _, _, _) ← lift_res (u_en field);
  let n := (enum_num_to_int map value).1 in
  if n =? - 1 then mret false
  else
    lift_res (assert_type ctx field NLA_U32);;
    nla_put_u32 (fd_nla_type field) n;;
    mret true.

Definition enum_num_usage (field : field_def) : res string :=
  '(map, min, max, _) ← u_en field;
  assert_res (negb (bool_decide (map = [])));;
  mret ("[--" +:+ fd_name field +:+ "=" +:+ usage_names "{" map.*1 +:+
        "}|(" +:+ show_d min (" ... " +:+ show_d max ")]")).

Definition enum_num_describe_xml (field : field_def) : res string :=
  '(map, min, max, def) ← u_en field;
  mret (xml_option field "numeric-or-symbol"
    (xml_line "min" (show_d min "") +:+ xml_line "max" (show_d max "") +:+
     xml_line "default" (enum_num_to_string map def) +:+
     String.concat "" (xml_line "symbol" <$> map.*1))).

(** [e] keeps its initial value 777 ([None]) for a symbolic value. *)
Definition enum_num_check (field : field_def) (value : option string) : res check_codes :=
  '(map, min, max, _) ← u_en field;
  let '(n, e) := enum_num_to_int map value in
  if (n =? - 1) && negb (bool_decide (e = Some MSE_OK)) then mret CC_NOT_AN_ENUM_NUM
  else if bool_decide (e = None) then mret CC_OK
  else if n <? min then mret CC_TOO_SMALL
  else if max <? n then mret CC_TOO_BIG
  else mret CC_OK.

(** ** Booleans and flags *)

Definition u_b (field : field_def) : res bool :=
  match fd_u field with U_b def => Ok def | _ => Fault end.

Definition boolean_string_to_int (value : option string) : Z :=
  match value with
  | None => 1
  | Some value => if streq value "yes" then 1 else if streq value "no" then 0 else - 1
  end.

Definition boolean_is_default (field : field_def) (value : option string) : res bool :=
  def ← u_b field; mret (boolean_string_to_int value =? of_bool def).

Definition boolean_is_equal (field : field_def) (a b : option string) : res bool :=
  mret (boolean_string_to_int a =? boolean_string_to_int b).

Definition get_boolean (ctx : context_def) (field : field_def) (m : mem) (nla : Z) : res (option string) :=
  assert_type ctx field NLA_U8;;
  mret (Some (if truth (nla_get_u8 m nla) then "yes" else "no")).

Definition put_boolean (ctx : context_def) (field : field_def) (value : option string) : B bool :=
  let yesno := boolean_string_to_int value in
  if yesno =? - 1 then mret false
  else
    lift_res (assert_type ctx field NLA_U8);;
    nla_put_u8 (fd_nla_type field) yesno;;
    mret true.

Definition put_flag (ctx : context_def) (field : field_def) (value : option string) : B bool :=
  let yesno := boolean_string_to_int value in
  if yesno =? - 1 then mret false
  else
    lift_res (assert_type ctx field NLA_U8);;
    (if truth yesno then nla_put_u8 (fd_nla_type field) yesno else mret 0);;
    mret true.

Definition boolean_usage (field : field_def) : res string :=
  mret ("[--" +:+ fd_name field +:+ "={yes|no}]").

Definition boolean_describe_xml (field : field_def) : res string :=
  def ← u_b field;
  mret (xml_option field "boolean" (xml_line "default" (if def : bool then "yes" else "no"))).

Definition boolean_check (field : field_def) (value : option string) : res check_codes :=
  mret (if boolean_string_to_int value =? - 1 then CC_NOT_A_BOOL else CC_OK).

(** ** Strings *)

Definition u_s (field : field_def) : res Z :=
  match fd_u field with U_s max_len => Ok max_len | _ => Fault end.

Definition string_is_default (field : field_def) (value : option string) : res bool :=
  mret (match value with Some value => streq value "" | None => false end).

Definition string_is_equal (field : field_def) (a b : option string) : res bool := compare_strings streq a b.

Definition get_string (ctx : context_def) (field : field_def) (m : mem) (nla : Z) : res (option string) :=
  assert_type ctx field NLA_NUL_STRING;;
  len ← len_of_field ctx field;
  match read_cstring (Z.to_nat (len + 1)) m (nla_data nla) with
  | Some s => mret (Some s)
  | None => Abort
  end.

(** [strlen] of NULL is a [Fault]. *)
Definition put_string (ctx : context_def) (field : field_def) (value : option string) : B bool :=
  lift_res (assert_type ctx field NLA_NUL_STRING);;
  match value with
  | None => msg_fault
  | Some value => nla_put_string (fd_nla_type field) (codes value);; mret true
  end.

Definition string_usage (field : field_def) : res string :=
  mret ("[--" +:+ fd_name field +:+ "=<str>]").

Definition string_describe_xml (field : field_def) : res string := mret (xml_option field "string" "").

Definition string_check (field : field_def) (value : option string) : res check_codes :=
  max_len ← u_s field;
  if truth max_len then
    match value with
    | None => Fault
    | Some value => mret (if max_len <=? Z.of_nat (String.length value) then CC_STR_TOO_LONG else CC_OK)
    end
  else mret CC_OK.

Fixpoint escape_quotes (str : string) : string :=
  match str with
  | EmptyString => ""
  | String c str' =>
      if Ascii.eqb c BACKSLASH || Ascii.eqb c QUOTE then String BACKSLASH (String c (escape_quotes str'))
      else String c (escape_quotes str')
  end.

Definition double_quote_string (str : option string) : string :=
  match str with
  | None => String QUOTE (String QUOTE "")
  | Some str => String QUOTE (escape_quotes str +:+ String QUOTE "")
  end.

(** ** Keys, without keyutils *)

Definition key_serial_is_default (field : field_def) (value : option string) : res bool := mret true.
Definition key_serial_is_equal (field : field_def) (a b : option string) : res bool := mret true.
Definition get_key_serial (ctx : context_def) (field : field_def) (m : mem) (nla : Z) : res (option string) :=
  mret (Some "").
Definition put_key_serial (ctx : context_def) (field : field_def) (value : option string) : B bool :=
  nla_put_u32 (fd_nla_type field) 0;; mret true.
Definition key_serial_usage (field : field_def) : res string :=
  mret ("[--" +:+ fd_name field +:+ "=<n/a>]").
Definition key_serial_describe_xml (field : field_def) : res string := mret (xml_option field "string" "").
Definition key_serial_check (field : field_def) (value : option string) : res check_codes := mret CC_OK.

(** ** The classes *)

Definition class_of (ops : class_name) : field_class :=
  match ops with
  | fc_enum =>
      mk_field_class enum_is_default enum_is_equal get_enum put_enum enum_usage enum_describe_xml enum_check
  | fc_enum_nocase =>
      mk_field_class enum_is_default_nocase enum_is_equal_nocase get_enum put_enum_nocase enum_usage
        enum_describe_xml enum_check_nocase
  | fc_numeric =>
      mk_field_class numeric_is_default numeric_is_equal get_numeric put_numeric numeric_usage
        numeric_describe_xml numeric_check
  | fc_enum_num =>
      mk_field_class enum_num_is_default enum_num_is_equal get_enum_num put_enum_num enum_num_usage
        enum_num_describe_xml enum_num_check
  | fc_boolean =>
      mk_field_class boolean_is_default boolean_is_equal get_boolean put_boolean boolean_usage
        boolean_describe_xml boolean_check
  | fc_flag =>
      mk_field_class boolean_is_default boolean_is_equal get_boolean put_flag boolean_usage
        boolean_describe_xml boolean_check
  | fc_string =>
      mk_field_class string_is_default string_is_equal get_string put_string string_usage
        string_describe_xml string_check
  | fc_key_serial =>
      mk_field_class key_serial_is_default key_serial_is_equal get_key_serial put_key_serial
        key_serial_usage key_serial_describe_xml key_serial_check
  end.

Definition ops (field : field_def) : field_class := class_of (fd_ops field).

(** ** What the classes promise *)

(** The attribute at [nla] has this payload. *)
Definition has_payload (m : mem) (nla : Z) (d : list Z) : Prop :=
  nla_len m nla = Z.of_nat (length d) /\ payload m nla = d.

(** The operations do not tell the values [v] and [s] apart. *)
Definition same_value (c : class_name) (field : field_def) (v s : string) : Prop :=
  fc_is_equal (class_of c) field (Some v) (Some s) = Ok true /\
  fc_is_equal (class_of c) field (Some s) (Some v) = Ok true /\
  exists b, fc_is_default (class_of c) field (Some v) = Ok b /\ fc_is_default (class_of c) field (Some s) = Ok b.

(** A class of options works when a value that was accepted by [check] is put
    into a message as the payload [wire] tells (or not at all), if there is
    room, and when what [get] reads from this payload is a value that
    [is_equal] and [is_default] take for the one that was put. *)
Class WorkingClass (c : class_name) := {
  wf_field : context_def -> field_def -> Prop;
  canonical : field_def -> string -> Prop;
  wire : context_def -> field_def -> string -> option (list Z);
  put_wire ctx field v :
    wf_field ctx field -> canonical field v -> fc_check (class_of c) field (Some v) = Ok CC_OK ->
    fc_put (class_of c) ctx field (Some v) =
      match wire ctx field v with
      | Some d => nla_put (fd_nla_type field) (Z.of_nat (length d)) d;; mret true
      | None => mret true
      end;
  wire_bytes ctx field v d :
    wf_field ctx field -> canonical field v -> fc_check (class_of c) field (Some v) = Ok CC_OK ->
    wire ctx field v = Some d ->
    byte_list d /\ exists pt, policy_of_field ctx field = Ok pt /\
      forall m nla, has_payload m nla d -> validate_pt m nla pt = Ok 0;
  get_wire ctx field v d m nla :
    wf_field ctx field -> canonical field v -> fc_check (class_of c) field (Some v) = Ok CC_OK ->
    wire ctx field v = Some d -> has_payload m nla d ->
    exists s, fc_get (class_of c) ctx field m nla = Ok (Some s) /\ same_value c field v s
}.

Lemma has_payload_load m nla d (n : nat) : has_payload m nla d -> length d = n ->
  load_le n m (nla_data nla) = le_combine d.
Proof.
  intros [Hl Hp] <-. rewrite load_bytes_of. f_equal. rewrite <- Hl. exact Hp.
Qed.

Lemma has_payload_byte m nla d i b :
  has_payload m nla d -> d !! i = Some b -> m (nla_data nla + Z.of_nat i) = b.
Proof.
  intros [Hl Hp] Hi. pose proof (lookup_lt_Some _ _ _ Hi) as Hlt. rewrite <- Hp in Hi.
  unfold payload in Hi. rewrite bytes_of_lookup in Hi by lia. by injection Hi.
Qed.

Lemma bind_lift_ok {A A'} (a : A) (k : A -> B A') : lift_res (Ok a) ≫= k = k a.
Proof. done. Qed.

(** *** Enumerations *)

Lemma enum_search_range eq map k v :
  0 <= k -> enum_search eq map k v = - 1 \/ k <= enum_search eq map k v < k + Z.of_nat (length map).
Proof.
  revert k. induction map as [|name map IH]; intros k Hk; [by left|]. cbn [enum_search length].
  destruct name as [name|]; [destruct (eq v name); [right; lia|]|];
    (destruct (IH (k + 1)) as [->|]; [lia|by left|right; lia]).
Qed.

Lemma zlookup_cons {A} (x : A) l i : 0 <= i -> zlookup (x :: l) (i + 1) = zlookup l i.
Proof.
  intros Hi. unfold zlookup. rewrite !(proj2 (Z.ltb_ge _ 0)) by lia.
  by replace (Z.to_nat (i + 1)) with (S (Z.to_nat i)) by lia.
Qed.

Lemma enum_search_found eq map k v :
  0 <= k -> enum_search eq map k v <> - 1 ->
  exists name, zlookup map (enum_search eq map k v - k) = Some (Some name) /\ eq v name = true.
Proof.
  revert k. induction map as [|o map IH]; intros k Hk Hne; [done|]. cbn [enum_search] in *.
  destruct o as [name|]; [destruct (eq v name) eqn:He|].
  - exists name. by rewrite Z.sub_diag.
  - destruct (IH (k + 1)) as (x & Hx & Hex); [lia|done|]. exists x. split; [|done].
    destruct (enum_search_range eq map (k + 1) v) as [|Hr]; [lia|done|].
    replace (enum_search eq map (k + 1) v - k) with (enum_search eq map (k + 1) v - (k + 1) + 1) by lia.
    by rewrite zlookup_cons by lia.
  - destruct (IH (k + 1)) as (x & Hx & Hex); [lia|done|]. exists x. split; [|done].
    destruct (enum_search_range eq map (k + 1) v) as [|Hr]; [lia|done|].
    replace (enum_search eq map (k + 1) v - k) with (enum_search eq map (k + 1) v - (k + 1) + 1) by lia.
    by rewrite zlookup_cons by lia.
Qed.

Lemma number_policy_ok m nla d pt :
  (pt = mk_nla_policy NLA_U8 0 /\ length d = 1%nat \/ pt = mk_nla_policy NLA_U16 0 /\ length d = 2%nat \/
   pt = mk_nla_policy NLA_U32 0 /\ length d = 4%nat \/ pt = mk_nla_policy NLA_U64 0 /\ length d = 8%nat) ->
  has_payload m nla d -> validate_pt m nla pt = Ok 0.
Proof.
  intros Hpt [Hl _]. unfold validate_pt. rewrite Hl.
  destruct Hpt as [[-> ->]|[[-> ->]|[[-> ->]|[-> ->]]]]; done.
Qed.

Section Enums.
Context (eq : string -> string -> bool).
Hypothesis eq_sym : forall a b, eq a b = true -> eq b a = true.
Hypothesis eq_trans : forall a b c, eq a b = true -> eq b c = true -> eq a c = true.

Lemma enum_search_equal map k v s : eq v s = true -> enum_search eq map k v = enum_search eq map k s.
Proof using eq_sym eq_trans.
  intros Hvs. revert k. induction map as [|[name|] map IH]; intros k; cbn [enum_search]; [done| |done].
  assert (eq v name = eq s name) as ->; [|by rewrite IH].
  apply eq_true_iff_eq. split; eauto.
Qed.

Definition enum_wf (ctx : context_def) (field : field_def) : Prop :=
  exists map def, fd_u field = U_e map def /\ Z.of_nat (length map) < 2 ^ 31 /\
    policy_of_field ctx field = Ok (mk_nla_policy NLA_U32 0).

Definition enum_wire (field : field_def) (v : string) : option (list Z) :=
  match fd_u field with U_e map _ => Some (le_split 4 (enum_search eq map 0 v)) | _ => None end.

Lemma enum_accepted ctx field v :
  enum_wf ctx field -> enum_check_by eq field (Some v) = Ok CC_OK ->
  exists map def name, fd_u field = U_e map def /\ policy_of_field ctx field = Ok (mk_nla_policy NLA_U32 0) /\
    0 <= enum_search eq map 0 v < Z.of_nat (length map) /\ Z.of_nat (length map) < 2 ^ 31 /\
    zlookup map (enum_search eq map 0 v) = Some (Some name) /\ eq v name = true.
Proof.
  intros (map & def & Hu & Hlen & Hp) Hc. unfold enum_check_by, u_e in Hc. rewrite Hu in Hc. cbn in Hc.
  destruct (Z.eqb_spec (enum_search eq map 0 v) (- 1)) as [|Hne]; [done|].
  destruct (enum_search_range eq map 0 v) as [|Hr]; [done..|].
  destruct (enum_search_found eq map 0 v) as (name & Hn & He); [done..|].
  rewrite Z.sub_0_r in Hn. exists map, def, name. split_and!; done || lia.
Qed.

Lemma enum_put_wire ctx field v :
  enum_wf ctx field -> enum_check_by eq field (Some v) = Ok CC_OK ->
  put_enum_by eq ctx field (Some v) =
    match enum_wire field v with
    | Some d => nla_put (fd_nla_type field) (Z.of_nat (length d)) d;; mret true
    | None => mret true
    end.
Proof.
  intros Hwf Hc. destruct (enum_accepted ctx field v Hwf Hc) as (map & def & name & Hu & Hp & Hr & _).
  unfold put_enum_by, u_e, enum_wire, assert_type, type_of_field. rewrite Hu, Hp, bind_lift_ok.
  unfold enum_string_to_int. rewrite (proj2 (Z.eqb_neq (enum_search eq map 0 v) _)) by lia. done.
Qed.

Lemma enum_wire_ok ctx field v d :
  enum_wf ctx field -> enum_check_by eq field (Some v) = Ok CC_OK -> enum_wire field v = Some d ->
  byte_list d /\ exists pt, policy_of_field ctx field = Ok pt /\
    forall m nla, has_payload m nla d -> validate_pt m nla pt = Ok 0.
Proof.
  intros Hwf Hc. destruct (enum_accepted ctx field v Hwf Hc) as (map & def & name & Hu & Hp & _).
  unfold enum_wire. rewrite Hu. intros [= <-]. split; [apply (le_split_bytes 4)|].
  eexists. split; [done|]. intros m nla Hm. eapply number_policy_ok; [|done]. auto 10.
Qed.

Lemma enum_get_wire ctx field v d m nla :
  enum_wf ctx field -> enum_check_by eq field (Some v) = Ok CC_OK -> enum_wire field v = Some d ->
  has_payload m nla d ->
  exists s, get_enum ctx field m nla = Ok (Some s) /\ eq v s = true /\
    exists b, enum_is_default_by eq field (Some v) = Ok b /\ enum_is_default_by eq field (Some s) = Ok b.
Proof using eq_sym eq_trans.
  intros Hwf Hc. destruct (enum_accepted ctx field v Hwf Hc) as (map & def & name & Hu & Hp & Hr & Hlen & Hn & He).
  unfold enum_wire. rewrite Hu. intros Hd Hm. apply (inj Some) in Hd as <-. exists name. split; [|split; [done|]].
  2: { unfold enum_is_default_by, u_e. rewrite Hu. cbn -[enum_search].
       rewrite (enum_search_equal map 0 name v); [by eexists|by apply eq_sym]. }
  unfold get_enum, assert_type, type_of_field, u_e. rewrite Hu, Hp. cbn -[enum_search Z.eqb Z.ltb Z.leb s32 nla_get_u32].
  unfold nla_get_u32. rewrite (has_payload_load _ _ _ 4 Hm) by done.
  rewrite le_combine_split. change (256 ^ Z.of_nat 4) with (2 ^ 32).
  rewrite Z.mod_small, s32_id by solve_int.
  rewrite (proj2 (Z.ltb_ge (enum_search eq map 0 v) 0)), (proj2 (Z.leb_gt _ (enum_search eq map 0 v))) by lia.
  by rewrite Hn.
Qed.
End Enums.

#[export, refine] Instance working_enum : WorkingClass fc_enum := {
  wf_field := enum_wf; canonical _ _ := True; wire _ := enum_wire streq
}.
Proof.
  - intros ctx field v Hwf _ Hc. by apply enum_put_wire.
  - intros ctx field v d Hwf _ Hc. by apply enum_wire_ok.
  - intros ctx field v d m nla Hwf _ Hc Hw Hm.
    destruct (enum_get_wire streq streq_sym streq_trans ctx field v d m nla Hwf Hc Hw Hm) as (s & Hg & He & Hd).
    exists s. split; [exact Hg|]. unfold same_value, class_of, fc_is_equal, fc_is_default, enum_is_equal, compare_strings, enum_is_default.
    by rewrite He, (streq_sym _ _ He).
Defined.

#[export, refine] Instance working_enum_nocase : WorkingClass fc_enum_nocase := {
  wf_field := enum_wf; canonical _ _ := True; wire _ := enum_wire strcaseeq
}.
Proof.
  - intros ctx field v Hwf _ Hc. by apply enum_put_wire.
  - intros ctx field v d Hwf _ Hc. by apply enum_wire_ok.
  - intros ctx field v d m nla Hwf _ Hc Hw Hm.
    destruct (enum_get_wire strcaseeq strcaseeq_sym strcaseeq_trans ctx field v d m nla Hwf Hc Hw Hm) as (s & Hg & He & Hd).
    exists s. split; [exact Hg|]. unfold same_value, class_of, fc_is_equal, fc_is_default, enum_is_equal_nocase, compare_strings, enum_is_default_nocase.
    by rewrite He, (strcaseeq_sym _ _ He).
Defined.

(** *** Numbers *)

Definition plain_scales : list ascii := ["1"; "K"; "k"; "s"; ascii_of_nat 0]%char.

Lemma plain_scale_cases scale :
  scale ∈ plain_scales ->
  scale_suffix scale = "" /\ def_unit_shift scale = Some 0 \/
  exists d, scale_suffix scale = String scale "" /\ ends_number 10 (String scale "") = true /\
    def_unit_shift scale = Some (- d) /\ unit_shift scale = Some d.
Proof.
  intros Hs. unfold plain_scales in Hs. rewrite !elem_of_cons, elem_of_nil in Hs.
  destruct Hs as [->|[->|[->|[->|[->|[]]]]]]; [by left|right; by exists 10|right; by exists 10|right; by exists 9|by left].
Qed.

(** What [get_numeric] prints is read back by [new_strtoll]. *)
Lemma new_strtoll_shown scale l :
  scale ∈ plain_scales -> in_u64 l ->
  new_strtoll (show_u l (scale_suffix scale)) scale = (MSE_OK, l).
Proof.
  intros Hs Hl. unfold new_strtoll.
  destruct (plain_scale_cases scale Hs) as [[-> ->]|(d & -> & He & -> & Hd)];
    rewrite scanf_show_u by done;
    match goal with |- context [show_u l ?r] => destruct (show_u_cons l r) as (c & s & ->) end; [done|].
  rewrite Hd. replace (- d + d) with 0 by lia. cbn [Z.ltb Z.compare].
  rewrite Z.shiftr_0_r, Z.shiftl_0_r, u64_id by done.
  by rewrite (proj2 (Z.ltb_ge _ l)) by solve_int.
Qed.

Lemma le_split_s64 n l : (n <= 8)%nat -> le_split n (s64 l) = le_split n l.
Proof.
  intros Hn. rewrite <- (le_split_mod n (s64 l)), <- (le_split_mod n l). f_equal. unfold s64.
  pose proof (Z.div_mod (l + 2 ^ 63) (2 ^ 64)).
  replace ((l + 2 ^ 63) mod 2 ^ 64 - 2 ^ 63) with (l + - ((l + 2 ^ 63) / 2 ^ 64) * 2 ^ 64) by lia.
  assert (2 ^ 64 = 256 ^ Z.of_nat (8 - n) * 256 ^ Z.of_nat n) as ->.
  { rewrite <- Z.pow_add_r by lia. replace (Z.of_nat (8 - n) + Z.of_nat n) with 8 by lia. done. }
  rewrite Z.mul_assoc, Z.mod_add; [done|]. apply Z.pow_nonzero; lia.
Qed.

(** The bytes of an attribute type. *)
Definition number_width (t : Z) : option nat :=
  if t =? NLA_U8 then Some 1%nat else if t =? NLA_U16 then Some 2%nat
  else if t =? NLA_U32 then Some 4%nat else if t =? NLA_U64 then Some 8%nat else None.

Definition numeric_wf (ctx : context_def) (field : field_def) : Prop :=
  exists min max def scale t n, fd_u field = U_n min max def false scale /\
    implicit_clamp field = false /\ scale ∈ plain_scales /\ number_width t = Some n /\
    u64 max < 256 ^ Z.of_nat n /\ policy_of_field ctx field = Ok (mk_nla_policy t 0).

Definition numeric_wire (ctx : context_def) (field : field_def) (v : string) : option (list Z) :=
  match fd_u field, policy_of_field ctx field with
  | U_n _ _ _ _ scale, Ok pt =>
      n ← number_width (pt_type pt); Some (le_split n (new_strtoll v scale).2)
  | _, _ => None
  end.

Lemma number_width_cases t n :
  number_width t = Some n ->
  t = NLA_U8 /\ n = 1%nat \/ t = NLA_U16 /\ n = 2%nat \/ t = NLA_U32 /\ n = 4%nat \/ t = NLA_U64 /\ n = 8%nat.
Proof.
  unfold number_width.
  destruct (Z.eqb_spec t NLA_U8), (Z.eqb_spec t NLA_U16), (Z.eqb_spec t NLA_U32), (Z.eqb_spec t NLA_U64);
    intros [= <-]; tauto.
Qed.

Lemma numeric_accepted ctx field v :
  numeric_wf ctx field -> numeric_check field (Some v) = Ok CC_OK ->
  exists min max def scale t n l, fd_u field = U_n min max def false scale /\ scale ∈ plain_scales /\
    number_width t = Some n /\ policy_of_field ctx field = Ok (mk_nla_policy t 0) /\
    new_strtoll v scale = (MSE_OK, l) /\ 0 <= l < 256 ^ Z.of_nat n /\ in_u64 l.
Proof.
  intros (min & max & def & scale & t & n & Hu & Hcl & Hs & Hn & Hmax & Hp) Hc.
  unfold numeric_check, u_n in Hc. rewrite Hu in Hc. cbn in Hc.
  destruct (new_strtoll v scale) as [e l] eqn:Hv. rewrite Hcl in Hc. cbn [negb] in Hc.
  rewrite !andb_true_r in Hc. destruct (bool_decide (e = MSE_OK)) eqn:He; cbn [negb] in Hc; [|done].
  apply bool_decide_eq_true in He as ->.
  destruct (Z.ltb_spec l (u64 min)); [done|]. destruct (Z.ltb_spec (u64 max) l); [done|].
  pose proof (u64_range min). pose proof (u64_range max).
  exists min, max, def, scale, t, n, l. split_and!; try done; solve_int.
Qed.

Lemma numeric_value_ok v scale l :
  new_strtoll v scale = (MSE_OK, l) -> numeric_value (Some v) scale = Ok (s64 l).
Proof. intros Hv. unfold numeric_value, m_strtoll_res, m_strtoll. by rewrite Hv. Qed.

Lemma type_of_field_ok ctx field pt :
  policy_of_field ctx field = Ok pt -> type_of_field ctx field = Ok (pt_type pt).
Proof. intros Hp. unfold type_of_field. by rewrite Hp. Qed.

Lemma numeric_put_wire ctx field v :
  numeric_wf ctx field -> numeric_check field (Some v) = Ok CC_OK ->
  put_numeric ctx field (Some v) =
    match numeric_wire ctx field v with
    | Some d => nla_put (fd_nla_type field) (Z.of_nat (length d)) d;; mret true
    | None => mret true
    end.
Proof.
  intros Hwf Hc.
  destruct (numeric_accepted ctx field v Hwf Hc) as (min & max & def & scale & t & n & l & Hu & Hs & Hn & Hp & Hv & _).
  unfold put_numeric, numeric_wire, u_n. rewrite Hu, Hp, Hv, bind_lift_ok.
  rewrite (numeric_value_ok v scale l), bind_lift_ok by done.
  rewrite (type_of_field_ok _ _ _ Hp), bind_lift_ok. cbn [pt_type snd]. rewrite Hn. destruct (number_width_cases t n Hn) as [[-> ->]|[[-> ->]|[[-> ->]|[-> ->]]]];
    unfold nla_put_u8, nla_put_u16, nla_put_u32, nla_put_u64; rewrite !le_split_s64 by lia; reflexivity.
Qed.

Lemma numeric_wire_ok ctx field v d :
  numeric_wf ctx field -> numeric_check field (Some v) = Ok CC_OK -> numeric_wire ctx field v = Some d ->
  byte_list d /\ exists pt, policy_of_field ctx field = Ok pt /\
    forall m nla, has_payload m nla d -> validate_pt m nla pt = Ok 0.
Proof.
  intros Hwf Hc.
  destruct (numeric_accepted ctx field v Hwf Hc) as (min & max & def & scale & t & n & l & Hu & Hs & Hn & Hp & Hv & _).
  unfold numeric_wire. rewrite Hu, Hp. cbn [pt_type]. rewrite Hn. intros Hd. apply (inj Some) in Hd as <-.
  split; [apply le_split_bytes|]. eexists. split; [done|]. intros m nla Hm.
  eapply number_policy_ok; [|done]. rewrite length_le_split.
  destruct (number_width_cases t n Hn) as [[-> ->]|[[-> ->]|[[-> ->]|[-> ->]]]]; tauto.
Qed.

Lemma get_numeric_raw_payload t n m nla x :
  number_width t = Some n -> has_payload m nla (le_split n x) ->
  exists w, get_numeric_raw t m nla = Ok (Some (w, x mod 256 ^ Z.of_nat n)).
Proof.
  intros Hn Hm. pose proof (has_payload_load _ _ _ n Hm (length_le_split n x)) as Hl.
  rewrite le_combine_split in Hl. destruct Hm as [Hlen _]. rewrite length_le_split in Hlen.
  destruct (number_width_cases t n Hn) as [[-> ->]|[[-> ->]|[[-> ->]|[-> ->]]]];
    unfold get_numeric_raw, nla_get_u8, nla_get_u16, nla_get_u32, nla_get_u64; eexists; cbn [Z.eqb]; try (by rewrite <- Hl).
  rewrite Hlen. cbn [Z.ltb]. rewrite <- Hl. rewrite load_copy by (done || lia). done.
Qed.

Lemma numeric_get_wire ctx field v d m nla :
  numeric_wf ctx field -> numeric_check field (Some v) = Ok CC_OK -> numeric_wire ctx field v = Some d ->
  has_payload m nla d ->
  exists s, get_numeric ctx field m nla = Ok (Some s) /\ same_value fc_numeric field v s.
Proof.
  intros Hwf Hc.
  destruct (numeric_accepted ctx field v Hwf Hc) as (min & max & def & scale & t & n & l & Hu & Hs & Hn & Hp & Hv & Hl & Hl64).
  unfold numeric_wire. rewrite Hu, Hp. cbn [pt_type]. rewrite Hn. intros Hd Hm. apply (inj Some) in Hd as <-.
  rewrite Hv in Hm. cbn [snd] in Hm.
  destruct (get_numeric_raw_payload t n m nla l Hn Hm) as [w Hraw]. rewrite Z.mod_small in Hraw by done.
  exists (show_u l (scale_suffix scale)).
  unfold get_numeric, same_value. cbn [class_of fc_is_equal fc_is_default].
  unfold numeric_is_equal, numeric_is_default, u_n. rewrite Hu, (type_of_field_ok _ _ _ Hp).
  cbn [mbind res_bind pt_type mret res_ret]. rewrite Hraw. split; [done|].
  rewrite (numeric_value_ok v scale l), (numeric_value_ok _ scale l) by (done || by apply new_strtoll_shown).
  cbn [mbind res_bind]. rewrite Z.eqb_refl. eauto.
Qed.

#[export, refine] Instance working_numeric : WorkingClass fc_numeric := {
  wf_field := numeric_wf; canonical _ _ := True; wire := numeric_wire
}.
Proof.
  - intros ctx field v Hwf _ Hc. by apply numeric_put_wire.
  - intros ctx field v d Hwf _ Hc. by apply numeric_wire_ok.
  - intros ctx field v d m nla Hwf _ Hc. by apply numeric_get_wire.
Defined.

(** *** Booleans and flags *)

Definition boolean_wf (ctx : context_def) (field : field_def) : Prop :=
  policy_of_field ctx field = Ok (mk_nla_policy NLA_U8 0) /\ exists def, fd_u field = U_b def.

Lemma boolean_accepted field v :
  boolean_check field (Some v) = Ok CC_OK -> v = "yes" \/ v = "no".
Proof.
  unfold boolean_check, boolean_string_to_int, streq.
  destruct (String.eqb_spec v "yes"), (String.eqb_spec v "no"); auto. done.
Qed.

Lemma boolean_bytes_ok ctx field v :
  boolean_wf ctx field -> v = "yes" \/ v = "no" ->
  byte_list [boolean_string_to_int (Some v)] /\ exists pt, policy_of_field ctx field = Ok pt /\
    forall m nla, has_payload m nla [boolean_string_to_int (Some v)] -> validate_pt m nla pt = Ok 0.
Proof.
  intros [Hwf _] Hv. split; [destruct Hv as [->| ->]; repeat constructor; done|].
  eexists. split; [exact Hwf|]. intros m nla Hm. eapply number_policy_ok; [|exact Hm]. auto.
Qed.

Lemma get_boolean_bytes ctx field v m nla :
  boolean_wf ctx field -> v = "yes" \/ v = "no" -> has_payload m nla [boolean_string_to_int (Some v)] ->
  exists s, get_boolean ctx field m nla = Ok (Some s) /\
    boolean_is_equal field (Some v) (Some s) = Ok true /\ boolean_is_equal field (Some s) (Some v) = Ok true /\
    exists b, boolean_is_default field (Some v) = Ok b /\ boolean_is_default field (Some s) = Ok b.
Proof.
  intros [Hwf [def Hu]] Hv Hm. exists v. split.
  2: { unfold boolean_is_equal, boolean_is_default, u_b. rewrite Z.eqb_refl, Hu. eauto. }
  unfold get_boolean, assert_type. rewrite (type_of_field_ok _ _ _ Hwf).
  unfold nla_get_u8. rewrite (has_payload_load _ _ _ 1 Hm) by done. by destruct Hv as [->| ->].
Qed.

#[export, refine] Instance working_boolean : WorkingClass fc_boolean := {
  wf_field := boolean_wf; canonical _ _ := True;
  wire _ _ v := Some [boolean_string_to_int (Some v)]
}.
Proof.
  - intros ctx field v [Hwf _] _ Hc%boolean_accepted. cbn [fc_put class_of]. unfold put_boolean, assert_type.
    rewrite (type_of_field_ok _ _ _ Hwf). by destruct Hc as [->| ->].
  - intros ctx field v d Hwf _ Hc%boolean_accepted [= <-]. by apply boolean_bytes_ok.
  - intros ctx field v d m nla Hwf _ Hc%boolean_accepted [= <-]. by apply get_boolean_bytes.
Defined.

(** A flag that is off is not put at all. *)
#[export, refine] Instance working_flag : WorkingClass fc_flag := {
  wf_field := boolean_wf; canonical _ _ := True;
  wire _ _ v := if streq v "yes" then Some [boolean_string_to_int (Some v)] else None
}.
Proof.
  - intros ctx field v [Hwf _] _ Hc%boolean_accepted. cbn [fc_put class_of]. unfold put_flag, assert_type.
    rewrite (type_of_field_ok _ _ _ Hwf). by destruct Hc as [->| ->].
  - intros ctx field v d Hwf _ Hc%boolean_accepted Hw. destruct (streq v "yes"); [|done].
    injection Hw as <-. by apply boolean_bytes_ok.
  - intros ctx field v d m nla Hwf _ Hc%boolean_accepted Hw. destruct (streq v "yes"); [|done].
    injection Hw as <-. by apply get_boolean_bytes.
Defined.

(** *** Strings *)

(** No character of a C string is NUL. *)
Definition c_string (s : string) : Prop := 0 ∉ codes s.

Lemma length_codes s : length (codes s) = String.length s.
Proof. induction s as [|c s IH]; [done|]. cbn. by rewrite IH. Qed.

Lemma char_of_code c : char_of (code c) = c.
Proof. unfold char_of, code. by rewrite Nat2Z.id, ascii_nat_embedding. Qed.

Lemma codes_bytes s : byte_list (codes s).
Proof.
  induction s as [|c s IH]; constructor; [|done]. unfold code. pose proof (nat_ascii_bounded c). lia.
Qed.

Lemma read_codes n m a s :
  c_string s -> (String.length s < n)%nat ->
  (forall i b, (codes s ++ [0]) !! i = Some b -> m (a + Z.of_nat i) = b) ->
  read_cstring n m a = Some s.
Proof.
  revert n a. induction s as [|c s IH]; intros n a Hs Hn Hm.
  - destruct n; [cbn in Hn; lia|]. cbn. pose proof (Hm 0%nat 0 eq_refl) as H0.
    replace (a + Z.of_nat 0) with a in H0 by lia. by rewrite H0.
  - destruct n as [|n]; [cbn in Hn; lia|]. cbn [read_cstring].
    pose proof (Hm 0%nat (code c) eq_refl) as H0. replace (a + Z.of_nat 0) with a in H0 by lia.
    unfold c_string in *. cbn [codes] in Hs. apply not_elem_of_cons in Hs as [Hc Hs].
    rewrite H0, (proj2 (Z.eqb_neq _ 0)) by done. rewrite (IH n); [|done|cbn in Hn; lia|].
    + cbn. by rewrite char_of_code.
    + intros i b Hi. rewrite <- (Hm (S i) b Hi). f_equal. lia.
Qed.

Definition string_wf (ctx : context_def) (field : field_def) : Prop :=
  exists max_len len, fd_u field = U_s max_len /\ 0 < max_len <= len + 1 /\
    policy_of_field ctx field = Ok (mk_nla_policy NLA_NUL_STRING len).

Lemma string_accepted ctx field v :
  string_wf ctx field -> string_check field (Some v) = Ok CC_OK ->
  exists len, policy_of_field ctx field = Ok (mk_nla_policy NLA_NUL_STRING len) /\
    Z.of_nat (String.length v) <= len.
Proof.
  intros (max_len & len & Hu & Hlen & Hp) Hc. exists len. split; [done|].
  unfold string_check, u_s in Hc. rewrite Hu in Hc. cbn in Hc. unfold truth in Hc.
  rewrite (proj2 (Z.eqb_neq max_len 0)) in Hc by lia. cbn in Hc.
  destruct (Z.leb_spec max_len (Z.of_nat (String.length v))); [done|lia].
Qed.

Lemma nul_string_ok m nla s len :
  Z.of_nat (String.length s) <= len -> has_payload m nla (codes s ++ [0]) ->
  validate_pt m nla (mk_nla_policy NLA_NUL_STRING len) = Ok 0.
Proof.
  intros Hlen Hm. pose proof Hm as [Hl _]. rewrite length_app, length_codes in Hl. cbn [length] in Hl.
  assert (m (nla_data nla + Z.of_nat (String.length s)) = 0) as Hz.
  { apply (has_payload_byte _ _ _ _ _ Hm). rewrite <- length_codes. by apply list_lookup_middle. }
  unfold validate_pt. rewrite Hl. cbn [pt_type pt_len].
  change (NLA_TYPE_MAX <? NLA_NUL_STRING) with false. change (NLA_NUL_STRING =? NLA_FLAG) with false.
  change (NLA_NUL_STRING =? NLA_NUL_STRING) with true. cbv iota.
  set (k := Z.of_nat (String.length s)) in *.
  replace (Z.of_nat (String.length s + 1)%nat) with (k + 1) by lia.
  assert (validate_nul m nla (k + 1) (mk_nla_policy NLA_NUL_STRING len) = true) as ->.
  { unfold validate_nul, truth. cbn [pt_len].
    assert (forall n, k + 1 <= n -> negb (n =? 0) && memchr m (nla_data nla) 0 n = true) as Hn.
    { intros n Hn. apply andb_true_iff. split; [apply negb_true_iff, Z.eqb_neq; lia|].
      apply memchr_spec. exists (nla_data nla + k). split; [lia|done]. }
    destruct (len =? 0); cbn [negb]; apply Hn; lia. }
  unfold validate_string, truth. cbn [pt_len]. rewrite (proj2 (Z.ltb_ge _ 1)) by lia.
  destruct (len =? 0); cbn [negb]; [done|].
  replace (nla_data nla + (k + 1) - 1) with (nla_data nla + k) by lia. rewrite Hz. cbn [Z.eqb].
  by rewrite (proj2 (Z.ltb_ge len _)) by lia.
Qed.

(** The length of a string is an [int]. *)
#[export, refine] Instance working_string : WorkingClass fc_string := {
  wf_field ctx field := string_wf ctx field;
  canonical _ v := c_string v /\ Z.of_nat (String.length v) < 2 ^ 31 - 1;
  wire _ _ v := Some (codes v ++ [0])
}.
Proof.
  - intros ctx field v Hwf [_ Hv] Hc. destruct (string_accepted ctx field v Hwf Hc) as (len & Hp & _).
    cbn [fc_put class_of]. unfold put_string, assert_type. rewrite (type_of_field_ok _ _ _ Hp).
    unfold nla_put_string. rewrite length_app, length_codes. cbn [length].
    rewrite s32_id by solve_int. by replace (Z.of_nat (String.length v + 1)%nat) with (Z.of_nat (String.length v) + 1) by lia.
  - intros ctx field v d Hwf _ Hc Hd. apply (inj Some) in Hd as <-.
    destruct (string_accepted ctx field v Hwf Hc) as (len & Hp & Hlen).
    split; [apply Forall_app_2; [apply codes_bytes|by repeat constructor]|].
    eexists. split; [exact Hp|]. intros m nla. by apply nul_string_ok.
  - intros ctx field v d m nla Hwf [Hv _] Hc Hd Hm. apply (inj Some) in Hd as <-.
    destruct (string_accepted ctx field v Hwf Hc) as (len & Hp & Hlen). exists v.
    split; [|split_and!; [exact (f_equal Ok (streq_refl v))..|by eexists]]. cbn [fc_get class_of].
    unfold get_string, assert_type, len_of_field. rewrite (type_of_field_ok _ _ _ Hp), Hp.
    cbn [mbind res_bind mret res_ret pt_type pt_len]. change (NLA_NUL_STRING =? NLA_NUL_STRING) with true.
    cbn [assert_res mbind res_bind]. rewrite (read_codes _ _ _ v); [done|done|lia|].
    intros i b Hi. by apply (has_payload_byte _ _ _ _ _ Hm).
Defined.

(** *** Numbers with names *)

Definition enum_num_wf (ctx : context_def) (field : field_def) : Prop :=
  exists map min max def, fd_u field = U_en map min max def /\ 0 <= min /\ max < 2 ^ 31 /\
    Forall (fun e => 0 <= e.2 < 2 ^ 31) map /\ policy_of_field ctx field = Ok (mk_nla_policy NLA_U32 0).

(** A value that is written the way [enum_num_to_string] writes it: options of
    this class are compared as strings. *)
Definition enum_num_canonical (field : field_def) (v : string) : Prop :=
  match fd_u field with
  | U_en map _ _ _ => enum_num_to_string map (enum_num_to_int map (Some v)).1 = v
  | _ => True
  end.

Definition enum_num_wire (field : field_def) (v : string) : option (list Z) :=
  match fd_u field with
  | U_en map _ _ _ => Some (le_split 4 (enum_num_to_int map (Some v)).1)
  | _ => None
  end.

Lemma enum_num_accepted ctx field v :
  enum_num_wf ctx field -> enum_num_check field (Some v) = Ok CC_OK ->
  exists map min max def, fd_u field = U_en map min max def /\
    policy_of_field ctx field = Ok (mk_nla_policy NLA_U32 0) /\
    0 <= (enum_num_to_int map (Some v)).1 < 2 ^ 31.
Proof.
  intros (map & min & max & def & Hu & Hmin & Hmax & Hmap & Hp) Hc.
  exists map, min, max, def. split; [done|]. split; [done|].
  unfold enum_num_check, u_en in Hc. rewrite Hu in Hc. cbn [mbind res_bind] in Hc.
  destruct (enum_num_to_int map (Some v)) as [n e] eqn:Hn. cbn [fst].
  destruct ((n =? - 1) && _); [done|]. destruct (bool_decide (e = None)) eqn:He.
  - apply bool_decide_eq_true in He as ->. unfold enum_num_to_int in Hn.
    destruct (List.find _ _) as [[name k]|] eqn:Hf; [|by destruct (new_strtoll _ _)].
    injection Hn as <-. apply find_some in Hf as [Hin%list_elem_of_In _].
    rewrite Forall_forall in Hmap. apply (Hmap _ Hin).
  - destruct (Z.ltb_spec n min); [done|]. destruct (Z.ltb_spec max n); [done|lia].
Qed.

#[export, refine] Instance working_enum_num : WorkingClass fc_enum_num := {
  wf_field := enum_num_wf; canonical := enum_num_canonical; wire _ := enum_num_wire
}.
Proof.
  - intros ctx field v Hwf _ Hc.
    destruct (enum_num_accepted ctx field v Hwf Hc) as (map & min & max & def & Hu & Hp & Hr).
    cbn [fc_put class_of]. unfold put_enum_num, enum_num_wire, u_en, assert_type.
    rewrite Hu, bind_lift_ok, (type_of_field_ok _ _ _ Hp).
    by rewrite (proj2 (Z.eqb_neq (enum_num_to_int map (Some v)).1 _)) by lia.
  - intros ctx field v d Hwf _ Hc.
    destruct (enum_num_accepted ctx field v Hwf Hc) as (map & min & max & def & Hu & Hp & Hr).
    unfold enum_num_wire. rewrite Hu. intros Hd. apply (inj Some) in Hd as <-.
    split; [apply (le_split_bytes 4)|]. eexists. split; [exact Hp|]. intros m nla Hm.
    eapply number_policy_ok; [|exact Hm]. auto 10.
  - intros ctx field v d m nla Hwf Hcan Hc.
    destruct (enum_num_accepted ctx field v Hwf Hc) as (map & min & max & def & Hu & Hp & Hr).
    unfold enum_num_wire. rewrite Hu. intros Hd Hm. apply (inj Some) in Hd as <-. exists v.
    split; [|split_and!; [exact (f_equal Ok (streq_refl v))..|cbn; unfold enum_num_is_default, u_en; rewrite Hu; by eexists]].
    cbn [fc_get class_of]. unfold get_enum_num, assert_type, u_en. rewrite (type_of_field_ok _ _ _ Hp), Hu.
    unfold nla_get_u32. rewrite (has_payload_load _ _ _ 4 Hm) by done.
    rewrite le_combine_split. change (256 ^ Z.of_nat 4) with (2 ^ 32). rewrite Z.mod_small, s32_id by solve_int.
    unfold enum_num_canonical in Hcan. rewrite Hu in Hcan. cbn [mbind res_bind pt_type].
    change (NLA_U32 =? NLA_U32) with true. cbn [assert_res mbind res_bind]. by rewrite Hcan.
Defined.

(** Which values are canonical: names that are not shared, and decimal numbers
    without leading zeros that have no name. *)
Lemma enum_num_name_canonical field map min max def v n :
  fd_u field = U_en map min max def ->
  List.find (fun e => streq v e.1) map = Some (v, n) ->
  List.find (fun e => n =? e.2) map = Some (v, n) -> enum_num_canonical field v.
Proof.
  intros Hu H1 H2. unfold enum_num_canonical, enum_num_to_int, enum_num_to_string.
  rewrite Hu, H1. cbn [fst]. by rewrite H2.
Qed.

Lemma enum_num_number_canonical field map min max def n :
  fd_u field = U_en map min max def -> 0 <= n < 2 ^ 31 ->
  List.find (fun e => streq (show_d n "") e.1) map = None ->
  List.find (fun e => n =? e.2) map = None -> enum_num_canonical field (show_d n "").
Proof.
  intros Hu Hn H1 H2. unfold enum_num_canonical, enum_num_to_int, enum_num_to_string.
  rewrite Hu, H1. unfold show_d. rewrite (proj2 (Z.ltb_ge n 0)) by lia.
  unfold new_strtoll. change (def_unit_shift (ascii_of_nat 1)) with (Some 0). cbv iota.
  rewrite scanf_show_u by (done || solve_int). destruct (show_u_cons n "") as (c & s & Hs). rewrite Hs.
  cbn [fst]. rewrite bool_decide_eq_true_2, s32_id by (done || solve_int).
  by rewrite H2, (proj2 (Z.ltb_ge n 0)), Hs by lia.
Qed.

(** Other spellings of a number are accepted, but are not equal to what the
    tools show for them: an option that is set to 02 always differs. *)
Lemma enum_num_spelling field min max def :
  fd_u field = U_en [] min max def -> min <= 2 <= max ->
  enum_num_check field (Some "02") = Ok CC_OK /\
  enum_num_to_string [] (enum_num_to_int [] (Some "02")).1 = "2" /\
  enum_num_is_equal field (Some "2") (Some "02") = Ok false.
Proof.
  intros Hu Hr. split_and!; try done. unfold enum_num_check, u_en. rewrite Hu. cbn [mbind res_bind].
  change (enum_num_to_int [] (Some "02")) with (2, Some MSE_OK). cbv beta iota.
  by rewrite (proj2 (Z.ltb_ge 2 min)), (proj2 (Z.ltb_ge max 2)) by lia.
Qed.

(** A number is cut to 32 bits before it is compared with the bounds. *)
Lemma enum_num_truncates field min max def :
  fd_u field = U_en [] min max def -> min <= 1 <= max ->
  enum_num_check field (Some "4294967297") = Ok CC_OK.
Proof.
  intros Hu Hr. unfold enum_num_check, u_en. rewrite Hu. cbn [mbind res_bind].
  change (enum_num_to_int [] (Some "4294967297")) with (1, Some MSE_OK). cbv beta iota.
  by rewrite (proj2 (Z.ltb_ge 1 min)), (proj2 (Z.ltb_ge max 1)) by lia.
Qed.

(** A field with a negative minimum accepts no value at all, since the value
    and the bounds are compared as unsigned numbers. *)
Lemma negative_minimum_refuses field min max def is_signed scale v :
  fd_u field = U_n min max def is_signed scale -> - 2 ^ 63 <= min < 0 -> 0 <= max < 2 ^ 63 ->
  implicit_clamp field = false -> numeric_check field v <> Ok CC_OK.
Proof.
  intros Hu Hmin Hmax Hcl. unfold numeric_check, u_n. rewrite Hu, Hcl. cbn [mbind res_bind negb].
  assert (u64 min = min + 2 ^ 64) as ->.
  { unfold u64. symmetry. apply Z.mod_unique with (-1); lia. }
  rewrite (u64_id max) by solve_int.
  destruct (match v with Some s => _ | None => _ end) as [e l].
  destruct (bool_decide _); cbn [negb]; [|done]. rewrite !andb_true_r.
  destruct (Z.ltb_spec l (min + 2 ^ 64)); [done|]. by rewrite (proj2 (Z.ltb_lt max l)) by lia.
Qed.

(** *** Keys *)

#[export, refine] Instance working_key_serial : WorkingClass fc_key_serial := {
  wf_field ctx field := policy_of_field ctx field = Ok (mk_nla_policy NLA_U32 0);
  canonical _ _ := True;
  wire _ _ _ := Some [0; 0; 0; 0]
}.
Proof.
  - done.
  - intros ctx field v d Hwf _ _ [= <-]. split; [by repeat constructor|].
    eexists. split; [exact Hwf|]. intros m nla Hm. eapply number_policy_ok; [|exact Hm]. auto 10.
  - intros ctx field v d m nla _ _ _ _ _. exists "". split; [done|]. split_and!; [done..|]. by exists true.
Defined.

(** *** Quoting *)

Lemma unescape_plain c s :
  Ascii.eqb c QUOTE = false -> Ascii.eqb c BACKSLASH = false -> unescape (String c s) = String c (unescape s).
Proof. intros Hq Hb. cbn [unescape]. by rewrite Hq, Hb. Qed.

Lemma unescape_quoted s : unescape (escape_quotes s +:+ String QUOTE "") = s.
Proof.
  induction s as [|c s IH]; [done|]. cbn [escape_quotes].
  destruct (Ascii.eqb c BACKSLASH || Ascii.eqb c QUOTE) eqn:Hc.
  - change (String c (unescape (escape_quotes s +:+ String QUOTE "")) = String c s). by rewrite IH.
  - apply orb_false_iff in Hc as [Hb Hq].
    change (String c (escape_quotes s) +:+ String QUOTE "") with (String c (escape_quotes s +:+ String QUOTE "")).
    by rewrite unescape_plain, IH.
Qed.

(** What [double_quote_string] prints is read back by [unescape]. *)
Lemma unescape_double_quote s : unescape (double_quote_string (Some s)) = s.
Proof. apply unescape_quoted. Qed.

(** Every class works. *)
#[export] Instance working_class c : WorkingClass c :=
  match c with
  | fc_enum => working_enum | fc_enum_nocase => working_enum_nocase | fc_numeric => working_numeric
  | fc_enum_num => working_enum_num | fc_boolean => working_boolean | fc_flag => working_flag
  | fc_string => working_string | fc_key_serial => working_key_serial
  end.
