(* ===== verification/Options.v ===== *)
(** * Setting and showing options

    How drbdsetup (user/v9/drbdsetup.c) puts the options of a command into the
    nested attribute of a request ([_generic_config_cmd]), and how it prints
    the options it finds in such an attribute of a reply
    ([should_show_field_info_from_attr_tb], [__print_options]). *)

From S2P Require Import Prelude Machine Nla NlaPut SharedTool ConfigFlags.
From Stdlib Require Import Ascii String.
From stdpp Require Import gmap strings.

#[local] Open Scope string_scope.
#[local] Open Scope list_scope.
#[local] Open Scope Z_scope.

(** ** Setting options *)

(** The options of the command line, as [getopt_long] delivers them: the field
    and its argument.  [nla] is the nested attribute, started with the first
    option.  [None]: an option is invalid ([OTHER_ERROR]). *)
Fixpoint put_options (ctx : context_def) (tla_id : Z) (opts : list (field_def * option string))
    (nla : option Z) : B (option (option Z)) :=
  match opts with
  | [] => mret (Some nla)
  | (field, optarg) :: opts' =>
      nla ← match nla with Some _ => mret nla | None => nla_nest_start tla_id end;
      ok ← fc_put (ops field) ctx field optarg;
      if ok : bool then put_options ctx tla_id opts' nla else mret None
  end.

(** With the end of the nested attribute; whether the options were valid. *)
Definition set_options (ctx : context_def) (tla_id : Z) (opts : list (field_def * option string)) : B bool :=
  r ← put_options ctx tla_id opts None;
  match r with
  | None => mret false
  | Some None => mret true
  | Some (Some nla) => nla_nest_end nla;; mret true
  end.

(** ** Showing options *)

(** Whether to show the field; the attribute, the string and whether it is the
    default ([*nlattr_p], [*str_p], [*is_default_p]).  The table has entries for
    the types of the policy only. *)
Definition should_show_field_info_from_attr_tb (show_defaults : bool) (m : mem) (tb : gmap Z Z)
    (field : field_def) (ctx : context_def) : res (bool * option Z * option string * bool) :=
  if nla_policy_size ctx <=? fd_nla_type field then Fault
  else match tb !! fd_nla_type field with
  | Some nlattr =>
      str ← fc_get (ops field) ctx field m nlattr;
      is_default ← fc_is_default (ops field) field str;
      mret (negb is_default || show_defaults, Some nlattr, str, is_default)
  | None => mret (true, None, None, false)
  end.

(** A field that is shown: its string ([None] for NULL) and whether it is the
    default, or not known to the kernel. *)
Inductive shown_option :=
  | Shown (str : option string) (is_default : bool)
  | Unknown.

(** The loop of [__print_options] over the fields. *)
Fixpoint shown_fields (show_defaults : bool) (m : mem) (tb : gmap Z Z) (ctx : context_def)
    (fields : list field_def) : res (list (field_def * shown_option)) :=
  match fields with
  | [] => mret []
  | field :: fields' =>
      '(show, nlattr, str, is_default) ←
        should_show_field_info_from_attr_tb show_defaults m tb field ctx;
      rest ← shown_fields show_defaults m tb ctx fields';
      mret (if show : bool then
              (field, match nlattr with Some _ => Shown str is_default | None => Unknown end) :: rest
            else rest)
  end.

(** [attr]: the nested attribute; a policy violation does not end it. *)
Definition shown_options (show_defaults : bool) (m : mem) (attr : option Z) (ctx : context_def) :
    res (list (field_def * shown_option)) :=
  match attr with
  | None => mret []
  | Some attr =>
      let '(r, tb) := nla_parse_nested m (nla_policy_size ctx - 1) attr (Some (ctx_nla_policy ctx)) in
      _ ← r; shown_fields show_defaults m tb ctx (ctx_fields ctx)
  end.

(** *** The text *)

Fixpoint spaces (n : nat) : string := match n with O => "" | S n' => String " " (spaces n') end.

Definition pad_right (n : nat) (s : string) : string := s +:+ spaces (n - String.length s).

(** What glibc prints for a NULL string. *)
Definition printf_s (s : option string) : string := str_or_null s.

Definition option_line (field : field_def) (o : shown_option) : string :=
  match o with
  | Shown str is_default =>
      let str := if needs_double_quoting field then double_quote_string str else printf_s str in
      pad_right 16 (fd_name field) +:+ String TAB str +:+ ";" +:+
      (if bool_decide (is_Some (fd_unit field)) || is_default then
         " # " +:+ default "" (fd_unit field) +:+
         (if bool_decide (is_Some (fd_unit field)) && is_default then ", " else "") +:+
         (if is_default then "default" else "")
       else "") +:+ nl
  | Unknown =>
      "_unknown " +:+ pad_right 14 (fd_name field) +:+ ";" +:+ String TAB ("# not supported by kernel" +:+ nl)
  end.

(** [printI] indents by [indent] times four blanks. *)
Definition print_options (indent : nat) (sect_name : string) (shown : list (field_def * shown_option)) : string :=
  match shown with
  | [] => ""
  | _ => spaces (4 * indent) +:+ sect_name +:+ " {" +:+ nl +:+
         String.concat "" ((fun x => spaces (4 * S indent) +:+ option_line x.1 x.2) <$> shown) +:+
         spaces (4 * indent) +:+ "}" +:+ nl
  end.

(** ** Attributes found in a table *)

Definition attr_type (x : attr) : Z := match x with Leaf t _ => t | Nest t _ => t end.

Lemma is_attr_type m nla x : is_attr m nla x -> nla_type m nla = attr_type x.
Proof. destruct x; by intros (? & _). Qed.

(** The last attribute of a type that occurs once. *)
Lemma find_attr m ps xs x :
  Forall2 (is_attr m) ps xs -> NoDup (attr_type <$> xs) -> x ∈ xs ->
  exists p, List.find (fun nla => nla_type m nla =? attr_type x) (rev ps) = Some p /\ is_attr m p x.
Proof.
  intros H2 Hnd Hx. destruct (List.find _ _) as [p|] eqn:Hf.
  - exists p. split; [done|]. apply find_some in Hf as [Hp Ht%Z.eqb_eq]. rewrite <- in_rev in Hp.
    apply list_elem_of_In in Hp.
    apply list_elem_of_lookup_1 in Hp as [i Hi]. destruct (Forall2_lookup_l _ _ _ _ _ H2 Hi) as (y & Hy & Hpy).
    apply list_elem_of_lookup_1 in Hx as [j Hj].
    assert (i = j) as ->; [|by simplify_eq].
    eapply NoDup_lookup; [exact Hnd|rewrite list_lookup_fmap, Hy; done|rewrite list_lookup_fmap, Hj; cbn].
    f_equal. rewrite <- Ht. by apply is_attr_type.
  - exfalso. apply list_elem_of_lookup_1 in Hx as [j Hj].
    destruct (Forall2_lookup_r _ _ _ _ _ H2 Hj) as (p & Hp & Hpx).
    eapply find_none in Hf; [|rewrite <- in_rev; by eapply list_elem_of_In, list_elem_of_lookup_2].
    apply Z.eqb_neq in Hf. by apply Hf, is_attr_type.
Qed.

Lemma find_no_attr m ps xs t :
  Forall2 (is_attr m) ps xs -> t ∉ (attr_type <$> xs) ->
  List.find (fun nla => nla_type m nla =? t) (rev ps) = None.
Proof.
  intros H2 Ht. destruct (List.find _ _) as [p|] eqn:Hf; [|done]. exfalso. apply Ht.
  apply find_some in Hf as [Hp <-%Z.eqb_eq]. rewrite <- in_rev in Hp. apply list_elem_of_In in Hp.
  apply list_elem_of_lookup_1 in Hp as [i Hi]. destruct (Forall2_lookup_l _ _ _ _ _ H2 Hi) as (y & Hy & Hpy).
  rewrite (is_attr_type _ _ _ Hpy). apply (list_elem_of_fmap_2' _ _ y); [by eapply list_elem_of_lookup_2|done].
Qed.

(** Attributes that satisfy their policies are all filed. *)
Lemma parse_all_accepts m maxtype policy ps xs tb :
  Forall2 (is_attr m) ps xs ->
  Forall (fun x => 0 < attr_type x <= maxtype /\ exists pt, zlookup policy (attr_type x) = Some pt /\
            forall nla, is_attr m nla x -> validate_pt m nla pt = Ok 0) xs ->
  exists tb', parse_all m maxtype (Some policy) ps tb = (Ok 0, tb').
Proof.
  intros H2. revert tb. induction H2 as [|p x ps xs Hp _ IH]; intros tb Hxs; [by eexists|].
  apply Forall_cons in Hxs as [(Ht & pt & Hpt & Hv) Hxs]. cbn [parse_all].
  rewrite u16_nla_type, (is_attr_type _ _ _ Hp).
  destruct (_ && _) eqn:Hr; [|bool_lia]. unfold validate_nla. rewrite (is_attr_type _ _ _ Hp).
  destruct (_ || _) eqn:Hor; [rewrite orb_true_iff in Hor; lia|]. rewrite Hpt, (Hv p Hp). cbn.
  by apply IH.
Qed.

(** ** The round trip *)

Section RoundTrip.
Context (ctx : context_def).

(** An option that is set: a field of the context, and a value that has passed
    the check of its class. *)
Definition good_option (x : field_def * string) : Prop :=
  x.1 ∈ ctx_fields ctx /\ wf_field (c := fd_ops x.1) ctx x.1 /\ canonical (c := fd_ops x.1) x.1 x.2 /\
  fc_check (ops x.1) x.1 (Some x.2) = Ok CC_OK.

Definition option_wire (x : field_def * string) : option (list Z) :=
  wire (c := fd_ops x.1) ctx x.1 x.2.

Definition option_attrs (opts : list (field_def * string)) : list attr :=
  omap (fun x => Leaf (fd_nla_type x.1) <$> option_wire x) opts.

Definition arguments (opts : list (field_def * string)) : list (field_def * option string) :=
  (fun x => (x.1, Some x.2)) <$> opts.

(** The fields of a context have types of their own, which the policy knows. *)
Definition wf_context : Prop :=
  NoDup (fd_nla_type <$> ctx_fields ctx) /\
  Forall (fun f => 0 < fd_nla_type f < nla_policy_size ctx) (ctx_fields ctx) /\
  nla_policy_size ctx <= 2 ^ 14.

Hypothesis Hctx : wf_context.

Lemma put_option_wrote x msg :
  good_option x -> wf_msg msg -> mb_end msg < 2 ^ 16 ->
  mb_tail msg + Z.of_nat (length (encode_all (option_attrs [x]))) <= mb_end msg ->
  exists msg', fc_put (ops x.1) ctx x.1 (Some x.2) msg = (Ok true, msg') /\
    wrote msg msg' (encode_all (option_attrs [x])).
Proof using.
  intros (_ & Hwf & Hcan & Hc) Hmsg Hend Hroom. unfold ops in *.
  rewrite (put_wire ctx x.1 x.2) by done. unfold option_attrs, option_wire in *. cbn [omap list_omap] in *.
  destruct (wire ctx x.1 x.2) as [d|]; cbn [fmap option_fmap option_map] in *.
  - change (encode_all [Leaf (fd_nla_type x.1) d]) with (encode_attr (Leaf (fd_nla_type x.1) d) ++ []) in *.
    rewrite app_nil_r in *. pose proof (length_leaf_le (fd_nla_type x.1) d). unfold wf_msg in Hmsg.
    destruct (nla_put_wrote (fd_nla_type x.1) d msg) as (msg' & Hrun & Hw); [done|lia|done|].
    exists msg'. split; [|done]. unfold mbind, B_bind. by rewrite Hrun.
  - exists msg. split; [done|apply wrote_nil].
Qed.

Lemma option_attrs_cons x opts :
  option_attrs (x :: opts) = option_attrs [x] ++ option_attrs opts.
Proof using. unfold option_attrs. cbn. by destruct (_ <$> _). Qed.

Lemma encode_all_app l1 l2 : encode_all (l1 ++ l2) = encode_all l1 ++ encode_all l2.
Proof using. unfold encode_all. by rewrite fmap_app, concat_app. Qed.

Lemma put_options_wrote tla opts p msg :
  Forall good_option opts -> wf_msg msg -> mb_end msg < 2 ^ 16 ->
  mb_tail msg + Z.of_nat (length (encode_all (option_attrs opts))) <= mb_end msg ->
  exists msg', put_options ctx tla (arguments opts) (Some p) msg = (Ok (Some (Some p)), msg') /\
    wrote msg msg' (encode_all (option_attrs opts)).
Proof using.
  intros Hopts. revert msg. induction Hopts as [|x opts Hx _ IH]; intros msg Hmsg Hend Hroom.
  { exists msg. split; [done|apply wrote_nil]. }
  rewrite option_attrs_cons, encode_all_app in *. rewrite length_app in Hroom.
  destruct (put_option_wrote x msg Hx) as (msg1 & Hrun1 & Hw1); [done..|lia|].
  assert (wf_msg msg1) as Hmsg1 by (eapply wrote_wf; [done..|lia]). pose proof Hw1 as (Ht1 & He1 & _).
  destruct (IH msg1) as (msg2 & Hrun2 & Hw2); [done|lia..|].
  exists msg2. split; [|by eapply wrote_app].
  cbn [arguments fmap list_fmap put_options]. unfold mbind at 1, B_bind at 1. cbn [mret B_ret].
  unfold mbind, B_bind. by rewrite Hrun1.
Qed.

(** All the options end up in one nested attribute. *)
Lemma set_options_wrote tla opts msg :
  opts <> [] -> Forall good_option opts -> wf_msg msg -> mb_end msg < 2 ^ 16 ->
  mb_tail msg + Z.of_nat (length (encode_attr (Nest tla (option_attrs opts)))) <= mb_end msg ->
  exists msg', set_options ctx tla (arguments opts) msg = (Ok true, msg') /\
    wrote msg msg' (encode_attr (Nest tla (option_attrs opts))).
Proof using.
  intros Hne Hopts Hmsg Hend Hroom. rewrite length_nest in Hroom.
  destruct (nla_put_wrote (Z.lor tla NLA_F_NESTED) [] msg) as (msg1 & Hrun1 & Hw1); [done|done| |].
  { change (length (encode_attr (Leaf _ []))) with 4%nat. lia. }
  pose proof Hw1 as (Ht1 & He1 & _). change (length (encode_attr (Leaf _ []))) with 4%nat in Ht1.
  destruct (put_options_wrote tla opts (mb_tail msg) msg1) as (msg2 & Hrun2 & Hw2); [done| |lia|lia|].
  { eapply wrote_wf; [done..|]. change (length (encode_attr (Leaf _ []))) with 4%nat. lia. }
  destruct (nest_end_wrote _ _ _ _ _ Hw1 Hw2) as (msg3 & Hrun3 & Hw3).
  exists msg3. split; [|exact Hw3].
  assert (put_options ctx tla (arguments opts) None msg = put_options ctx tla (arguments opts) (Some (mb_tail msg)) msg1) as Hstart.
  { destruct opts as [|x opts]; [done|]. cbn [arguments fmap list_fmap put_options].
    unfold nla_nest_start. unfold mbind, B_bind, get_msg. change (Z.of_nat (length [])) with 0 in Hrun1.
    by rewrite Hrun1. }
  unfold set_options. unfold mbind, B_bind. rewrite Hstart, Hrun2, Hrun3. done.
Qed.
Lemma elem_of_option_attrs opts y :
  y ∈ option_attrs opts <->
  exists x d, x ∈ opts /\ option_wire x = Some d /\ y = Leaf (fd_nla_type x.1) d.
Proof using.
  unfold option_attrs. rewrite list_elem_of_omap. split.
  - intros (x & Hx & Hy). destruct (option_wire x) as [d|] eqn:Hd; [|done]. injection Hy as <-. eauto.
  - intros (x & d & Hx & Hd & ->). exists x. by rewrite Hd.
Qed.

Lemma option_attrs_NoDup opts :
  NoDup ((fun x => fd_nla_type x.1) <$> opts) -> NoDup (attr_type <$> option_attrs opts).
Proof using.
  induction opts as [|x opts IH]; [constructor|]. cbn [fmap list_fmap]. intros [Hx Hnd]%NoDup_cons.
  rewrite option_attrs_cons. unfold option_attrs at 1. cbn [omap list_omap].
  destruct (option_wire x) as [d|]; cbn [fmap option_fmap option_map]; [|by apply IH].
  cbn. apply NoDup_cons. split; [|by apply IH].
  intros (y & Hy & Hin)%list_elem_of_fmap. apply elem_of_option_attrs in Hin as (z & e & Hz & _ & ->).
  apply Hx, list_elem_of_fmap. by exists z.
Qed.

Lemma option_wire_ok x d :
  good_option x -> option_wire x = Some d ->
  byte_list d /\ exists pt, zlookup (ctx_nla_policy ctx) (fd_nla_type x.1) = Some pt /\
    forall m nla, is_attr m nla (Leaf (fd_nla_type x.1) d) -> validate_pt m nla pt = Ok 0.
Proof using.
  intros (_ & Hwf & Hcan & Hc) Hd.
  destruct (wire_bytes ctx x.1 x.2 d Hwf Hcan Hc Hd) as (Hb & pt & Hp & Hv). split; [done|].
  unfold policy_of_field in Hp. destruct (zlookup _ _) as [pt'|] eqn:Hl; [|done]. injection Hp as ->.
  exists pt. split; [done|]. intros m nla (_ & Hl' & Hpl). by apply Hv.
Qed.

Lemma option_attrs_wf opts : Forall good_option opts -> Forall wf_attr (option_attrs opts).
Proof using Hctx.
  intros Hopts. apply Forall_forall. intros y (x & d & Hx & Hd & ->)%elem_of_option_attrs.
  rewrite Forall_forall in Hopts. pose proof (Hopts x Hx) as Hgood.
  destruct (option_wire_ok x d Hgood Hd) as [Hb _]. destruct Hctx as (_ & Hrange & Hsize).
  rewrite Forall_forall in Hrange. pose proof (Hrange _ (proj1 Hgood)). constructor; [lia|done].
Qed.

(** The table of a nested attribute with the options. *)
Lemma parse_options m T tla opts :
  Forall good_option opts -> NoDup ((fun x => fd_nla_type x.1) <$> opts) ->
  bytes m -> Z.of_nat (length (encode_attr (Nest tla (option_attrs opts)))) < 2 ^ 16 ->
  is_attr m T (Nest tla (option_attrs opts)) ->
  exists tb, nla_parse_nested m (nla_policy_size ctx - 1) T (Some (ctx_nla_policy ctx)) = (Ok 0, tb) /\
    (forall x d, x ∈ opts -> option_wire x = Some d ->
       exists nla, tb !! fd_nla_type x.1 = Some nla /\ has_payload m nla d) /\
    (forall f, f ∈ ctx_fields ctx -> (forall v, (f, v) ∈ opts -> option_wire (f, v) = None) ->
       tb !! fd_nla_type f = None).
Proof using Hctx.
  intros Hopts Hnd Hm Hlt (_ & Hlen & Hh). rewrite length_nest in Hlt.
  pose proof (holds_positions m _ _ Hm Hh (option_attrs_wf opts Hopts) ltac:(lia)) as H2.
  set (ps := nla_for_each_attr _ _ _) in H2. destruct Hctx as (Htypes & Hrange & Hsize).
  rewrite Forall_forall in Hrange. rewrite Forall_forall in Hopts.
  destruct (parse_all_accepts m (nla_policy_size ctx - 1) (ctx_nla_policy ctx) ps (option_attrs opts) ∅ H2) as [tb Htb].
  { apply Forall_forall. intros y (x & d & Hx & Hd & ->)%elem_of_option_attrs.
    destruct (option_wire_ok x d (Hopts x Hx) Hd) as (_ & pt & Hpt & Hv). cbn [attr_type].
    pose proof (Hrange _ (proj1 (Hopts x Hx))). split; [lia|]. exists pt. split; [done|]. apply Hv. }
  exists tb. split_and!.
  - unfold nla_parse_nested, nla_parse. by rewrite Hlen.
  - intros x d Hx Hd. pose proof (Hrange _ (proj1 (Hopts x Hx))).
    destruct (find_attr m ps (option_attrs opts) (Leaf (fd_nla_type x.1) d) H2) as (p & Hf & Hp).
    { by apply option_attrs_NoDup. }
    { apply elem_of_option_attrs. eauto. }
    exists p. rewrite (parse_all_last _ _ _ _ _ _ _ Htb) by lia. cbn [attr_type] in Hf. rewrite Hf.
    split; [done|]. by destruct Hp as (_ & ? & ?).
  - intros f Hf Hnone. pose proof (Hrange f Hf). rewrite (parse_all_last _ _ _ _ _ _ _ Htb) by lia.
    rewrite (find_no_attr m ps (option_attrs opts)); [done|done|].
    intros (y & Hy & Hin)%list_elem_of_fmap. apply elem_of_option_attrs in Hin as ([g v] & d & Hx & Hd & ->).
    cbn in Hy. assert (g = f) as ->; [|by rewrite (Hnone v Hx) in Hd].
    destruct (Hopts _ Hx) as (Hg & _). cbn in Hg. apply list_elem_of_lookup_1 in Hg as [i Hi], Hf as [j Hj].
    assert (i = j) as ->; [|by simplify_eq].
    eapply NoDup_lookup; [exact Htypes|rewrite list_lookup_fmap, Hi; done|rewrite list_lookup_fmap, Hj; cbn; congruence].
Qed.

(** What is shown for the field [f] after [opts] have been set: a value that is
    not told apart from the one that was set, unless it is the default and
    defaults are not shown; a field without an attribute is unknown. *)
Definition described (show_defaults : bool) (opts : list (field_def * string)) (f : field_def)
    (o : option shown_option) : Prop :=
  (exists v s b, (f, v) ∈ opts /\ is_Some (option_wire (f, v)) /\ same_value (fd_ops f) f v s /\
     fc_is_default (ops f) f (Some v) = Ok b /\
     o = if negb b || show_defaults then Some (Shown (Some s) b) else None) \/
  ((forall v, (f, v) ∈ opts -> option_wire (f, v) = None) /\ o = Some Unknown).

Lemma shown_fields_omap show_defaults m tb fields (P : field_def -> option shown_option -> Prop) :
  Forall (fun f => exists show nlattr str b o,
    should_show_field_info_from_attr_tb show_defaults m tb f ctx = Ok (show, nlattr, str, b) /\
    o = (if show : bool then Some (match nlattr with Some _ => Shown str b | None => Unknown end) else None) /\
    P f o) fields ->
  exists os, Forall2 P fields os /\
    shown_fields show_defaults m tb ctx fields =
      Ok (omap (fun x => (fun o => (x.1, o)) <$> x.2) (zip fields os)).
Proof using.
  induction 1 as [|f fields (show & nlattr & str & b & o & Hs & Ho & HP) _ (os & H2 & Hrun)].
  { by exists []. }
  exists (o :: os). split; [by constructor|]. cbn [shown_fields]. rewrite Hs. cbn [mbind res_bind].
  rewrite Hrun. cbn [mbind res_bind zip zip_with omap list_omap fst snd]. rewrite Ho. by destruct show.
Qed.

Lemma set_or_unset (opts : list (field_def * string)) (f : field_def) :
  (exists v d, (f, v) ∈ opts /\ option_wire (f, v) = Some d) \/
  (forall v, (f, v) ∈ opts -> option_wire (f, v) = None).
Proof using.
  induction opts as [|[g v] opts IH]; [right; by intros v ?%elem_of_nil|].
  destruct IH as [(w & d & Hin & Hd)|Hnone]; [left; exists w, d; split; [by right|done]|].
  destruct (decide (g = f)) as [->|Hne].
  - destruct (option_wire (f, v)) as [d|] eqn:Hd; [left; exists v, d; split; [by left|done]|].
    right. intros w [[= ->]|Hin]%elem_of_cons; auto.
  - right. intros w [[= Heq _]|Hin]%elem_of_cons; [by rewrite Heq in Hne|auto].
Qed.

(** One field. *)
Lemma field_described m tb opts show_defaults f :
  Forall good_option opts -> f ∈ ctx_fields ctx ->
  (forall x d, x ∈ opts -> option_wire x = Some d ->
     exists nla, tb !! fd_nla_type x.1 = Some nla /\ has_payload m nla d) ->
  (forall f, f ∈ ctx_fields ctx -> (forall v, (f, v) ∈ opts -> option_wire (f, v) = None) ->
     tb !! fd_nla_type f = None) ->
  exists show nlattr str b o,
    should_show_field_info_from_attr_tb show_defaults m tb f ctx = Ok (show, nlattr, str, b) /\
    o = (if show : bool then Some (match nlattr with Some _ => Shown str b | None => Unknown end) else None) /\
    described show_defaults opts f o.
Proof using Hctx.
  intros Hopts Hf Hset Hunset. destruct Hctx as (_ & Hrange & _). rewrite Forall_forall in Hrange. rewrite Forall_forall in Hopts.
  unfold should_show_field_info_from_attr_tb. pose proof (Hrange f Hf).
  rewrite (proj2 (Z.leb_gt _ _)) by lia.
  destruct (set_or_unset opts f) as [(v & d & Hin & Hd)|Hnone].
  - destruct (Hset (f, v) d Hin Hd) as (nla & Hl & Hp). cbn [fst] in Hl. rewrite Hl.
    destruct (Hopts _ Hin) as (_ & Hwf & Hcan & Hc).
    destruct (get_wire ctx f v d m nla Hwf Hcan Hc Hd Hp) as (s & Hg & Hsame).
    cbn [fst snd] in Hg, Hsame. pose proof Hsame as (_ & _ & b & Hb1 & Hb2).
    unfold ops. rewrite Hg. cbn [mbind res_bind].
    rewrite Hb2. cbn [mbind res_bind mret res_ret]. do 5 eexists. split; [done|]. split; [done|].
    left. exists v, s, b. by split_and!.
  - rewrite (Hunset f Hf Hnone). do 5 eexists. split; [done|]. split; [done|]. by right.
Qed.

Lemma options_shown tla opts msg show_defaults :
  opts <> [] -> Forall good_option opts -> NoDup ((fun x => fd_nla_type x.1) <$> opts) ->
  0 <= tla < 2 ^ 14 -> wf_msg msg -> mb_end msg < 2 ^ 16 -> bytes (mb_data msg) ->
  mb_tail msg + Z.of_nat (length (encode_attr (Nest tla (option_attrs opts)))) <= mb_end msg ->
  exists msg' os,
    set_options ctx tla (arguments opts) msg = (Ok true, msg') /\
    Forall2 (described show_defaults opts) (ctx_fields ctx) os /\
    shown_options show_defaults (mb_data msg') (Some (mb_tail msg)) ctx =
      Ok (omap (fun x => (fun o => (x.1, o)) <$> x.2) (zip (ctx_fields ctx) os)).
Proof using Hctx.
  intros Hne Hopts Hnd Htla Hmsg Hend Hm Hroom.
  destruct (set_options_wrote tla opts msg) as (msg' & Hrun & Ht & He & _ & Hb & Hbytes); [done..|].
  set (x := Nest tla (option_attrs opts)) in *. set (m := mb_data msg') in *.
  assert (wf_attr x) as Hx by (constructor; [done|by apply option_attrs_wf]).
  assert (bytes m) as Hm' by (apply Hbytes; [done|by apply wf_encode_bytes]).
  unfold wf_msg in Hmsg.
  assert (is_attr m (mb_tail msg) x) as HT.
  { assert (holds m (mb_tail msg) [x]) as Hh by (unfold holds; rewrite encode_all_cons; by rewrite app_nil_r).
    pose proof (holds_positions m _ _ Hm' Hh (proj2 (Forall_singleton _ _) Hx)) as H2.
    rewrite encode_all_cons, app_nil_r in H2. specialize (H2 ltac:(lia)).
    pose proof (holds_unfold m _ x [] Hm' Hh Hx) as Hu. rewrite encode_all_cons, app_nil_r in Hu.
    rewrite Hu in H2 by lia. by apply Forall2_cons_1 in H2 as [? _]. }
  destruct (parse_options m (mb_tail msg) tla opts) as (tb & Hparse & Hset & Hunset); [done..|subst x; lia|done|].
  destruct (shown_fields_omap show_defaults m tb (ctx_fields ctx) (described show_defaults opts)) as (os & H2 & Hshow).
  - apply Forall_forall. intros f Hf. by apply (field_described m tb opts).
  - exists msg', os. split_and!; [done|done|]. fold m.
    unfold shown_options. by rewrite Hparse.
Qed.

End RoundTrip.

(** A context of a number and a truth value. *)
Definition timeout_field : field_def :=
  mk_field_def "timeout" 1 fc_numeric (U_n 1 600 60 false "1") false false false false (Some "1/10 seconds").
Definition cork_field : field_def :=
  mk_field_def "tcp-cork" 2 fc_boolean (U_b true) false true false false None.
Definition small_context : context_def :=
  mk_context_def [mk_nla_policy 0 0; mk_nla_policy NLA_U32 0; mk_nla_policy NLA_U8 0] 5 [timeout_field; cork_field].
Definition small_options : list (field_def * string) := [(cork_field, "no"); (timeout_field, "42")].
Definition empty_msg : msg_buff := mk_msg_buff 16 256 zero_mem.

Lemma small_context_wf : wf_context small_context.
Proof.
  split_and!; [by apply (bool_decide_unpack _); vm_compute| |done].
  repeat constructor; done.
Qed.

Lemma small_options_good : Forall (good_option small_context) small_options.
Proof.
  apply Forall_cons; split; [|apply Forall_cons; split; [|done]]; (split_and!; [|cbn|done|vm_compute; done]).
  - apply (bool_decide_unpack _); by vm_compute.
  - split; [done|by eexists].
  - apply (bool_decide_unpack _); by vm_compute.
  - exists 1, 600, 60, "1"%char, NLA_U32, 4%nat. split_and!; [done..| |done|done|done]. by left.
Qed.

