(* ===== verification/Address.v ===== *)
(** * Addresses of endpoints

    Comparing the addresses of two endpoints (user/shared/shared_tool.c and
    user/v9/drbdadm_postparse.c).  [inet_pton] is the C library's: the address
    of a text, if it is one of the family. *)

From S2P Require Import Prelude Machine ConfigFlags.
From Stdlib Require Import String Ascii.
From stdpp Require Import strings.

#[local] Open Scope string_scope.
#[local] Open Scope list_scope.
#[local] Open Scope Z_scope.

Record d_address := mk_d_address { addr : string; port : string; af : string }.

#[export] Instance d_address_eq_dec : EqDecision d_address.
Proof. solve_decision. Defined.

Definition IPV4_STR : string := "ipv4".
Definition IPV6_STR : string := "ipv6".

Inductive family := AF_INET | AF_INET6.

(** The sign of [strcmp]. *)
Fixpoint strcmp (a b : string) : Z :=
  match a, b with
  | EmptyString, EmptyString => 0
  | EmptyString, String _ _ => -1
  | String _ _, EmptyString => 1
  | String x a', String y b' =>
      match N.compare (N_of_ascii x) (N_of_ascii y) with
      | Lt => -1
      | Gt => 1
      | Eq => strcmp a' b'
      end
  end.

Section Addresses.
Context (inet_pton : family -> string -> option (list Z)).

Definition ipv4_addresses_match (addr_1st addr_2nd : string) : bool :=
  match inet_pton AF_INET addr_1st, inet_pton AF_INET addr_2nd with
  | Some a, Some b => bool_decide (a = b)
  | _, _ => false
  end.

Definition ipv6_addresses_match (addr_1st addr_2nd : string) : bool :=
  match inet_pton AF_INET6 addr_1st, inet_pton AF_INET6 addr_2nd with
  | Some a, Some b => bool_decide (a = b)
  | _, _ => false
  end.

Definition addresses_match (af_1st addr_1st af_2nd addr_2nd : string) : bool :=
  if strcaseeq af_1st IPV4_STR && strcaseeq af_2nd IPV4_STR then ipv4_addresses_match addr_1st addr_2nd
  else if strcaseeq af_1st IPV6_STR && strcaseeq af_2nd IPV6_STR then ipv6_addresses_match addr_1st addr_2nd
  else streq af_1st af_2nd && streq addr_1st addr_2nd.

Definition addresses_cmp (addr1 addr2 : d_address) : Z :=
  let ips_match :=
    if strcaseeq (af addr1) IPV4_STR && strcaseeq (af addr2) IPV4_STR then
      ipv4_addresses_match (addr addr1) (addr addr2)
    else if strcaseeq (af addr1) IPV6_STR && strcaseeq (af addr2) IPV6_STR then
      ipv6_addresses_match (addr addr1) (addr addr2)
    else false in
  let result := if ips_match then 0 else strcmp (addr addr1) (addr addr2) in
  if result =? 0 then
    let result := strcmp (port addr1) (port addr2) in
    if result =? 0 then strcmp (af addr1) (af addr2) else result
  else result.

Definition addresses_equal (addr1 addr2 : d_address) : bool := addresses_cmp addr1 addr2 =? 0.

(** ** [strcmp] *)

Lemma strcmp_0 a b : strcmp a b = 0 <-> a = b.
Proof using.
  revert b. induction a as [|x a IH]; intros [|y b]; cbn; [done..|].
  destruct (N.compare_spec (N_of_ascii x) (N_of_ascii y)) as [Heq|Hlt|Hlt].
  - apply (f_equal ascii_of_N) in Heq. rewrite !ascii_N_embedding in Heq. subst y. rewrite IH. naive_solver.
  - split; [done|]. intros [= -> _]. lia.
  - split; [done|]. intros [= -> _]. lia.
Qed.

Lemma strcmp_sym a b : strcmp b a = - strcmp a b.
Proof using.
  revert b. induction a as [|x a IH]; intros [|y b]; cbn; [done..|].
  rewrite N.compare_antisym. destruct (N.compare _ _); cbn; [apply IH|done|done].
Qed.

(** ** Equal addresses *)

(** The text of the same address. *)
Definition same_ip (f : string) (a b : string) : Prop :=
  a = b \/
  (strcaseeq f IPV4_STR = true /\ is_Some (inet_pton AF_INET a) /\ inet_pton AF_INET a = inet_pton AF_INET b) \/
  (strcaseeq f IPV6_STR = true /\ is_Some (inet_pton AF_INET6 a) /\ inet_pton AF_INET6 a = inet_pton AF_INET6 b).

Lemma not_both f : strcaseeq f IPV4_STR = true -> strcaseeq f IPV6_STR = false.
Proof using. unfold strcaseeq. intros Hf%String.eqb_eq. by rewrite Hf. Qed.

Lemma ipv4_match_spec a b :
  ipv4_addresses_match a b = true <-> is_Some (inet_pton AF_INET a) /\ inet_pton AF_INET a = inet_pton AF_INET b.
Proof using.
  unfold ipv4_addresses_match. destruct (inet_pton AF_INET a) as [x|], (inet_pton AF_INET b) as [y|];
    rewrite ?bool_decide_eq_true; split; try done; try naive_solver; by intros [[? ?] ?].
Qed.

Lemma ipv6_match_spec a b :
  ipv6_addresses_match a b = true <-> is_Some (inet_pton AF_INET6 a) /\ inet_pton AF_INET6 a = inet_pton AF_INET6 b.
Proof using.
  unfold ipv6_addresses_match. destruct (inet_pton AF_INET6 a) as [x|], (inet_pton AF_INET6 b) as [y|];
    rewrite ?bool_decide_eq_true; split; try done; try naive_solver; by intros [[? ?] ?].
Qed.

(** Two addresses are equal if family and port are the same, and the texts
    denote the same address. *)
Lemma addresses_equal_spec a b :
  addresses_equal a b = true <-> af a = af b /\ port a = port b /\ same_ip (af a) (addr a) (addr b).
Proof using.
  unfold addresses_equal, addresses_cmp. rewrite Z.eqb_eq.
  set (m := if strcaseeq (af a) IPV4_STR && strcaseeq (af b) IPV4_STR then ipv4_addresses_match (addr a) (addr b)
            else if strcaseeq (af a) IPV6_STR && strcaseeq (af b) IPV6_STR then ipv6_addresses_match (addr a) (addr b)
            else false).
  assert (af a = af b -> (m = true \/ addr a = addr b) <-> same_ip (af a) (addr a) (addr b)) as Hm.
  { intros Hf. unfold m, same_ip. rewrite <- Hf, !andb_diag.
    destruct (strcaseeq (af a) IPV4_STR) eqn:H4.
    - rewrite (not_both _ H4), ipv4_match_spec. naive_solver.
    - destruct (strcaseeq (af a) IPV6_STR) eqn:H6; [rewrite ipv6_match_spec|]; naive_solver. }
  split.
  - destruct m.
    + rewrite Z.eqb_refl. destruct (Z.eqb_spec (strcmp (port a) (port b)) 0) as [Hp|]; [|done].
      intros Hf%strcmp_0. apply strcmp_0 in Hp. split_and!; [done..|]. apply Hm; auto.
    + destruct (Z.eqb_spec (strcmp (addr a) (addr b)) 0) as [Ha|]; [|done].
      destruct (Z.eqb_spec (strcmp (port a) (port b)) 0) as [Hp|]; [|done].
      intros Hf%strcmp_0. apply strcmp_0 in Hp, Ha. split_and!; [done..|]. apply Hm; auto.
  - intros (Hf & Hp & Hip). apply Hm in Hip; [|done].
    assert ((if m then 0 else strcmp (addr a) (addr b)) = 0) as ->.
    { destruct m; [done|]. destruct Hip as [|Ha]; [done|]. by apply strcmp_0. }
    cbn. rewrite (proj2 (strcmp_0 _ _) Hp). cbn. by apply strcmp_0.
Qed.

Lemma same_ip_sym f a b : same_ip f a b -> same_ip f b a.
Proof using. unfold same_ip. intros [?|[(?&?&E)|(?&?&E)]]; [by left|right; left|right; right]; rewrite <- E; auto. Qed.

Lemma same_ip_trans f a b c : same_ip f a b -> same_ip f b c -> same_ip f a c.
Proof using.
  unfold same_ip. intros H1 H2. destruct H1 as [->|H1]; [done|]. destruct H2 as [<-|H2]; [by right|]. right.
  destruct H1 as [(F1 & S1 & E1)|(F1 & S1 & E1)], H2 as [(F2 & S2 & E2)|(F2 & S2 & E2)].
  - left. split_and!; [done..|congruence].
  - pose proof (not_both _ F1). congruence.
  - pose proof (not_both _ F2). congruence.
  - right. split_and!; [done..|congruence].
Qed.

(** [addresses_equal] is an equivalence: two addresses may be compared in
    any order, and replaced by an equal one. *)
Theorem addresses_equal_equivalence :
  Equivalence (fun a b => addresses_equal a b = true).
Proof using.
  split.
  - intros a. apply addresses_equal_spec. split_and!; [done..|by left].
  - intros a b (? & ? & ?)%addresses_equal_spec. apply addresses_equal_spec.
    split_and!; [congruence..|]. rewrite <- H. by apply same_ip_sym.
  - intros a b c (F1 & ? & S1)%addresses_equal_spec (F2 & ? & S2)%addresses_equal_spec.
    apply addresses_equal_spec. split_and!; [congruence..|]. rewrite <- F1 in S2. by eapply same_ip_trans.
Qed.

(** [addresses_match] is the comparison without the port, and with families
    that may differ in case. *)
Lemma addresses_match_equal a b :
  af a = af b -> port a = port b -> addresses_equal a b = true ->
  (strcaseeq (af a) IPV4_STR = true -> is_Some (inet_pton AF_INET (addr a))) ->
  (strcaseeq (af a) IPV6_STR = true -> is_Some (inet_pton AF_INET6 (addr a))) ->
  addresses_match (af a) (addr a) (af b) (addr b) = true.
Proof using.
  intros Hf _ (_ & _ & Hip)%addresses_equal_spec H4 H6. unfold addresses_match. rewrite <- Hf, !andb_diag.
  destruct (strcaseeq (af a) IPV4_STR) eqn:E4.
  - apply ipv4_match_spec. destruct Hip as [E|[(_ & ?)|(E6 & _)]]; [rewrite <- E; auto|done|].
    by rewrite (not_both _ E4) in E6.
  - destruct (strcaseeq (af a) IPV6_STR) eqn:E6.
    + apply ipv6_match_spec. destruct Hip as [E|[(? & _)|(_ & ?)]]; [rewrite <- E; auto|congruence|done].
    + unfold streq. rewrite String.eqb_refl. cbn. apply String.eqb_eq.
      destruct Hip as [|[(? & _)|(? & _)]]; congruence.
Qed.
End Addresses.

(** ** The comparison does not order addresses *)

(** Two spellings of one address and a third address between them: a search
    tree that is ordered by [addresses_cmp] can miss an address it holds. *)
Definition example_pton (f : family) (s : string) : option (list Z) :=
  match f with
  | AF_INET => None
  | AF_INET6 =>
      if bool_decide (s = "::1" \/ s = "0::1") then Some (replicate 15 0 ++ [1])
      else if bool_decide (s = "1::") then Some ([0; 1] ++ replicate 14 0)
      else None
  end.

Definition ip6 (a : string) : d_address := mk_d_address a "7788" "ipv6".

Lemma addresses_cmp_no_order :
  addresses_cmp example_pton (ip6 "0::1") (ip6 "::1") = 0 /\
  addresses_cmp example_pton (ip6 "0::1") (ip6 "1::") < 0 /\
  addresses_cmp example_pton (ip6 "1::") (ip6 "::1") < 0.
Proof. vm_compute. done. Qed.
