(* ===== verification/AdmConfig.v ===== *)
(** * The configuration as drbdadm keeps it

    The structures of user/v9/drbdadm.h the scheduler and the comparison of
    configurations work on, and the operations on their lists
    (user/v9/drbdadm_main.c).  An object carries its address ([..._at]), which
    the code compares; a list of objects ([STAILQ]) is a list. *)

From S2P Require Import Prelude Machine ConfigFlags Address.
From Stdlib Require Import String.
From stdpp Require Import strings sorting.

#[local] Open Scope string_scope.
#[local] Open Scope list_scope.
#[local] Open Scope Z_scope.

(** ** Options *)

Record d_option := mk_d_option {
  o_name : string;
  o_value : option string;
  o_mentioned : bool;
  o_unknown : bool;
  o_adj_skip : bool
}.

#[export] Instance eta_d_option : Eta d_option :=
  fun r => mk_d_option (o_name r) (o_value r) (o_mentioned r) (o_unknown r) (o_adj_skip r).

Notation options := (list d_option).

Definition find_opt (base : options) (name : string) : option d_option :=
  List.find (fun option => String.eqb (o_name option) name) base.

(** The list without the first option of this name, and whether there was one. *)
Fixpoint del_opt (base : options) (name : string) : options * bool :=
  match base with
  | [] => ([], false)
  | opt :: base' =>
      if String.eqb (o_name opt) name then (base', true)
      else let '(l, r) := del_opt base' name in (opt :: l, r)
  end.

(** Assigning to the option [find_opt] returned. *)
Fixpoint update_opt (f : d_option -> d_option) (base : options) (name : string) : options :=
  match base with
  | [] => []
  | opt :: base' =>
      if String.eqb (o_name opt) name then f opt :: base' else opt :: update_opt f base' name
  end.

(** ** Volumes *)

Record d_volume := mk_d_volume {
  vol_at : Z;
  vnr : Z;
  device_minor : Z;
  disk : option string;
  meta_disk : option string;
  meta_index : option string;
  disk_options : options;
  adj_del_minor : bool;
  adj_new_minor : bool;
  adj_detach : bool;
  adj_attach : bool;
  adj_resize : bool;
  adj_disk_opts : bool;
  device : option string;
  device_options : options
}.

#[export] Instance eta_d_volume : Eta d_volume :=
  fun r => mk_d_volume (vol_at r) (vnr r) (device_minor r) (disk r) (meta_disk r) (meta_index r)
    (disk_options r) (adj_del_minor r) (adj_new_minor r) (adj_detach r) (adj_attach r) (adj_resize r)
    (adj_disk_opts r) (device r) (device_options r).

Definition volume_by_vnr (volumes : list d_volume) (n : Z) : option d_volume :=
  List.find (fun vol => vnr vol =? n) volumes.

(** [STAILQ_INSERT_ORDERED]: after all elements that are not greater if the
    last one is not, before the first greater one otherwise. *)
Fixpoint insert_before_greater (head : list d_volume) (elem : d_volume) : list d_volume :=
  match head with
  | [] => []
  | t :: head' => if vnr elem <? vnr t then elem :: t :: head' else t :: insert_before_greater head' elem
  end.

Definition insert_volume (head : list d_volume) (elem : d_volume) : list d_volume :=
  match list.last head with
  | None => [elem]
  | Some t => if vnr t <=? vnr elem then head ++ [elem] else insert_before_greater head elem
  end.

(** ** Connections and resources *)

(** [path_adj_seen] is [adj_seen] of a path. *)
Record path := mk_path {
  path_at : Z;
  path_ignore : bool;
  my_address : option d_address;
  connect_to : option d_address;
  path_adj_seen : bool
}.

#[export] Instance eta_path : Eta path :=
  fun r => mk_path (path_at r) (path_ignore r) (my_address r) (connect_to r) (path_adj_seen r).

Record peer_device := mk_peer_device { pd_vnr : Z; pd_options : options }.

#[export] Instance eta_peer_device : Eta peer_device := fun r => mk_peer_device (pd_vnr r) (pd_options r).

(** [host_volumes] is [volumes] of a host. *)
Record d_host_info := mk_d_host_info { node_id : option string; host_volumes : list d_volume }.

(** [conn_me] is [me]; [cstate] is reported by "drbdsetup show". *)
Record connection := mk_connection {
  conn_at : Z;
  conn_ignore : bool;
  conn_me : bool;
  conn_adj_seen : bool;
  cstate : Z;
  conn_paths : list path;
  peer_devices : list peer_device;
  peer : option d_host_info;
  net_options : options
}.

#[export] Instance eta_connection : Eta connection :=
  fun r => mk_connection (conn_at r) (conn_ignore r) (conn_me r) (conn_adj_seen r) (cstate r)
    (conn_paths r) (peer_devices r) (peer r) (net_options r).

Definition find_peer_device (conn : connection) (n : Z) : option peer_device :=
  List.find (fun pd => pd_vnr pd =? n) (peer_devices conn).

(** [me_volumes] is [me->volumes] and [me_node_id] is [me->node_id];
    [res_net_options] and [res_disk_options] are [net_options] and
    [disk_options] of the resource. *)
Record d_resource := mk_d_resource {
  res_at : Z;
  res_name : string;
  me_volumes : list d_volume;
  connections : list connection;
  res_options : options;
  me_node_id : option string;
  all_hosts : list d_host_info;
  res_net_options : options;
  res_disk_options : options;
  startup_options : options;
  stacked_timeouts : bool
}.

#[export] Instance eta_d_resource : Eta d_resource :=
  fun r => mk_d_resource (res_at r) (res_name r) (me_volumes r) (connections r) (res_options r) (me_node_id r)
    (all_hosts r) (res_net_options r) (res_disk_options r) (startup_options r) (stacked_timeouts r).

(** A resource without options of its own. *)
Definition plain_resource (at_ : Z) (name : string) (vols : list d_volume) (conns : list connection)
    (opts : options) : d_resource :=
  mk_d_resource at_ name vols conns opts (Some "0") [] [] [] [] false.

(** ** Commands *)

Inductive drbd_cfg_stage :=
  | CFG_PREREQ | CFG_RESOURCE | CFG_DISK_PREP_DOWN | CFG_DISK_PREP_UP | CFG_NET_DISCONNECT
  | CFG_NET_PREP_DOWN | CFG_NET_PREP_UP | CFG_NET_PATH | CFG_NET | CFG_PEER_DEVICE | CFG_DISK
  | CFG_NET_CONNECT | CFG_WAIT_CONNECT.

#[export] Instance drbd_cfg_stage_eq_dec : EqDecision drbd_cfg_stage.
Proof. solve_decision. Defined.

(** In the order of the enumeration, up to [__CFG_LAST]. *)
Definition stages : list drbd_cfg_stage :=
  [CFG_PREREQ; CFG_RESOURCE; CFG_DISK_PREP_DOWN; CFG_DISK_PREP_UP; CFG_NET_DISCONNECT;
   CFG_NET_PREP_DOWN; CFG_NET_PREP_UP; CFG_NET_PATH; CFG_NET; CFG_PEER_DEVICE; CFG_DISK;
   CFG_NET_CONNECT; CFG_WAIT_CONNECT].

Lemma elem_of_stages s : s ∈ stages.
Proof. destruct s; apply (bool_decide_unpack _); by vm_compute. Qed.

Lemma stages_NoDup : NoDup stages.
Proof. apply (bool_decide_unpack _); by vm_compute. Qed.

(** The contexts of config_flags.c, whose fields come from the drbd-headers
    submodule for the most part. *)
Inductive setup_context :=
  | attach_cmd_ctx | detach_cmd_ctx | new_peer_cmd_ctx | path_cmd_ctx | connect_cmd_ctx
  | disconnect_cmd_ctx | net_options_ctx | resource_options_ctx | device_options_ctx
  | peer_device_options_ctx | disk_options_ctx | resize_cmd_ctx | primary_cmd_ctx | secondary_cmd_ctx | verify_cmd_ctx
  | invalidate_ctx | invalidate_adm_ctx | invalidate_peer_ctx | suspend_io_ctx
  | new_current_uuid_cmd_ctx | create_md_ctx | forceable_ctx | dump_superblock_ctx | repair_md_ctx
  | adjust_ctx | status_ctx | wildcard_ctx.

#[export] Instance setup_context_eq_dec : EqDecision setup_context.
Proof. solve_decision. Defined.

(** The commands that start drbdsetup and drbdmeta, or adjust; each is one
    object. *)
Inductive cmd_object :=
  | attach_cmd | disk_options_cmd | detach_cmd | new_peer_cmd | del_peer_cmd | new_path_cmd
  | del_path_cmd | connect_cmd | net_options_cmd | disconnect_cmd | res_options_cmd | down_cmd
  | primary_cmd | secondary_cmd | invalidate_cmd | invalidate_remote_cmd | outdate_cmd | resize_cmd
  | verify_cmd | pause_sync_cmd | resume_sync_cmd | adjust_cmd | sh_list_adjustable | wait_c_cmd
  | wait_sync_cmd | role_cmd | peer_role_cmd | cstate_cmd | dstate_cmd | status_cmd
  | peer_device_options_cmd | create_md_cmd | show_gi_cmd | get_gi_cmd | dump_md_cmd
  | dump_superblock_cmd | wipe_md_cmd | apply_al_cmd | forget_peer_cmd | repair_md_cmd
  | new_resource_cmd | new_minor_cmd | del_minor_cmd | suspend_io_cmd | resume_io_cmd | set_gi_cmd
  | new_current_uuid_cmd | check_resize_cmd | res_options_defaults_cmd | disk_options_defaults_cmd
  | disk_options_early_defaults_cmd | net_options_defaults_cmd | peer_device_options_defaults_cmd
  | wait_c_adj_cmd | invalidate_setup_cmd | forget_peer_setup_cmd | invalidate_meta_cmd
  | forget_peer_meta_cmd | output_res_name_cmd.

#[export] Instance cmd_object_eq_dec : EqDecision cmd_object.
Proof. solve_decision. Defined.

(** The fields of [struct adm_cmd] that matter for running a command. *)
Record adm_cmd := mk_adm_cmd {
  cmd_name : string;
  stage : drbd_cfg_stage;
  drbdsetup_ctx : option setup_context;
  disk_required : bool;
  iterate_paths : bool;
  iterate_volumes : bool;
  need_peer : bool;
  backend_res_name : bool;
  takes_long : bool
}.

#[export] Instance eta_adm_cmd : Eta adm_cmd :=
  fun r => mk_adm_cmd (cmd_name r) (stage r) (drbdsetup_ctx r) (disk_required r) (iterate_paths r)
    (iterate_volumes r) (need_peer r) (backend_res_name r) (takes_long r).

(** The macros with the common flags. *)
Definition ACF1_DEFAULT (name : string) (s : drbd_cfg_stage) (ctx : option setup_context) : adm_cmd :=
  mk_adm_cmd name s ctx false false true false true false.
Definition ACF1_MINOR_ONLY (name : string) (s : drbd_cfg_stage) (ctx : option setup_context) : adm_cmd :=
  mk_adm_cmd name s ctx true false true false false false.
Definition ACF1_RESNAME (name : string) (s : drbd_cfg_stage) (ctx : option setup_context) : adm_cmd :=
  mk_adm_cmd name s ctx false false false false true false.
Definition ACF1_CONNECT (name : string) (s : drbd_cfg_stage) (ctx : option setup_context) : adm_cmd :=
  mk_adm_cmd name s ctx false false false true true false.
Definition ACF1_DISCONNECT (name : string) (s : drbd_cfg_stage) (ctx : option setup_context) : adm_cmd :=
  mk_adm_cmd name s ctx false false false true true false.
Definition ACF1_WAIT (name : string) (s : drbd_cfg_stage) (ctx : option setup_context) : adm_cmd :=
  mk_adm_cmd name s ctx false false false false false false.
Definition ACF1_PEER_DEVICE (name : string) (s : drbd_cfg_stage) (ctx : option setup_context) : adm_cmd :=
  mk_adm_cmd name s ctx false false true true true false.
Definition ACF4_ADVANCED (name : string) (s : drbd_cfg_stage) (ctx : option setup_context) : adm_cmd :=
  mk_adm_cmd name s ctx false false true false true false.
Definition ACF2_SH_RESNAME (name : string) (s : drbd_cfg_stage) (ctx : option setup_context) : adm_cmd :=
  mk_adm_cmd name s ctx false false false false true false.

(** A command without a stage has the first one. *)
Definition adm_cmd_of (cmd : cmd_object) : adm_cmd :=
  match cmd with
  | attach_cmd => ACF1_MINOR_ONLY "attach" CFG_DISK (Some attach_cmd_ctx)
  | disk_options_cmd => ACF1_MINOR_ONLY "disk-options" CFG_DISK (Some attach_cmd_ctx)
  | detach_cmd => ACF1_MINOR_ONLY "detach" CFG_DISK_PREP_DOWN (Some detach_cmd_ctx) <| takes_long := true |>
  | new_peer_cmd => ACF1_CONNECT "new-peer" CFG_NET_PREP_UP (Some new_peer_cmd_ctx)
  | del_peer_cmd => ACF1_CONNECT "del-peer" CFG_NET_PREP_DOWN (Some disconnect_cmd_ctx)
  | new_path_cmd => ACF1_CONNECT "new-path" CFG_NET_PATH (Some path_cmd_ctx) <| iterate_paths := true |>
  | del_path_cmd => ACF1_CONNECT "del-path" CFG_NET_PREP_DOWN (Some path_cmd_ctx) <| iterate_paths := true |>
  | connect_cmd => ACF1_CONNECT "connect" CFG_NET_CONNECT (Some connect_cmd_ctx)
  | net_options_cmd => ACF1_CONNECT "net-options" CFG_NET_PREP_UP (Some net_options_ctx)
  | disconnect_cmd => ACF1_DISCONNECT "disconnect" CFG_NET_DISCONNECT (Some disconnect_cmd_ctx)
  | res_options_cmd => ACF1_RESNAME "resource-options" CFG_RESOURCE (Some resource_options_ctx)
  | down_cmd => ACF1_RESNAME "down" CFG_PREREQ None <| takes_long := true |>
  | primary_cmd => ACF1_RESNAME "primary" CFG_PREREQ (Some primary_cmd_ctx) <| takes_long := true |>
  | secondary_cmd => ACF1_RESNAME "secondary" CFG_PREREQ (Some secondary_cmd_ctx) <| takes_long := true |>
  | invalidate_cmd => ACF1_MINOR_ONLY "invalidate" CFG_PREREQ (Some invalidate_adm_ctx)
  | invalidate_remote_cmd =>
      ACF1_PEER_DEVICE "invalidate-remote" CFG_PREREQ (Some invalidate_peer_ctx) <| takes_long := true |>
  | outdate_cmd => ACF1_DEFAULT "outdate" CFG_PREREQ None
  | resize_cmd => ACF1_DEFAULT "resize" CFG_DISK (Some resize_cmd_ctx) <| disk_required := true |>
  | verify_cmd => ACF1_PEER_DEVICE "verify" CFG_PREREQ (Some verify_cmd_ctx)
  | pause_sync_cmd => ACF1_PEER_DEVICE "pause-sync" CFG_PREREQ None
  | resume_sync_cmd => ACF1_PEER_DEVICE "resume-sync" CFG_PREREQ None
  | adjust_cmd => ACF1_RESNAME "adjust" CFG_PREREQ (Some adjust_ctx)
  | sh_list_adjustable => ACF2_SH_RESNAME "sh-list-adjustable" CFG_PREREQ (Some adjust_ctx)
  | wait_c_cmd => ACF1_WAIT "wait-connect" CFG_PREREQ None
  | wait_sync_cmd => ACF1_WAIT "wait-sync" CFG_PREREQ None
  | role_cmd => ACF1_RESNAME "role" CFG_PREREQ None
  | peer_role_cmd => ACF1_DISCONNECT "peer-role" CFG_PREREQ None
  | cstate_cmd => ACF1_DISCONNECT "cstate" CFG_PREREQ None
  | dstate_cmd => ACF1_MINOR_ONLY "dstate" CFG_PREREQ (Some forceable_ctx) <| disk_required := false |>
  | status_cmd => mk_adm_cmd "status" CFG_PREREQ (Some status_ctx) false false false false true false
  | peer_device_options_cmd =>
      ACF1_PEER_DEVICE "peer-device-options" CFG_PEER_DEVICE (Some peer_device_options_ctx)
  | create_md_cmd => ACF1_MINOR_ONLY "create-md" CFG_PREREQ (Some create_md_ctx)
  | show_gi_cmd => ACF1_PEER_DEVICE "show-gi" CFG_PREREQ (Some forceable_ctx) <| disk_required := true |>
  | get_gi_cmd => ACF1_PEER_DEVICE "get-gi" CFG_PREREQ (Some forceable_ctx) <| disk_required := true |>
  | dump_md_cmd => ACF1_MINOR_ONLY "dump-md" CFG_PREREQ (Some forceable_ctx)
  | dump_superblock_cmd => ACF1_MINOR_ONLY "dump-superblock" CFG_PREREQ (Some dump_superblock_ctx)
  | wipe_md_cmd => ACF1_MINOR_ONLY "wipe-md" CFG_PREREQ (Some forceable_ctx)
  | apply_al_cmd => ACF1_MINOR_ONLY "apply-al" CFG_PREREQ (Some forceable_ctx)
  | forget_peer_cmd => ACF1_DISCONNECT "forget-peer" CFG_PREREQ (Some forceable_ctx)
  | repair_md_cmd => ACF1_MINOR_ONLY "repair-md" CFG_PREREQ (Some repair_md_ctx)
  | new_resource_cmd => ACF2_SH_RESNAME "new-resource" CFG_PREREQ (Some resource_options_ctx)
  | new_minor_cmd => ACF4_ADVANCED "new-minor" CFG_DISK_PREP_UP (Some device_options_ctx)
  | del_minor_cmd => ACF1_MINOR_ONLY "del-minor" CFG_DISK_PREP_DOWN None <| disk_required := false |>
  | suspend_io_cmd => ACF4_ADVANCED "suspend-io" CFG_PREREQ (Some suspend_io_ctx) <| backend_res_name := false |>
  | resume_io_cmd => ACF4_ADVANCED "resume-io" CFG_PREREQ None <| backend_res_name := false |>
  | set_gi_cmd => mk_adm_cmd "set-gi" CFG_PREREQ (Some wildcard_ctx) true false true true true false
  | new_current_uuid_cmd =>
      ACF4_ADVANCED "new-current-uuid" CFG_PREREQ (Some new_current_uuid_cmd_ctx) <| backend_res_name := false |>
  | check_resize_cmd => ACF4_ADVANCED "check-resize" CFG_PREREQ None
  | res_options_defaults_cmd => ACF1_RESNAME "resource-options" CFG_RESOURCE (Some resource_options_ctx)
  | disk_options_defaults_cmd => ACF1_MINOR_ONLY "disk-options" CFG_DISK (Some attach_cmd_ctx)
  | disk_options_early_defaults_cmd => ACF1_MINOR_ONLY "disk-options" CFG_DISK_PREP_UP (Some attach_cmd_ctx)
  | net_options_defaults_cmd => ACF1_CONNECT "net-options" CFG_NET (Some net_options_ctx)
  | peer_device_options_defaults_cmd =>
      ACF1_CONNECT "peer-device-options" CFG_PEER_DEVICE (Some peer_device_options_ctx)
  | wait_c_adj_cmd => ACF1_WAIT "wait-connect" CFG_WAIT_CONNECT None
  | invalidate_setup_cmd => ACF1_MINOR_ONLY "invalidate" CFG_PREREQ (Some invalidate_ctx)
  | forget_peer_setup_cmd => ACF1_DISCONNECT "forget-peer" CFG_PREREQ None
  | invalidate_meta_cmd => ACF1_MINOR_ONLY "invalidate" CFG_PREREQ (Some forceable_ctx)
  | forget_peer_meta_cmd => ACF1_PEER_DEVICE "forget-peer" CFG_PREREQ (Some forceable_ctx) <| disk_required := true |>
  | output_res_name_cmd => mk_adm_cmd "" CFG_PREREQ None false false false false false false
  end.

(** The exit code for internal errors. *)
Definition E_THINKO : Z := 42.

(** What a command works on. *)
Record cfg_ctx := mk_cfg_ctx {
  ctx_res : d_resource;
  ctx_vol : option d_volume;
  ctx_conn : option connection;
  ctx_path : option path;
  ctx_cmd : cmd_object
}.

(** ** Lemmas *)

Lemma find_opt_Some base name opt : find_opt base name = Some opt -> opt ∈ base /\ o_name opt = name.
Proof. intros [H1 H2%String.eqb_eq]%find_some. by rewrite list_elem_of_In. Qed.

Lemma find_opt_elem base opt :
  NoDup (o_name <$> base) -> opt ∈ base -> find_opt base (o_name opt) = Some opt.
Proof.
  induction base as [|o base IH]; [by intros _ ?%elem_of_nil|].
  cbn [fmap list_fmap]. intros [Ho Hnd]%NoDup_cons [->|Hin]%elem_of_cons; unfold find_opt; cbn.
  - by rewrite String.eqb_refl.
  - destruct (String.eqb_spec (o_name o) (o_name opt)) as [Heq|]; [|by apply IH].
    exfalso. apply Ho. rewrite Heq. by apply list_elem_of_fmap_2.
Qed.

Lemma find_opt_None base name : find_opt base name = None <-> name ∉ (o_name <$> base).
Proof.
  split.
  - intros Hf (opt & -> & Hin)%list_elem_of_fmap. eapply find_none in Hf; [|by apply list_elem_of_In].
    by rewrite String.eqb_refl in Hf.
  - intros Hn. destruct (find_opt base name) as [opt|] eqn:Hf; [|done].
    apply find_opt_Some in Hf as [Hin <-]. exfalso. apply Hn. by apply list_elem_of_fmap_2.
Qed.
