(* ===== verification/Deferred.v ===== *)
(** * Deferred commands of drbdadm

    drbdadm (user/v9/drbdadm_main.c) first schedules the commands that bring a
    resource up or adjust it, stage by stage and with dependencies between
    them, and runs them at the end.

    The functions of the commands, which start other programs, are a parameter:
    [function ctx w] is the return value, or an exit, and the world after it.
    The heads of the stages, the commands on the heap and the two counters are
    global variables; an address is an index into the heap. *)

From S2P Require Import Prelude Machine ConfigFlags Address AdmConfig.
From Stdlib Require Import String.
From stdpp Require Import strings functions sorting.

#[local] Open Scope string_scope.
#[local] Open Scope list_scope.
#[local] Open Scope Z_scope.

(** ** The state *)

Record deferred_cmd := mk_deferred_cmd {
  dc_ctx : cfg_ctx;
  depends_on : option nat;
  done : bool
}.

#[export] Instance eta_deferred_cmd : Eta deferred_cmd :=
  fun r => mk_deferred_cmd (dc_ctx r) (depends_on r) (done r).

(** [skipped_res] are the addresses of the resources with
    [skip_further_deferred_command]; [ran] is ghost state: the commands whose
    functions were called, in this order. *)
Record sched := mk_sched {
  heap : list deferred_cmd;
  deferred_cmds : drbd_cfg_stage -> list nat;
  scheduled_deferred_cmds : Z;
  executed_deferred_cmds : Z;
  skipped_res : list Z;
  ran : list nat
}.

#[export] Instance eta_sched : Eta sched :=
  fun r => mk_sched (heap r) (deferred_cmds r) (scheduled_deferred_cmds r) (executed_deferred_cmds r)
    (skipped_res r) (ran r).

Definition initialize_deferred_cmds : sched := mk_sched [] (fun _ => []) 0 0 [] [].

Definition dc_stage (d : deferred_cmd) : drbd_cfg_stage := stage (adm_cmd_of (ctx_cmd (dc_ctx d))).

(** ** Scheduling *)

Definition same_conn (a b : option connection) : bool := bool_decide (conn_at <$> a = conn_at <$> b).

(** The command the loop of [schedule_deferred_cmd] returns. *)
Fixpoint find_scheduled (h : list deferred_cmd) (cmd : cmd_object) (ctx : cfg_ctx) (once_per_res : bool)
    (queue : list nat) : res (option nat) :=
  match queue with
  | [] => Ok None
  | i :: queue' =>
      match h !! i with
      | None => Fault
      | Some d =>
          if negb (bool_decide (ctx_cmd (dc_ctx d) = cmd)) ||
             (negb (res_at (ctx_res (dc_ctx d)) =? res_at (ctx_res ctx)) &&
              negb (String.eqb (res_name (ctx_res (dc_ctx d))) (res_name (ctx_res ctx))))
          then find_scheduled h cmd ctx once_per_res queue'
          else if once_per_res then Ok (Some i)
          else if same_conn (ctx_conn (dc_ctx d)) (ctx_conn ctx) then
            match ctx_vol (dc_ctx d), ctx_vol ctx with
            | Some a, Some b =>
                if vnr a =? vnr b then Ok (Some i) else find_scheduled h cmd ctx once_per_res queue'
            | _, _ => Fault
            end
          else find_scheduled h cmd ctx once_per_res queue'
      end
  end.

Inductive schedule_flag := SCHEDULE_ALWAYS | SCHEDULE_ONCE | SCHED_ONCE_P_RESOURCE.

#[export] Instance schedule_flag_eq_dec : EqDecision schedule_flag.
Proof. solve_decision. Defined.

(** A new command at the end of its stage. *)
Definition with_cmd (ctx : cfg_ctx) (cmd : cmd_object) : cfg_ctx :=
  mk_cfg_ctx (ctx_res ctx) (ctx_vol ctx) (ctx_conn ctx) (ctx_path ctx) cmd.

Definition enqueue (cmd : cmd_object) (ctx : cfg_ctx) (dep : option nat) (st : sched) : nat * sched :=
  let i := length (heap st) in
  let s := stage (adm_cmd_of cmd) in
  (i, st <| heap := heap st ++ [mk_deferred_cmd (with_cmd ctx cmd) dep false] |>
         <| deferred_cmds := <[s := deferred_cmds st s ++ [i]]> (deferred_cmds st) |>
         <| scheduled_deferred_cmds := scheduled_deferred_cmds st + 1 |>).

Definition schedule_deferred_cmd (cmd : cmd_object) (ctx : cfg_ctx) (dep : option nat)
    (flags : schedule_flag) (st : sched) : res (nat * sched) :=
  found ← (if bool_decide (flags = SCHEDULE_ALWAYS) then Ok None
           else find_scheduled (heap st) cmd ctx (bool_decide (flags = SCHED_ONCE_P_RESOURCE))
                  (deferred_cmds st (stage (adm_cmd_of cmd))));
  match found with
  | Some i => Ok (i, st)
  | None => Ok (enqueue cmd ctx dep st)
  end.

Definition mark_done (d : deferred_cmd) : deferred_cmd := d <| done := true |>.
#[local] Arguments mark_done : simpl never.

Definition set_done (i : nat) (st : sched) : sched := st <| heap := alter mark_done i (heap st) |>.

Definition cancel_deferred_cmd (i : nat) (st : sched) : sched :=
  match heap st !! i with
  | Some d =>
      if done d then st
      else set_done i st <| scheduled_deferred_cmds := scheduled_deferred_cmds st - 1 |>
  | None => st
  end.

Definition cancel_deferred_waits (r : d_resource) (st : sched) : sched :=
  fold_left (fun st i =>
    match heap st !! i with
    | Some d => if res_at (ctx_res (dc_ctx d)) =? res_at r then cancel_deferred_cmd i st else st
    | None => st
    end) (deferred_cmds st CFG_WAIT_CONNECT) st.

(** ** Running *)

Inductive on_error_t := KEEP_RUNNING | EXIT_ON_FAIL | SKIP_MISSING_DISK.

Definition has_unmet_dependency (h : list deferred_cmd) (d : deferred_cmd) : bool :=
  match depends_on d with
  | None => false
  | Some i => match h !! i with Some dep => negb (done dep) | None => false end
  end.

(** A failure of these ends the work on a resource. *)
Definition prerequisite (s : drbd_cfg_stage) : bool :=
  match s with
  | CFG_PREREQ | CFG_DISK_PREP_DOWN | CFG_DISK_PREP_UP | CFG_NET_PREP_DOWN | CFG_NET_PREP_UP => true
  | _ => false
  end.

Section Running.
Context {W : Type} (function : cfg_ctx -> W -> res Z * W).

(** One call of the function, which ends the program on an error it may not
    survive. *)
Definition call_function (ctx : cfg_ctx) (on_error : on_error_t) (w : W) : res Z * W :=
  let '(r, w) := function ctx w in
  match r with
  | Ok rv => (match on_error with
              | KEEP_RUNNING => Ok rv
              | _ => if 20 <=? rv then Exit rv else Ok rv
              end, w)
  | r => (r, w)
  end.

(** The loop over the paths; [rv] is the last return value. *)
Fixpoint call_paths (ctx : cfg_ctx) (on_error : on_error_t) (paths : list path) (rv : Z) (w : W) : res Z * W :=
  match paths with
  | [] => (Ok rv, w)
  | p :: paths' =>
      if path_ignore p then call_paths ctx on_error paths' rv w
      else
        match call_function (mk_cfg_ctx (ctx_res ctx) (ctx_vol ctx) (ctx_conn ctx) (Some p) (ctx_cmd ctx)) on_error w with
        | (Ok rv, w) => call_paths ctx on_error paths' rv w
        | r => r
        end
  end.

Definition no_local_disk (vol : d_volume) : bool :=
  bool_decide (disk vol = None \/ meta_disk vol = None \/ meta_index vol = None).

Definition __call_cmd_fn (ctx : cfg_ctx) (on_error : on_error_t) (w : W) : res Z * W :=
  let cmd := adm_cmd_of (ctx_cmd ctx) in
  let call :=
    if bool_decide (ctx_path ctx = None) && iterate_paths cmd then
      match ctx_conn ctx with
      | Some conn => call_paths ctx on_error (conn_paths conn) 0 w
      | None => (Fault, w)
      end
    else call_function ctx on_error w in
  if disk_required cmd then
    match ctx_vol ctx with
    | None => (Fault, w)
    | Some vol =>
        if no_local_disk vol then
          (match on_error with SKIP_MISSING_DISK => Ok 0 | EXIT_ON_FAIL => Exit 10 | KEEP_RUNNING => Ok 10 end, w)
        else call
    end
  else call.

(** Runs, or skips, the command at [i]. *)
Definition run_one (s : drbd_cfg_stage) (i : nat) (d : deferred_cmd) (st : sched) (w : W) :
    res Z * sched * W :=
  let res := ctx_res (dc_ctx d) in
  let count (st : sched) := st <| executed_deferred_cmds := executed_deferred_cmds st + 1 |> in
  if bool_decide (res_at res ∈ skipped_res st) then (Ok 0, count st, w)
  else
    let '(r, w) := __call_cmd_fn (dc_ctx d) KEEP_RUNNING w in
    let st := st <| ran := ran st ++ [i] |> in
    match r with
    | Ok rv =>
        let st := if truth rv && prerequisite s then st <| skipped_res := res_at res :: skipped_res st |> else st in
        (Ok rv, count (set_done i st), w)
    | r => (r, st, w)
    end.

(** The loop of [_run_deferred_cmds] over what is left of the queue. *)
Fixpoint run_queue (s : drbd_cfg_stage) (queue : list nat) (rv : Z) (st : sched) (w : W) :
    res Z * sched * W :=
  match queue with
  | [] => (Ok rv, st, w)
  | i :: queue' =>
      match heap st !! i with
      | None => (Fault, st, w)
      | Some d =>
          if has_unmet_dependency (heap st) d || done d then run_queue s queue' rv st w
          else
            match run_one s i d st w with
            | (Ok r, st, w) => run_queue s queue' (if rv <? r then r else rv) st w
            | x => x
            end
      end
  end.

Definition _run_deferred_cmds (s : drbd_cfg_stage) (st : sched) (w : W) : res Z * sched * W :=
  run_queue s (deferred_cmds st s) 0 st w.

(** One turn of the [do] loop over the stages; the result is [Some] when the
    function returns at once. *)
Fixpoint run_stages (adjust_with_progress : bool) (l : list drbd_cfg_stage) (ret : Z) (st : sched) (w : W) :
    res (option Z * Z) * sched * W :=
  match l with
  | [] => (Ok (None, ret), st, w)
  | s :: l' =>
      match _run_deferred_cmds s st w with
      | (Ok r, st, w) =>
          if truth r then
            if adjust_with_progress then run_stages adjust_with_progress l' 1 st w
            else (Ok (Some 1, ret), st, w)
          else run_stages adjust_with_progress l' ret st w
      | (Exit c, st, w) => (Exit c, st, w)
      | (Abort, st, w) => (Abort, st, w)
      | (Fault, st, w) => (Fault, st, w)
      end
  end.

(** [None]: out of fuel. *)
Fixpoint run_loop (fuel : nat) (adjust_with_progress : bool) (ret : Z) (st : sched) (w : W) :
    option (res Z * sched * W) :=
  match fuel with
  | O => None
  | S fuel' =>
      match run_stages adjust_with_progress stages ret st w with
      | (Ok (Some r, _), st, w) => Some (Ok r, st, w)
      | (Ok (None, ret), st, w) =>
          if executed_deferred_cmds st <? scheduled_deferred_cmds st
          then run_loop fuel' adjust_with_progress ret st w
          else Some (Ok ret, st, w)
      | (Exit c, st, w) => Some (Exit c, st, w)
      | (Abort, st, w) => Some (Abort, st, w)
      | (Fault, st, w) => Some (Fault, st, w)
      end
  end.

Definition run_deferred_cmds (fuel : nat) (adjust_with_progress : bool) (st : sched) (w : W) :
    option (res Z * sched * W) :=
  run_loop fuel adjust_with_progress 0 st w.
End Running.

(** ** Invariants *)

Definition not_done (h : list deferred_cmd) (i : nat) : Prop := exists d, h !! i = Some d /\ done d = false.

Definition undone (h : list deferred_cmd) : Z := Z.of_nat (length (filter (fun d => done d = false) h)).

(** Every command is once in the queue of its stage, in the order of their
    addresses, depends on earlier ones only, and is counted. *)
Record wf_sched (st : sched) : Prop := {
  wf_sorted s : StronglySorted lt (deferred_cmds st s);
  wf_queue s i : i ∈ deferred_cmds st s <-> exists d, heap st !! i = Some d /\ dc_stage d = s;
  wf_dep i d j : heap st !! i = Some d -> depends_on d = Some j -> (j < i)%nat;
  wf_count : scheduled_deferred_cmds st <= executed_deferred_cmds st + undone (heap st);
  wf_ran_NoDup : NoDup (ran st);
  wf_ran i : i ∈ ran st -> exists d, heap st !! i = Some d /\ done d = true
}.

Lemma lt_sorted_NoDup (l : list nat) : StronglySorted lt l -> NoDup l.
Proof.
  induction 1 as [|i l _ IH Hi]; [constructor|]. rewrite List.Forall_forall in Hi.
  constructor; [|done]. intros Hin%list_elem_of_In%Hi. lia.
Qed.

Lemma wf_queue_NoDup st s : wf_sched st -> NoDup (deferred_cmds st s).
Proof. intros Hwf. apply lt_sorted_NoDup, (wf_sorted st Hwf). Qed.

(** Nothing has been counted twice. *)
Definition balanced (st : sched) : Prop :=
  scheduled_deferred_cmds st = executed_deferred_cmds st + undone (heap st).

(** A command has run after the one it depends on, unless that one was
    cancelled. *)
Definition in_order (st : sched) : Prop :=
  forall k i d j, ran st !! k = Some i -> heap st !! i = Some d -> depends_on d = Some j ->
    (exists k', (k' < k)%nat /\ ran st !! k' = Some j) \/ (j ∉ ran st /\ ~ not_done (heap st) j).

Lemma undone_app h1 h2 : undone (h1 ++ h2) = undone h1 + undone h2.
Proof. unfold undone. rewrite list.filter_app, length_app. lia. Qed.

Lemma undone_alter h i d :
  h !! i = Some d -> done d = false -> undone (alter mark_done i h) = undone h - 1.
Proof.
  revert i. induction h as [|d' h IH]; intros [|i]; [done..| |].
  - intros [= ->] Hd. unfold undone. cbn [alter list_alter]. rewrite !filter_cons.
    rewrite decide_False by (cbv; discriminate). rewrite decide_True by done. cbn [length]. lia.
  - cbn. intros Hi Hd. specialize (IH i Hi Hd). unfold undone in *.
    change (list_alter ?f i h) with (alter f i h). rewrite !filter_cons. case_decide; cbn [length]; lia.
Qed.

Lemma undone_pos h : 0 < undone h -> exists i, not_done h i.
Proof.
  unfold undone. intros Hu. destruct (filter _ h) as [|d l] eqn:Hf; [done|].
  assert (d ∈ d :: l) as Hd by by left. rewrite <- Hf in Hd. apply list_elem_of_filter in Hd as [Hd Hin].
  apply list_elem_of_lookup_1 in Hin as [i Hi]. by exists i, d.
Qed.

Lemma undone_zero h i : undone h = 0 -> ~ not_done h i.
Proof.
  unfold undone. intros Hu (d & Hi & Hd).
  assert (d ∈ filter (fun d => done d = false) h) as Hin
    by (apply list_elem_of_filter; split; [done|by eapply list_elem_of_lookup_2]).
  destruct (filter _ h); [by apply elem_of_nil in Hin|done].
Qed.

(** Marking one command leaves the others. *)
Lemma lookup_set_done st i j d :
  heap (set_done i st) !! j = Some d ->
  exists d0, heap st !! j = Some d0 /\ dc_ctx d = dc_ctx d0 /\ depends_on d = depends_on d0 /\
    done d = if decide (j = i) then true else done d0.
Proof.
  unfold set_done. cbn [heap]. replace (heap (st <| heap := alter mark_done i (heap st) |>))
    with (alter mark_done i (heap st)) by reflexivity.
  destruct (decide (j = i)) as [->|Hne].
  - rewrite list_lookup_alter_eq. destruct (heap st !! i) as [d0|]; [|done]. intros [= <-]. by exists d0.
  - rewrite list_lookup_alter_ne by done. intros Hd. by exists d.
Qed.

Lemma lookup_set_done_2 st i j d0 :
  heap st !! j = Some d0 -> exists d, heap (set_done i st) !! j = Some d /\
    dc_ctx d = dc_ctx d0 /\ depends_on d = depends_on d0 /\ done d = if decide (j = i) then true else done d0.
Proof.
  intros Hj. destruct (heap (set_done i st) !! j) as [d|] eqn:Hd.
  - exists d. split; [done|]. apply lookup_set_done in Hd as (d1 & Hd1 & ?). by simplify_eq.
  - exfalso. apply lookup_ge_None in Hd. apply lookup_lt_Some in Hj.
    unfold set_done in Hd. replace (heap (st <| heap := alter mark_done i (heap st) |>))
      with (alter mark_done i (heap st)) in Hd by reflexivity.
    rewrite length_alter in Hd. lia.
Qed.

Lemma initialize_wf : wf_sched initialize_deferred_cmds.
Proof.
  split; cbn; [constructor|intros s i; split; [by intros ?%elem_of_nil|by intros (d & ? & _)]|done|done|constructor|].
  by intros i ?%elem_of_nil.
Qed.

Lemma lookup_snoc_Some {A} (l : list A) (x y : A) i :
  (l ++ [x]) !! i = Some y <-> l !! i = Some y \/ (i = length l /\ y = x).
Proof.
  rewrite lookup_app_Some, list_lookup_singleton_Some. split.
  - intros [?|(? & ? & <-)]; [by left|right; split; [lia|done]].
  - intros [?|[-> ->]]; [by left|right; split_and!; [lia..|done]].
Qed.

Lemma enqueue_queue cmd ctx dep st s :
  deferred_cmds (enqueue cmd ctx dep st).2 s =
  deferred_cmds st s ++ (if decide (s = stage (adm_cmd_of cmd)) then [length (heap st)] else []).
Proof.
  unfold enqueue. cbn [snd].
  transitivity ((<[stage (adm_cmd_of cmd) := deferred_cmds st (stage (adm_cmd_of cmd)) ++ [length (heap st)]]>
    (deferred_cmds st)) s); [done|].
  case_decide as Hs; [by rewrite Hs, fn_lookup_insert|]. by rewrite fn_lookup_insert_ne, app_nil_r.
Qed.

Lemma lt_sorted_snoc (l : list nat) n :
  StronglySorted lt l -> (forall i, i ∈ l -> (i < n)%nat) -> StronglySorted lt (l ++ [n]).
Proof.
  induction 1 as [|i l Hs IH Hi]; intros Hn; [by repeat constructor|]. cbn. constructor.
  - apply IH. intros j Hj. apply Hn. by right.
  - rewrite List.Forall_forall in *. intros j Hj%list_elem_of_In.
    apply elem_of_app in Hj as [Hj%list_elem_of_In|Hj%list_elem_of_singleton]; [by apply Hi|subst j]. apply Hn. by left.
Qed.

Lemma enqueue_wf cmd ctx dep st :
  wf_sched st -> (forall j, dep = Some j -> (j < length (heap st))%nat) ->
  wf_sched (enqueue cmd ctx dep st).2.
Proof.
  intros Hwf Hdep. set (d0 := mk_deferred_cmd (with_cmd ctx cmd) dep false).
  assert (forall s i, i ∈ deferred_cmds st s -> (i < length (heap st))%nat) as Hlt.
  { intros s i (d & Hi & _)%(wf_queue st Hwf). by eapply lookup_lt_Some. }
  assert (heap (enqueue cmd ctx dep st).2 = heap st ++ [d0]) as Hh by reflexivity.
  split.
  - intros s. rewrite enqueue_queue. case_decide; [|rewrite app_nil_r; by apply wf_sorted].
    apply lt_sorted_snoc; [by apply wf_sorted|]. intros i Hi%Hlt. done.
  - intros s i. rewrite enqueue_queue, Hh, elem_of_app, (wf_queue st Hwf). setoid_rewrite lookup_snoc_Some.
    case_decide as Hs; rewrite ?list_elem_of_singleton, ?elem_of_nil; naive_solver.
  - intros i d j. rewrite Hh, lookup_snoc_Some. intros [Hi|[-> ->]] Hd; [by eapply wf_dep|by apply Hdep].
  - rewrite Hh, undone_app. pose proof (wf_count st Hwf).
    change (scheduled_deferred_cmds st + 1 <= executed_deferred_cmds st + (undone (heap st) + 1)). lia.
  - apply (wf_ran_NoDup st Hwf).
  - intros i (d & Hi & Hd)%(wf_ran st Hwf). exists d. rewrite Hh. split; [by apply lookup_app_l_Some|done].
Qed.

Lemma schedule_wf cmd ctx dep flags st i st' :
  wf_sched st -> (forall j, dep = Some j -> (j < length (heap st))%nat) ->
  schedule_deferred_cmd cmd ctx dep flags st = Ok (i, st') -> wf_sched st'.
Proof.
  intros Hwf Hdep. unfold schedule_deferred_cmd. destruct (if bool_decide _ then _ else _) as [[j|]| | |]; [|..| |]; cbn; try done.
  - by intros [= _ <-].
  - intros Hs. apply (f_equal (fun r => match r with Ok x => Some x.2 | _ => None end)) in Hs.
    cbn [snd] in Hs. apply (inj Some) in Hs as <-. by apply enqueue_wf.
Qed.

(** Nothing has been run or cancelled yet. *)
Record untouched (st : sched) : Prop := {
  un_wf :> wf_sched st;
  un_balanced :> balanced st;
  un_ran : ran st = [];
  un_skipped : skipped_res st = []
}.

Lemma untouched_in_order st : untouched st -> in_order st.
Proof. intros Hu k i d j. by rewrite (un_ran _ Hu). Qed.

Lemma initialize_untouched : untouched initialize_deferred_cmds.
Proof. split; [apply initialize_wf|done..]. Qed.

Lemma enqueue_balanced cmd ctx dep st : balanced st -> balanced (enqueue cmd ctx dep st).2.
Proof.
  unfold balanced. intros Hb. replace (heap (enqueue cmd ctx dep st).2)
    with (heap st ++ [mk_deferred_cmd (with_cmd ctx cmd) dep false]) by reflexivity.
  rewrite undone_app. change (undone [_]) with 1.
  change (scheduled_deferred_cmds st + 1 = executed_deferred_cmds st + (undone (heap st) + 1)). lia.
Qed.

Lemma enqueue_untouched cmd ctx dep st :
  untouched st -> (forall j, dep = Some j -> (j < length (heap st))%nat) -> untouched (enqueue cmd ctx dep st).2.
Proof.
  intros [Hwf Hb Hr Hs] Hdep. split; [by apply enqueue_wf|by apply enqueue_balanced|done|done].
Qed.

(** What a run never changes, and what only grows. *)
Record later (st st' : sched) : Prop := {
  later_queue : deferred_cmds st' = deferred_cmds st;
  later_executed : executed_deferred_cmds st <= executed_deferred_cmds st';
  later_heap : Forall2 (fun d d' => dc_ctx d' = dc_ctx d /\ depends_on d' = depends_on d /\
                          (done d = true -> done d' = true)) (heap st) (heap st')
}.

#[export] Instance later_preorder : PreOrder later.
Proof.
  split.
  - intros st. split; [done|lia|]. by apply Forall_Forall2_diag, Forall_true.
  - intros st1 st2 st3 [Q1 E1 H1] [Q2 E2 H2]. split; [congruence|lia|].
    revert H1 H2. generalize (heap st1) (heap st2) (heap st3). intros h1 h2 h3 H1. revert h3.
    induction H1 as [|a b h1 h2 Hab _ IH]; intros h3 H2; [by apply Forall2_nil_inv_l in H2 as ->|].
    apply Forall2_cons_inv_l in H2 as (c & h3' & Hbc & H2 & ->). constructor; [|by apply IH].
    destruct Hab as (? & ? & ?), Hbc as (? & ? & ?). split_and!; [congruence..|auto].
Qed.

Lemma later_lookup st st' i d :
  later st st' -> heap st !! i = Some d -> exists d', heap st' !! i = Some d' /\ dc_ctx d' = dc_ctx d /\
    depends_on d' = depends_on d /\ (done d = true -> done d' = true).
Proof. intros Hl Hi. destruct (Forall2_lookup_l _ _ _ _ _ (later_heap _ _ Hl) Hi) as (d' & Hd & H). eauto. Qed.

Lemma later_lookup_2 st st' i d' :
  later st st' -> heap st' !! i = Some d' -> exists d, heap st !! i = Some d /\ dc_ctx d' = dc_ctx d /\
    depends_on d' = depends_on d /\ (done d = true -> done d' = true).
Proof. intros Hl Hi. destruct (Forall2_lookup_r _ _ _ _ _ (later_heap _ _ Hl) Hi) as (d & Hd & H). eauto. Qed.

Lemma later_not_done st st' i : later st st' -> not_done (heap st') i -> not_done (heap st) i.
Proof.
  intros Hl (d' & Hi & Hd). destruct (later_lookup_2 _ _ _ _ Hl Hi) as (d & Hd1 & _ & _ & Hm).
  exists d. split; [done|]. destruct (done d); [by rewrite Hm in Hd|done].
Qed.

Lemma later_set_done st i : later st (set_done i st).
Proof.
  split; [done|done|]. apply Forall2_same_length_lookup. split.
  - symmetry. apply length_alter.
  - intros j d d' Hd Hd'. apply lookup_set_done in Hd' as (d0 & Hd0 & ? & ? & Hdn). simplify_eq.
    split_and!; [done..|]. rewrite Hdn. by case_decide.
Qed.

(** Marking a command that is to be done. *)
Lemma set_done_facts st i d :
  wf_sched st -> heap st !! i = Some d -> done d = false ->
  undone (heap (set_done i st)) = undone (heap st) - 1 /\
  (forall j, not_done (heap (set_done i st)) j <-> not_done (heap st) j /\ j <> i).
Proof.
  intros Hwf Hi Hd. split; [by eapply undone_alter|]. intros j. unfold not_done. split.
  - intros (d' & Hj & Hd'). apply lookup_set_done in Hj as (d0 & Hj & _ & _ & Hdn).
    case_decide; [congruence|]. split; [exists d0; split; congruence|done].
  - intros [(d0 & Hj & Hd0) Hne]. destruct (lookup_set_done_2 st i j d0 Hj) as (d' & Hj' & _ & _ & Hdn).
    exists d'. rewrite decide_False in Hdn by done. split; congruence.
Qed.

(** A later state is as well formed if its counters are. *)
Lemma later_wf st st' :
  wf_sched st -> later st st' ->
  scheduled_deferred_cmds st' <= executed_deferred_cmds st' + undone (heap st') ->
  NoDup (ran st') -> (forall i, i ∈ ran st' -> exists d, heap st' !! i = Some d /\ done d = true) ->
  wf_sched st'.
Proof.
  intros Hwf Hl Hc Hn Hr. split; [| | |done..].
  - intros s. rewrite (later_queue _ _ Hl). by apply wf_sorted.
  - intros s i. rewrite (later_queue _ _ Hl), (wf_queue st Hwf). unfold dc_stage. split.
    + intros (d & Hi & Hs). destruct (later_lookup _ _ _ _ Hl Hi) as (d' & Hi' & Hx & _).
      exists d'. by rewrite Hx.
    + intros (d' & Hi & Hs). destruct (later_lookup_2 _ _ _ _ Hl Hi) as (d & Hi' & Hx & _).
      exists d. by rewrite <- Hx.
  - intros i d' j Hi Hd. destruct (later_lookup_2 _ _ _ _ Hl Hi) as (d & Hi' & _ & Hx & _).
    rewrite Hx in Hd. by eapply wf_dep.
Qed.

Lemma later_in_order st st' l :
  in_order st -> later st st' -> ran st' = ran st ++ l ->
  (forall j, j ∈ l -> not_done (heap st) j) ->
  (forall k i d j, l !! k = Some i -> heap st !! i = Some d -> depends_on d = Some j ->
     (exists k', (k' < length (ran st) + k)%nat /\ ran st' !! k' = Some j) \/
     (j ∉ ran st' /\ ~ not_done (heap st) j)) ->
  in_order st'.
Proof.
  intros Ho Hl Hr Hnd Hnew k i d' j Hk Hi Hd.
  destruct (later_lookup_2 _ _ _ _ Hl Hi) as (d & Hi' & _ & Hx & _). rewrite Hx in Hd.
  rewrite Hr, lookup_app_Some in Hk. destruct Hk as [Hk|[Hge Hk]].
  - destruct (Ho k i d j Hk Hi' Hd) as [(k' & Hlt & Hk')|[Hj Hn]].
    + left. exists k'. split; [done|]. rewrite Hr. by apply lookup_app_l_Some.
    + right. split; [|by intros Hx'%(later_not_done _ _ _ Hl)]. rewrite Hr, elem_of_app.
      intros [?|?%Hnd]; done.
  - destruct (Hnew _ _ _ _ Hk Hi' Hd) as [(k' & Hlt & Hk')|[Hj Hn]].
    + left. exists k'. split; [lia|done].
    + right. split; [done|]. by intros Hx'%(later_not_done _ _ _ Hl).
Qed.

Lemma cancel_wf i st :
  wf_sched st -> in_order st -> wf_sched (cancel_deferred_cmd i st) /\ in_order (cancel_deferred_cmd i st).
Proof.
  intros Hwf Ho. unfold cancel_deferred_cmd. destruct (heap st !! i) as [d|] eqn:Hi; [|done].
  destruct (done d) eqn:Hd; [done|]. destruct (set_done_facts st i d Hwf Hi Hd) as [Hu Hn].
  set (st' := set_done i st <| scheduled_deferred_cmds := scheduled_deferred_cmds st - 1 |>).
  assert (later st st') as Hl by (split; [done|done|exact (later_heap _ _ (later_set_done st i))]).
  split.
  - apply (later_wf st); [done|done| |by apply (wf_ran_NoDup st)|].
    + replace (heap st') with (heap (set_done i st)) by reflexivity. rewrite Hu. pose proof (wf_count st Hwf).
      change (scheduled_deferred_cmds st - 1 <= executed_deferred_cmds st + (undone (heap st) - 1)). lia.
    + intros j (d' & Hj & Hd')%(wf_ran st Hwf). destruct (later_lookup _ _ _ _ Hl Hj) as (d2 & Hj2 & _ & _ & Hm).
      exists d2. auto.
  - apply (later_in_order st _ []); [done|done|by rewrite app_nil_r|by intros j ?%elem_of_nil|done].
Qed.

Lemma cancel_waits_wf r st :
  wf_sched st -> in_order st -> wf_sched (cancel_deferred_waits r st) /\ in_order (cancel_deferred_waits r st).
Proof.
  unfold cancel_deferred_waits. generalize (deferred_cmds st CFG_WAIT_CONNECT). intros l.
  revert st. induction l as [|i l IH]; [done|]. intros st Hwf Ho. cbn [fold_left].
  destruct (heap st !! i); [|by apply IH]. destruct (_ =? _); [|by apply IH].
  destruct (cancel_wf i st Hwf Ho). by apply IH.
Qed.

(** ** Every command runs at most once, after the one it depends on *)

Section Runs.
Context {W : Type} (function : cfg_ctx -> W -> res Z * W).

(** What holds after a part of a run that ended with [r]. *)
Definition run_ok {A} (st : sched) (r : res A) (st' : sched) : Prop :=
  later st st' /\ scheduled_deferred_cmds st' = scheduled_deferred_cmds st /\
  NoDup (ran st') /\ in_order st' /\
  forall x, r = Ok x -> wf_sched st' /\ (st' = st \/ executed_deferred_cmds st < executed_deferred_cmds st').

Lemma run_ok_trans {A B} st (r : res A) st1 (r' : res B) st2 x :
  run_ok st r st1 -> r = Ok x -> run_ok st1 r' st2 -> run_ok st r' st2.
Proof using.
  intros (L1 & S1 & _ & _ & H1) Hr (L2 & S2 & N2 & O2 & H2). destruct (H1 x Hr) as [_ Hd1].
  split_and!; [by etransitivity|congruence|done|done|]. intros y Hy. destruct (H2 y Hy) as [Hwf Hd2].
  split; [done|]. pose proof (later_executed _ _ L1). pose proof (later_executed _ _ L2).
  destruct Hd1 as [-> | ?]; [done|]. right. lia.
Qed.

Lemma run_ok_refl {A} st (r : res A) : wf_sched st -> in_order st -> run_ok st r st.
Proof using.
  intros Hwf Ho. split_and!; [done|done|apply (wf_ran_NoDup st Hwf)|done|]. intros _ _. by split; [|left].
Qed.

(** A command that can be run now. *)
Definition ready (st : sched) (i : nat) (d : deferred_cmd) : Prop :=
  heap st !! i = Some d /\ done d = false /\ has_unmet_dependency (heap st) d = false.

Lemma ready_dep st i d j : ready st i d -> depends_on d = Some j -> ~ not_done (heap st) j.
Proof using.
  intros (_ & _ & Hu) Hj (d' & Hd' & Hn). unfold has_unmet_dependency in Hu. rewrite Hj, Hd', Hn in Hu. done.
Qed.

(** The command has been added to those that have run, and perhaps marked. *)
Lemma ran_facts st st' i d :
  wf_sched st -> in_order st -> ready st i d -> later st st' -> ran st' = ran st ++ [i] ->
  NoDup (ran st') /\ in_order st'.
Proof using.
  intros Hwf Ho Hr Hl Hran. pose proof Hr as (Hi & Hd & _).
  assert (i ∉ ran st) as Hni by (intros (d' & Hi' & ?)%(wf_ran st Hwf); simplify_eq; congruence).
  split.
  - rewrite Hran. apply list.NoDup_app. split_and!; [by apply wf_ran_NoDup| |apply NoDup_singleton].
    by intros j Hj ->%list_elem_of_singleton.
  - apply (later_in_order st _ [i]); [done|done|done|intros j ->%list_elem_of_singleton; by exists d|].
    intros k i' d' j Hk Hi' Hd'. apply list_lookup_singleton_Some in Hk as [-> <-]. simplify_eq.
    pose proof (ready_dep st i d j Hr Hd') as Hn. pose proof (wf_dep st Hwf i d j Hi Hd') as Hlt.
    destruct (decide (j ∈ ran st)) as [Hj|Hj].
    + left. apply list_elem_of_lookup_1 in Hj as [k' Hk']. exists k'. pose proof (lookup_lt_Some _ _ _ Hk').
      split; [lia|]. rewrite Hran. by apply lookup_app_l_Some.
    + right. split; [|done]. rewrite Hran, elem_of_app, list_elem_of_singleton. intros [?| ->]; [done|lia].
Qed.

Lemma run_one_ok s i d st w r st' w' :
  run_one function s i d st w = (r, st', w') -> wf_sched st -> in_order st -> ready st i d ->
  run_ok st r st' /\ (forall x, r = Ok x -> executed_deferred_cmds st < executed_deferred_cmds st').
Proof using.
  intros Hrun Hwf Ho Hr. pose proof Hr as (Hi & Hd & _). unfold run_one in Hrun.
  destruct (bool_decide (_ ∈ skipped_res st)).
  - injection Hrun as <- <- _.
    set (st1 := st <| executed_deferred_cmds := executed_deferred_cmds st + 1 |>).
    assert (later st st1) as Hl by (split; [done|cbn; lia|apply (later_heap st st); reflexivity]).
    split; [|intros _ _; cbn; lia]. split_and!; [done|done|apply (wf_ran_NoDup st Hwf)|exact Ho|].
    intros _ _. split; [|right; cbn; lia]. apply (later_wf st); [done|done| |apply (wf_ran_NoDup st Hwf)|apply (wf_ran st Hwf)].
    pose proof (wf_count st Hwf). change (scheduled_deferred_cmds st <= executed_deferred_cmds st + 1 + undone (heap st)). lia.
  - destruct (__call_cmd_fn function (dc_ctx d) KEEP_RUNNING w) as [r0 w0] eqn:Hcall.
    assert (forall st2 : sched, st2 = st <| ran := ran st ++ [i] |> ->
      run_ok st (@Abort Z) st2) as Hexit.
    { intros st2 ->. set (st1 := st <| ran := ran st ++ [i] |>).
      assert (later st st1) as Hl by (split; [done|cbn; lia|apply (later_heap st st); reflexivity]).
      destruct (ran_facts st st1 i d Hwf Ho Hr Hl eq_refl). by split_and!. }
    destruct r0 as [rv|c| |]; [|injection Hrun as <- <- _; split; [|done];
      destruct (Hexit _ eq_refl) as (? & ? & ? & ? & _); by split_and!..].
    clear Hexit. injection Hrun as <- Hst _.
    assert (exists sk, st' = set_done i st <| ran := ran st ++ [i] |> <| skipped_res := sk |>
              <| executed_deferred_cmds := executed_deferred_cmds st + 1 |>) as [sk ->].
    { rewrite <- Hst. destruct (truth rv && prerequisite s); [by eexists|]. exists (skipped_res st). done. }
    clear Hst. set (st1 := set_done i st <| ran := ran st ++ [i] |> <| skipped_res := sk |>
              <| executed_deferred_cmds := executed_deferred_cmds st + 1 |>).
    assert (later st st1) as Hl by (split; [done|cbn; lia|exact (later_heap _ _ (later_set_done st i))]).
    destruct (ran_facts st st1 i d Hwf Ho Hr Hl eq_refl) as [Hnd Hord].
    destruct (set_done_facts st i d Hwf Hi Hd) as [Hu Hn].
    split; [|intros _ _; cbn; lia]. split_and!; [done|done|done|done|]. intros _ _.
    split; [|right; cbn; lia]. apply (later_wf st); [done|done| |done|].
    + pose proof (wf_count st Hwf). replace (heap st1) with (heap (set_done i st)) by reflexivity. rewrite Hu.
      change (scheduled_deferred_cmds st <= executed_deferred_cmds st + 1 + (undone (heap st) - 1)). lia.
    + intros j Hj. replace (ran st1) with (ran st ++ [i]) in Hj by reflexivity.
      replace (heap st1) with (heap (set_done i st)) by reflexivity.
      apply elem_of_app in Hj as [(d0 & Hj & Hd0)%(wf_ran st Hwf)|Hj].
      * destruct (lookup_set_done_2 st i j d0 Hj) as (d' & Hj' & _ & _ & Hdn). exists d'.
        split; [done|]. rewrite Hdn, Hd0. by case_decide.
      * apply list_elem_of_singleton in Hj as ->.
        destruct (lookup_set_done_2 st i i d Hi) as (d' & Hj' & _ & _ & Hdn). exists d'.
        by rewrite decide_True in Hdn.
Qed.

Lemma run_queue_ok s queue rv st w r st' w' :
  run_queue function s queue rv st w = (r, st', w') -> wf_sched st -> in_order st -> run_ok st r st'.
Proof using.
  revert rv st w. induction queue as [|i queue IH]; intros rv st w; cbn [run_queue].
  { intros [= <- <- _]. by apply run_ok_refl. }
  destruct (heap st !! i) as [d|] eqn:Hi; [|intros [= <- <- _]; by apply run_ok_refl].
  destruct (_ || _) eqn:Hskip; [by apply IH|]. apply orb_false_iff in Hskip as [Hu Hd].
  destruct (run_one function s i d st w) as [[r1 st1] w1] eqn:Hone. intros Hrun Hwf Ho.
  destruct (run_one_ok _ _ _ _ _ _ _ _ Hone Hwf Ho) as [Hok _]; [done|].
  destruct r1 as [x|c| |].
  2-4: by injection Hrun as <- <- _.
  pose proof Hok as (_ & _ & _ & Ho1 & Hw1). destruct (Hw1 x eq_refl) as [Hwf1 _].
  eapply run_ok_trans; [exact Hok|done|]. by eapply IH.
Qed.

(** A command that is ready is counted. *)
Lemma run_queue_progress s queue rv st w x st' w' i d :
  run_queue function s queue rv st w = (Ok x, st', w') -> wf_sched st -> in_order st ->
  i ∈ queue -> ready st i d -> executed_deferred_cmds st < executed_deferred_cmds st'.
Proof using.
  revert rv st w. induction queue as [|i' queue IH]; intros rv st w; [by intros _ _ _ ?%elem_of_nil|].
  cbn [run_queue]. destruct (heap st !! i') as [d'|] eqn:Hi'; [|done].
  destruct (_ || _) eqn:Hskip.
  - intros Hrun Hwf Ho [->|Hin]%elem_of_cons Hr; [|by eapply IH]. exfalso.
    destruct Hr as (Hi & Hd & Hu). simplify_eq. by rewrite Hu, Hd in Hskip.
  - apply orb_false_iff in Hskip as [Hu Hd]. intros Hrun Hwf Ho _ _.
    destruct (run_one function s i' d' st w) as [[r1 st1] w1] eqn:Hone.
    destruct (run_one_ok _ _ _ _ _ _ _ _ Hone Hwf Ho) as [Hok Hlt]; [done|].
    destruct r1 as [y|c| |]; [|done..]. pose proof (Hlt y eq_refl).
    destruct Hok as (_ & _ & _ & Ho1 & Hw1). destruct (Hw1 y eq_refl) as [Hwf1 _].
    pose proof (run_queue_ok _ _ _ _ _ _ _ _ Hrun Hwf1 Ho1) as (Hl & _). pose proof (later_executed _ _ Hl). lia.
Qed.

Lemma run_stages_ok p l ret st w r st' w' :
  run_stages function p l ret st w = (r, st', w') -> wf_sched st -> in_order st ->
  run_ok st r st' /\
  (forall y, r = Ok (None, y) -> forall s i d, s ∈ l -> i ∈ deferred_cmds st s -> ready st i d ->
     executed_deferred_cmds st < executed_deferred_cmds st').
Proof using.
  revert ret st w. induction l as [|s l IH]; intros ret st w; cbn [run_stages].
  { intros [= <- <- _] ? ?. split; [by apply run_ok_refl|by intros _ _ s i d ?%elem_of_nil]. }
  unfold _run_deferred_cmds. destruct (run_queue function s (deferred_cmds st s) 0 st w) as [[r1 st1] w1] eqn:Hq.
  intros Hrun Hwf Ho. pose proof (run_queue_ok _ _ _ _ _ _ _ _ Hq Hwf Ho) as Hok.
  destruct r1 as [x|c| |].
  2-4: injection Hrun as <- <- _; destruct Hok as (? & ? & ? & ? & _); split; [by split_and!|done].
  pose proof Hok as (Hl1 & _ & _ & Ho1 & Hw1). destruct (Hw1 x eq_refl) as [Hwf1 Hcase].
  assert (forall ret', run_stages function p l ret' st1 w1 = (r, st', w') -> run_ok st r st' /\
    (forall y, r = Ok (None, y) -> forall s' i d, s' ∈ s :: l -> i ∈ deferred_cmds st s' -> ready st i d ->
     executed_deferred_cmds st < executed_deferred_cmds st')) as Hrest.
  { intros ret' Hr. destruct (IH ret' st1 w1 Hr Hwf1 Ho1) as [Hok2 Hp]. split; [by eapply run_ok_trans|].
    intros y Hy s' i d Hs Hi Hready. pose proof Hok2 as (Hl2 & _).
    pose proof (later_executed _ _ Hl2). destruct Hcase as [Heq|Hlt]; [|lia]. rewrite Heq in *.
    apply elem_of_cons in Hs as [->|Hs]; [|by eapply Hp].
    pose proof (run_queue_progress _ _ _ _ _ _ _ _ _ _ Hq Hwf Ho Hi Hready). lia. }
  destruct (truth x); [destruct p|]; [by eapply Hrest| |by eapply Hrest].
  injection Hrun as <- <- _. destruct Hok as (? & ? & ? & ? & _). split; [|done].
  split_and!; [done..|]. intros _ _. by split.
Qed.

(** Among the commands that are left there is one that can be run. *)
Lemma ready_exists st : wf_sched st -> 0 < undone (heap st) -> exists i d, ready st i d.
Proof using.
  intros Hwf [i Hi]%undone_pos. revert Hi. induction (lt_wf i) as [i _ IH]. intros (d & Hi & Hd).
  destruct (has_unmet_dependency (heap st) d) eqn:Hu; [|by exists i, d].
  unfold has_unmet_dependency in Hu. destruct (depends_on d) as [j|] eqn:Hj; [|done].
  destruct (heap st !! j) as [d'|] eqn:Hd'; [|done]. apply (IH j).
  - by eapply wf_dep.
  - exists d'. split; [done|]. by destruct (done d').
Qed.

Lemma run_loop_ends fuel p ret st w :
  wf_sched st -> in_order st ->
  (Z.to_nat (scheduled_deferred_cmds st - executed_deferred_cmds st) < fuel)%nat ->
  exists r st' w', run_loop function fuel p ret st w = Some (r, st', w') /\ run_ok st r st'.
Proof using.
  revert ret st w. induction fuel as [|fuel IH]; intros ret st w Hwf Ho Hf; [lia|]. cbn [run_loop].
  destruct (run_stages function p stages ret st w) as [[r st1] w1] eqn:Hs.
  destruct (run_stages_ok _ _ _ _ _ _ _ _ Hs Hwf Ho) as [Hok Hp].
  pose proof Hok as (Hl & Hsch & Hnd & Ho1 & Hw1).
  destruct r as [[[r|] ret1]|c| |]; [| |do 3 eexists; split; [done|by split_and!]..].
  { do 3 eexists. split; [done|]. split_and!; [done..|]. intros _ _. by eapply Hw1. }
  destruct (Hw1 _ eq_refl) as [Hwf1 Hcase].
  destruct (Z.ltb_spec (executed_deferred_cmds st1) (scheduled_deferred_cmds st1)) as [Hlt|Hge].
  - assert (executed_deferred_cmds st < executed_deferred_cmds st1) as Hprog.
    { destruct (ready_exists st Hwf) as (i & d & Hr).
      { pose proof (wf_count st Hwf). pose proof (later_executed _ _ Hl). lia. }
      eapply (Hp _ eq_refl (dc_stage d) i d); [apply elem_of_stages| |done].
      apply (wf_queue st Hwf). exists d. split; [apply Hr|done]. }
    destruct (IH ret1 st1 w1 Hwf1 Ho1) as (r & st2 & w2 & Hrun & Hok2); [lia|].
    do 3 eexists. split; [done|]. by eapply run_ok_trans.
  - do 3 eexists. split; [done|]. split_and!; [done..|]. intros _ _. by split.
Qed.

(** C22: Running the deferred commands: whatever the commands do, the loop over
    the stages ends after at most as many turns as commands are outstanding;
    no command's function is called twice; and a command is run only after the
    one it depends on has been run, unless that one was cancelled. *)
Theorem run_deferred_safe fuel p st w :
  wf_sched st -> in_order st ->
  (Z.to_nat (scheduled_deferred_cmds st - executed_deferred_cmds st) < fuel)%nat ->
  exists r st' w', run_deferred_cmds function fuel p st w = Some (r, st', w') /\
    NoDup (ran st') /\ in_order st'.
Proof using.
  intros Hwf Ho Hf. destruct (run_loop_ends fuel p 0 st w Hwf Ho Hf) as (r & st' & w' & Hrun & Hok).
  destruct Hok as (_ & _ & Hnd & Ho' & _). eauto 10.
Qed.
End Runs.

(** ** Commands that succeed *)

Section Success.
Context {W : Type} (function : cfg_ctx -> W -> res Z * W).

Definition succeeds (ctx : cfg_ctx) : Prop :=
  forall w, exists w', __call_cmd_fn function ctx KEEP_RUNNING w = (Ok 0, w').

Definition all_succeed (st : sched) : Prop :=
  forall i d, heap st !! i = Some d -> succeeds (dc_ctx d).

(** [l] has run without an error. *)
Record advanced (st st' : sched) (l : list nat) : Prop := {
  adv_later : later st st';
  adv_scheduled : scheduled_deferred_cmds st' = scheduled_deferred_cmds st;
  adv_skipped : skipped_res st' = [];
  adv_ran : ran st' = ran st ++ l;
  adv_counted : executed_deferred_cmds st' + undone (heap st') = executed_deferred_cmds st + undone (heap st);
  adv_left j : not_done (heap st') j <-> not_done (heap st) j /\ j ∉ l;
  adv_wf : wf_sched st';
  adv_order : in_order st'
}.

Lemma advanced_refl st :
  wf_sched st -> in_order st -> skipped_res st = [] -> advanced st st [].
Proof using.
  intros Hwf Ho Hs. split; [done|done|done|by rewrite app_nil_r|done| |done|done].
  intros j. rewrite elem_of_nil. naive_solver.
Qed.

Lemma advanced_trans st st1 st2 l1 l2 :
  advanced st st1 l1 -> advanced st1 st2 l2 -> advanced st st2 (l1 ++ l2).
Proof using.
  intros [L1 S1 K1 R1 C1 N1 W1 O1] [L2 S2 K2 R2 C2 N2 W2 O2].
  split; [by etransitivity|congruence|done|by rewrite R2, R1, app_assoc|congruence| |done|done].
  intros j. rewrite N2, N1, elem_of_app. naive_solver.
Qed.

Lemma all_succeed_later st st' : later st st' -> all_succeed st -> all_succeed st'.
Proof using.
  intros Hl Hall i d' Hi. destruct (later_lookup_2 _ _ _ _ Hl Hi) as (d & Hd & -> & _). by eapply Hall.
Qed.

Lemma run_one_advances s i d st w :
  wf_sched st -> in_order st -> skipped_res st = [] -> ready st i d -> succeeds (dc_ctx d) ->
  exists st' w', run_one function s i d st w = (Ok 0, st', w') /\ advanced st st' [i].
Proof using.
  intros Hwf Ho Hs Hr Hsucc. destruct (Hsucc w) as [w' Hw].
  set (st' := set_done i st <| ran := ran st ++ [i] |>
              <| executed_deferred_cmds := executed_deferred_cmds st + 1 |>).
  assert (run_one function s i d st w = (Ok 0, st', w')) as Hone.
  { unfold run_one. rewrite Hs, Hw. change (truth 0 && prerequisite s) with false.
    by rewrite bool_decide_false by by apply not_elem_of_nil. }
  exists st', w'. split; [done|]. pose proof Hr as (Hi & Hd & _).
  destruct (run_one_ok function _ _ _ _ _ _ _ _ Hone Hwf Ho Hr) as [(Hl & Hsch & _ & Hord & Hw1) _].
  destruct (set_done_facts st i d Hwf Hi Hd) as [Hu Hn].
  split; [done|done|done|done| | |by eapply Hw1|done].
  - replace (heap st') with (heap (set_done i st)) by reflexivity. rewrite Hu.
    change (executed_deferred_cmds st') with (executed_deferred_cmds st + 1). lia.
  - intros j. replace (heap st') with (heap (set_done i st)) by reflexivity.
    by rewrite Hn, list_elem_of_singleton.
Qed.

Lemma ready_later st st' i d :
  wf_sched st -> later st st' -> ready st i d -> not_done (heap st') i ->
  exists d', ready st' i d' /\ dc_ctx d' = dc_ctx d.
Proof using.
  intros Hwf Hl (Hi & Hd & Hu) (d' & Hi' & Hd'). exists d'.
  destruct (later_lookup _ _ _ _ Hl Hi) as (d2 & Hi2 & Hc & Hdep & _). simplify_eq.
  split; [|done]. split_and!; [done|done|]. unfold has_unmet_dependency in *. rewrite Hdep.
  destruct (depends_on d) as [j|] eqn:Hj; [|done].
  assert (exists d0, heap st !! j = Some d0) as [d0 Hd0].
  { pose proof (wf_dep st Hwf i d j Hi Hj). pose proof (lookup_lt_Some _ _ _ Hi).
    apply lookup_lt_is_Some_2. lia. }
  rewrite Hd0 in Hu. destruct (later_lookup _ _ _ _ Hl Hd0) as (d3 & -> & _ & _ & Hm).
  destruct (done d0); [by rewrite Hm|done].
Qed.

(** A queue of commands that are all ready. *)
Lemma run_queue_all s queue st w :
  wf_sched st -> in_order st -> skipped_res st = [] -> NoDup queue ->
  (forall i, i ∈ queue -> exists d, ready st i d /\ succeeds (dc_ctx d)) ->
  exists st' w', run_queue function s queue 0 st w = (Ok 0, st', w') /\ advanced st st' queue.
Proof using.
  revert st w. induction queue as [|i queue IH]; intros st w Hwf Ho Hs Hnd Hall; cbn [run_queue].
  { do 2 eexists. split; [done|by apply advanced_refl]. }
  apply list.NoDup_cons in Hnd as [Hni Hnd]. destruct (Hall i ltac:(by left)) as (d & Hr & Hsucc).
  pose proof Hr as (Hi & Hd & Hu). rewrite Hi, Hu, Hd. cbn [orb].
  destruct (run_one_advances s i d st w Hwf Ho Hs Hr Hsucc) as (st1 & w1 & -> & Hadv).
  change (0 <? 0) with false. cbn iota. destruct (IH st1 w1) as (st2 & w2 & Hrun & Hadv2).
  - apply (adv_wf _ _ _ Hadv).
  - apply (adv_order _ _ _ Hadv).
  - apply (adv_skipped _ _ _ Hadv).
  - done.
  - intros i' Hi'. destruct (Hall i' ltac:(by right)) as (d' & Hr' & Hs').
    destruct (ready_later st st1 i' d' Hwf (adv_later _ _ _ Hadv) Hr') as (d2 & Hr2 & Hc2).
    { apply (adv_left _ _ _ Hadv). pose proof Hr' as (? & ? & _). split; [by exists d'|].
      intros ->%list_elem_of_singleton. done. }
    exists d2. split; [done|]. by rewrite Hc2.
  - do 2 eexists. split; [done|]. by apply (advanced_trans _ _ _ [i] queue Hadv).
Qed.

(** Any queue. *)
Lemma run_queue_advances s queue st w :
  wf_sched st -> in_order st -> skipped_res st = [] -> all_succeed st ->
  (forall i, i ∈ queue -> exists d, heap st !! i = Some d) ->
  exists st' w' l, run_queue function s queue 0 st w = (Ok 0, st', w') /\ advanced st st' l /\
    (forall i, i ∈ l -> not_done (heap st) i).
Proof using.
  revert st w. induction queue as [|i queue IH]; intros st w Hwf Ho Hs Hall Hin; cbn [run_queue].
  { do 3 eexists. split_and!; [done|by apply advanced_refl|by intros i ?%elem_of_nil]. }
  destruct (Hin i ltac:(by left)) as [d Hi]. rewrite Hi.
  destruct (_ || _) eqn:Hskip; [apply IH; [done..|intros i' ?; apply Hin; by right]|].
  apply orb_false_iff in Hskip as [Hu Hd].
  destruct (run_one_advances s i d st w Hwf Ho Hs) as (st1 & w1 & -> & Hadv); [done|by eapply Hall|].
  change (0 <? 0) with false. cbn iota. pose proof (adv_later _ _ _ Hadv) as Hl.
  destruct (IH st1 w1) as (st2 & w2 & l & Hrun & Hadv2 & Hnd).
  - apply (adv_wf _ _ _ Hadv).
  - apply (adv_order _ _ _ Hadv).
  - apply (adv_skipped _ _ _ Hadv).
  - by eapply all_succeed_later.
  - intros i' Hi'. destruct (Hin i' ltac:(by right)) as [d' Hd'].
    destruct (later_lookup _ _ _ _ Hl Hd') as (d2 & ? & _). eauto.
  - do 3 eexists. split_and!; [done|by apply (advanced_trans _ _ _ [i] l Hadv)|].
    intros j [->|Hj]%elem_of_cons; [by exists d|]. by eapply later_not_done, Hnd.
Qed.

Lemma run_stages_advances p sl st w :
  wf_sched st -> in_order st -> skipped_res st = [] -> all_succeed st ->
  exists st' w' l, run_stages function p sl 0 st w = (Ok (None, 0), st', w') /\ advanced st st' l /\
    (forall i, i ∈ l -> not_done (heap st) i).
Proof using.
  revert st w. induction sl as [|s sl IH]; intros st w Hwf Ho Hs Hall; cbn [run_stages].
  { do 3 eexists. split_and!; [done|by apply advanced_refl|by intros i ?%elem_of_nil]. }
  unfold _run_deferred_cmds.
  destruct (run_queue_advances s (deferred_cmds st s) st w Hwf Ho Hs Hall) as (st1 & w1 & l1 & -> & Hadv & Hn1).
  { intros i (d & Hd & _)%(wf_queue st Hwf). eauto. }
  change (truth 0) with false. cbn iota.
  destruct (IH st1 w1) as (st2 & w2 & l2 & Hrun & Hadv2 & Hn2);
    [apply (adv_wf _ _ _ Hadv)|apply (adv_order _ _ _ Hadv)|apply (adv_skipped _ _ _ Hadv)
    |by eapply all_succeed_later, Hall; apply (adv_later _ _ _ Hadv)|].
  do 3 eexists. split_and!; [done|by eapply advanced_trans|].
  intros i [?|?]%elem_of_app; [auto|]. eapply later_not_done; [apply (adv_later _ _ _ Hadv)|auto].
Qed.

Lemma run_loop_advances fuel p st w :
  wf_sched st -> in_order st -> skipped_res st = [] -> all_succeed st -> balanced st ->
  (Z.to_nat (scheduled_deferred_cmds st - executed_deferred_cmds st) < fuel)%nat ->
  exists st' w' l, run_loop function fuel p 0 st w = Some (Ok 0, st', w') /\ advanced st st' l /\
    (forall i, i ∈ l <-> not_done (heap st) i).
Proof using.
  revert st w. induction fuel as [|fuel IH]; intros st w Hwf Ho Hs Hall Hb Hf; [lia|]. cbn [run_loop].
  destruct (run_stages_advances p stages st w Hwf Ho Hs Hall) as (st1 & w1 & l1 & Hrun & Hadv & Hn).
  destruct (run_stages_ok function _ _ _ _ _ _ _ _ Hrun Hwf Ho) as [(Hl & Hsch & _) Hp]. rewrite Hrun.
  assert (balanced st1) as Hb1.
  { unfold balanced in *. rewrite Hsch, Hb. symmetry. apply (adv_counted _ _ _ Hadv). }
  destruct (Z.ltb_spec (executed_deferred_cmds st1) (scheduled_deferred_cmds st1)) as [Hlt|Hge].
  - assert (executed_deferred_cmds st < executed_deferred_cmds st1) as Hprog.
    { destruct (ready_exists st Hwf) as (i & d & Hr).
      { pose proof (later_executed _ _ Hl). unfold balanced in Hb. lia. }
      eapply (Hp _ eq_refl (dc_stage d) i d); [apply elem_of_stages| |done].
      apply (wf_queue st Hwf). exists d. split; [apply Hr|done]. }
    destruct (IH st1 w1) as (st2 & w2 & l2 & -> & Hadv2 & Hn2);
      [apply (adv_wf _ _ _ Hadv)|apply (adv_order _ _ _ Hadv)|apply (adv_skipped _ _ _ Hadv)
      |by eapply all_succeed_later|done|lia|].
    do 3 eexists. split_and!; [done|by eapply advanced_trans|].
    intros i. rewrite elem_of_app, Hn2, (adv_left _ _ _ Hadv). split; [intros [?|[? _]]; auto|].
    intros ?. destruct (decide (i ∈ l1)); [by left|right; done].
  - do 3 eexists. split_and!; [done|done|]. intros i. split; [auto|]. intros Hi.
    destruct (decide (i ∈ l1)) as [|Hni]; [done|]. exfalso.
    apply (undone_zero (heap st1) i); [unfold balanced in Hb1; unfold undone in *; lia|].
    apply (adv_left _ _ _ Hadv). by split.
Qed.

(** C23: When no command fails, every command that was scheduled and not
    cancelled runs: the run ends with 0, the commands that have run are those
    that were outstanding, and none is left. *)
Theorem run_deferred_complete fuel p st w :
  wf_sched st -> in_order st -> skipped_res st = [] -> all_succeed st -> balanced st ->
  (Z.to_nat (scheduled_deferred_cmds st - executed_deferred_cmds st) < fuel)%nat ->
  exists st' w' l, run_deferred_cmds function fuel p st w = Some (Ok 0, st', w') /\
    ran st' = ran st ++ l /\ (forall i, i ∈ l <-> not_done (heap st) i) /\
    (forall i, ~ not_done (heap st') i).
Proof using.
  intros Hwf Ho Hs Hall Hb Hf.
  destruct (run_loop_advances fuel p st w Hwf Ho Hs Hall Hb Hf) as (st' & w' & l & Hrun & Hadv & Hl).
  do 3 eexists. split_and!; [done|apply (adv_ran _ _ _ Hadv)|done|].
  intros i [Hi Hni]%(adv_left _ _ _ Hadv). by apply Hni, Hl.
Qed.
End Success.

(** ** Examples *)

(** A resource with a diskful and a diskless volume and two connections, one
    of them ignored. *)
Definition example_volume : d_volume :=
  mk_d_volume 10 0 1 (Some "/dev/sda1") (Some "internal") (Some "internal") [] false false false false false false None [].
Definition example_diskless : d_volume :=
  mk_d_volume 11 1 2 None None None [] false false false false false false None [].
Definition example_address (a : string) : d_address := mk_d_address a "7789" "ipv4".
Definition example_path (at_ : Z) (ignore : bool) (a b : string) : path :=
  mk_path at_ ignore (Some (example_address a)) (Some (example_address b)) false.
Definition example_peer : d_host_info :=
  mk_d_host_info (Some "1") [mk_d_volume 12 0 1 None None None [] false false false false false false None []].
Definition example_connection : connection :=
  mk_connection 20 false false false 0
    [example_path 30 false "10.0.0.1" "10.0.0.2"; example_path 31 true "10.1.0.1" "10.1.0.2"]
    [mk_peer_device 0 [mk_d_option "c-max-rate" (Some "100M") false false false]; mk_peer_device 1 []]
    (Some example_peer) [].
Definition example_resource : d_resource :=
  plain_resource 1 "r0" [example_volume; example_diskless]
    [example_connection; mk_connection 21 true false false 0 [] [] None []] [].
Definition example_ctx : cfg_ctx := mk_cfg_ctx example_resource None None None new_resource_cmd.

(** Commands that leave their names. *)
Definition trace (code : cmd_object -> Z) (c : cfg_ctx) (w : list string) : res Z * list string :=
  (Ok (code (ctx_cmd c)), w ++ [cmd_name (adm_cmd_of (ctx_cmd c))]).

(** [r1] has three connections, adjusted one after the other; [r0] has one. *)
Definition other_ctx : cfg_ctx :=
  mk_cfg_ctx (plain_resource 2 "r1" [] [example_connection] []) None (Some example_connection) None new_peer_cmd.
Definition failing_ctx : cfg_ctx :=
  mk_cfg_ctx example_resource None (Some example_connection) None new_peer_cmd.

Definition two_resources : sched :=
  fold_left (fun st x => (enqueue x.1.1 x.1.2 x.2 st).2)
    [(new_peer_cmd, failing_ctx, None); (new_path_cmd, failing_ctx, Some 0%nat); (connect_cmd, failing_ctx, Some 0%nat);
     (new_peer_cmd, other_ctx, None); (connect_cmd, other_ctx, Some 3%nat); (wait_c_adj_cmd, other_ctx, Some 4%nat);
     (new_peer_cmd, other_ctx, Some 5%nat); (new_path_cmd, other_ctx, Some 6%nat); (connect_cmd, other_ctx, Some 6%nat);
     (wait_c_adj_cmd, other_ctx, Some 8%nat); (new_peer_cmd, other_ctx, Some 9%nat); (connect_cmd, other_ctx, Some 10%nat)]
    initialize_deferred_cmds.

Lemma two_resources_untouched : untouched two_resources.
Proof.
  unfold two_resources. cbn [fold_left fst snd].
  repeat (apply enqueue_untouched; [|by intros j Hj; vm_compute in Hj; simplify_eq; vm_compute; lia]).
  apply initialize_untouched.
Qed.

Definition all_good (c : cfg_ctx) (w : unit) : res Z * unit := (Ok 0, w).

Definition peer_fails (c : cfg_ctx) (w : unit) : res Z * unit :=
  (Ok (if (res_at (ctx_res c) =? 1) && bool_decide (ctx_cmd c = new_peer_cmd) then 10 else 0), w).

Lemma run_deferred_safe_witness :
  exists r st' w', run_deferred_cmds peer_fails 13 true two_resources () = Some (r, st', w') /\
    NoDup (ran st') /\ in_order st'.
Proof.
  apply (run_deferred_safe peer_fails 13 true two_resources ()).
  - apply two_resources_untouched.
  - apply untouched_in_order, two_resources_untouched.
  - vm_compute. lia.
Defined.

Lemma run_deferred_complete_witness :
  exists st' w' l, run_deferred_cmds all_good 13 true two_resources () = Some (Ok 0, st', w') /\
    ran st' = ran two_resources ++ l /\ (forall i, i ∈ l <-> not_done (heap two_resources) i) /\
    (forall i, ~ not_done (heap st') i).
Proof.
  apply (run_deferred_complete all_good 13 true two_resources ()).
  - apply two_resources_untouched.
  - apply untouched_in_order, two_resources_untouched.
  - done.
  - intros i d Hi []. do 12 (destruct i as [|i]; [vm_compute in Hi; simplify_eq; eexists; by vm_compute|]). done.
  - apply two_resources_untouched.
  - vm_compute. lia.
Defined.

(** Commands that are skipped are not done, and are counted again in every
    turn: with progress, a failure in one resource can end the loop before
    another resource is done.  Here the commands of the third connection of
    [r1] are never run. *)
Lemma progress_forgets_commands :
  match run_deferred_cmds peer_fails 13 true two_resources () with
  | Some (Ok r, st, _) => r = 1 /\ ran st = [0; 3; 4; 5; 6; 7; 8; 9]%nat
  | _ => False
  end.
Proof. vm_compute. done. Qed.
