(* ===== verification/Stages.v ===== *)
(** * Running commands stage by stage

    When the commands that are scheduled depend on commands of the same or of
    earlier stages only, or on commands that have been cancelled, one turn of
    [run_deferred_cmds] (user/v9/drbdadm_main.c) over the stages runs all of
    them, in the order of the stages and, within a stage, in the order in
    which they were scheduled. *)

From S2P Require Import Prelude Machine ConfigFlags Address AdmConfig Deferred.
From Stdlib Require Import String.
From stdpp Require Import strings functions sorting.

#[local] Open Scope string_scope.
#[local] Open Scope list_scope.
#[local] Open Scope Z_scope.

Definition cmd_stage (c : cfg_ctx) : drbd_cfg_stage := stage (adm_cmd_of (ctx_cmd c)).

Definition rank (s : drbd_cfg_stage) : nat :=
  match s with
  | CFG_PREREQ => 0 | CFG_RESOURCE => 1 | CFG_DISK_PREP_DOWN => 2 | CFG_DISK_PREP_UP => 3
  | CFG_NET_DISCONNECT => 4 | CFG_NET_PREP_DOWN => 5 | CFG_NET_PREP_UP => 6 | CFG_NET_PATH => 7
  | CFG_NET => 8 | CFG_PEER_DEVICE => 9 | CFG_DISK => 10 | CFG_NET_CONNECT => 11 | CFG_WAIT_CONNECT => 12
  end.

Lemma stages_sorted : StronglySorted (fun a b => rank a < rank b)%nat stages.
Proof. repeat constructor; cbn; lia. Qed.

#[export] Instance not_done_dec h i : Decision (not_done h i).
Proof.
  refine (match h !! i as o return h !! i = o -> Decision (not_done h i) with
          | Some d => fun Hi => if decide (done d = false) then left _ else right _
          | None => fun Hi => right _
          end eq_refl); unfold not_done; abstract (rewrite Hi; naive_solver).
Defined.

(** Commands wait for commands of their stage or an earlier one. *)
Definition forward (st : sched) : Prop :=
  forall i d j d', heap st !! i = Some d -> done d = false -> depends_on d = Some j ->
    heap st !! j = Some d' -> done d' = false -> (rank (dc_stage d') <= rank (dc_stage d))%nat.

Lemma forward_later st st' : later st st' -> forward st -> forward st'.
Proof.
  intros Hl Hf i d j d' Hi Hdi Hd Hj Hdj.
  destruct (later_lookup_2 _ _ _ _ Hl Hi) as (d1 & Hi1 & Hc1 & Hd1 & Hm1).
  destruct (later_lookup_2 _ _ _ _ Hl Hj) as (d2 & Hj2 & Hc2 & _ & Hm2).
  unfold dc_stage. rewrite Hc1, Hc2. eapply (Hf i d1 j d2); [done| |congruence|done|].
  - destruct (done d1); [by rewrite Hm1 in Hdi|done].
  - destruct (done d2); [by rewrite Hm2 in Hdj|done].
Qed.

Lemma filter_none {A} (P : A -> Prop) `{!forall x, Decision (P x)} (l : list A) :
  (forall x, x ∈ l -> ~ P x) -> filter P l = [].
Proof.
  induction l as [|x l IH]; [done|]. intros Hl. rewrite filter_cons_False by (apply Hl; by left).
  apply IH. intros y ?. apply Hl. by right.
Qed.

(** What is left of a queue of a state after some of its commands have run. *)
Lemma filter_left st st' (l q : list nat) :
  (forall j, not_done (heap st') j <-> not_done (heap st) j /\ j ∉ l) -> (forall i, i ∈ q -> i ∉ l) ->
  filter (not_done (heap st')) q = filter (not_done (heap st)) q.
Proof.
  intros Hl Hq. induction q as [|i q IH]; [done|]. rewrite !filter_cons, IH by (intros ? ?; apply Hq; by right).
  pose proof (Hq i ltac:(by left)). destruct (decide (not_done (heap st') i)) as [H1|H1], (decide (not_done (heap st) i)) as [H2|H2];
    rewrite Hl in H1; naive_solver.
Qed.

Section Run.
Context {W : Type} (function : cfg_ctx -> W -> res Z * W).

(** A queue whose commands depend on each other only. *)
Lemma run_queue_in_order s queue st w :
  wf_sched st -> in_order st -> skipped_res st = [] -> all_succeed function st ->
  StronglySorted lt queue -> (forall i, i ∈ queue -> exists d, heap st !! i = Some d) ->
  (forall i d j, i ∈ queue -> heap st !! i = Some d -> done d = false -> depends_on d = Some j ->
     not_done (heap st) j -> j ∈ queue) ->
  exists st' w', run_queue function s queue 0 st w = (Ok 0, st', w') /\
    advanced st st' (filter (not_done (heap st)) queue).
Proof using.
  revert st w. induction queue as [|i queue IH]; intros st w Hwf Ho Hs Hall Hsort Hin Hdep; cbn [run_queue].
  { do 2 eexists. split; [done|by apply advanced_refl]. }
  apply StronglySorted_inv in Hsort as [Hsort Hlt]. rewrite List.Forall_forall in Hlt.
  assert (i ∉ queue) as Hni by (intros Hi%list_elem_of_In%Hlt; lia).
  destruct (Hin i ltac:(by left)) as [d Hi]. rewrite Hi, filter_cons.
  destruct (done d) eqn:Hd.
  - rewrite orb_true_r, decide_False by (intros (? & ? & ?); simplify_eq; congruence).
    apply IH; [done..|intros; apply Hin; by right|].
    intros k e j Hk He Hde Hj Hnj. pose proof (Hdep k e j ltac:(by right) He Hde Hj Hnj) as [->|?]%elem_of_cons; [|done].
    destruct Hnj as (? & ? & ?). simplify_eq. congruence.
  - assert (has_unmet_dependency (heap st) d = false) as Hu.
    { unfold has_unmet_dependency. destruct (depends_on d) as [j|] eqn:Hj; [|done].
      destruct (heap st !! j) as [d'|] eqn:Hd'; [|done]. destruct (done d') eqn:Hdj; [done|exfalso].
      pose proof (wf_dep st Hwf i d j Hi Hj).
      pose proof (Hdep i d j ltac:(by left) Hi Hd Hj ltac:(by exists d')) as [->|Hq%list_elem_of_In%Hlt]%elem_of_cons; lia. }
    rewrite Hu, decide_True by by exists d. cbn [orb].
    destruct (run_one_advances function s i d st w Hwf Ho Hs) as (st1 & w1 & -> & Hadv); [done|by eapply Hall|].
    change (0 <? 0) with false. cbn iota. pose proof (adv_later _ _ _ Hadv) as Hl.
    destruct (IH st1 w1) as (st2 & w2 & Hrun & Hadv2);
      [apply (adv_wf _ _ _ Hadv)|apply (adv_order _ _ _ Hadv)|apply (adv_skipped _ _ _ Hadv)
      |by eapply all_succeed_later|done| | |].
    + intros k Hk. destruct (Hin k ltac:(by right)) as [e He].
      destruct (later_lookup _ _ _ _ Hl He) as (e' & ? & _). eauto.
    + intros k e j Hk He Hde Hj Hnj. apply (adv_left _ _ _ Hadv) in Hnj as [Hnj Hji].
      destruct (later_lookup_2 _ _ _ _ Hl He) as (e0 & He0 & _ & Hdep0 & Hm).
      assert (done e0 = false) as He0d by (destruct (done e0); [by rewrite Hm in Hde|done]).
      rewrite Hdep0 in Hj. pose proof (Hdep k e0 j ltac:(by right) He0 He0d Hj Hnj) as [->|?]%elem_of_cons; [|done].
      by rewrite list_elem_of_singleton in Hji.
    + do 2 eexists. split; [done|]. rewrite (filter_left st st1 [i]) in Hadv2.
      * by apply (advanced_trans _ _ _ [i] _ Hadv).
      * apply (adv_left _ _ _ Hadv).
      * intros k Hk ->%list_elem_of_singleton. done.
Qed.

(** One turn over the stages [sl], if nothing else is left. *)
Lemma run_stages_in_order p sl st w :
  wf_sched st -> in_order st -> skipped_res st = [] -> all_succeed function st -> forward st ->
  StronglySorted (fun a b => rank a < rank b)%nat sl ->
  (forall i d, heap st !! i = Some d -> done d = false -> dc_stage d ∈ sl) ->
  exists st' w', run_stages function p sl 0 st w = (Ok (None, 0), st', w') /\
    advanced st st' (sl ≫= fun s => filter (not_done (heap st)) (deferred_cmds st s)).
Proof using.
  revert st w. induction sl as [|s sl IH]; intros st w Hwf Ho Hs Hall Hfw Hsort Hleft; cbn [run_stages].
  { do 2 eexists. split; [done|]. by apply advanced_refl. }
  apply StronglySorted_inv in Hsort as [Hsort Hlt]. rewrite List.Forall_forall in Hlt.
  unfold _run_deferred_cmds.
  destruct (run_queue_in_order s (deferred_cmds st s) st w Hwf Ho Hs Hall) as (st1 & w1 & -> & Hadv).
  { by apply wf_sorted. }
  { intros i (d & Hd & _)%(wf_queue st Hwf). eauto. }
  { intros i d j (d0 & Hd0 & Hst)%(wf_queue st Hwf) Hd Hdone Hj (d' & Hd' & Hdone').
    assert (d0 = d) as -> by congruence.
    pose proof (Hfw i d j d' Hd Hdone Hj Hd' Hdone') as Hr. rewrite Hst in Hr.
    pose proof (Hleft j d' Hd' Hdone') as [Heq|Hin%list_elem_of_In%Hlt]%elem_of_cons; [|lia].
    apply (wf_queue st Hwf). by exists d'. }
  change (truth 0) with false. cbn iota. pose proof (adv_later _ _ _ Hadv) as Hl.
  destruct (IH st1 w1) as (st2 & w2 & Hrun & Hadv2).
  - apply (adv_wf _ _ _ Hadv).
  - apply (adv_order _ _ _ Hadv).
  - apply (adv_skipped _ _ _ Hadv).
  - by eapply all_succeed_later.
  - by eapply forward_later.
  - done.
  - intros i d1 Hi Hd1. destruct (later_lookup_2 _ _ _ _ Hl Hi) as (d & Hi' & Hc & _ & Hm).
    assert (not_done (heap st) i /\ i ∉ filter (not_done (heap st)) (deferred_cmds st s)) as [Hnd Hni]
      by (apply (adv_left _ _ _ Hadv); by exists d1).
    assert (done d = false) as Hd by (destruct (done d); [by rewrite Hm in Hd1|done]).
    unfold dc_stage. rewrite Hc. pose proof (Hleft i d Hi' Hd) as [Heq|Hin]%elem_of_cons; [|done].
    exfalso. apply Hni, list_elem_of_filter. split; [done|]. apply (wf_queue st Hwf). by exists d.
  - do 2 eexists. split; [done|]. cbn [mbind list_bind]. eapply advanced_trans; [exact Hadv|].
    enough ((sl ≫= fun s0 => filter (not_done (heap st)) (deferred_cmds st s0)) =
            (sl ≫= fun s0 => filter (not_done (heap st1)) (deferred_cmds st1 s0))) as -> by done.
    rewrite (later_queue _ _ Hl). clear -Hadv Hlt Hwf. induction sl as [|s' sl IH]; [done|].
    cbn [mbind list_bind]. f_equal.
    + symmetry. apply (filter_left _ _ _ _ (adv_left _ _ _ Hadv)).
      intros i (d & Hd & Hst)%(wf_queue st Hwf) (_ & (d' & Hd' & Hst')%(wf_queue st Hwf))%list_elem_of_filter.
      assert (s' = s) as -> by congruence. pose proof (Hlt s ltac:(by left)). lia.
    + apply IH. intros s0 ?. apply Hlt. by right.
Qed.

(** Then the whole run takes one turn. *)
Lemma run_in_order fuel p st w :
  wf_sched st -> in_order st -> skipped_res st = [] -> all_succeed function st -> forward st -> balanced st ->
  exists st' w', run_deferred_cmds function (S fuel) p st w = Some (Ok 0, st', w') /\
    advanced st st' (stages ≫= fun s => filter (not_done (heap st)) (deferred_cmds st s)).
Proof using.
  intros Hwf Ho Hs Hall Hfw Hb.
  destruct (run_stages_in_order p stages st w Hwf Ho Hs Hall Hfw stages_sorted) as (st' & w' & Hrun & Hadv).
  { intros i d _ _. apply elem_of_stages. }
  exists st', w'. split; [|done]. unfold run_deferred_cmds. cbn [run_loop]. rewrite Hrun.
  rewrite (proj2 (Z.ltb_ge _ _)); [done|]. pose proof (adv_counted _ _ _ Hadv) as Hc. unfold balanced in Hb.
  rewrite (adv_scheduled _ _ _ Hadv). enough (undone (heap st') = 0) by lia.
  destruct (Z.eq_dec (undone (heap st')) 0) as [|Hne]; [done|exfalso].
  destruct (undone_pos (heap st')) as [i Hi]; [unfold undone in *; lia|].
  apply (adv_left _ _ _ Hadv) in Hi as [Hnd Hni]. pose proof Hnd as (d & Hd & _). apply Hni, list_elem_of_bind.
  exists (dc_stage d). split; [|apply elem_of_stages]. apply list_elem_of_filter. split; [done|].
  apply (wf_queue st Hwf). by exists d.
Qed.
End Run.

(** ** Cancelling *)

Lemma cancel_cmd_later i st :
  wf_sched st -> later st (cancel_deferred_cmd i st) /\ (balanced st -> balanced (cancel_deferred_cmd i st)) /\
  skipped_res (cancel_deferred_cmd i st) = skipped_res st /\ ran (cancel_deferred_cmd i st) = ran st /\
  (forall j, not_done (heap (cancel_deferred_cmd i st)) j <-> not_done (heap st) j /\ j <> i).
Proof.
  intros Hwf. unfold cancel_deferred_cmd.
  assert ((forall d, heap st !! i = Some d -> done d = true) -> forall j, not_done (heap st) j <-> not_done (heap st) j /\ j <> i) as Hsame.
  { intros Hd j. split; [|by intros []]. intros Hj. split; [done|]. intros ->. destruct Hj as (d & Hi & Hdn).
    rewrite (Hd d Hi) in Hdn. done. }
  destruct (heap st !! i) as [d|] eqn:Hi; [|split_and!; [done..|by apply Hsame]].
  destruct (done d) eqn:Hd; [split_and!; [done..|apply Hsame; naive_solver]|].
  destruct (set_done_facts st i d Hwf Hi Hd) as [Hu Hn].
  set (st' := set_done i st <| scheduled_deferred_cmds := scheduled_deferred_cmds st - 1 |>).
  split_and!; [split; [done|done|exact (later_heap _ _ (later_set_done st i))]| |done|done|exact Hn].
  unfold balanced. replace (heap st') with (heap (set_done i st)) by reflexivity. rewrite Hu.
  change (scheduled_deferred_cmds st') with (scheduled_deferred_cmds st - 1).
  change (executed_deferred_cmds st') with (executed_deferred_cmds st). lia.
Qed.

(** Cancelling the commands of a queue that belong to [r]. *)
Lemma cancel_waits_later r st :
  wf_sched st -> in_order st -> balanced st ->
  (forall i d, heap st !! i = Some d -> res_at (ctx_res (dc_ctx d)) = res_at r) ->
  let st' := cancel_deferred_waits r st in
  later st st' /\ wf_sched st' /\ in_order st' /\ balanced st' /\
  skipped_res st' = skipped_res st /\ ran st' = ran st /\
  (forall j, not_done (heap st') j <-> not_done (heap st) j /\ j ∉ deferred_cmds st CFG_WAIT_CONNECT).
Proof.
  intros Hwf Ho Hb Hres. cbv zeta. unfold cancel_deferred_waits.
  assert (forall i, i ∈ deferred_cmds st CFG_WAIT_CONNECT -> exists d, heap st !! i = Some d) as Hq.
  { intros i (d & Hi & _)%(wf_queue st Hwf). eauto. }
  revert Hq. generalize (deferred_cmds st CFG_WAIT_CONNECT). intros q. revert st Hwf Ho Hb Hres.
  induction q as [|i q IH]; intros st Hwf Ho Hb Hres Hq; cbn [fold_left].
  { split_and!; [done..|]. intros j. rewrite elem_of_nil. naive_solver. }
  destruct (Hq i ltac:(by left)) as [d Hi]. rewrite Hi, (Hres i d Hi), Z.eqb_refl.
  destruct (cancel_wf i st Hwf Ho) as [Hwf1 Ho1].
  destruct (cancel_cmd_later i st Hwf) as (Hl1 & Hb1 & Hs1 & Hr1 & Hn1).
  destruct (IH (cancel_deferred_cmd i st) Hwf1 Ho1 (Hb1 Hb)) as (Hl2 & Hwf2 & Ho2 & Hb2 & Hs2 & Hr2 & Hn2).
  - intros k e' He'. destruct (later_lookup_2 _ _ _ _ Hl1 He') as (e & He & -> & _). by eapply Hres.
  - intros k Hk. destruct (Hq k ltac:(by right)) as [e He].
    destruct (later_lookup _ _ _ _ Hl1 He) as (e' & ? & _). eauto.
  - split_and!; [by etransitivity|done..|congruence|congruence|].
    intros j. rewrite Hn2, Hn1, not_elem_of_cons. naive_solver.
Qed.

Lemma cancel_waits_none r st : deferred_cmds st CFG_WAIT_CONNECT = [] -> cancel_deferred_waits r st = st.
Proof. intros Hq. unfold cancel_deferred_waits. by rewrite Hq. Qed.

(** ** What has been scheduled *)

(** A state in which nothing has run and the commands [l] are scheduled. *)
Record only_scheduled (st : sched) (l : list cfg_ctx) : Prop := {
  fresh_untouched :> untouched st;
  fresh_heap : dc_ctx <$> heap st = l;
  fresh_queue s : omap (fun i => l !! i) (deferred_cmds st s) = filter (fun c => cmd_stage c = s) l;
  fresh_forward i d j d' : heap st !! i = Some d -> depends_on d = Some j -> heap st !! j = Some d' ->
    (rank (dc_stage d') <= rank (dc_stage d))%nat \/ dc_stage d' = CFG_WAIT_CONNECT;
  fresh_done : Forall (fun d => done d = false) (heap st)
}.

Lemma initialize_fresh : only_scheduled initialize_deferred_cmds [].
Proof. split; [apply initialize_untouched|done|done|by intros i d|constructor]. Qed.

Lemma enqueue_fresh cmd ctx dep st l :
  only_scheduled st l ->
  (forall j, dep = Some j -> exists c, l !! j = Some c /\
     ((rank (cmd_stage c) <= rank (stage (adm_cmd_of cmd)))%nat \/ cmd_stage c = CFG_WAIT_CONNECT)) ->
  only_scheduled (enqueue cmd ctx dep st).2 (l ++ [with_cmd ctx cmd]) /\ (enqueue cmd ctx dep st).1 = length l.
Proof.
  intros Hf Hdep. pose proof (un_wf _ Hf) as Hwf.
  assert (length (heap st) = length l) as Hlen by (by rewrite <- (fresh_heap _ _ Hf), length_fmap).
  split; [|done]. set (d0 := mk_deferred_cmd (with_cmd ctx cmd) dep false).
  assert (heap (enqueue cmd ctx dep st).2 = heap st ++ [d0]) as Hh by reflexivity.
  assert (forall j, dep = Some j -> (j < length (heap st))%nat) as Hlt.
  { intros j Hj. destruct (Hdep j Hj) as (c & Hc & _). rewrite Hlen. by eapply lookup_lt_Some. }
  split.
  - by apply enqueue_untouched; [apply Hf|].
  - rewrite Hh, fmap_app. by rewrite (fresh_heap _ _ Hf).
  - intros s. rewrite enqueue_queue, omap_app, list.filter_app. f_equal.
    + rewrite <- (fresh_queue _ _ Hf s). apply list_omap_ext, Forall_Forall2_diag, Forall_forall.
      intros i (d & Hi & _)%(wf_queue st Hwf). apply lookup_app_l. rewrite <- Hlen. by eapply lookup_lt_Some.
    + rewrite Hlen. cbn [filter list_filter]. change (cmd_stage (with_cmd ctx cmd)) with (stage (adm_cmd_of cmd)).
      destruct (decide (s = stage (adm_cmd_of cmd))) as [->|Hne].
      * rewrite decide_True by done. cbn. by rewrite lookup_app_r, Nat.sub_diag by lia.
      * by rewrite decide_False by congruence.
  - intros i d j d'. rewrite Hh, !Deferred.lookup_snoc_Some. intros [Hi|[-> ->]] Hd [Hj|[-> ->]].
    + by apply (fresh_forward _ _ Hf i d j d').
    + pose proof (wf_dep st Hwf _ _ _ Hi Hd). pose proof (lookup_lt_Some _ _ _ Hi). lia.
    + cbn in Hd. destruct (Hdep j Hd) as (c & Hc & Hr). rewrite <- (fresh_heap _ _ Hf), list_lookup_fmap, Hj in Hc.
      injection Hc as <-. exact Hr.
    + cbn in Hd. specialize (Hlt _ Hd). lia.
  - rewrite Hh. apply Forall_app. split; [apply (fresh_done _ _ Hf)|by constructor].
Qed.

(** Scheduling, as a step from one only_scheduled state to the next: [dep_ok l cmd dep]
    says that [cmd] may depend on [dep]. *)
Definition dep_ok (l : list cfg_ctx) (cmd : cmd_object) (dep : option nat) : Prop :=
  forall j, dep = Some j -> exists c, l !! j = Some c /\
    ((rank (cmd_stage c) <= rank (stage (adm_cmd_of cmd)))%nat \/ cmd_stage c = CFG_WAIT_CONNECT).

Lemma dep_ok_None l cmd : dep_ok l cmd None.
Proof. done. Qed.

Lemma dep_ok_app l l' cmd dep : dep_ok l cmd dep -> dep_ok (l ++ l') cmd dep.
Proof. intros Hd j Hj. destruct (Hd j Hj) as (c & Hc & Hr). exists c. split; [by apply lookup_app_l_Some|done]. Qed.

(** The command that has just been scheduled. *)
Lemma dep_ok_last l c l' cmd :
  (rank (cmd_stage c) <= rank (stage (adm_cmd_of cmd)))%nat \/ cmd_stage c = CFG_WAIT_CONNECT ->
  dep_ok (l ++ c :: l') cmd (Some (length l)).
Proof. intros Hr j [= <-]. exists c. by rewrite lookup_app_r, Nat.sub_diag by lia. Qed.

Lemma schedule_fresh cmd ctx dep st l :
  only_scheduled st l -> dep_ok l cmd dep ->
  exists st', schedule_deferred_cmd cmd ctx dep SCHEDULE_ALWAYS st = Ok (length l, st') /\
    only_scheduled st' (l ++ [with_cmd ctx cmd]).
Proof.
  intros Hf Hdep. destruct (enqueue_fresh cmd ctx dep st l Hf Hdep) as [Hf' Hi].
  exists (enqueue cmd ctx dep st).2. split; [|done].
  change (schedule_deferred_cmd cmd ctx dep SCHEDULE_ALWAYS st) with (Ok (enqueue cmd ctx dep st)).
  by rewrite <- Hi, <- surjective_pairing.
Qed.

(** The commands that have run. *)
Definition ran_cmds (st : sched) : list cfg_ctx := omap (fun i => dc_ctx <$> heap st !! i) (ran st).

(** The commands [l] that are to be run, stage by stage. *)
Definition by_stage (l : list cfg_ctx) : list cfg_ctx :=
  stages ≫= fun s => filter (fun c => cmd_stage c = s) l.

Definition is_wait (c : cfg_ctx) : Prop := cmd_stage c = CFG_WAIT_CONNECT.

#[export] Instance is_wait_dec c : Decision (is_wait c).
Proof. unfold is_wait. apply _. Defined.

Definition no_waits (l : list cfg_ctx) : list cfg_ctx := filter (fun c => ~ is_wait c) l.

Lemma no_waits_app l1 l2 : no_waits (l1 ++ l2) = no_waits l1 ++ no_waits l2.
Proof. apply list.filter_app. Qed.

Lemma no_waits_id l : Forall (fun c => ~ is_wait c) l -> no_waits l = l.
Proof. induction 1 as [|c l Hc _ IH]; [done|]. unfold no_waits. by rewrite filter_cons_True; [f_equal|]. Qed.

(** Without a command of a stage its queue is empty. *)
Lemma fresh_queue_nil st l s :
  only_scheduled st l -> Forall (fun c => cmd_stage c <> s) l -> deferred_cmds st s = [].
Proof.
  intros Hf Hl. destruct (deferred_cmds st s) as [|i q] eqn:Hq; [done|exfalso].
  assert (i ∈ deferred_cmds st s) as (d & Hd & Hs)%(wf_queue st (un_wf _ Hf)) by (rewrite Hq; by left).
  rewrite Forall_forall in Hl. apply (Hl (dc_ctx d)); [|done]. rewrite <- (fresh_heap _ _ Hf).
  by eapply list_elem_of_fmap_2, list_elem_of_lookup_2.
Qed.

Lemma omap_bind {A B C} (f : B -> option C) (g : A -> list B) (l : list A) :
  omap f (l ≫= g) = l ≫= (fun x => omap f (g x)).
Proof. induction l as [|x l IH]; [done|]. cbn [mbind list_bind]. by rewrite omap_app, IH. Qed.

Lemma bind_ext_in {A B} (f g : A -> list B) (l : list A) :
  (forall x, x ∈ l -> f x = g x) -> l ≫= f = l ≫= g.
Proof.
  induction l as [|x l IH]; [done|]. intros Hx. cbn [mbind list_bind].
  rewrite (Hx x) by by left. f_equal. apply IH. intros y ?. apply Hx. by right.
Qed.

(** The run of a only_scheduled state whose waits have been cancelled. *)
Lemma fresh_run {W} (function : cfg_ctx -> W -> res Z * W) fuel p r st l w :
  only_scheduled st l -> Forall (fun c => res_at (ctx_res c) = res_at r) l -> Forall (succeeds function) l ->
  exists st' w', run_deferred_cmds function (S fuel) p (cancel_deferred_waits r st) w = Some (Ok 0, st', w') /\
    ran_cmds st' = by_stage (no_waits l).
Proof.
  intros Hf Hres Hsucc. pose proof (un_wf _ Hf) as Hwf. rewrite Forall_forall in Hres. rewrite Forall_forall in Hsucc.
  assert (forall i d, heap st !! i = Some d -> l !! i = Some (dc_ctx d)) as Hat.
  { intros i d Hi. by rewrite <- (fresh_heap _ _ Hf), list_lookup_fmap, Hi. }
  assert (forall i d, heap st !! i = Some d -> done d = false) as Hnd.
  { pose proof (fresh_done _ _ Hf) as Hd. rewrite Forall_forall in Hd. intros i d Hi. by eapply Hd, list_elem_of_lookup_2. }
  destruct (cancel_waits_later r st Hwf (untouched_in_order _ Hf) (un_balanced _ Hf))
    as (Hl & Hwf1 & Ho1 & Hb1 & Hs1 & Hr1 & Hn1).
  { intros i d Hi. by eapply Hres, list_elem_of_lookup_2, Hat. }
  set (st1 := cancel_deferred_waits r st) in *.
  destruct (run_in_order function fuel p st1 w Hwf1 Ho1) as (st' & w' & Hrun & Hadv).
  - by rewrite Hs1, (un_skipped _ Hf).
  - intros i d' Hi. destruct (later_lookup_2 _ _ _ _ Hl Hi) as (d & Hd & -> & _).
    by eapply Hsucc, list_elem_of_lookup_2, Hat.
  - intros i d1 j d1' Hi Hdi Hj Hd1' Hdj.
    destruct (later_lookup_2 _ _ _ _ Hl Hi) as (d & Hd & Hc & Hdep & _).
    destruct (later_lookup_2 _ _ _ _ Hl Hd1') as (d' & Hd' & Hc' & _).
    unfold dc_stage. rewrite Hc, Hc'. rewrite Hdep in Hj.
    pose proof (fresh_forward _ _ Hf i d j d' Hd Hj Hd') as [Hr|Hw]; [done|].
    assert (not_done (heap st) j /\ j ∉ deferred_cmds st CFG_WAIT_CONNECT) as [_ Hni] by (apply Hn1; by exists d1').
    exfalso. apply Hni, (wf_queue st Hwf). by exists d'.
  - done.
  - exists st', w'. split; [done|]. unfold ran_cmds, by_stage.
    rewrite (adv_ran _ _ _ Hadv), Hr1, (un_ran _ Hf), app_nil_l, omap_bind.
    rewrite (later_queue _ _ Hl). pose proof (transitivity Hl (adv_later _ _ _ Hadv)) as Hl2.
    apply bind_ext_in. intros s _.
    assert (filter (not_done (heap st1)) (deferred_cmds st s) =
            if decide (s = CFG_WAIT_CONNECT) then [] else deferred_cmds st s) as ->.
    { pose proof (wf_queue st Hwf s) as Hq. revert Hq. case_decide as Hs; intros Hq.
      - apply filter_none. intros i Hi (Hx & Hni)%Hn1. by rewrite <- Hs in Hni.
      - assert (forall i, i ∈ deferred_cmds st s -> not_done (heap st1) i) as Hall.
        { intros i Hi. apply Hn1. apply Hq in Hi as (d & Hd & Hst). split; [exists d; split; [done|by eapply Hnd]|].
          intros (d' & Hd' & Hst')%(wf_queue st Hwf). congruence. }
        clear Hq. induction (deferred_cmds st s) as [|i q IH]; [done|].
        rewrite filter_cons_True by (apply Hall; by left). f_equal. apply IH. intros ??. apply Hall. by right. }
    unfold no_waits. rewrite list_filter_filter. case_decide as Hs.
    + symmetry. apply filter_none. unfold is_wait. intros c _ []. congruence.
    + rewrite (list_filter_iff _ (fun c => cmd_stage c = s)) by (unfold is_wait; intros c; naive_solver).
      rewrite <- (fresh_queue _ _ Hf s). apply list_omap_ext, Forall_Forall2_diag, Forall_forall.
      intros i (d & Hd & _)%(wf_queue st Hwf). destruct (later_lookup _ _ _ _ Hl2 Hd) as (d' & -> & Hc & _).
      cbn. rewrite Hc. by rewrite (Hat _ _ Hd).
Qed.

(** ** Commands that succeed *)

(** A command whose context has what it needs. *)
Definition well_called (c : cfg_ctx) : Prop :=
  (disk_required (adm_cmd_of (ctx_cmd c)) = true ->
     exists vol, ctx_vol c = Some vol /\ no_local_disk vol = false) /\
  (iterate_paths (adm_cmd_of (ctx_cmd c)) = true -> is_Some (ctx_conn c)).

Lemma call_paths_0 {W} (function : cfg_ctx -> W -> res Z * W) ctx paths w :
  (forall c w, exists w', function c w = (Ok 0, w')) ->
  exists w', call_paths function ctx KEEP_RUNNING paths 0 w = (Ok 0, w').
Proof.
  intros Hf. revert w. induction paths as [|p paths IH]; intros w; cbn [call_paths]; [by eexists|].
  destruct (path_ignore p); [done|]. unfold call_function.
  destruct (Hf (mk_cfg_ctx (ctx_res ctx) (ctx_vol ctx) (ctx_conn ctx) (Some p) (ctx_cmd ctx)) w) as [w1 ->]. apply IH.
Qed.

Lemma well_called_succeeds {W} (function : cfg_ctx -> W -> res Z * W) c :
  (forall c w, exists w', function c w = (Ok 0, w')) -> well_called c -> succeeds function c.
Proof.
  intros Hf [Hdisk Hpath] w. unfold __call_cmd_fn.
  assert (exists w', (if bool_decide (ctx_path c = None) && iterate_paths (adm_cmd_of (ctx_cmd c)) then
      match ctx_conn c with Some conn => call_paths function c KEEP_RUNNING (conn_paths conn) 0 w | None => (Fault, w) end
    else call_function function c KEEP_RUNNING w) = (Ok 0, w')) as [w' ->].
  { destruct (_ && _) eqn:Hi.
    - apply andb_true_iff in Hi as [_ Hi]. destruct (Hpath Hi) as [conn ->]. by apply call_paths_0.
    - unfold call_function. destruct (Hf c w) as [w1 ->]. by eexists. }
  exists w'. destruct (disk_required _); [|done]. by destruct (Hdisk eq_refl) as (vol & -> & ->).
Qed.
