(* ===== verification/Up.v ===== *)
(** * Bringing a resource up

    drbdadm up ([adm_up] of user/v9/drbdadm_main.c): what it schedules, and the
    order in which the commands are run. *)

From S2P Require Import Prelude Machine ConfigFlags Address AdmConfig Deferred Stages.
From Stdlib Require Import String.
From stdpp Require Import strings sorting.

#[local] Open Scope string_scope.
#[local] Open Scope list_scope.
#[local] Open Scope Z_scope.

(** ** drbdadm up *)

(** The loop over the volumes, after which the result of the last scheduling
    is not used. *)
Fixpoint up_volumes (ctx : cfg_ctx) (new_res : nat) (vols : list d_volume) (st : sched) : res sched :=
  match vols with
  | [] => Ok st
  | vol :: vols' =>
      let tmp_ctx := mk_cfg_ctx (ctx_res ctx) (Some vol) None (ctx_path ctx) (ctx_cmd ctx) in
      '(dcmd, st) ← schedule_deferred_cmd new_minor_cmd tmp_ctx (Some new_res) SCHEDULE_ALWAYS st;
      st ← (match disk vol with
            | Some _ => snd <$> schedule_deferred_cmd attach_cmd tmp_ctx (Some dcmd) SCHEDULE_ALWAYS st
            | None => Ok st
            end);
      up_volumes ctx new_res vols' st
  end.

Fixpoint up_peer_devices (ctx : cfg_ctx) (conn_peer : option d_host_info) (dcmd : nat) (pds : list peer_device)
    (st : sched) : res sched :=
  match pds with
  | [] => Ok st
  | pd :: pds' =>
      match pd_options pd, conn_peer with
      | [], _ => up_peer_devices ctx conn_peer dcmd pds' st
      | _ :: _, None => Fault
      | _ :: _, Some p =>
          st ← (match volume_by_vnr (host_volumes p) (pd_vnr pd) with
                | Some vol =>
                    snd <$> schedule_deferred_cmd peer_device_options_cmd
                      (mk_cfg_ctx (ctx_res ctx) (Some vol) (ctx_conn ctx) (ctx_path ctx) (ctx_cmd ctx))
                      (Some dcmd) SCHEDULE_ALWAYS st
                | None => Ok st
                end);
          up_peer_devices ctx conn_peer dcmd pds' st
      end
  end.

(** [vol] is what the loop over the volumes leaves in [tmp_ctx]. *)
Fixpoint up_connections (ctx : cfg_ctx) (vol : option d_volume) (new_res : nat) (conns : list connection)
    (st : sched) : res sched :=
  match conns with
  | [] => Ok st
  | conn :: conns' =>
      if conn_ignore conn then up_connections ctx vol new_res conns' st
      else
        let c := mk_cfg_ctx (ctx_res ctx) vol (Some conn) (ctx_path ctx) (ctx_cmd ctx) in
        '(dcmd, st) ← schedule_deferred_cmd new_peer_cmd c (Some new_res) SCHEDULE_ALWAYS st;
        '(_, st) ← schedule_deferred_cmd new_path_cmd c (Some dcmd) SCHEDULE_ALWAYS st;
        '(_, st) ← schedule_deferred_cmd connect_cmd c (Some dcmd) SCHEDULE_ALWAYS st;
        st ← up_peer_devices c (peer conn) dcmd (peer_devices conn) st;
        up_connections ctx vol new_res conns' st
  end.

(** [set_peer_in_resource] has found the peers of the connections already: it
    does not touch what is scheduled. *)
Definition adm_up (ctx : cfg_ctx) (st : sched) : res sched :=
  '(new_res, st) ← schedule_deferred_cmd new_resource_cmd ctx None SCHEDULE_ALWAYS st;
  st ← up_volumes ctx new_res (me_volumes (ctx_res ctx)) st;
  let vol := match list.last (me_volumes (ctx_res ctx)) with Some vol => Some vol | None => ctx_vol ctx end in
  up_connections ctx vol new_res (connections (ctx_res ctx)) st.

(** The commands of a volume, of the devices of a connection and of a
    connection, in the order in which [adm_up] schedules them. *)
Definition vol_ctx (ctx : cfg_ctx) (vol : d_volume) : cfg_ctx :=
  mk_cfg_ctx (ctx_res ctx) (Some vol) None (ctx_path ctx) (ctx_cmd ctx).

Definition vol_cmds (ctx : cfg_ctx) (vol : d_volume) : list cfg_ctx :=
  with_cmd (vol_ctx ctx vol) new_minor_cmd ::
  (if disk vol then [with_cmd (vol_ctx ctx vol) attach_cmd] else []).

Definition pd_cmds (ctx : cfg_ctx) (conn_peer : option d_host_info) (pd : peer_device) : list cfg_ctx :=
  match pd_options pd, conn_peer with
  | _ :: _, Some p =>
      match volume_by_vnr (host_volumes p) (pd_vnr pd) with
      | Some vol => [mk_cfg_ctx (ctx_res ctx) (Some vol) (ctx_conn ctx) (ctx_path ctx) peer_device_options_cmd]
      | None => []
      end
  | _, _ => []
  end.

Definition conn_cmds (ctx : cfg_ctx) (vol : option d_volume) (conn : connection) : list cfg_ctx :=
  let c := mk_cfg_ctx (ctx_res ctx) vol (Some conn) (ctx_path ctx) (ctx_cmd ctx) in
  if conn_ignore conn then []
  else [with_cmd c new_peer_cmd; with_cmd c new_path_cmd; with_cmd c connect_cmd] ++
       (peer_devices conn ≫= pd_cmds c (peer conn)).

Definition up_cmds (ctx : cfg_ctx) : list cfg_ctx :=
  let res := ctx_res ctx in
  let vol := match list.last (me_volumes res) with Some vol => Some vol | None => ctx_vol ctx end in
  with_cmd ctx new_resource_cmd :: (me_volumes res ≫= vol_cmds ctx) ++ (connections res ≫= conn_cmds ctx vol).

(** The peer is known where its volumes are looked up. *)
Definition peer_known (conn : connection) : Prop :=
  conn_ignore conn = false -> peer conn = None -> Forall (fun pd => pd_options pd = []) (peer_devices conn).

(** One step of scheduling: [schedule cmd ctx dep with Hf] replaces the call
    in the goal by its result, and [Hf] by the facts of the state after it. *)
Ltac schedule_step cmd ctx dep Hf :=
  let st := fresh "st" in let Hs := fresh "Hs" in
  match type of Hf with
  | only_scheduled ?st0 ?l =>
      destruct (schedule_fresh cmd ctx dep st0 l Hf) as (st & Hs & Hf');
      [|rewrite Hs; cbn [mbind res_bind fmap res_fmap snd]; clear Hs; clear Hf; rename Hf' into Hf;
        rewrite <- ?app_assoc in Hf; cbn [app] in Hf]
  end.

Lemma up_volumes_fresh ctx new_res vols st l c :
  only_scheduled st l -> l !! new_res = Some c -> cmd_stage c = CFG_PREREQ ->
  exists st', up_volumes ctx new_res vols st = Ok st' /\ only_scheduled st' (l ++ (vols ≫= vol_cmds ctx)).
Proof.
  revert st l. induction vols as [|vol vols IH]; intros st l Hf Hn Hc; cbn [up_volumes mbind list_bind].
  { exists st. by rewrite app_nil_r. }
  fold (vol_ctx ctx vol). unfold vol_cmds at 1.
  schedule_step new_minor_cmd (vol_ctx ctx vol) (Some new_res) Hf.
  { intros j [= <-]. exists c. rewrite Hc. split; [done|left; cbn; lia]. }
  destruct (disk vol) eqn:Hd.
  - schedule_step attach_cmd (vol_ctx ctx vol) (Some (length l)) Hf.
    { apply dep_ok_last. left. cbn. lia. }
    destruct (IH _ _ Hf) as (st3 & H3 & Hf3); [by apply lookup_app_l_Some|done|].
    exists st3. split; [done|]. by rewrite <- !app_assoc in Hf3.
  - cbn [mbind res_bind]. destruct (IH _ _ Hf) as (st3 & H3 & Hf3); [by apply lookup_app_l_Some|done|].
    exists st3. split; [done|]. by rewrite <- app_assoc in Hf3.
Qed.

Lemma up_peer_devices_fresh ctx conn_peer dcmd pds st l c :
  only_scheduled st l -> l !! dcmd = Some c -> cmd_stage c = CFG_NET_PREP_UP ->
  (conn_peer = None -> Forall (fun pd => pd_options pd = []) pds) ->
  exists st', up_peer_devices ctx conn_peer dcmd pds st = Ok st' /\
    only_scheduled st' (l ++ (pds ≫= pd_cmds ctx conn_peer)).
Proof.
  revert st l. induction pds as [|pd pds IH]; intros st l Hf Hn Hc Hp; cbn [up_peer_devices mbind list_bind].
  { exists st. by rewrite app_nil_r. }
  assert (conn_peer = None -> Forall (fun pd => pd_options pd = []) pds) as Hp' by (intros Hx; by apply Hp, Forall_cons in Hx as [_ ?]).
  unfold pd_cmds at 1. destruct (pd_options pd) as [|o os] eqn:Ho; [by apply IH|].
  destruct conn_peer as [p|]; [|by apply Forall_cons in Hp as [? _]; [congruence|]].
  destruct (volume_by_vnr (host_volumes p) (pd_vnr pd)) as [vol|]; [|by apply IH].
  schedule_step peer_device_options_cmd
    (mk_cfg_ctx (ctx_res ctx) (Some vol) (ctx_conn ctx) (ctx_path ctx) (ctx_cmd ctx)) (Some dcmd) Hf.
  { intros j [= <-]. exists c. rewrite Hc. split; [done|left; cbn; lia]. }
  destruct (IH _ _ Hf) as (st2 & H2 & Hf2); [by apply lookup_app_l_Some|done|done|].
  exists st2. split; [done|]. by rewrite <- app_assoc in Hf2.
Qed.

Lemma up_connections_fresh ctx vol new_res conns st l c :
  only_scheduled st l -> l !! new_res = Some c -> cmd_stage c = CFG_PREREQ -> Forall peer_known conns ->
  exists st', up_connections ctx vol new_res conns st = Ok st' /\
    only_scheduled st' (l ++ (conns ≫= conn_cmds ctx vol)).
Proof.
  intros Hf Hn Hc Hk. revert st l Hf Hn. induction Hk as [|conn conns Hk _ IH]; intros st l Hf Hn;
    cbn [up_connections mbind list_bind].
  { exists st. by rewrite app_nil_r. }
  unfold conn_cmds at 1. destruct (conn_ignore conn) eqn:Hi; [by apply IH|].
  set (cc := mk_cfg_ctx (ctx_res ctx) vol (Some conn) (ctx_path ctx) (ctx_cmd ctx)).
  schedule_step new_peer_cmd cc (Some new_res) Hf.
  { intros j [= <-]. exists c. rewrite Hc. split; [done|left; cbn; lia]. }
  schedule_step new_path_cmd cc (Some (length l)) Hf.
  { apply dep_ok_last. left. cbn. lia. }
  schedule_step connect_cmd cc (Some (length l)) Hf.
  { apply dep_ok_last. left. cbn. lia. }
  destruct (up_peer_devices_fresh cc (peer conn) (length l) (peer_devices conn) _ _
    (with_cmd cc new_peer_cmd) Hf) as (st4 & H4 & Hf4).
  { by rewrite lookup_app_r, Nat.sub_diag. }
  { done. }
  { by apply Hk. }
  rewrite H4. cbn [mbind res_bind]. rewrite <- !app_assoc in Hf4.
  destruct (IH st4 _ Hf4) as (st5 & H5 & Hf5); [by apply lookup_app_l_Some|].
  exists st5. split; [done|]. by rewrite <- !app_assoc in Hf5.
Qed.

Lemma adm_up_fresh ctx :
  Forall peer_known (connections (ctx_res ctx)) ->
  exists st, adm_up ctx initialize_deferred_cmds = Ok st /\ only_scheduled st (up_cmds ctx).
Proof.
  intros Hk. unfold adm_up. pose proof initialize_fresh as Hf.
  schedule_step new_resource_cmd ctx (@None nat) Hf; [done|].
  destruct (up_volumes_fresh ctx 0 (me_volumes (ctx_res ctx)) _ _
    (with_cmd ctx new_resource_cmd) Hf) as (st1 & H1 & Hf1); [done|done|].
  change (length (@nil cfg_ctx)) with 0%nat. rewrite H1. cbn [mbind res_bind].
  apply (up_connections_fresh ctx _ 0 _ _ _ (with_cmd ctx new_resource_cmd) Hf1); [done..|].
  exact Hk.
Qed.

(** Every command is called with what it needs, and none waits. *)
Definition up_command (c : cfg_ctx) : Prop := well_called c /\ ~ is_wait c.

Lemma pd_cmds_up ctx conn_peer pd : Forall up_command (pd_cmds ctx conn_peer pd).
Proof.
  unfold pd_cmds. destruct (pd_options pd); [constructor|]. destruct conn_peer; [|constructor].
  destruct (volume_by_vnr _ (pd_vnr pd)); by repeat constructor.
Qed.

Lemma conn_cmds_up ctx vol conn : Forall up_command (conn_cmds ctx vol conn).
Proof.
  unfold conn_cmds. destruct (conn_ignore conn); [by constructor|].
  apply Forall_app. split; [repeat constructor; done|]. apply Forall_bind, Forall_true. intros pd.
  apply pd_cmds_up.
Qed.

Lemma vol_cmds_up ctx vol :
  (disk vol <> None -> no_local_disk vol = false) -> Forall up_command (vol_cmds ctx vol).
Proof.
  intros Hvol. apply Forall_cons. split; [done|]. destruct (disk vol) eqn:Hd; [|constructor].
  apply Forall_singleton. split; [|done]. split; [|done]. intros _. exists vol. split; [done|]. by apply Hvol.
Qed.

Lemma up_cmds_up ctx :
  Forall (fun vol => disk vol <> None -> no_local_disk vol = false) (me_volumes (ctx_res ctx)) ->
  Forall up_command (up_cmds ctx).
Proof.
  intros Hvols. apply Forall_cons. split; [done|]. apply Forall_app. split; apply Forall_bind.
  - eapply Forall_impl; [exact Hvols|]. apply vol_cmds_up.
  - apply Forall_true. intros conn. apply conn_cmds_up.
Qed.

Lemma pd_cmds_res ctx conn_peer pd : Forall (fun c => ctx_res c = ctx_res ctx) (pd_cmds ctx conn_peer pd).
Proof.
  unfold pd_cmds. destruct (pd_options pd); [constructor|]. destruct conn_peer; [|constructor].
  destruct (volume_by_vnr _ (pd_vnr pd)); by repeat constructor.
Qed.

Lemma up_cmds_res ctx : Forall (fun c => ctx_res c = ctx_res ctx) (up_cmds ctx).
Proof.
  apply Forall_cons. split; [done|]. apply Forall_app. split; apply Forall_bind, Forall_true.
  - intros vol. unfold compose, vol_cmds. destruct (disk vol); by repeat constructor.
  - intros conn. unfold compose, conn_cmds. destruct (conn_ignore conn); [by constructor|].
    apply Forall_app. split; [by repeat constructor|]. apply Forall_bind, Forall_true.
    intros pd. eapply Forall_impl; [apply pd_cmds_res|]. by intros c ->.
Qed.

(** C24: drbdadm up: when the commands succeed, the run after [adm_up] calls
    exactly the commands of the resource - one to create it, one or two for
    each volume, at least three for each connection that is not ignored - each
    once, in one turn over the stages: sorted by stage and, within a stage, in
    the order of the configuration. *)
Theorem up_runs_in_stage_order {W} (function : cfg_ctx -> W -> res Z * W) fuel p ctx w :
  (forall c w, exists w', function c w = (Ok 0, w')) ->
  Forall (fun vol => disk vol <> None -> no_local_disk vol = false) (me_volumes (ctx_res ctx)) ->
  Forall peer_known (connections (ctx_res ctx)) ->
  exists st st' w', adm_up ctx initialize_deferred_cmds = Ok st /\
    run_deferred_cmds function (S fuel) p st w = Some (Ok 0, st', w') /\
    ran_cmds st' = by_stage (up_cmds ctx).
Proof.
  intros Hfun Hvols Hk. destruct (adm_up_fresh ctx Hk) as (st & Hup & Hf).
  pose proof (up_cmds_up ctx Hvols) as Hgood.
  destruct (fresh_run function fuel p (ctx_res ctx) st _ w Hf) as (st' & w' & Hrun & Hran).
  - eapply Forall_impl; [apply up_cmds_res|]. by intros c ->.
  - eapply Forall_impl; [exact Hgood|]. intros c [Hc _]. by apply well_called_succeeds.
  - rewrite cancel_waits_none in Hrun.
    + exists st, st', w'. split_and!; [done|done|]. rewrite Hran, no_waits_id; [done|].
      eapply Forall_impl; [exact Hgood|]. by intros c [_ Hn].
    + eapply fresh_queue_nil; [exact Hf|]. eapply Forall_impl; [exact Hgood|]. by intros c [_ Hn].
Qed.

Lemma up_runs_in_stage_order_witness :
  exists st st' w', adm_up example_ctx initialize_deferred_cmds = Ok st /\
    run_deferred_cmds (trace (fun _ => 0)) 1 false st [] = Some (Ok 0, st', w') /\
    (fun c => cmd_name (adm_cmd_of (ctx_cmd c))) <$> ran_cmds st' =
      ["new-resource"; "new-minor"; "new-minor"; "new-peer"; "new-path"; "peer-device-options"; "attach"; "connect"].
Proof.
  destruct (up_runs_in_stage_order (trace (fun _ => 0)) 0 false example_ctx []) as (st & st' & w' & Hup & Hrun & Hran).
  - intros c w. by eexists.
  - by repeat constructor.
  - by repeat constructor.
  - exists st, st', w'. split_and!; [done|done|]. by rewrite Hran.
Defined.
