(* ===== verification/Adjust.v ===== *)
(** * Comparing the configuration with what is running

    drbdadm adjust (user/v9/drbdadm_adjust.c): options and volumes of the
    configuration are compared with those "drbdsetup show" reports, and the
    commands that make up for the differences of the volumes are scheduled.
    The connections, and the whole of adjust, are in AdjustNet.

    The contexts of the options are parameters, as in ConfigFlags; the running
    resource, which is parsed from the output of drbdsetup, is an argument. *)

From S2P Require Import Prelude Machine ConfigFlags Options Address AdmConfig Deferred.
From Stdlib Require Import String.
From stdpp Require Import strings sorting.

#[local] Open Scope string_scope.
#[local] Open Scope list_scope.
#[local] Open Scope Z_scope.

(** ** Options *)

Definition field_def_of (opt_name : string) (ctx : context_def) : res field_def :=
  match List.find (fun field => String.eqb (fd_name field) opt_name) (ctx_fields ctx) with
  | Some field => Ok field
  | None => Abort
  end.

Definition is_equal (ctx : context_def) (a b : d_option) : res bool :=
  field ← field_def_of (o_name a) ctx;
  fc_is_equal (ops field) field (o_value a) (o_value b).

Definition is_default (ctx : context_def) (opt : d_option) : res bool :=
  field ← field_def_of (o_name opt) ctx;
  fc_is_default (ops field) field (o_value opt).

(** The loop over the running options; the configured options change: they are
    deleted when the kernel does not know them, and marked as mentioned. *)
Fixpoint compare_running (ctx : context_def) (conf run_base : options) : res (bool * options) :=
  match run_base with
  | [] => Ok (true, conf)
  | run_opt :: run_base' =>
      if o_unknown run_opt then compare_running ctx (del_opt conf (o_name run_opt)).1 run_base'
      else if o_adj_skip run_opt then compare_running ctx conf run_base'
      else match find_opt conf (o_name run_opt) with
      | Some opt =>
          eq ← is_equal ctx run_opt opt;
          if eq : bool then
            compare_running ctx (update_opt (fun o => o <| o_mentioned := true |>) conf (o_name run_opt)) run_base'
          else Ok (false, conf)
      | None =>
          def ← is_default ctx run_opt;
          if def : bool then compare_running ctx conf run_base' else Ok (false, conf)
      end
  end.

(** The loop over the configured options. *)
Fixpoint compare_configured (ctx : context_def) (conf : options) : res bool :=
  match conf with
  | [] => Ok true
  | opt :: conf' =>
      if o_adj_skip opt || o_mentioned opt then compare_configured ctx conf'
      else
        def ← is_default ctx opt;
        if def : bool then compare_configured ctx conf' else Ok false
  end.

Definition opts_equal (ctx : context_def) (conf run_base : options) : res (bool * options) :=
  '(eq, conf) ← compare_running ctx conf run_base;
  if eq : bool then
    eq ← compare_configured ctx conf; Ok (eq, conf)
  else Ok (false, conf).

Definition opt_equal (ctx : context_def) (opt_name : string) (conf run_base : options) : res bool :=
  field ← field_def_of opt_name ctx;
  match find_opt conf opt_name, find_opt run_base opt_name with
  | Some opt, Some run_opt => fc_is_equal (ops field) field (o_value opt) (o_value run_opt)
  | Some opt, None => fc_is_default (ops field) field (o_value opt)
  | None, Some run_opt => fc_is_default (ops field) field (o_value run_opt)
  | None, None => Ok true
  end.

(** ** Volumes *)

(** [strcmp] with a constant. *)
Definition str_is (a : option string) (s : string) : res bool :=
  match a with Some a => Ok (streq a s) | None => Fault end.

Definition is_same_disk (a b : option string) : res bool := compare_strings streq a b.

Definition int_eq (m_conf m_running : option string) : res bool :=
  a ← str_is m_conf "internal"; b ← str_is m_running "internal"; Ok (Bool.eqb a b).

Definition disk_equal (conf running : d_volume) : res bool :=
  match disk conf, disk running with
  | None, None => Ok true
  | None, Some r => Ok (streq r "none")
  | Some _, None => Ok false
  | Some _, Some _ =>
      eq ← is_same_disk (disk conf) (disk running);
      if eq : bool then
        eq ← int_eq (meta_disk conf) (meta_disk running);
        internal ← str_is (meta_disk conf) "internal";
        if eq && negb internal then is_same_disk (meta_disk conf) (meta_disk running) else Ok eq
      else Ok false
  end.

(** Not NULL and not "none". *)
Definition has_disk (d : option string) : bool :=
  match d with Some d => negb (streq d "none") | None => false end.

Section Volumes.
Context (attach_cmd_ctx disk_options_ctx : context_def).

Definition skip_size (opts : options) : options :=
  update_opt (fun o => o <| o_adj_skip := true |>) opts "size".

(** The volumes with the flags that change. *)
Definition compare_size (conf kern : d_volume) : res (d_volume * d_volume) :=
  let c := find_opt (disk_options conf) "size" in
  let k := find_opt (disk_options kern) "size" in
  let conf := conf <| disk_options := skip_size (disk_options conf) |> in
  let kern := kern <| disk_options := skip_size (disk_options kern) |> in
  def ← match k with Some k => is_default attach_cmd_ctx k | None => Ok false end;
  let k := if def : bool then None else k in
  let conf := if Bool.eqb (bool_decide (is_Some k)) (bool_decide (is_Some c)) then conf
              else conf <| adj_resize := true |> in
  match k, c with
  | Some k, Some c =>
      eq ← is_equal attach_cmd_ctx c k;
      Ok (if eq : bool then conf else conf <| adj_resize := true |>, kern)
  | _, _ => Ok (conf, kern)
  end.

Definition compare_volume (conf kern : d_volume) : res (d_volume * d_volume) :=
  let differs := negb (device_minor conf =? device_minor kern) in
  let conf := conf <| adj_new_minor := differs |> <| adj_del_minor := differs |> in
  same ← disk_equal conf kern;
  let conf :=
    if negb same || differs then
      conf <| adj_attach := has_disk (disk conf) |> <| adj_detach := has_disk (disk kern) |>
    else conf in
  '(conf, kern) ← (if negb (adj_attach conf) && negb (adj_detach conf) && bool_decide (is_Some (disk conf))
                   then compare_size conf kern else Ok (conf, kern));
  if negb (adj_detach conf || adj_attach conf) && bool_decide (is_Some (disk conf)) then
    '(eq, opts) ← opts_equal disk_options_ctx (disk_options conf) (disk_options kern);
    Ok (conf <| disk_options := opts |> <| adj_disk_opts := negb eq |>, kern)
  else Ok (conf, kern).

(** The address of the new volume is one of its own. *)
Definition new_to_be_deleted_minor_from_template (kern : d_volume) : res d_volume :=
  let conf := mk_d_volume (- vol_at kern - 1) (vnr kern) (device_minor kern) None None None [] true false false false false false None [] in
  if has_disk (disk kern) then
    match meta_disk kern, meta_index kern with
    | Some _, Some _ =>
        Ok (conf <| disk := disk kern |> <| meta_disk := meta_disk kern |>
                 <| meta_index := meta_index kern |> <| adj_detach := true |>)
    | _, _ => Fault
    end
  else Ok conf.

Definition new_volume (conf : d_volume) : d_volume :=
  conf <| adj_new_minor := true |>
       <| adj_attach := if disk conf then true else adj_attach conf |>.

(** The loop over both lists: the configured and the running volumes after it,
    and those that are to be deleted. *)
Fixpoint compare_loop (confs : list d_volume) :
    list d_volume -> list d_volume -> res (list d_volume * list d_volume * list d_volume) :=
  fix inner (kerns : list d_volume) (deleted : list d_volume) :=
    match confs, kerns with
    | [], [] => Ok ([], [], deleted)
    | [], kern :: kerns' =>
        v ← new_to_be_deleted_minor_from_template kern;
        '(cs, ks, deleted) ← inner kerns' (insert_volume deleted v);
        Ok (cs, kern :: ks, deleted)
    | conf :: confs', [] =>
        '(cs, ks, deleted) ← compare_loop confs' [] deleted;
        Ok (new_volume conf :: cs, ks, deleted)
    | conf :: confs', kern :: kerns' =>
        if vnr kern <? vnr conf then
          v ← new_to_be_deleted_minor_from_template kern;
          '(cs, ks, deleted) ← inner kerns' (insert_volume deleted v);
          Ok (cs, kern :: ks, deleted)
        else if vnr conf <? vnr kern then
          '(cs, ks, deleted) ← compare_loop confs' kerns deleted;
          Ok (new_volume conf :: cs, ks, deleted)
        else
          '(conf, kern) ← compare_volume conf kern;
          '(cs, ks, deleted) ← compare_loop confs' kerns' deleted;
          Ok (conf :: cs, kern :: ks, deleted)
    end.

Definition compare_volumes (conf_head kern_head : list d_volume) : res (list d_volume * list d_volume) :=
  '(cs, ks, deleted) ← compare_loop conf_head kern_head [];
  Ok (fold_left insert_volume deleted cs, ks).

(** ** Scheduling *)

Definition bitmap_will_be_enabled (conf kern : d_volume) : bool :=
  match find_opt (disk_options kern) "bitmap" with
  | Some kern_bm =>
      bool_decide (o_value kern_bm = Some "no") &&
      match find_opt (disk_options conf) "bitmap" with
      | Some conf_bm => bool_decide (o_value conf_bm = Some "yes")
      | None => true
      end
  | None => false
  end.

Definition adj_schedule_deferred_cmd (cmd : cmd_object) (ctx : cfg_ctx) (dep : option nat)
    (flags : schedule_flag) (st : sched) : res (nat * sched) :=
  if bool_decide (ctx_cmd ctx = sh_list_adjustable) then
    schedule_deferred_cmd output_res_name_cmd ctx dep SCHED_ONCE_P_RESOURCE st
  else schedule_deferred_cmd cmd ctx dep flags st.

(** [if (b) dep = adj_schedule_deferred_cmd(...)] *)
Definition schedule_if (b : bool) (cmd : cmd_object) (ctx : cfg_ctx) (dep : option nat) (st : sched) :
    res (option nat * sched) :=
  if b then '(i, st) ← adj_schedule_deferred_cmd cmd ctx dep SCHEDULE_ALWAYS st; Ok (Some i, st)
  else Ok (dep, st).

Definition matching_volume (conf_vol : d_volume) (kern_head : list d_volume) : option d_volume :=
  List.find (fun vol => vnr vol =? vnr conf_vol) kern_head.

(** The volume is another one than the one that was asked for. *)
Definition other_volume (ctx : cfg_ctx) (vol : d_volume) : bool :=
  match ctx_vol ctx with Some v => negb (vol_at vol =? vol_at v) | None => false end.

(** [running]: the volumes of the running resource, if there is one. *)
Fixpoint adjust_disk (ctx : cfg_ctx) (running : option (list d_volume)) (vols : list d_volume) (dep : option nat)
    (st : sched) : res sched :=
  match vols with
  | [] => Ok st
  | vol :: vols' =>
      if other_volume ctx vol then adjust_disk ctx running vols' dep st
      else
        let tmp_ctx := mk_cfg_ctx (ctx_res ctx) (Some vol) None None (ctx_cmd ctx) in
        '(dep, st) ← (if adj_detach vol || adj_del_minor vol then
            match running with
            | None => Fault
            | Some kerns =>
                let k_ctx := mk_cfg_ctx (ctx_res ctx) (Some (default vol (matching_volume vol kerns))) None None
                               (ctx_cmd ctx) in
                '(dep, st) ← schedule_if (adj_detach vol) detach_cmd k_ctx dep st;
                schedule_if (adj_del_minor vol) del_minor_cmd k_ctx dep st
            end
          else Ok (dep, st));
        '(_, st) ← schedule_if (adj_attach vol) attach_cmd tmp_ctx dep st;
        '(_, st) ← (if adj_disk_opts vol then
            match running with
            | None => Fault
            | Some kerns =>
                let early := match matching_volume vol kerns with
                             | Some v => bitmap_will_be_enabled vol v
                             | None => false
                             end in
                schedule_if true (if early then disk_options_early_defaults_cmd else disk_options_defaults_cmd)
                  tmp_ctx dep st
            end
          else Ok (dep, st));
        '(_, st) ← schedule_if (adj_resize vol) resize_cmd tmp_ctx dep st;
        adjust_disk ctx running vols' dep st
  end.
End Volumes.

(** ** Options that were set are not found to differ *)

(** The configured options, and the running options as they are parsed from
    what was shown. *)
Definition configured (opts : list (field_def * string)) : options :=
  (fun x => mk_d_option (fd_name x.1) (Some x.2) false false false) <$> opts.

Definition parsed (x : field_def * shown_option) : d_option :=
  match x.2 with
  | Shown str _ => mk_d_option (fd_name x.1) str false false false
  | Unknown => mk_d_option (fd_name x.1) None false true false
  end.

Lemma in_del_opt base name o : o ∈ (del_opt base name).1 -> o ∈ base.
Proof.
  induction base as [|o' base IH]; [done|]. cbn [del_opt]. destruct (String.eqb _ _); [by right|].
  destruct (del_opt base name) as [l r]. cbn [fst] in *. intros [->|Hin]%elem_of_cons; [by left|right; auto].
Qed.

Lemma in_del_opt_ne base name o : o_name o <> name -> o ∈ base -> o ∈ (del_opt base name).1.
Proof.
  intros Hne. induction base as [|o' base IH]; [done|]. cbn [del_opt].
  destruct (String.eqb_spec (o_name o') name) as [Heq|_].
  - intros [->|Hin]%elem_of_cons; [done|exact Hin].
  - destruct (del_opt base name) as [l r]. cbn [fst] in *. intros [->|Hin]%elem_of_cons; [by left|right; auto].
Qed.

Lemma del_opt_names base name : NoDup (o_name <$> base) -> NoDup (o_name <$> (del_opt base name).1).
Proof.
  induction base as [|o base IH]; [done|]. cbn [del_opt]. intros [Ho Hnd]%list.NoDup_cons.
  destruct (String.eqb _ _); [done|]. destruct (del_opt base name) as [l r] eqn:Hd. cbn [fst] in *.
  constructor; [|by apply IH]. intros (o' & Hn & Hin)%list_elem_of_fmap. apply Ho.
  rewrite Hn. apply list_elem_of_fmap_2, (in_del_opt base name). by rewrite Hd.
Qed.

(** A name that is deleted is gone. *)
Lemma del_opt_gone base name o :
  NoDup (o_name <$> base) -> o ∈ (del_opt base name).1 -> o_name o <> name.
Proof.
  induction base as [|o' base IH]; [by intros _ ?%elem_of_nil|]. cbn [del_opt]. intros [Ho Hnd]%list.NoDup_cons.
  destruct (String.eqb_spec (o_name o') name) as [Heq|Hne].
  - cbn [fst]. intros Hin Hn. apply Ho. rewrite Heq, <- Hn. by apply list_elem_of_fmap_2.
  - destruct (del_opt base name) as [l r]. cbn [fst] in *. intros [->|Hin]%elem_of_cons; [done|by apply IH].
Qed.

Lemma update_opt_names f base name :
  (forall o, o_name (f o) = o_name o) -> o_name <$> update_opt f base name = o_name <$> base.
Proof.
  intros Hf. induction base as [|o base IH]; [done|]. cbn [update_opt].
  destruct (String.eqb _ _); cbn; [by rewrite Hf|by rewrite IH].
Qed.

(** An option of the updated list is an old one, or the updated one. *)
Lemma in_update_opt f base name o :
  NoDup (o_name <$> base) -> o ∈ update_opt f base name ->
  (o ∈ base /\ o_name o <> name) \/ (exists o', o' ∈ base /\ o_name o' = name /\ o = f o').
Proof.
  induction base as [|o' base IH]; [by intros _ ?%elem_of_nil|]. cbn [update_opt].
  intros [Ho Hnd]%list.NoDup_cons. destruct (String.eqb_spec (o_name o') name) as [Heq|Hne].
  - intros [->|Hin]%elem_of_cons; [right; exists o'; split_and!; [by left|done|done]|].
    left. split; [by right|]. intros Hn. apply Ho. rewrite Heq, <- Hn. by apply list_elem_of_fmap_2.
  - intros [->|Hin]%elem_of_cons; [left; split; [by left|done]|].
    destruct (IH Hnd Hin) as [[? ?]|(o2 & ? & ? & ?)]; [left; split; [by right|done]|].
    right. exists o2. split_and!; [by right|done|done].
Qed.

Section Settled.
Context (ctx : context_def) (opts : list (field_def * string)) (show_defaults : bool).
Hypothesis Hnames : NoDup (fd_name <$> ctx_fields ctx).
Hypothesis Hopts : NoDup opts.*1.
Hypothesis Hfields : Forall (fun x => x.1 ∈ ctx_fields ctx) opts.

Lemma field_name_inj f g : f ∈ ctx_fields ctx -> g ∈ ctx_fields ctx -> fd_name f = fd_name g -> f = g.
Proof using Hnames.
  intros [i Hi]%list_elem_of_lookup_1 [j Hj]%list_elem_of_lookup_1 Hn.
  assert (i = j) as ->; [|by simplify_eq].
  eapply NoDup_lookup; [exact Hnames|by rewrite list_lookup_fmap, Hi|by rewrite list_lookup_fmap, Hj; cbn; rewrite Hn].
Qed.

Lemma field_def_of_name f : f ∈ ctx_fields ctx -> field_def_of (fd_name f) ctx = Ok f.
Proof using Hnames.
  intros Hf. unfold field_def_of. destruct (List.find _ _) as [g|] eqn:Hg.
  - apply find_some in Hg as [Hin Hn%String.eqb_eq]. apply list_elem_of_In in Hin.
    by rewrite (field_name_inj g f).
  - eapply find_none in Hg; [|by apply list_elem_of_In]. by rewrite String.eqb_refl in Hg.
Qed.

Lemma option_value_unique f v w : (f, v) ∈ opts -> (f, w) ∈ opts -> v = w.
Proof using Hopts.
  intros [i Hi]%list_elem_of_lookup_1 [j Hj]%list_elem_of_lookup_1.
  assert (i = j) as ->; [|by simplify_eq].
  eapply NoDup_lookup; [exact Hopts|by rewrite list_lookup_fmap, Hi|by rewrite list_lookup_fmap, Hj].
Qed.

Lemma option_field f v : (f, v) ∈ opts -> f ∈ ctx_fields ctx.
Proof using Hfields. intros Hin. rewrite Forall_forall in Hfields. apply (Hfields (f, v) Hin). Qed.

(** The configured options while the fields [rem] have not been met. *)
Record halfway (rem : list field_def) (conf : options) : Prop := {
  half_names : NoDup (o_name <$> conf);
  half_in o : o ∈ conf -> exists f v, (f, v) ∈ opts /\ o_name o = fd_name f /\ o_value o = Some v /\
    o_adj_skip o = false /\
    (o_mentioned o = true \/ f ∈ rem \/ fc_is_default (ops f) f (Some v) = Ok true);
  half_left f v : (f, v) ∈ opts -> f ∈ rem -> exists o, o ∈ conf /\ o_name o = fd_name f
}.

Lemma configured_halfway : halfway (ctx_fields ctx) (configured opts).
Proof using Hnames Hopts Hfields.
  split.
  - assert (o_name <$> configured opts = fd_name <$> opts.*1) as ->
      by (unfold configured; by rewrite <- !list_fmap_compose).
    apply NoDup_fmap_2_strong; [|exact Hopts].
    intros f g ([f' v] & -> & Hf)%list_elem_of_fmap ([g' w] & -> & Hg)%list_elem_of_fmap.
    apply field_name_inj; by eapply option_field.
  - intros o ([f v] & -> & Hin)%list_elem_of_fmap. exists f, v. split_and!; [done..|].
    right. left. by eapply option_field.
  - intros f v Hin _. exists (mk_d_option (fd_name f) (Some v) false false false). split; [|done].
    by apply (list_elem_of_fmap_2' _ _ (f, v)).
Qed.

(** The next field is one the kernel does not know. *)
Lemma halfway_unknown f rem conf :
  f ∈ ctx_fields ctx -> f ∉ rem -> halfway (f :: rem) conf -> halfway rem (del_opt conf (fd_name f)).1.
Proof using Hnames Hfields.
  intros Hf Hnot [Hn Hin Hl]. split.
  - by apply del_opt_names.
  - intros o Ho. pose proof (del_opt_gone _ _ _ Hn Ho) as Hne.
    destruct (Hin o (in_del_opt _ _ _ Ho)) as (g & v & Hg & Hname & Hv & Hs & Hcase). exists g, v.
    split_and!; [done..|]. destruct Hcase as [?|[[->|?]%elem_of_cons|?]]; auto; congruence.
  - intros g v Hg Hrem. destruct (Hl g v Hg ltac:(by right)) as (o & Ho & Hname).
    exists o. split; [|done]. apply in_del_opt_ne; [|done]. rewrite Hname. intros Heq. apply Hnot.
    by rewrite <- (field_name_inj g f) by (done || by eapply option_field).
Qed.

(** It was set, and its value is found to be equal. *)
Lemma halfway_equal f rem conf :
  f ∈ ctx_fields ctx -> f ∉ rem -> halfway (f :: rem) conf ->
  halfway rem (update_opt (fun o => o <| o_mentioned := true |>) conf (fd_name f)).
Proof using Hnames Hfields.
  intros Hf Hnot [Hn Hin Hl]. split.
  - by rewrite update_opt_names.
  - intros o Ho. destruct (in_update_opt _ _ _ _ Hn Ho) as [[Ho' Hne]|(o' & Ho' & Hname & ->)].
    + destruct (Hin o Ho') as (g & v & Hg & Hname & Hv & Hs & Hcase). exists g, v. split_and!; [done..|].
      destruct Hcase as [?|[[->|?]%elem_of_cons|?]]; auto; congruence.
    + destruct (Hin o' Ho') as (g & v & Hg & Hname' & Hv & Hs & _). exists g, v. split_and!; [done..|]. by left.
  - intros g v Hg Hrem. destruct (Hl g v Hg ltac:(by right)) as (o & Ho & Hname).
    assert (fd_name g ∈ o_name <$> update_opt (fun o => o <| o_mentioned := true |>) conf (fd_name f)) as Hx.
    { rewrite update_opt_names by done. rewrite <- Hname. by apply list_elem_of_fmap_2. }
    apply list_elem_of_fmap in Hx as (o2 & Hname2 & Ho2). by exists o2.
Qed.

(** It was set to its default, which is not shown. *)
Lemma halfway_default f v rem conf :
  (f, v) ∈ opts -> fc_is_default (ops f) f (Some v) = Ok true -> halfway (f :: rem) conf -> halfway rem conf.
Proof using Hopts.
  intros Hv Hd [Hn Hin Hl]. split; [done| |intros g w Hg Hrem; apply (Hl g w Hg); by right].
  intros o Ho. destruct (Hin o Ho) as (g & w & Hg & Hname & Hw & Hs & Hcase). exists g, w. split_and!; [done..|].
  destruct Hcase as [?|[[->|?]%elem_of_cons|?]]; auto.
  right. right. by rewrite (option_value_unique f w v).
Qed.

Lemma compare_running_described rem os conf :
  NoDup rem -> Forall (fun f => f ∈ ctx_fields ctx) rem -> Forall2 (described ctx show_defaults opts) rem os ->
  halfway rem conf ->
  exists conf', compare_running ctx conf
      (parsed <$> omap (fun x => (fun o => (x.1, o)) <$> x.2) (zip rem os)) = Ok (true, conf') /\
    halfway [] conf'.
Proof using Hnames Hopts Hfields.
  intros Hnd Hrem Hos. revert conf Hnd Hrem. induction Hos as [|f o rem os Ho _ IH]; intros conf Hnd Hrem Hhalf.
  { by exists conf. }
  apply list.NoDup_cons in Hnd as [Hnot Hnd]. apply Forall_cons in Hrem as [Hf Hrem].
  destruct Ho as [(v & s & b & Hv & _ & (Heq & Heq' & b' & Hb1 & Hb2) & Hb & ->)|[_ ->]].
  - unfold ops in Hb. rewrite Hb1 in Hb. injection Hb as ->.
    destruct (negb b || show_defaults) eqn:Hshow; cbn [zip zip_with omap list_omap fmap option_fmap option_map list_fmap fst snd].
    + destruct (half_left _ _ Hhalf f v Hv ltac:(by left)) as (o & Ho & Hname).
      cbn [compare_running parsed fst snd o_unknown o_adj_skip o_name].
      rewrite <- Hname, (find_opt_elem conf o (half_names _ _ Hhalf) Ho), Hname.
      destruct (half_in _ _ Hhalf o Ho) as (g & w & Hg & Hgname & Hw & _).
      assert (g = f) as -> by (apply field_name_inj; [by eapply option_field|done|congruence]).
      rewrite (option_value_unique f w v Hg Hv) in Hw.
      unfold is_equal. cbn [o_name o_value]. rewrite (field_def_of_name f Hf). cbn [mbind res_bind].
      unfold ops. rewrite Hw, Heq'. cbn [mbind res_bind].
      apply IH; [done|done|by apply halfway_equal].
    + apply orb_false_iff in Hshow as [->%negb_false_iff _].
      apply IH; [done|done|by eapply halfway_default].
  - cbn [zip zip_with omap list_omap fmap option_fmap option_map list_fmap fst snd compare_running parsed o_unknown o_name].
    apply IH; [done|done|by apply halfway_unknown].
Qed.

Lemma compare_configured_halfway conf : halfway [] conf -> compare_configured ctx conf = Ok true.
Proof using Hnames Hfields.
  intros [_ Hin _]. assert (forall o, o ∈ conf -> exists f v, (f, v) ∈ opts /\ o_name o = fd_name f /\
    o_value o = Some v /\ (o_mentioned o = true \/ fc_is_default (ops f) f (Some v) = Ok true)) as H.
  { intros o Ho. destruct (Hin o Ho) as (f & v & ? & ? & ? & _ & [?|[?%elem_of_nil|?]]); [..|done|]; exists f, v; auto. }
  clear Hin. induction conf as [|o conf IH]; [done|]. cbn [compare_configured].
  destruct (H o ltac:(by left)) as (f & v & Hf & Hname & Hv & Hcase).
  specialize (IH (fun o Ho => H o (list_elem_of_further _ _ _ Ho))).
  destruct (o_adj_skip o || o_mentioned o) eqn:Hskip; [exact IH|].
  destruct Hcase as [Hm|Hd]; [rewrite Hm, orb_true_r in Hskip; done|].
  unfold is_default. rewrite Hname, (field_def_of_name f) by by eapply option_field.
  cbn [mbind res_bind]. by rewrite Hv, Hd.
Qed.

Lemma shown_options_equal os :
  Forall2 (described ctx show_defaults opts) (ctx_fields ctx) os ->
  exists conf', opts_equal ctx (configured opts)
      (parsed <$> omap (fun x => (fun o => (x.1, o)) <$> x.2) (zip (ctx_fields ctx) os)) = Ok (true, conf').
Proof using Hnames Hopts Hfields.
  intros Hos. destruct (compare_running_described (ctx_fields ctx) os (configured opts)) as (conf' & Hrun & Hhalf).
  - by eapply NoDup_fmap_1.
  - by apply Forall_forall.
  - done.
  - apply configured_halfway.
  - exists conf'. unfold opts_equal. rewrite Hrun. cbn [mbind res_bind].
    by rewrite compare_configured_halfway.
Qed.

(** C26: Adjusting settles: when options have been set, and "show" describes
    them the way the tools print what the kernel reports (as
    [options_roundtrip] states), then adjust, comparing the same options of the
    configuration with what was shown, finds no difference - although defaults
    may be missing from the output, values are compared in the way of their
    class, and options the kernel does not know are dropped. *)
Theorem settings_are_settled os :
  Forall2 (described ctx show_defaults opts) (ctx_fields ctx) os ->
  exists conf', opts_equal ctx (configured opts)
      (parsed <$> omap (fun x => (fun o => (x.1, o)) <$> x.2) (zip (ctx_fields ctx) os)) = Ok (true, conf').
Proof using Hnames Hopts Hfields. apply shown_options_equal. Qed.
End Settled.

(** ** Merging the volumes *)

Definition by_vnr (a b : d_volume) : Prop := vnr a < vnr b.

Lemma by_vnr_head a l : StronglySorted by_vnr (a :: l) -> forall b, b ∈ l -> vnr a < vnr b.
Proof. intros [_ Hl]%StronglySorted_inv b Hb. rewrite List.Forall_forall in Hl. apply Hl. by apply list_elem_of_In. Qed.

Lemma by_vnr_cons a l :
  StronglySorted by_vnr l -> (forall b, b ∈ l -> vnr a < vnr b) -> StronglySorted by_vnr (a :: l).
Proof. intros Hs Ha. constructor; [done|]. apply List.Forall_forall. intros b Hb. apply Ha. by apply list_elem_of_In. Qed.

Lemma insert_before_greater_sorted l e t :
  StronglySorted by_vnr l -> (forall v, v ∈ l -> vnr v <> vnr e) -> t ∈ l -> vnr e < vnr t ->
  StronglySorted by_vnr (insert_before_greater l e) /\ insert_before_greater l e ≡ₚ e :: l.
Proof.
  induction l as [|a l IH]; [by intros _ _ ?%elem_of_nil|]. intros Hs Hne Ht Hlt. cbn [insert_before_greater].
  pose proof (by_vnr_head _ _ Hs) as Ha. destruct (Z.ltb_spec (vnr e) (vnr a)).
  - split; [|done]. apply by_vnr_cons; [done|]. intros b [->|Hb%Ha]%elem_of_cons; lia.
  - assert (vnr a <> vnr e) by (apply Hne; by left). apply elem_of_cons in Ht as [->|Ht]; [lia|].
    apply StronglySorted_inv in Hs as [Hs _].
    destruct IH as [IHs IHp]; [done|intros v Hv; apply Hne; by right|done|done|]. split.
    + apply by_vnr_cons; [done|]. intros b Hb. rewrite IHp in Hb. apply elem_of_cons in Hb as [->|Hb]; [lia|auto].
    + rewrite IHp. apply Permutation_swap.
Qed.

Lemma by_vnr_last a l t :
  StronglySorted by_vnr (a :: l) -> list.last (a :: l) = Some t -> forall b, b ∈ a :: l -> vnr b <= vnr t.
Proof.
  revert a. induction l as [|a' l IH]; intros a Hs; cbn [list.last].
  - intros [= <-] b ->%list_elem_of_singleton. lia.
  - intros Hl b Hb. pose proof (by_vnr_head _ _ Hs) as Ha. apply StronglySorted_inv in Hs as [Hs _].
    apply elem_of_cons in Hb as [->|Hb]; [|by eapply IH].
    pose proof (IH a' Hs Hl a' ltac:(by left)). specialize (Ha a' ltac:(by left)). lia.
Qed.

(** Inserting a volume with a new number keeps the order. *)
Lemma insert_volume_sorted l e :
  StronglySorted by_vnr l -> (forall v, v ∈ l -> vnr v <> vnr e) ->
  StronglySorted by_vnr (insert_volume l e) /\ insert_volume l e ≡ₚ e :: l.
Proof.
  intros Hs Hne. unfold insert_volume. destruct (list.last l) as [t|] eqn:Hl.
  - pose proof (last_Some_elem_of _ _ Hl) as Ht. destruct (Z.leb_spec (vnr t) (vnr e)).
    + split; [|by rewrite Permutation_app_comm]. destruct l as [|a l]; [done|].
      pose proof (by_vnr_last _ _ _ Hs Hl) as Hle. assert (vnr t <> vnr e) by by apply Hne.
      assert (forall b, b ∈ a :: l -> vnr b < vnr e) as Hlt by (intros b Hb%Hle; lia).
      clear Hle Hl Ht Hne. revert Hs Hlt. generalize (a :: l). clear. intros l.
      induction l as [|b l IH]; intros Hs Hlt; [by repeat constructor|]. cbn [app].
      pose proof (by_vnr_head _ _ Hs) as Hb. apply StronglySorted_inv in Hs as [Hs _]. apply by_vnr_cons.
      * apply IH; [done|]. intros x Hx. apply Hlt. by right.
      * intros x [Hx|Hx]%elem_of_app; [auto|]. apply list_elem_of_singleton in Hx as ->. apply Hlt. by left.
    + by apply (insert_before_greater_sorted l e t).
  - apply last_None in Hl as ->. split; [by repeat constructor|done].
Qed.

Lemma insert_volumes_sorted es l :
  StronglySorted by_vnr l -> StronglySorted by_vnr es ->
  (forall v e, v ∈ l -> e ∈ es -> vnr v <> vnr e) ->
  StronglySorted by_vnr (fold_left insert_volume es l) /\ fold_left insert_volume es l ≡ₚ l ++ es.
Proof.
  revert l. induction es as [|e es IH]; intros l Hl Hes Hne; cbn [fold_left]; [by rewrite app_nil_r|].
  destruct (insert_volume_sorted l e Hl) as [Hs Hp]; [intros v Hv; apply Hne; [done|by left]|].
  pose proof (by_vnr_head _ _ Hes) as He. apply StronglySorted_inv in Hes as [Hes _].
  destruct (IH (insert_volume l e) Hs Hes) as [Hs2 Hp2].
  - intros v x Hv Hx. rewrite Hp in Hv. apply elem_of_cons in Hv as [->|Hv].
    + specialize (He x Hx). lia.
    + apply Hne; [done|by right].
  - split; [done|]. rewrite Hp2, Hp. apply Permutation_middle.
Qed.

Section Merge.
Context (attach_cmd_ctx disk_options_ctx : context_def).
Notation compare_volume := (compare_volume attach_cmd_ctx disk_options_ctx).

(** A volume that stays, and one that is to be deleted. *)
Definition kept (confs kerns : list d_volume) (v : d_volume) : Prop :=
  (exists c k k', c ∈ confs /\ k ∈ kerns /\ vnr c = vnr k /\ compare_volume c k = Ok (v, k')) \/
  (exists c, c ∈ confs /\ (forall k, k ∈ kerns -> vnr k <> vnr c) /\ v = new_volume c).

Definition dropped (confs kerns : list d_volume) (v : d_volume) : Prop :=
  exists k, k ∈ kerns /\ (forall c, c ∈ confs -> vnr c <> vnr k) /\ new_to_be_deleted_minor_from_template k = Ok v.

Lemma vnr_new_volume c : vnr (new_volume c) = vnr c.
Proof. done. Qed.

Lemma vnr_template k v : new_to_be_deleted_minor_from_template k = Ok v -> vnr v = vnr k.
Proof.
  unfold new_to_be_deleted_minor_from_template. destruct (has_disk _); [|by intros [= <-]].
  destruct (meta_disk k), (meta_index k); [by intros [= <-]|done..].
Qed.

Lemma vnr_compare_size c k c' k' : compare_size attach_cmd_ctx c k = Ok (c', k') -> vnr c' = vnr c.
Proof using.
  unfold compare_size.
  destruct (match find_opt (disk_options k) "size" with Some _ => _ | None => _ end) as [def| | |];
    cbn [mbind res_bind]; try done.
  destruct (Bool.eqb _ _), (if def then None else find_opt (disk_options k) "size") as [k0|],
    (find_opt (disk_options c) "size") as [c0|]; try (by intros [= <- _]);
    destruct (is_equal attach_cmd_ctx c0 k0) as [[|]| | |]; cbn [mbind res_bind]; by intros [= <- _] || done.
Qed.

Lemma vnr_compare_volume c k c' k' : compare_volume c k = Ok (c', k') -> vnr c' = vnr c.
Proof using.
  unfold Adjust.compare_volume. destruct (disk_equal _ _) as [same| | |]; cbn [mbind res_bind]; try done.
  set (c1 := if negb same || _ then _ else _). assert (vnr c1 = vnr c) as <- by (subst c1; by destruct (_ || _)).
  destruct (if _ : bool then compare_size _ c1 k else _) as [[c2 k2]| | |] eqn:Hsize; cbn [mbind res_bind]; try done.
  assert (vnr c2 = vnr c1) as <-.
  { destruct (negb _ && _ && _); [by eapply vnr_compare_size|by injection Hsize as <- _]. }
  destruct (negb (adj_detach c2 || adj_attach c2) && bool_decide (is_Some (disk c2))); [|by intros [= <- _]].
  destruct (opts_equal _ _ _) as [[eq opts]| | |]; cbn [mbind res_bind]; [by intros [= <- _]|done..].
Qed.

Lemma kept_vnr confs kerns v : kept confs kerns v -> exists c, c ∈ confs /\ vnr v = vnr c.
Proof using.
  intros [(c & k & k' & Hc & _ & _ & Hv)|(c & Hc & _ & ->)]; exists c; split; [done| |done|done].
  by eapply vnr_compare_volume.
Qed.

Lemma dropped_vnr confs kerns v : dropped confs kerns v -> exists k, k ∈ kerns /\ vnr v = vnr k.
Proof using. intros (k & Hk & _ & Hv). exists k. split; [done|by apply vnr_template]. Qed.

(** How the steps of the loop change what is kept and dropped. *)
Lemma step_kern confs k kerns v :
  (forall c, c ∈ confs -> vnr c <> vnr k) ->
  (kept confs (k :: kerns) v <-> kept confs kerns v) /\
  (dropped confs (k :: kerns) v <-> new_to_be_deleted_minor_from_template k = Ok v \/ dropped confs kerns v).
Proof using.
  intros Hne. unfold kept, dropped. setoid_rewrite elem_of_cons. split; split.
  - intros [(c & k0 & k' & Hc & [->|Hk] & Hv & Hcmp)|(c & Hc & Hall & ->)].
    + by destruct (Hne c Hc).
    + left. by exists c, k0, k'.
    + right. exists c. auto.
  - intros [(c & k0 & k' & Hc & Hk & Hv & Hcmp)|(c & Hc & Hall & ->)].
    + left. exists c, k0, k'. auto.
    + right. exists c. split_and!; [done| |done]. intros k0 [->|Hk0]; [|auto]. specialize (Hne c Hc). congruence.
  - intros (k0 & [->|Hk] & Hall & Ht); [by left|right; by exists k0].
  - intros [Ht|(k0 & Hk & Hall & Ht)]; [exists k; auto|exists k0; auto].
Qed.

Lemma step_conf c confs kerns v :
  (forall k, k ∈ kerns -> vnr k <> vnr c) ->
  (kept (c :: confs) kerns v <-> v = new_volume c \/ kept confs kerns v) /\
  (dropped (c :: confs) kerns v <-> dropped confs kerns v).
Proof using.
  intros Hne. unfold kept, dropped. setoid_rewrite elem_of_cons. split; split.
  - intros [(c0 & k & k' & [->|Hc] & Hk & Hv & Hcmp)|(c0 & [->|Hc] & Hall & ->)].
    + by destruct (Hne k Hk).
    + right. left. by exists c0, k, k'.
    + by left.
    + right. right. by exists c0.
  - intros [->|[(c0 & k & k' & Hc & Hk & Hv & Hcmp)|(c0 & Hc & Hall & ->)]].
    + right. exists c. auto.
    + left. exists c0, k, k'. auto.
    + right. exists c0. auto.
  - intros (k & Hk & Hall & Ht). exists k. auto.
  - intros (k & Hk & Hall & Ht). exists k. split_and!; [done| |done].
    intros c0 [->|Hc]; [|auto]. specialize (Hne k Hk). congruence.
Qed.

Lemma step_both c confs k kerns v :
  vnr c = vnr k -> (forall k0, k0 ∈ kerns -> vnr k0 <> vnr c) -> (forall c0, c0 ∈ confs -> vnr c0 <> vnr k) ->
  (kept (c :: confs) (k :: kerns) v <-> (exists k', compare_volume c k = Ok (v, k')) \/ kept confs kerns v) /\
  (dropped (c :: confs) (k :: kerns) v <-> dropped confs kerns v).
Proof using.
  intros Heq Hnk Hnc. unfold kept, dropped. setoid_rewrite elem_of_cons. split; split.
  - intros [(c0 & k0 & k' & [->|Hc] & [->|Hk] & Hv & Hcmp)|(c0 & [->|Hc] & Hall & ->)].
    + left. by exists k'.
    + by destruct (Hnk k0 Hk).
    + by destruct (Hnc c0 Hc).
    + right. left. by exists c0, k0, k'.
    + exfalso. by apply (Hall k); [left|].
    + right. right. exists c0. auto.
  - intros [[k' Hcmp]|[(c0 & k0 & k' & Hc & Hk & Hv & Hcmp)|(c0 & Hc & Hall & ->)]].
    + left. exists c, k, k'. auto.
    + left. exists c0, k0, k'. auto.
    + right. exists c0. split_and!; [auto| |done]. intros k0 [->|Hk]; [|auto].
      intros Hx. by apply (Hnc c0 Hc).
  - intros (k0 & [->|Hk] & Hall & Ht); [exfalso; by apply (Hall c); [left|]|]. exists k0. auto.
  - intros (k0 & Hk & Hall & Ht). exists k0. split_and!; [auto| |done].
    intros c0 [->|Hc]; [|auto]. intros Hx. by apply (Hnk k0 Hk).
Qed.

Definition comparable (confs kerns : list d_volume) : Prop :=
  (forall c k, c ∈ confs -> k ∈ kerns -> vnr c = vnr k -> exists x, compare_volume c k = Ok x) /\
  (forall k, k ∈ kerns -> exists v, new_to_be_deleted_minor_from_template k = Ok v).

Notation compare_loop := (compare_loop attach_cmd_ctx disk_options_ctx).

(** What the loop computes: the volumes that are kept, the order of which is
    that of the configuration, and those that are to be deleted. *)
Definition loop_result (confs kerns deleted : list d_volume)
    (r : res (list d_volume * list d_volume * list d_volume)) : Prop :=
  exists cs ks ds, r = Ok (cs, ks, fold_left insert_volume ds deleted) /\
    StronglySorted by_vnr cs /\ StronglySorted by_vnr ds /\
    (forall v, v ∈ cs <-> kept confs kerns v) /\ (forall v, v ∈ ds <-> dropped confs kerns v).

Lemma loop_kern confs k kerns deleted v cs :
  StronglySorted by_vnr (k :: kerns) -> (forall c, c ∈ confs -> vnr c <> vnr k) ->
  new_to_be_deleted_minor_from_template k = Ok v ->
  loop_result confs kerns (insert_volume deleted v) cs ->
  loop_result confs (k :: kerns) deleted ('(cs, ks, deleted) ← cs; Ok (cs, k :: ks, deleted)).
Proof using.
  intros Hs Hne Hv (cs' & ks & ds & -> & Hcs & Hds & Hkept & Hdrop). cbn [mbind res_bind].
  exists cs', (k :: ks), (v :: ds). split_and!; [done|done| | |].
  - apply by_vnr_cons; [done|]. intros b Hb%Hdrop. destruct (dropped_vnr _ _ _ Hb) as (k0 & Hk0 & ->).
    rewrite (vnr_template _ _ Hv). by apply (by_vnr_head _ _ Hs).
  - intros x. rewrite Hkept. symmetry. by apply step_kern.
  - intros x. rewrite elem_of_cons, Hdrop, (proj2 (step_kern confs k kerns x Hne)), Hv. naive_solver.
Qed.

Lemma loop_conf c confs kerns deleted cs :
  StronglySorted by_vnr (c :: confs) -> (forall k, k ∈ kerns -> vnr k <> vnr c) ->
  loop_result confs kerns deleted cs ->
  loop_result (c :: confs) kerns deleted ('(cs, ks, deleted) ← cs; Ok (new_volume c :: cs, ks, deleted)).
Proof using.
  intros Hs Hne (cs' & ks & ds & -> & Hcs & Hds & Hkept & Hdrop). cbn [mbind res_bind].
  exists (new_volume c :: cs'), ks, ds. split_and!; [done| |done| |].
  - apply by_vnr_cons; [done|]. intros b Hb%Hkept. destruct (kept_vnr _ _ _ Hb) as (c0 & Hc0 & ->).
    by apply (by_vnr_head _ _ Hs).
  - intros x. rewrite elem_of_cons, Hkept. symmetry. by apply step_conf.
  - intros x. rewrite Hdrop. symmetry. by apply step_conf.
Qed.

Lemma loop_both c k confs kerns deleted c' k' cs :
  StronglySorted by_vnr (c :: confs) -> StronglySorted by_vnr (k :: kerns) -> vnr c = vnr k ->
  compare_volume c k = Ok (c', k') -> loop_result confs kerns deleted cs ->
  loop_result (c :: confs) (k :: kerns) deleted ('(cs, ks, deleted) ← cs; Ok (c' :: cs, k' :: ks, deleted)).
Proof using.
  intros Hsc Hsk Heq Hcmp (cs' & ks & ds & -> & Hcs & Hds & Hkept & Hdrop). cbn [mbind res_bind].
  assert (forall k0, k0 ∈ kerns -> vnr k0 <> vnr c) as Hnk.
  { intros k0 Hk0. pose proof (by_vnr_head _ _ Hsk k0 Hk0). lia. }
  assert (forall c0, c0 ∈ confs -> vnr c0 <> vnr k) as Hnc.
  { intros c0 Hc0. pose proof (by_vnr_head _ _ Hsc c0 Hc0). lia. }
  exists (c' :: cs'), (k' :: ks), ds. split_and!; [done| |done| |].
  - apply by_vnr_cons; [done|]. intros b Hb%Hkept. destruct (kept_vnr _ _ _ Hb) as (c0 & Hc0 & ->).
    rewrite (vnr_compare_volume _ _ _ _ Hcmp). by apply (by_vnr_head _ _ Hsc).
  - intros x. rewrite elem_of_cons, Hkept, (proj1 (step_both c confs k kerns x Heq Hnk Hnc)), Hcmp. naive_solver.
  - intros x. rewrite Hdrop. symmetry. by apply step_both.
Qed.

Lemma compare_loop_spec confs kerns deleted :
  StronglySorted by_vnr confs -> StronglySorted by_vnr kerns -> comparable confs kerns ->
  loop_result confs kerns deleted (compare_loop confs kerns deleted).
Proof using.
  revert kerns deleted. induction confs as [|c confs IHc]; intros kerns; induction kerns as [|k kerns IHk];
    intros deleted Hsc Hsk [Hcmp Htmp].
  - exists [], [], []. split_and!; [done|constructor|constructor|..]; intros v; rewrite elem_of_nil; split; try done.
    + intros [(c & _ & _ & ?%elem_of_nil & _)|(c & ?%elem_of_nil & _)]; done.
    + intros (k & ?%elem_of_nil & _); done.
  - destruct (Htmp k ltac:(by left)) as [v Hv].
    change (Adjust.compare_loop attach_cmd_ctx disk_options_ctx [] (k :: kerns) deleted) with
      (v ← new_to_be_deleted_minor_from_template k;
       '(cs, ks, deleted) ← compare_loop [] kerns (insert_volume deleted v); Ok (cs, k :: ks, deleted)).
    rewrite Hv. cbn [mbind res_bind]. apply (loop_kern _ _ _ _ v); [done|by intros c ?%elem_of_nil|done|].
    apply IHk; [done|by apply StronglySorted_inv in Hsk as [? _]|]. split; [|intros k0 Hk0; apply Htmp; by right].
    by intros c k0 ?%elem_of_nil.
  - change (Adjust.compare_loop attach_cmd_ctx disk_options_ctx (c :: confs) [] deleted) with
      ('(cs, ks, deleted) ← compare_loop confs [] deleted; Ok (new_volume c :: cs, ks, deleted)).
    apply loop_conf; [done|by intros k ?%elem_of_nil|].
    apply IHc; [by apply StronglySorted_inv in Hsc as [? _]|done|]. split; [|done]. by intros c0 k0 _ ?%elem_of_nil.
  - change (Adjust.compare_loop attach_cmd_ctx disk_options_ctx (c :: confs) (k :: kerns) deleted) with
      (if vnr k <? vnr c then
         v ← new_to_be_deleted_minor_from_template k;
         '(cs, ks, deleted) ← compare_loop (c :: confs) kerns (insert_volume deleted v);
         Ok (cs, k :: ks, deleted)
       else if vnr c <? vnr k then
         '(cs, ks, deleted) ← compare_loop confs (k :: kerns) deleted;
         Ok (new_volume c :: cs, ks, deleted)
       else
         '(conf, kern) ← compare_volume c k;
         '(cs, ks, deleted) ← compare_loop confs kerns deleted;
         Ok (conf :: cs, kern :: ks, deleted)).
    pose proof (by_vnr_head _ _ Hsc) as Hc. pose proof (by_vnr_head _ _ Hsk) as Hk.
    pose proof (StronglySorted_inv Hsc) as [Hsc' _]. pose proof (StronglySorted_inv Hsk) as [Hsk' _].
    destruct (Z.ltb_spec (vnr k) (vnr c)); [|destruct (Z.ltb_spec (vnr c) (vnr k))].
    + destruct (Htmp k ltac:(by left)) as [v Hv]. rewrite Hv. cbn [mbind res_bind].
      apply (loop_kern _ _ _ _ v); [done| |done|].
      { intros c0 [->|Hc0%Hc]%elem_of_cons; lia. }
      apply IHk; [done|done|]. split; [intros c0 k0 ? ?; apply Hcmp; [done|by right]|intros k0 ?; apply Htmp; by right].
    + apply loop_conf; [done|intros k0 [->|Hk0%Hk]%elem_of_cons; lia|].
      apply IHc; [done|done|]. split; [intros c0 k0 ? ?; apply Hcmp; [by right|done]|done].
    + assert (vnr c = vnr k) as Heq by lia. destruct (Hcmp c k) as [[c' k'] Hx]; [by left|by left|done|].
      rewrite Hx. cbn [mbind res_bind]. apply loop_both; [done..|].
      apply IHc; [done|done|]. split; [intros c0 k0 ? ?; apply Hcmp; by right|intros k0 ?; apply Htmp; by right].
Qed.

(** C28: Comparing the volumes: for a configuration and a running resource whose
    volumes are ordered by number, [compare_volumes] ends without failing an
    assertion, and yields, again in strict order, exactly one volume for every
    number on either side: the configured one with the flags of the comparison
    if both sides have it, the configured one as a new one if it is not
    running, and a volume made up to be deleted if it is not configured. *)
Theorem compare_volumes_merges confs kerns :
  StronglySorted by_vnr confs -> StronglySorted by_vnr kerns -> comparable confs kerns ->
  exists l ks, compare_volumes attach_cmd_ctx disk_options_ctx confs kerns = Ok (l, ks) /\
    StronglySorted by_vnr l /\
    (forall v, v ∈ l <-> kept confs kerns v \/ dropped confs kerns v).
Proof using.
  intros Hsc Hsk Hcomp.
  destruct (compare_loop_spec confs kerns [] Hsc Hsk Hcomp) as (cs & ks & ds & Hrun & Hcs & Hds & Hkept & Hdrop).
  unfold compare_volumes. rewrite Hrun. cbn [mbind res_bind].
  destruct (insert_volumes_sorted ds [] ltac:(constructor) Hds) as [Hs1 Hp1]; [by intros v e ?%elem_of_nil|].
  rewrite app_nil_l in Hp1. destruct (insert_volumes_sorted (fold_left insert_volume ds []) cs Hcs Hs1) as [Hs2 Hp2].
  { intros v e Hv He. rewrite Hp1 in He. apply Hkept in Hv. apply Hdrop in He.
    destruct (kept_vnr _ _ _ Hv) as (c & Hc & ->). destruct He as (k & Hk & Hne & Ht).
    rewrite (vnr_template _ _ Ht). by apply Hne. }
  do 2 eexists. split; [done|]. split; [done|]. intros v. by rewrite Hp2, elem_of_app, Hp1, Hkept, Hdrop.
Qed.
End Merge.

(** ** Examples *)

Lemma settings_are_settled_witness :
  exists conf', opts_equal small_context (configured small_options)
    (parsed <$> omap (fun x => (fun o => (x.1, o)) <$> x.2)
       (zip (ctx_fields small_context) [Some (Shown (Some "42") false); Some (Shown (Some "no") false)])) =
    Ok (true, conf').
Proof.
  apply (settings_are_settled small_context small_options false).
  - apply (bool_decide_unpack _); by vm_compute.
  - apply (bool_decide_unpack _); by vm_compute.
  - apply (bool_decide_unpack _); by vm_compute.
  - apply Forall2_cons; split; [|apply Forall2_cons; split; [|done]]; left.
    + exists "42", "42", false. split_and!; [apply elem_of_cons; right; by apply list_elem_of_singleton
        |eexists; by vm_compute
        |split_and!; [by vm_compute|by vm_compute|exists false; by vm_compute]|by vm_compute|done].
    + exists "no", "no", false. split_and!; [apply elem_of_cons; by left
        |eexists; by vm_compute
        |split_and!; [by vm_compute|by vm_compute|exists false; by vm_compute]|by vm_compute|done].
Defined.

(** A diskful volume with another number or minor. *)
Definition volume (at_ n minor : Z) : d_volume :=
  mk_d_volume at_ n minor (Some "/dev/sda1") (Some "internal") (Some "internal") [] false false false false false false None [].

Lemma compare_volumes_merges_witness :
  exists l ks, compare_volumes small_context small_context [volume 1 0 1; volume 2 2 5] [volume 3 0 2; volume 4 1 7] =
      Ok (l, ks) /\ StronglySorted by_vnr l /\
    (forall v, v ∈ l <-> kept small_context small_context [volume 1 0 1; volume 2 2 5] [volume 3 0 2; volume 4 1 7] v \/
                         dropped [volume 1 0 1; volume 2 2 5] [volume 3 0 2; volume 4 1 7] v).
Proof.
  apply compare_volumes_merges.
  - repeat constructor.
  - repeat constructor.
  - split.
    + intros c k Hc Hk _.
      apply elem_of_cons in Hc as [->|Hc%list_elem_of_singleton]; [|subst c];
      apply elem_of_cons in Hk as [->|Hk%list_elem_of_singleton]; try subst k; eexists; vm_compute; done.
    + intros k [->|Hk%list_elem_of_singleton]%elem_of_cons; try subst k; eexists; vm_compute; done.
Defined.
