(* ===== verification/AdjustNet.v ===== *)
(** * Adjusting the connections, and a resource as a whole

    drbdadm adjust (user/v9/drbdadm_adjust.c): connections, their paths and
    the options of their devices are compared with those of the running
    resource, and [adjust_drbd] puts the parts together.

    Parameters are the contexts of the options, [inet_pton], and the states of
    a connection, which come from the drbd-headers submodule.

    A command refers to its resource, volume, connection and path by their
    addresses.  Its context holds them as they are when it is scheduled; the
    options and flags that adjust changes in a connection afterwards are in
    the connections it returns. *)

From S2P Require Import Prelude Machine ConfigFlags Options Address AdmConfig Deferred Stages Up Adjust.
From Stdlib Require Import String.
From stdpp Require Import strings sorting.

#[local] Open Scope string_scope.
#[local] Open Scope list_scope.
#[local] Open Scope Z_scope.


Definition ADJUST_DISK : Z := 1.
Definition ADJUST_NET : Z := 2.
Definition ADJUST_SKIP_CHECKED : Z := 4.

(** ** Flags *)

(** The list of options without the first one that starts with [opt_name], and
    whether there was one. *)
Fixpoint remove_backend_option (opt_name : string) (backend_options : list string) : list string * bool :=
  match backend_options with
  | [] => ([], false)
  | o :: l =>
      if String.prefix opt_name o then (l, true)
      else let '(l, found) := remove_backend_option opt_name l in (o :: l, found)
  end.

(** The static [adjust_flags] of [adm_adjust], and [backend_options]. *)
Definition adm_adjust_flags (adjust_flags : Z) (backend_options : list string) : Z * list string :=
  if adjust_flags =? 0 then
    let '(l, skip_disk) := remove_backend_option "--skip-disk" backend_options in
    let '(l, skip_net) := remove_backend_option "--skip-net" l in
    (Z.lor (Z.lor (if skip_disk then 0 else ADJUST_DISK) (if skip_net then 0 else ADJUST_NET)) ADJUST_SKIP_CHECKED, l)
  else (adjust_flags, backend_options).

Section Net.
Context (inet_pton : family -> string -> option (list Z)).
Context (attach_cmd_ctx disk_options_ctx resource_options_ctx show_net_options_ctx peer_device_options_ctx : context_def).
Context (C_STANDALONE C_CONNECTING C_CONNECTED : Z).

(** ** Paths *)

Definition addresses_equal_p (a b : option d_address) : res bool :=
  match a, b with
  | Some a, Some b => Ok (addresses_equal inet_pton a b)
  | _, _ => Fault
  end.

Fixpoint find_path_by_addrs (paths : list path) (pattern : path) : res (option path) :=
  match paths with
  | [] => Ok None
  | p :: paths' =>
      eq ← addresses_equal_p (my_address p) (my_address pattern);
      eq ← (if eq : bool then addresses_equal_p (connect_to p) (connect_to pattern) else Ok false);
      if eq : bool then Ok (Some p) else find_path_by_addrs paths' pattern
  end.

(** [path->adj_seen = 1] *)
Definition see_path (seen : path) (paths : list path) : list path :=
  (fun p => if path_at p =? path_at seen then p <| path_adj_seen := true |> else p) <$> paths.

Definition with_path (ctx : cfg_ctx) (p : path) : cfg_ctx :=
  mk_cfg_ctx (ctx_res ctx) (ctx_vol ctx) (ctx_conn ctx) (Some p) (ctx_cmd ctx).

(** The loop over the configured paths; the running paths, [tmp_ctx] and the
    commands after it. *)
Fixpoint add_paths (tmp_ctx : cfg_ctx) (configured running : list path) (dep : option nat) (st : sched) :
    res (list path * cfg_ctx * sched) :=
  match configured with
  | [] => Ok (running, tmp_ctx, st)
  | p :: configured' =>
      if path_ignore p then add_paths tmp_ctx configured' running dep st
      else
        found ← find_path_by_addrs running p;
        match found with
        | None =>
            let tmp_ctx := with_path tmp_ctx p in
            '(_, st) ← adj_schedule_deferred_cmd new_path_cmd tmp_ctx dep SCHEDULE_ALWAYS st;
            add_paths tmp_ctx configured' running dep st
        | Some seen => add_paths tmp_ctx configured' (see_path seen running) dep st
        end
  end.

(** The last loop, over the running paths. *)
Fixpoint del_paths (tmp_ctx : cfg_ctx) (running : list path) (dep : option nat) (st : sched) : res sched :=
  match running with
  | [] => Ok st
  | p :: running' =>
      if path_adj_seen p then del_paths tmp_ctx running' dep st
      else
        let tmp_ctx := with_path tmp_ctx p in
        '(_, st) ← adj_schedule_deferred_cmd del_path_cmd tmp_ctx dep SCHEDULE_ALWAYS st;
        del_paths tmp_ctx running' dep st
  end.

Definition adjust_paths (ctx : cfg_ctx) (configured_conn running_conn : connection) (dep : option nat) (st : sched) :
    res (connection * bool * sched) :=
  '(running, tmp_ctx, st) ← add_paths ctx (conn_paths configured_conn) (conn_paths running_conn) dep st;
  let last := bool_decide (length running = 1%nat) && existsb (fun p => negb (path_adj_seen p)) running in
  '(dep, st) ← schedule_if (last && negb (cstate running_conn =? C_STANDALONE)) disconnect_cmd tmp_ctx dep st;
  st ← del_paths tmp_ctx running dep st;
  Ok (running_conn <| conn_paths := running |>, last, st).

(** ** Connections *)

(** [strcmp(pattern->peer->node_id, conn->peer->node_id) == 0] *)
Definition same_node (pattern conn : connection) : res bool :=
  match peer pattern ≫= node_id, peer conn ≫= node_id with
  | Some a, Some b => Ok (streq a b)
  | _, _ => Fault
  end.

Fixpoint matching_conn (pattern : connection) (pool : list connection) (ret_me : bool) : res (option connection) :=
  match pool with
  | [] => Ok None
  | conn :: pool' =>
      if ret_me && conn_me conn then Ok (Some conn)
      else if conn_ignore conn then matching_conn pattern pool' ret_me
      else
        eq ← same_node pattern conn;
        if eq : bool then Ok (Some conn) else matching_conn pattern pool' ret_me
  end.

(** ** Options of the devices of a connection *)

Definition matching_peer_device (pattern : peer_device) (pool : list peer_device) : option peer_device :=
  List.find (fun pd => pd_vnr pattern =? pd_vnr pd) pool.

Definition with_vol (ctx : cfg_ctx) (vol : option d_volume) : cfg_ctx :=
  mk_cfg_ctx (ctx_res ctx) vol (ctx_conn ctx) (ctx_path ctx) (ctx_cmd ctx).

Definition with_conn (ctx : cfg_ctx) (conn : connection) : cfg_ctx :=
  mk_cfg_ctx (ctx_res ctx) (ctx_vol ctx) (Some conn) (ctx_path ctx) (ctx_cmd ctx).

(** [vols] is [ctx->conn->peer->volumes]; the devices after the loop. *)
Fixpoint adjust_peer_devices (ctx : cfg_ctx) (conn_peer : option d_host_info) (running pds : list peer_device)
    (dep : option nat) (st : sched) : res (list peer_device * sched) :=
  match pds with
  | [] => Ok ([], st)
  | pd :: pds' =>
      match conn_peer with
      | None => Fault
      | Some p =>
          let tmp_ctx := with_vol ctx (volume_by_vnr (host_volumes p) (pd_vnr pd)) in
          '(pd, st) ← match matching_peer_device pd running with
            | None =>
                '(_, st) ← adj_schedule_deferred_cmd peer_device_options_defaults_cmd tmp_ctx dep SCHEDULE_ONCE st;
                Ok (pd, st)
            | Some running_pd =>
                '(eq, opts) ← opts_equal peer_device_options_ctx (pd_options pd) (pd_options running_pd);
                '(_, st) ← schedule_if (negb eq) peer_device_options_defaults_cmd tmp_ctx dep st;
                Ok (pd <| pd_options := opts |>, st)
            end;
          '(pds, st) ← adjust_peer_devices ctx conn_peer running pds' dep st;
          Ok (pd :: pds, st)
      end
  end.

(** There is a device with options. *)
Definition has_pd_options (pd : option peer_device) : bool :=
  match pd with Some pd => negb (bool_decide (pd_options pd = [])) | None => false end.

Fixpoint pd_options_of_volumes (tmp_ctx : cfg_ctx) (conn : connection) (vols : list d_volume) (dep : option nat)
    (st : sched) : res sched :=
  match vols with
  | [] => Ok st
  | vol :: vols' =>
      if negb (has_pd_options (find_peer_device conn (vnr vol))) then
        pd_options_of_volumes tmp_ctx conn vols' dep st
      else
        '(i, st) ← adj_schedule_deferred_cmd peer_device_options_defaults_cmd (with_vol tmp_ctx (Some vol)) dep
          SCHEDULE_ONCE st;
        pd_options_of_volumes tmp_ctx conn vols' (Some i) st
  end.

Fixpoint pd_options_of_connections (tmp_ctx : cfg_ctx) (vol : d_volume) (conns : list connection) (dep : option nat)
    (st : sched) : res sched :=
  match conns with
  | [] => Ok st
  | conn :: conns' =>
      if negb (has_pd_options (find_peer_device conn (vnr vol))) || bool_decide (peer conn = None) then
        pd_options_of_connections tmp_ctx vol conns' dep st
      else
        '(i, st) ← adj_schedule_deferred_cmd peer_device_options_defaults_cmd (with_conn tmp_ctx conn) dep
          SCHEDULE_ONCE st;
        pd_options_of_connections tmp_ctx vol conns' (Some i) st
  end.

Definition schedule_peer_device_options (ctx : cfg_ctx) (dep : option nat) (st : sched) : res sched :=
  match ctx_vol ctx, ctx_conn ctx with
  | None, None => Exit E_THINKO
  | None, Some conn => pd_options_of_volumes ctx conn (me_volumes (ctx_res ctx)) dep st
  | Some vol, None => pd_options_of_connections ctx vol (connections (ctx_res ctx)) dep st
  | Some _, Some _ => Exit E_THINKO
  end.

(** ** One connection *)

(** What the adjustment of a connection leaves: whether it is to be connected,
    whether one has been disconnected, and the command the next ones are to
    wait for. *)
Record adjusted := mk_adjusted {
  to_connect : bool;
  disconnected : bool;
  last_cmd : option nat;
  after : sched
}.

(** A connection that is not running. *)
Definition adjust_new_conn (tmp_ctx : cfg_ctx) (disconnect : bool) (dcmd : option nat) (st : sched) : res adjusted :=
  '(dcmd, st) ← schedule_if true new_peer_cmd tmp_ctx dcmd st;
  '(_, st) ← schedule_if true new_path_cmd tmp_ctx dcmd st;
  st ← schedule_peer_device_options tmp_ctx dcmd st;
  Ok (mk_adjusted true disconnect dcmd st).

(** The comparison of the options of a connection: the connection and whether
    it gets new paths. *)
Definition adjust_net_options (tmp_ctx : cfg_ctx) (conn running_conn : connection) (a : adjusted) :
    res (connection * bool * adjusted) :=
  '(eq, conf_o) ← opts_equal show_net_options_ctx (net_options conn) (net_options running_conn);
  let conn := conn <| net_options := conf_o |> in
  if eq : bool then Ok (conn, false, a)
  else
    let runn_o := net_options running_conn in
    lb ← opt_equal show_net_options_ctx "load-balance-paths" conf_o runn_o;
    same ← (if lb : bool then opt_equal show_net_options_ctx "transport" conf_o runn_o else Ok false);
    if negb same then
      let tmp_ctx := with_conn tmp_ctx conn in
      '(dcmd, st) ← schedule_if true del_peer_cmd tmp_ctx (last_cmd a) (after a);
      '(dcmd, st) ← schedule_if true new_peer_cmd tmp_ctx dcmd st;
      st ← schedule_peer_device_options tmp_ctx dcmd st;
      Ok (conn, true, mk_adjusted true true dcmd st)
    else
      let conn := conn <| net_options := (del_opt (del_opt conf_o "transport").1 "load-balance-paths").1 |> in
      '(_, st) ← schedule_if true net_options_defaults_cmd (with_conn tmp_ctx conn) (last_cmd a) (after a);
      Ok (conn, false, mk_adjusted (to_connect a) (disconnected a) (last_cmd a) st).

(** A connection that is running; both connections after it. *)
Definition adjust_running_conn (tmp_ctx : cfg_ctx) (conn running_conn : connection) (disconnect : bool)
    (dcmd : option nat) (st : sched) : res (connection * connection * adjusted) :=
  '(conn, new_path, a) ← adjust_net_options tmp_ctx conn running_conn
    (mk_adjusted (cstate running_conn =? C_STANDALONE) disconnect dcmd st);
  let tmp_ctx := with_conn tmp_ctx conn in
  '(pds, st) ← adjust_peer_devices tmp_ctx (peer conn) (peer_devices running_conn) (peer_devices conn)
    (last_cmd a) (after a);
  let conn := conn <| peer_devices := pds |> in
  let tmp_ctx := with_conn tmp_ctx conn in
  if new_path : bool then
    '(dcmd, st) ← schedule_if true new_path_cmd tmp_ctx (last_cmd a) st;
    Ok (conn, running_conn, mk_adjusted (to_connect a) (disconnected a) dcmd st)
  else
    '(running_conn, dc, st) ← adjust_paths tmp_ctx conn running_conn (last_cmd a) st;
    Ok (conn, running_conn, mk_adjusted (to_connect a || dc) (disconnected a || dc) (last_cmd a) st).

(** The end of the loop's body. *)
Definition connect_if (tmp_ctx : cfg_ctx) (a : adjusted) : res adjusted :=
  if to_connect a then
    '(dcmd, st) ← schedule_if true connect_cmd tmp_ctx (last_cmd a) (after a);
    '(dcmd, st) ← schedule_if true wait_c_adj_cmd tmp_ctx dcmd st;
    Ok (mk_adjusted true (disconnected a) dcmd st)
  else Ok a.

(** ** All connections *)

Definition update_conn (conn : connection) (pool : list connection) : list connection :=
  (fun c => if conn_at c =? conn_at conn then conn else c) <$> pool.

(** What a pass over the connections leaves: the configured and the running
    ones, whether one has been disconnected, and the last command. *)
Record pass := mk_pass {
  confs : list connection;
  runs : option (list connection);
  pass_disconnect : bool;
  pass_cmd : option nat;
  pass_after : sched
}.

Definition pass_cons (conn : connection) (p : pass) : pass :=
  mk_pass (conn :: confs p) (runs p) (pass_disconnect p) (pass_cmd p) (pass_after p).

(** [running]: the connections of the running resource, if there is one. *)
Fixpoint adjust_conn (ctx : cfg_ctx) (running : option (list connection)) (conns : list connection)
    (dcmd : option nat) (max_cstate : Z) (disconnect : bool) (st : sched) : res pass :=
  match conns with
  | [] => Ok (mk_pass [] running disconnect dcmd st)
  | conn :: conns' =>
      let tmp_ctx := mk_cfg_ctx (ctx_res ctx) None (Some conn) None (ctx_cmd ctx) in
      if conn_ignore conn || conn_adj_seen conn then
        pass_cons conn <$> adjust_conn ctx running conns' dcmd max_cstate disconnect st
      else
        running_conn ← (match running with
                        | Some pool => matching_conn conn pool false
                        | None => Ok None
                        end);
        match running_conn with
        | None =>
            a ← adjust_new_conn tmp_ctx disconnect dcmd st;
            a ← connect_if tmp_ctx a;
            pass_cons (conn <| conn_adj_seen := true |>) <$>
              adjust_conn ctx running conns' (last_cmd a) max_cstate (disconnected a) (after a)
        | Some running_conn =>
            if max_cstate <? cstate running_conn then
              pass_cons conn <$> adjust_conn ctx running conns' dcmd max_cstate disconnect st
            else
              '(conn, running_conn, a) ← adjust_running_conn tmp_ctx conn running_conn disconnect dcmd st;
              let conn := conn <| conn_adj_seen := true |> in
              a ← connect_if (with_conn tmp_ctx conn) a;
              pass_cons conn <$>
                adjust_conn ctx (update_conn running_conn <$> running) conns' (last_cmd a) max_cstate
                  (disconnected a) (after a)
        end
  end.

(** The loop over the running connections that are not configured any more. *)
Fixpoint del_peers (ctx : cfg_ctx) (running : d_resource) (configured pool : list connection) (disconnect : bool)
    (dcmd : option nat) (st : sched) : res (bool * option nat * sched) :=
  match pool with
  | [] => Ok (disconnect, dcmd, st)
  | conn :: pool' =>
      configured_conn ← matching_conn conn configured true;
      match configured_conn with
      | Some _ => del_peers ctx running configured pool' disconnect dcmd st
      | None =>
          '(dcmd, st) ← schedule_if true del_peer_cmd (mk_cfg_ctx running None (Some conn) None (ctx_cmd ctx)) dcmd st;
          del_peers ctx running configured pool' true dcmd st
      end
  end.

Definition deferred_cmd_of (dcmd : option nat) (st : sched) : option cmd_object :=
  i ← dcmd; d ← heap st !! i; Some (ctx_cmd (dc_ctx d)).

Definition cancel_if (b : bool) (dcmd : option nat) (st : sched) : sched :=
  match dcmd with
  | Some i => if b then cancel_deferred_cmd i st else st
  | None => st
  end.

(** The configured connections, and the commands. *)
Definition adjust_net (ctx : cfg_ctx) (running : option d_resource) (dcmd : option nat) (st : sched) :
    res (list connection * sched) :=
  let pool := connections <$> running in
  let one_was_connected := existsb (fun conn => cstate conn =? C_CONNECTED) (default [] pool) in
  p ← adjust_conn ctx pool (connections (ctx_res ctx)) dcmd C_CONNECTING false st;
  p ← adjust_conn ctx (runs p) (confs p) (pass_cmd p) C_CONNECTED (pass_disconnect p) (pass_after p);
  '(disconnect, dcmd, st) ← (match running with
    | Some r => del_peers ctx r (confs p) (default [] (runs p)) (pass_disconnect p) (pass_cmd p) (pass_after p)
    | None => Ok (pass_disconnect p, pass_cmd p, pass_after p)
    end);
  let st := if negb (disconnect && one_was_connected) then cancel_deferred_waits (ctx_res ctx) st else st in
  Ok (confs p, cancel_if (bool_decide (deferred_cmd_of dcmd st = Some wait_c_adj_cmd)) dcmd st).

(** ** A resource *)

(** The loop that schedules the new minors. *)
Fixpoint adjust_new_minors (ctx : cfg_ctx) (adjust_flags : Z) (vols : list d_volume) (dcmd : option nat)
    (st : sched) : res (option nat * sched) :=
  match vols with
  | [] => Ok (dcmd, st)
  | vol :: vols' =>
      if other_volume ctx vol || negb (adj_new_minor vol) then adjust_new_minors ctx adjust_flags vols' dcmd st
      else
        let tmp_ctx := mk_cfg_ctx (ctx_res ctx) (Some vol) None None (ctx_cmd ctx) in
        '(dcmd, st) ← schedule_if true new_minor_cmd tmp_ctx dcmd st;
        st ← (if truth (Z.land adjust_flags ADJUST_NET) && truth (Z.land adjust_flags ADJUST_DISK)
              then schedule_peer_device_options tmp_ctx dcmd st else Ok st);
        adjust_new_minors ctx adjust_flags vols' dcmd st
  end.

(** The resource with the flags and options as they are left. *)
Definition adjust_drbd (ctx : cfg_ctx) (adjust_flags : Z) (running : option d_resource) (st : sched) :
    res (d_resource * sched) :=
  let r := ctx_res ctx in
  '(vols, kerns) ← compare_volumes attach_cmd_ctx disk_options_ctx (me_volumes r)
    (match running with Some run => me_volumes run | None => [] end);
  '(eq, opts) ← match running return res (bool * options) with
                | Some run => opts_equal resource_options_ctx (res_options r) (res_options run)
                | None => Ok (true, res_options r)
                end;
  let r := r <| me_volumes := vols |> <| res_options := opts |> in
  let ctx := mk_cfg_ctx r (ctx_vol ctx) (ctx_conn ctx) (ctx_path ctx) (ctx_cmd ctx) in
  '(dcmd, st) ← match running with
                | Some _ => schedule_if (negb eq) res_options_defaults_cmd ctx None st
                | None => schedule_if true new_resource_cmd ctx None st
                end;
  '(dcmd, st) ← adjust_new_minors ctx adjust_flags vols dcmd st;
  st ← (if truth (Z.land adjust_flags ADJUST_DISK)
        then adjust_disk ctx (if running then Some kerns else None) vols dcmd st else Ok st);
  '(conns, st) ← (if truth (Z.land adjust_flags ADJUST_NET)
                  then adjust_net ctx running dcmd st else Ok (connections r, st));
  Ok (r <| connections := conns |>, st).
End Net.
