(* ===== verification/AdjustIdle.v ===== *)
(** * Adjusting a resource that runs as it is configured

    drbdadm adjust (user/v9/drbdadm_adjust.c) has nothing to do for a resource
    whose volumes, connections, paths and options are those of the
    configuration. *)

From S2P Require Import Prelude Machine Nla ConfigFlags Options Address AdmConfig Deferred Stages Up Adjust AdjustNet.
From Stdlib Require Import Ascii String.
From stdpp Require Import strings sorting.

#[local] Open Scope string_scope.
#[local] Open Scope list_scope.
#[local] Open Scope Z_scope.

(** Nothing is to be done for the volume. *)
Definition idle (v : d_volume) : Prop :=
  adj_del_minor v = false /\ adj_new_minor v = false /\ adj_detach v = false /\ adj_attach v = false /\
  adj_resize v = false /\ adj_disk_opts v = false.

Section Idle.
Context (inet_pton : family -> string -> option (list Z)).
Context (attach_cmd_ctx disk_options_ctx resource_options_ctx show_net_options_ctx peer_device_options_ctx : context_def).
Context (C_STANDALONE C_CONNECTING C_CONNECTED : Z).

(** ** Volumes *)

(** The device has the configured size: the option size is compared on its own. *)
Definition size_settled (c k : options) : Prop :=
  match find_opt c "size", find_opt k "size" with
  | None, None => True
  | None, Some k => is_default attach_cmd_ctx k = Ok true
  | Some c, Some k => is_default attach_cmd_ctx k = Ok false /\ is_equal attach_cmd_ctx c k = Ok true
  | Some _, None => False
  end.

(** The running volume is the configured one, and its options are found equal. *)
Record unchanged (c k : d_volume) : Prop := {
  un_vnr : vnr c = vnr k;
  un_minor : device_minor c = device_minor k;
  un_disk : disk c = disk k;
  un_meta : meta_disk c = meta_disk k /\ (is_Some (disk c) -> is_Some (meta_disk c));
  un_size : is_Some (disk c) -> size_settled (disk_options c) (disk_options k);
  un_opts : is_Some (disk c) ->
    exists opts, opts_equal disk_options_ctx (skip_size (disk_options c)) (skip_size (disk_options k)) = Ok (true, opts);
  un_idle : idle c
}.

Lemma disk_equal_unchanged c k : unchanged c k -> disk_equal c k = Ok true.
Proof using.
  intros [_ _ Hd [Hm1 Hm2] _ _ _]. unfold disk_equal. rewrite <- Hd, <- Hm1.
  destruct (disk c) as [d|]; [|done]. destruct (Hm2 ltac:(by eexists)) as [m ->].
  unfold is_same_disk, compare_strings, int_eq, str_is. rewrite streq_refl. cbn [mbind res_bind].
  rewrite Bool.eqb_reflx. cbn [mbind res_bind andb]. rewrite streq_refl. by destruct (negb _).
Qed.

Lemma compare_size_unchanged c k :
  size_settled (disk_options c) (disk_options k) ->
  compare_size attach_cmd_ctx c k =
  Ok (c <| disk_options := skip_size (disk_options c) |>, k <| disk_options := skip_size (disk_options k) |>).
Proof using.
  unfold size_settled, compare_size. destruct (find_opt (disk_options c) "size"), (find_opt (disk_options k) "size"); try done.
  - intros [-> Heq]. cbn. by rewrite Heq.
  - by intros ->.
Qed.

Lemma compare_volume_unchanged c k :
  unchanged c k -> exists c' k', compare_volume attach_cmd_ctx disk_options_ctx c k = Ok (c', k') /\ idle c'.
Proof using.
  intros Hun. pose proof Hun as [_ Hmin _ _ _ Hopts (I1 & I2 & I3 & I4 & I5 & I6)].
  unfold compare_volume. rewrite Hmin, Z.eqb_refl. cbn [negb].
  replace (c <| adj_new_minor := false |> <| adj_del_minor := false |>) with c by (destruct c; cbn in *; by subst).
  rewrite disk_equal_unchanged by done. cbn [mbind res_bind negb orb]. rewrite I3, I4. cbn [negb andb orb].
  destruct (disk c) as [d|] eqn:Hd.
  - rewrite bool_decide_true by by eexists. rewrite compare_size_unchanged by (apply (un_size _ _ Hun); by eexists). cbn [mbind res_bind].
    set (c1 := c <| disk_options := skip_size (disk_options c) |>). replace (adj_detach c1) with (adj_detach c) by reflexivity.
    replace (adj_attach c1) with (adj_attach c) by reflexivity. replace (disk c1) with (disk c) by reflexivity.
    replace (disk_options c1) with (skip_size (disk_options c)) by reflexivity.
    replace (disk_options (k <| disk_options := skip_size (disk_options k) |>)) with (skip_size (disk_options k)) by reflexivity.
    rewrite Hd, I3, I4, bool_decide_true by by eexists. cbn [orb negb andb].
    destruct (Hopts ltac:(by eexists)) as [opts ->]. cbn [mbind res_bind]. do 2 eexists. split; [done|].
    split_and!; done.
  - rewrite bool_decide_false by by intros []. cbn [mbind res_bind].
    rewrite Hd, bool_decide_false, andb_false_r by by intros []. do 2 eexists. split; [done|]. by split_and!.
Qed.

Lemma compare_volumes_unchanged confs kerns :
  Forall2 unchanged confs kerns ->
  exists l ks, compare_volumes attach_cmd_ctx disk_options_ctx confs kerns = Ok (l, ks) /\ Forall idle l.
Proof using.
  intros Hun. assert (exists l ks, compare_loop attach_cmd_ctx disk_options_ctx confs kerns [] = Ok (l, ks, []) /\
    Forall idle l) as (l & ks & Hrun & Hidle).
  { induction Hun as [|c k confs kerns Hck _ (l & ks & Hrun & Hidle)]; [by exists [], []|].
    destruct (compare_volume_unchanged c k Hck) as (c' & k' & Hcmp & Hi). exists (c' :: l), (k' :: ks).
    split; [|by constructor]. cbn [compare_loop]. rewrite <- (un_vnr _ _ Hck), Z.ltb_irrefl, Hcmp.
    cbn [mbind res_bind]. by rewrite Hrun. }
  exists l, ks. unfold compare_volumes. by rewrite Hrun.
Qed.

Lemma adjust_new_minors_idle ctx flags vols dcmd st :
  Forall idle vols -> adjust_new_minors ctx flags vols dcmd st = Ok (dcmd, st).
Proof using.
  induction 1 as [|v vols (_ & Hn & _) _ IH]; [done|]. cbn [adjust_new_minors]. by rewrite Hn, orb_true_r.
Qed.

Lemma adjust_disk_idle ctx running vols dcmd st :
  Forall idle vols -> adjust_disk ctx running vols dcmd st = Ok st.
Proof using.
  induction 1 as [|v vols (H1 & _ & H2 & H3 & H4 & H5) _ IH]; [done|]. cbn [adjust_disk].
  destruct (other_volume ctx v); [done|]. rewrite H1, H2, H3, H4, H5. exact IH.
Qed.

(** ** Paths *)

Definition unseen (p : path) : path := p <| path_adj_seen := false |>.

(** The same paths, but for the flags. *)
Definition same_paths (l l' : list path) : Prop := unseen <$> l = unseen <$> l'.

#[local] Instance same_paths_equivalence : Equivalence same_paths.
Proof using. split; unfold same_paths; [intros ?|intros ???|intros ?????]; congruence. Qed.

Lemma find_path_unseen (l : list path) (p : path) :
  find_path_by_addrs inet_pton (unseen <$> l) p =
  match find_path_by_addrs inet_pton l p with
  | Ok r => Ok (unseen <$> r)
  | Exit c => Exit c
  | Abort => Abort
  | Fault => Fault
  end.
Proof using.
  induction l as [|q l IH]; [done|]. cbn [fmap list_fmap find_path_by_addrs].
  replace (my_address (unseen q)) with (my_address q) by reflexivity.
  replace (connect_to (unseen q)) with (connect_to q) by reflexivity.
  destruct (addresses_equal_p inet_pton (my_address q) (my_address p)) as [[]| | |]; cbn [mbind res_bind]; try done.
  destruct (addresses_equal_p inet_pton (connect_to q) (connect_to p)) as [[]| | |]; cbn [mbind res_bind]; done.
Qed.

Lemma find_path_same l l' p r :
  same_paths l l' -> find_path_by_addrs inet_pton l p = Ok (Some r) ->
  exists r', find_path_by_addrs inet_pton l' p = Ok (Some r') /\ path_at r' = path_at r.
Proof using.
  intros Hs Hr. pose proof (find_path_unseen l p) as H1. pose proof (find_path_unseen l' p) as H2.
  unfold same_paths in Hs. rewrite <- Hs, H1, Hr in H2. cbn in H2.
  destruct (find_path_by_addrs inet_pton l' p) as [[r'|]| | |]; try done. exists r'. split; [done|].
  apply (f_equal (fun x => match x with Ok (Some y) => path_at y | _ => 0 end)) in H2. by symmetry.
Qed.

Lemma see_path_same r l : same_paths l (see_path r l).
Proof using.
  unfold same_paths, see_path. rewrite <- list_fmap_compose. apply list_fmap_ext. intros i p _. unfold compose.
  destruct (_ =? _); [by destruct p|done].
Qed.

(** Running paths that have been seen, or are found for a path of [l]. *)
Definition found_by (running : list path) (l : list path) (r : path) : Prop :=
  exists p r', p ∈ l /\ path_ignore p = false /\ find_path_by_addrs inet_pton running p = Ok (Some r') /\
    path_at r' = path_at r.

Lemma add_paths_idle ctx l running dcmd st :
  Forall (fun p => path_ignore p = true \/ exists r, find_path_by_addrs inet_pton running p = Ok (Some r)) l ->
  exists running', add_paths inet_pton ctx l running dcmd st = Ok (running', ctx, st) /\
    same_paths running running' /\
    (forall r, r ∈ running' -> exists r0, r0 ∈ running /\ path_at r0 = path_at r /\
       (path_adj_seen r0 = true \/ found_by running l r0 -> path_adj_seen r = true)).
Proof using.
  revert running. induction l as [|p l IH]; intros running Hl; cbn [add_paths].
  { exists running. split_and!; [done|done|]. intros r Hr. exists r. split_and!; [done..|].
    intros [?|(? & ? & ?%elem_of_nil & _)]; done. }
  apply Forall_cons in Hl as [Hp Hl]. destruct (path_ignore p) eqn:Hi.
  - destruct (IH running Hl) as (running' & Hrun & Hsame & Hseen). exists running'. split_and!; [done..|].
    intros r Hr. destruct (Hseen r Hr) as (r0 & H1 & H2 & H3). exists r0. split_and!; [done..|].
    intros [?|(q & r' & [->|Hq]%elem_of_cons & Hqi & Hf & Hat)]; [auto|congruence|]. apply H3. right. by exists q, r'.
  - destruct Hp as [?|[f Hf]]; [done|]. rewrite Hf. cbn [mbind res_bind].
    destruct (IH (see_path f running)) as (running' & Hrun & Hsame & Hseen).
    + eapply Forall_impl; [exact Hl|]. intros q [?|[r Hr]]; [by left|right].
      destruct (find_path_same _ _ _ _ (see_path_same f running) Hr) as (r' & ? & _). by exists r'.
    + exists running'. split_and!; [done|by etransitivity; [apply (see_path_same f)|]|].
      intros r Hr. destruct (Hseen r Hr) as (r1 & (r0 & -> & H0)%list_elem_of_fmap & H2 & H3). exists r0.
      split_and!; [done|rewrite <- H2; by destruct (path_at r0 =? path_at f)|]. intros Hcase. apply H3.
      destruct (Z.eqb_spec (path_at r0) (path_at f)) as [|Hne]; [by left|].
      destruct Hcase as [?|(q & r' & [->|Hq]%elem_of_cons & Hqi & Hf' & Hat)]; [by left| |].
      * exfalso. apply Hne. simplify_eq. congruence.
      * right. destruct (find_path_same _ _ _ _ (see_path_same f running) Hf') as (r2 & ? & ?).
        exists q, r2. split_and!; [done..|congruence].
Qed.

Lemma del_paths_idle ctx l dcmd st : Forall (fun r => path_adj_seen r = true) l -> del_paths ctx l dcmd st = Ok st.
Proof using. induction 1 as [|r l Hr _ IH]; [done|]. cbn [del_paths]. by rewrite Hr. Qed.

(** ** Connections *)

(** The running connection is the configured one: connected or about to be,
    with equal options, devices and paths. *)
Record conn_unchanged (c k : connection) : Prop := {
  cu_state : cstate k <> C_STANDALONE;
  cu_net : exists opts, opts_equal show_net_options_ctx (net_options c) (net_options k) = Ok (true, opts);
  cu_peer : is_Some (peer c);
  cu_devices : Forall (fun pd => exists rpd opts, matching_peer_device pd (peer_devices k) = Some rpd /\
    opts_equal peer_device_options_ctx (pd_options pd) (pd_options rpd) = Ok (true, opts)) (peer_devices c);
  cu_found : Forall (fun p => path_ignore p = true \/
    exists r, find_path_by_addrs inet_pton (conn_paths k) p = Ok (Some r)) (conn_paths c);
  cu_seen : Forall (found_by (conn_paths k) (conn_paths c)) (conn_paths k)
}.

(** What adjusting changes in a running connection, and what it keeps of a
    configured one. *)
Record same_running (k k' : connection) : Prop := {
  sr_paths : same_paths (conn_paths k) (conn_paths k');
  sr_rest : k' = k <| conn_paths := conn_paths k' |>
}.

Definition identity (c : connection) : Z * bool * bool * option d_host_info :=
  (conn_at c, conn_ignore c, conn_me c, peer c).

#[local] Instance same_running_refl : Reflexive same_running.
Proof using. intros k. split; [done|]. by destruct k. Qed.

#[local] Instance same_running_trans : Transitive same_running.
Proof using.
  intros k1 k2 k3 [P1 R1] [P2 R2]. split; [by etransitivity|]. rewrite R2. rewrite R1. by destruct k1.
Qed.

Lemma same_running_identity k k' : same_running k k' -> identity k' = identity k.
Proof using. intros [_ ->]. by destruct k. Qed.

Lemma adjust_paths_idle ctx c k dcmd st :
  conn_unchanged c k ->
  exists k', adjust_paths inet_pton C_STANDALONE ctx c k dcmd st = Ok (k', false, st) /\ same_running k k'.
Proof using.
  intros Hc. unfold adjust_paths.
  destruct (add_paths_idle ctx (conn_paths c) (conn_paths k) dcmd st (cu_found _ _ Hc)) as (l & Hrun & Hsame & Hseen).
  rewrite Hrun. cbn [mbind res_bind].
  assert (Forall (fun r => path_adj_seen r = true) l) as Hall.
  { apply Forall_forall. intros r Hr. destruct (Hseen r Hr) as (r0 & H0 & _ & H1). apply H1. right.
    pose proof (cu_seen _ _ Hc) as Hk. rewrite Forall_forall in Hk. by apply Hk. }
  assert (existsb (fun p => negb (path_adj_seen p)) l = false) as ->.
  { clear -Hall. induction Hall as [|r l Hr _ IH]; [done|]. cbn. by rewrite Hr. }
  rewrite andb_false_r. cbn [andb schedule_if mbind res_bind]. rewrite del_paths_idle by done. cbn [mbind res_bind].
  eexists. split; [done|]. split; [exact Hsame|by destruct k].
Qed.

Lemma adjust_peer_devices_idle ctx host running pds dcmd st :
  Forall (fun pd => exists rpd opts, matching_peer_device pd running = Some rpd /\
    opts_equal peer_device_options_ctx (pd_options pd) (pd_options rpd) = Ok (true, opts)) pds ->
  exists pds', adjust_peer_devices peer_device_options_ctx ctx (Some host) running pds dcmd st = Ok (pds', st).
Proof using.
  induction 1 as [|pd pds (rpd & opts & Hm & Ho) _ (pds' & IH)]; cbn [adjust_peer_devices]; [by eexists|].
  rewrite Hm, Ho. cbn [mbind res_bind negb schedule_if]. rewrite IH. by eexists.
Qed.

Lemma adjust_running_conn_idle ctx c k disconnect dcmd st :
  conn_unchanged c k ->
  exists c' k', adjust_running_conn inet_pton show_net_options_ctx peer_device_options_ctx C_STANDALONE
      ctx c k disconnect dcmd st = Ok (c', k', mk_adjusted false disconnect dcmd st) /\
    identity c' = identity c /\ same_running k k'.
Proof using.
  intros Hc. unfold adjust_running_conn, adjust_net_options. destruct (cu_net _ _ Hc) as [opts ->].
  cbn [mbind res_bind last_cmd after]. destruct (cu_peer _ _ Hc) as [host Hp].
  replace (peer (c <| net_options := opts |>)) with (peer c) by reflexivity.
  replace (peer_devices (c <| net_options := opts |>)) with (peer_devices c) by reflexivity. rewrite Hp.
  destruct (adjust_peer_devices_idle (with_conn ctx (c <| net_options := opts |>)) host (peer_devices k)
    (peer_devices c) dcmd st (cu_devices _ _ Hc)) as [pds ->]. cbn [mbind res_bind last_cmd to_connect disconnected].
  match goal with |- context [adjust_paths inet_pton C_STANDALONE ?x ?y k dcmd st] =>
    destruct (adjust_paths_idle x c k dcmd st Hc) as (k' & Hk & Hsame);
    change (adjust_paths inet_pton C_STANDALONE x y k dcmd st) with (adjust_paths inet_pton C_STANDALONE x c k dcmd st)
  end.
  rewrite Hk. cbn [mbind res_bind]. rewrite (proj2 (Z.eqb_neq _ _) (cu_state _ _ Hc)), !orb_false_r.
  eexists _, k'. by split_and!.
Qed.

(** ** All connections *)

Lemma same_node_identity p p' c c' :
  identity p' = identity p -> identity c' = identity c -> same_node p' c' = same_node p c.
Proof using. unfold identity, same_node. intros [= _ _ _ ->] [= _ _ _ ->]. done. Qed.

(** The search looks at what adjusting keeps only. *)
Lemma matching_conn_identity p p' pool pool' ret_me k :
  identity p' = identity p -> Forall2 (fun c c' => identity c' = identity c) pool pool' ->
  matching_conn p pool ret_me = Ok (Some k) ->
  exists k', matching_conn p' pool' ret_me = Ok (Some k') /\ exists i, pool !! i = Some k /\ pool' !! i = Some k'.
Proof using.
  intros Hp. induction 1 as [|c c' pool pool' Hc _ IH]; [done|]. cbn [matching_conn].
  rewrite (same_node_identity p p' c c' Hp Hc). pose proof Hc as Hid. injection Hid as _ Hi Hm _. rewrite Hi, Hm.
  destruct (ret_me && conn_me c).
  { intros [= <-]. exists c'. split; [done|]. by exists 0%nat. }
  assert (matching_conn p pool ret_me = Ok (Some k) -> exists k', matching_conn p' pool' ret_me = Ok (Some k') /\
    exists i, (c :: pool) !! i = Some k /\ (c' :: pool') !! i = Some k') as Hrest.
  { intros Hk. destruct (IH Hk) as (k' & ? & i & ? & ?). exists k'. split; [done|]. by exists (S i). }
  destruct (conn_ignore c); [done|]. destruct (same_node p c) as [[]| | |]; cbn [mbind res_bind]; try done.
  intros [= <-]. exists c'. split; [done|]. by exists 0%nat.
Qed.

Lemma conn_unchanged_running c k k' : same_running k k' -> conn_unchanged c k -> conn_unchanged c k'.
Proof using.
  intros [Hp Hr] [H1 H2 H3 H4 H5 H6]. rewrite Hr. split; [by destruct k..| |].
  - replace (conn_paths (k <| conn_paths := conn_paths k' |>)) with (conn_paths k') by reflexivity.
    eapply Forall_impl; [exact H5|]. intros p [?|[r Hf]]; [by left|right].
    destruct (find_path_same _ _ _ _ Hp Hf) as (r' & ? & _). by exists r'.
  - replace (conn_paths (k <| conn_paths := conn_paths k' |>)) with (conn_paths k') by reflexivity.
    apply Forall_forall. intros r Hin. rewrite Forall_forall in H6.
    assert (unseen r ∈ unseen <$> conn_paths k) as (r0 & Heq & H0)%list_elem_of_fmap
      by (rewrite Hp; by apply list_elem_of_fmap_2).
    destruct (H6 r0 H0) as (p & r' & Hpin & Hpi & Hf & Hat). destruct (find_path_same _ _ _ _ Hp Hf) as (r2 & Hf2 & Hat2).
    exists p, r2. split_and!; [done..|]. rewrite Hat2, Hat. by apply (f_equal path_at) in Heq.
Qed.

(** The configured connections after a pass: those that have been looked at
    are marked. *)
Definition after_pass (c c' : connection) : Prop := identity c' = identity c /\ (conn_adj_seen c' = true \/ c' = c).

(** Every connection that is to be looked at runs unchanged. *)
Definition all_unchanged (pool conns : list connection) : Prop :=
  Forall (fun c => conn_ignore c = false -> conn_adj_seen c = false ->
    exists k, matching_conn c pool false = Ok (Some k) /\ conn_unchanged c k) conns.

Lemma all_unchanged_running pool pool' conns :
  Forall2 same_running pool pool' -> all_unchanged pool conns -> all_unchanged pool' conns.
Proof using.
  intros Hp Hall. eapply Forall_impl; [exact Hall|]. intros c Hc Hi Hs. destruct (Hc Hi Hs) as (k & Hk & Hu).
  destruct (matching_conn_identity c c pool pool' false k eq_refl) as (k' & Hk' & i & H1 & H2); [|done|].
  - eapply Forall2_impl; [exact Hp|]. apply same_running_identity.
  - exists k'. split; [done|]. pose proof (Forall2_lookup_lr _ _ _ _ _ _ Hp H1 H2) as Hs'. by eapply conn_unchanged_running.
Qed.

Lemma update_conn_running k k' pool i :
  NoDup (conn_at <$> pool) -> pool !! i = Some k -> same_running k k' ->
  Forall2 same_running pool (update_conn k' pool).
Proof using.
  intros Hnd Hi Hs. unfold update_conn. apply Forall2_fmap_r, Forall_Forall2_diag, Forall_forall.
  intros c [j Hj]%list_elem_of_lookup_1. unfold compose.
  destruct (Z.eqb_spec (conn_at c) (conn_at k')) as [Heq|]; [|reflexivity].
  assert (conn_at k' = conn_at k) as Hat by (destruct Hs as [_ ->]; by destruct k).
  assert (j = i) as ->; [|by simplify_eq].
  eapply NoDup_lookup; [exact Hnd|by rewrite list_lookup_fmap, Hj|rewrite list_lookup_fmap, Hi; cbn; congruence].
Qed.

Lemma conn_ats pool pool' : Forall2 same_running pool pool' -> conn_at <$> pool' = conn_at <$> pool.
Proof using.
  induction 1 as [|k k' pool pool' Hs _ IH]; [done|]. cbn. rewrite IH. f_equal. destruct Hs as [_ ->]. by destruct k.
Qed.

Lemma adjust_conn_idle ctx pool conns dcmd max disconnect st :
  NoDup (conn_at <$> pool) -> all_unchanged pool conns ->
  exists conns' pool', adjust_conn inet_pton show_net_options_ctx peer_device_options_ctx C_STANDALONE
      ctx (Some pool) conns dcmd max disconnect st = Ok (mk_pass conns' (Some pool') disconnect dcmd st) /\
    Forall2 after_pass conns conns' /\ Forall2 same_running pool pool'.
Proof using.
  intros Hnd Hall. revert pool Hnd Hall. induction conns as [|c conns IH]; intros pool Hnd Hall; cbn [adjust_conn].
  { exists [], pool. split_and!; [done|constructor|by apply Forall_Forall2_diag, Forall_true]. }
  apply Forall_cons in Hall as [Hc Hall].
  destruct (conn_ignore c || conn_adj_seen c) eqn:Hskip.
  { destruct (IH pool Hnd Hall) as (cs & ks & -> & H1 & H2). exists (c :: cs), ks.
    split_and!; [done|constructor; [split; [done|by right]|done]|done]. }
  apply orb_false_iff in Hskip as [Hi Hs]. destruct (Hc Hi Hs) as (k & Hk & Hu). rewrite Hk. cbn [mbind res_bind].
  destruct (max <? cstate k).
  { destruct (IH pool Hnd Hall) as (cs & ks & -> & H1 & H2). exists (c :: cs), ks.
    split_and!; [done|constructor; [split; [done|by right]|done]|done]. }
  destruct (adjust_running_conn_idle (mk_cfg_ctx (ctx_res ctx) None (Some c) None (ctx_cmd ctx)) c k disconnect dcmd st Hu)
    as (c' & k' & -> & Hid & Hsr). cbn [mbind res_bind]. unfold connect_if. cbn [to_connect last_cmd disconnected after mbind res_bind].
  destruct (matching_conn_identity c c pool pool false k eq_refl) as (_ & _ & i & Hik & _);
    [by apply Forall_Forall2_diag, Forall_true|done|].
  pose proof (update_conn_running k k' pool i Hnd Hik Hsr) as Hupd.
  destruct (IH (update_conn k' pool)) as (cs & ks & Hrun & H1 & H2);
    [by rewrite (conn_ats _ _ Hupd)|by eapply all_unchanged_running|].
  cbn [fmap option_fmap option_map]. rewrite Hrun. exists (c' <| conn_adj_seen := true |> :: cs), ks.
  split_and!; [done| |].
  - constructor; [|done]. split; [|by left]. rewrite <- Hid. by destruct c'.
  - revert Hupd H2. clear. generalize (update_conn k' pool). intros l H1. revert ks.
    induction H1 as [|? ? ? ? ? _ IH]; intros ks H2; [by apply Forall2_nil_inv_l in H2 as ->|].
    apply Forall2_cons_inv_l in H2 as (? & ? & ? & ? & ->). constructor; [by etransitivity|auto].
Qed.

Lemma all_unchanged_after pool conns conns' :
  all_unchanged pool conns -> Forall2 after_pass conns conns' -> all_unchanged pool conns'.
Proof using.
  intros Hall Hp. revert Hall. induction Hp as [|c c' conns conns' [_ Hcase] _ IH]; [done|].
  intros [Hc Hall]%Forall_cons. apply Forall_cons. split; [|by apply IH].
  destruct Hcase as [Hs| ->]; [|done]. intros _ Hs'. congruence.
Qed.

Lemma del_peers_idle ctx running conns pool disconnect dcmd st :
  Forall (fun k => exists c, matching_conn k conns true = Ok (Some c)) pool ->
  del_peers ctx running conns pool disconnect dcmd st = Ok (disconnect, dcmd, st).
Proof using. induction 1 as [|k pool [c Hk] _ IH]; [done|]. cbn [del_peers]. rewrite Hk. exact IH. Qed.

(** The connections of the configuration run, and no others. *)
Record conns_unchanged (conns pool : list connection) : Prop := {
  all_at : NoDup (conn_at <$> pool);
  all_run : all_unchanged pool conns;
  all_configured : Forall (fun k => exists c, matching_conn k conns true = Ok (Some c)) pool
}.

Lemma adjust_net_idle ctx running st :
  conns_unchanged (connections (ctx_res ctx)) (connections running) ->
  exists conns, adjust_net inet_pton show_net_options_ctx peer_device_options_ctx C_STANDALONE C_CONNECTING C_CONNECTED
    ctx (Some running) None st = Ok (conns, cancel_deferred_waits (ctx_res ctx) st).
Proof using.
  intros [Hnd Hall Hconf]. unfold adjust_net. cbn [fmap option_fmap option_map].
  destruct (adjust_conn_idle ctx (connections running) (connections (ctx_res ctx)) None C_CONNECTING false st Hnd Hall)
    as (cs1 & ks1 & -> & Hc1 & Hk1). cbn [mbind res_bind confs runs pass_disconnect pass_cmd pass_after].
  destruct (adjust_conn_idle ctx ks1 cs1 None C_CONNECTED false st) as (cs2 & ks2 & -> & Hc2 & Hk2).
  { by rewrite (conn_ats _ _ Hk1). }
  { eapply all_unchanged_after; [|done]. by eapply all_unchanged_running. }
  cbn [mbind res_bind confs runs pass_disconnect pass_cmd pass_after default].
  rewrite del_peers_idle; [by eexists|].
  assert (Forall2 (fun c c' => identity c' = identity c) (connections (ctx_res ctx)) cs2) as Hcs.
  { clear -Hc1 Hc2. revert cs2 Hc2. induction Hc1 as [|? ? ? ? [H1 _] _ IH]; intros cs2 H2;
      [by apply Forall2_nil_inv_l in H2 as ->|].
    apply Forall2_cons_inv_l in H2 as (? & ? & [H3 _] & ? & ->). constructor; [congruence|auto]. }
  assert (Forall2 (fun k k' => identity k' = identity k) (connections running) ks2) as Hks.
  { clear -Hk1 Hk2. revert ks2 Hk2. induction Hk1 as [|? ? ? ? H1%same_running_identity _ IH]; intros ks2 H2;
      [by apply Forall2_nil_inv_l in H2 as ->|].
    apply Forall2_cons_inv_l in H2 as (? & ? & H3%same_running_identity & ? & ->). constructor; [congruence|auto]. }
  apply Forall_forall. intros k' [i Hi]%list_elem_of_lookup_1.
  destruct (Forall2_lookup_r _ _ _ _ _ Hks Hi) as (k & Hk & Hid). rewrite Forall_forall in Hconf.
  destruct (Hconf k ltac:(by eapply list_elem_of_lookup_2)) as [c Hc].
  destruct (matching_conn_identity k k' _ cs2 true c Hid Hcs Hc) as (c' & ? & _). by exists c'.
Qed.

(** C27: Adjusting is idempotent: when the running resource has the volumes of
    the configuration, with the same minors, disks and meta data disks, of the
    configured size (or with no size configured where the running one is the
    default), and its connections, with the same paths and devices, and when the options of
    all of them are found equal (which [settings_are_settled] shows of options
    that have been set), adjust schedules nothing at all, whatever it is asked
    to look at; it only drops what still waits for a connection. *)
Theorem adjust_is_idle ctx flags running opts st :
  Forall2 unchanged (me_volumes (ctx_res ctx)) (me_volumes running) ->
  opts_equal resource_options_ctx (res_options (ctx_res ctx)) (res_options running) = Ok (true, opts) ->
  conns_unchanged (connections (ctx_res ctx)) (connections running) ->
  exists r, adjust_drbd inet_pton attach_cmd_ctx disk_options_ctx resource_options_ctx show_net_options_ctx
      peer_device_options_ctx C_STANDALONE C_CONNECTING C_CONNECTED ctx flags (Some running) st =
    Ok (r, if truth (Z.land flags ADJUST_NET) then cancel_deferred_waits (ctx_res ctx) st else st).
Proof using.
  intros Hvols Hopts Hconns. destruct (compare_volumes_unchanged _ _ Hvols) as (l & ks & Hrun & Hidle).
  unfold adjust_drbd. rewrite Hrun. cbn [mbind res_bind]. rewrite Hopts. cbn [mbind res_bind negb schedule_if].
  rewrite adjust_new_minors_idle by done. cbn [mbind res_bind].
  set (r := _ <| res_options := _ |>).
  set (ctx' := mk_cfg_ctx r (ctx_vol ctx) (ctx_conn ctx) (ctx_path ctx) (ctx_cmd ctx)).
  assert ((if truth (Z.land flags ADJUST_DISK) then adjust_disk ctx' (Some ks) l None st else Ok st) = Ok st) as ->.
  { destruct (truth _); [|done]. by apply adjust_disk_idle. }
  cbn [mbind res_bind]. destruct (truth _); [|by eexists].
  destruct (adjust_net_idle ctx' running st Hconns) as [conns ->]. by eexists.
Qed.
End Idle.

(** ** Examples *)

(** Every text is an address of its own. *)
Definition text_pton (f : family) (s : string) : option (list Z) :=
  match f with AF_INET => Some (codes s) | AF_INET6 => None end.

(** The values of the states, for the examples. *)
Definition adjust_example := adjust_drbd text_pton small_context small_context small_context small_context small_context 0 8 9.

(** A disk has a size, too; it is compared on its own. *)
Definition size_field : field_def :=
  mk_field_def "size" 3 fc_numeric (U_n 0 (2 ^ 40) 0 false "s"%char) false false false false (Some "bytes").
Definition sized_context : context_def :=
  mk_context_def [mk_nla_policy 0 0; mk_nla_policy NLA_U32 0; mk_nla_policy NLA_U8 0; mk_nla_policy NLA_U64 0] 5
    [timeout_field; cork_field; size_field].
Definition sized (v : d_volume) (size : string) : d_volume :=
  v <| disk_options := [mk_d_option "size" (Some size) false false false] |>.

(** The connection of [example_resource], running; its ignored path is not
    known to the kernel. *)
Definition running_connection : connection :=
  mk_connection 50 false false false 9 [example_path 60 false "10.0.0.1" "10.0.0.2"]
    [mk_peer_device 0 [mk_d_option "timeout" (Some "42") false false false]; mk_peer_device 1 []]
    (Some (mk_d_host_info (Some "1") [])) [].

Definition configured_connection : connection :=
  example_connection <| peer_devices :=
    [mk_peer_device 0 [mk_d_option "timeout" (Some "042") false false false]; mk_peer_device 1 []] |>.

Definition running_resource : d_resource :=
  plain_resource 7 "r0" [sized (volume 3 0 1) "2048s"] [running_connection] [mk_d_option "timeout" (Some "42") false false false].

Definition configured_resource : d_resource :=
  plain_resource 1 "r0" [sized (volume 1 0 1) "1M"] [mk_connection 21 true false false 0 [] [] None []; configured_connection]
    [mk_d_option "timeout" (Some "042") false false false].

Lemma adjust_is_idle_witness :
  exists r, adjust_drbd text_pton sized_context small_context small_context small_context small_context 0 8 9
      (mk_cfg_ctx configured_resource None None None adjust_cmd) 7 (Some running_resource) initialize_deferred_cmds =
    Ok (r, if truth (Z.land 7 ADJUST_NET) then cancel_deferred_waits configured_resource initialize_deferred_cmds
           else initialize_deferred_cmds).
Proof.
  apply (adjust_is_idle text_pton sized_context small_context small_context small_context small_context 0 8 9
    (mk_cfg_ctx configured_resource None None None adjust_cmd) 7 running_resource
    [mk_d_option "timeout" (Some "042") true false false] initialize_deferred_cmds).
  - apply Forall2_cons. split; [|done].
    split; [done|done|done|split; [done|by eexists]|intros _; split; by vm_compute| |by split_and!].
    intros _. eexists. by vm_compute.
  - vm_compute. done.
  - split.
    + vm_compute. apply NoDup_singleton.
    + apply Forall_cons. split; [done|]. apply Forall_singleton. intros _ _. exists running_connection. split; [by vm_compute|].
      split.
      * done.
      * exists []. by vm_compute.
      * by eexists.
      * apply Forall_cons. split; [|apply Forall_singleton].
        -- exists (mk_peer_device 0 [mk_d_option "timeout" (Some "42") false false false]),
             [mk_d_option "timeout" (Some "042") true false false]. split; by vm_compute.
        -- exists (mk_peer_device 1 []), []. split; by vm_compute.
      * apply Forall_cons. split; [right; exists (example_path 60 false "10.0.0.1" "10.0.0.2"); by vm_compute|].
        apply Forall_singleton. by left.
      * apply Forall_singleton. exists (example_path 30 false "10.0.0.1" "10.0.0.2"), (example_path 60 false "10.0.0.1" "10.0.0.2").
        split; [by left|]. split; [done|]. split; [by vm_compute|done].
    + apply Forall_singleton. exists configured_connection. by vm_compute.
Defined.

(** A volume that is to get another minor: the new minor is created before the
    old one is deleted, against the order of the stages, because the deletion
    depends on it.  The kernel knows the volume until then. *)
Lemma minor_change_creates_first :
  match adjust_example
          (mk_cfg_ctx (plain_resource 1 "r0" [volume 1 0 2] [] []) None None None adjust_cmd) 7
          (Some (plain_resource 7 "r0" [volume 3 0 1] [] [])) initialize_deferred_cmds with
  | Ok (_, st) =>
      match run_deferred_cmds (trace (fun _ => 0)) 9 false st [] with
      | Some (Ok r, _, w) => r = 0 /\ w = ["new-minor"; "detach"; "del-minor"; "attach"]
      | _ => False
      end
  | _ => False
  end.
Proof. vm_compute. done. Qed.
