(* ===== verification/AdjustUp.v ===== *)
(** * Adjusting what is not running

    drbdadm adjust (user/v9/drbdadm_adjust.c) of a resource that is not running
    schedules the commands in another order and with other dependencies than
    drbdadm up ([adm_up] of user/v9/drbdadm_main.c).  This file shows that they
    call the same commands in the same order. *)

From S2P Require Import Prelude Machine ConfigFlags Options Address AdmConfig Deferred Stages Up Adjust AdjustNet.
From Stdlib Require Import String.
From stdpp Require Import strings sorting.

#[local] Open Scope string_scope.
#[local] Open Scope list_scope.
#[local] Open Scope Z_scope.

(** ** What adjust schedules *)

(** A resource as the parser leaves it: no flag of an earlier comparison. *)
Definition not_compared (vol : d_volume) : Prop :=
  adj_del_minor vol = false /\ adj_detach vol = false /\ adj_attach vol = false /\
  adj_resize vol = false /\ adj_disk_opts vol = false.

Definition no_pd_options (conn : connection) : Prop :=
  Forall (fun pd => pd_options pd = []) (peer_devices conn).

Definition adjust_minor (r : d_resource) (cmd : cmd_object) (vol : d_volume) : cfg_ctx :=
  mk_cfg_ctx r (Some (new_volume vol)) None None cmd.

Definition adjust_attach (r : d_resource) (vol : d_volume) : list cfg_ctx :=
  if disk vol then [adjust_minor r attach_cmd vol] else [].

Definition adjust_conn_cmds (r : d_resource) (conn : connection) : list cfg_ctx :=
  if conn_ignore conn then []
  else mk_cfg_ctx r None (Some conn) None <$> [new_peer_cmd; new_path_cmd; connect_cmd; wait_c_adj_cmd].

(** [r]: the resource after the comparison of its volumes. *)
Definition compared (r : d_resource) : d_resource :=
  r <| me_volumes := new_volume <$> me_volumes r |> <| res_options := res_options r |>.

Definition adjust_cmds (ctx : cfg_ctx) : list cfg_ctx :=
  let r := compared (ctx_res ctx) in
  mk_cfg_ctx r None (ctx_conn ctx) (ctx_path ctx) new_resource_cmd ::
  (adjust_minor r new_minor_cmd <$> me_volumes (ctx_res ctx)) ++
  (me_volumes (ctx_res ctx) ≫= adjust_attach r) ++ (connections r ≫= adjust_conn_cmds r).

Lemma schedule_if_fresh cmd ctx dep st l :
  only_scheduled st l -> dep_ok l cmd dep -> ctx_cmd ctx <> sh_list_adjustable ->
  exists st', schedule_if true cmd ctx dep st = Ok (Some (length l), st') /\
    only_scheduled st' (l ++ [with_cmd ctx cmd]).
Proof.
  intros Hf Hdep Hc. destruct (schedule_fresh cmd ctx dep st l Hf Hdep) as (st' & Hs & Hf').
  exists st'. split; [|done]. unfold schedule_if, adj_schedule_deferred_cmd.
  destruct (bool_decide_reflect (ctx_cmd ctx = sh_list_adjustable)); [done|]. by rewrite Hs.
Qed.

(** As [schedule_step], for [schedule_if]. *)
Ltac schedule_if_step cmd ctx dep Hf :=
  let st := fresh "st" in let Hs := fresh "Hs" in
  match type of Hf with
  | only_scheduled ?st0 ?l =>
      destruct (schedule_if_fresh cmd ctx dep st0 l Hf) as (st & Hs & Hf');
      [|try done|rewrite Hs; cbn [mbind res_bind fmap res_fmap snd]; clear Hs; clear Hf; rename Hf' into Hf;
        rewrite <- ?app_assoc in Hf; cbn [app] in Hf]
  end.

Lemma compare_new_volumes attach_ctx disk_ctx vols :
  compare_volumes attach_ctx disk_ctx vols [] = Ok (new_volume <$> vols, []).
Proof.
  unfold compare_volumes.
  assert (compare_loop attach_ctx disk_ctx vols [] [] = Ok (new_volume <$> vols, [], [])) as ->; [|done].
  induction vols as [|v vols IH]; [done|]. cbn. cbn in IH. by rewrite IH.
Qed.

Lemma no_pd_options_none conn n : no_pd_options conn -> has_pd_options (find_peer_device conn n) = false.
Proof.
  unfold has_pd_options, no_pd_options. intros Hc. destruct (find_peer_device conn n) as [pd|] eqn:Hf; [|done].
  apply find_some in Hf as [Hin _]. rewrite List.Forall_forall in Hc. by rewrite (Hc pd Hin).
Qed.

Lemma no_options_conns ctx vol conns dep st :
  Forall no_pd_options conns -> pd_options_of_connections ctx vol conns dep st = Ok st.
Proof.
  induction 1 as [|conn conns Hc _ IH]; [done|]. cbn [pd_options_of_connections].
  by rewrite no_pd_options_none.
Qed.

Lemma no_options_vols ctx conn vols dep st :
  no_pd_options conn -> pd_options_of_volumes ctx conn vols dep st = Ok st.
Proof.
  intros Hc. induction vols as [|vol vols IH]; [done|]. cbn [pd_options_of_volumes].
  by rewrite no_pd_options_none.
Qed.

(** A command of the stage [s] that is to wait for [dep]. *)
Definition dep_before (l : list cfg_ctx) (dep : option nat) (s : drbd_cfg_stage) : Prop :=
  forall j, dep = Some j -> exists c, l !! j = Some c /\
    ((rank (cmd_stage c) <= rank s)%nat \/ cmd_stage c = CFG_WAIT_CONNECT).

Lemma dep_before_app l l' dep s s' :
  (rank s <= rank s')%nat -> dep_before l dep s -> dep_before (l ++ l') dep s'.
Proof.
  intros Hr Hd j Hj. destruct (Hd j Hj) as (c & Hc & Hs). exists c. split; [by apply lookup_app_l_Some|].
  destruct Hs; [left; lia|by right].
Qed.

Lemma dep_before_at l l' n k c s :
  l' !! k = Some c -> n = (length l + k)%nat ->
  (rank (cmd_stage c) <= rank s)%nat \/ cmd_stage c = CFG_WAIT_CONNECT -> dep_before (l ++ l') (Some n) s.
Proof. intros Hk -> Hr j [= <-]. exists c. rewrite lookup_app_r by lia. by replace (length l + k - length l)%nat with k by lia. Qed.

Lemma dep_before_last l c l' s :
  (rank (cmd_stage c) <= rank s)%nat \/ cmd_stage c = CFG_WAIT_CONNECT -> dep_before (l ++ c :: l') (Some (length l)) s.
Proof. apply (dep_before_at l (c :: l') _ 0); [done|lia]. Qed.

Lemma new_minors_fresh ctx flags vols dep st l :
  ctx_vol ctx = None -> ctx_cmd ctx <> sh_list_adjustable -> Forall no_pd_options (connections (ctx_res ctx)) ->
  only_scheduled st l -> dep_before l dep CFG_DISK_PREP_UP ->
  exists dep' st', adjust_new_minors ctx flags (new_volume <$> vols) dep st = Ok (dep', st') /\
    let l' := l ++ (adjust_minor (ctx_res ctx) new_minor_cmd <$> vols) in
    only_scheduled st' l' /\ dep_before l' dep' CFG_DISK_PREP_UP.
Proof.
  intros Hv Hc Hpd. revert dep st l. induction vols as [|vol vols IH]; intros dep st l Hf Hdep.
  { exists dep, st. by rewrite app_nil_r. }
  cbn [fmap list_fmap adjust_new_minors]. unfold other_volume at 1. rewrite Hv. cbn [orb negb adj_new_minor new_volume].
  set (c := mk_cfg_ctx (ctx_res ctx) (Some (new_volume vol)) None None (ctx_cmd ctx)).
  schedule_if_step new_minor_cmd c dep Hf; [exact Hdep|].
  assert (schedule_peer_device_options c (Some (length l)) st0 = Ok st0) as -> by by apply no_options_conns.
  assert ((if truth (Z.land flags ADJUST_NET) && truth (Z.land flags ADJUST_DISK) then Ok st0 else Ok st0) = Ok st0)
    as -> by by destruct (_ && _).
  cbn [mbind res_bind]. destruct (IH (Some (length l)) st0 _ Hf) as (dep' & st' & -> & Hf2 & Hd2).
  { apply (dep_before_last l). left. cbn. lia. }
  exists dep', st'. by rewrite <- app_assoc in Hf2, Hd2.
Qed.

Lemma attaches_fresh ctx vols dep st l :
  ctx_vol ctx = None -> ctx_cmd ctx <> sh_list_adjustable -> Forall not_compared vols ->
  only_scheduled st l -> dep_before l dep CFG_DISK_PREP_UP ->
  exists st', adjust_disk ctx None (new_volume <$> vols) dep st = Ok st' /\
    only_scheduled st' (l ++ (vols ≫= adjust_attach (ctx_res ctx))).
Proof.
  intros Hv Hc Hvols. revert dep st l. induction Hvols as [|vol vols Hvol _ IH]; intros dep st l Hf Hdep.
  { exists st. by rewrite app_nil_r. }
  destruct Hvol as (H1 & H2 & H3 & H4 & H5).
  cbn [fmap list_fmap adjust_disk]. unfold other_volume at 1. rewrite Hv.
  replace (adj_detach (new_volume vol)) with (adj_detach vol) by reflexivity.
  replace (adj_del_minor (new_volume vol)) with (adj_del_minor vol) by reflexivity.
  replace (adj_disk_opts (new_volume vol)) with (adj_disk_opts vol) by reflexivity.
  replace (adj_resize (new_volume vol)) with (adj_resize vol) by reflexivity.
  replace (adj_attach (new_volume vol)) with (if disk vol then true else adj_attach vol) by reflexivity.
  rewrite H1, H2, H3, H4, H5. cbn [orb mbind res_bind list_bind]. unfold adjust_attach at 1.
  destruct (disk vol) eqn:Hd.
  - schedule_if_step attach_cmd (mk_cfg_ctx (ctx_res ctx) (Some (new_volume vol)) None None (ctx_cmd ctx)) dep Hf.
    { apply (dep_before_app l [] dep CFG_DISK_PREP_UP CFG_DISK) in Hdep; [|cbn; lia]. by rewrite app_nil_r in Hdep. }
    cbn [schedule_if mbind res_bind].
    destruct (IH dep st0 _ Hf) as (st' & -> & Hf2); [by eapply dep_before_app|].
    exists st'. by rewrite <- app_assoc in Hf2.
  - cbn [schedule_if mbind res_bind]. destruct (IH dep st l Hf Hdep) as (st' & -> & Hf2). by exists st'.
Qed.

Section NotRunning.
Context (inet_pton : family -> string -> option (list Z)).
Context (attach_cmd_ctx disk_options_ctx resource_options_ctx show_net_options_ctx peer_device_options_ctx : context_def).
Context (C_STANDALONE C_CONNECTING C_CONNECTED : Z).

Local Notation adjust_conn := (adjust_conn inet_pton show_net_options_ctx peer_device_options_ctx C_STANDALONE).

Lemma conns_fresh ctx conns dep max disconnect st l :
  ctx_cmd ctx <> sh_list_adjustable -> Forall no_pd_options conns ->
  Forall (fun conn => conn_adj_seen conn = false) conns ->
  only_scheduled st l -> dep_before l dep CFG_NET_PREP_UP ->
  exists conns' dep' st', adjust_conn ctx None conns dep max disconnect st =
      Ok (mk_pass conns' None disconnect dep' st') /\
    Forall (fun conn => conn_ignore conn || conn_adj_seen conn = true) conns' /\
    only_scheduled st' (l ++ (conns ≫= adjust_conn_cmds (ctx_res ctx))).
Proof using.
  intros Hc Hpd. revert dep st l. induction Hpd as [|conn conns Hpd _ IH]; intros dep st l Hseen Hf Hdep;
    cbn [AdjustNet.adjust_conn].
  { exists [], dep, st. by rewrite app_nil_r. }
  apply Forall_cons in Hseen as [Hseen0 Hseen]. rewrite Hseen0, orb_false_r. cbn [mbind list_bind].
  unfold adjust_conn_cmds at 1. destruct (conn_ignore conn) eqn:Hi.
  { destruct (IH dep st l Hseen Hf Hdep) as (cs & dep' & st' & -> & Hcs & Hf2).
    exists (conn :: cs), dep', st'. split_and!; [done| |done]. constructor; [by rewrite Hi|done]. }
  cbn [mbind res_bind]. unfold adjust_new_conn, connect_if.
  set (c := mk_cfg_ctx (ctx_res ctx) None (Some conn) None (ctx_cmd ctx)).
  schedule_if_step new_peer_cmd c dep Hf; [exact Hdep|].
  schedule_if_step new_path_cmd c (Some (length l)) Hf; [apply (dep_before_last l); left; cbn; lia|].
  assert (schedule_peer_device_options c (Some (length l)) st1 = Ok st1) as -> by by apply no_options_vols.
  cbn [mbind res_bind to_connect last_cmd after disconnected].
  schedule_if_step connect_cmd c (Some (length l)) Hf; [apply (dep_before_last l); left; cbn; lia|].
  schedule_if_step wait_c_adj_cmd c (Some (length (l ++ [with_cmd c new_peer_cmd; with_cmd c new_path_cmd]))) Hf.
  { eapply (dep_before_at l _ _ 2); [done|by rewrite length_app|left; cbn; lia]. }
  cbn [mbind res_bind to_connect last_cmd after disconnected].
  edestruct IH as (cs & dep' & st' & Hrun & Hcs & Hf2); [exact Hseen|exact Hf| |].
  2: { rewrite Hrun. exists (conn <| conn_adj_seen := true |> :: cs), dep', st'. split_and!; [done| |].
    - constructor; [|done]. replace (conn_adj_seen (conn <| conn_adj_seen := true |>)) with true by reflexivity.
      by rewrite orb_true_r.
    - by rewrite <- app_assoc in Hf2. }
  eapply (dep_before_at l _ _ 3); [done|by rewrite length_app|by right].
Qed.

(** A pass over connections that have been looked at. *)
Lemma conns_seen ctx running conns dep max disconnect st :
  Forall (fun conn => conn_ignore conn || conn_adj_seen conn = true) conns ->
  adjust_conn ctx running conns dep max disconnect st = Ok (mk_pass conns running disconnect dep st).
Proof using.
  induction 1 as [|conn conns Hc _ IH]; [done|]. cbn [AdjustNet.adjust_conn]. by rewrite Hc, IH.
Qed.

(** The waits are cancelled already. *)
Lemma cancel_if_again r dep st l :
  only_scheduled st l -> Forall (fun c => res_at (ctx_res c) = res_at r) l ->
  let st' := cancel_deferred_waits r st in
  cancel_if (bool_decide (deferred_cmd_of dep st' = Some wait_c_adj_cmd)) dep st' = st'.
Proof using.
  intros Hf Hres. cbv zeta. pose proof (un_wf _ Hf) as Hwf. rewrite Forall_forall in Hres.
  destruct (cancel_waits_later r st Hwf (untouched_in_order _ Hf) (un_balanced _ Hf))
    as (Hl & Hwf1 & _ & _ & _ & _ & Hn).
  { intros i d Hi. eapply Hres. rewrite <- (fresh_heap _ _ Hf). by eapply list_elem_of_fmap_2, list_elem_of_lookup_2. }
  destruct dep as [i|]; [|done]. cbn [cancel_if]. case_bool_decide as Hd; [|done].
  unfold deferred_cmd_of in Hd. cbn [mbind option_bind] in Hd. unfold cancel_deferred_cmd.
  destruct (heap (cancel_deferred_waits r st) !! i) as [d|] eqn:Hi; [|done]. cbn in Hd. injection Hd as Hd.
  destruct (done d) eqn:Hdn; [done|exfalso].
  assert (not_done (heap (cancel_deferred_waits r st)) i) as [_ Hni]%Hn by by exists d.
  apply Hni. rewrite <- (later_queue _ _ Hl). apply (wf_queue _ Hwf1). exists d. split; [done|].
  unfold dc_stage. by rewrite Hd.
Qed.

Lemma adjust_cmds_res ctx : Forall (fun c => ctx_res c = compared (ctx_res ctx)) (adjust_cmds ctx).
Proof using.
  apply Forall_cons. split; [done|]. rewrite !Forall_app. split_and!.
  - apply Forall_fmap, Forall_true. done.
  - apply Forall_bind, Forall_true. intros vol. unfold compose, adjust_attach. destruct (disk vol); by repeat constructor.
  - apply Forall_bind, Forall_true. intros conn. unfold compose, adjust_conn_cmds.
    destruct (conn_ignore conn); by repeat constructor.
Qed.

(** What is scheduled when nothing runs. *)
Record to_start (ctx : cfg_ctx) : Prop := {
  ts_vol : ctx_vol ctx = None;
  ts_cmd : ctx_cmd ctx <> sh_list_adjustable;
  ts_vols : Forall not_compared (me_volumes (ctx_res ctx));
  ts_seen : Forall (fun conn => conn_adj_seen conn = false) (connections (ctx_res ctx));
  ts_pd : Forall no_pd_options (connections (ctx_res ctx))
}.

Lemma adjust_fresh ctx flags :
  to_start ctx -> truth (Z.land flags ADJUST_DISK) = true -> truth (Z.land flags ADJUST_NET) = true ->
  exists r st, adjust_drbd inet_pton attach_cmd_ctx disk_options_ctx resource_options_ctx show_net_options_ctx
      peer_device_options_ctx C_STANDALONE C_CONNECTING C_CONNECTED ctx flags None initialize_deferred_cmds =
      Ok (r, cancel_deferred_waits (compared (ctx_res ctx)) st) /\
    only_scheduled st (adjust_cmds ctx).
Proof using.
  intros [Hv Hc Hvols Hseen Hpd] Hdisk Hnet. unfold adjust_drbd. rewrite compare_new_volumes. cbn [mbind res_bind].
  fold (compared (ctx_res ctx)).
  set (ctx' := mk_cfg_ctx (compared (ctx_res ctx)) (ctx_vol ctx) (ctx_conn ctx) (ctx_path ctx) (ctx_cmd ctx)).
  pose proof initialize_fresh as Hf.
  schedule_if_step new_resource_cmd ctx' (@None nat) Hf; [done|].
  destruct (new_minors_fresh ctx' flags (me_volumes (ctx_res ctx)) (Some 0%nat) st _ Hv Hc Hpd Hf)
    as (dep & st1 & Hm & Hf1 & Hd1).
  { intros j [= <-]. exists (with_cmd ctx' new_resource_cmd). split; [done|]. left. cbn. lia. }
  change (length (@nil cfg_ctx)) with 0%nat. rewrite Hm, Hdisk, Hnet. cbn [mbind res_bind].
  destruct (attaches_fresh ctx' (me_volumes (ctx_res ctx)) dep st1 _ Hv Hc Hvols Hf1 Hd1) as (st2 & -> & Hf2).
  cbn [mbind res_bind]. unfold adjust_net. cbn [fmap option_fmap option_map default existsb].
  destruct (conns_fresh ctx' (connections (ctx_res ctx)) dep C_CONNECTING false st2 _ Hc Hpd Hseen Hf2)
    as (cs & dep' & st3 & Hrun & Hcs & Hf3); [eapply dep_before_app, Hd1; cbn; lia|].
  assert (only_scheduled st3 (adjust_cmds ctx)) as Hf4.
  { assert (with_cmd ctx' new_resource_cmd =
      mk_cfg_ctx (compared (ctx_res ctx)) None (ctx_conn ctx) (ctx_path ctx) new_resource_cmd) as Hw
      by (unfold with_cmd, ctx'; cbn; by rewrite Hv).
    rewrite Hw in Hf3. unfold adjust_cmds. rewrite <- !app_assoc in Hf3. exact Hf3. }
  replace (connections (ctx_res ctx')) with (connections (ctx_res ctx)) by reflexivity. rewrite Hrun. cbn [mbind res_bind runs confs pass_cmd pass_disconnect pass_after].
  rewrite (conns_seen ctx' None cs) by done.
  cbn [mbind res_bind runs confs pass_cmd pass_disconnect pass_after andb negb].
  replace (ctx_res ctx') with (compared (ctx_res ctx)) by reflexivity.
  rewrite (cancel_if_again (compared (ctx_res ctx)) dep' st3 _ Hf4); [by do 2 eexists|].
  eapply Forall_impl; [apply adjust_cmds_res|]. by intros c ->.
Qed.
End NotRunning.

(** ** The same commands *)

(** What a command works on: its resource, and its connection or its volume. *)
Definition target (c : cfg_ctx) : cmd_object * Z * (option Z + Z) :=
  (ctx_cmd c, res_at (ctx_res c),
   match ctx_conn c with Some conn => inr (conn_at conn) | None => inl (vol_at <$> ctx_vol c) end).

Definition in_stage (s : drbd_cfg_stage) (t : cmd_object * Z * (option Z + Z)) : Prop := stage (adm_cmd_of t.1.1) = s.

#[export] Instance in_stage_dec s t : Decision (in_stage s t).
Proof. unfold in_stage. apply _. Defined.

Lemma target_by_stage l : target <$> by_stage l = stages ≫= fun s => filter (in_stage s) (target <$> l).
Proof.
  unfold by_stage. induction stages as [|s sl IH]; [done|]. cbn [mbind list_bind]. rewrite fmap_app, IH. f_equal.
  clear. induction l as [|c l IH]; [done|]. cbn [fmap list_fmap]. rewrite !filter_cons.
  change (in_stage s (target c)) with (cmd_stage c = s). destruct (decide (cmd_stage c = s)); cbn; by rewrite IH.
Qed.

Lemma filter_bind {A B} (P : B -> Prop) `{!forall x, Decision (P x)} (f : A -> list B) (l : list A) :
  filter P (l ≫= f) = l ≫= (fun x => filter P (f x)).
Proof. induction l as [|x l IH]; [done|]. cbn [mbind list_bind]. by rewrite list.filter_app, IH. Qed.

Lemma fmap_bind_list {A B C} (g : B -> C) (f : A -> list B) (l : list A) : g <$> (l ≫= f) = l ≫= (fun x => g <$> f x).
Proof. induction l as [|x l IH]; [done|]. cbn [mbind list_bind]. by rewrite fmap_app, IH. Qed.

Lemma bind_nil {A B} (l : list A) : l ≫= (fun _ => @nil B) = [].
Proof. by induction l. Qed.

(** Two kinds of commands of different stages, scheduled together or one kind
    after the other. *)
Lemma filter_two_stages {A} (f g : A -> list _) s1 s2 s (l : list A) :
  (forall x, Forall (in_stage s1) (f x)) -> (forall x, Forall (in_stage s2) (g x)) -> s1 <> s2 ->
  filter (in_stage s) (l ≫= fun x => f x ++ g x) = filter (in_stage s) ((l ≫= f) ++ (l ≫= g)).
Proof.
  intros Hf Hg Hs. rewrite list.filter_app, !filter_bind.
  assert (forall s' h, (forall x, Forall (in_stage s') (h x)) -> s' <> s ->
    l ≫= (fun x => filter (in_stage s) (h x)) = []) as Hnil.
  { intros s' h Hh Hne. rewrite <- (bind_nil l). apply bind_ext_in. intros x _. apply filter_none.
    specialize (Hh x). rewrite Forall_forall in Hh. unfold in_stage in *. intros t Ht%Hh. congruence. }
  destruct (decide (s1 = s)) as [->|H1].
  - rewrite (Hnil s2 g Hg) by done. rewrite app_nil_r. apply bind_ext_in. intros x _.
    rewrite list.filter_app. rewrite (filter_none _ (g x)); [by rewrite app_nil_r|].
    specialize (Hg x). rewrite Forall_forall in Hg. unfold in_stage in *. intros t Ht%Hg. congruence.
  - rewrite (Hnil s1 f Hf) by done. cbn [app]. apply bind_ext_in. intros x _.
    rewrite list.filter_app. rewrite (filter_none _ (f x)); [done|].
    specialize (Hf x). rewrite Forall_forall in Hf. unfold in_stage in *. intros t Ht%Hf. congruence.
Qed.

Lemma targets_up ctx vol (conns : list connection) : Forall no_pd_options conns ->
  target <$> (conns ≫= conn_cmds ctx vol) = target <$> no_waits (conns ≫= adjust_conn_cmds (compared (ctx_res ctx))).
Proof.
  induction 1 as [|conn conns Hpd _ IH]; [done|]. cbn [mbind list_bind]. rewrite no_waits_app, !fmap_app. f_equal; [|exact IH].
  unfold conn_cmds, adjust_conn_cmds. destruct (conn_ignore conn); [done|]. cbn [app fmap list_fmap].
  set (c := mk_cfg_ctx _ _ (Some conn) _ _). assert (peer_devices conn ≫= pd_cmds c (peer conn) = []) as ->; [|done].
  rewrite <- (bind_nil (peer_devices conn)). apply bind_ext_in. intros pd Hin.
  unfold no_pd_options in Hpd. rewrite Forall_forall in Hpd. unfold pd_cmds. by rewrite (Hpd pd Hin).
Qed.

Lemma adjust_targets ctx :
  ctx_conn ctx = None -> to_start ctx ->
  target <$> by_stage (no_waits (adjust_cmds ctx)) = target <$> by_stage (up_cmds ctx).
Proof.
  intros Hconn [Hv _ _ _ Hpd]. rewrite !target_by_stage. apply bind_ext_in. intros s _.
  set (r := compared (ctx_res ctx)). set (vols := me_volumes (ctx_res ctx)).
  set (minor := fun vol : d_volume => [target (adjust_minor r new_minor_cmd vol)]).
  set (attach := fun vol : d_volume => target <$> adjust_attach r vol).
  assert (no_waits (adjust_cmds ctx) = mk_cfg_ctx r None (ctx_conn ctx) (ctx_path ctx) new_resource_cmd ::
    (adjust_minor r new_minor_cmd <$> vols) ++ (vols ≫= adjust_attach r) ++ no_waits (connections r ≫= adjust_conn_cmds r)) as ->.
  { unfold adjust_cmds. fold r vols. change (?x :: ?l) with ([x] ++ l) at 1. rewrite !no_waits_app. f_equal.
    rewrite (no_waits_id (_ <$> _)) by (by apply Forall_fmap, Forall_true). f_equal. f_equal.
    apply no_waits_id, Forall_bind, Forall_true. intros vol. unfold compose, adjust_attach. destruct (disk vol); by repeat constructor. }
  unfold up_cmds. fold vols. cbn [fmap list_fmap]. rewrite !fmap_app, (targets_up ctx _ _ Hpd). fold r.
  replace (connections r) with (connections (ctx_res ctx)) by reflexivity.
  set (conns := target <$> no_waits _).
  assert (target (mk_cfg_ctx r None (ctx_conn ctx) (ctx_path ctx) new_resource_cmd) = target (with_cmd ctx new_resource_cmd)) as ->.
  { unfold target, with_cmd. cbn. by rewrite Hconn, Hv. }
  assert (target <$> (adjust_minor r new_minor_cmd <$> vols) = vols ≫= minor) as ->.
  { clear. induction vols as [|vol vols IH]; [done|]. cbn. by f_equal. }
  assert (target <$> (vols ≫= vol_cmds ctx) = vols ≫= fun vol => minor vol ++ attach vol) as ->.
  { rewrite fmap_bind_list. apply bind_ext_in. intros vol _. unfold vol_cmds, minor, attach, adjust_attach.
    by destruct (disk vol). }
  rewrite fmap_bind_list. fold attach. rewrite !filter_cons, app_assoc, !list.filter_app, <- list.filter_app.
  rewrite <- (filter_two_stages minor attach CFG_DISK_PREP_UP CFG_DISK); [done| | |done].
  - intros vol. by repeat constructor.
  - intros vol. unfold attach, adjust_attach. destruct (disk vol); by repeat constructor.
Qed.

Lemma adjust_cmds_called ctx :
  Forall (fun vol => disk vol <> None -> no_local_disk vol = false) (me_volumes (ctx_res ctx)) ->
  Forall well_called (adjust_cmds ctx).
Proof.
  intros Hvols. apply Forall_cons. split; [done|]. rewrite !Forall_app. split_and!.
  - by apply Forall_fmap, Forall_true.
  - apply Forall_bind. eapply Forall_impl; [exact Hvols|]. intros vol Hvol. unfold compose, adjust_attach.
    destruct (disk vol) eqn:Hd; [|constructor]. apply Forall_singleton. split; [|done]. intros _.
    exists (new_volume vol). split; [done|]. apply Hvol. congruence.
  - apply Forall_bind, Forall_true. intros conn. unfold compose, adjust_conn_cmds.
    destruct (conn_ignore conn); [constructor|]. by repeat constructor.
Qed.

(** C25: Adjusting a resource that is not running brings it up: when no device
    of a connection has options of its own and the commands succeed, the
    commands that drbdadm adjust calls and those that drbdadm up calls are the
    same, on the same volumes and connections and in the same order - although
    adjust makes every minor wait for the one before and every connection for
    the one before, and schedules waits that it cancels. *)
Theorem adjust_starts_as_up {W} (function : cfg_ctx -> W -> res Z * W) inet_pton
    attach_ctx disk_ctx resource_ctx net_ctx pd_ctx c_standalone c_connecting c_connected fuel p ctx flags w :
  (forall c w, exists w', function c w = (Ok 0, w')) ->
  to_start ctx -> ctx_conn ctx = None ->
  Forall (fun vol => disk vol <> None -> no_local_disk vol = false) (me_volumes (ctx_res ctx)) ->
  truth (Z.land flags ADJUST_DISK) = true -> truth (Z.land flags ADJUST_NET) = true ->
  exists r a a' wa u u' wu,
    adjust_drbd inet_pton attach_ctx disk_ctx resource_ctx net_ctx pd_ctx c_standalone c_connecting c_connected
      ctx flags None initialize_deferred_cmds = Ok (r, a) /\
    run_deferred_cmds function (S fuel) p a w = Some (Ok 0, a', wa) /\
    adm_up ctx initialize_deferred_cmds = Ok u /\
    run_deferred_cmds function (S fuel) p u w = Some (Ok 0, u', wu) /\
    target <$> ran_cmds a' = target <$> ran_cmds u'.
Proof.
  intros Hfun Hctx Hconn Hvols Hdisk Hnet.
  destruct (adjust_fresh inet_pton attach_ctx disk_ctx resource_ctx net_ctx pd_ctx c_standalone c_connecting
    c_connected ctx flags Hctx Hdisk Hnet) as (r & a & Ha & Hfa).
  destruct (adm_up_fresh ctx) as (u & Hu & Hfu).
  { eapply Forall_impl; [exact (ts_pd _ Hctx)|]. by intros conn Hpd _ _. }
  destruct (fresh_run function fuel p (compared (ctx_res ctx)) a _ w Hfa) as (a' & wa & Hra & Hca).
  { eapply Forall_impl; [apply adjust_cmds_res|]. by intros c ->. }
  { eapply Forall_impl; [by apply adjust_cmds_called|]. intros c Hc. by apply well_called_succeeds. }
  pose proof (up_cmds_up ctx Hvols) as Hup.
  destruct (fresh_run function fuel p (ctx_res ctx) u _ w Hfu) as (u' & wu & Hru & Hcu).
  { eapply Forall_impl; [apply up_cmds_res|]. by intros c ->. }
  { eapply Forall_impl; [exact Hup|]. intros c [Hc _]. by apply well_called_succeeds. }
  rewrite cancel_waits_none in Hru.
  2: { eapply fresh_queue_nil; [exact Hfu|]. eapply Forall_impl; [exact Hup|]. by intros c [_ Hn]. }
  exists r, (cancel_deferred_waits (compared (ctx_res ctx)) a), a', wa, u, u', wu. split_and!; [done..|].
  rewrite Hca, Hcu, (no_waits_id (up_cmds ctx)); [by apply adjust_targets|].
  eapply Forall_impl; [exact Hup|]. by intros c [_ Hn].
Qed.

(** [example_resource] without the options of a device of its connection. *)
Definition start_ctx : cfg_ctx :=
  mk_cfg_ctx (plain_resource 1 "r0" [example_volume; example_diskless]
    [example_connection <| peer_devices := [mk_peer_device 0 []] |>; mk_connection 21 true false false 0 [] [] None []] [])
    None None None adjust_cmd.

Lemma adjust_starts_as_up_witness :
  exists r a a' wa u u' wu,
    adjust_drbd (fun _ _ => None) small_context small_context small_context small_context small_context 0 8 9
      start_ctx 7 None initialize_deferred_cmds = Ok (r, a) /\
    run_deferred_cmds (trace (fun _ => 0)) 1 false a [] = Some (Ok 0, a', wa) /\
    adm_up start_ctx initialize_deferred_cmds = Ok u /\
    run_deferred_cmds (trace (fun _ => 0)) 1 false u [] = Some (Ok 0, u', wu) /\
    target <$> ran_cmds a' = target <$> ran_cmds u'.
Proof.
  apply (adjust_starts_as_up (trace (fun _ => 0))).
  - intros c w. by eexists.
  - split; [done|done|by repeat constructor|by repeat constructor|by repeat constructor].
  - done.
  - by repeat constructor.
  - done.
  - done.
Defined.
