(* ===== verification/Argv.v ===== *)
(** * Command lines

    How drbdadm puts the command lines of drbdsetup and drbdmeta together
    (user/v9/drbdadm_main.c): the bounded array of arguments, the options of
    the configuration and the options given for the backend.

    An argument is a pointer, so that it may be NULL ([None]); the program that
    is started sees the arguments before the first NULL.  The fields of a
    context come from the drbd-headers submodule and are a parameter. *)

From S2P Require Import Prelude Machine SharedTool ConfigFlags Address AdmConfig.
From Stdlib Require Import Ascii String.
From stdpp Require Import strings.

#[local] Open Scope string_scope.
#[local] Open Scope list_scope.
#[local] Open Scope Z_scope.

Definition MAX_ARGS : Z := 40.

(** ** The array *)

Notation argument := (option string).

(** What becomes of a store behind the end of the array; C does not say. *)
Class Overrun := overrun : list argument -> argument -> res (list argument).

Section Array.
Context `{Hoverrun : !Overrun}.

(** [argv[argc] = arg], where [argc] arguments have been stored; the array is of
    [MAX_ARGS] pointers. *)
Definition store_arg (argv : list argument) (arg : argument) : res (list argument) :=
  if Z.of_nat (length argv) <? MAX_ARGS then Ok (argv ++ [arg]) else overrun argv arg.

(** [NA(argc)] *)
Definition NA (argc : Z) : res unit := if MAX_ARGS <=? argc then Exit E_THINKO else Ok ().

(** [argv[NA(argc)] = arg] *)
Definition add_arg (argv : list argument) (arg : argument) : res (list argument) :=
  NA (Z.of_nat (length argv));; store_arg argv arg.

Fixpoint add_args (argv args : list argument) : res (list argument) :=
  match args with
  | [] => Ok argv
  | arg :: args' => argv ← add_arg argv arg; add_args argv args'
  end.

(** What the program gets. *)
Fixpoint until_null (argv : list argument) : list string :=
  match argv with
  | Some a :: argv' => a :: until_null argv'
  | _ => []
  end.

(** The terminating NULL, and the arguments. *)
Definition terminate (argv : list argument) : res (list string) := until_null <$> add_arg argv None.

End Array.

(** [ssprintf("%d", x)] and [ssprintf("%u", x)] of an unsigned [int] *)
Definition show_int (x : Z) : string := show_d (s32 x) "".
Definition show_unsigned (x : Z) : string := show_u (u32 x) "".

Definition ssprintf_addr (a : d_address) : string :=
  if streq (af a) "ipv6" then af a +:+ ":[" +:+ addr a +:+ "]:" +:+ port a
  else af a +:+ ":" +:+ addr a +:+ ":" +:+ port a.

(** ** Options *)

(** The part of a string before the first [=]. *)
Fixpoint before_equals (s : string) : string :=
  match s with
  | EmptyString => ""
  | String c s' => if Ascii.eqb c "=" then "" else String c (before_equals s')
  end.

(** The text from its third character on; shorter texts have none. *)
Definition skip_dashes (s : string) : option string :=
  match s with
  | String _ (String _ s') => Some s'
  | _ => None
  end.

Definition find_backend_option (backend_options : list string) (opt_name : string) : option string :=
  List.find (fun o => String.prefix opt_name o) backend_options.

Definition find_field (options_def : option context_def) (name : string) : option field_def :=
  let name := match name with
              | String n (String o (String d rest)) =>
                  if (Ascii.eqb n "n" && Ascii.eqb o "o" && Ascii.eqb d "-")%bool then rest else name
              | _ => name
              end in
  match options_def with
  | None => None
  | Some ctx => List.find (fun field => String.eqb (fd_name field) name) (ctx_fields ctx)
  end.

Section Options.
Context `{Hoverrun : !Overrun} (fields_of : setup_context -> context_def) (backend_options : list string).

Definition is_valid_backend_option (name : string) (ctx : option setup_context) : bool :=
  match ctx with
  | Some wildcard_ctx => true
  | None => false
  | Some c =>
      match skip_dashes name with
      | None | Some EmptyString => false
      | Some rest => existsb (fun field => String.prefix (before_equals rest) (fd_name field)) (ctx_fields (fields_of c))
      end
  end.

Definition add_setup_options (argv : list argument) (ctx : option setup_context) : res (list argument) :=
  add_args argv (Some <$> List.filter (fun o => is_valid_backend_option o ctx) backend_options).

(** Whether a backend option stands for the option [name]; reading behind the
    end of an option of less than two characters is a [Fault]. *)
Fixpoint overridden (name : string) (options : list string) : res bool :=
  match options with
  | [] => Ok false
  | o :: options' =>
      match skip_dashes o with
      | None => Fault
      | Some rest => if String.prefix name rest then Ok true else overridden name options'
      end
  end.

(** [%.*s] *)
Definition with_precision (w : Z) (s : string) : string := if w <? 0 then s else String.substring 0 (Z.to_nat w) s.

Definition max_width (field : option field_def) : res Z :=
  match field with
  | Some f => if bool_decide (fd_ops f = fc_string) then u_s f else Ok 512
  | None => Ok 512
  end.

Definition make_option (argv : list argument) (opt : d_option) (ctx : option setup_context) : res (list argument) :=
  found ← overridden (o_name opt) backend_options;
  if found : bool then Ok argv
  else
    match o_value opt with
    | Some value =>
        w ← max_width (find_field (fields_of <$> ctx) (o_name opt));
        add_arg argv (Some ("--" +:+ o_name opt +:+ "=" +:+ with_precision w value))
    | None => add_arg argv (Some ("--" +:+ o_name opt))
    end.

Fixpoint make_options (argv : list argument) (opts : options) (ctx : option setup_context) : res (list argument) :=
  match opts with
  | [] => Ok argv
  | opt :: opts' => argv ← make_option argv opt ctx; make_options argv opts' ctx
  end.
End Options.

(** ** The array is not overrun *)

Definition fits (argv : list argument) : Prop := Z.of_nat (length argv) <= MAX_ARGS.

(** The guard and the store together. *)
Lemma add_arg_guarded `{!Overrun} argv arg :
  add_arg argv arg = if MAX_ARGS <=? Z.of_nat (length argv) then Exit E_THINKO else Ok (argv ++ [arg]).
Proof.
  unfold add_arg, NA, store_arg. rewrite Z.ltb_antisym. by destruct (MAX_ARGS <=? _).
Qed.

Lemma add_args_ok `{!Overrun} argv args : Z.of_nat (length (argv ++ args)) <= MAX_ARGS -> add_args argv args = Ok (argv ++ args).
Proof.
  revert argv. induction args as [|a args IH]; intros argv Hl; cbn [add_args]; [by rewrite app_nil_r|].
  rewrite add_arg_guarded. rewrite length_app in Hl. cbn [length] in Hl.
  rewrite (proj2 (Z.leb_gt _ _)) by lia. cbn [mbind res_bind]. rewrite IH; [by rewrite <- app_assoc|].
  rewrite !length_app. cbn [length]. lia.
Qed.

Lemma add_args_exit `{!Overrun} argv args :
  fits argv -> MAX_ARGS < Z.of_nat (length (argv ++ args)) -> add_args argv args = Exit E_THINKO.
Proof.
  unfold fits. revert argv. induction args as [|a args IH]; intros argv Hf Hl; cbn [add_args].
  { rewrite app_nil_r in Hl. lia. }
  rewrite add_arg_guarded. destruct (Z.leb_spec MAX_ARGS (Z.of_nat (length argv))); [done|]. cbn [mbind res_bind].
  apply IH; [rewrite length_app; cbn [length]; lia|]. by rewrite <- app_assoc.
Qed.

Lemma add_args_inv `{!Overrun} argv args argv' :
  add_args argv args = Ok argv' -> fits argv -> argv' = argv ++ args /\ fits argv'.
Proof.
  intros Ha Hf. destruct (Z.le_gt_cases (Z.of_nat (length (argv ++ args))) MAX_ARGS).
  - rewrite add_args_ok in Ha by done. by injection Ha as <-.
  - rewrite add_args_exit in Ha by (done || lia). done.
Qed.

Lemma length_until_null argv : (length (until_null argv) <= length argv)%nat.
Proof. induction argv as [|[a|] argv IH]; cbn; lia. Qed.

Lemma until_null_some l : until_null (Some <$> l) = l.
Proof. induction l as [|a l IH]; [done|]. cbn. by rewrite IH. Qed.

Lemma until_null_app l argv : until_null ((Some <$> l) ++ argv) = l ++ until_null argv.
Proof. induction l as [|a l IH]; [done|]. cbn. by rewrite IH. Qed.

Lemma terminate_inv `{!Overrun} argv l : terminate argv = Ok l -> l = until_null argv /\ Z.of_nat (length argv) < MAX_ARGS.
Proof.
  unfold terminate. rewrite add_arg_guarded. destruct (Z.leb_spec MAX_ARGS (Z.of_nat (length argv))); [done|]. cbn. intros [= <-].
  split; [|lia]. clear. induction argv as [|[a|] argv IH]; cbn; [done| |done]. by rewrite IH.
Qed.

Lemma terminate_short `{!Overrun} argv : Z.of_nat (length argv) < MAX_ARGS -> terminate argv = Ok (until_null argv).
Proof.
  intros Hl. unfold terminate. rewrite add_arg_guarded. rewrite (proj2 (Z.leb_gt _ _)) by lia. cbn. f_equal. clear.
  induction argv as [|[a|] argv IH]; cbn; [done| |done]. by rewrite IH.
Qed.
