(* ===== verification/Getopt.v ===== *)
(** * getopt_long

    The function of the C library that the tools parse their command lines
    with, as far as they use it: arguments may come in any order (the library
    moves options to the front), a long option may be abbreviated, and its
    value follows an equals sign or is the next argument.  The error messages
    are left out; after an error ([None]) the tools end. *)

From S2P Require Import Prelude Machine SharedTool ConfigFlags Argv.
From Stdlib Require Import Ascii String.
From stdpp Require Import strings.

#[local] Open Scope string_scope.
#[local] Open Scope list_scope.
#[local] Open Scope Z_scope.

Inductive has_arg_t := no_argument | required_argument | optional_argument.

#[export] Instance has_arg_eq_dec : EqDecision has_arg_t.
Proof. solve_decision. Defined.

(** [struct option]; [flag] is always NULL. *)
Record long_option := mk_long_option { lo_name : string; lo_has_arg : has_arg_t; lo_val : Z }.

(** What is returned for an option: the index of a long option or the letter
    of a short one, and [optarg]. *)
Inductive got :=
  | Long (longindex : nat) (optarg : option string)
  | Short (c : ascii) (optarg : option string).

(** The part of a string after the first [=], if there is one. *)
Fixpoint after_equals (s : string) : option string :=
  match s with
  | EmptyString => None
  | String c s' => if Ascii.eqb c "=" then Some s' else after_equals s'
  end.

Fixpoint find_index {A} (p : A -> bool) (l : list A) : option nat :=
  match l with
  | [] => None
  | x :: l' => if p x then Some 0%nat else S <$> find_index p l'
  end.

(** The option of this name, or the first one that has it as a prefix if all
    of those take arguments alike and have the same value. *)
Definition find_long (opts : list long_option) (name : string) : option nat :=
  match find_index (fun o => String.eqb (lo_name o) name) opts with
  | Some i => Some i
  | None =>
      let candidates := List.filter (fun o => String.prefix name (lo_name o)) opts in
      match candidates with
      | [] => None
      | c :: cs =>
          if forallb (fun o => bool_decide (lo_has_arg o = lo_has_arg c) && (lo_val o =? lo_val c)) cs
          then find_index (fun o => String.prefix name (lo_name o)) opts else None
      end
  end.

(** A cluster of short options: what was found, and the letter that takes the
    next argument. *)
Fixpoint short_cluster (shorts : list (ascii * has_arg_t)) (s : string) : option (list got * option ascii) :=
  match s with
  | EmptyString => Some ([], None)
  | String c s' =>
      match List.find (fun x => Ascii.eqb x.1 c) shorts with
      | None => None
      | Some (_, no_argument) => '(l, n) ← short_cluster shorts s'; Some (Short c None :: l, n)
      | Some (_, required_argument) =>
          if String.eqb s' "" then Some ([], Some c) else Some ([Short c (Some s')], None)
      | Some (_, optional_argument) => Some ([Short c (if String.eqb s' "" then None else Some s')], None)
      end
  end.

(** The kind of an argument. *)
Inductive arg_kind := Terminator | LongArg (text : string) | ShortArg (text : string) | Plain.

Definition kind_of (arg : string) : arg_kind :=
  match arg with
  | String c1 (String c2 rest) =>
      if Ascii.eqb c1 "-" then
        if Ascii.eqb c2 "-" then (if String.eqb rest "" then Terminator else LongArg rest)
        else ShortArg (String c2 rest)
      else Plain
  | _ => Plain
  end.

(** The options and the other arguments. *)
Fixpoint getopt_long (shorts : list (ascii * has_arg_t)) (opts : list long_option) (args : list string) :
    option (list got * list string) :=
  match args with
  | [] => Some ([], [])
  | arg :: args' =>
      match kind_of arg with
      | Terminator => Some ([], args')
      | Plain => '(l, plain) ← getopt_long shorts opts args'; Some (l, arg :: plain)
      | LongArg text =>
          i ← find_long opts (before_equals text);
          o ← opts !! i;
          match lo_has_arg o, after_equals text with
          | no_argument, Some _ => None
          | required_argument, None =>
              match args' with
              | [] => None
              | value :: args'' => '(l, plain) ← getopt_long shorts opts args''; Some (Long i (Some value) :: l, plain)
              end
          | _, value => '(l, plain) ← getopt_long shorts opts args'; Some (Long i value :: l, plain)
          end
      | ShortArg text =>
          '(found, next) ← short_cluster shorts text;
          match next, args' with
          | None, _ => '(l, plain) ← getopt_long shorts opts args'; Some (found ++ l, plain)
          | Some _, [] => None
          | Some c, value :: args'' =>
              '(l, plain) ← getopt_long shorts opts args'';
              Some (found ++ Short c (Some value) :: l, plain)
          end
      end
  end.

(** ** Command lines with full names *)

(** An argument of a command line that gives options by their names, with their
    values in the same argument. *)
Inductive item := WithValue (name value : string) | Alone (name : string) | Positional (text : string).

Definition render (x : item) : string :=
  match x with
  | WithValue name value => "--" +:+ name +:+ "=" +:+ value
  | Alone name => "--" +:+ name
  | Positional text => text
  end.

(** Names of options have no equals sign, and are not empty. *)
Definition option_name (name : string) : Prop := name <> "" /\ after_equals name = None.

Definition plain_text (text : string) : Prop := kind_of text = Plain.

Section Items.
Context (opts : list long_option).

(** [i]: the index of the option; what is given for it is what it takes. *)
Inductive understood : item -> option got -> Prop :=
  | understood_value name value i o :
      find_index (fun o => String.eqb (lo_name o) name) opts = Some i -> opts !! i = Some o ->
      option_name name -> lo_has_arg o <> no_argument ->
      understood (WithValue name value) (Some (Long i (Some value)))
  | understood_alone name i o :
      find_index (fun o => String.eqb (lo_name o) name) opts = Some i -> opts !! i = Some o ->
      option_name name -> lo_has_arg o <> required_argument ->
      understood (Alone name) (Some (Long i None))
  | understood_plain text : plain_text text -> understood (Positional text) None.

Definition positional (x : item) : option string := match x with Positional text => Some text | _ => None end.

Lemma before_equals_app name value : after_equals name = None -> before_equals (name +:+ String "=" value) = name.
Proof using.
  induction name as [|c name IH]; intros Hn; [done|]. change (String c name +:+ ?t) with (String c (name +:+ t)).
  cbn in *. destruct (Ascii.eqb c "="); [done|]. by rewrite IH.
Qed.

Lemma after_equals_app name value : after_equals name = None -> after_equals (name +:+ String "=" value) = Some value.
Proof using.
  induction name as [|c name IH]; intros Hn; [done|]. change (String c name +:+ ?t) with (String c (name +:+ t)).
  cbn in *. destruct (Ascii.eqb c "="); [done|]. by apply IH.
Qed.

Lemma before_equals_none name : after_equals name = None -> before_equals name = name.
Proof using.
  induction name as [|c name IH]; intros Hn; [done|]. cbn in *. destruct (Ascii.eqb c "="); [done|]. by rewrite IH.
Qed.

Lemma kind_of_long name rest : name <> "" -> kind_of ("--" +:+ name +:+ rest) = LongArg (name +:+ rest).
Proof using. by destruct name. Qed.

(** Items in any order are parsed into their options and the other arguments. *)
Lemma getopt_items shorts items gots :
  Forall2 understood items gots ->
  getopt_long shorts opts (render <$> items) = Some (omap id gots, omap positional items).
Proof using.
  induction 1 as [|x g items gots Hx _ IH]; [done|].
  destruct Hx as [name value i o Hi Ho [Hne Hname] Harg|name i o Hi Ho [Hne Hname] Harg|text Hplain];
    cbn [fmap list_fmap render getopt_long omap list_omap positional id].
  - rewrite kind_of_long by done. change ("=" +:+ value) with (String "=" value). rewrite before_equals_app, after_equals_app by done.
    unfold find_long. rewrite Hi. cbn [mbind option_bind]. rewrite Ho. cbn [mbind option_bind]. rewrite IH.
    by destruct (lo_has_arg o).
  - assert (kind_of ("--" +:+ name) = LongArg name) as -> by by destruct name.
    rewrite (before_equals_none _ Hname), Hname. unfold find_long. rewrite Hi. cbn [mbind option_bind].
    rewrite Ho. cbn [mbind option_bind]. rewrite IH. by destruct (lo_has_arg o).
  - rewrite Hplain, IH. done.
Qed.
End Items.
