(* ===== verification/Numerals.v ===== *)
(** * Numbers on command lines

    What the tools print with %u or %d is read back by the functions they parse
    arguments with (user/shared/shared_tool.c and the C library). *)

From S2P Require Import Prelude Machine SharedTool ConfigFlags Argv Getopt.
From Stdlib Require Import Ascii String.
From stdpp Require Import strings.

#[local] Open Scope string_scope.
#[local] Open Scope list_scope.
#[local] Open Scope Z_scope.

Lemma strtol_show_u n rest :
  0 <= n < 2 ^ 63 -> ends_number 10 rest = true -> strtol (show_u n rest) 10 = (n, rest, false).
Proof.
  intros Hn Hr. unfold show_u. destruct (all_digits_fixed 10 20 n rest) as (k & Hk & Hnk & ->); [lia|lia|].
  unfold strtol. rewrite scan_number_digits by (try done; lia). rewrite Z.mod_small by lia.
  rewrite (proj2 (Z.ltb_ge _ _)) by lia. by rewrite (proj2 (Z.ltb_ge _ _)) by lia.
Qed.

Lemma digit_char_isdigit d : 0 <= d < 10 -> isdigit (digit_char d) = true.
Proof.
  intros Hd. assert (d = 0 \/ d = 1 \/ d = 2 \/ d = 3 \/ d = 4 \/ d = 5 \/ d = 6 \/ d = 7 \/ d = 8 \/ d = 9) as H by lia.
  destruct H as [->|[->|[->|[->|[->|[->|[->|[->|[-> | ->]]]]]]]]]; done.
Qed.

Lemma all_chars_digits k n tail :
  0 <= n -> all_chars isdigit tail = true -> all_chars isdigit (fixed_digits 10 k n tail) = true.
Proof.
  revert n tail. induction k as [|k IH]; intros n tail Hn Ht; [done|]. cbn [fixed_digits].
  apply IH; [apply Z.div_pos; lia|]. cbn [all_chars]. rewrite Ht, digit_char_isdigit; [done|].
  apply Z.mod_pos_bound. lia.
Qed.

Lemma show_u_digits n : in_u64 n -> only_digits (show_u n "") = true.
Proof.
  intros Hn. destruct (show_u_cons n "") as (c & s & Hs). unfold only_digits. rewrite Hs, <- Hs. unfold show_u.
  destruct (all_digits_fixed 10 20 n "") as (k & _ & _ & ->); [lia|solve_int|]. apply all_chars_digits; [solve_int|done].
Qed.

Lemma digits_plain s : only_digits s = true -> plain_text s.
Proof.
  destruct s as [|c1 s]; [done|]. unfold plain_text, kind_of. destruct s as [|c2 s]; [done|].
  intros [Hc _]%andb_true_iff. destruct (Ascii.eqb_spec c1 "-") as [->|]; done.
Qed.

Lemma show_u_plain n : in_u64 n -> plain_text (show_u n "").
Proof. intros Hn. by apply digits_plain, show_u_digits. Qed.

Lemma new_strtoll_show_u n : in_u64 n -> new_strtoll (show_u n "") (ascii_of_nat 1) = (MSE_OK, n).
Proof.
  intros Hn. unfold new_strtoll. change (def_unit_shift (ascii_of_nat 1)) with (Some 0).
  rewrite scanf_show_u by done. by destruct (show_u_cons n "") as (c & s & ->).
Qed.

Lemma show_int_nonneg n : 0 <= n < 2 ^ 31 -> show_int n = show_u n "".
Proof.
  intros Hn. unfold show_int, show_d. rewrite s32_id by solve_int. by rewrite (proj2 (Z.ltb_ge _ _)) by lia.
Qed.

Lemma show_unsigned_id n : in_u32 n -> show_unsigned n = show_u n "".
Proof. intros Hn. unfold show_unsigned. by rewrite u32_id. Qed.

Lemma substring_all n s : (String.length s <= n)%nat -> String.substring 0 n s = s.
Proof.
  revert n. induction s as [|c s IH]; intros n Hn; [by destruct n|]. destruct n as [|n]; cbn in Hn; [lia|].
  cbn. rewrite IH by lia. done.
Qed.
