(* ===== verification/Contexts.v ===== *)
(** * The options of the commands

    The tables of user/v9/config_flags.c: which options belong to the context
    of a command, and whether they may be given without an argument.  The rest
    of a field - its attribute, its class with limits and default - comes from
    macros of the drbd-headers submodule, so that the fields are a parameter;
    [Contexts] states that they are those of the tables. *)

From S2P Require Import Prelude Machine Nla SharedTool ConfigFlags AdmConfig Argv.
From Stdlib Require Import Ascii String.
From stdpp Require Import strings.

#[local] Open Scope string_scope.
#[local] Open Scope list_scope.
#[local] Open Scope Z_scope.

(** ** The tables *)

(** A truth value or a flag may be given without an argument. *)
Definition BOOLEAN (name : string) : string * bool := (name, true).
Definition VALUE (name : string) : string * bool := (name, false).

Definition CHANGEABLE_DISK_OPTIONS : list (string * bool) :=
  [VALUE "on-io-error"; BOOLEAN "disk-barrier"; BOOLEAN "disk-flushes"; BOOLEAN "disk-drain"; BOOLEAN "md-flushes";
   VALUE "resync-after"; VALUE "al-extents"; BOOLEAN "al-updates"; BOOLEAN "discard-zeroes-if-aligned";
   BOOLEAN "disable-write-same"; VALUE "disk-timeout"; VALUE "read-balancing"; VALUE "rs-discard-granularity";
   BOOLEAN "bitmap"].

Definition CHANGEABLE_NET_OPTIONS : list (string * bool) :=
  [VALUE "protocol"; VALUE "timeout"; VALUE "max-epoch-size"; VALUE "connect-int"; VALUE "ping-int";
   VALUE "sndbuf-size"; VALUE "rcvbuf-size"; VALUE "ko-count"; BOOLEAN "allow-two-primaries"; VALUE "cram-hmac-alg";
   VALUE "shared-secret"; VALUE "after-sb-0pri"; VALUE "after-sb-1pri"; VALUE "after-sb-2pri"; BOOLEAN "always-asbp";
   VALUE "rr-conflict"; VALUE "ping-timeout"; VALUE "data-integrity-alg"; BOOLEAN "tcp-cork"; VALUE "on-congestion";
   VALUE "congestion-fill"; VALUE "congestion-extents"; VALUE "csums-alg"; BOOLEAN "csums-after-crash-only";
   VALUE "verify-alg"; BOOLEAN "use-rle"; VALUE "socket-check-timeout"; VALUE "fencing"; VALUE "max-buffers";
   BOOLEAN "allow-remote-read"; BOOLEAN "tls"; VALUE "tls-keyring"; VALUE "tls-privkey"; VALUE "tls-certificate";
   VALUE "rdma-ctrl-rcvbuf-size"; VALUE "rdma-ctrl-sndbuf-size"; VALUE "_name"].

Definition IMMUTABLE_NET_OPTIONS : list (string * bool) := [VALUE "transport"; BOOLEAN "load-balance-paths"].

Definition CONNECT_CMD_OPTIONS : list (string * bool) := [BOOLEAN "tentative"; BOOLEAN "discard-my-data"].

Definition INVALIDATE_OPTIONS : list (string * bool) := [VALUE "sync-from-peer-node-id"; BOOLEAN "reset-bitmap"].

Definition context_table (c : setup_context) : list (string * bool) :=
  match c with
  | disk_options_ctx => CHANGEABLE_DISK_OPTIONS
  | net_options_ctx => CHANGEABLE_NET_OPTIONS
  | primary_cmd_ctx | secondary_cmd_ctx => [BOOLEAN "force"]
  | attach_cmd_ctx => VALUE "size" :: CHANGEABLE_DISK_OPTIONS
  | detach_cmd_ctx => [BOOLEAN "force"; BOOLEAN "diskless"]
  | new_peer_cmd_ctx => IMMUTABLE_NET_OPTIONS ++ CHANGEABLE_NET_OPTIONS
  | path_cmd_ctx => []
  | connect_cmd_ctx => CONNECT_CMD_OPTIONS
  | disconnect_cmd_ctx => [BOOLEAN "force"]
  | resize_cmd_ctx =>
      [VALUE "size"; BOOLEAN "assume-peer-has-space"; BOOLEAN "assume-clean"; VALUE "al-stripes";
       VALUE "al-stripe-size-kB"]
  | resource_options_ctx =>
      [VALUE "cpu-mask"; VALUE "on-no-data-accessible"; BOOLEAN "auto-promote"; VALUE "peer-ack-window";
       VALUE "peer-ack-delay"; VALUE "twopc-timeout"; VALUE "twopc-retry-timeout"; VALUE "auto-promote-timeout";
       VALUE "max-io-depth"; VALUE "quorum"; VALUE "on-no-quorum"; VALUE "quorum-minimum-redundancy";
       VALUE "on-suspended-primary-outdated"; BOOLEAN "drbd8-api-compatibility"]
  | new_current_uuid_cmd_ctx => [BOOLEAN "clear-bitmap"; BOOLEAN "force-resync"]
  | verify_cmd_ctx => [VALUE "start"; VALUE "stop"]
  | device_options_ctx => [VALUE "max-bio-size"; BOOLEAN "diskless"; VALUE "block-size"; VALUE "discard-granularity"]
  | invalidate_ctx => INVALIDATE_OPTIONS
  | invalidate_adm_ctx => BOOLEAN "force" :: INVALIDATE_OPTIONS
  | invalidate_peer_ctx => [BOOLEAN "reset-bitmap"]
  | suspend_io_ctx => [BOOLEAN "bdev-freeze"]
  | peer_device_options_ctx =>
      [VALUE "resync-rate"; VALUE "c-plan-ahead"; VALUE "c-delay-target"; VALUE "c-fill-target"; VALUE "c-max-rate";
       VALUE "c-min-rate"; BOOLEAN "bitmap"; BOOLEAN "resync-without-replication"; BOOLEAN "peer-tiebreaker"]
  | create_md_ctx =>
      [VALUE "max-peers"; VALUE "peer-max-bio-size"; VALUE "al-stripes"; VALUE "al-stripe-size-kB"; BOOLEAN "force";
       VALUE "effective-size"; VALUE "bitmap-block-size"; VALUE "diskful-peers"; VALUE "initial-current-uuid";
       BOOLEAN "consistent"; BOOLEAN "uptodate"; BOOLEAN "peers-outdated"; BOOLEAN "rotate-uuids"]
  | forceable_ctx => [BOOLEAN "force"; BOOLEAN "quiet"]
  | dump_superblock_ctx => [BOOLEAN "force"; VALUE "output-format"; BOOLEAN "quiet"]
  | adjust_ctx => [BOOLEAN "skip-disk"; BOOLEAN "skip-net"] ++ CONNECT_CMD_OPTIONS
  | status_ctx => [BOOLEAN "statistics"]
  | repair_md_ctx => [BOOLEAN "tentative"; BOOLEAN "force"; BOOLEAN "quiet"]
  | wildcard_ctx => []
  end.

(** The fields, as far as they are in the sources. *)
Class Contexts := {
  fields_of : setup_context -> context_def;
  fields_table c : (fun f => (fd_name f, argument_is_optional f)) <$> ctx_fields (fields_of c) = context_table c
}.

Lemma field_names `{Contexts} c : fd_name <$> ctx_fields (fields_of c) = (context_table c).*1.
Proof. by rewrite <- fields_table, <- list_fmap_compose. Qed.

Lemma context_names_NoDup c : NoDup (context_table c).*1.
Proof. destruct c; apply (bool_decide_unpack _); by vm_compute. Qed.

Lemma fields_NoDup `{Contexts} c : NoDup (fd_name <$> ctx_fields (fields_of c)).
Proof. rewrite field_names. apply context_names_NoDup. Qed.

(** Fields with the names of the tables, of one class. *)
Definition text_field (i : nat) (x : string * bool) : field_def :=
  mk_field_def x.1 (Z.of_nat i + 1) fc_string (U_s 512) true x.2 false false None.

Definition text_context (table : list (string * bool)) : context_def :=
  mk_context_def (mk_nla_policy 0 0 :: repeat (mk_nla_policy NLA_NUL_STRING 512) (length table)) 1 (imap text_field table).

#[refine] Definition text_contexts : Contexts := {| fields_of c := text_context (context_table c) |}.
Proof.
  intros c. cbn [ctx_fields text_context]. rewrite fmap_imap. apply list_eq. intros i. rewrite list_lookup_imap.
  by destruct (context_table c !! i) as [[]|].
Defined.
