(* ===== verification/AdmCommands.v ===== *)
(** * The commands of drbdadm

    What the commands of drbdadm do with the parts of the configuration they
    are called for (user/v9/drbdadm_main.c): the command lines of drbdsetup and
    drbdmeta they build, the order in which they start them and what they make
    of the exit codes.  [cmd_function] is the member [function] of a command,
    for the commands that do not schedule others.

    Parameters are what the commands depend on besides their context: the
    options of drbdadm, the backend options, and the system, with the state
    [W] - starting a program ([m_system_ex], also with its stderr read from a
    pipe), the size of a device in sysfs, sleeping, and the registration of
    minors and resources.  What is printed is left out.

    [adm_new_peer] removes the option transport from a connection for good; as
    only the commands that remove it again read these options later, it does
    not show in the model. *)

From S2P Require Import Prelude Machine SharedTool ConfigFlags Address AdmConfig Argv Deferred.
From Stdlib Require Import Ascii String.
From stdpp Require Import strings.

#[local] Open Scope string_scope.
#[local] Open Scope list_scope.
#[local] Open Scope Z_scope.

(** ** Actions *)

(** A change of the world [W] with an outcome. *)
Definition act (W A : Type) : Type := W -> res A * W.

#[export] Instance act_ret {W} : MRet (act W) := fun A a w => (Ok a, w).

#[export] Instance act_bind {W} : MBind (act W) := fun A B k m w =>
  match m w with
  | (Ok a, w) => k a w
  | (Exit c, w) => (Exit c, w)
  | (Abort, w) => (Abort, w)
  | (Fault, w) => (Fault, w)
  end.

Definition of_res {W A} (r : res A) : act W A := fun w => (r, w).
Definition observe {W A} (f : W -> A) : act W A := fun w => (Ok (f w), w).
Definition of_state {W A} (f : W -> A * W) : act W A := fun w => let '(a, w) := f w in (Ok a, w).

(** Following a pointer. *)
Definition need {A} (o : option A) : res A := match o with Some a => Ok a | None => Fault end.

Definition SLEEPS_SHORT : Z := 2 + 1.
Definition SLEEPS_LONG : Z := 4 + 1.
Definition SLEEPS_VERY_LONG : Z := 8 + 1.
Definition SLEEPS_FOREVER : Z := 4.
Definition SUPRESS_STDERR : Z := 0x10.
Definition RETURN_STDERR_FD : Z := 0x40.

Section Commands.
Context `{Hoverrun : !Overrun}.
Context (fields_of : setup_context -> context_def).
Context (drbdsetup drbdmeta : string) (backend_options : list string).
Context (dry_run is_drbd_top do_register : bool) (verbose : Z).
Context {W : Type} (m_system_ex : list string -> Z -> act W Z).
Context (stderr_status : list string -> Z -> act W (option Z * bool)).
Context (read_drbd_dev_size : Z -> W -> Z) (usleep : W -> W).
Context (register_minor : Z -> W -> W) (register_resource : string -> W -> W).

Local Notation add_setup_options := (add_setup_options fields_of backend_options).
Local Notation make_options := (make_options fields_of backend_options).

(** Starting what has been put together. *)
Definition start (argv : res (list string)) (flags : Z) : act W Z := argv ← of_res argv; m_system_ex argv flags.

Definition command_of (ctx : cfg_ctx) : adm_cmd := adm_cmd_of (ctx_cmd ctx).
Definition ctx_name (ctx : cfg_ctx) : argument := Some (cmd_name (command_of ctx)).
Definition setup_ctx (ctx : cfg_ctx) : option setup_context := drbdsetup_ctx (command_of ctx).

(** [ctx->conn->peer->node_id] *)
Definition peer_node_id (ctx : cfg_ctx) : res argument :=
  conn ← need (ctx_conn ctx);
  p ← need (peer conn);
  Ok (node_id p).

Definition is_internal (meta : string) : bool := streq meta "internal".

(** ** drbdmeta *)

Definition is_set_gi_single_node (ctx : cfg_ctx) : bool :=
  bool_decide (ctx_cmd ctx = set_gi_cmd) && bool_decide (length (all_hosts (ctx_res ctx)) = 1%nat).

Definition peer_diskless (p : d_host_info) (pd : peer_device) : bool :=
  match volume_by_vnr (host_volumes p) (pd_vnr pd) with
  | Some vol => bool_decide (disk vol = None)
  | None => false
  end.

(** [snprintf] into a buffer of 120 bytes, with the assertion after it. *)
Definition append_120 (buf text : string) : res string :=
  if (0 <? Z.of_nat (String.length text)) && (Z.of_nat (String.length buf + String.length text) <? 120)
  then Ok (buf +:+ text) else Abort.

(** The loop over the connections: the buffer, and whether a peer was found. *)
Fixpoint append_peers (n : Z) (conns : list connection) (buf : string) (sep : ascii) : res (string * ascii) :=
  match conns with
  | [] => Ok (buf, sep)
  | conn :: conns' =>
      if conn_ignore conn then append_peers n conns' buf sep
      else
        match find_peer_device conn n with
        | None => append_peers n conns' buf sep
        | Some pd =>
            p ← need (peer conn);
            if peer_diskless p pd then append_peers n conns' buf sep
            else
              buf ← append_120 buf (String sep (str_or_null (node_id p)));
              append_peers n conns' buf ","%char
        end
  end.

Definition has_option (name : string) : bool := bool_decide (is_Some (find_backend_option backend_options name)).

Definition add_diskful_peers (ctx : cfg_ctx) (vol : d_volume) (argv : list argument) : res (list argument) :=
  if streq "create-md" (cmd_name (command_of ctx)) && has_option "--effective-size" &&
     negb (has_option "--diskful-peers")
  then
    buf ← append_120 "" "--diskful-peers";
    '(buf, sep) ← append_peers (vnr vol) (connections (ctx_res ctx)) buf "="%char;
    if Ascii.eqb sep "=" then Ok argv else add_arg argv (Some buf)
  else Ok argv.

(** The device with the meta data, and the index. *)
Definition meta_device (vol : d_volume) : res argument :=
  meta ← match meta_disk vol with Some m => Ok m | None => Abort end;
  assert_res (negb (streq meta ""));;
  if is_internal meta then
    d ← match disk vol with Some d => Ok d | None => Abort end;
    assert_res (negb (streq d ""));;
    Ok (Some d)
  else Ok (Some meta).

Definition meta_index_arg (vol : d_volume) : res argument :=
  index ← need (meta_index vol);
  if streq index "flexible" then
    meta ← need (meta_disk vol);
    Ok (Some (if is_internal meta then "flex-internal" else "flex-external"))
  else Ok (Some index).

Definition node_id_arg (ctx : cfg_ctx) : res argument :=
  id ← (if is_set_gi_single_node ctx then Ok (me_node_id (ctx_res ctx)) else peer_node_id ctx);
  Ok (Some ("--node-id=" +:+ str_or_null id)).

Definition drbdmeta_args (ctx : cfg_ctx) (argument : argument) : res (list string) :=
  vol ← need (ctx_vol ctx);
  argv ← add_args [] [Some drbdmeta; Some (show_int (device_minor vol)); Some "v09"];
  dev ← meta_device vol;
  argv ← add_arg argv dev;
  index ← meta_index_arg vol;
  argv ← add_arg argv index;
  argv ← (if need_peer (command_of ctx) then id ← node_id_arg ctx; add_arg argv id else Ok argv);
  argv ← add_arg argv (ctx_name ctx);
  argv ← (if argument then add_arg argv argument else Ok argv);
  argv ← (if streq (cmd_name (command_of ctx)) "dump-superblock" && negb (has_option "--output-format")
          then add_arg argv (Some "--output-format=json") else Ok argv);
  argv ← add_setup_options argv (setup_ctx ctx);
  argv ← add_diskful_peers ctx vol argv;
  terminate argv.

Definition _adm_drbdmeta (ctx : cfg_ctx) (flags : Z) (argument : argument) : act W Z :=
  start (drbdmeta_args ctx argument) flags.

Definition adm_drbdmeta (ctx : cfg_ctx) : act W Z := _adm_drbdmeta ctx SLEEPS_VERY_LONG None.

(** ** drbdsetup *)

(** [cmd]: the command as it is called, which may have other flags. *)
Definition drbdsetup_args (cmd : adm_cmd) (ctx : cfg_ctx) : res (list string) :=
  argv ← add_args [] [Some drbdsetup; Some (cmd_name cmd)];
  argv ← (if backend_res_name cmd then add_arg argv (Some (res_name (ctx_res ctx))) else Ok argv);
  argv ← (if need_peer cmd then id ← peer_node_id ctx; add_arg argv id else Ok argv);
  argv ← match ctx_vol ctx with
         | None => Ok argv
         | Some vol =>
             argv ← (if bool_decide (ctx_cmd ctx = detach_cmd /\ device vol = None)
                     then add_arg argv (Some "--diskless") else Ok argv);
             add_arg argv (Some (show_int (if need_peer cmd && iterate_volumes cmd then vnr vol else device_minor vol)))
         end;
  argv ← (if bool_decide (ctx_cmd ctx = status_cmd)
          then add_args argv (repeat (Some "--verbose") (Z.to_nat verbose)) else Ok argv);
  argv ← add_setup_options argv (drbdsetup_ctx cmd);
  argv ← match ctx_conn ctx with
         | Some _ =>
             if bool_decide (ctx_cmd ctx = invalidate_setup_cmd) then
               id ← peer_node_id ctx;
               add_arg argv (Some ("--sync-from-peer-node-id=" +:+ str_or_null id))
             else Ok argv
         | None => Ok argv
         end;
  terminate argv.

Definition _adm_drbdsetup (ctx : cfg_ctx) (flags : Z) : act W Z := start (drbdsetup_args (command_of ctx) ctx) flags.

Definition adm_drbdsetup (ctx : cfg_ctx) : act W Z :=
  _adm_drbdsetup ctx (if takes_long (command_of ctx) then SLEEPS_LONG else SLEEPS_SHORT).

Definition adm_role (ctx : cfg_ctx) : act W Z :=
  adm_drbdsetup (if ctx_conn ctx then with_cmd ctx peer_role_cmd else ctx).

(** The exit code while stderr is read; that of a program that has not exited
    is 0, and 0x100 after the alarm. *)
Definition __adm_drbdsetup_silent (cmd : adm_cmd) (ctx : cfg_ctx) : act W Z :=
  argv ← of_res (drbdsetup_args cmd ctx);
  '(code, alarm_raised) ← stderr_status argv (Z.lor SLEEPS_SHORT RETURN_STDERR_FD);
  mret (if dry_run then 0 else if alarm_raised : bool then 0x100 else default 0 code).

Definition adm_outdate (ctx : cfg_ctx) : act W Z :=
  rv ← _adm_drbdsetup ctx (Z.lor SLEEPS_SHORT SUPRESS_STDERR);
  if rv =? 17 then mret rv
  else if rv =? 5 then
    rv ← adm_drbdmeta ctx;
    mret (if truth rv then 5 else rv)
  else if truth rv || dry_run then adm_drbdmeta ctx
  else mret rv.

Definition backing_device_configured (ctx : cfg_ctx) : bool :=
  match ctx_vol ctx with
  | Some vol => bool_decide (disk vol <> None /\ meta_disk vol <> None)
  | None => false
  end.

Definition adm_setup_and_meta (ctx : cfg_ctx) : act W Z :=
  let cmd := command_of ctx in
  let cmd := if bool_decide (drbdsetup_ctx cmd = Some forceable_ctx) then cmd <| drbdsetup_ctx := None |> else cmd in
  rv ← __adm_drbdsetup_silent cmd ctx;
  if (rv =? 11) || (rv =? 17) || negb (backing_device_configured ctx) then mret rv
  else if truth rv || dry_run then adm_drbdmeta ctx
  else mret rv.

(** ** Calling a command *)

Section Call.
Context (function : cfg_ctx -> act W Z).

Definition call_cmd_fn (cmd : cmd_object) (ctx : cfg_ctx) (on_error : on_error_t) : act W Z :=
  __call_cmd_fn function (with_cmd ctx cmd) on_error.

(** Until a call gives something else than 0. *)
Fixpoint until_error {A} (f : A -> act W Z) (l : list A) (ret : Z) : act W Z :=
  match l with
  | [] => mret ret
  | x :: l' => ret ← f x; if truth ret then mret ret else until_error f l' ret
  end.

(** [set_peer_in_resource] has found the peers before. *)
Definition call_cmd (cmd : cmd_object) (ctx : cfg_ctx) (on_error : on_error_t) : act W Z :=
  let c := adm_cmd_of cmd in
  let iterate_vols := bool_decide (ctx_vol ctx = None) && iterate_volumes c in
  let iterate_conns := bool_decide (ctx_conn ctx = None) && need_peer c in
  let ctx := with_cmd ctx cmd in
  let vols := me_volumes (ctx_res ctx) in
  let conns := List.filter (fun conn => negb (conn_ignore conn)) (connections (ctx_res ctx)) in
  let call v k := __call_cmd_fn function (mk_cfg_ctx (ctx_res ctx) v k (ctx_path ctx) cmd) on_error in
  if iterate_vols && iterate_conns then
    until_error (fun '(vol, conn) => call (Some vol) (Some conn)) (list_prod vols conns) 0
  else if iterate_vols then until_error (fun vol => call (Some vol) (ctx_conn ctx)) vols 0
  else if iterate_conns then
    if is_set_gi_single_node ctx then __call_cmd_fn function ctx on_error
    else until_error (fun conn => call (ctx_vol ctx) (Some conn)) conns 0
  else __call_cmd_fn function ctx on_error.
End Call.

(** Commands for drbdsetup that fall back to drbdmeta. *)
Definition silent_function (ctx : cfg_ctx) : act W Z := __adm_drbdsetup_silent (command_of ctx) ctx.

Definition adm_invalidate (ctx : cfg_ctx) : act W Z :=
  rv ← call_cmd silent_function invalidate_setup_cmd ctx KEEP_RUNNING;
  if (rv =? 11) || (rv =? 17) then mret rv
  else if truth rv || dry_run then call_cmd adm_drbdmeta invalidate_meta_cmd ctx KEEP_RUNNING
  else mret rv.

Definition adm_forget_peer (ctx : cfg_ctx) : act W Z :=
  rv ← call_cmd silent_function forget_peer_setup_cmd ctx KEEP_RUNNING;
  if (rv =? 11) || (rv =? 17) then mret rv
  else if truth rv || dry_run then call_cmd adm_drbdmeta forget_peer_meta_cmd ctx KEEP_RUNNING
  else mret rv.

(** ** Attaching *)

Definition attach_args (ctx : cfg_ctx) : res (list string) :=
  let do_attach := bool_decide (ctx_cmd ctx = attach_cmd) in
  let reset := bool_decide (ctx_cmd ctx = disk_options_defaults_cmd \/ ctx_cmd ctx = disk_options_early_defaults_cmd) in
  vol ← need (ctx_vol ctx);
  argv ← add_args [] [Some drbdsetup; ctx_name ctx; Some (show_int (device_minor vol))];
  argv ← (if do_attach then
            match disk vol, meta_disk vol with
            | Some d, Some meta =>
                assert_res (negb (streq d ""));;
                assert_res (negb (streq meta ""));;
                add_args argv [Some d; Some (if is_internal meta then d else meta); meta_index vol]
            | _, _ => Abort
            end
          else Ok argv);
  argv ← (if reset then
            argv ← add_arg argv (Some "--set-defaults");
            make_options argv (List.filter (fun o => negb (o_adj_skip o)) (disk_options vol)) (setup_ctx ctx)
          else make_options argv (disk_options vol) (setup_ctx ctx));
  argv ← add_setup_options argv (setup_ctx ctx);
  terminate argv.

Definition adm_attach (ctx : cfg_ctx) : act W Z :=
  let attach := start (attach_args ctx) SLEEPS_LONG in
  if bool_decide (ctx_cmd ctx = attach_cmd) then
    rv ← call_cmd_fn adm_drbdmeta repair_md_cmd ctx KEEP_RUNNING;
    if truth rv then mret rv
    else
      rv ← call_cmd_fn adm_drbdmeta apply_al_cmd ctx KEEP_RUNNING;
      if truth rv then mret rv else attach
  else attach.

(** ** Minors and resources *)

Definition new_minor_args (ctx : cfg_ctx) : res (list string) :=
  vol ← need (ctx_vol ctx);
  argv ← add_args [] [Some drbdsetup; Some "new-minor"; Some (res_name (ctx_res ctx));
                      Some (show_unsigned (device_minor vol)); Some (show_unsigned (vnr vol))];
  argv ← (if disk vol then Ok argv else add_arg argv (Some "--diskless"));
  argv ← make_options argv (device_options vol) (setup_ctx ctx);
  terminate argv.

Definition register_if (b : bool) (f : W -> W) : act W () := of_state (fun w => ((), if b then f w else w)).

Definition adm_new_minor (ctx : cfg_ctx) : act W Z :=
  vol ← of_res (need (ctx_vol ctx));
  ex ← start (new_minor_args ctx) SLEEPS_SHORT;
  register_if ((ex =? 0) && do_register) (register_minor (device_minor vol));;
  mret ex.

Definition resource_args (ctx : cfg_ctx) : res (list string) :=
  let do_new_resource := bool_decide (ctx_cmd ctx = new_resource_cmd) in
  let reset := bool_decide (ctx_cmd ctx = res_options_defaults_cmd) in
  argv ← add_args [] [Some drbdsetup; ctx_name ctx; Some (res_name (ctx_res ctx))];
  argv ← (if do_new_resource then add_arg argv (me_node_id (ctx_res ctx)) else Ok argv);
  argv ← (if reset then add_arg argv (Some "--set-defaults") else Ok argv);
  argv ← (if reset || do_new_resource then make_options argv (res_options (ctx_res ctx)) (setup_ctx ctx)
          else Ok argv);
  argv ← add_setup_options argv (setup_ctx ctx);
  terminate argv.

Definition adm_resource (ctx : cfg_ctx) : act W Z :=
  ex ← start (resource_args ctx) SLEEPS_SHORT;
  register_if ((ex =? 0) && bool_decide (ctx_cmd ctx = new_resource_cmd) && do_register)
    (register_resource (res_name (ctx_res ctx)));;
  mret ex.

(** ** Connections *)

Definition peer_device_args (ctx : cfg_ctx) (conn : connection) (vol : d_volume) : res (list string) :=
  match find_peer_device conn (vnr vol) with
  | None => Exit E_THINKO
  | Some pd =>
      id ← peer_node_id ctx;
      argv ← add_args [] [Some drbdsetup; ctx_name ctx; Some (res_name (ctx_res ctx)); id; Some (show_int (vnr vol))];
      argv ← (if bool_decide (ctx_cmd ctx = peer_device_options_defaults_cmd)
              then add_arg argv (Some "--set-defaults") else Ok argv);
      argv ← make_options argv (pd_options pd) (setup_ctx ctx);
      argv ← add_setup_options argv (setup_ctx ctx);
      terminate argv
  end.

Definition adm_peer_device (ctx : cfg_ctx) : act W Z :=
  match ctx_vol ctx with
  | None => if dry_run then mret 0 else of_res (Exit E_THINKO)
  | Some vol =>
      conn ← of_res (need (ctx_conn ctx));
      start (peer_device_args ctx conn vol) SLEEPS_SHORT
  end.

(** The first arguments of the commands for a connection. *)
Definition connection_args (ctx : cfg_ctx) : res (list argument) :=
  id ← peer_node_id ctx;
  add_args [] [Some drbdsetup; ctx_name ctx; Some (res_name (ctx_res ctx)); id].

Definition connect_args (ctx : cfg_ctx) : res (list string) :=
  argv ← connection_args ctx;
  argv ← add_setup_options argv (setup_ctx ctx);
  terminate argv.

Definition adm_connect (ctx : cfg_ctx) : act W Z := start (connect_args ctx) SLEEPS_SHORT.

Definition new_peer_args (ctx : cfg_ctx) : res (list string) :=
  argv ← connection_args ctx;
  conn ← need (ctx_conn ctx);
  argv ← (if bool_decide (ctx_cmd ctx = net_options_defaults_cmd)
          then add_arg argv (Some "--set-defaults") else Ok argv);
  let opts := if String.prefix "net-options" (cmd_name (command_of ctx))
              then (del_opt (net_options conn) "transport").1 else net_options conn in
  argv ← make_options argv opts (setup_ctx ctx);
  argv ← add_setup_options argv (setup_ctx ctx);
  terminate argv.

Definition adm_new_peer (ctx : cfg_ctx) : act W Z := start (new_peer_args ctx) SLEEPS_SHORT.

Definition path_args (ctx : cfg_ctx) : res (list string) :=
  argv ← connection_args ctx;
  p ← need (ctx_path ctx);
  my ← need (my_address p);
  argv ← add_arg argv (Some (ssprintf_addr my));
  to ← need (connect_to p);
  argv ← add_arg argv (Some (ssprintf_addr to));
  argv ← add_setup_options argv (setup_ctx ctx);
  terminate argv.

Definition adm_path (ctx : cfg_ctx) : act W Z := start (path_args ctx) SLEEPS_SHORT.

(** ** Waiting *)

Definition or_else {A} (a b : option A) : option A := match a with Some _ => a | None => b end.

(** [strtoul(opt->value, NULL, 10)] *)
Definition option_number (opt : d_option) : res Z :=
  value ← need (o_value opt);
  Ok (strto_u64 value 10).1.1.

(** A fifth of the configured timeout of pings, in seconds. *)
Definition adjust_timeout (r : d_resource) : res Z :=
  match or_else (find_opt (res_net_options r) "socket-check-timeout") (find_opt (res_net_options r) "ping-timeout") with
  | Some opt => n ← option_number opt; Ok (Z.max (u64 (n * 2) / 10) 1)
  | None => Ok 1
  end.

Definition top_timeout (r : d_resource) : res Z :=
  match find_opt (res_net_options r) "connect-int" with
  | Some opt => n ← option_number opt; Ok (u64 (n * 2))
  | None => Ok 20
  end.

Definition wait_args (ctx : cfg_ctx) : res (list string) :=
  let name s := Some (cmd_name (command_of ctx) +:+ "-" +:+ s) in
  let r := ctx_res ctx in
  argv ← add_args [] [Some drbdsetup];
  argv ← match ctx_vol ctx, ctx_conn ctx with
         | Some vol, Some _ =>
             id ← peer_node_id ctx;
             add_args argv [name "volume"; Some (res_name r); id; Some (show_int (vnr vol))]
         | None, Some _ => id ← peer_node_id ctx; add_args argv [name "connection"; Some (res_name r); id]
         | _, None => add_args argv [name "resource"; Some (res_name r)]
         end;
  argv ← (if bool_decide (ctx_cmd ctx = wait_c_adj_cmd) then
            timeout ← adjust_timeout r;
            let t := Some (show_u timeout "") in
            add_args argv [Some "--wfc-timeout"; t; Some "--degr-wfc-timeout"; t; Some "--outdated-wfc-timeout"; t]
          else if is_drbd_top && negb (stacked_timeouts r) then
            timeout ← top_timeout r;
            add_args argv [Some "--wfc-timeout"; Some (show_u timeout "")]
          else make_options argv (startup_options r) (setup_ctx ctx));
  terminate argv.

(** An adjust is not aborted when its wait times out. *)
Definition adm_wait_c (ctx : cfg_ctx) : act W Z :=
  rv ← start (wait_args ctx) SLEEPS_FOREVER;
  mret (if bool_decide (ctx_cmd ctx = wait_c_adj_cmd) && (rv =? 5) then 0 else rv).

(** ** Resizing *)

(** The arguments, and the size that is asked for (0: none). *)
Definition resize_args (ctx : cfg_ctx) (vol : d_volume) : res (list string * Z) :=
  argv ← add_args [] [Some drbdsetup; Some "resize"; Some (show_int (device_minor vol))];
  '(argv, target_size) ←
    match or_else (find_opt (disk_options vol) "size") (find_opt (res_disk_options (ctx_res ctx)) "size") with
    | Some opt =>
        argv ← add_arg argv (Some ("--" +:+ o_name opt +:+ "=" +:+ str_or_null (o_value opt)));
        size ← m_strtoll_res (o_value opt) "s";
        Ok (argv, s64 size)
    | None => Ok (argv, 0)
    end;
  argv ← add_setup_options argv (setup_ctx ctx);
  argv ← terminate argv;
  Ok (argv, target_size).

(** The loop at the end; [timeo] more turns follow this one. *)
Fixpoint wait_for_size (minor : Z) (target_size old_size : Z) (timeo : nat) (w : W) : Z * W :=
  let new_size := read_drbd_dev_size minor w in
  if target_size <=? new_size then (0, w)
  else if negb (new_size =? old_size) && (target_size =? 0) then (0, w)
  else
    let w := usleep w in
    match timeo with
    | O => (1, w)
    | S timeo => wait_for_size minor target_size new_size timeo w
    end.

Definition adm_resize (ctx : cfg_ctx) : act W Z :=
  let is_resize := streq (cmd_name (command_of ctx)) "resize" in
  vol ← of_res (need (ctx_vol ctx));
  let minor := device_minor vol in
  '(argv, target_size) ← of_res (resize_args ctx vol);
  old_size ← observe (fun w => if is_resize && negb dry_run then read_drbd_dev_size minor w else -1);
  let silent := if is_resize then 0 else SUPRESS_STDERR in
  ex ← m_system_ex argv (Z.lor SLEEPS_LONG silent);
  ex ← observe (fun w => if truth ex && truth target_size && (read_drbd_dev_size minor w =? target_size)
                         then 0 else ex);
  if truth ex then mret ex
  else
    _ ← m_system_ex [drbdsetup; "check-resize"; show_int minor] (Z.lor SLEEPS_SHORT silent);
    if 0 <? old_size then of_state (wait_for_size minor target_size old_size (if truth target_size then 100 else 30))
    else mret 0.

Definition adm_chk_resize (ctx : cfg_ctx) : act W Z :=
  ex ← adm_resize ctx;
  if (ex =? 0) || negb (backing_device_configured ctx) then mret ex
  else adm_drbdmeta ctx.

(** ** The functions of the commands *)

(** [None]: the commands that schedule others or create meta data. *)
Definition cmd_function (ctx : cfg_ctx) : option (act W Z) :=
  match ctx_cmd ctx with
  | attach_cmd | disk_options_cmd | disk_options_defaults_cmd | disk_options_early_defaults_cmd =>
      Some (adm_attach ctx)
  | new_peer_cmd | net_options_cmd | net_options_defaults_cmd => Some (adm_new_peer ctx)
  | new_path_cmd | del_path_cmd => Some (adm_path ctx)
  | connect_cmd => Some (adm_connect ctx)
  | res_options_cmd | res_options_defaults_cmd | new_resource_cmd => Some (adm_resource ctx)
  | new_minor_cmd => Some (adm_new_minor ctx)
  | peer_device_options_cmd | peer_device_options_defaults_cmd => Some (adm_peer_device ctx)
  | invalidate_cmd => Some (adm_invalidate ctx)
  | outdate_cmd => Some (adm_outdate ctx)
  | resize_cmd => Some (adm_resize ctx)
  | check_resize_cmd => Some (adm_chk_resize ctx)
  | wait_c_cmd | wait_sync_cmd | wait_c_adj_cmd => Some (adm_wait_c ctx)
  | role_cmd => Some (adm_role ctx)
  | dstate_cmd | show_gi_cmd | get_gi_cmd => Some (adm_setup_and_meta ctx)
  | dump_md_cmd | dump_superblock_cmd | wipe_md_cmd | apply_al_cmd | repair_md_cmd | set_gi_cmd
  | invalidate_meta_cmd | forget_peer_meta_cmd => Some (adm_drbdmeta ctx)
  | forget_peer_cmd => Some (adm_forget_peer ctx)
  | invalidate_setup_cmd | forget_peer_setup_cmd => Some (silent_function ctx)
  | detach_cmd | del_peer_cmd | disconnect_cmd | down_cmd | primary_cmd | secondary_cmd
  | invalidate_remote_cmd | verify_cmd | pause_sync_cmd | resume_sync_cmd | peer_role_cmd | cstate_cmd
  | status_cmd | del_minor_cmd | suspend_io_cmd | resume_io_cmd | new_current_uuid_cmd =>
      Some (adm_drbdsetup ctx)
  | adjust_cmd | sh_list_adjustable | create_md_cmd | output_res_name_cmd => None
  end.
End Commands.
