(* ===== verification/ArgvFits.v ===== *)
(** * Argument arrays are not overrun

    The commands of drbdadm (user/v9/drbdadm_main.c) write their arguments into
    arrays of [MAX_ARGS] pointers: no store is behind the end of such an array,
    however many options are configured. *)

From S2P Require Import Prelude Machine SharedTool ConfigFlags Address AdmConfig Argv Deferred AdmCommands.
From Stdlib Require Import Ascii String FunctionalExtensionality.
From stdpp Require Import strings.

#[local] Open Scope string_scope.
#[local] Open Scope list_scope.
#[local] Open Scope Z_scope.

(** ** What the builders give is short *)

Definition short (argv : list string) : Prop := Z.of_nat (length argv) < MAX_ARGS.

Lemma terminate_fits `{!Overrun} argv l : terminate argv = Ok l -> short l.
Proof. intros [-> Hl]%terminate_inv. unfold short. pose proof (length_until_null argv). lia. Qed.

(** *** Stores are inside of the array

    What a store behind the end of the array would do is a parameter of the
    model.  It has no effect: every store has its guard. *)

Lemma add_arg_overrun o1 o2 : @add_arg o1 = @add_arg o2.
Proof. do 2 (apply functional_extensionality; intros ?). by rewrite !add_arg_guarded. Qed.

Lemma add_args_overrun o1 o2 : @add_args o1 = @add_args o2.
Proof. unfold add_args. by rewrite (add_arg_overrun o1 o2). Qed.

Lemma terminate_overrun o1 o2 : @terminate o1 = @terminate o2.
Proof. unfold terminate. by rewrite (add_arg_overrun o1 o2). Qed.

Lemma add_setup_options_overrun o1 o2 : @add_setup_options o1 = @add_setup_options o2.
Proof. unfold add_setup_options. by rewrite (add_args_overrun o1 o2). Qed.

Lemma make_options_overrun o1 o2 : @make_options o1 = @make_options o2.
Proof. unfold make_options, make_option. by rewrite (add_arg_overrun o1 o2). Qed.

Lemma cmd_function_overrun o1 o2 : @cmd_function o1 = @cmd_function o2.
Proof.
  unfold cmd_function, adm_attach, adm_new_peer, adm_path, adm_connect, adm_resource, adm_new_minor, adm_peer_device,
    adm_chk_resize, adm_resize, adm_invalidate, adm_forget_peer, silent_function, adm_setup_and_meta, adm_outdate,
    adm_wait_c, adm_role, adm_drbdsetup, __adm_drbdsetup_silent, _adm_drbdsetup, adm_drbdmeta, _adm_drbdmeta,
    attach_args, new_peer_args, path_args, connect_args, connection_args, resource_args, new_minor_args,
    peer_device_args, resize_args, wait_args, drbdsetup_args, drbdmeta_args, add_diskful_peers.
  by rewrite (add_arg_overrun o1 o2), (add_args_overrun o1 o2), (terminate_overrun o1 o2),
    (add_setup_options_overrun o1 o2), (make_options_overrun o1 o2).
Qed.

(** A builder ends with [terminate]: a tactic that looks through the binds. *)
Ltac through_binds H :=
  match type of H with
  | (_ ≫= _) = Ok _ =>
      let r := fresh "r" in
      match type of H with (?m ≫= _) = Ok _ => destruct m as [r| | |] end;
      cbn [mbind res_bind] in H; [through_binds H|discriminate H..]
  | match ?x with _ => _ end = Ok _ => destruct x; through_binds H
  | terminate _ = Ok _ => exact (terminate_fits _ _ H)
  | Exit _ = Ok _ => discriminate H
  | Abort = Ok _ => discriminate H
  | Fault = Ok _ => discriminate H
  end.

Section Fits.
Context `{Hoverrun : !Overrun}.
Context (fields_of : setup_context -> context_def).
Context (drbdsetup drbdmeta : string) (backend_options : list string).
Context (dry_run is_drbd_top do_register : bool) (verbose : Z).

Lemma drbdmeta_args_fit ctx argument l :
  drbdmeta_args fields_of drbdmeta backend_options ctx argument = Ok l -> short l.
Proof using. unfold drbdmeta_args. intros H. through_binds H. Qed.

Lemma drbdsetup_args_fit cmd ctx l :
  drbdsetup_args fields_of drbdsetup backend_options verbose cmd ctx = Ok l -> short l.
Proof using. unfold drbdsetup_args. intros H. through_binds H. Qed.

Lemma attach_args_fit ctx l : attach_args fields_of drbdsetup backend_options ctx = Ok l -> short l.
Proof using. unfold attach_args. cbv zeta. intros H. through_binds H. Qed.

Lemma new_minor_args_fit ctx l : new_minor_args fields_of drbdsetup backend_options ctx = Ok l -> short l.
Proof using. unfold new_minor_args. intros H. through_binds H. Qed.

Lemma resource_args_fit ctx l : resource_args fields_of drbdsetup backend_options ctx = Ok l -> short l.
Proof using. unfold resource_args. cbv zeta. intros H. through_binds H. Qed.

Lemma peer_device_args_fit ctx conn vol l :
  peer_device_args fields_of drbdsetup backend_options ctx conn vol = Ok l -> short l.
Proof using. unfold peer_device_args. intros H. through_binds H. Qed.

Lemma connect_args_fit ctx l : connect_args fields_of drbdsetup backend_options ctx = Ok l -> short l.
Proof using. unfold connect_args. intros H. through_binds H. Qed.

Lemma new_peer_args_fit ctx l : new_peer_args fields_of drbdsetup backend_options ctx = Ok l -> short l.
Proof using. unfold new_peer_args. cbv zeta. intros H. through_binds H. Qed.

Lemma path_args_fit ctx l : path_args fields_of drbdsetup backend_options ctx = Ok l -> short l.
Proof using. unfold path_args. intros H. through_binds H. Qed.

Lemma wait_args_fit ctx l : wait_args fields_of drbdsetup backend_options is_drbd_top ctx = Ok l -> short l.
Proof using. unfold wait_args. cbv zeta. intros H. through_binds H. Qed.

Lemma resize_args_fit ctx vol l n : resize_args fields_of drbdsetup backend_options ctx vol = Ok (l, n) -> short l.
Proof using.
  unfold resize_args. destruct (add_args _ _); [|done..]. cbn [mbind res_bind].
  match goal with |- context [(?m ≫= _) = _] => destruct m as [[argv size]| | |] end; [|done..]. cbn [mbind res_bind].
  destruct (Argv.add_setup_options _ _ _ _) as [argv'| | |]; [|done..]. cbn [mbind res_bind].
  destruct (terminate argv') as [l'| | |] eqn:Ht; [|done..]. cbn. intros [= <- _]. by eapply terminate_fits.
Qed.
End Fits.

(** ** What the commands keep *)

(** An action that leaves the worlds of [I] only with the program. *)
Definition keeps_world {W A} (I : W -> Prop) (m : act W A) : Prop := forall w, I w -> I (m w).2.

Section Keep.
Context {W : Type} (I : W -> Prop).

Lemma world_ret {A} (a : A) : keeps_world I (mret a).
Proof using. by intros w. Qed.

Lemma keeps_of_res {A} (r : res A) : keeps_world I (of_res r).
Proof using. by intros w. Qed.

Lemma keeps_observe {A} (f : W -> A) : keeps_world I (observe f).
Proof using. by intros w. Qed.

Lemma world_bind {A B} (m : act W A) (k : A -> act W B) :
  keeps_world I m -> (forall a, keeps_world I (k a)) -> keeps_world I (m ≫= k).
Proof using.
  intros Hm Hk w Hw. specialize (Hm w Hw). unfold mbind, act_bind.
  destruct (m w) as [[a| | |] w']; [by apply Hk|done..].
Qed.

Lemma keeps_bind_res {A B} (r : res A) (k : A -> act W B) :
  (forall a, r = Ok a -> keeps_world I (k a)) -> keeps_world I (of_res r ≫= k).
Proof using. intros Hk w Hw. destruct r as [a| | |]; [by apply Hk|done..]. Qed.

Lemma keeps_of_state {A} (f : W -> A * W) : (forall w, I w -> I (f w).2) -> keeps_world I (of_state f).
Proof using. intros Hf w Hw. specialize (Hf w Hw). unfold of_state. by destruct (f w). Qed.

Lemma keeps_call_function (function : cfg_ctx -> act W Z) ctx on_error :
  (forall c, keeps_world I (function c)) -> keeps_world I (call_function function ctx on_error).
Proof using.
  intros Hf w Hw. unfold call_function. specialize (Hf ctx w Hw). destruct (function ctx w) as [[rv| | |] w']; done.
Qed.

Lemma keeps_call_paths (function : cfg_ctx -> act W Z) ctx on_error paths rv :
  (forall c, keeps_world I (function c)) -> keeps_world I (call_paths function ctx on_error paths rv).
Proof using.
  intros Hf. revert rv. induction paths as [|p paths IH]; intros rv w Hw; cbn [call_paths]; [done|].
  destruct (path_ignore p); [by apply IH|].
  pose proof (keeps_call_function function
    (mk_cfg_ctx (ctx_res ctx) (ctx_vol ctx) (ctx_conn ctx) (Some p) (ctx_cmd ctx)) on_error Hf w Hw) as Hc.
  destruct (call_function _ _ _ w) as [[rv'| | |] w']; [by apply IH|done..].
Qed.

Lemma keeps_call_cmd_fn (function : cfg_ctx -> act W Z) ctx on_error :
  (forall c, keeps_world I (function c)) -> keeps_world I (__call_cmd_fn function ctx on_error).
Proof using.
  intros Hf w Hw. unfold __call_cmd_fn.
  assert (I ((if bool_decide (ctx_path ctx = None) && iterate_paths (adm_cmd_of (ctx_cmd ctx))
      then match ctx_conn ctx with Some conn => call_paths function ctx on_error (conn_paths conn) 0 w | None => (Fault, w) end
      else call_function function ctx on_error w).2)) as Hcall.
  { destruct (_ && _); [|by apply keeps_call_function]. destruct (ctx_conn ctx); [by apply keeps_call_paths|done]. }
  destruct (disk_required _); [|done]. destruct (ctx_vol ctx) as [vol|]; [|done]. by destruct (no_local_disk vol).
Qed.

Lemma keeps_until_error {A} (f : A -> act W Z) l ret :
  (forall x, keeps_world I (f x)) -> keeps_world I (until_error f l ret).
Proof using.
  intros Hf. revert ret. induction l as [|x l IH]; intros ret; [by apply world_ret|].
  apply world_bind; [done|]. intros r. destruct (truth r); [by apply world_ret|by apply IH].
Qed.

Lemma keeps_call_cmd (function : cfg_ctx -> act W Z) cmd ctx on_error :
  (forall c, keeps_world I (function c)) -> keeps_world I (call_cmd function cmd ctx on_error).
Proof using.
  intros Hf. unfold call_cmd. cbv zeta.
  destruct (_ && _ && _); [apply keeps_until_error; intros [vol conn]; by apply keeps_call_cmd_fn|].
  destruct (_ && _); [apply keeps_until_error; intros vol; by apply keeps_call_cmd_fn|].
  destruct (_ && _); [|by apply keeps_call_cmd_fn]. destruct (is_set_gi_single_node _); [by apply keeps_call_cmd_fn|].
  apply keeps_until_error. intros conn. by apply keeps_call_cmd_fn.
Qed.
End Keep.

Create HintDb keeps_world.
#[export] Hint Resolve world_ret keeps_of_res keeps_observe keeps_call_cmd keeps_call_cmd_fn : keeps_world.

Section Commands.
Context `{Hoverrun : !Overrun}.
Context (fields_of : setup_context -> context_def).
Context (drbdsetup drbdmeta : string) (backend_options : list string).
Context (dry_run is_drbd_top do_register : bool) (verbose : Z).
Context {W : Type} (m_system_ex : list string -> Z -> act W Z).
Context (stderr_status : list string -> Z -> act W (option Z * bool)).
Context (read_drbd_dev_size : Z -> W -> Z) (usleep : W -> W).
Context (register_minor : Z -> W -> W) (register_resource : string -> W -> W).
Context (I : W -> Prop).

(** Programs that get a short array keep [I], and so does what is no program. *)
Record short_programs_keep : Prop := {
  system_keeps argv flags : short argv -> keeps_world I (m_system_ex argv flags);
  silent_keeps argv flags : short argv -> keeps_world I (stderr_status argv flags);
  sleep_keeps w : I w -> I (usleep w);
  minor_keeps n w : I w -> I (register_minor n w);
  resource_keeps s w : I w -> I (register_resource s w)
}.
Context (Hkeep : short_programs_keep).

Lemma keeps_start r flags : (forall l, r = Ok l -> short l) -> keeps_world I (start m_system_ex r flags).
Proof using Hkeep. intros Hr. apply keeps_bind_res. intros l Hl. apply (system_keeps Hkeep). by apply Hr. Qed.

Lemma keeps_register_if b f : (forall w, I w -> I (f w)) -> keeps_world I (register_if b f).
Proof using. intros Hf. apply keeps_of_state. intros w Hw. destruct b; [by apply Hf|done]. Qed.

Lemma keeps_drbdmeta ctx flags argument :
  keeps_world I (_adm_drbdmeta fields_of drbdmeta backend_options m_system_ex ctx flags argument).
Proof using Hkeep. apply keeps_start. intros l. apply drbdmeta_args_fit. Qed.

Lemma keeps_drbdsetup ctx flags :
  keeps_world I (_adm_drbdsetup fields_of drbdsetup backend_options verbose m_system_ex ctx flags).
Proof using Hkeep. apply keeps_start. intros l. apply drbdsetup_args_fit. Qed.

Lemma keeps_silent cmd ctx :
  keeps_world I (__adm_drbdsetup_silent fields_of drbdsetup backend_options dry_run verbose stderr_status cmd ctx).
Proof using Hkeep.
  apply keeps_bind_res. intros l Hl%drbdsetup_args_fit.
  apply world_bind; [by apply (silent_keeps Hkeep)|]. intros [code alarm]. apply world_ret.
Qed.

Lemma keeps_wait_for_size minor target old n w :
  I w -> I (wait_for_size read_drbd_dev_size usleep minor target old n w).2.
Proof using Hkeep.
  revert old w. induction n as [|n IH]; intros old w Hw; cbn [wait_for_size];
    (destruct (_ <=? _); [done|]); (destruct (_ && _); [done|]); [by apply (sleep_keeps Hkeep)|].
  apply IH. by apply (sleep_keeps Hkeep).
Qed.

Hint Resolve keeps_drbdmeta keeps_drbdsetup keeps_silent : keeps_world.

(** One step of a proof that an action keeps [I]. *)
Ltac keep_step :=
  match goal with
  | |- keeps_world _ (if ?b then _ else _) => destruct b
  | |- keeps_world _ (_ ≫= _) => apply world_bind; [|intros ?]
  | |- keeps_world _ (match ?x with _ => _ end) => destruct x
  | |- keeps_world _ (register_if _ _) => apply keeps_register_if; intros ?
  end.
Ltac keep := cbv zeta; repeat keep_step; eauto with keeps_world.

Lemma keeps_resize ctx :
  keeps_world I (adm_resize fields_of drbdsetup backend_options dry_run m_system_ex read_drbd_dev_size usleep ctx).
Proof using Hkeep.
  unfold adm_resize. apply keeps_bind_res. intros vol _. apply keeps_bind_res. intros [argv size] Hargs%resize_args_fit.
  keep.
  - by apply (system_keeps Hkeep).
  - apply (system_keeps Hkeep). unfold short. cbn. unfold MAX_ARGS. lia.
  - apply keeps_of_state. intros w Hw. by apply keeps_wait_for_size.
Qed.

Lemma keeps_command ctx f :
  cmd_function fields_of drbdsetup drbdmeta backend_options dry_run is_drbd_top do_register verbose m_system_ex
    stderr_status read_drbd_dev_size usleep register_minor register_resource ctx = Some f ->
  keeps_world I f.
Proof using Hkeep.
  assert (forall c, keeps_world I (silent_function fields_of drbdsetup backend_options dry_run verbose stderr_status c))
    as Hsilent by (intros c; apply keeps_silent).
  assert (forall c, keeps_world I (adm_drbdmeta fields_of drbdmeta backend_options m_system_ex c))
    as Hmeta by (intros c; apply keeps_drbdmeta).
  unfold cmd_function. destruct (ctx_cmd ctx); intros [= <-];
    unfold adm_attach, adm_new_peer, adm_path, adm_connect, adm_resource, adm_new_minor, adm_peer_device,
      adm_invalidate, adm_forget_peer, adm_outdate, adm_chk_resize, adm_wait_c, adm_role, adm_drbdsetup,
      adm_setup_and_meta, call_cmd_fn; auto using keeps_resize; keep;
    try (apply keeps_start; intros l Hl);
    eauto using keeps_resize, minor_keeps, resource_keeps, attach_args_fit, new_minor_args_fit, resource_args_fit,
      peer_device_args_fit, connect_args_fit, new_peer_args_fit, path_args_fit, wait_args_fit.
Qed.

End Commands.

(** ** An example *)

(** A store behind the end of the array is a fault. *)
#[export] Instance fault_overrun : Overrun := fun _ _ => Fault.

(** A world that remembers what has been started, and in which every program
    succeeds. *)
Definition logging (argv : list string) (flags : Z) (w : list (list string)) : res Z * list (list string) :=
  (Ok 0, w ++ [argv]).
Definition logging_stderr (argv : list string) (flags : Z) (w : list (list string)) :
    res (option Z * bool) * list (list string) := (Ok (Some 0, false), w ++ [argv]).

Definition no_fields (c : setup_context) : context_def := mk_context_def [] 0 [].

Definition logged_function (ctx : cfg_ctx) : option (act (list (list string)) Z) :=
  cmd_function no_fields "drbdsetup" "drbdmeta" [] false false false 0 logging logging_stderr
    (fun _ _ => 0) (fun w => w) (fun _ w => w) (fun _ w => w) ctx.

Definition many_options (n : nat) : options := repeat (mk_d_option "timeout" (Some "42") false false false) n.

Definition net_ctx (n : nat) : cfg_ctx :=
  mk_cfg_ctx example_resource None (Some (example_connection <| net_options := many_options n |>)) None new_peer_cmd.


(** The command lines of drbdadm up for a resource with a diskful and a diskless
    volume and a connection with one path that is not ignored. *)
Definition run_logged (ctx : cfg_ctx) (w : list (list string)) : res Z * list (list string) :=
  match logged_function ctx with Some f => f w | None => (Fault, w) end.
