(* ===== verification/MetaData.v ===== *)
(** * The working structures of drbdmeta and the effects of its operations

    The structures of drbdmeta.h ([md_cpu], [peer_md_cpu], [format]), the
    command line options, the world an operation runs in (the meta data device,
    the I/O buffer, the file with the last-known device info, random bytes,
    standard input, what was printed) and the monad of the operations: state
    passing with the ways an operation of the tool ends early. *)

From S2P Require Import Prelude Machine Headers SharedTool.
From Stdlib Require Import Ascii.

(** ** Formats and return codes (drbdmeta.h) *)

Inductive md_format := DRBD_V06 | DRBD_V07 | DRBD_V08 | DRBD_V09 | DRBD_UNKNOWN.

#[export] Instance md_format_eq_dec : EqDecision md_format.
Proof. solve_decision. Defined.

(** The value of the enumerator, for the comparisons of the code. *)
Definition md_format_nr (f : md_format) : Z :=
  match f with
  | DRBD_V06 => 0 | DRBD_V07 => 1 | DRBD_V08 => 2 | DRBD_V09 => 3 | DRBD_UNKNOWN => 4
  end.

Definition md_format_eqb (f g : md_format) : bool := md_format_nr f =? md_format_nr g.

Inductive md_open_rc :=
  | VALID_MD_FOUND
  | NO_VALID_MD_FOUND
  | VALID_MD_FOUND_AT_LAST_KNOWN_LOCATION.

#[export] Instance md_open_rc_eq_dec : EqDecision md_open_rc.
Proof. solve_decision. Defined.

(** ** The working copy of the meta data *)

Record peer_md_cpu := mk_peer_md_cpu {
  bitmap_uuid : Z;
  bitmap_dagtag : Z;
  peer_flags : Z;
  bitmap_index : Z
}.

#[export] Instance eta_peer_md_cpu : Eta peer_md_cpu :=
  fun r => mk_peer_md_cpu (bitmap_uuid r) (bitmap_dagtag r) (peer_flags r) (bitmap_index r).

Record md_cpu := mk_md_cpu {
  gc : list Z;
  magic : Z;
  effective_size : Z;
  md_size_sect : Z;
  al_offset : Z;
  al_nr_extents : Z;
  bm_offset : Z;
  current_uuid : Z;
  history_uuids : list Z;
  flags : Z;
  device_uuid : Z;
  bm_bytes_per_bit : Z;
  la_peer_max_bio_size : Z;
  max_peers : Z;
  node_id : Z;
  peers : list peer_md_cpu;
  al_stripes : Z;
  al_stripe_size_4k : Z;
  members : Z
}.

#[export] Instance eta_md_cpu : Eta md_cpu :=
  fun r => mk_md_cpu (gc r) (magic r) (effective_size r) (md_size_sect r) (al_offset r)
    (al_nr_extents r) (bm_offset r) (current_uuid r) (history_uuids r) (flags r)
    (device_uuid r) (bm_bytes_per_bit r) (la_peer_max_bio_size r) (max_peers r) (node_id r)
    (peers r) (al_stripes r) (al_stripe_size_4k r) (members r).

(** enum MetaDataIndex of shared_tool.h *)
Definition Flags : Z := 0.
Definition HumanCnt : Z := 1.
Definition TimeoutCnt : Z := 2.
Definition ConnectedCnt : Z := 3.
Definition ArbitraryCnt : Z := 4.
Definition GEN_CNT_SIZE : Z := 5.

Definition zero_peer : peer_md_cpu := mk_peer_md_cpu 0 0 0 0.

(** [memset(md, 0, sizeof)] *)
Definition zero_md `{DrbdHeaders} : md_cpu :=
  mk_md_cpu (replicate (Z.to_nat GEN_CNT_SIZE) 0) 0 0 0 0 0 0 0
    (replicate (Z.to_nat HISTORY_UUIDS) 0) 0 0 0 0 0 0
    (replicate (Z.to_nat DRBD_PEERS_MAX) zero_peer) 0 0 0.

(** Array accesses of the code.  The indices are within the arrays wherever
    the tool uses them; the default is what a read outside of them gives here. *)
Definition arr (l : list Z) (i : Z) : Z := default 0 (zlookup l i).
Definition peer_at (md : md_cpu) (i : Z) : peer_md_cpu := default zero_peer (zlookup (peers md) i).

Definition set_gc (i v : Z) (md : md_cpu) : md_cpu := md <| gc := zinsert i v (gc md) |>.
Definition set_history (i v : Z) (md : md_cpu) : md_cpu :=
  md <| history_uuids := zinsert i v (history_uuids md) |>.
Definition upd_peer (i : Z) (f : peer_md_cpu -> peer_md_cpu) (md : md_cpu) : md_cpu :=
  md <| peers := zinsert i (f (peer_at md i)) (peers md) |>.

(** ** The configuration of a run: struct format *)

Record format := mk_format {
  ops : md_format;              (* [cfg->ops - f_ops] *)
  md_device_name : string;
  minor : Z;
  md_hard_sect_size : Z;
  md_index : Z;
  cfg_bm_bytes : Z;
  bits_set : Z;
  bits_counted : bool;
  update_lk_bdev : bool;
  cfg_md : md_cpu;
  md_offset : Z;
  cfg_al_offset : Z;
  cfg_bm_offset : Z;
  wipe_fixed : Z;
  wipe_flex : Z;
  wipe_resize : Z;
  cfg_bd_size : Z;
  max_usable_sect : Z;
  lk_bd : bdev_info
}.

#[export] Instance eta_format : Eta format :=
  fun r => mk_format (ops r) (md_device_name r) (minor r) (md_hard_sect_size r) (md_index r)
    (cfg_bm_bytes r) (bits_set r) (bits_counted r) (update_lk_bdev r) (cfg_md r) (md_offset r)
    (cfg_al_offset r) (cfg_bm_offset r) (wipe_fixed r) (wipe_flex r) (wipe_resize r)
    (cfg_bd_size r) (max_usable_sect r) (lk_bd r).

Definition format_version (cfg : format) : md_format := ops cfg.
Definition is_v06 (cfg : format) : bool := md_format_eqb (format_version cfg) DRBD_V06.
Definition is_v07 (cfg : format) : bool := md_format_eqb (format_version cfg) DRBD_V07.
Definition is_v08 (cfg : format) : bool := md_format_eqb (format_version cfg) DRBD_V08.
Definition is_v09 (cfg : format) : bool := md_format_eqb (format_version cfg) DRBD_V09.

(** [format_version(cfg) >= f] and [<] *)
Definition version_ge (cfg : format) (f : md_format) : bool :=
  md_format_nr f <=? md_format_nr (format_version cfg).
Definition version_lt (cfg : format) (f : md_format) : bool := negb (version_ge cfg f).

(** ** Commands and options *)

Inductive meta_command :=
  | get_gi | show_gi | dump_md | dump_superblock | hexdump_superblock | restore_md
  | verify_dump | apply_al_cmd | wipe_md | outdate | invalidate | dstate | read_dev_uuid
  | write_dev_uuid | set_gi | check_resize | create_md | forget_peer | repair_md.

#[export] Instance meta_command_eq_dec : EqDecision meta_command.
Proof. solve_decision. Defined.

Inductive initialize_bitmap_mode :=
  | IBM_ZEROOUT
  | IBM_ZEROOUT_IOCTL_ONLY
  | IBM_ZEROOUT_PWRITE
  | IBM_SET_ALL
  | IBM_SKIP.

Record options := mk_options {
  force : bool;
  quiet : bool;
  ignore_sanity_checks : bool;
  dry_run : bool;
  option_peer_max_bio_size : Z;
  option_node_id : Z;
  option_al_stripes : Z;
  option_al_stripe_size_4k : Z;
  option_al_stripes_used : Z;
  option_bm_block_size : Z;
  option_effective_size : Z;
  option_diskful_peer_mask : Z;
  option_initial_current_uuid : option string;
  option_consistent : bool;
  option_uptodate : bool;
  option_peers_outdated : bool;
  option_rotate_uuids : bool;
  option_initialize_bitmap_mode : initialize_bitmap_mode;
  command : meta_command
}.

#[export] Instance eta_options : Eta options :=
  fun r => mk_options (force r) (quiet r) (ignore_sanity_checks r) (dry_run r)
    (option_peer_max_bio_size r) (option_node_id r) (option_al_stripes r)
    (option_al_stripe_size_4k r) (option_al_stripes_used r) (option_bm_block_size r)
    (option_effective_size r) (option_diskful_peer_mask r) (option_initial_current_uuid r)
    (option_consistent r) (option_uptodate r) (option_peers_outdated r)
    (option_rotate_uuids r) (option_initialize_bitmap_mode r) (command r).

(** The initial values of the globals. *)
Definition default_options (c : meta_command) : options :=
  mk_options false false false false 0 (-1) 1 8 0 0 0 0 None false false false false
    IBM_ZEROOUT c.

Definition is_apply_al_cmd (o : options) : bool := bool_decide (command o = apply_al_cmd).

(** ** The world of a run *)

(** What the run finds and does not change: the device, the terminal, and
    which requests the system grants. *)
Record environment := mk_environment {
  dev_size : Z;                  (* bytes of the meta data device *)
  dev_is_blk : bool;             (* a block device, not a regular file *)
  dev_open_errors : list bool;   (* [true]: [EBUSY], [false]: [EINVAL], before an open succeeds *)
  dev_open_ok : bool;            (* it succeeds after those *)
  dev_fstat_ok : bool;
  dev_sector_size : option Z;    (* BLKSSZGET *)
  dev_zeroout_ok : Z -> Z -> bool; (* BLKZEROOUT of [offset, offset + len) is granted *)
  dev_close_ok : bool;
  stdin_isatty : bool;
  lk_file_writable : bool;
  dev_pvs_size : option Z       (* sectors that [pvs] reports for the device *)
}.

Record world := mk_world {
  w_cfg : format;
  w_opt : options;
  w_env : environment;
  w_dev : mem;                   (* content of the meta data device *)
  w_buf : mem;                   (* [on_disk_buffer] *)
  w_lk : option string;          (* the last-known device info file of the minor *)
  w_random : list Z;             (* what [get_random_bytes] will deliver *)
  w_stdin : list string;         (* lines of standard input *)
  w_out : list string;           (* what was printed to standard output *)
  quiet_suppressed : Z;
  n_writes : Z
}.

#[export] Instance eta_world : Eta world :=
  fun r => mk_world (w_cfg r) (w_opt r) (w_env r) (w_dev r) (w_buf r) (w_lk r) (w_random r)
    (w_stdin r) (w_out r) (quiet_suppressed r) (n_writes r).

(** Operations that may end in one of the outcomes of [res], on the world. *)

Definition M (A : Type) : Type := world -> res A * world.

#[export] Instance M_ret : MRet M := fun A a w => (Ok a, w).

#[export] Instance M_bind : MBind M := fun A B k m w =>
  match m w with
  | (Ok a, w') => k a w'
  | (Exit c, w') => (Exit c, w')
  | (Abort, w') => (Abort, w')
  | (Fault, w') => (Fault, w')
  end.

Definition exit {A} (code : Z) : M A := fun w => (Exit code, w).
Definition fault {A} : M A := fun w => (Fault, w).
Definition ASSERT (b : bool) : M unit := fun w => if b then (Ok (), w) else (Abort, w).

Definition gets {A} (f : world -> A) : M A := fun w => (Ok (f w), w).
Definition modify (f : world -> world) : M unit := fun w => (Ok (), f w).

Definition cfg : M format := gets w_cfg.
Definition opt : M options := gets w_opt.
Definition env : M environment := gets w_env.

Definition upd_cfg (f : format -> format) : M unit := modify (fun w => w <| w_cfg := f (w_cfg w) |>).
Definition upd_md (f : md_cpu -> md_cpu) : M unit :=
  upd_cfg (fun c => c <| cfg_md := f (cfg_md c) |>).
Definition upd_buf (f : mem -> mem) : M unit := modify (fun w => w <| w_buf := f (w_buf w) |>).
Definition upd_opt (f : options -> options) : M unit :=
  modify (fun w => w <| w_opt := f (w_opt w) |>).
Definition printf (s : string) : M unit := modify (fun w => w <| w_out := w_out w ++ [s] |>).

(** [when b m]: [if (b) m] *)
Definition when (b : bool) (m : M unit) : M unit := if b then m else mret ().

(** ** Random numbers and confirmation *)

Definition get_random_bytes : M Z := fun w =>
  match w_random w with
  | [] => (Exit 20, w)
  | x :: l => (Ok (u64 x), w <| w_random := l |>)
  end.

Fixpoint generate_random_uuid_loop `{DrbdHeaders} (n : nat) : M Z :=
  match n with
  | O => exit 20
  | S n' =>
      val ← get_random_bytes;
      let val := Z.land val (u64 (Z.lnot 1)) in
      if negb (val =? 0) && negb (val =? UUID_JUST_CREATED) then mret val
      else generate_random_uuid_loop n'
  end.

Definition generate_random_uuid `{DrbdHeaders} : M Z := generate_random_uuid_loop 4.

(** [getline(...) == 4 && strncmp(answer, yes, 3) == 0] *)
Definition answer_is_yes (line : string) : bool :=
  match line with
  | String a (String b (String c (String _ EmptyString))) =>
      Ascii.eqb a "y"%char && Ascii.eqb b "e"%char && Ascii.eqb c "s"%char
  | _ => false
  end.

Definition getline : M (option string) := fun w =>
  match w_stdin w with
  | [] => (Ok None, w)
  | l :: ls => (Ok (Some l), w <| w_stdin := ls |>)
  end.

(** [confirmed_ex]; the texts go to stderr. *)
Definition confirmed : M bool :=
  o ← opt;
  if force o && quiet o then
    modify (fun w => w <| quiet_suppressed := quiet_suppressed w + 1 |>);; mret true
  else if force o then mret true
  else
    e ← env;
    if negb (stdin_isatty e) then mret false
    else
      answer ← getline;
      mret (match answer with Some l => answer_is_yes l | None => false end).

(** ** Disk access *)

Definition buffer_size : Z := 32 * 1024 * 1024.

(** [pread_or_die] into [on_disk_buffer + pos]. *)
Definition pread_or_die (pos count offset : Z) : M unit :=
  e ← env;
  if offset <? 0 then exit 10
  else if dev_size e <? offset + count then exit 10
  else if buffer_size <? pos + count then fault
  else modify (fun w => w <| w_buf := copy (w_buf w) pos (w_dev w) offset count |>).

(** [md_offset + sectors * 512LL], an [uint64_t] plus an [int64_t]. *)
Definition at_sectors (base sectors : Z) : Z := u64 (base + sectors * 512).

Definition min_ (x y : Z) : Z := if x <? y then x else y.
Definition min3 (x y z : Z) : Z := min_ (min_ x y) z.

(** The offsets of the current meta data area, as [off_t]. *)
Definition md_area_start (c : format) : Z :=
  s64 (min3 (md_offset c) (at_sectors (md_offset c) (al_offset (cfg_md c)))
            (at_sectors (md_offset c) (bm_offset (cfg_md c)))).
Definition md_area_end (c : format) : Z :=
  s64 (md_area_start c + md_size_sect (cfg_md c) * 512).

Definition is_wipe_offset (c : format) (offset : Z) : bool :=
  negb (offset =? 0) &&
  ((u64 offset =? wipe_fixed c) || (u64 offset =? wipe_flex c) || (u64 offset =? wipe_resize c)).

Definition validate_offsets_or_die (count offset : Z) : M unit :=
  c ← cfg;
  if is_wipe_offset c offset then mret ()
  else if (offset <? md_area_start c) || (u64 (md_area_end c) <? u64 (offset + count)) then
    o ← opt;
    if ignore_sanity_checks o then mret () else exit 10
  else mret ().

(** [pwrite]: what lies beyond the end of the device is not written, and a
    short write ends the program. *)
Definition pwrite (src : mem) (count offset : Z) : M unit :=
  e ← env;
  if (offset <? 0) || (dev_size e <=? offset) && (0 <? count) then exit 10
  else
    let n := Z.min count (dev_size e - offset) in
    modify (fun w => w <| w_dev := copy (w_dev w) offset src 0 n |>);;
    when (n <? count) (exit 10).

Definition pwrite_or_die (src : mem) (count offset : Z) : M unit :=
  validate_offsets_or_die count offset;;
  modify (fun w => w <| n_writes := n_writes w + 1 |>);;
  o ← opt;
  if dry_run o then mret () else pwrite src count offset.

(** Writing [on_disk_buffer]. *)
Definition pwrite_buffer_or_die (count offset : Z) : M unit :=
  b ← gets w_buf;
  pwrite_or_die b count offset.

(** The returned number of bytes is what was written. *)
Definition pwrite_with_limit_or_die (src : mem) (count offset limit : Z) : M Z :=
  if limit <=? offset then exit 10
  else
    let count := if limit - offset <? count then limit - offset else count in
    pwrite_or_die src count offset;;
    mret count.

(** ** The last-known device info file *)

Definition lk_bdev_load_file : M (option bdev_info) :=
  f ← gets w_lk;
  mret (match f with Some s => lk_bdev_load s | None => None end).

Definition lk_bdev_save_file (bd : bdev_info) : M unit :=
  e ← env;
  when (lk_file_writable e) (modify (fun w => w <| w_lk := Some (lk_bdev_save bd) |>)).

Definition lk_bdev_delete : M unit := modify (fun w => w <| w_lk := None |>).

(** ** Closing *)

(** [generic_md_close]; the return value is 0 or -1. *)
Definition generic_md_close : M Z :=
  e ← env;
  mret (if dev_close_ok e then 0 else -1).

(** ** Reasoning about operations *)

(** What holds of the result and the final world. *)
Definition wp {A} (m : M A) (w : world) (Q : res A -> world -> Prop) : Prop :=
  Q (m w).1 (m w).2.

Lemma wp_bind {A B} (m : M A) (k : A -> M B) w Q :
  wp m w (fun r w' => match r with
                      | Ok a => wp (k a) w' Q
                      | Exit c => Q (Exit c) w'
                      | Abort => Q Abort w'
                      | Fault => Q Fault w'
                      end) -> wp (m ≫= k) w Q.
Proof.
  unfold wp, mbind, M_bind. destruct (m w) as [[a|c| |] w']; auto.
Qed.

Lemma bind_ok {A B} (m : M A) (k : A -> M B) w a w' :
  m w = (Ok a, w') -> (m ≫= k) w = k a w'.
Proof. unfold mbind, M_bind. by intros ->. Qed.

Lemma bind_inv {A B} (m : M A) (k : A -> M B) w b w' :
  (m ≫= k) w = (Ok b, w') -> exists a w1, m w = (Ok a, w1) /\ k a w1 = (Ok b, w').
Proof.
  unfold mbind, M_bind. destruct (m w) as [[a|c| |] w1]; [eauto|..]; discriminate.
Qed.

(** *** Symbolic execution

    The rewrite database [run] executes the primitive steps of an operation. *)

Definition set_cfg (c : format) (w : world) : world := w <| w_cfg := c |>.

Section run.
Context {A B : Type}.
Implicit Types (k : A -> M B) (w : world).

Lemma bind_bind {C} (m : M C) (f : C -> M A) k w :
  ((m ≫= f) ≫= k) w = (m ≫= fun x => f x ≫= k) w.
Proof. unfold mbind, M_bind. by destruct (m w) as [[]?]. Qed.

Lemma bind_ret (a : A) k w : (mret a ≫= k) w = k a w.
Proof. done. Qed.

Lemma bind_gets (f : world -> A) k w : (gets f ≫= k) w = k (f w) w.
Proof. done. Qed.

Lemma bind_exit c k w : ((exit c : M A) ≫= k) w = (Exit c, w).
Proof. done. Qed.

Lemma bind_fault k w : ((fault : M A) ≫= k) w = (Fault, w).
Proof. done. Qed.

Lemma bind_if {b : bool} (m1 m2 : M A) k w :
  ((if b then m1 else m2) ≫= k) w = if b then (m1 ≫= k) w else (m2 ≫= k) w.
Proof. by destruct b. Qed.

Lemma run_if {b : bool} (m1 m2 : M A) w : (if b then m1 else m2) w = if b then m1 w else m2 w.
Proof. by destruct b. Qed.
End run.

Lemma bind_cfg {B} (k : format -> M B) w : (cfg ≫= k) w = k (w_cfg w) w.
Proof. done. Qed.

Lemma bind_opt {B} (k : options -> M B) w : (opt ≫= k) w = k (w_opt w) w.
Proof. done. Qed.

Lemma bind_env {B} (k : environment -> M B) w : (env ≫= k) w = k (w_env w) w.
Proof. done. Qed.

Lemma bind_upd_cfg {B} f (k : unit -> M B) w :
  (upd_cfg f ≫= k) w = k () (set_cfg (f (w_cfg w)) w).
Proof. done. Qed.

Lemma bind_upd_md {B} f (k : unit -> M B) w :
  (upd_md f ≫= k) w = k () (set_cfg (w_cfg w <| cfg_md := f (cfg_md (w_cfg w)) |>) w).
Proof. done. Qed.

Lemma run_upd_cfg f w : upd_cfg f w = (Ok (), set_cfg (f (w_cfg w)) w).
Proof. done. Qed.

Lemma run_upd_md f w :
  upd_md f w = (Ok (), set_cfg (w_cfg w <| cfg_md := f (cfg_md (w_cfg w)) |>) w).
Proof. done. Qed.

(** The world after printing [s]. *)
Definition out (s : string) (w : world) : world := w <| w_out := w_out w ++ [s] |>.

Lemma bind_printf {B} s (k : unit -> M B) w : (printf s ≫= k) w = k () (out s w).
Proof. done. Qed.

Lemma run_printf s w : printf s w = (Ok (), out s w).
Proof. done. Qed.

Lemma w_cfg_out s w : w_cfg (out s w) = w_cfg w.
Proof. done. Qed.

Lemma w_opt_out s w : w_opt (out s w) = w_opt w.
Proof. done. Qed.

Lemma w_env_out s w : w_env (out s w) = w_env w.
Proof. done. Qed.

Lemma w_dev_out s w : w_dev (out s w) = w_dev w.
Proof. done. Qed.

Lemma w_buf_out s w : w_buf (out s w) = w_buf w.
Proof. done. Qed.

Lemma w_stdin_out s w : w_stdin (out s w) = w_stdin w.
Proof. done. Qed.

Lemma bind_ASSERT {B} b (k : unit -> M B) w :
  (ASSERT b ≫= k) w = if b then k () w else (Abort, w).
Proof. by destruct b. Qed.

Lemma run_mret {A} (a : A) w : (mret a : M A) w = (Ok a, w).
Proof. done. Qed.

Lemma run_exit {A} c w : (exit c : M A) w = (Exit c, w).
Proof. done. Qed.

Lemma set_cfg_twice c1 c2 w : set_cfg c2 (set_cfg c1 w) = set_cfg c2 w.
Proof. done. Qed.

Lemma w_cfg_set c w : w_cfg (set_cfg c w) = c.
Proof. done. Qed.

Lemma w_opt_set c w : w_opt (set_cfg c w) = w_opt w.
Proof. done. Qed.

Lemma w_env_set c w : w_env (set_cfg c w) = w_env w.
Proof. done. Qed.

Lemma w_dev_set c w : w_dev (set_cfg c w) = w_dev w.
Proof. done. Qed.

Lemma w_buf_set c w : w_buf (set_cfg c w) = w_buf w.
Proof. done. Qed.

#[export] Hint Rewrite @bind_bind @bind_ret @bind_gets @bind_exit @bind_fault @bind_cfg @bind_opt
  @bind_env @bind_upd_cfg @bind_upd_md @bind_ASSERT run_upd_cfg run_upd_md @run_mret
  @run_exit set_cfg_twice w_cfg_set w_opt_set w_env_set w_dev_set w_buf_set
  @bind_printf run_printf w_cfg_out w_opt_out w_env_out w_dev_out w_buf_out w_stdin_out : run.

Ltac run := autorewrite with run.
Ltac run_in H := autorewrite with run in H.

Lemma bind_when {B} b m (k : unit -> M B) w :
  (when b m ≫= k) w = if b then (m ≫= k) w else k () w.
Proof. by destruct b. Qed.

Lemma pread_or_die_inv pos count offset w r w' :
  pread_or_die pos count offset w = (Ok r, w') ->
  w' = w <| w_buf := copy (w_buf w) pos (w_dev w) offset count |> /\
  0 <= offset /\ offset + count <= dev_size (w_env w).
Proof.
  unfold pread_or_die, env, gets, mbind, M_bind. cbn.
  destruct (Z.ltb_spec offset 0); [done|].
  destruct (Z.ltb_spec (dev_size (w_env w)) (offset + count)); [done|].
  destruct (buffer_size <? pos + count); [done|]. intros Hr. by injection Hr as _ <-.
Qed.

Lemma bind_pread_inv {B} pos count offset (k : unit -> M B) w r w' :
  (pread_or_die pos count offset ≫= k) w = (Ok r, w') ->
  k () (w <| w_buf := copy (w_buf w) pos (w_dev w) offset count |>) = (Ok r, w') /\
  0 <= offset /\ offset + count <= dev_size (w_env w).
Proof.
  intros Hr. apply bind_inv in Hr as (u & w1 & Hp & Hr). apply pread_or_die_inv in Hp as (-> & Ho & He).
  by destruct u.
Qed.

(** The user said yes, or --force stands for it. *)
Definition agreed (w : world) : Prop :=
  force (w_opt w) = true \/
  exists line lines, stdin_isatty (w_env w) = true /\ w_stdin w = line :: lines /\ answer_is_yes line = true.

Lemma confirmed_agreed w w' : confirmed w = (Ok true, w') -> agreed w.
Proof.
  unfold confirmed, opt, env, gets, getline, mbind, M_bind. cbn.
  destruct (force (w_opt w)) eqn:Hf; [by left|]. cbn.
  destruct (stdin_isatty (w_env w)) eqn:Ht; [|done]. cbn.
  destruct (w_stdin w) as [|line lines] eqn:Hs; [done|]. intros Hr. injection Hr as Hy _.
  right. eauto.
Qed.

(** [keeps R m]: whatever the outcome of [m], the worlds before and after it
    are related by [R]. *)
Definition keeps {A} (R : world -> world -> Prop) (m : M A) : Prop := forall w, R w (m w).2.

Lemma keeps_ret {A} R `{!Reflexive R} (a : A) : keeps R (mret a : M A).
Proof. intros w. cbn. reflexivity. Qed.

Lemma keeps_bind {A B} R `{!Transitive R} (m : M A) (k : A -> M B) :
  keeps R m -> (forall a, keeps R (k a)) -> keeps R (m ≫= k).
Proof.
  intros Hm Hk w. unfold mbind, M_bind. specialize (Hm w).
  destruct (m w) as [[a|c| |] w'] eqn:E; cbn in *; [|done..].
  etransitivity; [apply Hm | apply Hk].
Qed.

Lemma keeps_gets {A} R `{!Reflexive R} (f : world -> A) : keeps R (gets f).
Proof. intros w. cbn. reflexivity. Qed.

Lemma keeps_exit {A} R `{!Reflexive R} c : keeps R (exit c : M A).
Proof. intros w. cbn. reflexivity. Qed.

Lemma keeps_fault {A} R `{!Reflexive R} : keeps R (fault : M A).
Proof. intros w. cbn. reflexivity. Qed.

Lemma keeps_ASSERT R `{!Reflexive R} b : keeps R (ASSERT b).
Proof. intros w. unfold ASSERT. destruct b; cbn; reflexivity. Qed.

Lemma keeps_modify R f : (forall w, R w (f w)) -> keeps R (modify f).
Proof. intros Hf w. apply Hf. Qed.

Lemma keeps_when R `{!Reflexive R} b m : keeps R m -> keeps R (when b m).
Proof. destruct b; [done|]. intros _. apply keeps_ret. done. Qed.

Create HintDb keeps.
#[export] Hint Resolve keeps_ret keeps_gets keeps_exit keeps_fault keeps_ASSERT : keeps.

(** Walks through an operation, leaving the steps the database does not know. *)
Ltac keeps :=
  repeat lazymatch goal with
    | |- keeps ?R (mbind _ _) => apply keeps_bind; [typeclasses eauto | | intros ?]
    | |- keeps ?R (when _ _) => apply keeps_when; [typeclasses eauto|]
    | |- keeps ?R (if ?b then _ else _) => destruct b
    | |- keeps ?R (match ?x with _ => _ end) => destruct x
    | |- keeps ?R (let '_ := ?x in _) => destruct x
    | |- keeps ?R cfg => unfold cfg
    | |- keeps ?R opt => unfold opt
    | |- keeps ?R env => unfold env
    | |- keeps ?R _ => first [solve [eauto with keeps typeclass_instances] | fail]
    end.

(** ** The I/O layer *)

(** Two worlds whose devices hold the same bytes. *)
Definition same_dev (w w' : world) : Prop := mem_equiv (w_dev w) (w_dev w').

(** The device holds the same bytes outside of [lo, hi). *)
Definition same_dev_outside (lo hi : Z) (w w' : world) : Prop :=
  forall i, ~ (lo <= i < hi) -> w_dev w' i = w_dev w i.

(** The step from [w] to [w'] did not write to the device, and [w'] writes to it
    exactly when [w] does. *)
Definition bystander (w w' : world) : Prop :=
  w_dev w' = w_dev w /\ dry_run (w_opt w') = dry_run (w_opt w) /\
  option_initialize_bitmap_mode (w_opt w') = option_initialize_bitmap_mode (w_opt w).

#[export] Instance bystander_preorder : PreOrder bystander.
Proof.
  split; [by intros w|]. intros w1 w2 w3 (H1 & H2 & H3) (H4 & H5 & H6). split_and!; congruence.
Qed.

(** A relation that holds over such steps, and one that write requests keep. *)
Class Passive (R : world -> world -> Prop) := {
  passive_preorder :: PreOrder R;
  passive_step : forall w w', bystander w w' -> R w w'
}.

Class KeptByWrites (R : world -> world -> Prop) :=
  kept_pwrite_or_die : forall src count offset, keeps R (pwrite_or_die src count offset).

(** The content of the device is the same. *)
Definition same_content (w w' : world) : Prop := w_dev w' = w_dev w.

#[export] Instance same_content_passive : Passive same_content.
Proof. split; [split; [by intros w | intros w1 w2 w3; unfold same_content; congruence]|]. by intros w w' []. Qed.

(** Dry runs: the option stays set and the device stays as it is. *)
Definition dry (w w' : world) : Prop :=
  dry_run (w_opt w) = true -> dry_run (w_opt w') = true /\ w_dev w' = w_dev w.

#[export] Instance dry_passive : Passive dry.
Proof.
  split; [split|].
  - intros w Hw. done.
  - intros w1 w2 w3 H12 H23 H1. destruct (H12 H1) as [H2 <-]. destruct (H23 H2) as [H3 <-]. done.
  - intros w w' (Hd & Ho & _) Hdry. split; congruence.
Qed.

Section passive.
Context {R : world -> world -> Prop} `{!Passive R}.

Lemma passive_modify f : (forall w, bystander w (f w)) -> keeps R (modify f).
Proof. intros Hf w. by apply passive_step. Qed.

Lemma passive_same {A} (m : M A) : (forall w, bystander w (m w).2) -> keeps R m.
Proof. intros Hm w. by apply passive_step. Qed.

Lemma keeps_upd_cfg f : keeps R (upd_cfg f).
Proof. by apply passive_modify. Qed.

Lemma keeps_upd_md f : keeps R (upd_md f).
Proof. by apply passive_modify. Qed.

Lemma keeps_upd_buf f : keeps R (upd_buf f).
Proof. by apply passive_modify. Qed.

Lemma keeps_printf s : keeps R (printf s).
Proof. by apply passive_modify. Qed.

Lemma keeps_get_random_bytes : keeps R get_random_bytes.
Proof. apply passive_same. intros w. unfold get_random_bytes. by destruct (w_random w). Qed.

Lemma keeps_getline : keeps R getline.
Proof. apply passive_same. intros w. unfold getline. by destruct (w_stdin w). Qed.

Lemma keeps_suppressed : keeps R (modify (fun w => w <| quiet_suppressed := quiet_suppressed w + 1 |>)).
Proof. by apply passive_modify. Qed.

Lemma keeps_lk_bdev_delete : keeps R lk_bdev_delete.
Proof. by apply passive_modify. Qed.
End passive.

#[export] Hint Resolve keeps_upd_cfg keeps_upd_md keeps_upd_buf keeps_printf keeps_get_random_bytes
  keeps_getline keeps_suppressed keeps_lk_bdev_delete : keeps.

Section passive.
Context {R : world -> world -> Prop} `{!Passive R}.

Lemma keeps_confirmed : keeps R confirmed.
Proof. unfold confirmed. keeps. Qed.

Lemma keeps_generate_random_uuid `{DrbdHeaders} : keeps R generate_random_uuid.
Proof.
  unfold generate_random_uuid. generalize 4%nat. intros n.
  induction n as [|n IH]; cbn [generate_random_uuid_loop]; keeps.
Qed.

Lemma keeps_pread_or_die pos count offset : keeps R (pread_or_die pos count offset).
Proof. unfold pread_or_die. keeps. by apply passive_modify. Qed.

Lemma keeps_validate count offset : keeps R (validate_offsets_or_die count offset).
Proof. unfold validate_offsets_or_die. keeps. Qed.

Lemma keeps_lk_bdev_load_file : keeps R lk_bdev_load_file.
Proof. unfold lk_bdev_load_file. keeps. Qed.

Lemma keeps_lk_bdev_save_file bd : keeps R (lk_bdev_save_file bd).
Proof. unfold lk_bdev_save_file. keeps. by apply passive_modify. Qed.

Lemma keeps_generic_md_close : keeps R generic_md_close.
Proof. unfold generic_md_close. keeps. Qed.

Lemma keeps_pwrite_or_die `{!KeptByWrites R} src count offset : keeps R (pwrite_or_die src count offset).
Proof. apply kept_pwrite_or_die. Qed.
End passive.

#[export] Hint Resolve keeps_confirmed keeps_generate_random_uuid keeps_pread_or_die keeps_validate
  keeps_lk_bdev_load_file keeps_lk_bdev_save_file keeps_generic_md_close keeps_pwrite_or_die : keeps.

Lemma keeps_pwrite_buffer {R} `{!Passive R, !KeptByWrites R} count offset :
  keeps R (pwrite_buffer_or_die count offset).
Proof. unfold pwrite_buffer_or_die. keeps. Qed.

#[export] Hint Resolve keeps_pwrite_buffer : keeps.

(** What [validate_offsets_or_die] lets pass: the announced offset of an old
    meta data block, or a range inside of the meta data area (or anything, under
    --ignore-sanity-checks). *)
Definition write_allowed (w : world) (count offset : Z) : bool :=
  is_wipe_offset (w_cfg w) offset ||
  negb ((offset <? md_area_start (w_cfg w)) ||
        (u64 (md_area_end (w_cfg w)) <? u64 (offset + count))) ||
  ignore_sanity_checks (w_opt w).

Lemma validate_run w count offset :
  validate_offsets_or_die count offset w =
  (if write_allowed w count offset then Ok () else Exit 10, w).
Proof.
  unfold validate_offsets_or_die, write_allowed, cfg, opt, gets, mbind, M_bind, mret, M_ret, exit.
  destruct (is_wipe_offset _ _); [done|]. cbn.
  destruct (_ || _); cbn; [by destruct (ignore_sanity_checks _)|done].
Qed.

(** The world after a counted write request. *)
Definition counted (w : world) : world := w <| n_writes := n_writes w + 1 |>.

Lemma pwrite_or_die_run src count offset w :
  pwrite_or_die src count offset w =
  if write_allowed w count offset then
    if dry_run (w_opt w) then (Ok (), counted w) else pwrite src count offset (counted w)
  else (Exit 10, w).
Proof.
  unfold pwrite_or_die, mbind, M_bind. rewrite validate_run.
  destruct (write_allowed w count offset); [|done]. cbn.
  by destruct (dry_run (w_opt w)).
Qed.

(** A write that is allowed and fits on the device does what it says. *)
Lemma pwrite_or_die_ok src count offset w :
  write_allowed w count offset = true -> dry_run (w_opt w) = false ->
  0 <= offset -> 0 <= count -> offset + count <= dev_size (w_env w) ->
  pwrite_or_die src count offset w =
  (Ok (), counted w <| w_dev := copy (w_dev w) offset src 0 count |>).
Proof.
  intros Ha Hd Ho Hc He. rewrite pwrite_or_die_run, Ha, Hd. unfold pwrite, env, gets, mbind, M_bind.
  cbn. destruct (Z.ltb_spec offset 0); [lia|]. cbn.
  assert ((dev_size (w_env w) <=? offset) && (0 <? count) = false) as ->
    by (apply andb_false_iff; lia).
  rewrite Z.min_l by lia. unfold when. by rewrite Z.ltb_irrefl.
Qed.

Lemma pread_or_die_ok pos count offset w :
  0 <= offset -> offset + count <= dev_size (w_env w) -> pos + count <= buffer_size ->
  pread_or_die pos count offset w =
  (Ok (), w <| w_buf := copy (w_buf w) pos (w_dev w) offset count |>).
Proof.
  intros Ho He Hb. unfold pread_or_die, env, gets, mbind, M_bind. cbn.
  destruct (Z.ltb_spec offset 0); [lia|].
  destruct (Z.ltb_spec (dev_size (w_env w)) (offset + count)); [lia|].
  destruct (Z.ltb_spec buffer_size (pos + count)); [lia|]. done.
Qed.

Lemma pwrite_dev src count offset w i :
  ~ (offset <= i < offset + count) ->
  w_dev (pwrite src count offset w).2 i = w_dev w i.
Proof.
  intros Hi. unfold pwrite, env, gets, mbind, M_bind. cbn.
  destruct (_ || _); [done|]. unfold when, modify. cbn.
  destruct (Z.min _ _ <? count); cbn; unfold copy; case_range; (done || lia).
Qed.

#[export] Instance dry_kept_by_writes : KeptByWrites dry.
Proof.
  intros src count offset w Hd. rewrite pwrite_or_die_run. destruct (write_allowed _ _ _); [|done].
  by rewrite Hd.
Qed.

(** The configuration, the options and the environment are the same. *)
Definition same_setup (w w' : world) : Prop :=
  w_cfg w' = w_cfg w /\ w_opt w' = w_opt w /\ w_env w' = w_env w.

#[export] Instance same_setup_preorder : PreOrder same_setup.
Proof.
  split; [by repeat split|]. intros w1 w2 w3 (H1 & H2 & H3) (H4 & H5 & H6).
  repeat split; congruence.
Qed.

(** The meta data are looked for at the same place of the same device. *)
Definition same_place (w w' : world) : Prop :=
  ops (w_cfg w') = ops (w_cfg w) /\ md_index (w_cfg w') = md_index (w_cfg w) /\
  cfg_bd_size (w_cfg w') = cfg_bd_size (w_cfg w) /\ md_offset (w_cfg w') = md_offset (w_cfg w) /\
  md_hard_sect_size (w_cfg w') = md_hard_sect_size (w_cfg w) /\
  w_opt w' = w_opt w /\ w_env w' = w_env w.

#[export] Instance same_place_preorder : PreOrder same_place.
Proof.
  split; [by intros w; split_and!|].
  intros w1 w2 w3 (H1 & H2 & H3 & H4 & H5 & H6 & H7) (I1 & I2 & I3 & I4 & I5 & I6 & I7). split_and!; congruence.
Qed.

(** The [size] bytes from [off] on the device can be read, and writing there
    is allowed. *)
Definition rw_area (w : world) (off size : Z) : Prop :=
  0 <= off /\ off + size <= dev_size (w_env w) /\ off + size < 2 ^ 63 /\ dry_run (w_opt w) = false /\
  forall count offset, off <= offset -> offset + count <= off + size -> 0 <= count ->
    write_allowed w count offset = true.

Lemma rw_area_setup w w' off size : same_setup w w' -> rw_area w off size -> rw_area w' off size.
Proof.
  intros (Hc & Ho & He) (H0 & H1 & H2 & H3 & H4). unfold rw_area, write_allowed in *. rewrite Hc, Ho, He.
  done.
Qed.

(** An area inside of the meta data area. *)
Lemma rw_area_intro w off size :
  md_area_start (w_cfg w) <= off -> off + size <= md_area_end (w_cfg w) < 2 ^ 63 ->
  0 <= off -> off + size <= dev_size (w_env w) -> dry_run (w_opt w) = false ->
  rw_area w off size.
Proof.
  intros Hs [He H63] H0 Hd Hdry. split; [done|]. split; [done|]. split; [lia|]. split; [done|].
  intros count offset Ho Hc Hcount. unfold write_allowed. apply orb_true_iff. left. apply orb_true_iff. right.
  apply negb_true_iff, orb_false_iff. rewrite Z.ltb_ge, Z.ltb_ge.
  rewrite !u64_id by (unfold in_u64; lia). lia.
Qed.

(** ** A world for the examples

    [blank_world f c dev size] runs command [c] on meta data of format [f] on a
    block device with [size] bytes [dev]; every request to the system is granted. *)
Definition blank_cfg `{DrbdHeaders} (f : md_format) : format :=
  mk_format f "/dev/sdx" 0 512 0 0 0 false false zero_md 0 0 0 0 0 0 0 0 (mk_bdev_info 0 0 None).

Definition blank_env (size : Z) : environment :=
  mk_environment size true [] true true (Some 512) (fun _ _ => true) true false true None.

Definition blank_world `{DrbdHeaders} (f : md_format) (c : meta_command) (dev : mem) (size : Z) : world :=
  mk_world (blank_cfg f) (default_options c) (blank_env size) dev zero_mem None [] [] [] 0 0.

(** ** Theorems *)

(** What a write request may change. *)
Lemma pwrite_or_die_changes src count offset w i :
  w_dev (pwrite_or_die src count offset w).2 i <> w_dev w i ->
  offset <= i < offset + count /\ dry_run (w_opt w) = false /\ write_allowed w count offset = true.
Proof.
  rewrite pwrite_or_die_run. destruct (write_allowed w count offset) eqn:Ha; [|done].
  destruct (dry_run (w_opt w)); [done|]. intros Hne. split; [|done].
  destruct (decide (offset <= i < offset + count)) as [|Hi]; [done|].
  exfalso. apply Hne. by rewrite pwrite_dev.
Qed.

(** a random UUID is never 0, never UUID_JUST_CREATED, and has bit 0
    clear, which the kernel module reserves. *)
Theorem generate_random_uuid_valid `{DrbdHeaders} w u w' :
  generate_random_uuid w = (Ok u, w') ->
  in_u64 u /\ u <> 0 /\ u <> UUID_JUST_CREATED /\ Z.testbit u 0 = false.
Proof.
  unfold generate_random_uuid. generalize 4%nat. intros n. revert w.
  induction n as [|n IH]; intros w Hr; [done|]. cbn [generate_random_uuid_loop] in Hr.
  apply bind_inv in Hr as (v & w1 & Hg & Hr).
  assert (Hv : in_u64 v).
  { unfold get_random_bytes in Hg. destruct (w_random w) as [|x l]; [done|].
    injection Hg as <- _. apply u64_range. }
  destruct (negb _ && negb _) eqn:Hb; [|by apply (IH w1)].
  injection Hr as <- <-. apply andb_true_iff in Hb as [H0 H1].
  apply negb_true_iff, Z.eqb_neq in H0, H1.
  pose proof (u64_range (Z.lnot 1)) as Hm. unfold in_u64 in *.
  pose proof (land_le_r v (u64 (Z.lnot 1))). repeat split; try done; try lia.
  rewrite Z.land_spec. by rewrite andb_false_r.
Qed.

Lemma generate_random_uuid_valid_witness :
  generate_random_uuid (blank_world DRBD_V09 create_md zero_mem 0 <| w_random := [1; 5; 2 ^ 64 - 1] |>)
  = (Ok (2 ^ 64 - 2), blank_world DRBD_V09 create_md zero_mem 0) /\
  (in_u64 (2 ^ 64 - 2) /\ 2 ^ 64 - 2 <> 0 /\ 2 ^ 64 - 2 <> UUID_JUST_CREATED /\
   Z.testbit (2 ^ 64 - 2) 0 = false).
Proof.
  assert (Hr : generate_random_uuid
    (blank_world DRBD_V09 create_md zero_mem 0 <| w_random := [1; 5; 2 ^ 64 - 1] |>)
    = (Ok (2 ^ 64 - 2), blank_world DRBD_V09 create_md zero_mem 0)) by reflexivity.
  split; [exact Hr | exact (generate_random_uuid_valid _ _ _ Hr)].
Defined.
