(* ===== verification/OnDisk.v ===== *)
(** * On-disk formats and their conversions

    The super blocks of DRBD 0.6, 0.7, 8.x and 9 and the activity log blocks of
    0.7 and 8.4, as drbdmeta.c reads them from and writes them to a buffer.  A
    conversion to disk is the list of its assignments in the order of the code. *)

From S2P Require Import Prelude Machine Crc Headers MetaData.

(** ** Big-endian members *)

Definition be16_at (m : mem) (a : Z) : Z := be16_to_cpu (load_le 2 m a).
Definition be32_at (m : mem) (a : Z) : Z := be32_to_cpu (load_le 4 m a).
Definition be64_at (m : mem) (a : Z) : Z := be64_to_cpu (load_le 8 m a).

(** An assignment: offset and size of the member, and its value. *)
Notation store := (Z * nat * Z)%type.

Definition store_fields (l : list store) (m : mem) : mem :=
  fold_left (fun m s => store_le s.1.2 m s.1.1 s.2) l m.

Definition put16 (a x : Z) : store := ((a, 2%nat), cpu_to_be16 x).
Definition put32 (a x : Z) : store := ((a, 4%nat), cpu_to_be32 x).
Definition put64 (a x : Z) : store := ((a, 8%nat), cpu_to_be64 x).

(** ** DRBD 0.6 *)

Definition DRBD_MD_MAGIC_06 `{DrbdHeaders} : Z := DRBD_MAGIC + 2.
Definition DRBD_MD_MAGIC_07 `{DrbdHeaders} : Z := DRBD_MAGIC + 3.
Definition DRBD_MD_MAGIC_08 `{DrbdHeaders} : Z := DRBD_MAGIC + 4.
Definition DRBD_MD_MAGIC_84_UNCLEAN `{DrbdHeaders} : Z := DRBD_MAGIC + 5.
Definition DRBD_MD_MAGIC_09 `{DrbdHeaders} : Z := DRBD_MAGIC + 6.

(** struct md_on_disk_06: [gc] at 0, [magic] at 20. *)
Definition sizeof_md_on_disk_06 : Z := 24.

Definition md_disk_06_to_cpu `{DrbdHeaders} (disk : mem) (a : Z) : md_cpu :=
  zero_md
    <| gc := (fun i => be32_at disk (a + 4 * i)) <$> upto GEN_CNT_SIZE |>
    <| magic := be32_at disk (a + 20) |>
    <| max_peers := 1 |>.

Definition md_stores_06 (cpu : md_cpu) : list store :=
  ((fun i => put32 (4 * i) (arr (gc cpu) i)) <$> upto GEN_CNT_SIZE) ++
  [put32 20 (magic cpu)].

Definition md_cpu_to_disk_06 (disk : mem) (cpu : md_cpu) : mem :=
  store_fields (md_stores_06 cpu) disk.

Definition v06_validate_md `{DrbdHeaders} (c : format) : bool :=
  magic (cfg_md c) =? DRBD_MD_MAGIC_06.

(** ** DRBD 0.7 *)

(** struct md_on_disk_07: [la_kb] at 0, [gc] at 8, [magic] at 28, [md_size_kb]
    at 32, [al_offset] at 36, [al_nr_extents] at 40, [bm_offset] at 44,
    [reserved] from 48 up to 4096. *)
Definition sizeof_md_on_disk_07 : Z := 4096.

Definition md_disk_07_to_cpu `{DrbdHeaders} (disk : mem) (a : Z) : md_cpu := {|
  effective_size := u64 (Z.shiftl (be64_at disk a) 1);
  gc := (fun i => be32_at disk (a + (8 + 4 * i))) <$> upto GEN_CNT_SIZE;
  magic := be32_at disk (a + 28);
  md_size_sect := u32 (Z.shiftl (be32_at disk (a + 32)) 1);
  al_offset := s32 (be32_at disk (a + 36));
  al_nr_extents := be32_at disk (a + 40);
  bm_offset := s32 (be32_at disk (a + 44));
  bm_bytes_per_bit := BM_BLOCK_SIZE_4k;
  max_peers := 1;
  al_stripes := 1;
  al_stripe_size_4k := 8;
  (* from the memset *)
  current_uuid := 0;
  history_uuids := history_uuids zero_md;
  flags := 0;
  device_uuid := 0;
  la_peer_max_bio_size := 0;
  node_id := 0;
  peers := peers zero_md;
  members := 0
|}.

Definition md_stores_07 (cpu : md_cpu) : list store :=
  put64 0 (Z.shiftr (effective_size cpu) 1) ::
  ((fun i => put32 (8 + 4 * i) (arr (gc cpu) i)) <$> upto GEN_CNT_SIZE) ++
  [put32 28 (magic cpu);
   put32 32 (Z.shiftr (md_size_sect cpu) 1);
   put32 36 (al_offset cpu);
   put32 40 (al_nr_extents cpu);
   put32 44 (bm_offset cpu)].

Definition md_cpu_to_disk_07 (disk : mem) (cpu : md_cpu) : mem :=
  memset (store_fields (md_stores_07 cpu) disk) 48 0 (8 * 512 - 48).

(** ** DRBD 8 *)

(** struct md_on_disk_08: the members before and after [uuid[UI_SIZE]]. *)
Definition d8_uuid (i : Z) : Z := 8 + 8 * i.
Definition d8_device_uuid `{DrbdHeaders} : Z := 8 + 8 * UI_SIZE.
Definition d8_u32 `{DrbdHeaders} (i : Z) : Z := 24 + 8 * UI_SIZE + 4 * i.
Definition sizeof_md_on_disk_08 : Z := 4096.

Definition md_disk_08_to_cpu `{DrbdHeaders} (disk : mem) (a : Z) : md_cpu :=
  let stripes := be32_at disk (a + d8_u32 8) in
  let stripe_size_4k := be32_at disk (a + d8_u32 9) in
  (* not set? --> default to old fixed size activity log *)
  let unset := (stripes =? 0) && (stripe_size_4k =? 0) in {|
  effective_size := be64_at disk a;
  current_uuid := be64_at disk (a + d8_uuid UI_CURRENT);
  peers := zinsert 0 (mk_peer_md_cpu (be64_at disk (a + d8_uuid UI_BITMAP)) 0 0 0) (peers zero_md);
  history_uuids :=
    ((fun i => be64_at disk (a + d8_uuid (UI_HISTORY_START + i))) <$> upto HISTORY_UUIDS_V08) ++
    drop (Z.to_nat HISTORY_UUIDS_V08) (history_uuids zero_md);
  device_uuid := be64_at disk (a + d8_device_uuid);
  flags := be32_at disk (a + d8_u32 0);
  magic := be32_at disk (a + d8_u32 1);
  md_size_sect := be32_at disk (a + d8_u32 2);
  al_offset := s32 (be32_at disk (a + d8_u32 3));
  al_nr_extents := be32_at disk (a + d8_u32 4);
  bm_offset := s32 (be32_at disk (a + d8_u32 5));
  bm_bytes_per_bit := be32_at disk (a + d8_u32 6);
  la_peer_max_bio_size := be32_at disk (a + d8_u32 7);
  max_peers := 1;
  al_stripes := if unset then 1 else stripes;
  al_stripe_size_4k := if unset then 8 else stripe_size_4k;
  (* from the memset *)
  gc := gc zero_md;
  node_id := 0;
  members := 0
|}.

Definition md_stores_08 `{DrbdHeaders} (cpu : md_cpu) : list store :=
  [put64 0 (effective_size cpu);
   put64 (d8_uuid UI_CURRENT) (current_uuid cpu);
   put64 (d8_uuid UI_BITMAP) (bitmap_uuid (peer_at cpu 0))] ++
  ((fun i => put64 (d8_uuid (UI_HISTORY_START + i)) (arr (history_uuids cpu) i)) <$>
     upto HISTORY_UUIDS_V08) ++
  [put64 d8_device_uuid (device_uuid cpu);
   put32 (d8_u32 0) (flags cpu);
   put32 (d8_u32 1) (magic cpu);
   put32 (d8_u32 2) (md_size_sect cpu);
   put32 (d8_u32 3) (al_offset cpu);
   put32 (d8_u32 4) (al_nr_extents cpu);
   put32 (d8_u32 5) (bm_offset cpu);
   put32 (d8_u32 6) (bm_bytes_per_bit cpu);
   put32 (d8_u32 7) (la_peer_max_bio_size cpu);
   put32 (d8_u32 8) (al_stripes cpu);
   put32 (d8_u32 9) (al_stripe_size_4k cpu)].

Definition md_cpu_to_disk_08 `{DrbdHeaders} (disk : mem) (cpu : md_cpu) : mem :=
  store_fields (md_stores_08 cpu) (memset disk 0 0 sizeof_md_on_disk_08).

(** ** DRBD 9 *)

Definition sizeof_meta_data_on_disk_9 : Z := 4096.

Definition md_disk_09_to_cpu `{DrbdHeaders} (disk : mem) (a : Z) : md_cpu := {|
  effective_size := be64_at disk (a + d9_effective_size);
  device_uuid := be64_at disk (a + d9_device_uuid);
  flags := be32_at disk (a + d9_flags);
  members := be64_at disk (a + d9_members);
  magic := be32_at disk (a + d9_magic);
  md_size_sect := be32_at disk (a + d9_md_size_sect);
  al_offset := s32 (be32_at disk (a + d9_al_offset));
  al_nr_extents := be32_at disk (a + d9_al_nr_extents);
  bm_offset := s32 (be32_at disk (a + d9_bm_offset));
  bm_bytes_per_bit := be32_at disk (a + d9_bm_bytes_per_bit);
  la_peer_max_bio_size := be32_at disk (a + d9_la_peer_max_bio_size);
  max_peers :=
    if DRBD_PEERS_MAX - 1 <? be32_at disk (a + d9_bm_max_peers)
    then DRBD_PEERS_MAX - 1 else be32_at disk (a + d9_bm_max_peers);
  node_id := s32 (be32_at disk (a + d9_node_id));
  al_stripes := be32_at disk (a + d9_al_stripes);
  al_stripe_size_4k := be32_at disk (a + d9_al_stripe_size_4k);
  current_uuid := be64_at disk (a + d9_current_uuid);
  peers :=
    ((fun p => mk_peer_md_cpu
        (be64_at disk (a + d9_peer p d9_peer_bitmap_uuid))
        (be64_at disk (a + d9_peer p d9_peer_bitmap_dagtag))
        (be32_at disk (a + d9_peer p d9_peer_flags))
        (s32 (be32_at disk (a + d9_peer p d9_peer_bitmap_index)))) <$> upto DRBD_NODE_ID_MAX) ++
    drop (Z.to_nat DRBD_NODE_ID_MAX) (peers zero_md);
  history_uuids :=
    (fun i => be64_at disk (a + (d9_history_uuids + 8 * i))) <$> upto HISTORY_UUIDS;
  (* from the memset *)
  gc := gc zero_md
|}.

Definition md_stores_09 `{DrbdHeaders} (cpu : md_cpu) : list store :=
  [put64 d9_effective_size (effective_size cpu);
   put64 d9_device_uuid (device_uuid cpu);
   put32 d9_flags (flags cpu);
   put64 d9_members (members cpu);
   put32 d9_magic (magic cpu);
   put32 d9_md_size_sect (md_size_sect cpu);
   put32 d9_al_offset (al_offset cpu);
   put32 d9_al_nr_extents (al_nr_extents cpu);
   put32 d9_bm_offset (bm_offset cpu);
   put32 d9_bm_bytes_per_bit (bm_bytes_per_bit cpu);
   put32 d9_la_peer_max_bio_size (la_peer_max_bio_size cpu);
   put32 d9_bm_max_peers (max_peers cpu);
   put32 d9_node_id (node_id cpu);
   put32 d9_al_stripes (al_stripes cpu);
   put32 d9_al_stripe_size_4k (al_stripe_size_4k cpu);
   put64 d9_current_uuid (current_uuid cpu)] ++
  (upto DRBD_NODE_ID_MAX ≫= fun p =>
     [put32 (d9_peer p d9_peer_flags) (peer_flags (peer_at cpu p));
      put32 (d9_peer p d9_peer_bitmap_index) (bitmap_index (peer_at cpu p));
      put64 (d9_peer p d9_peer_bitmap_uuid) (bitmap_uuid (peer_at cpu p));
      put64 (d9_peer p d9_peer_bitmap_dagtag) (bitmap_dagtag (peer_at cpu p))]) ++
  ((fun i => put64 (d9_history_uuids + 8 * i) (arr (history_uuids cpu) i)) <$> upto HISTORY_UUIDS).

Definition md_cpu_to_disk_09 `{DrbdHeaders} (disk : mem) (cpu : md_cpu) : mem :=
  store_fields (md_stores_09 cpu) (memset disk 0 0 sizeof_meta_data_on_disk_9).

(** ** Activity log blocks *)

Record al_sector_cpu := mk_al_sector_cpu {
  al07_magic : Z;
  al07_tr_number : Z;
  al07_updates : list (Z * Z);  (* [pos] and [extent] *)
  al07_xor_sum : Z
}.

(** struct al_sector_on_disk: [magic] at 0, [tr_number] at 4, 62 pairs from 8,
    [xor_sum] at 504.  Returns the sector and whether it is valid. *)
Definition v07_al_disk_to_cpu `{DrbdHeaders} (al_disk : mem) (a : Z) : al_sector_cpu * bool :=
  let updates := (fun i => (be32_at al_disk (a + (8 + 8 * i)), be32_at al_disk (a + (12 + 8 * i)))) <$> upto 62 in
  let xor_sum := fold_left (fun x u => Z.lxor x u.2) updates 0 in
  let al_cpu := mk_al_sector_cpu (be32_at al_disk a) (be32_at al_disk (a + 4)) updates
                  (be32_at al_disk (a + 504)) in
  (al_cpu, (al07_magic al_cpu =? DRBD_MAGIC) && (al07_xor_sum al_cpu =? xor_sum)).

Record al_4k_cpu := mk_al_4k_cpu {
  al84_magic : Z;
  al84_tr_number : Z;
  al84_crc32c : Z;
  al84_transaction_type : Z;
  al84_n_updates : Z;
  al84_context_size : Z;
  al84_context_start_slot_nr : Z;
  al84_update_slot_nr : list Z;
  al84_update_extent_nr : list Z;
  al84_context : list Z;
  al84_is_valid : bool
}.

(** The block with its checksum cleared, as it is left behind in the buffer. *)
Definition al_clear_crc `{DrbdHeaders} (al_disk : mem) (a : Z) : mem :=
  store_le 4 al_disk (a + al_crc32c) 0.

Definition al_block_crc `{DrbdHeaders} (al_disk : mem) (a : Z) : Z :=
  crc32c 0 (buffer (al_clear_crc al_disk a) a (Z.to_nat 4096)).

Definition v84_al_disk_to_cpu `{DrbdHeaders} (al_disk : mem) (a : Z) : al_4k_cpu :=
  mk_al_4k_cpu
    (be32_at al_disk (a + al_magic))
    (be32_at al_disk (a + al_tr_number))
    (be32_at al_disk (a + al_crc32c))
    (be16_at al_disk (a + al_transaction_type))
    (be16_at al_disk (a + al_n_updates))
    (be16_at al_disk (a + al_context_size))
    (be16_at al_disk (a + al_context_start_slot_nr))
    ((fun i => be16_at al_disk (a + (al_update_slot_nr + 2 * i))) <$> upto AL_UPDATES_PER_TRANSACTION)
    ((fun i => be32_at al_disk (a + (al_update_extent_nr + 4 * i))) <$> upto AL_UPDATES_PER_TRANSACTION)
    ((fun i => be32_at al_disk (a + (al_context + 4 * i))) <$> upto AL_CONTEXT_PER_TRANSACTION)
    ((be32_at al_disk (a + al_magic) =? DRBD_AL_MAGIC) &&
     (be32_at al_disk (a + al_crc32c) =? al_block_crc al_disk a)).

(** ** Reading back what was stored *)

Definition stores_ok (size : Z) (l : list store) : Prop := layout_ok size (l.*1) = true.

Lemma store_fields_other l m i :
  (forall s, s ∈ l -> i < s.1.1 \/ s.1.1 + Z.of_nat s.1.2 <= i) -> store_fields l m i = m i.
Proof.
  unfold store_fields. revert m. induction l as [|s l IH]; intros m Hs; [done|].
  cbn [fold_left]. rewrite IH.
  - apply store_le_other, Hs. apply elem_of_cons. by left.
  - intros s' Hs'. apply Hs. apply elem_of_cons. by right.
Qed.

Lemma disjoint_field_spec f g :
  disjoint_field f g = true <-> f.1 + Z.of_nat f.2 <= g.1 \/ g.1 + Z.of_nat g.2 <= f.1.
Proof. unfold disjoint_field. rewrite orb_true_iff, !Z.leb_le. done. Qed.

Lemma load_store_fields size l m s :
  stores_ok size l -> s ∈ l ->
  load_le s.1.2 (store_fields l m) s.1.1 = s.2 mod 256 ^ Z.of_nat s.1.2.
Proof.
  unfold stores_ok. revert m. induction l as [|t l IH]; intros m Hok Hs.
  { by apply elem_of_nil in Hs. }
  rewrite fmap_cons in Hok. cbn [layout_ok] in Hok.
  rewrite !andb_true_iff, forallb_forall in Hok. destruct Hok as [[_ Hd] Hok].
  change (store_fields (t :: l) m) with (store_fields l (store_le t.1.2 m t.1.1 t.2)).
  apply elem_of_cons in Hs as [->|Hs]; [|by apply IH].
  rewrite <- load_store_le with (m := m) (a := t.1.1).
  apply load_le_ext. intros i Hi. apply store_fields_other. intros u Hu.
  specialize (Hd u.1). rewrite disjoint_field_spec in Hd.
  assert (t.1.1 + Z.of_nat t.1.2 <= u.1.1 \/ u.1.1 + Z.of_nat u.1.2 <= t.1.1); [|lia].
  apply Hd, list_elem_of_In. by apply list_elem_of_fmap_2.
Qed.

Section readback.
Context (size : Z) (l : list store) (m : mem) (Hok : stores_ok size l).

Lemma be16_store a x : put16 a x ∈ l -> be16_at (store_fields l m) a = u16 x.
Proof.
  intros Hs. unfold be16_at. apply (load_store_fields size l m) in Hs; [|done].
  cbn [put16 fst snd] in Hs. rewrite Hs. change (256 ^ Z.of_nat 2) with (2 ^ 16).
  rewrite Z.mod_small by (apply (be16_range x)). apply be16_cpu.
Qed.

Lemma be32_store a x : put32 a x ∈ l -> be32_at (store_fields l m) a = u32 x.
Proof.
  intros Hs. unfold be32_at. apply (load_store_fields size l m) in Hs; [|done].
  cbn [put32 fst snd] in Hs. rewrite Hs. change (256 ^ Z.of_nat 4) with (2 ^ 32).
  rewrite Z.mod_small by (apply (be32_range x)). apply be32_cpu.
Qed.

Lemma be64_store a x : put64 a x ∈ l -> be64_at (store_fields l m) a = u64 x.
Proof.
  intros Hs. unfold be64_at. apply (load_store_fields size l m) in Hs; [|done].
  cbn [put64 fst snd] in Hs. rewrite Hs. change (256 ^ Z.of_nat 8) with (2 ^ 64).
  rewrite Z.mod_small by (apply (be64_range x)). apply be64_cpu.
Qed.
End readback.

Lemma be16_at_range m a : in_u16 (be16_at m a).
Proof. apply be16_range. Qed.
Lemma be32_at_range m a : in_u32 (be32_at m a).
Proof. apply be32_range. Qed.
Lemma be64_at_range m a : in_u64 (be64_at m a).
Proof. apply be64_range. Qed.
#[export] Hint Resolve be16_at_range be32_at_range be64_at_range : drbd_range.

(** *** Arrays *)

Lemma length_upto n : length (upto n) = Z.to_nat n.
Proof. apply length_seqZ. Qed.

Lemma elem_upto i n : i ∈ upto n <-> 0 <= i < n.
Proof. unfold upto. rewrite elem_of_seqZ. lia. Qed.

Lemma lookup_upto n i : (i < Z.to_nat n)%nat -> upto n !! i = Some (Z.of_nat i).
Proof. intros. unfold upto. rewrite lookup_seqZ_lt by lia. f_equal; lia. Qed.

(** An array is the list of its elements. *)
Lemma arr_upto l n :
  length l = Z.to_nat n -> (fun i => arr l i) <$> upto n = l.
Proof.
  intros Hl. apply list_eq. intros i. rewrite list_lookup_fmap.
  destruct (decide (i < Z.to_nat n)%nat).
  - rewrite lookup_upto by done. cbn. unfold arr, zlookup.
    destruct (Z.ltb_spec (Z.of_nat i) 0); [lia|]. rewrite Nat2Z.id.
    destruct (l !! i) eqn:E; [done|]. apply lookup_ge_None in E. lia.
  - rewrite !(proj2 (lookup_ge_None _ _)); [done|lia|rewrite length_upto; lia].
Qed.

Lemma fmap_upto_ext {A} (f g : Z -> A) n :
  (forall i, 0 <= i < n -> f i = g i) -> f <$> upto n = g <$> upto n.
Proof.
  intros Hfg. apply list_fmap_ext. intros i x Hx. apply Hfg, elem_upto.
  by eapply list_elem_of_lookup_2.
Qed.

(** Elements of an array of [w] bit unsigned numbers. *)
Definition arr_u32 (n : Z) (l : list Z) : Prop := length l = Z.to_nat n /\ Forall in_u32 l.
Definition arr_u64 (n : Z) (l : list Z) : Prop := length l = Z.to_nat n /\ Forall in_u64 l.

Lemma arr_range (P : Z -> Prop) l i : P 0 -> Forall P l -> P (arr l i).
Proof.
  intros H0 Hl. unfold arr, zlookup. destruct (i <? 0); [done|].
  destruct (l !! Z.to_nat i) eqn:E; [|done]. by eapply Forall_lookup_1 in E.
Qed.

Lemma arr_upto_u32 n l : arr_u32 n l -> (fun i => u32 (arr l i)) <$> upto n = l.
Proof.
  intros [Hlen Hl]. etransitivity; [|by apply (arr_upto l n)]. apply fmap_upto_ext.
  intros i _. apply u32_id, arr_range; [done | done].
Qed.

Lemma arr_upto_u64 n l : arr_u64 n l -> (fun i => u64 (arr l i)) <$> upto n = l.
Proof.
  intros [Hlen Hl]. etransitivity; [|by apply (arr_upto l n)]. apply fmap_upto_ext.
  intros i _. apply u64_id, arr_range; [done | done].
Qed.

(** ** Well-formed working copies: every member within its C type *)

Record peer_wf (p : peer_md_cpu) : Prop := {
  wf_bitmap_uuid : in_u64 (bitmap_uuid p);
  wf_bitmap_dagtag : in_u64 (bitmap_dagtag p);
  wf_peer_flags : in_u32 (peer_flags p);
  wf_bitmap_index : in_s32 (bitmap_index p)
}.

Record md_wf `{DrbdHeaders} (md : md_cpu) : Prop := {
  wf_gc : arr_u32 GEN_CNT_SIZE (gc md);
  wf_magic : in_u32 (magic md);
  wf_effective_size : in_u64 (effective_size md);
  wf_md_size_sect : in_u32 (md_size_sect md);
  wf_al_offset : in_s32 (al_offset md);
  wf_al_nr_extents : in_u32 (al_nr_extents md);
  wf_bm_offset : in_s32 (bm_offset md);
  wf_current_uuid : in_u64 (current_uuid md);
  wf_history_uuids : arr_u64 HISTORY_UUIDS (history_uuids md);
  wf_flags : in_u32 (flags md);
  wf_device_uuid : in_u64 (device_uuid md);
  wf_bm_bytes_per_bit : in_u32 (bm_bytes_per_bit md);
  wf_la_peer_max_bio_size : in_u32 (la_peer_max_bio_size md);
  wf_max_peers : in_u32 (max_peers md);
  wf_node_id : in_s32 (node_id md);
  wf_peers : length (peers md) = Z.to_nat DRBD_PEERS_MAX /\ Forall peer_wf (peers md);
  wf_al_stripes : in_u32 (al_stripes md);
  wf_al_stripe_size_4k : in_u32 (al_stripe_size_4k md);
  wf_members : in_u64 (members md)
}.

Lemma zero_peer_wf : peer_wf zero_peer.
Proof. by split. Qed.

Lemma arr_u32_zero n : 0 <= n -> arr_u32 n (replicate (Z.to_nat n) 0).
Proof. intros. split; [apply length_replicate|]. by apply Forall_replicate. Qed.

Lemma arr_u64_zero n : 0 <= n -> arr_u64 n (replicate (Z.to_nat n) 0).
Proof. intros. split; [apply length_replicate|]. by apply Forall_replicate. Qed.

Lemma zero_md_wf `{DrbdHeaders} : md_wf zero_md.
Proof.
  split; try done; cbn [gc history_uuids peers zero_md].
  - by apply arr_u32_zero.
  - by apply arr_u64_zero.
  - split; [apply length_replicate | apply Forall_replicate, zero_peer_wf].
Qed.

Lemma peer_at_wf `{DrbdHeaders} md p : md_wf md -> peer_wf (peer_at md p).
Proof.
  intros Hmd. destruct (wf_peers _ Hmd) as [_ Hp]. unfold peer_at, zlookup.
  destruct (p <? 0); [apply zero_peer_wf|].
  destruct (peers md !! Z.to_nat p) eqn:E; [|apply zero_peer_wf].
  by eapply Forall_lookup_1 in E.
Qed.

Lemma upto_S n : 0 <= n -> upto (n + 1) = upto n ++ [n].
Proof. intros. unfold upto. rewrite seqZ_app by lia. done. Qed.

Lemma fmap_bind {A B C} (f : B -> C) (g : A -> list B) l :
  f <$> (l ≫= g) = l ≫= (fun x => f <$> g x).
Proof. induction l as [|x l IH]; [done|]. cbn. rewrite fmap_app. f_equal. apply IH. Qed.

(** ** The conversions of DRBD 9 *)

Lemma stores_09_ok `{DrbdHeadersOk} cpu : stores_ok 4096 (md_stores_09 cpu).
Proof.
  unfold stores_ok. rewrite <- d9_layout. f_equal.
  unfold md_stores_09, d9_fields. rewrite !fmap_app, fmap_bind, <- list_fmap_compose. done.
Qed.

(** Is an assignment one of a list of them?  The scalar members come first. *)
Ltac find_store :=
  repeat first [ apply elem_of_cons; left; reflexivity
               | apply elem_of_cons; right ].

(** Reads the scalar members back. *)
Ltac read_back Hok unfold_stores :=
  repeat match goal with
    | |- context [be64_at (store_fields ?l ?m) ?a] =>
        erewrite (be64_store _ l m Hok a) by (unfold_stores; find_store)
    | |- context [be32_at (store_fields ?l ?m) ?a] =>
        erewrite (be32_store _ l m Hok a) by (unfold_stores; find_store)
    end.

(** What DRBD 9 meta data does not store is at its initial value. *)
Definition md_v09 `{DrbdHeaders} (md : md_cpu) : Prop :=
  md_wf md /\ gc md = gc zero_md /\ max_peers md <= DRBD_PEERS_MAX - 1 /\
  drop (Z.to_nat DRBD_NODE_ID_MAX) (peers md) =
    drop (Z.to_nat DRBD_NODE_ID_MAX) (peers zero_md).

Lemma peers_split `{DrbdHeadersOk} (md : md_cpu) :
  length (peers md) = Z.to_nat DRBD_PEERS_MAX ->
  (peer_at md <$> upto DRBD_NODE_ID_MAX) ++ drop (Z.to_nat DRBD_NODE_ID_MAX) (peers md) = peers md.
Proof.
  intros Hl. pose proof node_id_max. rewrite <- (take_drop (Z.to_nat DRBD_NODE_ID_MAX) (peers md)) at 2.
  f_equal. apply list_eq. intros i. rewrite list_lookup_fmap.
  destruct (decide (i < Z.to_nat DRBD_NODE_ID_MAX)%nat).
  - rewrite lookup_upto, lookup_take_lt by done. cbn. unfold peer_at, zlookup.
    destruct (Z.ltb_spec (Z.of_nat i) 0); [lia|]. rewrite Nat2Z.id.
    destruct (peers md !! i) eqn:E; [done|]. apply lookup_ge_None in E. lia.
  - rewrite lookup_take_ge, (proj2 (lookup_ge_None _ _)) by (rewrite ?length_upto; lia). done.
Qed.

Section roundtrip_09.
Context `{DrbdHeadersOk} (cpu : md_cpu) (m : mem).
Let d := md_cpu_to_disk_09 m cpu.

Lemma peer_stores_in p s :
  0 <= p < DRBD_NODE_ID_MAX ->
  s ∈ [put32 (d9_peer p d9_peer_flags) (peer_flags (peer_at cpu p));
       put32 (d9_peer p d9_peer_bitmap_index) (bitmap_index (peer_at cpu p));
       put64 (d9_peer p d9_peer_bitmap_uuid) (bitmap_uuid (peer_at cpu p));
       put64 (d9_peer p d9_peer_bitmap_dagtag) (bitmap_dagtag (peer_at cpu p))] ->
  s ∈ md_stores_09 cpu.
Proof.
  intros Hp Hs. apply elem_of_app. right. apply elem_of_app. left.
  apply list_elem_of_bind. exists p. split; [done | by apply elem_upto].
Qed.

Lemma peer_back p :
  0 <= p < DRBD_NODE_ID_MAX -> peer_wf (peer_at cpu p) ->
  mk_peer_md_cpu
    (be64_at d (d9_peer p d9_peer_bitmap_uuid))
    (be64_at d (d9_peer p d9_peer_bitmap_dagtag))
    (be32_at d (d9_peer p d9_peer_flags))
    (s32 (be32_at d (d9_peer p d9_peer_bitmap_index))) = peer_at cpu p.
Proof.
  intros Hp [Hu Hd Hf Hi]. unfold d, md_cpu_to_disk_09.
  pose proof (stores_09_ok cpu) as Hok.
  rewrite (be64_store _ _ _ Hok _ (bitmap_uuid (peer_at cpu p))),
    (be64_store _ _ _ Hok _ (bitmap_dagtag (peer_at cpu p))),
    (be32_store _ _ _ Hok _ (peer_flags (peer_at cpu p))),
    (be32_store _ _ _ Hok _ (bitmap_index (peer_at cpu p)))
    by (apply (peer_stores_in p); [done | find_store]).
  rewrite s32_u32, s32_id, u32_id, !u64_id by done. by destruct (peer_at cpu p).
Qed.

Lemma history_back i :
  0 <= i < HISTORY_UUIDS ->
  be64_at d (d9_history_uuids + 8 * i) = u64 (arr (history_uuids cpu) i).
Proof.
  intros Hi. apply (be64_store _ _ _ (stores_09_ok cpu)).
  apply elem_of_app. right. apply elem_of_app. right.
  apply list_elem_of_fmap. exists i. split; [done | by apply elem_upto].
Qed.

Lemma md_09_back : md_v09 cpu -> md_disk_09_to_cpu d 0 = cpu.
Proof.
  intros (Hwf & Hgc & Hmp & Hpeers). unfold md_disk_09_to_cpu.
  rewrite <- Hpeers, <- Hgc.
  rewrite (fmap_upto_ext _ (peer_at cpu))
    by (intros p Hp; rewrite !Z.add_0_l; apply peer_back; [done | by apply peer_at_wf]).
  rewrite peers_split by apply (wf_peers _ Hwf).
  rewrite (fmap_upto_ext _ (fun i => u64 (arr (history_uuids cpu) i)))
    by (intros; rewrite Z.add_0_l; by apply history_back).
  rewrite (arr_upto_u64 HISTORY_UUIDS) by apply (wf_history_uuids _ Hwf).
  unfold d, md_cpu_to_disk_09. pose proof (stores_09_ok cpu) as Hok.
  rewrite !Z.add_0_l. read_back Hok ltac:(unfold md_stores_09; cbn [app]).
  destruct Hwf. rewrite !s32_u32, !s32_id, !u32_id, !u64_id by done.
  destruct (Z.ltb_spec (DRBD_PEERS_MAX - 1) (max_peers cpu)); [lia|].
  clear. by destruct cpu.
Qed.
End roundtrip_09.

(** ** The conversions of DRBD 8 *)

(** What DRBD 8 meta data does not store is at its initial value. *)
Definition md_v08 `{DrbdHeaders} (md : md_cpu) : Prop :=
  md_wf md /\ gc md = gc zero_md /\ max_peers md = 1 /\ node_id md = 0 /\ members md = 0 /\
  peers md = zinsert 0 (mk_peer_md_cpu (bitmap_uuid (peer_at md 0)) 0 0 0) (peers zero_md) /\
  drop (Z.to_nat HISTORY_UUIDS_V08) (history_uuids md) =
    drop (Z.to_nat HISTORY_UUIDS_V08) (history_uuids zero_md) /\
  (al_stripes md =? 0) && (al_stripe_size_4k md =? 0) = false.

Lemma stores_08_ok `{DrbdHeadersOk} cpu : stores_ok 4096 (md_stores_08 cpu).
Proof.
  pose proof ui_order as (? & ? & ? & ? & ?). unfold stores_ok, md_stores_08.
  change (upto HISTORY_UUIDS_V08) with [0; 1].
  cbn -[Z.mul Z.add Z.leb]. unfold d8_uuid, d8_device_uuid, d8_u32, disjoint_field.
  cbn -[Z.mul Z.add Z.leb].
  repeat (apply andb_true_iff; split); try done;
    solve [apply Z.leb_le; lia | apply orb_true_iff; rewrite !Z.leb_le; lia].
Qed.

Lemma history_split (md : md_cpu) n :
  0 <= n <= Z.of_nat (length (history_uuids md)) -> Forall in_u64 (history_uuids md) ->
  ((fun i => u64 (arr (history_uuids md) i)) <$> upto n) ++
  drop (Z.to_nat n) (history_uuids md) = history_uuids md.
Proof.
  intros Hn Hr. etransitivity; [|apply (take_drop (Z.to_nat n) (history_uuids md))]. f_equal.
  rewrite <- (arr_upto_u64 n (take (Z.to_nat n) (history_uuids md))).
  2: { split; [rewrite length_take; lia | by apply Forall_take]. }
  apply fmap_upto_ext. intros i Hi. unfold arr, zlookup.
  destruct (Z.ltb_spec i 0); [lia|]. by rewrite lookup_take_lt by lia.
Qed.

Lemma md_08_back `{DrbdHeadersOk} cpu m :
  md_v08 cpu -> md_disk_08_to_cpu (md_cpu_to_disk_08 m cpu) 0 = cpu.
Proof.
  intros (Hwf & Hgc & Hmp & Hni & Hmem & Hpeers & Hhist & Hal).
  unfold md_disk_08_to_cpu, md_cpu_to_disk_08. pose proof (stores_08_ok cpu) as Hok.
  rewrite (fmap_upto_ext _ (fun i => u64 (arr (history_uuids cpu) i))).
  2: { intros i Hi. rewrite Z.add_0_l. apply (be64_store _ _ _ Hok).
       apply elem_of_app. right. apply elem_of_app. left.
       apply list_elem_of_fmap. exists i. split; [done | by apply elem_upto]. }
  rewrite <- Hhist, history_split.
  2: { rewrite (proj1 (wf_history_uuids _ Hwf)). done. }
  2: { apply (wf_history_uuids _ Hwf). }
  rewrite !Z.add_0_l.
  read_back Hok ltac:(unfold md_stores_08; change (upto HISTORY_UUIDS_V08) with [0; 1]; cbn [app fmap list_fmap]).
  pose proof (wf_bitmap_uuid _ (peer_at_wf cpu 0 Hwf)).
  destruct Hwf. rewrite !s32_u32, !s32_id, !u32_id, !u64_id by done.
  rewrite Hal, <- Hpeers, <- Hgc. clear -Hmp Hni Hmem. destruct cpu; cbn in *; by subst.
Qed.

(** ** The conversions of DRBD 0.7 and 0.6 *)

(** What 0.7 meta data stores: sizes in KiB; the rest as 0.7 always has it. *)
Definition md_v07 `{DrbdHeaders} (md : md_cpu) : Prop :=
  md_wf md /\ effective_size md mod 2 = 0 /\ md_size_sect md mod 2 = 0 /\
  md = zero_md <| effective_size := effective_size md |> <| gc := gc md |>
         <| magic := magic md |> <| md_size_sect := md_size_sect md |>
         <| al_offset := al_offset md |> <| al_nr_extents := al_nr_extents md |>
         <| bm_offset := bm_offset md |> <| bm_bytes_per_bit := BM_BLOCK_SIZE_4k |>
         <| max_peers := 1 |> <| al_stripes := 1 |> <| al_stripe_size_4k := 8 |>.

Lemma be32_memset m s k a : s + k <= a \/ a + 4 <= s -> be32_at (memset m s 0 k) a = be32_at m a.
Proof.
  intros Hd. unfold be32_at. f_equal. apply load_le_ext. intros i Hi. unfold memset.
  case_range; [lia | done].
Qed.

Lemma be64_memset m s k a : s + k <= a \/ a + 8 <= s -> be64_at (memset m s 0 k) a = be64_at m a.
Proof.
  intros Hd. unfold be64_at. f_equal. apply load_le_ext. intros i Hi. unfold memset.
  case_range; [lia | done].
Qed.

Lemma half_twice x : x mod 2 = 0 -> Z.shiftl (Z.shiftr x 1) 1 = x.
Proof.
  intros Hx. rewrite Z.shiftl_mul_pow2, Z.shiftr_div_pow2 by lia. change (2 ^ 1) with 2.
  pose proof (Z.div_mod x 2). lia.
Qed.

Lemma shiftr_1_range x hi : 0 <= x < hi -> 0 <= Z.shiftr x 1 < hi.
Proof.
  intros Hx. rewrite Z.shiftr_div_pow2 by lia. change (2 ^ 1) with 2.
  split; [apply Z.div_pos; lia|]. apply Z.div_lt_upper_bound; lia.
Qed.

Lemma gc_back l m a cpu size :
  stores_ok size l -> arr_u32 GEN_CNT_SIZE (gc cpu) ->
  (forall i, 0 <= i < GEN_CNT_SIZE -> put32 (a + 4 * i) (arr (gc cpu) i) ∈ l) ->
  (fun i => be32_at (store_fields l m) (a + 4 * i)) <$> upto GEN_CNT_SIZE = gc cpu.
Proof.
  intros Hok Hgc Hin. rewrite <- (arr_upto_u32 GEN_CNT_SIZE (gc cpu)) by done.
  apply fmap_upto_ext. intros i Hi. apply (be32_store _ _ _ Hok). auto.
Qed.

Lemma md_07_back `{DrbdHeaders} cpu m :
  md_v07 cpu -> md_disk_07_to_cpu (md_cpu_to_disk_07 m cpu) 0 = cpu.
Proof.
  intros (Hwf & He & Hs & Heq). unfold md_disk_07_to_cpu, md_cpu_to_disk_07.
  assert (Hok : stores_ok 48 (md_stores_07 cpu)) by reflexivity.
  rewrite (fmap_upto_ext _ (fun i => be32_at (store_fields (md_stores_07 cpu) m) (8 + 4 * i))).
  2: { unfold GEN_CNT_SIZE. intros i Hi. rewrite Z.add_0_l. apply be32_memset. lia. }
  rewrite (gc_back _ _ _ _ _ Hok (wf_gc _ Hwf)).
  2: { intros i Hi. apply elem_of_cons. right. apply elem_of_app. left.
       apply list_elem_of_fmap. exists i. split; [done | by apply elem_upto]. }
  rewrite !Z.add_0_l, !be32_memset, be64_memset by lia.
  read_back Hok ltac:(unfold md_stores_07; change (upto GEN_CNT_SIZE) with [0; 1; 2; 3; 4]; cbn [app fmap list_fmap]).
  destruct Hwf. rewrite (u64_id (Z.shiftr _ _)), (u32_id (Z.shiftr _ _)), !half_twice
    by (done || by apply shiftr_1_range).
  rewrite !s32_u32, !s32_id, !u32_id, !u64_id by done.
  by symmetry.
Qed.

Definition md_v06 `{DrbdHeaders} (md : md_cpu) : Prop :=
  md_wf md /\ md = zero_md <| gc := gc md |> <| magic := magic md |> <| max_peers := 1 |>.

Lemma md_06_back `{DrbdHeaders} cpu m :
  md_v06 cpu -> md_disk_06_to_cpu (md_cpu_to_disk_06 m cpu) 0 = cpu.
Proof.
  intros (Hwf & Heq). unfold md_disk_06_to_cpu, md_cpu_to_disk_06.
  assert (Hok : stores_ok 24 (md_stores_06 cpu)) by reflexivity.
  rewrite (gc_back _ _ _ _ _ Hok (wf_gc _ Hwf)).
  2: { intros i Hi. rewrite Z.add_0_l. apply elem_of_app. left.
       apply list_elem_of_fmap. exists i. split; [done | by apply elem_upto]. }
  rewrite !Z.add_0_l.
  read_back Hok ltac:(unfold md_stores_06; change (upto GEN_CNT_SIZE) with [0; 1; 2; 3; 4]; cbn [app fmap list_fmap]).
  rewrite u32_id by apply (wf_magic _ Hwf). by symmetry.
Qed.

(** ** Activity log blocks *)

Lemma al_crc_range `{DrbdHeadersOk} : 0 <= al_crc32c /\ al_crc32c + 4 <= 4096.
Proof.
  apply (layout_ok_in 4096 al_fields (al_crc32c, 4%nat) al_layout).
  unfold al_fields. do 2 (apply elem_of_cons; right). apply elem_of_cons. by left.
Qed.

Lemma al_clear_crc_other `{DrbdHeaders} m a i :
  ~ (a + al_crc32c <= i < a + al_crc32c + 4) -> al_clear_crc m a i = m i.
Proof. intros Hi. apply store_le_other. lia. Qed.

Lemma al_clear_crc_ext `{DrbdHeaders} m1 m2 a i :
  (~ (a + al_crc32c <= i < a + al_crc32c + 4) -> m1 i = m2 i) ->
  al_clear_crc m1 a i = al_clear_crc m2 a i.
Proof.
  intros Hi. unfold al_clear_crc. cbn [store_le].
  repeat match goal with |- context [?x =? ?y] => destruct (Z.eqb_spec x y); [done|] end.
  apply Hi. lia.
Qed.

(** The checksum of a block is that of its bytes around a window. *)
Lemma al_block_crc_split `{DrbdHeaders} m a p n :
  a <= p -> p + Z.of_nat n <= a + 4096 ->
  al_block_crc m a =
  crc32c 0 (buffer (al_clear_crc m a) a (Z.to_nat (p - a)) ++ buffer (al_clear_crc m a) p n ++
            buffer (al_clear_crc m a) (p + Z.of_nat n) (Z.to_nat (a + 4096 - (p + Z.of_nat n)))).
Proof.
  intros Hp Hn. unfold al_block_crc.
  replace (Z.to_nat 4096) with (Z.to_nat (p - a) + (n + Z.to_nat (a + 4096 - (p + Z.of_nat n))))%nat
    by lia.
  rewrite !buffer_app. replace (a + Z.of_nat (Z.to_nat (p - a))) with p by lia. done.
Qed.

Lemma store_le_indep n m1 m2 a v i :
  a <= i < a + Z.of_nat n -> store_le n m1 a v i = store_le n m2 a v i.
Proof.
  revert m1 m2 a v. induction n as [|n IH]; intros m1 m2 a v Hi; [lia|].
  cbn [store_le]. destruct (Z.eq_dec i a) as [->|].
  - rewrite !store_le_other by lia. by rewrite Z.eqb_refl.
  - apply IH. lia.
Qed.

Lemma store_le_ext n m1 m2 a v i : m1 i = m2 i -> store_le n m1 a v i = store_le n m2 a v i.
Proof.
  intros Hi. destruct (decide (a <= i < a + Z.of_nat n)); [by apply store_le_indep|].
  by rewrite !store_le_other by lia.
Qed.

Lemma store_fields_ext l m1 m2 i : m1 i = m2 i -> store_fields l m1 i = store_fields l m2 i.
Proof.
  unfold store_fields. revert m1 m2. induction l as [|s l IH]; intros m1 m2 Hi; [done|].
  cbn [fold_left]. by apply IH, store_le_ext.
Qed.

Lemma store_fields_bytes l m : bytes m -> bytes (store_fields l m).
Proof.
  unfold store_fields. revert m. induction l as [|s l IH]; intros m Hm; [done|].
  by apply IH, store_le_bytes.
Qed.

(** The bytes that the assignments of a list overwrite. *)
Definition covered (l : list field) (i : Z) : bool :=
  existsb (fun f => in_range i f.1 (Z.of_nat f.2)) l.

Lemma store_fields_indep l m1 m2 i :
  covered l.*1 i = true -> store_fields l m1 i = store_fields l m2 i.
Proof.
  revert m1 m2. induction l as [|s l IH]; intros m1 m2 Hc; [done|].
  cbn [fmap list_fmap covered existsb] in Hc. apply orb_true_iff in Hc as [Hc|Hc].
  - apply in_range_spec in Hc. by apply (store_fields_ext l), store_le_indep.
  - by apply IH.
Qed.

(** ** Theorems *)

(** C5: DRBD 9 meta data that is written and read back is unchanged: node id,
    all peer slots, the history of UUIDs and the members included. *)
Theorem superblock_09_roundtrip `{DrbdHeadersOk} cpu m :
  md_v09 cpu -> md_disk_09_to_cpu (md_cpu_to_disk_09 m cpu) 0 = cpu.
Proof. apply md_09_back. Qed.

(** Meta data of the examples. *)
Definition example_md_09 : md_cpu :=
  mk_md_cpu [0; 0; 0; 0; 0] DRBD_MD_MAGIC_09 (2 ^ 31) 600 (-64) 257 (-520) 4
    (replicate 32 (2 ^ 63 + 1)) 128 77 4096 0 7 (-1) (replicate 32 zero_peer) 1 8 5.

(** Ranges of concrete meta data. *)
Ltac concrete_wf :=
  split;
  match goal with
  | |- arr_u32 _ _ => split; [reflexivity | repeat constructor; done]
  | |- arr_u64 _ _ => split; [reflexivity | repeat constructor; done]
  | |- _ /\ Forall peer_wf _ =>
      split; [reflexivity | repeat (constructor; [split; done|]); constructor]
  | |- _ => vm_compute; intuition congruence
  end.

Lemma example_md_09_wf : md_v09 example_md_09.
Proof. split; [|split; [done | split; [done | done]]]. concrete_wf. Qed.

Lemma superblock_09_roundtrip_witness :
  md_disk_09_to_cpu (md_cpu_to_disk_09 (fun _ => 0xAA) example_md_09) 0 = example_md_09.
Proof. apply superblock_09_roundtrip, example_md_09_wf. Defined.

(** C6: the meta data of the older formats is read back unchanged: DRBD 8 with
    its single peer, 0.7 with its sizes in KiB, 0.6 with its counters. *)
Theorem superblock_old_roundtrip `{DrbdHeadersOk} cpu m :
  (md_v08 cpu -> md_disk_08_to_cpu (md_cpu_to_disk_08 m cpu) 0 = cpu) /\
  (md_v07 cpu -> md_disk_07_to_cpu (md_cpu_to_disk_07 m cpu) 0 = cpu) /\
  (md_v06 cpu -> md_disk_06_to_cpu (md_cpu_to_disk_06 m cpu) 0 = cpu).
Proof. split; [|split]; [apply md_08_back | apply md_07_back | apply md_06_back]. Qed.

Definition example_md_07 : md_cpu :=
  mk_md_cpu [5; 1; 1; 1; 1] DRBD_MD_MAGIC_07 204800 262144 8 257 72 0 (replicate 32 0) 0 0
    4096 0 1 0 (replicate 32 zero_peer) 1 8 0.

Lemma superblock_old_roundtrip_witness :
  md_disk_07_to_cpu (md_cpu_to_disk_07 (fun _ => 0xAA) example_md_07) 0 = example_md_07.
Proof.
  refine (proj1 (proj2 (superblock_old_roundtrip example_md_07 (fun _ => 0xAA))) _).
  split; [|split; [done | split; [done | reflexivity]]].
  concrete_wf.
Defined.

(** the 4 KiB written for a super block of 0.7, 8 or 9 depend on the meta
    data only: no byte of what was in the buffer before reaches the disk. *)
Theorem superblock_no_stale_bytes `{DrbdHeaders} cpu m1 m2 i :
  0 <= i < 4096 ->
  md_cpu_to_disk_07 m1 cpu i = md_cpu_to_disk_07 m2 cpu i /\
  md_cpu_to_disk_08 m1 cpu i = md_cpu_to_disk_08 m2 cpu i /\
  md_cpu_to_disk_09 m1 cpu i = md_cpu_to_disk_09 m2 cpu i.
Proof.
  intros Hi. split; [|split].
  - unfold md_cpu_to_disk_07, memset. case_range; [done|]. apply store_fields_indep.
    assert (Hc : forallb (covered (md_stores_07 cpu).*1) (upto 48) = true) by reflexivity.
    rewrite forallb_forall in Hc. apply Hc, list_elem_of_In, elem_upto. lia.
  - apply store_fields_ext. unfold memset, sizeof_md_on_disk_08. case_range; [done | lia].
  - apply store_fields_ext. unfold memset, sizeof_meta_data_on_disk_9. case_range; [done | lia].
Qed.

Lemma superblock_no_stale_bytes_witness :
  md_cpu_to_disk_07 (fun _ => 0xAA) example_md_07 300 = md_cpu_to_disk_07 zero_mem example_md_07 300 /\
  md_cpu_to_disk_08 (fun _ => 0xAA) example_md_07 300 = md_cpu_to_disk_08 zero_mem example_md_07 300 /\
  md_cpu_to_disk_09 (fun _ => 0xAA) example_md_07 300 = md_cpu_to_disk_09 zero_mem example_md_07 300.
Proof. apply superblock_no_stale_bytes. done. Defined.

(** C7: a valid activity log block in which up to four consecutive bytes,
    outside of the checksum itself, are damaged is no longer valid. *)
Theorem v84_al_detects_corruption `{DrbdHeadersOk} d1 d2 a p n :
  bytes d1 -> bytes d2 ->
  al84_is_valid (v84_al_disk_to_cpu d1 a) = true ->
  (n <= 4)%nat -> a <= p -> p + Z.of_nat n <= a + 4096 ->
  p + Z.of_nat n <= a + al_crc32c \/ a + al_crc32c + 4 <= p ->
  (forall i, a <= i < a + 4096 -> ~ (p <= i < p + Z.of_nat n) -> d1 i = d2 i) ->
  buffer d1 p n <> buffer d2 p n ->
  al84_is_valid (v84_al_disk_to_cpu d2 a) = false.
Proof.
  intros Hb1 Hb2 Hv Hn Hap Hpe Hcrc Hsame Hne. pose proof al_crc_range as [Hc0 Hc1].
  apply not_true_iff_false. intros Hv2. cbn [al84_is_valid v84_al_disk_to_cpu] in Hv, Hv2.
  apply andb_true_iff in Hv as [_ Hv], Hv2 as [_ Hv2]. apply Z.eqb_eq in Hv, Hv2.
  assert (be32_at d2 (a + al_crc32c) = be32_at d1 (a + al_crc32c)) as Hst.
  { unfold be32_at. f_equal. apply load_le_ext. intros i Hi. symmetry. apply Hsame; lia. }
  rewrite Hst, Hv in Hv2. revert Hv2.
  rewrite (al_block_crc_split d1 a p n), (al_block_crc_split d2 a p n) by done.
  assert (Hout : forall q k, a <= q -> q + Z.of_nat k <= a + 4096 ->
    q + Z.of_nat k <= p \/ p + Z.of_nat n <= q ->
    buffer (al_clear_crc d1 a) q k = buffer (al_clear_crc d2 a) q k).
  { intros q k Hq Hk Hd. apply buffer_ext. intros i Hi. apply al_clear_crc_ext.
    intros _. apply Hsame; lia. }
  rewrite (Hout a), (Hout (p + Z.of_nat n)) by lia.
  assert (Hwin : forall d, buffer (al_clear_crc d a) p n = buffer d p n).
  { intros d. apply buffer_ext. intros i Hi. apply al_clear_crc_other. lia. }
  rewrite !Hwin.
  assert (Hb : bytes (al_clear_crc d2 a)) by (by apply store_le_bytes).
  assert (Hpre := buffer_bytes _ a (Z.to_nat (p - a)) Hb).
  assert (Hpost := buffer_bytes _ (p + Z.of_nat n) (Z.to_nat (a + 4096 - (p + Z.of_nat n))) Hb).
  revert Hpre Hpost. generalize (buffer (al_clear_crc d2 a) a (Z.to_nat (p - a))) as pre.
  generalize (buffer (al_clear_crc d2 a) (p + Z.of_nat n) (Z.to_nat (a + 4096 - (p + Z.of_nat n)))) as post.
  intros post pre Hpre Hpost Heq.
  refine (crc32c_detects_burst 0 pre (buffer d1 p n) (buffer d2 p n) post _ Hpre
    (buffer_bytes _ _ _ Hb1) (buffer_bytes _ _ _ Hb2) Hpost _ _ Hne Heq).
  - split; lia.
  - by rewrite !length_buffer.
  - by rewrite length_buffer.
Qed.

(** A block as [initialize_al] writes it. *)
Definition example_al_block : mem :=
  let b := store_fields [put32 al_magic DRBD_AL_MAGIC;
                         put16 al_transaction_type AL_TR_INITIALIZED] zero_mem in
  store_fields [put32 al_crc32c (al_block_crc b 0)] b.

Lemma v84_al_detects_corruption_witness :
  al84_is_valid (v84_al_disk_to_cpu example_al_block 0) = true /\
  al84_is_valid (v84_al_disk_to_cpu (store_le 1 example_al_block 100 1) 0) = false.
Proof.
  assert (Hv : al84_is_valid (v84_al_disk_to_cpu example_al_block 0) = true)
    by (vm_compute; reflexivity).
  assert (Hb : bytes example_al_block).
  { apply store_fields_bytes, store_fields_bytes. intros i. split; [reflexivity | done]. }
  split; [exact Hv|].
  apply (v84_al_detects_corruption example_al_block (store_le 1 example_al_block 100 1) 0 100 1
    Hb (store_le_bytes 1 _ 100 1 Hb) Hv).
  - lia.
  - lia.
  - lia.
  - right. vm_compute. discriminate.
  - intros i _ Hi. symmetry. apply store_le_other. lia.
  - vm_compute. discriminate.
Defined.
