(* ===== verification/Layout.v ===== *)
(** * Where the meta data lies

    Placement of the super block, the activity log and the bitmap for the
    layouts of drbdmeta.c (internal, flexible internal, flexible external and
    indexed external), the size of the bitmap, the validity check of a super
    block, and the largest device the bitmap can track. *)

From S2P Require Import Prelude Machine Headers SharedTool MetaData OnDisk.

(** ** Constants *)

Definition SO_MUCH : Z := 68 * 1024.
Definition MD_AL_OFFSET_07 : Z := 8.
Definition MD_AL_MAX_SECT_07 : Z := 64.
Definition MD_BM_OFFSET_07 : Z := MD_AL_OFFSET_07 + MD_AL_MAX_SECT_07.
Definition MD_RESERVED_SECT_07 : Z := Z.shiftl 128 11.
(** BITS_PER_LONG is 64. *)
Definition MD_BM_MAX_BYTE_FLEX : Z := Z.shiftl 1 (38 - 3).
Definition DEFAULT_BM_BLOCK_SIZE `{DrbdHeaders} : Z := BM_BLOCK_SIZE_4k.

(** ** Size of the bitmap *)

(** The assertions of [bm_bytes]. *)
Definition bm_bytes_pre `{DrbdHeaders} (md : md_cpu) (sectors : Z) : bool :=
  (sectors <=? Z.shiftl 1 (50 - 9)) &&
  (BM_BLOCK_SIZE_MIN <=? bm_bytes_per_bit md) && (bm_bytes_per_bit md <=? BM_BLOCK_SIZE_MAX) &&
  is_power_of_2 (bm_bytes_per_bit md).

(** What [bm_bytes] computes when they hold. *)
Definition bm_bytes_of (md : md_cpu) (sectors : Z) : Z :=
  let sectors_per_bit := Z.shiftr (bm_bytes_per_bit md) 9 in
  let bm_bits := u64 (sectors + sectors_per_bit - 1) / sectors_per_bit in
  let bm_bits := ALIGN bm_bits 64 in
  ALIGN (u64 (bm_bits / 8 * max_peers md)) 4096.

Definition bm_bytes `{DrbdHeaders} (md : md_cpu) (sectors : Z) : M Z :=
  ASSERT (sectors <=? Z.shiftl 1 (50 - 9));;
  ASSERT (BM_BLOCK_SIZE_MIN <=? bm_bytes_per_bit md);;
  ASSERT (bm_bytes_per_bit md <=? BM_BLOCK_SIZE_MAX);;
  ASSERT (is_power_of_2 (bm_bytes_per_bit md));;
  mret (bm_bytes_of md sectors).

(** The size of the activity log in sectors, an [int]. *)
Definition al_size_sect (md : md_cpu) : Z := s32 (u32 (al_stripes md * al_stripe_size_4k md * 8)).

(** ** Is a super block valid? *)

Definition md_magic_ok `{DrbdHeaders} (f : md_format) (md : md_cpu) : bool :=
  match f with
  | DRBD_V07 => magic md =? DRBD_MD_MAGIC_07
  | DRBD_V08 => (magic md =? DRBD_MD_MAGIC_08) || (magic md =? DRBD_MD_MAGIC_84_UNCLEAN)
  | DRBD_V09 => magic md =? DRBD_MD_MAGIC_09
  | _ => true
  end.

Definition md_peers_ok `{DrbdHeaders} (md : md_cpu) : bool :=
  negb ((max_peers md <? 1) || (DRBD_PEERS_MAX - 1 <? max_peers md)) &&
  negb ((node_id md <? -1) || (DRBD_PEERS_MAX - 1 <? node_id md)) &&
  forallb (fun n => negb ((bitmap_index (peer_at md n) <? -1) ||
                          (DRBD_PEERS_MAX - 1 <? bitmap_index (peer_at md n))))
    (upto (max_peers md)).

(** Where a flexible internal layout must have its bitmap, given its size. *)
Definition flex_md_size_sect (md : md_cpu) (bytes : Z) : Z :=
  u64 (ALIGN (Z.shiftr bytes 9) 8 + MD_AL_OFFSET_07 + al_size_sect md).

Definition is_valid_md `{DrbdHeaders} (f : md_format) (md : md_cpu) (idx ll_size : Z) : M bool :=
  ASSERT (match f with DRBD_V07 | DRBD_V08 | DRBD_V09 => true | _ => false end);;
  if negb (md_magic_ok f md) then mret false
  else if negb (md_peers_ok md) then mret false
  else if idx =? DRBD_MD_INDEX_FLEX_INT then
    if negb (al_offset md =? s32 (- al_size_sect md)) then mret false
    else
      bytes ← bm_bytes md (Z.shiftr ll_size 9);
      let size := flex_md_size_sect md bytes in
      if negb (bm_offset md =? s64 (s64 (- s64 size) + MD_AL_OFFSET_07)) then mret false
      else if negb (md_size_sect md =? size) && negb (md_format_eqb f DRBD_V07) then mret false
      else mret true
  else
    if negb (al_offset md =? MD_AL_OFFSET_07) then mret false
    else if negb (bm_offset md =? s32 (MD_AL_OFFSET_07 + al_size_sect md)) then mret false
    else mret true.

(** ** The largest device the meta data can track *)

Definition max_usable_sectors `{DrbdHeaders} : M Z :=
  c ← cfg;
  if (md_index c =? DRBD_MD_INDEX_INTERNAL) || (md_index c =? DRBD_MD_INDEX_FLEX_INT) then
    mret (Z.shiftr (min3 (md_offset c) (cfg_al_offset c) (cfg_bm_offset c)) 9)
  else
    let md := cfg_md c in
    (if version_lt c DRBD_V09 || (0 <=? md_index c)
     then ASSERT (bm_bytes_per_bit md =? BM_BLOCK_SIZE_4k)
     else
       ASSERT (is_power_of_2 (bm_bytes_per_bit md));;
       ASSERT (BM_BLOCK_SIZE_MIN <=? bm_bytes_per_bit md);;
       ASSERT (bm_bytes_per_bit md <=? BM_BLOCK_SIZE_MAX));;
    mret (u64 (u64 (u64 (u32 (md_size_sect md - bm_offset md) * 512 * 8) / 64 / max_peers md * 64)
               * bm_bytes_per_bit md) / 512).

(** ** Computing the layout *)

(** These two are needed for [bm_bytes]. *)
Definition md_defaults `{DrbdHeaders} (o : options) (md : md_cpu) : md_cpu :=
  md <| bm_bytes_per_bit :=
          if bm_bytes_per_bit md =? 0 then
            if option_bm_block_size o =? 0 then DEFAULT_BM_BLOCK_SIZE else option_bm_block_size o
          else bm_bytes_per_bit md |>
     <| max_peers := if max_peers md =? 0 then 1 else max_peers md |>.

Definition re_initialize_md_offsets `{DrbdHeaders} : M unit :=
  o ← opt;
  upd_md (md_defaults o);;
  c ← cfg;
  let md := cfg_md c in
  let al_size := al_size_sect md in
  (if md_index c =? DRBD_MD_INDEX_FLEX_EXT then
     let size := u32 (Z.shiftr (cfg_bd_size c) 9) in
     let bm := s32 (MD_AL_OFFSET_07 + al_size) in
     upd_cfg (fun c => c
       <| cfg_md := md <| md_size_sect := size |> <| al_offset := MD_AL_OFFSET_07 |>
                       <| bm_offset := bm |> |>
       <| cfg_bm_bytes := u64 (512 * u32 (size - bm)) |>)
   else if md_index c =? DRBD_MD_INDEX_INTERNAL then
     upd_cfg (fun c => c
       <| cfg_md := md <| md_size_sect := MD_RESERVED_SECT_07 |>
                       <| al_offset := MD_AL_OFFSET_07 |>
                       <| bm_offset := MD_BM_OFFSET_07 |> |>
       <| cfg_bm_bytes := u64 (512 * u32 (MD_RESERVED_SECT_07 - MD_BM_OFFSET_07)) |>)
   else if md_index c =? DRBD_MD_INDEX_FLEX_INT then
     upd_md (fun md => md <| al_offset := s32 (- al_size) |>);;
     bytes ← bm_bytes md (Z.shiftr (cfg_bd_size c) 9);
     upd_cfg (fun c => c <| cfg_bm_bytes := bytes |>);;
     let size := ALIGN (Z.shiftr bytes 9) 8 in
     if u64 (Z.shiftr MD_BM_MAX_BYTE_FLEX 9 * max_peers md) <? size then exit 10
     else
       let size := u64 (size + MD_AL_OFFSET_07 + al_size) in
       upd_md (fun md => md <| md_size_sect := u32 size |>
                            <| bm_offset := s32 (u64 (- size + MD_AL_OFFSET_07)) |>)
   else
     let bm := s32 (MD_AL_OFFSET_07 + al_size) in
     upd_cfg (fun c => c
       <| cfg_md := md <| md_size_sect := MD_RESERVED_SECT_07 |>
                       <| al_offset := MD_AL_OFFSET_07 |>
                       <| bm_offset := bm |> |>
       <| cfg_bm_bytes := u64 (512 * u32 (MD_RESERVED_SECT_07 - bm)) |>));;
  upd_cfg (fun c => c
    <| cfg_al_offset := at_sectors (md_offset c) (al_offset (cfg_md c)) |>
    <| cfg_bm_offset := at_sectors (md_offset c) (bm_offset (cfg_md c)) |>);;
  usable ← max_usable_sectors;
  upd_cfg (fun c => c <| max_usable_sect := usable |>).

(** ** The byte offset of the super block *)

Definition v07_style_md_get_byte_offset `{DrbdHeaders} (idx bd_size : Z) : Z :=
  if idx =? DRBD_MD_INDEX_INTERNAL then
    u64 (Z.land bd_size (u64 (Z.lnot 4095)) - MD_RESERVED_SECT_07 * 512)
  else if idx =? DRBD_MD_INDEX_FLEX_INT then
    Z.land (u64 (bd_size - 4096)) (u64 (Z.lnot 4095))
  else if idx =? DRBD_MD_INDEX_FLEX_EXT then 0
  else u64 (MD_RESERVED_SECT_07 * idx * 512).

Definition clip_effective_size_and_bm_bytes `{DrbdHeaders} : M unit :=
  c ← cfg;
  (if max_usable_sect c <? effective_size (cfg_md c) then
     printf ("# la-size-sect was too big (" +:+ show_u (effective_size (cfg_md c))
       ("), truncated (" +:+ show_u (max_usable_sect c) (")!" +:+ String NL "")));;
     upd_md (fun md => md <| effective_size := max_usable_sect c |>)
   else mret ());;
  c ← cfg;
  bytes ← bm_bytes (cfg_md c) (effective_size (cfg_md c));
  upd_cfg (fun c => c <| cfg_bm_bytes := bytes |>).

(** ** The size of the bitmap *)

Lemma ASSERT_bind {A} b (k : M A) w : (ASSERT b;; k) w = if b then k w else (Abort, w).
Proof. by destruct b. Qed.

Lemma bm_bytes_run `{DrbdHeaders} md sectors w :
  bm_bytes md sectors w =
  if bm_bytes_pre md sectors then (Ok (bm_bytes_of md sectors), w) else (Abort, w).
Proof.
  unfold bm_bytes, bm_bytes_pre. rewrite !ASSERT_bind.
  destruct (sectors <=? _); [|done]. destruct (BM_BLOCK_SIZE_MIN <=? _); [|done].
  destruct (_ <=? BM_BLOCK_SIZE_MAX); [|done]. by destruct (is_power_of_2 _).
Qed.

(** A bitmap granularity the tool accepts: [2^k] bytes, 4 KiB to 1 MiB. *)
Definition block_size (md : md_cpu) (k : Z) : Prop := 12 <= k <= 20 /\ bm_bytes_per_bit md = 2 ^ k.

Lemma bm_bytes_pre_spec `{DrbdHeadersOk} md sectors :
  in_u32 (bm_bytes_per_bit md) ->
  bm_bytes_pre md sectors = true <-> sectors <= 2 ^ 41 /\ exists k, block_size md k.
Proof.
  intros Hr. pose proof block_sizes as (_ & Hmin & Hmax). unfold bm_bytes_pre, block_size.
  rewrite !andb_true_iff, !Z.leb_le, is_power_of_2_spec, Hmin, Hmax
    by (unfold in_u32, in_u64 in *; lia).
  change (Z.shiftl 1 (50 - 9)) with (2 ^ 41). split.
  - intros [[[? ?] ?] (k & Hk & Heq)]. split; [done|]. exists k. split; [|done].
    split.
    + apply Z.nlt_ge. intros Hlt. assert (2 ^ k < 2 ^ 12) by (apply Z.pow_lt_mono_r; lia). lia.
    + apply Z.nlt_ge. intros Hlt. assert (2 ^ 20 < 2 ^ k) by (apply Z.pow_lt_mono_r; lia). lia.
  - intros [? (k & Hk & Heq)]. split; [|exists k; split; [lia|done]].
    assert (2 ^ 12 <= 2 ^ k) by (apply Z.pow_le_mono_r; lia).
    assert (2 ^ k <= 2 ^ 20) by (apply Z.pow_le_mono_r; lia). lia.
Qed.

(** Bits needed for one peer: a bit for every started block. *)
Definition bits_for (md : md_cpu) (sectors : Z) : Z :=
  let spb := bm_bytes_per_bit md / 512 in (sectors + spb - 1) / spb.

Definition round_up (x a : Z) : Z := (x + a - 1) / a * a.

Lemma round_up_bounds x a : 0 < a -> x <= round_up x a < x + a /\ (a | round_up x a).
Proof.
  intros Ha. unfold round_up. split; [|apply Z.divide_factor_r].
  pose proof (Z.div_mod (x + a - 1) a). pose proof (Z.mod_pos_bound (x + a - 1) a). lia.
Qed.

Lemma round_up_mono x y a : 0 < a -> x <= y -> round_up x a <= round_up y a.
Proof.
  intros. unfold round_up. apply Z.mul_le_mono_nonneg_r; [lia|]. apply Z.div_le_mono; lia.
Qed.

Lemma ALIGN_round_up x k :
  0 <= k < 64 -> 0 <= x -> x + 2 ^ k <= 2 ^ 64 -> ALIGN x (2 ^ k) = round_up x (2 ^ k).
Proof. intros. by rewrite ALIGN_spec. Qed.

Lemma bits_for_bounds md sectors k :
  block_size md k -> 0 <= sectors ->
  0 <= bits_for md sectors <= sectors /\ sectors * 512 <= bits_for md sectors * bm_bytes_per_bit md.
Proof.
  intros [Hk Hb] Hs. unfold bits_for. rewrite Hb.
  assert (Heq : 2 ^ k = 2 ^ (k - 9) * 512) by (change 512 with (2 ^ 9); rewrite <- Z.pow_add_r by lia; f_equal; lia).
  assert (0 < 2 ^ (k - 9)) by (apply Z.pow_pos_nonneg; lia).
  rewrite Heq, Z.div_mul by lia. set (spb := 2 ^ (k - 9)) in *.
  pose proof (Z.div_mod (sectors + spb - 1) spb). pose proof (Z.mod_pos_bound (sectors + spb - 1) spb).
  split; [split|]; [apply Z.div_pos; lia | | nia].
  destruct (Z.eq_dec sectors 0) as [->|]; [rewrite Z.div_small; lia|].
  apply Z.lt_succ_r, Z.div_lt_upper_bound; nia.
Qed.

(** The computation in unbounded arithmetic. *)
Lemma bm_bytes_of_eq md sectors k :
  block_size md k -> 0 <= sectors <= 2 ^ 41 -> 0 <= max_peers md <= 64 ->
  bm_bytes_of md sectors = round_up (round_up (bits_for md sectors) 64 / 8 * max_peers md) 4096.
Proof.
  intros Hb Hs Hp. pose proof (bits_for_bounds md sectors k Hb ltac:(lia)) as [Hbits _].
  unfold bm_bytes_of, bits_for in *. cbv zeta. rewrite Z.shiftr_div_pow2 by lia. change (2 ^ 9) with 512.
  destruct Hb as [Hk Hb].
  assert (2 ^ k / 512 <= 2 ^ 20).
  { apply Z.div_le_upper_bound; [lia|]. assert (2 ^ k <= 2 ^ 20) by (apply Z.pow_le_mono_r; lia). lia. }
  assert (0 < 2 ^ k / 512).
  { apply Z.div_str_pos. assert (2 ^ 12 <= 2 ^ k) by (apply Z.pow_le_mono_r; lia). lia. }
  rewrite Hb in *. rewrite (u64_id (sectors + _ - 1)) by solve_int.
  set (bits := (sectors + 2 ^ k / 512 - 1) / (2 ^ k / 512)) in *.
  change 64 with (2 ^ 6) at 1. rewrite ALIGN_round_up by lia. change (2 ^ 6) with 64.
  destruct (round_up_bounds bits 64 ltac:(lia)) as [Hr _].
  assert (0 <= round_up bits 64 / 8 <= 2 ^ 41).
  { split; [apply Z.div_pos; lia|]. apply Z.div_le_upper_bound; lia. }
  assert (0 <= round_up bits 64 / 8 * max_peers md <= 2 ^ 47) by nia.
  rewrite u64_id by solve_int. change 4096 with (2 ^ 12) at 1. by rewrite ALIGN_round_up by lia.
Qed.

(** The bitmap is a multiple of 4 KiB and has a bit for every started block of
    the device in the slot of every peer. *)
Lemma bm_bytes_of_covers md sectors k :
  block_size md k -> 0 <= sectors <= 2 ^ 41 -> 1 <= max_peers md <= 64 ->
  (4096 | bm_bytes_of md sectors) /\
  round_up (bits_for md sectors) 64 * max_peers md <= bm_bytes_of md sectors * 8 /\
  sectors * 512 * max_peers md <= bm_bytes_of md sectors * 8 * bm_bytes_per_bit md /\
  0 <= bm_bytes_of md sectors <= 2 ^ 48.
Proof.
  intros Hb Hs Hp. pose proof (bits_for_bounds md sectors k Hb ltac:(lia)) as [Hbits Hcov].
  rewrite (bm_bytes_of_eq md sectors k) by (done || lia).
  destruct (round_up_bounds (bits_for md sectors) 64 ltac:(lia)) as [Hr [q Hq]].
  set (words := round_up (bits_for md sectors) 64) in *.
  assert (Hw8 : words / 8 * 8 = words).
  { rewrite Hq. replace (q * 64) with (q * 8 * 8) by lia. rewrite Z.div_mul; lia. }
  destruct (round_up_bounds (words / 8 * max_peers md) 4096 ltac:(lia)) as [Hr4 Hd].
  set (bytes := round_up (words / 8 * max_peers md) 4096) in *.
  assert (words * max_peers md <= bytes * 8) by nia.
  assert (0 < bm_bytes_per_bit md) by (destruct Hb as [? ->]; apply Z.pow_pos_nonneg; lia).
  split; [done|]. split; [done|]. split; [|nia].
  assert (bits_for md sectors * max_peers md <= bytes * 8) by nia.
  transitivity (bits_for md sectors * bm_bytes_per_bit md * max_peers md); nia.
Qed.

Lemma bm_bytes_of_mono md s1 s2 k :
  block_size md k -> 0 <= s1 <= s2 -> s2 <= 2 ^ 41 -> 0 <= max_peers md <= 64 ->
  bm_bytes_of md s1 <= bm_bytes_of md s2.
Proof.
  intros Hb Hs H2 Hp. rewrite !(bm_bytes_of_eq md _ k) by (done || lia).
  apply round_up_mono; [lia|]. apply Z.mul_le_mono_nonneg_r; [lia|].
  apply Z.div_le_mono; [lia|]. apply round_up_mono; [lia|]. unfold bits_for.
  destruct Hb as [Hk ->]. apply Z.div_le_mono; [|lia].
  apply Z.div_str_pos. assert (2 ^ 12 <= 2 ^ k) by (apply Z.pow_le_mono_r; lia). lia.
Qed.

(** ** The flexible internal layout *)

(** An activity log the tool creates: at least one block, at most the 8192
    blocks that fit into its buffer. *)
Definition al_blocks (md : md_cpu) : Z := al_stripes md * al_stripe_size_4k md.
Definition al_size_ok (md : md_cpu) : Prop := 1 <= al_blocks md <= 8192.

Lemma al_size_sect_eq md : al_size_ok md -> al_size_sect md = 8 * al_blocks md.
Proof.
  unfold al_size_ok, al_size_sect, al_blocks. intros Hal.
  rewrite u32_id, s32_id by solve_int. lia.
Qed.

Lemma bind_bm_bytes `{DrbdHeaders} {B} md sectors (k : Z -> M B) w :
  (bm_bytes md sectors ≫= k) w =
  if bm_bytes_pre md sectors then k (bm_bytes_of md sectors) w else (Abort, w).
Proof. unfold mbind, M_bind. rewrite bm_bytes_run. by destruct (bm_bytes_pre md sectors). Qed.

Lemma block_size_u32 md k : block_size md k -> in_u32 (bm_bytes_per_bit md).
Proof.
  intros [Hk ->]. assert (2 ^ k <= 2 ^ 20) by (apply Z.pow_le_mono_r; lia).
  split; [apply Z.pow_nonneg; lia | lia].
Qed.

(** The configuration [re_initialize_md_offsets] leaves behind. *)
Definition flex_int_md (md : md_cpu) (bytes : Z) : md_cpu :=
  md <| al_offset := - (8 * al_blocks md) |>
     <| md_size_sect := bytes / 512 + 8 + 8 * al_blocks md |>
     <| bm_offset := - (bytes / 512) - 8 * al_blocks md |>.

Definition flex_int_cfg (c : format) (md : md_cpu) (bytes : Z) : format :=
  let al := u64 (md_offset c - 4096 * al_blocks md) in
  let bm := u64 (md_offset c - bytes - 4096 * al_blocks md) in
  c <| cfg_md := flex_int_md md bytes |> <| cfg_bm_bytes := bytes |>
    <| cfg_al_offset := al |> <| cfg_bm_offset := bm |>
    <| max_usable_sect := Z.shiftr (min3 (md_offset c) al bm) 9 |>.

Section flex_int.
Context `{DrbdHeadersOk} (w : world) (k : Z).
Let c := w_cfg w.
Let md := md_defaults (w_opt w) (cfg_md c).
Let bytes := bm_bytes_of md (cfg_bd_size c / 512).

Context (Hidx : md_index c = DRBD_MD_INDEX_FLEX_INT)
  (Hk : block_size md k)
  (Hp : 1 <= max_peers md <= DRBD_PEERS_MAX - 1)
  (Hal : al_size_ok md)
  (Hbd : 0 <= cfg_bd_size c <= 2 ^ 50).

Lemma bytes_bounds : (4096 | bytes) /\ 0 <= bytes <= 2 ^ 48.
Proof.
  pose proof peers_max. assert (0 <= cfg_bd_size c / 512 <= 2 ^ 41).
  { split; [apply Z.div_pos; lia | apply Z.div_le_upper_bound; lia]. }
  destruct (bm_bytes_of_covers md (cfg_bd_size c / 512) k) as (Hd & _ & _ & Hr);
    [done | done | lia | done].
Qed.

(** The bitmap of a device is too large above 2^35 bytes per peer. *)
Lemma re_init_flex_int_run :
  re_initialize_md_offsets w =
  if max_peers md * 2 ^ 26 <? bytes / 512
  then (Exit 10, set_cfg (c <| cfg_md := md <| al_offset := - (8 * al_blocks md) |> |>
                            <| cfg_bm_bytes := bytes |>) w)
  else (Ok (), set_cfg (flex_int_cfg c md bytes) w).
Proof.
  pose proof md_index_ne as (Hne1 & Hne2 & Hne3). pose proof peers_max.
  destruct bytes_bounds as [Hd Hr].
  unfold re_initialize_md_offsets. run. fold c md.
  set (c1 := c <| cfg_md := md |>).
  assert (Hc1 : md_index c1 = DRBD_MD_INDEX_FLEX_INT) by done.
  rewrite !Hc1. replace (DRBD_MD_INDEX_FLEX_INT =? DRBD_MD_INDEX_FLEX_EXT) with false by lia.
  replace (DRBD_MD_INDEX_FLEX_INT =? DRBD_MD_INDEX_INTERNAL) with false by lia.
  rewrite Z.eqb_refl. run.
  rewrite bind_bm_bytes.
  replace (cfg_md c1) with md by reflexivity.
  replace (cfg_bd_size c1) with (cfg_bd_size c) by reflexivity.
  rewrite Z.shiftr_div_pow2 by lia. change (2 ^ 9) with 512.
  assert (Hpre : bm_bytes_pre md (cfg_bd_size c / 512) = true).
  { apply bm_bytes_pre_spec; [by eapply block_size_u32|].
    split; [apply Z.div_le_upper_bound; lia | eauto]. }
  rewrite Hpre. fold bytes. run. rewrite (al_size_sect_eq md) by done.
  unfold al_size_ok in Hal. rewrite (Z.shiftr_div_pow2 bytes) by lia. change (2 ^ 9) with 512.
  assert (Ha : ALIGN (bytes / 512) 8 = bytes / 512).
  { destruct Hd as [q Hq]. replace bytes with (q * 8 * 512) by lia.
    rewrite Z.div_mul by lia. apply (ALIGN_id _ 3); [lia | lia | lia | by exists q]. }
  rewrite Ha. replace (u64 (Z.shiftr MD_BM_MAX_BYTE_FLEX 9 * max_peers md)) with (max_peers md * 2 ^ 26).
  2: { change (Z.shiftr MD_BM_MAX_BYTE_FLEX 9) with (2 ^ 26). rewrite u64_id by solve_int. lia. }
  rewrite (s32_id (- _)) by solve_int.
  rewrite bind_if. destruct (Z.ltb_spec (max_peers md * 2 ^ 26) (bytes / 512)) as [Hlt|Hge]; [done|].
  assert (0 <= bytes / 512) by (apply Z.div_pos; lia).
  unfold MD_AL_OFFSET_07. rewrite (u64_id (bytes / 512 + _ + _)) by solve_int.
  run. unfold max_usable_sectors. run.
  match goal with |- context [md_index ?x =? _] =>
    replace (md_index x) with (md_index c) by reflexivity end.
  rewrite Hidx, Z.eqb_refl, orb_true_r. run.
  assert (Hu : u32 (bytes / 512 + 8 + 8 * al_blocks md) = bytes / 512 + 8 + 8 * al_blocks md)
    by (apply u32_id; solve_int).
  assert (Hs : s32 (u64 (- (bytes / 512 + 8 + 8 * al_blocks md) + 8)) =
               - (bytes / 512) - 8 * al_blocks md).
  { rewrite <- s32_u32, u32_u64, s32_u32, s32_id by solve_int. lia. }
  rewrite Hu, Hs. unfold flex_int_cfg, flex_int_md.
  assert (Hal1 : at_sectors (md_offset c) (- (8 * al_blocks md)) =
                 u64 (md_offset c - 4096 * al_blocks md))
    by (unfold at_sectors; f_equal; lia).
  assert (Hbm1 : at_sectors (md_offset c) (- (bytes / 512) - 8 * al_blocks md) =
                 u64 (md_offset c - bytes - 4096 * al_blocks md)).
  { unfold at_sectors. f_equal. destruct Hd as [q Hq]. rewrite Hq.
    replace (q * 4096) with (q * 8 * 512) by lia. rewrite Z.div_mul; lia. }
  rewrite <- Hal1, <- Hbm1. clearbody bytes md. unfold c1. clearbody c. clear. destruct c, md. reflexivity.
Qed.
End flex_int.

(** The super block is in the last aligned 4 KiB of the device. *)
Lemma flex_int_offset `{DrbdHeadersOk} bd :
  4096 <= bd < 2 ^ 64 ->
  v07_style_md_get_byte_offset DRBD_MD_INDEX_FLEX_INT bd = bd / 4096 * 4096 - 4096.
Proof.
  intros Hbd. pose proof md_index_ne as (Hne1 & Hne2 & Hne3).
  unfold v07_style_md_get_byte_offset.
  replace (DRBD_MD_INDEX_FLEX_INT =? DRBD_MD_INDEX_INTERNAL) with false by lia.
  rewrite Z.eqb_refl, (u64_id (bd - 4096)), land_u64_r by solve_int.
  change 4095 with (2 ^ 12 - 1). rewrite land_lnot_ones by lia. change (2 ^ 12) with 4096.
  replace (bd - 4096) with (bd + (-1) * 4096) by lia. rewrite Z.div_add by lia. lia.
Qed.

Lemma min3_eq x y z : z <= y <= x -> min3 x y z = z.
Proof.
  intros. unfold min3, min_. destruct (Z.ltb_spec x y); [lia|].
  destruct (Z.ltb_spec y z); lia.
Qed.

(** What the flexible internal layout promises: from the end of the device
    backwards the super block, the activity log and the bitmap, adjacent and
    aligned, the data before them, a bitmap large enough for all of the data in
    the slot of every peer, and a write check that admits exactly this area. *)
Record flex_int_layout (c : format) : Prop := {
  fl_start : 0 <= cfg_bm_offset c;
  fl_bitmap : cfg_bm_offset c + cfg_bm_bytes c = cfg_al_offset c;
  fl_al : cfg_al_offset c + al_blocks (cfg_md c) * 4096 = md_offset c;
  fl_super : md_offset c + 4096 <= cfg_bd_size c < md_offset c + 8192;
  fl_aligned : (4096 | cfg_bm_offset c) /\ (4096 | cfg_bm_bytes c) /\ (4096 | md_offset c);
  fl_usable : 0 <= max_usable_sect c /\ max_usable_sect c * 512 <= cfg_bm_offset c;
  fl_covers : max_usable_sect c * 512 * max_peers (cfg_md c) <=
              cfg_bm_bytes c * 8 * bm_bytes_per_bit (cfg_md c);
  fl_area : md_area_start c = cfg_bm_offset c /\ md_area_end c = md_offset c + 4096
}.

Section flex_int_spec.
Context `{DrbdHeadersOk} (c : format) (md : md_cpu) (k : Z).
Let bytes := bm_bytes_of md (cfg_bd_size c / 512).
Let c' := flex_int_cfg c md bytes.

Context (Hk : block_size md k) (Hp : 1 <= max_peers md <= DRBD_PEERS_MAX - 1)
  (Hal : al_size_ok md) (Hbd : 4096 <= cfg_bd_size c <= 2 ^ 50)
  (Hoff : md_offset c = v07_style_md_get_byte_offset DRBD_MD_INDEX_FLEX_INT (cfg_bd_size c))
  (Hfit : 0 <= md_offset c - bytes - 4096 * al_blocks md)
  (Hlarge : bytes / 512 <= max_peers md * 2 ^ 26).

Let al := md_offset c - 4096 * al_blocks md.
Let bm := md_offset c - bytes - 4096 * al_blocks md.

(** The fields of the configuration in unbounded arithmetic. *)
Lemma flex_int_bytes : exists q, bytes = q * 8 * 512 /\ 0 <= bytes <= 2 ^ 48 /\
  cfg_bd_size c / 512 * 512 * max_peers md <= bytes * 8 * bm_bytes_per_bit md.
Proof.
  pose proof peers_max. assert (Hs : 0 <= cfg_bd_size c / 512 <= 2 ^ 41).
  { split; [apply Z.div_pos; lia | apply Z.div_le_upper_bound; lia]. }
  destruct (bm_bytes_of_covers md (cfg_bd_size c / 512) k) as ([q Hd] & _ & Hcov & Hr);
    [done | done | lia | fold bytes in Hd, Hcov, Hr].
  exists q. split; [lia|]. done.
Qed.

Lemma flex_int_al : cfg_al_offset c' = al /\ cfg_bm_offset c' = bm /\ 0 <= bm <= al.
Proof.
  destruct flex_int_bytes as (q & Hq & Hr & _). unfold al_size_ok in Hal.
  rewrite flex_int_offset in Hoff by lia.
  pose proof (Z.div_mod (cfg_bd_size c) 4096). pose proof (Z.mod_pos_bound (cfg_bd_size c) 4096).
  split; [|split]; [| |unfold al, bm; lia].
  - transitivity (u64 al); [reflexivity|]. apply u64_id. unfold al. solve_int.
  - transitivity (u64 bm); [reflexivity|]. apply u64_id. unfold bm. solve_int.
Qed.

Lemma flex_int_usable : max_usable_sect c' * 512 = bm /\ 0 <= max_usable_sect c'.
Proof.
  destruct flex_int_bytes as (q & Hq & Hr & _). destruct flex_int_al as (Ha & Hb & Hab).
  assert (Heq : max_usable_sect c' = bm / 512).
  { transitivity (Z.shiftr (min3 (md_offset c) (cfg_al_offset c') (cfg_bm_offset c')) 9);
      [reflexivity|].
    rewrite Ha, Hb. unfold al_size_ok in Hal.
    rewrite min3_eq by (unfold al, bm in *; lia). by rewrite Z.shiftr_div_pow2. }
  rewrite Heq. split; [|apply Z.div_pos; lia]. unfold bm.
  rewrite flex_int_offset in Hoff by lia. rewrite Hoff, Hq.
  replace (_ - _ - _) with ((8 * (cfg_bd_size c / 4096 - 1 - q - al_blocks md)) * 512) by lia.
  rewrite Z.div_mul; lia.
Qed.

Lemma flex_int_area : md_area_start c' = bm /\ md_area_end c' = md_offset c + 4096.
Proof.
  destruct flex_int_bytes as (q & Hq & Hr & _). destruct flex_int_al as (Ha & Hb & Hab).
  unfold al_size_ok in Hal. rewrite flex_int_offset in Hoff by lia.
  pose proof (Z.div_mod (cfg_bd_size c) 4096). pose proof (Z.mod_pos_bound (cfg_bd_size c) 4096).
  assert (Hd512 : bytes / 512 * 512 = bytes) by (rewrite Hq, Z.div_mul; lia).
  assert (Hs : md_area_start c' = bm).
  { transitivity (s64 (min3 (md_offset c) (at_sectors (md_offset c) (- (8 * al_blocks md)))
      (at_sectors (md_offset c) (- (bytes / 512) - 8 * al_blocks md)))); [reflexivity|].
    unfold at_sectors. rewrite !u64_id by solve_int. rewrite min3_eq by lia.
    rewrite s64_id; unfold bm; lia. }
  split; [done|].
  transitivity (s64 (md_area_start c' + (bytes / 512 + 8 + 8 * al_blocks md) * 512)); [reflexivity|].
  rewrite Hs. unfold bm. rewrite s64_id; lia.
Qed.

Lemma flex_int_cfg_layout : flex_int_layout c'.
Proof.
  destruct flex_int_bytes as (q & Hq & Hr & Hcov). destruct flex_int_al as (Ha & Hb & Hab).
  destruct flex_int_usable as [Hu Hu0]. destruct flex_int_area as [Hs He].
  assert (Ec : cfg_bm_bytes c' = bytes /\ md_offset c' = md_offset c /\
    cfg_bd_size c' = cfg_bd_size c /\ al_blocks (cfg_md c') = al_blocks md /\
    max_peers (cfg_md c') = max_peers md /\
    bm_bytes_per_bit (cfg_md c') = bm_bytes_per_bit md) by (repeat split; reflexivity).
  destruct Ec as (E1 & E2 & E3 & E4 & E5 & E6).
  rewrite flex_int_offset in Hoff by lia. pose proof peers_max.
  pose proof (Z.div_mod (cfg_bd_size c) 4096). pose proof (Z.mod_pos_bound (cfg_bd_size c) 4096).
  split; rewrite ?Ha, ?Hb, ?E1, ?E2, ?E3, ?E4, ?E5, ?E6, ?Hu, ?Hs, ?He.
  - lia.
  - unfold bm, al. lia.
  - unfold al. lia.
  - lia.
  - unfold bm. rewrite Hoff, Hq. split; [|split].
    + exists (cfg_bd_size c / 4096 - 1 - q - al_blocks md). lia.
    + exists q. lia.
    + exists (cfg_bd_size c / 4096 - 1). lia.
  - lia.
  - transitivity (cfg_bd_size c / 512 * 512 * max_peers md); [|done].
    apply Z.mul_le_mono_nonneg_r; [lia|]. unfold al_size_ok in Hal.
    pose proof (Z.div_mod (cfg_bd_size c) 512). pose proof (Z.mod_pos_bound (cfg_bd_size c) 512).
    unfold bm. lia.
  - done.
Qed.
End flex_int_spec.

(** ** The external layouts *)

Lemma max_usable_world `{DrbdHeaders} w : (max_usable_sectors w).2 = w.
Proof.
  unfold max_usable_sectors. rewrite bind_cfg. destruct (_ || _); [done|].
  rewrite bind_if. destruct (_ || _).
  - rewrite bind_ASSERT. by destruct (_ =? _).
  - run. destruct (is_power_of_2 _); [|done]. destruct (_ <=? _); [|done]. by destruct (_ <=? _).
Qed.

Lemma bind_max_usable `{DrbdHeaders} {B} (k : Z -> M B) w r w' :
  (max_usable_sectors ≫= k) w = (Ok r, w') -> exists u, k u w = (Ok r, w').
Proof.
  intros Hr. apply bind_inv in Hr as (u & w1 & Hu & Hr). exists u.
  pose proof (max_usable_world w) as Hw. rewrite Hu in Hw. cbn in Hw. by subst.
Qed.

(** The meta data of the flexible external layout and of a slot of the indexed
    one; [size] is that of the meta data area in sectors. *)
Definition external_md (md : md_cpu) (size : Z) : md_cpu :=
  md <| md_size_sect := size |> <| al_offset := MD_AL_OFFSET_07 |>
     <| bm_offset := s32 (MD_AL_OFFSET_07 + al_size_sect md) |>.

Definition external_size `{DrbdHeaders} (c : format) : Z :=
  if md_index c =? DRBD_MD_INDEX_FLEX_EXT then u32 (Z.shiftr (cfg_bd_size c) 9)
  else MD_RESERVED_SECT_07.

(** The fixed internal layout of 0.7 has room for an activity log of one size. *)
Definition fixed_log `{DrbdHeaders} (idx : Z) (md : md_cpu) : Prop :=
  idx = DRBD_MD_INDEX_INTERNAL -> al_size_sect md = MD_AL_MAX_SECT_07.

Lemma re_init_external_md `{DrbdHeadersOk} w w' :
  fixed_log (md_index (w_cfg w)) (cfg_md (w_cfg w)) -> md_index (w_cfg w) <> DRBD_MD_INDEX_FLEX_INT ->
  re_initialize_md_offsets w = (Ok (), w') ->
  cfg_md (w_cfg w') = external_md (md_defaults (w_opt w) (cfg_md (w_cfg w))) (external_size (w_cfg w)).
Proof.
  intros Hi Hf. unfold re_initialize_md_offsets, external_size. run.
  set (md := md_defaults _ _). set (c1 := w_cfg w <| cfg_md := md |>).
  replace (md_index c1) with (md_index (w_cfg w)) by reflexivity.
  replace (md_index (w_cfg w) =? DRBD_MD_INDEX_FLEX_INT) with false by lia.
  assert (md_index (w_cfg w) = DRBD_MD_INDEX_INTERNAL -> s32 (MD_AL_OFFSET_07 + al_size_sect md) = MD_BM_OFFSET_07) as Hbm.
  { intros Hx. replace (al_size_sect md) with (al_size_sect (cfg_md (w_cfg w))) by reflexivity. by rewrite Hi. }
  rewrite bind_if. pose proof md_index_ne as (Hne1 & _ & _). intros Hr.
  destruct (Z.eqb_spec (md_index (w_cfg w)) DRBD_MD_INDEX_FLEX_EXT);
    [|destruct (Z.eqb_spec (md_index (w_cfg w)) DRBD_MD_INDEX_INTERNAL) as [Hint|]; [specialize (Hbm Hint)|]]; run_in Hr;
    apply bind_max_usable in Hr as [u Hr]; run_in Hr;
    apply (f_equal snd) in Hr; cbn [snd] in Hr; rewrite <- Hr, w_cfg_set;
    clear Hr; clearbody md; [reflexivity| |reflexivity].
  unfold external_md. by rewrite Hbm.
Qed.

Lemma is_valid_flex_int_run `{DrbdHeadersOk} f md ll k w :
  f = DRBD_V07 \/ f = DRBD_V08 \/ f = DRBD_V09 ->
  let md' := flex_int_md md (bm_bytes_of md (ll / 512)) in
  md_magic_ok f md' = true -> md_peers_ok md' = true ->
  block_size md k -> 1 <= max_peers md <= DRBD_PEERS_MAX - 1 -> al_size_ok md ->
  0 <= ll <= 2 ^ 50 -> bm_bytes_of md (ll / 512) / 512 <= max_peers md * 2 ^ 26 ->
  is_valid_md f md' DRBD_MD_INDEX_FLEX_INT ll w = (Ok true, w).
Proof.
  intros Hf md' Hm Hpo Hk Hp Hal Hll Hlarge. pose proof peers_max.
  assert (Hs : 0 <= ll / 512 <= 2 ^ 41).
  { split; [apply Z.div_pos; lia | apply Z.div_le_upper_bound; lia]. }
  destruct (bm_bytes_of_covers md (ll / 512) k) as ([q Hd] & _ & _ & Hr); [done | done | lia|].
  assert (Hal' : al_size_sect md' = 8 * al_blocks md).
  { transitivity (al_size_sect md); [reflexivity | by apply al_size_sect_eq]. }
  unfold is_valid_md. rewrite bind_ASSERT, Hm, Hpo, Z.eqb_refl, Hal'.
  assert ((match f with DRBD_V07 | DRBD_V08 | DRBD_V09 => true | _ => false end) = true) as ->
    by (by destruct Hf as [->|[->| ->]]).
  cbn [negb]. unfold al_size_ok in Hal.
  replace (al_offset md') with (- (8 * al_blocks md)) by reflexivity.
  rewrite s32_id, Z.eqb_refl by solve_int. cbn [negb].
  rewrite Z.shiftr_div_pow2 by lia. change (2 ^ 9) with 512.
  rewrite bind_bm_bytes.
  assert (bm_bytes_pre md' (ll / 512) = true) as ->.
  { apply bm_bytes_pre_spec; [by eapply (block_size_u32 md)|]. split; [lia | by exists k]. }
  replace (bm_bytes_of md' (ll / 512)) with (bm_bytes_of md (ll / 512)) by reflexivity.
  unfold md'. set (bytes := bm_bytes_of md (ll / 512)) in *.
  assert (Hd512 : bytes / 512 = q * 8).
  { rewrite Hd. replace (q * 4096) with (q * 8 * 512) by lia. by rewrite Z.div_mul. }
  assert (Hsz : flex_md_size_sect (flex_int_md md bytes) bytes = bytes / 512 + 8 + 8 * al_blocks md).
  { unfold flex_md_size_sect, MD_AL_OFFSET_07. unfold md' in Hal'. rewrite Hal'.
    rewrite Z.shiftr_div_pow2 by lia. change (2 ^ 9) with 512.
    change 8 with (2 ^ 3) at 1. rewrite (ALIGN_id (bytes / 512) 3) by (lia || (exists q; lia)).
    rewrite u64_id; solve_int. }
  rewrite Hsz. unfold MD_AL_OFFSET_07.
  replace (bm_offset (flex_int_md md bytes)) with (- (bytes / 512) - 8 * al_blocks md) by reflexivity.
  replace (md_size_sect (flex_int_md md bytes)) with (bytes / 512 + 8 + 8 * al_blocks md) by reflexivity.
  rewrite (s64_id (bytes / 512 + 8 + 8 * al_blocks md)), (s64_id (- _)), s64_id by lia.
  replace (- (bytes / 512) - 8 * al_blocks md =? _) with true by lia.
  by rewrite Z.eqb_refl.
Qed.

Lemma is_valid_external_run `{DrbdHeadersOk} f md size idx ll w :
  f = DRBD_V07 \/ f = DRBD_V08 \/ f = DRBD_V09 -> idx <> DRBD_MD_INDEX_FLEX_INT ->
  md_magic_ok f md = true -> md_peers_ok md = true ->
  is_valid_md f (external_md md size) idx ll w = (Ok true, w).
Proof.
  intros Hf Hi Hm Hp. unfold is_valid_md. rewrite bind_ASSERT.
  assert ((match f with DRBD_V07 | DRBD_V08 | DRBD_V09 => true | _ => false end) = true) as ->
    by (by destruct Hf as [->|[->| ->]]).
  replace (md_magic_ok f (external_md md size)) with (md_magic_ok f md) by reflexivity.
  replace (md_peers_ok (external_md md size)) with (md_peers_ok md) by reflexivity.
  rewrite Hm, Hp. cbn [negb]. replace (idx =? DRBD_MD_INDEX_FLEX_INT) with false by lia.
  replace (al_offset (external_md md size)) with MD_AL_OFFSET_07 by reflexivity.
  replace (bm_offset (external_md md size)) with (s32 (MD_AL_OFFSET_07 + al_size_sect md)) by reflexivity.
  replace (al_size_sect (external_md md size)) with (al_size_sect md) by reflexivity.
  by rewrite !Z.eqb_refl.
Qed.

(** ** Theorems *)

(** The meta data a layout is computed for: one of the supported formats, in
    range, with an activity log that fits the buffer. *)
Record layout_input `{DrbdHeaders} (f : md_format) (md : md_cpu) (k : Z) : Prop := {
  li_format : f = DRBD_V07 \/ f = DRBD_V08 \/ f = DRBD_V09;
  li_magic : md_magic_ok f md = true;
  li_peers : md_peers_ok md = true;
  li_block : block_size md k;
  li_al : al_size_ok md
}.

Lemma md_peers_ok_max `{DrbdHeaders} md :
  md_peers_ok md = true -> 1 <= max_peers md <= DRBD_PEERS_MAX - 1.
Proof. unfold md_peers_ok. rewrite !andb_true_iff. intros [[Hm _] _]. bool_lia. Qed.

(** A 1 GiB device with DRBD 9 meta data for three peers and an activity log of
    two stripes. *)
Definition layout_example (idx : Z) : world :=
  let md := mk_md_cpu [0; 0; 0; 0; 0] DRBD_MD_MAGIC_09 0 0 0 0 0 4 (replicate 32 0) 0 0 0 0 3 (-1)
              (replicate 32 zero_peer) 2 8 0 in
  let bd := 2 ^ 30 in
  blank_world DRBD_V09 create_md zero_mem bd <| w_cfg :=
    mk_format DRBD_V09 "/dev/sdx" 0 512 idx 0 0 false false md
      (v07_style_md_get_byte_offset idx bd) 0 0 0 0 0 bd 0 (mk_bdev_info 0 0 None) |>.

Lemma layout_example_input idx :
  layout_input DRBD_V09 (md_defaults (w_opt (layout_example idx)) (cfg_md (w_cfg (layout_example idx)))) 12.
Proof. split; [by right; right | by vm_compute | by vm_compute | | ]; by vm_compute. Qed.

Lemma run_result {A} (m : M A) w a : (m w).1 = Ok a -> m w = (Ok a, (m w).2).
Proof. intros Hm. rewrite (surjective_pairing (m w)). by rewrite Hm. Qed.

(** The computed layout is valid. *)
Lemma re_init_valid `{DrbdHeadersOk} w w' f k :
  fixed_log (md_index (w_cfg w)) (cfg_md (w_cfg w)) ->
  layout_input f (md_defaults (w_opt w) (cfg_md (w_cfg w))) k ->
  0 <= cfg_bd_size (w_cfg w) <= 2 ^ 50 ->
  re_initialize_md_offsets w = (Ok (), w') ->
  is_valid_md f (cfg_md (w_cfg w')) (md_index (w_cfg w)) (cfg_bd_size (w_cfg w)) w' = (Ok true, w').
Proof.
  intros Hi [Hf Hm Hpo Hk Hal] Hbd Hr. pose proof (md_peers_ok_max _ Hpo) as Hp.
  destruct (Z.eq_dec (md_index (w_cfg w)) DRBD_MD_INDEX_FLEX_INT) as [Hfi|Hfi].
  - rewrite (re_init_flex_int_run w k) in Hr by (done || lia). revert Hr. rewrite Hfi.
    set (md := md_defaults _ _) in *. set (bytes := bm_bytes_of md _).
    destruct (Z.ltb_spec (max_peers md * 2 ^ 26) (bytes / 512)); [done|]. intros Hr.
    apply (f_equal snd) in Hr. cbn [snd] in Hr. rewrite <- Hr, w_cfg_set. clear Hr w'.
    replace (cfg_md (flex_int_cfg (w_cfg w) md bytes)) with (flex_int_md md bytes) by reflexivity.
    apply (is_valid_flex_int_run f md _ k); done.
  - rewrite (re_init_external_md w w') by done. by apply is_valid_external_run.
Qed.

(** Only the layout differs. *)
Definition same_but_layout (md md' : md_cpu) : Prop :=
  exists size al bm, md' = md <| md_size_sect := size |> <| al_offset := al |> <| bm_offset := bm |>.

Lemma re_init_shape `{DrbdHeadersOk} w w' k :
  let md := md_defaults (w_opt w) (cfg_md (w_cfg w)) in
  fixed_log (md_index (w_cfg w)) (cfg_md (w_cfg w)) ->
  block_size md k -> 1 <= max_peers md <= DRBD_PEERS_MAX - 1 -> al_size_ok md ->
  0 <= cfg_bd_size (w_cfg w) <= 2 ^ 50 ->
  re_initialize_md_offsets w = (Ok (), w') -> same_but_layout md (cfg_md (w_cfg w')).
Proof.
  intros md Hi Hk Hp Hal Hbd Hr.
  destruct (Z.eq_dec (md_index (w_cfg w)) DRBD_MD_INDEX_FLEX_INT) as [Hfi|Hfi].
  - rewrite (re_init_flex_int_run w k) in Hr by (done || lia). revert Hr. fold md. set (bytes := bm_bytes_of md _).
    destruct (Z.ltb_spec (max_peers md * 2 ^ 26) (bytes / 512)); [done|]. intros Hr.
    apply (f_equal snd) in Hr. cbn [snd] in Hr. rewrite <- Hr, w_cfg_set.
    replace (cfg_md (flex_int_cfg (w_cfg w) md bytes)) with (flex_int_md md bytes) by reflexivity.
    do 3 eexists. reflexivity.
  - rewrite (re_init_external_md w w') by done. fold md. do 3 eexists. reflexivity.
Qed.

Lemma keeps_place_re_init `{DrbdHeaders} : keeps same_place re_initialize_md_offsets.
Proof.
  unfold re_initialize_md_offsets, max_usable_sectors, bm_bytes. keeps. all: intros w'; by split_and!.
Qed.

(** C3: for internal meta data, [re_initialize_md_offsets] places super block,
    activity log and bitmap next to each other at the end of the device, without
    overlap, aligned to 4 KiB, outside of the usable data, with a bitmap that has
    a bit for every usable block in the slot of every peer; and the range the
    write check admits is exactly this area. *)
Theorem re_initialize_flex_int_layout `{DrbdHeadersOk} w w' f k :
  md_index (w_cfg w) = DRBD_MD_INDEX_FLEX_INT ->
  layout_input f (md_defaults (w_opt w) (cfg_md (w_cfg w))) k ->
  4096 <= cfg_bd_size (w_cfg w) <= 2 ^ 50 ->
  md_offset (w_cfg w) =
    v07_style_md_get_byte_offset DRBD_MD_INDEX_FLEX_INT (cfg_bd_size (w_cfg w)) ->
  re_initialize_md_offsets w = (Ok (), w') ->
  0 <= md_offset (w_cfg w) - cfg_bm_bytes (w_cfg w') - 4096 * al_blocks (cfg_md (w_cfg w')) ->
  flex_int_layout (w_cfg w').
Proof.
  intros Hi [Hf Hm Hpo Hk Hal] Hbd Hoff Hr Hfit. pose proof (md_peers_ok_max _ Hpo) as Hp.
  rewrite (re_init_flex_int_run w k) in Hr by (done || lia). revert Hr.
  set (md := md_defaults _ _) in *. set (bytes := bm_bytes_of md _).
  destruct (Z.ltb_spec (max_peers md * 2 ^ 26) (bytes / 512)); [done|]. intros Hr.
  apply (f_equal snd) in Hr. cbn [snd] in Hr. rewrite <- Hr, w_cfg_set in *. clear Hr.
  apply (flex_int_cfg_layout _ _ k); done.
Qed.

Lemma re_initialize_flex_int_layout_witness :
  flex_int_layout (w_cfg (re_initialize_md_offsets (layout_example DRBD_MD_INDEX_FLEX_INT)).2).
Proof.
  apply (re_initialize_flex_int_layout (layout_example DRBD_MD_INDEX_FLEX_INT) _ DRBD_V09 12).
  - reflexivity.
  - apply layout_example_input.
  - vm_compute. split; discriminate.
  - reflexivity.
  - apply run_result. vm_compute. reflexivity.
  - vm_compute. discriminate.
Defined.

(** *** Writes spare the data of the user *)

(** The announced offsets of old meta data blocks. *)
Definition announced (c : format) (offset : Z) : Prop :=
  offset <> 0 /\ (offset = wipe_fixed c \/ offset = wipe_flex c \/ offset = wipe_resize c).

Lemma is_wipe_offset_announced c offset :
  0 <= offset < 2 ^ 63 -> is_wipe_offset c offset = true -> announced c offset.
Proof.
  intros Ho. unfold is_wipe_offset, announced. rewrite u64_id by solve_int.
  rewrite andb_true_iff, negb_true_iff, !orb_true_iff, Z.eqb_neq, !Z.eqb_eq. intros [? [[?|?]|?]]; auto.
Qed.

(** C8: with the flexible internal layout, a write request - to any offset, of
    any length - leaves the data of the user alone: a byte that it changes lies
    in the requested range, not in a dry run, and behind the last usable sector,
    at or after the start of the bitmap and before the end of the super block.
    There are two exceptions, which are stated: a request at an offset that was
    announced for wiping an old meta data block is not checked, and
    --ignore-sanity-checks turns the check off. *)
Theorem writes_spare_user_data src count offset w i :
  flex_int_layout (w_cfg w) -> 0 <= md_offset (w_cfg w) -> 0 <= offset < 2 ^ 63 -> 0 <= count < 2 ^ 63 ->
  w_dev (pwrite_or_die src count offset w).2 i <> w_dev w i ->
  dry_run (w_opt w) = false /\ offset <= i < offset + count /\
  ((max_usable_sect (w_cfg w) * 512 <= cfg_bm_offset (w_cfg w) /\ cfg_bm_offset (w_cfg w) <= i < md_offset (w_cfg w) + 4096) \/
   announced (w_cfg w) offset \/ ignore_sanity_checks (w_opt w) = true).
Proof.
  intros Hl Hmd Ho Hc Hne. apply pwrite_or_die_changes in Hne as (Hi & Hd & Ha). do 2 (split; [done|]).
  unfold write_allowed in Ha. rewrite !orb_true_iff, negb_true_iff, orb_false_iff, !Z.ltb_ge in Ha.
  destruct Hl as [H0 Hb Hal Hs _ [_ Hu] _ [Hstart Hend]]. rewrite Hstart, Hend in Ha.
  destruct Ha as [[Hw|[H1 H2]]|Hign]; [right; left; by apply is_wipe_offset_announced| |by auto].
  left. assert (md_offset (w_cfg w) + 4096 < 2 ^ 63) as Hmax.
  { rewrite <- Hend. unfold md_area_end, s64. pose proof (Z.mod_pos_bound (md_area_start (w_cfg w) + md_size_sect (cfg_md (w_cfg w)) * 512 + 2 ^ 63) (2 ^ 64)). lia. }
  rewrite !u64_id in H2 by solve_int. lia.
Qed.

(** The area of the meta data is written, the data before it is not. *)
Lemma writes_spare_user_data_witness :
  let w := (re_initialize_md_offsets (layout_example DRBD_MD_INDEX_FLEX_INT)).2 in
  let i := cfg_bm_offset (w_cfg w) + 3 in
  w_dev (pwrite_or_die (fun _ => 7) 512 (i - 3) w).2 i <> w_dev w i /\
  (max_usable_sect (w_cfg w) * 512 <= i /\ (pwrite_or_die (fun _ => 7) 512 (i - 4096) w).1 = Exit 10).
Proof.
  intros w i.
  assert (w_dev (pwrite_or_die (fun _ => 7) 512 (i - 3) w).2 i <> w_dev w i) as Hne by (by vm_compute).
  split; [exact Hne|].
  destruct (writes_spare_user_data (fun _ => 7) 512 (i - 3) w i) as (_ & _ & [Hin|[Ha|Hi]]);
    [exact re_initialize_flex_int_layout_witness|vm_compute; discriminate|vm_compute; split; congruence|split; lia|exact Hne| | |].
  - split; [unfold i in *; lia|by vm_compute].
  - exfalso. destruct Ha as [_ Ha]. vm_compute in Ha. by destruct Ha as [?|[?|?]].
  - by vm_compute in Hi.
Defined.


(** C4: whatever the layout (flexible internal, flexible external, an indexed slot,
    or the fixed internal one of 0.7 with an activity log of its size), the meta
    data [re_initialize_md_offsets] produces passes the validity check that every
    later read of the super block applies. *)
Theorem re_initialize_is_valid `{DrbdHeadersOk} w w' f k :
  fixed_log (md_index (w_cfg w)) (cfg_md (w_cfg w)) ->
  layout_input f (md_defaults (w_opt w) (cfg_md (w_cfg w))) k ->
  0 <= cfg_bd_size (w_cfg w) <= 2 ^ 50 ->
  re_initialize_md_offsets w = (Ok (), w') ->
  is_valid_md f (cfg_md (w_cfg w')) (md_index (w_cfg w)) (cfg_bd_size (w_cfg w)) w' = (Ok true, w').
Proof. apply re_init_valid. Qed.

Lemma re_initialize_is_valid_witness :
  let w := layout_example DRBD_MD_INDEX_FLEX_EXT in
  let w' := (re_initialize_md_offsets w).2 in
  is_valid_md DRBD_V09 (cfg_md (w_cfg w')) DRBD_MD_INDEX_FLEX_EXT (2 ^ 30) w' = (Ok true, w').
Proof.
  intros w w'. apply (re_initialize_is_valid w w' DRBD_V09 12).
  - discriminate.
  - apply layout_example_input.
  - vm_compute. split; discriminate.
  - refine (run_result re_initialize_md_offsets w () _). vm_compute. reflexivity.
Defined.

(** for external meta data, a device of the size [max_usable_sectors]
    reports (or smaller) needs a bitmap that fits between [bm_offset] and the end
    of the meta data area, provided that space is a multiple of 4 KiB. *)
Theorem max_usable_external_fits `{DrbdHeadersOk} w u w' k sectors :
  let c := w_cfg w in let md := cfg_md c in
  md_index c <> DRBD_MD_INDEX_INTERNAL -> md_index c <> DRBD_MD_INDEX_FLEX_INT ->
  block_size md k -> 1 <= max_peers md <= DRBD_PEERS_MAX - 1 ->
  0 <= md_size_sect md - bm_offset md < 2 ^ 31 -> (8 | md_size_sect md - bm_offset md) ->
  max_usable_sectors w = (Ok u, w') -> 0 <= sectors <= u -> u <= 2 ^ 41 ->
  bm_bytes_of md sectors <= (md_size_sect md - bm_offset md) * 512.
Proof.
  intros c md Hi Hf Hb Hp HS [q HS8] Hr Hsec Hu41. pose proof peers_max.
  set (S := md_size_sect md - bm_offset md) in *.
  assert (Hu : u = u64 (u64 (u64 (u32 S * 512 * 8) / 64 / max_peers md * 64) * bm_bytes_per_bit md) / 512).
  { unfold max_usable_sectors in Hr. rewrite bind_cfg in Hr. fold c md in Hr.
    replace (md_index c =? DRBD_MD_INDEX_INTERNAL) with false in Hr by lia.
    replace (md_index c =? DRBD_MD_INDEX_FLEX_INT) with false in Hr by lia.
    cbn [orb] in Hr. apply bind_inv in Hr as (? & w1 & _ & Hr).
    apply (f_equal fst) in Hr. cbn [fst mret M_ret] in Hr. by injection Hr as <-. }
  assert (Hmono : bm_bytes_of md sectors <= bm_bytes_of md u)
    by (apply (bm_bytes_of_mono _ _ _ k); [done | done | done | lia]).
  etransitivity; [exact Hmono|]. rewrite (bm_bytes_of_eq md u k) by (done || lia).
  unfold bits_for. destruct Hb as [Hk Hb]. rewrite Hb in *.
  assert (Heq : 2 ^ k = 2 ^ (k - 9) * 512)
    by (change 512 with (2 ^ 9); rewrite <- Z.pow_add_r by lia; f_equal; lia).
  assert (0 < 2 ^ (k - 9)) by (apply Z.pow_pos_nonneg; lia).
  assert (2 ^ (k - 9) <= 2 ^ 11) by (apply Z.pow_le_mono_r; lia).
  rewrite Heq in *. rewrite Z.div_mul by lia. set (spb := 2 ^ (k - 9)) in *.
  rewrite (u32_id S), (u64_id (S * 512 * 8)) in Hu by solve_int.
  replace (S * 512 * 8) with (S * 64 * 64) in Hu by lia. rewrite Z.div_mul in Hu by lia.
  set (n := S * 64 / max_peers md) in *.
  assert (Hn : 0 <= n <= S * 64 /\ n * max_peers md <= S * 64).
  { unfold n. pose proof (Z.div_mod (S * 64) (max_peers md)).
    pose proof (Z.mod_pos_bound (S * 64) (max_peers md)).
    assert (0 <= S * 64 / max_peers md) by (apply Z.div_pos; lia). nia. }
  rewrite (u64_id (n * 64)), u64_id in Hu by (unfold in_u64; nia).
  rewrite Z.mul_assoc, Z.div_mul in Hu by lia. subst u.
  replace ((n * 64 * spb + spb - 1) / spb) with (n * 64).
  2: { apply Z.div_unique with (spb - 1); lia. }
  assert (round_up (n * 64) 64 = n * 64) as ->.
  { unfold round_up. f_equal. symmetry. apply Z.div_unique with 63; lia. }
  replace (n * 64) with (n * 8 * 8) by lia. rewrite Z.div_mul by lia.
  replace (S * 512) with (round_up (S * 512) 4096).
  2: { unfold round_up. rewrite HS8. symmetry.
       replace ((q * 8 * 512 + 4096 - 1) / 4096) with q; [lia|].
       apply Z.div_unique with 4095; lia. }
  apply round_up_mono; nia.
Qed.

(** 32 KiB of bitmap space for two peers. *)
Definition external_example (sectors : Z) : world :=
  let md := mk_md_cpu [0; 0; 0; 0; 0] DRBD_MD_MAGIC_09 0 (24 + sectors) 8 0 24 4 (replicate 32 0) 0 0
              4096 0 2 (-1) (replicate 32 zero_peer) 1 2 0 in
  blank_world DRBD_V09 create_md zero_mem (512 * (24 + sectors)) <| w_cfg :=
    mk_format DRBD_V09 "/dev/sdx" 0 512 DRBD_MD_INDEX_FLEX_EXT 0 0 false false md 0 4096 12288 0 0 0
      (512 * (24 + sectors)) 0 (mk_bdev_info 0 0 None) |>.

Lemma max_usable_external_fits_witness :
  bm_bytes_of (cfg_md (w_cfg (external_example 64))) 1048576 <= 64 * 512.
Proof.
  apply (max_usable_external_fits (external_example 64) 1048576
    (max_usable_sectors (external_example 64)).2 12 1048576).
  - discriminate.
  - discriminate.
  - split; [lia | reflexivity].
  - vm_compute. split; discriminate.
  - vm_compute. split; [discriminate | reflexivity].
  - exists 8. reflexivity.
  - apply run_result. vm_compute. reflexivity.
  - lia.
  - lia.
Defined.

(** With a single sector of bitmap space, the bitmap of the largest usable
    device is computed as 4 KiB: it reaches beyond the device. *)
Lemma external_bitmap_overruns :
  let w := external_example 1 in
  exists u, (max_usable_sectors w).1 = Ok u /\
  bm_bytes_of (cfg_md (w_cfg w)) u = 4096 /\
  cfg_bm_offset (w_cfg w) + bm_bytes_of (cfg_md (w_cfg w)) u > cfg_bd_size (w_cfg w).
Proof. eexists. split; [vm_compute; reflexivity|]. by vm_compute. Qed.
