(* ===== verification/FsDetect.v ===== *)
(** * Is there something else on the device?

    Before meta data are created the first 68 KiB of the device are searched for
    the signatures of other uses; [check_for_existing_data] refuses what would
    destroy them, and asks about the rest. *)

From S2P Require Import Prelude Machine Headers SharedTool MetaData OnDisk Layout.
From Stdlib Require Import Ascii String.

#[local] Open Scope Z_scope.

Record fstype_s := mk_fstype_s {
  fs_type : string;
  fs_bnum : Z;
  fs_bsize : Z
}.

Definition some_data : fstype_s := mk_fstype_s "some data" 0 0.

(** A detector returns what it found, if anything. *)
Definition detector : Type := mem -> option fstype_s.

(** [strncmp(s, data + pos, strlen(s)) == 0]: no signature has a NUL. *)
Fixpoint has_string (s : string) (data : mem) (pos : Z) : bool :=
  match s with
  | EmptyString => true
  | String c s' => (data pos =? Z.of_nat (nat_of_ascii c)) && has_string s' data (pos + 1)
  end.

Definition le16_at (data : mem) (pos : Z) : Z := le16_to_cpu (load_le 2 data pos).
Definition le32_at (data : mem) (pos : Z) : Z := le32_to_cpu (load_le 4 data pos).
Definition le64_at (data : mem) (pos : Z) : Z := le64_to_cpu (load_le 8 data pos).

Definition may_be_extX : detector := fun data =>
  if le16_at data 0x438 =? 0xEF53 then
    let size := le32_at data 0x418 in
    Some (mk_fstype_s
      (if Z.land (data 0x45c) 4 =? 4 then "ext3 filesystem" else "ext2 filesystem")
      (le32_at data 0x404)
      (if size =? 0 then 1024 else if size =? 1 then 2048 else 4096))
  else None.

Definition may_be_xfs : detector := fun data =>
  if be32_at data 0 =? 0x58465342 then
    Some (mk_fstype_s "xfs filesystem" (be64_at data 8) (be32_at data 4))
  else None.

Definition may_be_reiserfs : detector := fun data =>
  if has_string "ReIsErFs" data 0x10034 || has_string "ReIsEr2Fs" data 0x10034 then
    Some (mk_fstype_s "reiser filesystem" (le32_at data 0x10000) (le16_at data 0x1002c))
  else None.

Definition may_be_jfs : detector := fun data =>
  if has_string "JFS1" data 0x8000 then
    Some (mk_fstype_s "JFS filesystem" (le64_at data 0x8008) (le32_at data 0x8018))
  else None.

(** A block size for what is always refused. *)
Definition REFUSE_BSIZE : Z := 0xFFFFffffFFFF0000.
Definition ERR_BSIZE : Z := 0xFFFFffffFFFF0001.

Definition may_be_swap : detector := fun data =>
  if has_string "SWAP-SPACE" data (2 ^ 12 - 10) || has_string "SWAPSPACE2" data (2 ^ 12 - 10) ||
     has_string "SWAP-SPACE" data (2 ^ 13 - 10) || has_string "SWAPSPACE2" data (2 ^ 13 - 10)
  then Some (mk_fstype_s "swap space signature" 1 REFUSE_BSIZE)
  else None.

(** The size of a physical volume is what the external program [pvs] says. *)
Definition may_be_LVM (pvs_size : option Z) : detector := fun data =>
  if has_string "LVM2" data 0x218 then
    Some (match pvs_size with
          | Some sectors => mk_fstype_s "LVM2 physical volume signature" sectors 512
          | None => mk_fstype_s "LVM2 physical volume signature" 1 ERR_BSIZE
          end)
  else None.

(** The first detector that finds something decides. *)
Definition detect_existing (pvs_size : option Z) (data : mem) : fstype_s :=
  default some_data
    (foldr (fun (d : detector) found => match d data with Some f => Some f | None => found end) None
       [may_be_swap; may_be_LVM pvs_size; may_be_extX; may_be_xfs; may_be_jfs; may_be_reiserfs]).

Definition all_zero (data : mem) : bool :=
  forallb (fun i => load_le 8 data (8 * i) =? 0) (upto (SO_MUCH / 8)).

(** [%12llu] *)
Definition show_u12 (n : Z) (tail : string) : string :=
  let digits := show_u n EmptyString in
  String.append (foldr (fun _ s => String " "%char s) EmptyString (seq 0 (12 - String.length digits)))
    (String.append digits tail).


(** In KiB, rounded up, in 64 bits. *)
Definition fs_kB_of (f : fstype_s) : Z := Z.shiftr (u64 (fs_bsize f * fs_bnum f + 1024 - 1)) 10.

Definition msg_ignoring : string := nl +:+ "Ignoring sanity check on user request." +:+ nl +:+ nl.
Definition msg_destroy : string :=
  "If you want me to do this, you need to zero out the first part" +:+ nl +:+
  "of the device (destroy the content)." +:+ nl +:+
  "You should be very sure that you mean it." +:+ nl +:+ "Operation refused." +:+ nl +:+ nl.
Definition msg_truncated : string :=
  "Device size would be truncated, which" +:+ nl +:+ "would corrupt data and result in" +:+ nl +:+
  "'access beyond end of device' errors." +:+ nl.

(** Refuse, unless the user insists; [m] is the message of the refusal. *)
Definition refuse_unless_ignored (m : string) : M unit :=
  o ← opt;
  if ignore_sanity_checks o then printf msg_ignoring else printf m;; exit 40.

Definition ask_to_proceed : M unit :=
  yes ← confirmed;
  if (yes : bool) then mret ()
  else printf ("Operation canceled." +:+ nl);; exit 1.

Definition check_for_existing_data `{DrbdHeaders} : M unit :=
  pread_or_die 0 SO_MUCH 0;;
  data ← gets w_buf;
  if all_zero data then mret ()
  else
    e ← env;
    let f := detect_existing (dev_pvs_size e) data in
    c ← cfg;
    printf ("md_offset " +:+ show_u (md_offset c) nl);;
    printf ("al_offset " +:+ show_u (cfg_al_offset c) nl);;
    printf ("bm_offset " +:+ show_u (cfg_bm_offset c) nl);;
    printf (nl +:+ "Found " +:+ fs_type f +:+ nl);;
    let fs_kB := fs_kB_of f in
    usable ← max_usable_sectors;
    let max_usable_kB := Z.shiftr usable 1 in
    if negb (fs_bnum f =? 0) then
      if (0 <=? md_index c) || (md_index c =? DRBD_MD_INDEX_FLEX_EXT) then
        printf (nl +:+ "This would corrupt existing data." +:+ nl);;
        refuse_unless_ignored msg_destroy
      else
        when (fs_bsize f <? REFUSE_BSIZE) (printf (show_u12 fs_kB (" kB data area apparently used" +:+ nl)));;
        printf (show_u12 max_usable_kB (" kB left usable by current configuration" +:+ nl));;
        when (fs_bsize f =? ERR_BSIZE)
          (printf ("Could not determine the size of the actually used data area." +:+ nl +:+ nl));;
        if REFUSE_BSIZE <=? fs_bsize f then
          printf msg_truncated;;
          refuse_unless_ignored msg_destroy
        else if max_usable_kB <? fs_kB then
          printf (nl +:+ msg_truncated +:+ "You need to either" +:+ nl +:+
            "   * use external meta data (recommended)" +:+ nl +:+
            "   * shrink that filesystem first" +:+ nl +:+
            "   * zero out the device (destroy the filesystem)" +:+ nl +:+
            "Operation refused." +:+ nl +:+ nl);;
          exit 40
        else
          printf (nl +:+ "Even though it looks like this would place the new meta data into" +:+ nl +:+
            "unused space, you still need to confirm, as this is only a guess." +:+ nl);;
          ask_to_proceed
    else
      printf (nl +:+ " ==> This might destroy existing data! <==" +:+ nl);;
      ask_to_proceed.

(** ** Theorems *)

Lemma ask_to_proceed_agreed w r w' : ask_to_proceed w = (Ok r, w') -> agreed w.
Proof.
  unfold ask_to_proceed. intros Hr. apply bind_inv in Hr as ([|] & w1 & Hc & Hr); [|done].
  by eapply confirmed_agreed.
Qed.

Lemma refuse_exits m w r w' :
  ignore_sanity_checks (w_opt w) = false -> refuse_unless_ignored m w <> (Ok r, w').
Proof. intros Hi. unfold refuse_unless_ignored. run. by rewrite Hi. Qed.

(** Printing changes the output only. *)
Definition only_out (w w' : world) : Prop :=
  w_cfg w' = w_cfg w /\ w_opt w' = w_opt w /\ w_env w' = w_env w /\ w_stdin w' = w_stdin w.

#[export] Instance only_out_preorder : PreOrder only_out.
Proof.
  split; [by repeat split|]. intros w1 w2 w3 (H1 & H2 & H3 & H4) (H5 & H6 & H7 & H8).
  repeat split; congruence.
Qed.

Lemma bind_print_inv {B} s (k : unit -> M B) w r w' :
  (printf s ≫= k) w = (Ok r, w') -> exists w1, only_out w w1 /\ k () w1 = (Ok r, w').
Proof. intros Hr. exists (out s w). by split. Qed.

Lemma bind_when_print_inv {B} b s (k : unit -> M B) w r w' :
  (when b (printf s) ≫= k) w = (Ok r, w') -> exists w1, only_out w w1 /\ k () w1 = (Ok r, w').
Proof. destruct b; [apply bind_print_inv|]. intros Hr. exists w. by split. Qed.

(** Steps over the next message in [H]. *)
Ltac print_step H :=
  let w := fresh "w" in let Ho := fresh "Ho" in
  cbv beta iota in H;
  lazymatch type of H with
  | mbind _ (when _ _) _ = _ => apply bind_when_print_inv in H as (w & Ho & H)
  | mbind _ (printf _) _ = _ => apply bind_print_inv in H as (w & Ho & H)
  end;
  lazymatch goal with
  | P : only_out ?w0 ?w1, Q : only_out ?w1 w |- _ =>
      pose proof (transitivity P Q); clear P Q
  | _ => idtac
  end.

Lemma agreed_only_out w w' : only_out w w' -> agreed w' -> agreed w.
Proof. unfold agreed. by intros (_ & -> & -> & ->). Qed.

Lemma fs_kB_fits f usable m :
  0 <= fs_bsize f * fs_bnum f -> fs_bsize f * fs_bnum f + 1023 < 2 ^ 64 ->
  usable = Z.shiftr m 9 -> fs_kB_of f <= Z.shiftr usable 1 -> fs_bsize f * fs_bnum f <= m.
Proof.
  intros H0 H64 -> Hle. unfold fs_kB_of in Hle. rewrite u64_id in Hle by (unfold in_u64; lia).
  rewrite Z.shiftr_shiftr, !Z.shiftr_div_pow2 in Hle by lia. change (2 ^ (9 + 1)) with 1024 in Hle.
  change (2 ^ 10) with 1024 in Hle.
  pose proof (Z.mul_div_le m 1024). pose proof (Z.mul_succ_div_gt (fs_bsize f * fs_bnum f + 1024 - 1) 1024). lia.
Qed.

(** What is known when the check lets internal meta data pass. *)
Definition data_left_alone `{DrbdHeaders} (c : format) (f : fstype_s) : Prop :=
  (md_index c < 0 /\ md_index c <> DRBD_MD_INDEX_FLEX_EXT) /\
  fs_bsize f < REFUSE_BSIZE /\
  (md_index c = DRBD_MD_INDEX_INTERNAL \/ md_index c = DRBD_MD_INDEX_FLEX_INT ->
   0 <= fs_bsize f * fs_bnum f -> fs_bsize f * fs_bnum f + 1023 < 2 ^ 64 ->
   fs_bsize f * fs_bnum f <= min3 (md_offset c) (cfg_al_offset c) (cfg_bm_offset c)).

(** C11: without --force and --ignore-sanity-checks, meta data are created only
    if the first 68 KiB of the device are zero, or the user agreed.  If these
    bytes have the signature of a known use with a size, then agreement is not
    enough: the meta data must be internal, the size known, and the file system
    must end before the super block, the activity log and the bitmap. *)
Theorem existing_data_protected `{DrbdHeaders} w r w' :
  check_for_existing_data w = (Ok r, w') ->
  force (w_opt w) = false -> ignore_sanity_checks (w_opt w) = false ->
  let data := copy (w_buf w) 0 (w_dev w) 0 SO_MUCH in
  let f := detect_existing (dev_pvs_size (w_env w)) data in
  all_zero data = true \/
  (agreed w /\ (fs_bnum f <> 0 -> data_left_alone (w_cfg w) f)).
Proof.
  intros Hr Hforce Hign data f. unfold check_for_existing_data in Hr.
  apply bind_pread_inv in Hr as (Hr & _). set (w1 := w <| w_buf := _ |>) in Hr.
  rewrite bind_gets in Hr. change (w_buf w1) with data in Hr.
  destruct (all_zero data); [by left|]. right. rewrite bind_env, bind_cfg in Hr. cbv zeta in Hr.
  change (detect_existing (dev_pvs_size (w_env w1)) data) with f in Hr.
  assert (H1 : only_out w w1) by (by repeat split). do 4 print_step Hr.
  apply bind_inv in Hr as (usable & wr & Hu & Hr).
  match goal with H : only_out w ?x |- _ => rename H into Ho, x into wm end.
  pose proof Ho as (Hcfg & Hopt & _).
  assert (wr = wm) as -> by (pose proof (max_usable_world wm) as Hw; by rewrite Hu in Hw).
  change (w_cfg w1) with (w_cfg w) in Hr.
  destruct (Z.eqb_spec (fs_bnum f) 0) as [Hb|Hb]; cbn [negb] in Hr.
  { print_step Hr. apply ask_to_proceed_agreed in Hr. split; [|done]. by eapply agreed_only_out. }
  destruct ((0 <=? md_index (w_cfg w)) || (md_index (w_cfg w) =? DRBD_MD_INDEX_FLEX_EXT)) eqn:Hidx.
  { print_step Hr. apply refuse_exits in Hr; [done|].
    match goal with H : only_out w _ |- _ => by rewrite (proj1 (proj2 H)) end. }
  apply orb_false_iff in Hidx as [Hi1 Hi2]. apply Z.leb_gt in Hi1. apply Z.eqb_neq in Hi2.
  do 3 print_step Hr. destruct (Z.leb_spec REFUSE_BSIZE (fs_bsize f)) as [|Hbs].
  { print_step Hr. apply refuse_exits in Hr; [done|].
    match goal with H : only_out w _ |- _ => by rewrite (proj1 (proj2 H)) end. }
  destruct (Z.ltb_spec (Z.shiftr usable 1) (fs_kB_of f)) as [|Hkb]; [by print_step Hr|].
  print_step Hr. apply ask_to_proceed_agreed in Hr. split; [by eapply agreed_only_out|].
  intros _. split; [done|]. split; [done|]. intros Hint H0 H64.
  apply (fs_kB_fits f usable); [done | done | | done].
  unfold max_usable_sectors in Hu. rewrite bind_cfg, Hcfg in Hu.
  assert ((md_index (w_cfg w) =? DRBD_MD_INDEX_INTERNAL) || (md_index (w_cfg w) =? DRBD_MD_INDEX_FLEX_INT) = true) as Hi
    by (apply orb_true_iff; rewrite !Z.eqb_eq; done).
  rewrite Hi in Hu. by injection Hu.
Qed.

(** An ext2 file system of 100 KiB on a device of 1 MiB, with room for internal
    meta data behind it; the user says yes. *)
Definition example_ext2_world : world :=
  let dev := store_le 2 (store_le 4 zero_mem 0x404 100) 0x438 0xEF53 in
  mk_world
    (mk_format DRBD_V08 "/dev/sdx" 0 512 DRBD_MD_INDEX_FLEX_INT 4096 0 false false zero_md
       1044480 1011712 1007616 0 0 0 (2 ^ 20) 0 (mk_bdev_info 0 0 None))
    (default_options create_md)
    (mk_environment (2 ^ 20) true [] true true (Some 512) (fun _ _ => true) true true true None)
    dev zero_mem None [] [String.append "yes" nl] [] 0 0.

Lemma existing_data_protected_witness :
  let w := example_ext2_world in
  let f := detect_existing None (copy zero_mem 0 (w_dev w) 0 SO_MUCH) in
  f = mk_fstype_s "ext2 filesystem" 100 1024 /\
  (all_zero (copy zero_mem 0 (w_dev w) 0 SO_MUCH) = true \/
   (agreed w /\ (fs_bnum f <> 0 -> data_left_alone (w_cfg w) f))).
Proof.
  intros w f. split; [vm_compute; reflexivity|].
  apply (existing_data_protected w () (check_for_existing_data w).2); [|reflexivity | reflexivity].
  apply run_result. vm_compute. reflexivity.
Defined.
