(* ===== verification/GenId.v ===== *)
(** * Generation identifiers

    Printing, parsing and changing the generation identifiers: the counters of
    DRBD 0.6 and 0.7, the UUIDs of DRBD 8 and 9.  A command line argument is the
    fields of the printed form, separated by colons; an empty field keeps the old
    value, and so do the fields that are missing at the end. *)

From S2P Require Import Prelude Machine Headers SharedTool MetaData OnDisk.
From Stdlib Require Import Ascii String.
From stdpp Require Import strings.

#[local] Open Scope Z_scope.

(** ** Splitting the argument *)

(** [strsep(s, ":")]: the token and what is left; [None] when [*s] is NULL. *)
Fixpoint split_colon (s : string) : string * option string :=
  match s with
  | EmptyString => (EmptyString, None)
  | String c s' =>
      if Ascii.eqb c ":"%char then (EmptyString, Some s')
      else let '(t, r) := split_colon s' in (String c t, r)
  end.

Definition strsep (s : option string) : option (string * option string) :=
  match s with
  | None => None
  | Some s => Some (split_colon s)
  end.

Definition is_empty (s : string) : bool :=
  match s with EmptyString => true | _ => false end.

(** [strtoul(t, &e, base)] of a whole token, or exit. *)
Definition token_number (t : string) (base max : Z) : M Z :=
  let '(v, e, errno) := strto_u64 t base in
  if negb (is_empty e) then exit 10
  else if (errno : bool) then exit 10
  else if max <? v then exit 10
  else mret v.

(** Each returns what is left of the argument, the new value and whether there
    was a token. *)
Definition m_strsep (base max : Z) (s : option string) (val : Z) : M (option string * Z * bool) :=
  match strsep s with
  | None => mret (s, val, false)
  | Some (t, rest) =>
      if is_empty t then mret (rest, val, true)
      else
        v ← token_number t base max;
        mret (rest, v, true)
  end.

Definition m_strsep_u32 : option string -> Z -> M (option string * Z * bool) :=
  m_strsep 0 0xFFffFFff.
Definition m_strsep_u64 : option string -> Z -> M (option string * Z * bool) :=
  m_strsep 16 (2 ^ 64 - 1).

(** [x |= mask] and [x &= ~mask] on 32 bits. *)
Definition set_bits (x mask : Z) : Z := Z.lor x (u32 mask).
Definition clear_bits (x mask : Z) : Z := Z.land x (u32 (Z.lnot mask)).
Definition has_bits (x mask : Z) : bool := truth (Z.land x (u32 mask)).

Definition m_strsep_bit (s : option string) (val mask : Z) : M (option string * Z * bool) :=
  '(s', d, rv) ← m_strsep_u32 s (of_bool (has_bits val mask));
  if 1 <? d then exit 10
  else mret (s', if truth d then set_bits val mask else clear_bits val mask, rv).

(** ** Setting the identifiers *)

(** One step of a [set_gi] function: it consumes a token and changes [md]. *)
Definition setter : Type := option string -> md_cpu -> M (option string * md_cpu * bool).

Definition set_field (p : option string -> Z -> M (option string * Z * bool))
    (get : md_cpu -> Z) (put : Z -> md_cpu -> md_cpu) : setter :=
  fun s md =>
    '(s', v, rv) ← p s (get md);
    mret (s', put v md, rv).

(** The steps in order; the first one without a token ends them. *)
Fixpoint run_setters (l : list setter) (s : option string) (md : md_cpu) : M md_cpu :=
  match l with
  | [] => mret md
  | f :: l' =>
      '(s', md', rv) ← f s md;
      if (rv : bool) then run_setters l' s' md' else mret md'
  end.

Definition gc_u32 (i : Z) : setter := set_field m_strsep_u32 (fun md => arr (gc md) i) (set_gc i).
Definition gc_flag (mask : Z) : setter :=
  set_field (fun s v => m_strsep_bit s v mask) (fun md => arr (gc md) Flags) (set_gc Flags).

Definition m_set_gc `{DrbdHeaders} (arg : string) (md : md_cpu) : M md_cpu :=
  run_setters
    [gc_flag MDF_CONSISTENT; gc_u32 HumanCnt; gc_u32 TimeoutCnt; gc_u32 ConnectedCnt;
     gc_u32 ArbitraryCnt; gc_flag MDF_PRIMARY_IND; gc_flag MDF_CONNECTED_IND;
     gc_flag MDF_FULL_SYNC]
    (Some arg) md.

Definition set_current : setter :=
  set_field m_strsep_u64 current_uuid (fun v md => md <| current_uuid := v |>).
Definition set_bitmap (node : Z) : setter :=
  set_field m_strsep_u64 (fun md => bitmap_uuid (peer_at md node))
    (fun v md => upd_peer node (fun p => p <| bitmap_uuid := v |>) md).
Definition set_history_uuid (i : Z) : setter :=
  set_field m_strsep_u64 (fun md => arr (history_uuids md) i) (set_history i).
Definition set_flag (mask : Z) : setter :=
  set_field (fun s v => m_strsep_bit s v mask) flags (fun v md => md <| flags := v |>).
Definition set_peer_flag (node mask : Z) : setter :=
  set_field (fun s v => m_strsep_bit s v mask) (fun md => peer_flags (peer_at md node))
    (fun v md => upd_peer node (fun p => p <| peer_flags := v |>) md).

Definition m_set_uuid `{DrbdHeaders} (node : Z) (arg : string) (md : md_cpu) : M md_cpu :=
  run_setters
    ([set_current; set_bitmap node; set_history_uuid 0; set_history_uuid 1] ++
     (set_flag <$> [MDF_CONSISTENT; MDF_WAS_UP_TO_DATE; MDF_PRIMARY_IND; MDF_CONNECTED_IND;
                    MDF_FULL_SYNC; MDF_PEER_OUT_DATED; MDF_CRASHED_PRIMARY]))
    (Some arg) md.

Definition v9_flags `{DrbdHeaders} : list Z :=
  [MDF_CONSISTENT; MDF_WAS_UP_TO_DATE; MDF_PRIMARY_IND; MDF_CRASHED_PRIMARY; MDF_AL_CLEAN;
   MDF_AL_DISABLED; MDF_PRIMARY_LOST_QUORUM].
Definition v9_peer_flags `{DrbdHeaders} : list Z :=
  [MDF_PEER_CONNECTED; MDF_PEER_OUTDATED; MDF_PEER_FENCING; MDF_PEER_FULL_SYNC;
   MDF_PEER_DEVICE_SEEN].

Definition m_set_v9_uuid `{DrbdHeaders} (node : Z) (arg : string) (md : md_cpu) : M md_cpu :=
  run_setters
    ([set_current; set_bitmap node; set_history_uuid 0; set_history_uuid 1] ++
     (set_flag <$> v9_flags) ++ (set_peer_flag node <$> v9_peer_flags))
    (Some arg) md.

(** ** Printing the identifiers *)

Definition colon (s : string) : string := String ":"%char s.

(** [%d] of a flag, and of an [uint32_t], which is printed as an [int]. *)
Definition show_flag (b : bool) (tail : string) : string := show_u (of_bool b) tail.
Definition show_int (x : Z) (tail : string) : string := show_d (s32 x) tail.

Fixpoint show_flags (x : Z) (masks : list Z) (tail : string) : string :=
  match masks with
  | [] => tail
  | [m] => show_flag (has_bits x m) tail
  | m :: ms => show_flag (has_bits x m) (colon (show_flags x ms tail))
  end.

Definition dt_print_gc `{DrbdHeaders} (gen_cnt : list Z) : string :=
  show_flag (has_bits (arr gen_cnt Flags) MDF_CONSISTENT) (colon
  (show_int (arr gen_cnt HumanCnt) (colon
  (show_int (arr gen_cnt TimeoutCnt) (colon
  (show_int (arr gen_cnt ConnectedCnt) (colon
  (show_int (arr gen_cnt ArbitraryCnt) (colon
  (show_flags (arr gen_cnt Flags) [MDF_PRIMARY_IND; MDF_CONNECTED_IND; MDF_FULL_SYNC] nl)))))))))).

(** The UUIDs in the order of the array that is printed. *)
Definition show_uuids (md : md_cpu) (node : Z) (tail : string) : string :=
  show_x16 (current_uuid md) (colon
  (show_x16 (bitmap_uuid (peer_at md node)) (colon
  (show_x16 (arr (history_uuids md) 0) (colon
  (show_x16 (arr (history_uuids md) 1) (colon tail))))))).

Definition uuids_line `{DrbdHeaders} (md : md_cpu) (node : Z) (tail : string) : string :=
  show_uuids md node (show_flags (flags md)
    [MDF_CONSISTENT; MDF_WAS_UP_TO_DATE; MDF_PRIMARY_IND; MDF_CONNECTED_IND;
     MDF_FULL_SYNC; MDF_PEER_OUT_DATED; MDF_CRASHED_PRIMARY] tail).

Definition v9_uuids_line `{DrbdHeaders} (md : md_cpu) (node : Z) (tail : string) : string :=
  show_uuids md node (show_flags (flags md) v9_flags (colon
    (show_flags (peer_flags (peer_at md node)) v9_peer_flags tail))).

Definition m_get_gc `{DrbdHeaders} (md : md_cpu) : M unit := printf (dt_print_gc (gc md)).
Definition m_get_uuid `{DrbdHeaders} (md : md_cpu) (node : Z) : M unit :=
  printf (uuids_line md node nl).
Definition m_get_v9_uuid `{DrbdHeaders} (md : md_cpu) (node : Z) : M unit :=
  printf (v9_uuids_line md node nl).

(** ** Outdating and invalidating

    The returned number is the error code; [md] is changed as the code does. *)
Definition m_outdate_gc (md : md_cpu) : Z * md_cpu := (5, md).

Definition m_outdate_uuid `{DrbdHeaders} (md : md_cpu) : Z * md_cpu :=
  if negb (has_bits (flags md) MDF_CONSISTENT) then (5, md)
  else (0, md <| flags := clear_bits (flags md) MDF_WAS_UP_TO_DATE |>).

Definition m_invalidate_gc `{DrbdHeaders} (md : md_cpu) : Z * md_cpu :=
  let md := set_gc Flags (clear_bits (arr (gc md) Flags) MDF_CONSISTENT) md in
  let md := set_gc Flags (set_bits (arr (gc md) Flags) MDF_FULL_SYNC) md in
  (5, md).

Definition m_invalidate_uuid `{DrbdHeaders} (md : md_cpu) : Z * md_cpu :=
  (0, md <| flags := set_bits (clear_bits (clear_bits (flags md) MDF_CONSISTENT) MDF_WAS_UP_TO_DATE)
                       MDF_FULL_SYNC |>).

Definition m_invalidate_v9_uuid `{DrbdHeaders} (md : md_cpu) : Z * md_cpu :=
  let md := md <| flags := clear_bits (clear_bits (flags md) MDF_CONSISTENT) MDF_WAS_UP_TO_DATE |> in
  (0, fold_left (fun md node => upd_peer node (fun p => p <| peer_flags := set_bits (peer_flags p) MDF_PEER_FULL_SYNC |>) md)
        (upto DRBD_NODE_ID_MAX) md).

(** ** The operations of a format (f_ops) *)

Definition get_gi_op `{DrbdHeaders} (f : md_format) (md : md_cpu) (node : Z) : M unit :=
  match f with
  | DRBD_V06 | DRBD_V07 => m_get_gc md
  | DRBD_V08 => m_get_uuid md node
  | _ => m_get_v9_uuid md node
  end.

Definition set_gi_op `{DrbdHeaders} (f : md_format) (node : Z) (arg : string) (md : md_cpu) : M md_cpu :=
  match f with
  | DRBD_V06 | DRBD_V07 => m_set_gc arg md
  | DRBD_V08 => m_set_uuid node arg md
  | _ => m_set_v9_uuid node arg md
  end.

Definition outdate_gi_op `{DrbdHeaders} (f : md_format) (md : md_cpu) : Z * md_cpu :=
  match f with
  | DRBD_V06 | DRBD_V07 => m_outdate_gc md
  | _ => m_outdate_uuid md
  end.

Definition invalidate_gi_op `{DrbdHeaders} (f : md_format) (md : md_cpu) : Z * md_cpu :=
  match f with
  | DRBD_V06 | DRBD_V07 => m_invalidate_gc md
  | DRBD_V08 => m_invalidate_uuid md
  | _ => m_invalidate_v9_uuid md
  end.

(** ** Reading tokens back *)

Lemma bind_run {A B} (m : M A) (k : A -> M B) w a w' :
  m w = (Ok a, w') -> (m ≫= k) w = k a w'.
Proof. apply bind_ok. Qed.

Lemma digit_not_colon d : 0 <= d < 16 -> Ascii.eqb (digit_char d) ":"%char = false.
Proof.
  intros Hd. rewrite <- (Z2Nat.id d) by lia.
  assert (Hn : (Z.to_nat d < 16)%nat) by lia. revert Hn. generalize (Z.to_nat d). clear.
  intros n Hn. do 16 (destruct n as [|n]; [by vm_compute|]). lia.
Qed.

Lemma split_colon_digits k n rest :
  split_colon (fixed_digits 16 k n (colon rest)) = (fixed_digits 16 k n EmptyString, Some rest).
Proof.
  induction k as [|k IH]; [done|]. rewrite !fixed_digits_head by lia. cbn [split_colon].
  rewrite digit_not_colon by (apply Z.mod_pos_bound; lia). by rewrite IH.
Qed.

Lemma m_strsep_u64_token n val rest w :
  in_u64 n -> m_strsep_u64 (Some (show_x16 n (colon rest))) val w = (Ok (Some rest, n, true), w).
Proof.
  intros Hn. unfold m_strsep_u64, m_strsep, strsep, show_x16. rewrite split_colon_digits.
  assert (is_empty (fixed_digits 16 16 n EmptyString) = false) as ->
    by (rewrite fixed_digits_head by lia; done).
  unfold token_number, strto_u64.
  rewrite scan_number_digits, Z.mod_small by (lia || done || solve_int).
  replace (2 ^ 64 <=? n) with false by solve_int. cbn [is_empty negb].
  rewrite u64_id by done. replace (2 ^ 64 - 1 <? n) with false by solve_int. done.
Qed.

(** What setting a flag from its printed form does: copy the bits of [mask]. *)
Definition copy_bits (mask x y : Z) : Z :=
  if has_bits x mask then set_bits y mask else clear_bits y mask.

Lemma m_strsep_bit_token b mask y rest w :
  m_strsep_bit (Some (show_flag b (colon rest))) y mask w =
  (Ok (Some rest, if b then set_bits y mask else clear_bits y mask, true), w).
Proof. by destruct b. Qed.

Lemma m_strsep_bit_last b mask y w :
  m_strsep_bit (Some (show_flag b EmptyString)) y mask w =
  (Ok (None, if b then set_bits y mask else clear_bits y mask, true), w).
Proof. by destruct b. Qed.

Lemma run_set_field p get put l s s' v md w :
  p s (get md) w = (Ok (s', v, true), w) ->
  run_setters (set_field p get put :: l) s md w = run_setters l s' (put v md) w.
Proof.
  intros Hp. cbn [run_setters]. unfold set_field. rewrite bind_bind. by rewrite (bind_ok _ _ _ _ _ Hp).
Qed.

Section flags.
Context (x : Z) (get : md_cpu -> Z) (put : Z -> md_cpu -> md_cpu).
Let setter_of (m : Z) : setter := set_field (fun s v => m_strsep_bit s v m) get put.
Definition copy_flags (masks : list Z) (md : md_cpu) : md_cpu :=
  fold_left (fun md m => put (copy_bits m x (get md)) md) masks md.

Lemma run_flag_setters masks l rest md w :
  masks <> [] ->
  run_setters ((setter_of <$> masks) ++ l) (Some (show_flags x masks (colon rest))) md w =
  run_setters l (Some rest) (copy_flags masks md) w.
Proof.
  revert md. induction masks as [|m masks IH]; intros md Hne; [done|].
  rewrite fmap_cons, <- app_comm_cons. destruct masks as [|m' masks].
  - apply run_set_field. apply m_strsep_bit_token.
  - cbn [show_flags]. unfold setter_of at 1.
    rewrite (run_set_field _ _ _ _ _ _ _ _ _ (m_strsep_bit_token _ _ _ _ _)). by apply IH.
Qed.

Lemma run_flag_setters_last masks md w :
  masks <> [] ->
  run_setters (setter_of <$> masks) (Some (show_flags x masks EmptyString)) md w =
  (Ok (copy_flags masks md), w).
Proof.
  revert md. induction masks as [|m masks IH]; intros md Hne; [done|].
  rewrite fmap_cons. destruct masks as [|m' masks].
  - cbn [show_flags fmap list_fmap]. unfold setter_of.
    by rewrite (run_set_field _ _ _ _ _ _ _ _ _ (m_strsep_bit_last _ _ _ _)).
  - cbn [show_flags]. unfold setter_of at 1.
    rewrite (run_set_field _ _ _ _ _ _ _ _ _ (m_strsep_bit_token _ _ _ _ _)). by apply IH.
Qed.
End flags.

(** [dst] with the generation identifiers of [src]. *)
Definition copy_uuids (node : Z) (src dst : md_cpu) : md_cpu :=
  set_history 1 (arr (history_uuids src) 1) (set_history 0 (arr (history_uuids src) 0)
    (upd_peer node (fun p => p <| bitmap_uuid := bitmap_uuid (peer_at src node) |>)
      (dst <| current_uuid := current_uuid src |>))).

Definition copy_v9_gi `{DrbdHeaders} (node : Z) (src dst : md_cpu) : md_cpu :=
  copy_flags (peer_flags (peer_at src node)) (fun md => peer_flags (peer_at md node))
    (fun v md => upd_peer node (fun p => p <| peer_flags := v |>) md) v9_peer_flags
    (copy_flags (flags src) flags (fun v md => md <| flags := v |>) v9_flags
      (copy_uuids node src dst)).

Lemma run_set_uuids `{DrbdHeaders} node src dst l rest w :
  in_u64 (current_uuid src) -> in_u64 (bitmap_uuid (peer_at src node)) ->
  Forall in_u64 (history_uuids src) ->
  run_setters ([set_current; set_bitmap node; set_history_uuid 0; set_history_uuid 1] ++ l)
    (Some (show_uuids src node rest)) dst w =
  run_setters l (Some rest) (copy_uuids node src dst) w.
Proof.
  intros Hc Hb Hh. unfold show_uuids. cbn [app]. unfold set_current, set_bitmap, set_history_uuid.
  assert (Hn : forall i, in_u64 (arr (history_uuids src) i)) by (intros; by apply arr_range).
  rewrite (run_set_field _ _ _ _ _ _ _ _ _ (m_strsep_u64_token _ _ _ _ Hc)),
    (run_set_field _ _ _ _ _ _ _ _ _ (m_strsep_u64_token _ _ _ _ Hb)),
    (run_set_field _ _ _ _ _ _ _ _ _ (m_strsep_u64_token _ _ _ _ (Hn 0))),
    (run_set_field _ _ _ _ _ _ _ _ _ (m_strsep_u64_token _ _ _ _ (Hn 1))).
  done.
Qed.

(** ** Theorems *)

(** C10: setting the generation identifiers of DRBD 9 from the line [get-gi]
    prints for [src] makes the current, the bitmap and the two youngest history
    UUIDs and all twelve flags those of [src], and changes nothing else. *)
Theorem set_v9_uuid_of_printed `{DrbdHeaders} node src dst w :
  in_u64 (current_uuid src) -> in_u64 (bitmap_uuid (peer_at src node)) ->
  Forall in_u64 (history_uuids src) ->
  m_set_v9_uuid node (v9_uuids_line src node EmptyString) dst w =
  (Ok (copy_v9_gi node src dst), w).
Proof.
  intros Hc Hb Hh. unfold m_set_v9_uuid, v9_uuids_line.
  rewrite run_set_uuids by done. unfold set_flag, set_peer_flag, copy_v9_gi.
  rewrite run_flag_setters by done. by apply run_flag_setters_last.
Qed.

Lemma set_v9_uuid_of_printed_witness :
  let src := mk_md_cpu [0; 0; 0; 0; 0] 1 0 0 0 0 0 (2 ^ 64 - 2) [7; 9] 0x51 0 0 0 3 1
               [zero_peer; mk_peer_md_cpu 0xABCDEF 0 5 0] 1 8 0 in
  let dst := mk_md_cpu [0; 0; 0; 0; 0] 1 0 0 0 0 0 4 [0; 0] 0x18 0 0 0 3 1
               [zero_peer; mk_peer_md_cpu 1 2 (2 ^ 31 + 2) 4] 1 8 0 in
  m_set_v9_uuid 1 (v9_uuids_line src 1 EmptyString) dst (blank_world DRBD_V09 set_gi zero_mem 0) =
  (Ok (copy_v9_gi 1 src dst), blank_world DRBD_V09 set_gi zero_mem 0) /\
  peers (copy_v9_gi 1 src dst) = [zero_peer; mk_peer_md_cpu 0xABCDEF 2 (2 ^ 31 + 5) 4].
Proof.
  intros src dst. split; [|by vm_compute].
  apply set_v9_uuid_of_printed; [done | done | by repeat constructor].
Defined.
