(* ===== verification/ActivityLog.v ===== *)
(** * Replaying the activity log

    Reconstructs the set of hot extents from the transactions in the on-disk
    ring: [replay_al_07], [replay_al_84], [replay_al_pmem] and their helpers.
    The activity log has been read into [on_disk_buffer].  The array
    [hot_extent] is a function from slot numbers; a slot that was not written
    holds [~0U]. *)

From S2P Require Import Prelude Machine Crc Headers MetaData OnDisk Layout.
From Stdlib Require Import Sorting.Sorted.

Definition AL_EXTENTS_MAX : Z := 65534.
Definition AL_EXTENTS_PT : Z := 61.

(** [~0U] *)
Definition UNUSED : Z := 2 ^ 32 - 1.

Definition hot_array : Type := Z -> Z.
Definition no_hot : hot_array := fun _ => UNUSED.
Definition set_hot (slot extent : Z) (hot : hot_array) : hot_array :=
  fun i => if i =? slot then extent else hot i.

(** ** Finding the oldest and the newest transaction *)

Record al_cursor := mk_al_cursor { cur_i : Z; cur_tr_number : Z }.

Record al_scan_state := mk_al_scan {
  scan_found : Z;
  scan_oldest : al_cursor;
  scan_newest : al_cursor
}.

Definition al_scan_init : al_scan_state := mk_al_scan 0 (mk_al_cursor 0 0) (mk_al_cursor 0 0).

(** A usable transaction number [tr] found at ring position [b].  The signed
    difference decides: transaction numbers wrap around. *)
Definition al_scan_step (b tr : Z) (st : al_scan_state) : al_scan_state :=
  let here := mk_al_cursor b tr in
  if scan_found st =? 0 then mk_al_scan 1 here here
  else
    mk_al_scan (scan_found st + 1)
      (if s32 (tr - cur_tr_number (scan_oldest st)) <? 0 then here else scan_oldest st)
      (if 0 <? s32 (tr - cur_tr_number (scan_newest st)) then here else scan_newest st).

Definition al_scan (usable : Z -> bool) (tr : Z -> Z) (mx : Z) : al_scan_state :=
  fold_left (fun st b => if usable b then al_scan_step b (tr b) st else st) (upto mx) al_scan_init.

(** The ring positions from the oldest to the newest, wrapping around. *)
Definition al_visit (st : al_scan_state) (mx : Z) : list Z :=
  let newest :=
    if cur_i (scan_newest st) <? cur_i (scan_oldest st)
    then cur_i (scan_newest st) + mx else cur_i (scan_newest st) in
  (fun b => b mod mx) <$> seqZ (cur_i (scan_oldest st)) (newest - cur_i (scan_oldest st) + 1).

(** ** The log of 0.7 and 8.3 *)

(** One sector: context and update in one loop that counts down, the update
    being on index 0. *)
Definition replay_sector_07 (hot : hot_array) (al : al_sector_cpu) : hot_array :=
  fold_left (fun hot (u : Z * Z) =>
      if u.2 =? UNUSED then hot
      else if AL_EXTENTS_MAX <=? u.1 then hot
      else set_hot u.1 u.2 hot)
    (rev (al07_updates al)) hot.

Definition al_07_mx (md : md_cpu) : Z :=
  u32 (1 + u32 (u32 (al_nr_extents md + AL_EXTENTS_PT) - 1) / AL_EXTENTS_PT).

(** Sector [b] of the buffer. *)
Definition al_07_sector `{DrbdHeaders} (buf : mem) (b : Z) : al_sector_cpu * bool :=
  v07_al_disk_to_cpu buf (512 * b).

(** The code has room for 64 sectors; with more it writes outside of its arrays. *)
Definition replay_al_07 `{DrbdHeaders} (hot : hot_array) : M (Z * hot_array) :=
  c ← cfg;
  buf ← gets w_buf;
  let mx := al_07_mx (cfg_md c) in
  if MD_AL_MAX_SECT_07 <? mx then fault
  else
    let valid b := (al_07_sector buf b).2 in
    let tr b := al07_tr_number (al_07_sector buf b).1 in
    let st := al_scan valid tr mx in
    if scan_found st =? 0 then mret (0, hot)
    else
      mret (scan_found st,
        fold_left (fun hot idx =>
            if valid idx then replay_sector_07 hot (al_07_sector buf idx).1 else hot)
          (al_visit st mx) hot).

(** ** The log of 8.4 and 9 *)

(** Where block [b] of the ring is on disk: consecutive transactions go to
    different stripes. *)
Definition al_tr_number_to_on_disk_slot (md : md_cpu) (b mx : Z) : Z :=
  let stripes := al_stripes md in
  let stripe_size_4kB := al_stripe_size_4k md in
  let t := b mod mx in
  u32 (u32 (t mod stripes * stripe_size_4kB) + t / stripes).

(** Converts the blocks in ring order; the checksum of each is cleared in the
    buffer on the way. *)
Fixpoint al_84_blocks `{DrbdHeaders} (md : md_cpu) (mx : Z) (bs : list Z) (buf : mem) :
    list al_4k_cpu * mem :=
  match bs with
  | [] => ([], buf)
  | b :: bs' =>
      let o := al_tr_number_to_on_disk_slot md b mx in
      let al := v84_al_disk_to_cpu buf (4096 * o) in
      let '(l, buf') := al_84_blocks md mx bs' (al_clear_crc buf (4096 * o)) in
      (al :: l, buf')
  end.

(** Valid, and not just initialized: a transaction to replay. *)
Definition al_84_usable `{DrbdHeaders} (al : al_4k_cpu) : bool :=
  al84_is_valid al && negb (al84_transaction_type al =? AL_TR_INITIALIZED).

Definition replay_context_84 `{DrbdHeaders} (hot : hot_array) (al : al_4k_cpu) : hot_array :=
  fold_left (fun hot i =>
      let slot := al84_context_start_slot_nr al + i in
      let extent := arr (al84_context al) i in
      if (extent =? UNUSED) && (al84_context_size al <=? slot) then hot
      else if AL_EXTENTS_MAX <=? slot then hot
      else set_hot slot extent hot)
    (upto AL_CONTEXT_PER_TRANSACTION) hot.

Definition replay_updates_84 `{DrbdHeaders} (hot : hot_array) (al : al_4k_cpu) : hot_array :=
  fold_left (fun hot i =>
      let slot := arr (al84_update_slot_nr al) i in
      if (al84_n_updates al <=? i) && (slot =? 2 ^ 16 - 1) then hot
      else if AL_EXTENTS_MAX <=? slot then hot
      else set_hot slot (arr (al84_update_extent_nr al) i) hot)
    (upto AL_UPDATES_PER_TRANSACTION) hot.

Definition replay_block_84 `{DrbdHeaders} (hot : hot_array) (al : al_4k_cpu) : hot_array :=
  replay_updates_84 (replay_context_84 hot al) al.

Definition al_block_default : al_4k_cpu := mk_al_4k_cpu 0 0 0 0 0 0 0 [] [] [] false.
Definition block_at (l : list al_4k_cpu) (b : Z) : al_4k_cpu := default al_block_default (zlookup l b).

(** A negative number for data that cannot be interpreted, 0 for a clean log,
    positive if there is something to apply. *)
Definition replay_al_84 `{DrbdHeaders} (hot : hot_array) : M (Z * hot_array) :=
  c ← cfg;
  buf ← gets w_buf;
  let md := cfg_md c in
  let mx := u32 (al_stripes md * al_stripe_size_4k md) in
  if buffer_size <? mx * 4096 then fault
  else
    let '(al_cpu, buf') := al_84_blocks md mx (upto mx) buf in
    upd_buf (fun _ => buf');;
    let found_valid := Z.of_nat (length (filter (fun al => al84_is_valid al = true) al_cpu)) in
    let st := al_scan (fun b => al_84_usable (block_at al_cpu b))
                      (fun b => al84_tr_number (block_at al_cpu b)) mx in
    if found_valid =? 0 then mret (- ENODATA, hot)
    else if scan_found st =? 0 then
      if found_valid =? mx then mret (0, hot)
      else if negb (al84_is_valid (block_at al_cpu 0)) && (found_valid =? mx - 1) then mret (0, hot)
      else mret (- EINVAL, hot)
    else
      mret (scan_found st,
        fold_left (fun hot idx =>
            if al_84_usable (block_at al_cpu idx) then replay_block_84 hot (block_at al_cpu idx)
            else hot)
          (al_visit st mx) hot).

(** ** The log on persistent memory *)

(** The array has room for AL_EXTENTS_MAX slots, and the buffer for fewer than
    its size divided by four. *)
Definition replay_al_pmem `{DrbdHeaders} (hot : hot_array) : M (Z * hot_array) :=
  c ← cfg;
  buf ← gets w_buf;
  let nr_extents := al_nr_extents (cfg_md c) in
  if AL_EXTENTS_MAX <? nr_extents then fault
  else
    mret (1, fold_left (fun hot i => set_hot i (be32_at buf (pmem_slots + 4 * i)) hot)
               (upto nr_extents) hot).

(** ** Ordering the extents *)

(** [cmp_u32], the comparison for [qsort]. *)
Definition cmp_u32 (a b : Z) : Z := if a <? b then -1 else if a =? b then 0 else 1.

Fixpoint insert_u32 (x : Z) (l : list Z) : list Z :=
  match l with
  | [] => [x]
  | y :: l' => if cmp_u32 x y <=? 0 then x :: l else y :: insert_u32 x l'
  end.

(** The array after [qsort]; the C library does not say which algorithm. *)
Definition qsort_u32 (l : list Z) : list Z := foldr insert_u32 [] l.

(** ** Stripes *)

(** The slot of a ring position, and back. *)
Definition slot_of (stripes size b : Z) : Z := b mod stripes * size + b / stripes.
Definition block_of (stripes size o : Z) : Z := o mod size * stripes + o / size.

Lemma slot_of_range s z b : 0 < s -> 0 < z -> 0 <= b < s * z -> 0 <= slot_of s z b < s * z.
Proof.
  intros Hs Hz Hb. unfold slot_of. pose proof (Z.mod_pos_bound b s).
  assert (0 <= b / s < z) by (split; [apply Z.div_pos; lia | apply Z.div_lt_upper_bound; lia]).
  assert (b mod s * z <= (s - 1) * z) by (apply Z.mul_le_mono_nonneg_r; lia). nia.
Qed.

Lemma block_of_slot s z b : 0 < s -> 0 < z -> 0 <= b < s * z -> block_of s z (slot_of s z b) = b.
Proof.
  intros Hs Hz Hb. unfold block_of, slot_of.
  assert (0 <= b / s < z) by (split; [apply Z.div_pos; lia | apply Z.div_lt_upper_bound; lia]).
  rewrite (Z.add_comm (_ * z)), Z.mod_add, Z.div_add by lia.
  rewrite (Z.mod_small (b / s)), (Z.div_small (b / s)) by lia.
  pose proof (Z.div_mod b s). lia.
Qed.

(** The array size of the code: the number of blocks of the ring. *)
Definition ring_ok (md : md_cpu) : Prop :=
  0 < al_stripes md /\ 0 < al_stripe_size_4k md /\ al_blocks md <= 8192.

Lemma al_slot_eq md b :
  ring_ok md -> 0 <= b < al_blocks md ->
  al_tr_number_to_on_disk_slot md b (al_blocks md) = slot_of (al_stripes md) (al_stripe_size_4k md) b.
Proof.
  intros (Hs & Hz & Hmax) Hb. unfold al_blocks in *. unfold al_tr_number_to_on_disk_slot.
  rewrite (Z.mod_small b) by lia. pose proof (slot_of_range _ _ b Hs Hz Hb) as Hr.
  unfold slot_of in *. pose proof (Z.mod_pos_bound b (al_stripes md)).
  assert (0 <= b / al_stripes md) by (apply Z.div_pos; lia).
  assert (0 <= b mod al_stripes md * al_stripe_size_4k md) by (apply Z.mul_nonneg_nonneg; lia).
  rewrite (u32_id (b mod al_stripes md * al_stripe_size_4k md)), u32_id by (unfold in_u32; lia).
  done.
Qed.

(** ** The ring

    The usable transactions carry consecutive numbers in ring order, starting at
    position [p] with the number [t0], with gaps where a block is unusable; the
    numbers may wrap around at 2^32. *)
Section ring.
Context (mx p t0 : Z) (usable : Z -> bool) (tr : Z -> Z).
Let pos (b : Z) : Z := (b - p) mod mx.

Definition ring_order : Prop :=
  0 < mx <= 2 ^ 31 /\ 0 <= p < mx /\
  forall b, 0 <= b < mx -> usable b = true -> tr b = u32 (t0 + (b - p) mod mx).

Context (Hring : ring_order).

Lemma pos_range b : 0 <= pos b < mx.
Proof. apply Z.mod_pos_bound. destruct Hring. lia. Qed.

(** The signed difference of two numbers of the ring is that of the positions. *)
Lemma tr_diff b1 b2 :
  0 <= b1 < mx -> 0 <= b2 < mx -> usable b1 = true -> usable b2 = true ->
  s32 (tr b1 - tr b2) = pos b1 - pos b2.
Proof.
  intros H1 H2 Hu1 Hu2. destruct Hring as (Hmx & Hp & Htr). rewrite !Htr by done.
  fold (pos b1) (pos b2). pose proof (pos_range b1). pose proof (pos_range b2).
  rewrite <- s32_u32. unfold u32. rewrite <- Zminus_mod.
  change (s32 (u32 (t0 + pos b1 - (t0 + pos b2))) = pos b1 - pos b2).
  rewrite s32_u32. replace (t0 + pos b1 - (t0 + pos b2)) with (pos b1 - pos b2) by lia.
  apply s32_id. solve_int.
Qed.

(** After the first [n] positions of the buffer. *)
Definition scanned (n : Z) (st : al_scan_state) : Prop :=
  (scan_found st = 0 /\ forall b, 0 <= b < n -> usable b = false) \/
  (0 < scan_found st /\ exists bo bn,
    scan_oldest st = mk_al_cursor bo (tr bo) /\ 0 <= bo < n /\ usable bo = true /\
    scan_newest st = mk_al_cursor bn (tr bn) /\ 0 <= bn < n /\ usable bn = true /\
    forall b, 0 <= b < n -> usable b = true -> pos bo <= pos b <= pos bn).

Lemma al_scan_scanned n :
  0 <= n <= mx ->
  scanned n (fold_left (fun st b => if usable b then al_scan_step b (tr b) st else st)
               (upto n) al_scan_init).
Proof.
  intros [Hn Hmx]. rewrite <- (Z2Nat.id n) in Hmx |- * by done.
  generalize dependent (Z.to_nat n). clear n Hn. intros k. induction k as [|k IH]; intros Hk.
  { left. split; [done|]. intros. lia. }
  rewrite Nat2Z.inj_succ, <- Z.add_1_r, upto_S, fold_left_app by lia.
  specialize (IH ltac:(lia)). set (st := fold_left _ _ _) in *. clearbody st.
  cbn [fold_left]. destruct (usable (Z.of_nat k)) eqn:Hu.
  - right. unfold al_scan_step. destruct IH as [[H0 Hno]|(Hpos & bo & bn & Ho & Hbo & Huo & Hn & Hbn & Hun & Hall)].
    + rewrite H0. split; [done|]. exists (Z.of_nat k), (Z.of_nat k). cbn.
      do 6 (split; [done || lia|]). intros b Hb Hub.
      destruct (Z.eq_dec b (Z.of_nat k)) as [->|]; [lia|].
      rewrite Hno in Hub by lia. done.
    + destruct (Z.eqb_spec (scan_found st) 0); [lia|]. split; [cbn; lia|]. rewrite Ho, Hn. cbn.
      rewrite (tr_diff (Z.of_nat k) bo), (tr_diff (Z.of_nat k) bn) by (done || lia).
      exists (if pos (Z.of_nat k) - pos bo <? 0 then Z.of_nat k else bo),
             (if 0 <? pos (Z.of_nat k) - pos bn then Z.of_nat k else bn).
      destruct (Z.ltb_spec (pos (Z.of_nat k) - pos bo) 0), (Z.ltb_spec 0 (pos (Z.of_nat k) - pos bn));
        do 6 (split; [done || lia|]); intros b Hb Hub;
        (destruct (Z.eq_dec b (Z.of_nat k)) as [->|]; [lia|]); specialize (Hall b ltac:(lia) Hub); lia.
  - destruct IH as [[H0 Hno]|(Hpos & bo & bn & Ho & Hbo & Huo & Hn & Hbn & Hun & Hall)].
    + left. split; [done|]. intros b Hb. destruct (Z.eq_dec b (Z.of_nat k)) as [->|]; [done|].
      apply Hno. lia.
    + right. split; [done|]. exists bo, bn. do 6 (split; [done || lia|]).
      intros b Hb Hub. destruct (Z.eq_dec b (Z.of_nat k)) as [->|]; [congruence|].
      apply Hall; [lia | done].
Qed.

Lemma pos_cases b : 0 <= b < mx -> b = p + pos b \/ b = p + pos b - mx.
Proof.
  intros Hb. destruct Hring as (Hmx & Hp & _). unfold pos.
  destruct (Z.le_gt_cases p b).
  - left. rewrite Z.mod_small; lia.
  - right. replace (b - p) with (b - p + mx + (-1) * mx) by lia.
    rewrite Z.mod_add, Z.mod_small by lia. lia.
Qed.

(** The positions visited are consecutive in the order of the transactions. *)
Lemma al_visit_eq st bo bn :
  scan_oldest st = mk_al_cursor bo (tr bo) -> scan_newest st = mk_al_cursor bn (tr bn) ->
  0 <= bo < mx -> 0 <= bn < mx -> pos bo <= pos bn ->
  al_visit st mx = (fun j => (p + j) mod mx) <$> seqZ (pos bo) (pos bn - pos bo + 1).
Proof.
  intros Ho Hn Hbo Hbn Hle. unfold al_visit. rewrite Ho, Hn. cbn [cur_i].
  pose proof (pos_range bo). pose proof (pos_range bn).
  destruct Hring as (Hmx & Hp & _).
  assert (Hlen : (if bn <? bo then bn + mx else bn) - bo + 1 = pos bn - pos bo + 1).
  { destruct (pos_cases bo Hbo), (pos_cases bn Hbn), (Z.ltb_spec bn bo); lia. }
  rewrite Hlen. apply list_eq. intros i. rewrite !list_lookup_fmap.
  destruct (decide (Z.of_nat i < pos bn - pos bo + 1)).
  - rewrite !lookup_seqZ_lt by lia. cbn. f_equal.
    destruct (pos_cases bo Hbo) as [Heq|Heq]; [f_equal; lia|].
    replace (bo + Z.of_nat i) with (p + (pos bo + Z.of_nat i) + (-1) * mx) by lia.
    apply Z.mod_add. lia.
  - by rewrite !lookup_seqZ_ge by lia.
Qed.

Lemma pos_of_chron j : 0 <= j < mx -> 0 <= (p + j) mod mx < mx /\ pos ((p + j) mod mx) = j.
Proof.
  intros Hj. destruct Hring as (Hmx & Hp & _). split; [apply Z.mod_pos_bound; lia|].
  unfold pos. rewrite Zminus_mod_idemp_l. replace (p + j - p) with j by lia. by apply Z.mod_small.
Qed.

(** Folding over the visited positions is folding over all of the ring in the
    order of the transactions: the unusable blocks contribute nothing. *)
Lemma fold_visit {A} (f : A -> Z -> A) (a : A) :
  let st := al_scan usable tr mx in
  scan_found st <> 0 ->
  fold_left (fun x idx => if usable idx then f x idx else x) (al_visit st mx) a =
  fold_left (fun x j => if usable ((p + j) mod mx) then f x ((p + j) mod mx) else x) (upto mx) a.
Proof.
  intros st Hf. destruct Hring as (Hmx & Hp & _).
  destruct (al_scan_scanned mx ltac:(lia)) as [[H0 _]|(Hpos & bo & bn & Ho & Hbo & Huo & Hn & Hbn & Hun & Hall)].
  { by fold (al_scan usable tr mx) in H0. }
  fold (al_scan usable tr mx) in Ho, Hn. fold st in Ho, Hn.
  rewrite (al_visit_eq st bo bn) by (done || by apply Hall).
  pose proof (pos_range bo). pose proof (pos_range bn). specialize (Hall bo Hbo Huo) as Hle.
  assert (Hskip : forall lo n x, 0 <= lo -> lo + n <= mx -> 0 <= n ->
    (forall j, lo <= j < lo + n -> usable ((p + j) mod mx) = false) ->
    fold_left (fun x j => if usable ((p + j) mod mx) then f x ((p + j) mod mx) else x) (seqZ lo n) x = x).
  { intros lo n x Hlo Hn' Hn0 Hun'.
    assert (Hin : forall j, j ∈ seqZ lo n -> usable ((p + j) mod mx) = false).
    { intros j Hj. apply elem_of_seqZ in Hj. apply Hun'. lia. }
    revert x Hin. generalize (seqZ lo n). intros l x Hin. induction l as [|j l IH]; [done|].
    cbn. rewrite Hin by (apply elem_of_cons; by left). apply IH. intros k Hk. apply Hin, elem_of_cons. by right. }
  assert (Hout : forall j, 0 <= j < mx -> j < pos bo \/ pos bn < j -> usable ((p + j) mod mx) = false).
  { intros j Hj Hd. destruct (pos_of_chron j Hj) as [Hr Hpj]. apply not_true_iff_false. intros Hu.
    specialize (Hall _ Hr Hu). lia. }
  assert (Hup : upto mx = seqZ 0 (pos bo) ++ seqZ (pos bo) (pos bn - pos bo + 1) ++
                          seqZ (pos bn + 1) (mx - pos bn - 1)).
  { unfold upto. transitivity (seqZ 0 (pos bo + ((pos bn - pos bo + 1) + (mx - pos bn - 1))));
      [f_equal; lia|]. rewrite !seqZ_app by lia. do 3 f_equal; lia. }
  rewrite Hup, !fold_left_app.
  rewrite (Hskip 0), (Hskip (pos bn + 1)) by (lia || (intros; apply Hout; lia)).
  generalize (seqZ (pos bo) (pos bn - pos bo + 1)) as l. intros l. clear. revert a.
  induction l as [|j l IH]; intros a; [done|]. cbn. apply IH.
Qed.

Lemma scan_found_some : (exists b, 0 <= b < mx /\ usable b = true) -> 0 < scan_found (al_scan usable tr mx).
Proof.
  intros (b & Hb & Hu). destruct Hring as (Hmx & _).
  destruct (al_scan_scanned mx ltac:(lia)) as [[_ Hno]|[Hpos _]]; [|done].
  by rewrite Hno in Hu.
Qed.
End ring.

(** For a concrete ring. *)
Lemma ring_order_upto n mx p t0 usable tr :
  mx = n -> 0 < n <= 2 ^ 31 -> 0 <= p < n ->
  Forall (fun b => usable b = true -> tr b = u32 (t0 + (b - p) mod n)) (upto n) ->
  ring_order mx p t0 usable tr.
Proof.
  intros -> Hn Hp Hall. split; [done|]. split; [done|]. intros b Hb.
  rewrite Forall_forall in Hall. by apply Hall, elem_upto.
Qed.

(** ** The blocks of the ring *)

Lemma in_fmap_upto {A} (f : Z -> A) n i : 0 <= i < n -> f i ∈ f <$> upto n.
Proof. intros Hi. apply list_elem_of_fmap. exists i. split; [done | by apply elem_upto]. Qed.

(** The conversion of a block reads nothing else. *)
Lemma v84_ext `{DrbdHeadersOk} b1 b2 a :
  (forall i, a <= i < a + 4096 -> b1 i = b2 i) -> v84_al_disk_to_cpu b1 a = v84_al_disk_to_cpu b2 a.
Proof.
  intros Hext.
  assert (Hf : forall f : field, f ∈ al_fields -> load_le f.2 b1 (a + f.1) = load_le f.2 b2 (a + f.1)).
  { intros f Hin. destruct (layout_ok_in _ _ _ al_layout Hin). apply load_le_ext. intros i Hi. apply Hext. lia. }
  assert (H2 : forall o, (o, 2%nat) ∈ al_fields -> be16_at b1 (a + o) = be16_at b2 (a + o))
    by (intros o Hin; exact (f_equal be16_to_cpu (Hf _ Hin))).
  assert (H4 : forall o, (o, 4%nat) ∈ al_fields -> be32_at b1 (a + o) = be32_at b2 (a + o))
    by (intros o Hin; exact (f_equal be32_to_cpu (Hf _ Hin))).
  assert (Hcrc : al_block_crc b1 a = al_block_crc b2 a).
  { apply (f_equal (crc32c 0)), buffer_ext. intros i Hi. apply al_clear_crc_ext. intros _. by apply Hext. }
  unfold v84_al_disk_to_cpu. rewrite Hcrc.
  rewrite (fmap_upto_ext (fun i => be16_at b1 (a + (al_update_slot_nr + 2 * i)))
             (fun i => be16_at b2 (a + (al_update_slot_nr + 2 * i)))).
  2: { intros i Hi. apply H2. apply elem_of_app. right. apply elem_of_app. left.
       by apply (in_fmap_upto (fun i => (al_update_slot_nr + 2 * i, 2%nat))). }
  rewrite (fmap_upto_ext (fun i => be32_at b1 (a + (al_update_extent_nr + 4 * i)))
             (fun i => be32_at b2 (a + (al_update_extent_nr + 4 * i)))).
  2: { intros i Hi. apply H4. apply elem_of_app. right. apply elem_of_app. right. apply elem_of_app. left.
       by apply (in_fmap_upto (fun i => (al_update_extent_nr + 4 * i, 4%nat))). }
  rewrite (fmap_upto_ext (fun i => be32_at b1 (a + (al_context + 4 * i)))
             (fun i => be32_at b2 (a + (al_context + 4 * i)))).
  2: { intros i Hi. apply H4. do 3 (apply elem_of_app; right).
       by apply (in_fmap_upto (fun i => (al_context + 4 * i, 4%nat))). }
  rewrite (H2 al_transaction_type) by (do 3 (apply elem_of_cons; right); apply elem_of_cons; by left).
  rewrite (H2 al_n_updates) by (do 4 (apply elem_of_cons; right); apply elem_of_cons; by left).
  rewrite (H2 al_context_size) by (do 5 (apply elem_of_cons; right); apply elem_of_cons; by left).
  rewrite (H2 al_context_start_slot_nr) by (do 6 (apply elem_of_cons; right); apply elem_of_cons; by left).
  rewrite (H4 al_magic) by (apply elem_of_cons; by left).
  rewrite (H4 al_tr_number) by (do 1 (apply elem_of_cons; right); apply elem_of_cons; by left).
  rewrite (H4 al_crc32c) by (do 2 (apply elem_of_cons; right); apply elem_of_cons; by left).
  reflexivity.
Qed.

Lemma al_84_blocks_ext `{DrbdHeadersOk} md mx bs b1 b2 :
  (forall b i, b ∈ bs -> let a := 4096 * al_tr_number_to_on_disk_slot md b mx in
     a <= i < a + 4096 -> b1 i = b2 i) ->
  (al_84_blocks md mx bs b1).1 = (al_84_blocks md mx bs b2).1.
Proof.
  revert b1 b2. induction bs as [|b bs IH]; intros b1 b2 Hext; [done|]. cbn [al_84_blocks].
  set (o := al_tr_number_to_on_disk_slot md b mx).
  specialize (IH (al_clear_crc b1 (4096 * o)) (al_clear_crc b2 (4096 * o))).
  destruct (al_84_blocks md mx bs (al_clear_crc b1 _)), (al_84_blocks md mx bs (al_clear_crc b2 _)).
  cbn [fst] in *. apply (f_equal2 cons).
  - apply v84_ext. intros i Hi. apply (Hext b); [|done]. apply elem_of_cons. by left.
  - apply IH. intros b' i Hb' Hi. apply al_clear_crc_ext. intros _.
    apply (Hext b'); [|done]. apply elem_of_cons. by right.
Qed.

Lemma al_84_blocks_eq `{DrbdHeadersOk} md mx bs buf :
  NoDup ((fun b => al_tr_number_to_on_disk_slot md b mx) <$> bs) ->
  (al_84_blocks md mx bs buf).1 =
  (fun b => v84_al_disk_to_cpu buf (4096 * al_tr_number_to_on_disk_slot md b mx)) <$> bs.
Proof.
  revert buf. induction bs as [|b bs IH]; intros buf Hnd; [done|]. cbn [al_84_blocks].
  set (o := al_tr_number_to_on_disk_slot md b mx).
  rewrite fmap_cons in Hnd. apply NoDup_cons in Hnd as [Hni Hnd]. pose proof al_crc_range as [? ?].
  assert (Hc : (al_84_blocks md mx bs (al_clear_crc buf (4096 * o))).1 = (al_84_blocks md mx bs buf).1).
  { apply al_84_blocks_ext. intros b' i Hb' a Hi. apply al_clear_crc_other.
    assert (al_tr_number_to_on_disk_slot md b' mx <> o).
    { intros Heq. apply Hni. fold o. rewrite <- Heq. by apply (list_elem_of_fmap_2 (fun b => al_tr_number_to_on_disk_slot md b mx)). }
    lia. }
  destruct (al_84_blocks md mx bs (al_clear_crc buf (4096 * o))) as [l buf'] eqn:E.
  cbn [fst] in *. rewrite fmap_cons. apply (f_equal2 cons); [reflexivity|]. rewrite Hc. by apply IH.
Qed.

Lemma al_slots_nodup md :
  ring_ok md ->
  NoDup ((fun b => al_tr_number_to_on_disk_slot md b (al_blocks md)) <$> upto (al_blocks md)).
Proof.
  intros Hr. pose proof Hr as (Hs & Hz & Hmax). apply NoDup_fmap_2_strong.
  - intros b1 b2 H1 H2 Heq. apply elem_upto in H1, H2. rewrite !al_slot_eq in Heq by done.
    unfold al_blocks in *.
    rewrite <- (block_of_slot _ _ b1 Hs Hz H1), <- (block_of_slot _ _ b2 Hs Hz H2). by rewrite Heq.
  - apply NoDup_seqZ.
Qed.

(** Block [b] of the ring, as it is in the buffer. *)
Definition ring_block `{DrbdHeaders} (md : md_cpu) (buf : mem) (b : Z) : al_4k_cpu :=
  v84_al_disk_to_cpu buf (4096 * slot_of (al_stripes md) (al_stripe_size_4k md) b).

Lemma block_at_ring `{DrbdHeadersOk} md buf b :
  ring_ok md -> 0 <= b < al_blocks md ->
  block_at (al_84_blocks md (al_blocks md) (upto (al_blocks md)) buf).1 b = ring_block md buf b.
Proof.
  intros Hr Hb. rewrite al_84_blocks_eq by by apply al_slots_nodup.
  unfold block_at, zlookup. destruct (Z.ltb_spec b 0); [lia|].
  rewrite list_lookup_fmap, lookup_upto by lia. cbn. rewrite Z2Nat.id by lia.
  by rewrite al_slot_eq.
Qed.

(** ** Theorems *)

(** transaction numbers are spread over the stripes one to one: every ring
    position has its own block on disk, and every block is used. *)
Theorem al_slot_bijective md b o :
  ring_ok md -> 0 <= b < al_blocks md -> 0 <= o < al_blocks md ->
  let slot b := al_tr_number_to_on_disk_slot md b (al_blocks md) in
  0 <= slot b < al_blocks md /\
  (slot b = o <-> b = block_of (al_stripes md) (al_stripe_size_4k md) o).
Proof.
  intros Hr Hb Ho slot. pose proof Hr as (Hs & Hz & Hmax). unfold slot, al_blocks in *.
  fold (al_blocks md). rewrite al_slot_eq by done.
  pose proof (slot_of_range _ _ b Hs Hz Hb) as Hrange. split; [done|]. split.
  - intros <-. by rewrite block_of_slot.
  - intros ->. rewrite (Z.mul_comm (al_stripes md)) in Ho.
    exact (block_of_slot (al_stripe_size_4k md) (al_stripes md) o Hz Hs Ho).
Qed.

Lemma al_slot_bijective_witness :
  let md := mk_md_cpu [0; 0; 0; 0; 0] 1 0 0 0 0 0 0 [] 0 0 0 0 1 0 [] 3 4 0 in
  al_tr_number_to_on_disk_slot md 7 12 = 6 /\
  (0 <= al_tr_number_to_on_disk_slot md 7 12 < 12 /\
   (al_tr_number_to_on_disk_slot md 7 12 = 5 <-> 7 = block_of 3 4 5)).
Proof.
  intros md. split; [reflexivity|].
  exact (al_slot_bijective md 7 5 ltac:(repeat split; done) ltac:(done) ltac:(done)).
Defined.

Lemma fold_left_ext_in {A B} (f g : A -> B -> A) l a :
  (forall x b, b ∈ l -> f x b = g x b) -> fold_left f l a = fold_left g l a.
Proof.
  revert a. induction l as [|b l IH]; intros a Hfg; [done|]. cbn.
  rewrite Hfg by (apply elem_of_cons; by left). apply IH. intros x c Hc. apply Hfg, elem_of_cons. by right.
Qed.

Lemma block_at_in l b : al84_is_valid (block_at l b) = true -> block_at l b ∈ l.
Proof.
  unfold block_at, zlookup. destruct (b <? 0); [done|].
  destruct (l !! Z.to_nat b) eqn:E; [|done]. intros _. by eapply list_elem_of_lookup_2.
Qed.

Lemma valid_count l b :
  al84_is_valid (block_at l b) = true ->
  Z.of_nat (length (filter (fun al => al84_is_valid al = true) l)) <> 0.
Proof.
  intros Hv. assert (block_at l b ∈ filter (fun al => al84_is_valid al = true) l) as Hin.
  { apply list_elem_of_filter. split; [done | by apply block_at_in]. }
  destruct (filter _ l); [by apply elem_of_nil in Hin | done].
Qed.

(** One transaction of the log in the order of the transactions. *)
Definition replay_ring `{DrbdHeaders} (md : md_cpu) (buf : mem) (p : Z) (hot : hot_array) (j : Z) : hot_array :=
  let al := ring_block md buf ((p + j) mod al_blocks md) in
  if al_84_usable al then replay_block_84 hot al else hot.

(** C2: when the usable transactions of the ring carry consecutive numbers
    (possibly wrapping around at 2^32, possibly with corrupt or unused blocks in
    between), wherever in the ring the log starts and however it is striped,
    [replay_al_84] applies exactly the usable transactions, from the oldest to the
    newest. *)
Theorem replay_al_84_chronological `{DrbdHeadersOk} w hot p t0 :
  let md := cfg_md (w_cfg w) in
  let block := ring_block md (w_buf w) in
  ring_ok md ->
  ring_order (al_blocks md) p t0 (fun b => al_84_usable (block b)) (fun b => al84_tr_number (block b)) ->
  (exists b, 0 <= b < al_blocks md /\ al_84_usable (block b) = true) ->
  exists n buf', 0 < n /\
    replay_al_84 hot w =
    (Ok (n, fold_left (replay_ring md (w_buf w) p) (upto (al_blocks md)) hot), w <| w_buf := buf' |>).
Proof.
  intros md block Hr Hring (b & Hb & Hu). pose proof Hr as (Hs & Hz & Hmax).
  assert (Hmx : u32 (al_stripes md * al_stripe_size_4k md) = al_blocks md)
    by (apply u32_id; unfold al_blocks in *; split; [nia | lia]).
  unfold replay_al_84. run. fold md. rewrite Hmx.
  destruct (Z.ltb_spec buffer_size (al_blocks md * 4096)) as [Hbig|_].
  { unfold buffer_size in Hbig. lia. }
  pose proof (block_at_ring md (w_buf w)) as Hblk.
  destruct (al_84_blocks md (al_blocks md) (upto (al_blocks md)) (w_buf w)) as [al_cpu buf'].
  cbn [fst] in Hblk. cbv beta iota zeta.
  set (usable := fun b => al_84_usable (block_at al_cpu b)).
  set (tr := fun b => al84_tr_number (block_at al_cpu b)).
  assert (Hring' : ring_order (al_blocks md) p t0 usable tr).
  { destruct Hring as (H1 & H2 & H3). split; [done|]. split; [done|]. intros c Hc Huc.
    unfold usable, tr in *. rewrite Hblk in * by done. by apply H3. }
  assert (Hub : usable b = true) by (unfold usable; by rewrite Hblk).
  pose proof (scan_found_some _ _ _ _ _ Hring' (ex_intro _ b (conj Hb Hub))) as Hfound.
  assert (Hvalid : al84_is_valid (block_at al_cpu b) = true).
  { unfold usable, al_84_usable in Hub. by apply andb_true_iff in Hub as [? _]. }
  apply valid_count in Hvalid.
  exists (scan_found (al_scan usable tr (al_blocks md))), buf'. split; [done|].
  unfold upd_buf, modify at 1. unfold mbind at 1, M_bind at 1.
  destruct (Z.eqb_spec (Z.of_nat (length (filter (fun al => al84_is_valid al = true) al_cpu))) 0); [done|].
  destruct (Z.eqb_spec (scan_found (al_scan usable tr (al_blocks md))) 0); [lia|].
  unfold mret, M_ret. do 3 f_equal.
  rewrite (fold_visit _ _ _ _ _ Hring' (fun hot idx => replay_block_84 hot (block_at al_cpu idx))) by done.
  apply fold_left_ext_in. intros x j Hj. apply elem_upto in Hj.
  destruct (pos_of_chron _ _ _ _ _ Hring' j Hj) as [Hrj _].
  unfold replay_ring, usable. by rewrite Hblk.
Qed.

(** Two stripes of one block: the newer transaction, number 0, in the first
    one, the older one, number 2^32 - 1, in the second. *)
Definition example_update_block (tr slot extent : Z) : mem :=
  let b := store_fields [put32 al_magic DRBD_AL_MAGIC; put32 al_tr_number tr;
                         put16 al_transaction_type AL_TR_UPDATE; put16 al_n_updates 1;
                         put16 al_update_slot_nr slot; put32 al_update_extent_nr extent] zero_mem in
  store_fields [put32 al_crc32c (al_block_crc b 0)] b.

Definition example_ring : mem :=
  let newer := example_update_block 0 5 23 in
  let older := example_update_block (2 ^ 32 - 1) 5 42 in
  fun i => if i <? 4096 then newer i else older (i - 4096).

Definition example_ring_md : md_cpu :=
  mk_md_cpu [0; 0; 0; 0; 0] 1 0 0 0 0 0 0 [] 0 0 0 0 1 0 [] 2 1 0.

Definition example_ring_world : world :=
  mk_world (blank_cfg DRBD_V09 <| cfg_md := example_ring_md |>) (default_options apply_al_cmd)
    (blank_env 0) zero_mem example_ring None [] [] [] 0 0.

Lemma replay_al_84_chronological_witness :
  let al := ring_block (cfg_md (w_cfg example_ring_world)) (w_buf example_ring_world) in
  (al_84_usable (al 0), al84_tr_number (al 0), al_84_usable (al 1), al84_tr_number (al 1))
    = (true, 0, true, 2 ^ 32 - 1) /\
  (exists n buf', 0 < n /\
    replay_al_84 no_hot example_ring_world =
    (Ok (n, fold_left (replay_ring example_ring_md example_ring 1) (upto 2) no_hot),
     example_ring_world <| w_buf := buf' |>)) /\
  fold_left (replay_ring example_ring_md example_ring 1) (upto 2) no_hot 5 = 23.
Proof.
  intros al.
  assert (H : (al_84_usable (al 0), al84_tr_number (al 0), al_84_usable (al 1), al84_tr_number (al 1))
    = (true, 0, true, 2 ^ 32 - 1)) by (vm_compute; reflexivity).
  split; [exact H|]. subst al. split; [|vm_compute; reflexivity].
  apply pair_equal_spec in H as [H H4]. apply pair_equal_spec in H as [H H3].
  apply pair_equal_spec in H as [H1 H2].
  apply (replay_al_84_chronological example_ring_world no_hot 1 (2 ^ 32 - 1)).
  - repeat split; done.
  - apply (ring_order_upto 2); [reflexivity | lia | lia |].
    replace (upto 2) with [0; 1] by reflexivity. constructor; [|constructor; [|done]]; intros _.
    + etransitivity; [exact H2 | reflexivity].
    + etransitivity; [exact H4 | reflexivity].
  - exists 0. split; [split; vm_compute; congruence | exact H1].
Defined.

(** Sector [b] of the ring of 0.7, in the order of the transactions. *)
Definition replay_ring_07 `{DrbdHeaders} (mx : Z) (buf : mem) (p : Z) (hot : hot_array) (j : Z) : hot_array :=
  let idx := (p + j) mod mx in
  if (al_07_sector buf idx).2 then replay_sector_07 hot (al_07_sector buf idx).1 else hot.

(** the same for the log of 0.7, with its one sector per 61 extents. *)
Theorem replay_al_07_chronological `{DrbdHeadersOk} w hot p t0 :
  let mx := al_07_mx (cfg_md (w_cfg w)) in
  mx <= MD_AL_MAX_SECT_07 ->
  ring_order mx p t0 (fun b => (al_07_sector (w_buf w) b).2)
    (fun b => al07_tr_number (al_07_sector (w_buf w) b).1) ->
  (exists b, 0 <= b < mx /\ (al_07_sector (w_buf w) b).2 = true) ->
  exists n, 0 < n /\
    replay_al_07 hot w = (Ok (n, fold_left (replay_ring_07 mx (w_buf w) p) (upto mx) hot), w).
Proof.
  intros mx Hmax Hring Hex. pose proof (scan_found_some _ _ _ _ _ Hring Hex) as Hfound.
  exists (scan_found (al_scan (fun b => (al_07_sector (w_buf w) b).2)
           (fun b => al07_tr_number (al_07_sector (w_buf w) b).1) mx)). split; [done|].
  unfold replay_al_07. run. fold mx.
  destruct (Z.ltb_spec MD_AL_MAX_SECT_07 mx); [lia|].
  destruct (Z.eqb_spec (scan_found (al_scan (fun b => (al_07_sector (w_buf w) b).2)
    (fun b => al07_tr_number (al_07_sector (w_buf w) b).1) mx)) 0); [lia|].
  unfold mret, M_ret. do 3 f_equal.
  by rewrite (fold_visit _ _ _ _ _ Hring (fun hot idx => replay_sector_07 hot (al_07_sector (w_buf w) idx).1)).
Qed.

(** Three sectors: transactions 9 and 7 in the first two, and the one of number 8
    in the last was lost. *)
Definition example_sector (tr pos extent : Z) : mem :=
  store_fields ([put32 0 DRBD_MAGIC; put32 4 tr; put32 8 pos; put32 12 extent; put32 504 (Z.lxor extent UNUSED)] ++
                ((fun i => put32 (12 + 8 * i) UNUSED) <$> seqZ 1 61)) zero_mem.

Definition example_log_07 : mem :=
  let newer := example_sector 9 3 11 in
  let older := example_sector 7 3 10 in
  fun i => if i <? 512 then newer i else if i <? 1024 then older (i - 512) else 0.

Definition example_world_07 : world :=
  mk_world (blank_cfg DRBD_V07 <| cfg_md := mk_md_cpu [0; 0; 0; 0; 0] 1 0 0 0 122 0 0 [] 0 0 0 0 1 0 [] 1 8 0 |>)
    (default_options apply_al_cmd) (blank_env 0) zero_mem example_log_07 None [] [] [] 0 0.

Lemma replay_al_07_chronological_witness :
  let al := al_07_sector (w_buf example_world_07) in
  (al_07_mx (cfg_md (w_cfg example_world_07)), (al 0).2, al07_tr_number (al 0).1, (al 1).2,
   al07_tr_number (al 1).1, (al 2).2) = (3, true, 9, true, 7, false) /\
  (exists n, 0 < n /\ replay_al_07 no_hot example_world_07 =
    (Ok (n, fold_left (replay_ring_07 3 example_log_07 1) (upto 3) no_hot), example_world_07)) /\
  fold_left (replay_ring_07 3 example_log_07 1) (upto 3) no_hot 3 = 11.
Proof.
  intros al.
  assert (H : (al_07_mx (cfg_md (w_cfg example_world_07)), (al 0).2, al07_tr_number (al 0).1,
    (al 1).2, al07_tr_number (al 1).1, (al 2).2) = (3, true, 9, true, 7, false))
    by (vm_compute; reflexivity).
  split; [exact H|]. subst al. split; [|vm_compute; reflexivity].
  apply pair_equal_spec in H as [H H6]. apply pair_equal_spec in H as [H H5].
  apply pair_equal_spec in H as [H H4]. apply pair_equal_spec in H as [H H3].
  apply pair_equal_spec in H as [H1 H2].
  apply (replay_al_07_chronological example_world_07 no_hot 1 7).
  - vm_compute. discriminate.
  - apply (ring_order_upto 3); [reflexivity | lia | lia |].
    replace (upto 3) with [0; 1; 2] by reflexivity.
    constructor; [|constructor; [|constructor; [|done]]]; intros Hu.
    + etransitivity; [exact H3 | reflexivity].
    + etransitivity; [exact H5 | reflexivity].
    + discriminate (eq_trans (eq_sym H6) Hu).
  - exists 0. split; [split; vm_compute; congruence | exact H2].
Defined.

(** ** Sorting *)

Lemma cmp_u32_le x y : cmp_u32 x y <=? 0 = (x <=? y).
Proof.
  unfold cmp_u32. destruct (Z.ltb_spec x y), (Z.eqb_spec x y), (Z.leb_spec x y); lia.
Qed.

Lemma insert_u32_perm x l : insert_u32 x l ≡ₚ x :: l.
Proof.
  induction l as [|y l IH]; [done|]. cbn. destruct (_ <=? 0); [done|].
  rewrite IH. apply Permutation_swap.
Qed.

Lemma qsort_u32_perm l : qsort_u32 l ≡ₚ l.
Proof. induction l as [|x l IH]; [done|]. cbn. by rewrite insert_u32_perm, IH. Qed.

Lemma insert_u32_sorted x l : StronglySorted Z.le l -> StronglySorted Z.le (insert_u32 x l).
Proof.
  induction 1 as [|y l Hl IH Hy]; [repeat constructor|]. cbn. rewrite cmp_u32_le.
  destruct (Z.leb_spec x y).
  - constructor; [by constructor|]. constructor; [done|].
    eapply Forall_impl; [exact Hy|]. cbn. lia.
  - constructor; [done|]. apply Forall_forall. intros z Hz.
    rewrite insert_u32_perm in Hz. apply elem_of_cons in Hz as [->|Hz]; [lia|].
    rewrite Forall_forall in Hy. by apply Hy.
Qed.

Lemma qsort_u32_sorted l : StronglySorted Z.le (qsort_u32 l).
Proof. induction l as [|x l IH]; [constructor|]. by apply insert_u32_sorted. Qed.
