(* ===== verification/ApplyAl.v ===== *)
(** * Applying the activity log to the bitmap

    [apply_al] marks the hot extents of the activity log as out of sync in the
    bitmap on disk.  The bitmap has [max_peers] slots that are interleaved in
    words of 32 bits; an extent of 4 MiB is between 4 and 1024 bits of each slot.
    [meta_apply_al], the command, replays the log, applies it and marks the log as
    clean. *)

From S2P Require Import Prelude Machine Hweight Headers SharedTool MetaData OnDisk Layout ActivityLog.
From Stdlib Require Import Sorting.Sorted.

Definition AL_EXTENT_SHIFT : Z := 22.

Record extent_bit_range := mk_extent_bit_range {
  bit_s : Z;
  bit_e : Z;
  on_disk_word32_pos_s : Z;
  on_disk_word32_pos_e : Z;
  aligned_4k_x_max_peers_on_disk_pos : Z
}.

(** The numbers of the code are far from the limits of its [size_t]. *)
Definition enr_to_bit_range (enr bits_per_extent max_peers : Z) : extent_bit_range :=
  let s := enr * bits_per_extent in
  let e := s + bits_per_extent in
  let pos_s := s / 32 * max_peers * 4 in
  mk_extent_bit_range s e pos_s ((e + 31) / 32 * max_peers * 4)
    (round_down pos_s (4096 * max_peers)).

(** [1UL << (AL_EXTENT_SHIFT - ilog2(bm_bytes_per_bit))] *)
Definition bits_per_extent_of (md : md_cpu) : Z :=
  Z.shiftl 1 (AL_EXTENT_SHIFT - ilog2 (bm_bytes_per_bit md)).

(** ** Changing the bits of one extent in the buffer *)

(** The mask of the bits [bit_s .. bit_e) within their word. *)
Definition word32_mask (br : extent_bit_range) : Z :=
  let mask := u32 (Z.shiftl (2 ^ 32 - 1) (Z.land (bit_s br) 31)) in
  let mask := Z.land mask (Z.shiftr (2 ^ 32 - 1) (Z.land (32 - Z.land (bit_e br) 31) 31)) in
  cpu_to_le32 mask.

(** [*word32 |= mask], counting the bits it sets. *)
Definition or_word32 (pos mask : Z) (st : mem * Z) : mem * Z :=
  let '(buf, additional) := st in
  let old := load_le 4 buf pos in
  let new := Z.lor old mask in
  (store_le 4 buf pos new,
   u32 (additional + u32 (generic_hweight32 new - generic_hweight32 old))).

Definition set_extent_bits (br : extent_bit_range) (bits_per_extent max_peers bm_on_disk_pos : Z)
    (st : mem * Z) : mem * Z :=
  let pos := on_disk_word32_pos_s br - bm_on_disk_pos in
  if 32 <=? bits_per_extent then
    (memset st.1 pos 0xff (on_disk_word32_pos_e br - on_disk_word32_pos_s br), st.2)
  else
    fold_left (fun st l => or_word32 (pos / 4 * 4 + 4 * l) (word32_mask br) st) (upto max_peers) st.

(** The loop over the extents of one chunk, with the assertions on each. *)
Fixpoint change_bits (l : list Z) (bits_per_extent max_peers bm_on_disk_pos chunk : Z)
    (additional : Z) : M Z :=
  match l with
  | [] => mret additional
  | enr :: l' =>
      let tmp_ex := enr_to_bit_range enr bits_per_extent max_peers in
      ASSERT (u64 (on_disk_word32_pos_s tmp_ex - bm_on_disk_pos) <? chunk);;
      ASSERT (u64 (on_disk_word32_pos_e tmp_ex - bm_on_disk_pos) <=? chunk);;
      buf ← gets w_buf;
      let '(buf', additional') :=
        set_extent_bits tmp_ex bits_per_extent max_peers bm_on_disk_pos (buf, additional) in
      upd_buf (fun _ => buf');;
      change_bits l' bits_per_extent max_peers bm_on_disk_pos chunk additional'
  end.

(** ** The loop over the chunks *)

(** The extents after the first one that the same read and write can cover, and
    the rest. *)
Fixpoint same_chunk (first_ex : extent_bit_range) (bm_bytes bits_per_extent max_peers : Z)
    (l : list Z) : list Z * list Z :=
  match l with
  | [] => ([], [])
  | enr :: l' =>
      if enr =? UNUSED then ([], l)
      else
        let tmp_ex := enr_to_bit_range enr bits_per_extent max_peers in
        if bm_bytes <=? on_disk_word32_pos_e tmp_ex then ([], l)
        else if aligned_4k_x_max_peers_on_disk_pos first_ex + buffer_size <=? on_disk_word32_pos_e tmp_ex
        then ([], l)
        else
          let '(taken, rest) := same_chunk first_ex bm_bytes bits_per_extent max_peers l' in
          (enr :: taken, rest)
  end.

(** [n] bounds the number of iterations, [i] is the index of the first element of
    [l]; returns the index the loop ended at, and the counted bits. *)
Fixpoint apply_al_loop (n : nat) (bm_bytes bits_per_extent max_peers : Z) (l : list Z)
    (i additional : Z) : M (Z * Z) :=
  match n, l with
  | O, _ | _, [] => mret (i, additional)
  | S n', enr :: l' =>
      if enr =? UNUSED then mret (i, additional)
      else
        let first_ex := enr_to_bit_range enr bits_per_extent max_peers in
        if bm_bytes <=? on_disk_word32_pos_e first_ex then
          apply_al_loop n' bm_bytes bits_per_extent max_peers l' (i + 1) additional
        else
          let '(more, rest) := same_chunk first_ex bm_bytes bits_per_extent max_peers l' in
          let last_ex := enr_to_bit_range (List.last more enr) bits_per_extent max_peers in
          let bm_on_disk_pos := aligned_4k_x_max_peers_on_disk_pos first_ex in
          let chunk := u64 (ALIGN (on_disk_word32_pos_e last_ex) 4096 - bm_on_disk_pos) in
          ASSERT (chunk <=? buffer_size);;
          c ← cfg;
          let offset := s64 (cfg_bm_offset c + bm_on_disk_pos) in
          pread_or_die 0 chunk offset;;
          additional' ← change_bits (enr :: more) bits_per_extent max_peers bm_on_disk_pos chunk additional;
          pwrite_buffer_or_die chunk offset;;
          apply_al_loop n' bm_bytes bits_per_extent max_peers rest
            (i + 1 + Z.of_nat (length more)) additional'
  end.

(** [hot_extent] is sorted.  Returns whether there was something to do, and the
    KiB reported as additionally marked. *)
Definition apply_al `{DrbdHeaders} (hot_extent : list Z) : M (bool * Z) :=
  c ← cfg;
  let bm_bytes := ALIGN (cfg_bm_bytes c) (md_hard_sect_size c) in
  let bits_per_extent := bits_per_extent_of (cfg_md c) in
  let max_peers := max_peers (cfg_md c) in
  ASSERT ((4 <=? bits_per_extent) && (bits_per_extent <=? 1024) && is_power_of_2 bits_per_extent);;
  ASSERT ((1 <=? max_peers) && (max_peers <=? DRBD_PEERS_MAX));;
  '(i, additional) ← apply_al_loop (length hot_extent) bm_bytes bits_per_extent max_peers hot_extent 0 0;
  mret (negb (i =? 0), u32 (additional * (bm_bytes_per_bit (cfg_md c) / 1024))).

(** ** The bits of an extent *)

(** Bit [k] of byte [p] of the bitmap is this bit of its slot. *)
Definition slot_bit (max_peers p k : Z) : Z := p / 4 / max_peers * 32 + p mod 4 * 8 + k.

Definition in_extent (bits_per_extent enr b : Z) : bool :=
  (enr * bits_per_extent <=? b) && (b <? enr * bits_per_extent + bits_per_extent).

(** [m'] is [m] with the bits set that [f] selects, by the byte of the bitmap and
    the bit in it; the bitmap is at [base] of the buffer. *)
Definition marked (base : Z) (f : Z -> Z -> bool) (m m' : mem) : Prop :=
  forall i k, 0 <= k < 8 -> Z.testbit (m' i) k = Z.testbit (m i) k || f (base + i) k.

Lemma le_div_mul p a c : 0 < c -> a <= p / c <-> a * c <= p.
Proof.
  intros Hc. pose proof (Z.div_mod p c). pose proof (Z.mod_pos_bound p c). nia.
Qed.

Lemma div_lt_mul p a c : 0 < c -> p / c < a <-> p < a * c.
Proof. intros Hc. pose proof (le_div_mul p a c Hc). lia. Qed.

(** The words of the bit numbers [32 g .. 32 h) of all slots. *)
Lemma slot_words mp p k g h :
  1 <= mp -> 0 <= k < 8 ->
  (g * 32 <=? slot_bit mp p k) && (slot_bit mp p k <? h * 32) =
  (g * mp * 4 <=? p) && (p <? h * mp * 4).
Proof.
  intros Hmp Hk. unfold slot_bit. rewrite Z.div_div by lia.
  pose proof (Z.mod_pos_bound p 4). pose proof (le_div_mul p g (4 * mp)).
  pose proof (div_lt_mul p h (4 * mp)).
  apply eq_bool_prop_intro. rewrite !Is_true_true, !andb_true_iff, !Z.leb_le, !Z.ltb_lt. lia.
Qed.

(** An extent of whole words, and one within a word. *)
Lemma whole_words enr q mp :
  0 < q ->
  enr_to_bit_range enr (32 * q) mp =
  mk_extent_bit_range (enr * (32 * q)) (enr * (32 * q) + 32 * q) (enr * q * mp * 4)
    ((enr * q + q) * mp * 4) (round_down (enr * q * mp * 4) (4096 * mp)).
Proof.
  intros Hq. unfold enr_to_bit_range.
  replace (enr * (32 * q)) with (enr * q * 32) by lia. rewrite Z.div_mul by lia.
  replace (enr * q * 32 + 32 * q + 31) with (31 + (enr * q + q) * 32) by lia.
  rewrite Z.div_add by lia. done.
Qed.

(** [n] extents of [b] bits make a word. *)
Lemma part_word enr b n mp :
  0 < b -> b * n = 32 ->
  enr_to_bit_range enr b mp =
  mk_extent_bit_range (enr * b) (enr * b + b) (enr / n * mp * 4) ((enr / n + 1) * mp * 4)
    (round_down (enr / n * mp * 4) (4096 * mp)) /\
  enr * b = enr / n * 32 + enr mod n * b /\ 0 <= enr mod n * b /\ enr mod n * b + b <= 32.
Proof.
  intros Hb Hn. assert (0 < n) by nia. unfold enr_to_bit_range.
  pose proof (Z.div_mod enr n). pose proof (Z.mod_pos_bound enr n).
  assert (Heq : enr * b = enr / n * 32 + enr mod n * b) by (rewrite <- Hn; nia).
  assert (0 <= enr mod n * b /\ enr mod n * b + b <= 32) by nia. split; [|lia].
  assert (enr * b / 32 = enr / n) as -> by (symmetry; apply Z.div_unique with (enr mod n * b); lia).
  assert ((enr * b + b + 31) / 32 = enr / n + 1) as ->
    by (symmetry; apply Z.div_unique with (enr mod n * b + b - 1); lia).
  done.
Qed.

(** *** Sets of bits *)

Lemma mask_bit br r b j :
  bit_s br mod 32 = r -> bit_e br = bit_s br + b -> 0 < b -> r + b <= 32 -> 0 <= j < 32 ->
  Z.testbit (word32_mask br) j = (r <=? j) && (j <? r + b).
Proof.
  intros Hr He Hb Hrb Hj. pose proof (Z.mod_pos_bound (bit_s br) 32). unfold word32_mask, cpu_to_le32, u32.
  change 31 with (Z.ones 5) at 1 2 3. rewrite !Z.land_ones by lia. change (2 ^ 5) with 32.
  rewrite Hr, He. rewrite Z.mod_pow2_bits_low, Z.land_spec, Z.mod_pow2_bits_low by lia.
  change (2 ^ 32 - 1) with (Z.ones 32).
  rewrite Z.shiftl_spec, Z.shiftr_spec, !Z.testbit_ones by (try apply Z.mod_pos_bound; lia).
  assert (Hup : (32 - (bit_s br + b) mod 32) mod 32 = 32 - (r + b)).
  { rewrite <- Zplus_mod_idemp_l, Hr. destruct (Z.eq_dec (r + b) 32) as [Hx|].
    - by rewrite Hx.
    - rewrite (Z.mod_small (r + b)) by lia. apply Z.mod_small. lia. }
  rewrite Hup.
  destruct (Z.leb_spec 0 (j - r)), (Z.ltb_spec (j - r) 32), (Z.leb_spec 0 (j + (32 - (r + b)))),
    (Z.ltb_spec (j + (32 - (r + b))) 32), (Z.leb_spec r j), (Z.ltb_spec j (r + b)); done || lia.
Qed.

Lemma marked_refl base m : marked base (fun _ _ => false) m m.
Proof. intros i k _. by rewrite orb_false_r. Qed.

Lemma marked_trans base f g m1 m2 m3 :
  marked base f m1 m2 -> marked base g m2 m3 -> marked base (fun p k => f p k || g p k) m1 m3.
Proof. intros Hf Hg i k Hk. rewrite Hg, Hf by done. by rewrite orb_assoc. Qed.

Lemma marked_ext base f g m m' :
  (forall p k, 0 <= k < 8 -> f p k = g p k) -> marked base f m m' -> marked base g m m'.
Proof. intros Hfg Hf i k Hk. by rewrite Hf, Hfg. Qed.

Definition in_word (a i : Z) : bool := (a <=? i) && (i <? a + 4).

(** Setting the bits [mask] in the word at [pos]. *)
Lemma or_word32_marked base pos mask st :
  bytes st.1 -> 
  bytes (or_word32 pos mask st).1 /\
  marked base (fun p k => in_word (base + pos) p && Z.testbit mask (8 * (p - (base + pos)) + k))
    st.1 (or_word32 pos mask st).1.
Proof.
  destruct st as [m additional]. intros Hm. cbn [or_word32 fst]. split; [by apply store_le_bytes|].
  intros i k Hk. unfold in_word.
  destruct (Z.leb_spec (base + pos) (base + i)), (Z.ltb_spec (base + i) (base + pos + 4)); cbn [andb];
    try (rewrite store_le_other by (cbn; lia); by rewrite orb_false_r).
  replace i with (pos + (i - pos)) at 1 by lia.
  rewrite store_le_bit, Z.lor_spec, load_le_bit by (cbn; lia || done).
  f_equal; f_equal; [f_equal|]; lia.
Qed.

(** The same word of the [n] slots from [pos] on. *)
Lemma or_words_marked base pos mask st n :
  bytes st.1 -> (4 | base + pos) -> 0 <= n ->
  let m' := (fold_left (fun st l => or_word32 (pos + 4 * l) mask st) (upto n) st).1 in
  bytes m' /\
  marked base (fun p k => (base + pos <=? p) && (p <? base + pos + 4 * n) && Z.testbit mask (8 * (p mod 4) + k))
    st.1 m'.
Proof.
  intros Hm [q Hq] Hn. rewrite <- (Z2Nat.id n) by done. clear Hn.
  induction (Z.to_nat n) as [|c IH].
  { split; [exact Hm|]. apply (marked_ext base (fun _ _ => false)); [|apply marked_refl].
    intros p k _. destruct (base + pos <=? p) eqn:E1; [|done]. destruct (p <? _) eqn:E2; [|done].
    apply Z.leb_le in E1. apply Z.ltb_lt in E2. lia. }
  rewrite Nat2Z.inj_succ, <- Z.add_1_r, upto_S, fold_left_app by lia. cbn [fold_left] in *.
  set (st' := fold_left _ _ _) in *. destruct IH as [Hb Hmk].
  destruct (or_word32_marked base (pos + 4 * Z.of_nat c) mask st' Hb) as [Hb' Hmk'].
  split; [done|]. refine (marked_ext _ _ _ _ _ _ (marked_trans _ _ _ _ _ _ Hmk Hmk')).
  intros p k Hk. cbn beta. unfold in_word.
  destruct (Z.leb_spec (base + pos) p), (Z.ltb_spec p (base + pos + 4 * Z.of_nat c)),
    (Z.leb_spec (base + (pos + 4 * Z.of_nat c)) p), (Z.ltb_spec p (base + (pos + 4 * Z.of_nat c) + 4)),
    (Z.ltb_spec p (base + pos + 4 * (Z.of_nat c + 1))); cbn [andb orb]; try done; try (exfalso; lia).
  - apply orb_false_r.
  - f_equal. f_equal. f_equal. apply Z.mod_unique with (q + Z.of_nat c); lia.
Qed.

(** A bitmap granularity that [apply_al] accepts. *)
Definition extent_bits (bpe : Z) : Prop := exists t, 2 <= t <= 10 /\ bpe = 2 ^ t.

Lemma extent_bits_cases bpe :
  extent_bits bpe -> (exists q, 0 < q <= 32 /\ bpe = 32 * q) \/ (exists n, 0 < bpe < 32 /\ bpe * n = 32).
Proof.
  intros (t & Ht & ->). destruct (Z.le_gt_cases 5 t).
  - left. exists (2 ^ (t - 5)). change 32 with (2 ^ 5) at 2. rewrite <- Z.pow_add_r by lia. split.
    + split; [apply Z.pow_pos_nonneg; lia|]. change 32 with (2 ^ 5). apply Z.pow_le_mono_r; lia.
    + f_equal. lia.
  - right. exists (2 ^ (5 - t)). rewrite <- Z.pow_add_r by lia. replace (t + (5 - t)) with 5 by lia.
    split; [|done]. split; [apply Z.pow_pos_nonneg; lia|]. change 32 with (2 ^ 5). apply Z.pow_lt_mono_r; lia.
Qed.

Lemma div_mod_word p mp j : 1 <= mp -> p / 4 / mp = j <-> j * mp * 4 <= p < j * mp * 4 + 4 * mp.
Proof.
  intros Hmp. rewrite Z.div_div by lia. pose proof (le_div_mul p j (4 * mp)).
  pose proof (div_lt_mul p (j + 1) (4 * mp)). lia.
Qed.

(** Changing one extent sets its bits in all slots, and no others. *)
Lemma set_extent_bits_marked enr bpe mp base st :
  bytes st.1 -> 0 <= enr -> extent_bits bpe -> 1 <= mp -> (4 | base) ->
  let st' := set_extent_bits (enr_to_bit_range enr bpe mp) bpe mp base st in
  bytes st'.1 /\ marked base (fun p k => in_extent bpe enr (slot_bit mp p k)) st.1 st'.1.
Proof.
  intros Hm He Hbpe Hmp [qb Hb]. unfold set_extent_bits. cbv zeta.
  destruct (extent_bits_cases bpe Hbpe) as [(q & Hq & ->)|(n & Hr & Hn)].
  - rewrite whole_words by lia. destruct (Z.leb_spec 32 (32 * q)); [|lia].
    cbn [fst on_disk_word32_pos_s on_disk_word32_pos_e]. split; [by apply memset_bytes|].
    intros i k Hk. unfold in_extent.
    replace (enr * (32 * q)) with (enr * q * 32) by lia.
    replace (enr * q * 32 + 32 * q) with ((enr * q + q) * 32) by lia. rewrite slot_words by done.
    unfold memset. case_range.
    + replace ((enr * q * mp * 4 <=? base + i) && (base + i <? (enr * q + q) * mp * 4)) with true by lia.
      rewrite orb_true_r. change 255 with (Z.ones 8). rewrite Z.testbit_ones_nonneg by lia. apply Z.ltb_lt. lia.
    + replace ((enr * q * mp * 4 <=? base + i) && (base + i <? (enr * q + q) * mp * 4)) with false by lia.
      by rewrite orb_false_r.
  - destruct (part_word enr bpe n mp ltac:(lia) Hn) as (-> & Heq & Hlo & Hhi).
    destruct (Z.leb_spec 32 bpe); [lia|]. cbn [on_disk_word32_pos_s].
    assert (enr / n * mp * 4 - base = 4 * (enr / n * mp - qb)) as -> by lia.
    rewrite (Z.mul_comm 4), Z.div_mul by lia.
    set (pos := (enr / n * mp - qb) * 4).
    assert (Hpos : base + pos = enr / n * mp * 4) by (unfold pos; lia).
    destruct (or_words_marked base pos (word32_mask (mk_extent_bit_range (enr * bpe) (enr * bpe + bpe)
      (enr / n * mp * 4) ((enr / n + 1) * mp * 4) (round_down (enr / n * mp * 4) (4096 * mp)))) st mp Hm)
      as [Hm' Hmk]; [exists (enr / n * mp); lia | lia |].
    split; [done|]. refine (marked_ext _ _ _ _ _ _ Hmk). intros p k Hk. cbn beta. rewrite Hpos.
    pose proof (Z.mod_pos_bound p 4 ltac:(lia)) as Hp4.
    rewrite (mask_bit _ (enr mod n * bpe) bpe); cbn [bit_s bit_e]; try lia.
    2: { rewrite Heq, Z.add_comm, Z.mod_add by lia. apply Z.mod_small. lia. }
    unfold in_extent, slot_bit. rewrite Heq. pose proof (div_mod_word p mp (enr / n) Hmp) as Hdw.
    destruct (Z.eq_dec (p / 4 / mp) (enr / n)) as [Hj|Hj].
    + rewrite Hj. apply Hdw in Hj.
      replace ((enr / n * mp * 4 <=? p) && (p <? enr / n * mp * 4 + 4 * mp)) with true by lia.
      cbn [andb]. f_equal.
      * destruct (Z.leb_spec (enr mod n * bpe) (8 * (p mod 4) + k)),
          (Z.leb_spec (enr / n * 32 + enr mod n * bpe) (enr / n * 32 + p mod 4 * 8 + k)); done || lia.
      * destruct (Z.ltb_spec (8 * (p mod 4) + k) (enr mod n * bpe + bpe)),
          (Z.ltb_spec (enr / n * 32 + p mod 4 * 8 + k) (enr / n * 32 + enr mod n * bpe + bpe)); done || lia.
    + replace ((enr / n * mp * 4 <=? p) && (p <? enr / n * mp * 4 + 4 * mp)) with false.
      2: { symmetry. apply andb_false_iff. rewrite Z.leb_gt, Z.ltb_ge. lia. }
      cbn [andb]. symmetry. apply andb_false_iff. rewrite Z.leb_gt, Z.ltb_ge.
      assert (p / 4 / mp < enr / n \/ enr / n < p / 4 / mp) as [|] by lia; lia.
Qed.

Lemma bpe_range bpe : extent_bits bpe -> 4 <= bpe <= 1024.
Proof.
  intros (t & Ht & ->). split.
  - change 4 with (2 ^ 2). apply Z.pow_le_mono_r; lia.
  - change 1024 with (2 ^ 10). apply Z.pow_le_mono_r; lia.
Qed.

(** *** The positions of sorted extents *)

Section range.
Context (bpe mp : Z) (Hbpe : extent_bits bpe) (Hmp : 1 <= mp <= 32).
Let br (enr : Z) : extent_bit_range := enr_to_bit_range enr bpe mp.

Lemma range_mono e1 e2 :
  e1 <= e2 ->
  on_disk_word32_pos_s (br e1) <= on_disk_word32_pos_s (br e2) /\
  on_disk_word32_pos_e (br e1) <= on_disk_word32_pos_e (br e2).
Proof.
  intros He. pose proof (bpe_range bpe Hbpe). cbn. split.
  - assert (e1 * bpe / 32 <= e2 * bpe / 32) by (apply Z.div_le_mono; nia). nia.
  - assert ((e1 * bpe + bpe + 31) / 32 <= (e2 * bpe + bpe + 31) / 32) by (apply Z.div_le_mono; nia). nia.
Qed.

(** An extent starts in its aligned chunk, is not empty and is at most 4 KiB. *)
Lemma range_bounds enr :
  0 <= enr ->
  0 <= aligned_4k_x_max_peers_on_disk_pos (br enr) <= on_disk_word32_pos_s (br enr) /\
  on_disk_word32_pos_s (br enr) < aligned_4k_x_max_peers_on_disk_pos (br enr) + 4096 * mp /\
  on_disk_word32_pos_s (br enr) < on_disk_word32_pos_e (br enr) <= on_disk_word32_pos_s (br enr) + 4096 /\
  (4096 | aligned_4k_x_max_peers_on_disk_pos (br enr)) /\
  0 <= on_disk_word32_pos_s (br enr) <= enr * 4096.
Proof.
  intros He. pose proof (bpe_range bpe Hbpe). cbn. unfold round_down.
  set (g := enr * bpe / 32). assert (0 <= g <= enr * 32).
  { split; [apply Z.div_pos; nia|]. apply Z.div_le_upper_bound; nia. }
  assert (Hge : g < (enr * bpe + bpe + 31) / 32 <= g + 32).
  { unfold g. destruct (extent_bits_cases bpe Hbpe) as [(q & Hq & Hb)|(n & Hr & Hn)].
    - assert (enr * bpe = enr * q * 32) as -> by (rewrite Hb; lia).
      assert (enr * q * 32 + bpe + 31 = 31 + (enr * q + q) * 32) as -> by lia.
      rewrite Z.div_add, Z.div_mul, Z.div_small by lia. lia.
    - destruct (part_word enr bpe n mp ltac:(lia) Hn) as (_ & Heq & Hlo & Hhi).
      rewrite Heq. rewrite (Z.add_comm _ (_ mod _ * _)), Z.div_add, Z.div_small by lia.
      assert ((enr mod n * bpe + enr / n * 32 + bpe + 31) / 32 = enr / n + 1) as ->; [|lia].
      symmetry. apply Z.div_unique with (enr mod n * bpe + bpe - 1); lia. }
  pose proof (Z.div_mod (g * mp * 4) (4096 * mp) ltac:(lia)).
  pose proof (Z.mod_pos_bound (g * mp * 4) (4096 * mp) ltac:(lia)).
  assert (0 <= g * mp * 4) by nia.
  assert (0 <= g * mp * 4 / (4096 * mp)) by (apply Z.div_pos; lia).
  repeat split; try nia. exists (g * mp * 4 / (4096 * mp) * mp). lia.
Qed.
End range.

Definition covers (bpe mp : Z) (l : list Z) (p k : Z) : bool :=
  existsb (fun enr => in_extent bpe enr (slot_bit mp p k)) l.

Section chunk.
Context (bpe mp : Z) (Hbpe : extent_bits bpe) (Hmp : 1 <= mp <= 32).
Let br (enr : Z) : extent_bit_range := enr_to_bit_range enr bpe mp.

(** The bits of an extent are in its byte range. *)
Lemma in_extent_pos enr p k :
  0 <= k < 8 -> in_extent bpe enr (slot_bit mp p k) = true ->
  on_disk_word32_pos_s (br enr) <= p < on_disk_word32_pos_e (br enr).
Proof.
  intros Hk Hin. pose proof (bpe_range bpe Hbpe). unfold in_extent in Hin.
  apply andb_true_iff in Hin as [H1 H2]. apply Z.leb_le in H1. apply Z.ltb_lt in H2.
  cbn. set (g := enr * bpe / 32). set (h := (enr * bpe + bpe + 31) / 32).
  assert (Hw : (g * 32 <=? slot_bit mp p k) && (slot_bit mp p k <? h * 32) = true).
  { apply andb_true_iff. split.
    - apply Z.leb_le. unfold g. pose proof (Z.mul_div_le (enr * bpe) 32). lia.
    - apply Z.ltb_lt. unfold h. pose proof (Z.mul_succ_div_gt (enr * bpe + bpe + 31) 32). lia. }
  rewrite slot_words in Hw by lia. apply andb_true_iff in Hw as [Hg Hh].
  apply Z.leb_le in Hg. apply Z.ltb_lt in Hh. done.
Qed.

Definition fits_chunk (base chunk enr : Z) : Prop :=
  0 <= enr /\ base <= on_disk_word32_pos_s (br enr) /\ on_disk_word32_pos_e (br enr) <= base + chunk.

Lemma covers_in_chunk base chunk l p k :
  Forall (fits_chunk base chunk) l -> 0 <= k < 8 -> covers bpe mp l p k = true ->
  base <= p < base + chunk.
Proof.
  intros Hl Hk Hc. apply existsb_exists in Hc as (enr & Hin & Hx).
  rewrite Forall_forall in Hl. apply list_elem_of_In, Hl in Hin as (_ & Hs & He).
  apply in_extent_pos in Hx; [|done]. lia.
Qed.

Lemma change_bits_run base chunk l additional w :
  (4 | base) -> chunk < 2 ^ 64 -> bytes (w_buf w) -> Forall (fits_chunk base chunk) l ->
  exists a buf', change_bits l bpe mp base chunk additional w = (Ok a, w <| w_buf := buf' |>) /\
    bytes buf' /\ marked base (covers bpe mp l) (w_buf w) buf'.
Proof.
  intros Hb Hc Hm Hl. revert additional w Hm. induction Hl as [|enr l (He & Hs & Hee) Hl IH]; intros additional w Hm.
  { exists additional, (w_buf w). split; [by destruct w|]. split; [done|]. apply marked_refl. }
  pose proof (range_bounds bpe mp Hbpe Hmp enr He) as (_ & _ & Hse & _). fold (br enr) in Hse.
  cbn [change_bits]. fold (br enr). run.
  rewrite !u64_id by (unfold in_u64; lia).
  rewrite (proj2 (Z.ltb_lt _ _)), (proj2 (Z.leb_le _ _)) by lia. run.
  destruct (set_extent_bits_marked enr bpe mp base (w_buf w, additional) Hm He Hbpe ltac:(lia) Hb) as [Hm1 Hk1].
  fold (br enr) in Hm1, Hk1. destruct (set_extent_bits (br enr) bpe mp base (w_buf w, additional)) as [buf1 a1].
  cbn [fst] in Hm1, Hk1. unfold upd_buf, modify at 1. unfold mbind at 1, M_bind at 1.
  set (w1 := w <| w_buf := buf1 |>).
  destruct (IH a1 w1 Hm1) as (a & buf' & Hrun & Hm' & Hk').
  exists a, buf'. split; [exact Hrun|]. split; [done|].
  exact (marked_trans _ _ _ _ _ _ Hk1 Hk').
Qed.
End chunk.

(** ** The loop *)

Section read_modify_write.
Context (bpe mp : Z) (Hbpe : extent_bits bpe) (Hmp : 1 <= mp <= 32).

(** Reading a chunk of the bitmap, changing the extents in it and writing it. *)
Lemma read_modify_write_run w size base chunk l additional :
  let off := cfg_bm_offset (w_cfg w) in
  rw_area w off size -> bytes (w_dev w) -> bytes (w_buf w) ->
  (4 | base) -> 0 <= base -> 0 <= chunk <= buffer_size -> base + chunk <= size ->
  Forall (fits_chunk bpe mp base chunk) l ->
  exists a w', (pread_or_die 0 chunk (off + base);;
                additional' ← change_bits l bpe mp base chunk additional;
                pwrite_buffer_or_die chunk (off + base);; mret additional') w = (Ok a, w') /\
    same_setup w w' /\ bytes (w_dev w') /\ bytes (w_buf w') /\
    marked (- off) (covers bpe mp l) (w_dev w) (w_dev w').
Proof.
  intros off (H0 & H1 & H2 & Hdry & Hallow) Hdev Hbuf Hb Hb0 Hc Hsz Hl.
  unfold buffer_size in *.
  assert (Hrd := pread_or_die_ok 0 chunk (off + base) w ltac:(lia) ltac:(lia) ltac:(unfold buffer_size; lia)).
  set (w1 := w <| w_buf := copy (w_buf w) 0 (w_dev w) (off + base) chunk |>) in *.
  assert (Hbuf1 : bytes (w_buf w1)) by (by apply copy_bytes).
  destruct (change_bits_run bpe mp Hbpe Hmp base chunk l additional w1 Hb ltac:(lia) Hbuf1 Hl)
    as (a & buf' & Hch & Hm' & Hk).
  set (w2 := w1 <| w_buf := buf' |>) in *.
  assert (Hwr := pwrite_or_die_ok buf' chunk (off + base) w2 (Hallow chunk (off + base) ltac:(lia) ltac:(lia) ltac:(lia))
    Hdry ltac:(lia) ltac:(lia) ltac:(unfold w2, w1; cbn; lia)).
  exists a, (counted w2 <| w_dev := copy (w_dev w) (off + base) buf' 0 chunk |>).
  rewrite (bind_ok _ _ _ _ _ Hrd), (bind_ok _ _ _ _ _ Hch). unfold pwrite_buffer_or_die.
  rewrite bind_bind, bind_gets. change (w_buf w2) with buf'. rewrite (bind_ok _ _ _ _ _ Hwr).
  split; [done|]. split; [by repeat split|]. split; [by apply copy_bytes|]. split; [done|].
  intros i k Hkk.
  replace (w_dev (counted w2 <| w_dev := copy (w_dev w) (off + base) buf' 0 chunk |>))
    with (copy (w_dev w) (off + base) buf' 0 chunk) by reflexivity.
  unfold copy. case_range.
  - rewrite Hk by done. replace (w_buf w1) with (copy (w_buf w) 0 (w_dev w) (off + base) chunk) by reflexivity.
    unfold copy. case_range; [|lia]. f_equal; [do 2 f_equal; lia | f_equal; lia].
  - destruct (covers bpe mp l (- off + i) k) eqn:Hcov; [|by rewrite orb_false_r].
    apply (covers_in_chunk bpe mp Hbpe Hmp base chunk) in Hcov; [lia | done | done].
Qed.
End read_modify_write.

(** An extent that is applied: used, and not beyond the end of the bitmap. *)
Definition applied (bm_bytes bpe mp enr : Z) : bool :=
  negb (enr =? UNUSED) && negb (bm_bytes <=? on_disk_word32_pos_e (enr_to_bit_range enr bpe mp)).

Definition marks (bm_bytes bpe mp : Z) (l : list Z) (p k : Z) : bool :=
  existsb (fun enr => applied bm_bytes bpe mp enr && in_extent bpe enr (slot_bit mp p k)) l.

Lemma marks_all bm_bytes bpe mp l p k :
  Forall (fun enr => applied bm_bytes bpe mp enr = true) l ->
  marks bm_bytes bpe mp l p k = covers bpe mp l p k.
Proof. induction 1 as [|enr l He _ IH]; [done|]. cbn. unfold marks, covers in IH. by rewrite He, IH. Qed.

Lemma marks_none bm_bytes bpe mp l p k :
  Forall (fun enr => enr = UNUSED) l -> marks bm_bytes bpe mp l p k = false.
Proof. induction 1 as [|enr l -> _ IH]; [done|]. exact IH. Qed.

Lemma same_chunk_split first bm_bytes bpe mp l more rest :
  same_chunk first bm_bytes bpe mp l = (more, rest) ->
  l = more ++ rest /\
  Forall (fun enr => applied bm_bytes bpe mp enr = true /\
    on_disk_word32_pos_e (enr_to_bit_range enr bpe mp) <
      aligned_4k_x_max_peers_on_disk_pos first + buffer_size) more.
Proof.
  revert more rest. induction l as [|enr l IH]; intros more rest Hs; cbn [same_chunk] in Hs.
  { by injection Hs as <- <-. }
  destruct (enr =? UNUSED) eqn:E1; [by injection Hs as <- <-|].
  destruct (bm_bytes <=? _) eqn:E2; [by injection Hs as <- <-|].
  destruct (_ + buffer_size <=? _) eqn:E3; [by injection Hs as <- <-|].
  destruct (same_chunk first bm_bytes bpe mp l) as [taken rest'].
  injection Hs as <- <-. destruct (IH taken rest' eq_refl) as [-> Hall]. split; [done|].
  constructor; [|done]. unfold applied. rewrite E1, E2. apply Z.leb_gt in E3. done.
Qed.

Lemma last_default (x a : Z) l : List.last (a :: l) x = List.last l a.
Proof.
  revert x a. induction l as [|b l IH]; intros x a; [done|].
  exact (eq_trans (IH x b) (eq_sym (IH a b))).
Qed.

Lemma sorted_last x l :
  StronglySorted Z.le (x :: l) ->
  List.last l x ∈ x :: l /\ forall y, y ∈ x :: l -> x <= y <= List.last l x.
Proof.
  revert x. induction l as [|a l IH]; intros x Hs.
  { split; [by apply elem_of_cons; left|]. intros y Hy. apply list_elem_of_singleton in Hy. cbn. lia. }
  apply StronglySorted_inv in Hs as [Hs Hx]. destruct (IH a Hs) as [Hin Hall]. rewrite last_default.
  apply Forall_cons in Hx as [Hxa _]. split; [by apply elem_of_cons; right|].
  intros y Hy. apply elem_of_cons in Hy as [->|Hy].
  - specialize (Hall a ltac:(by apply elem_of_cons; left)). lia.
  - specialize (Hall y Hy). lia.
Qed.

Section loop.
Context (bpe mp B : Z) (Hbpe : extent_bits bpe) (Hmp : 1 <= mp <= 32) (HB : 0 <= B < 2 ^ 63).
Let br (enr : Z) : extent_bit_range := enr_to_bit_range enr bpe mp.

Definition chunk_of (first last : Z) : Z :=
  ALIGN (on_disk_word32_pos_e (br last)) 4096 - aligned_4k_x_max_peers_on_disk_pos (br first).

(** The extents of a chunk fit the buffer and lie within the aligned bitmap. *)
Lemma chunk_fits first more :
  in_u32 first -> StronglySorted Z.le (first :: more) ->
  Forall (fun enr => enr < 2 ^ 32) more ->
  on_disk_word32_pos_e (br first) < B ->
  Forall (fun enr => on_disk_word32_pos_e (br enr) < B /\
    on_disk_word32_pos_e (br enr) < aligned_4k_x_max_peers_on_disk_pos (br first) + buffer_size) more ->
  let base := aligned_4k_x_max_peers_on_disk_pos (br first) in
  let chunk := chunk_of first (List.last more first) in
  0 <= chunk <= buffer_size /\ base + chunk <= ALIGN B 4096 /\
  Forall (fits_chunk bpe mp base chunk) (first :: more).
Proof.
  intros Hf Hsort Hu32 HfB Hmore base chunk.
  set (last := List.last more first) in *. unfold in_u32 in *.
  destruct (sorted_last first more Hsort) as [Hlast Hmax]. fold last in Hlast, Hmax.
  pose proof (range_bounds bpe mp Hbpe Hmp first ltac:(lia)) as (Ha & Hs & He & [v Hv] & Hs2).
  fold (br first) base in Ha, Hs, He, Hv, Hs2.
  assert (Hl32 : last < 2 ^ 32).
  { apply elem_of_cons in Hlast as [->|Hlast]; [lia|]. rewrite Forall_forall in Hu32. by apply Hu32. }
  pose proof (Hmax _ Hlast) as [Hfl _].
  pose proof (range_bounds bpe mp Hbpe Hmp last ltac:(lia)) as (_ & _ & He' & _ & Hs').
  fold (br last) in He', Hs'. pose proof (range_mono bpe mp Hbpe Hmp first last Hfl) as [_ Hme].
  fold (br first) (br last) in Hme.
  assert (HlB : on_disk_word32_pos_e (br last) < B /\ on_disk_word32_pos_e (br last) < base + buffer_size).
  { apply elem_of_cons in Hlast as [Heq|Hlast].
    - rewrite Heq. split; [done|]. unfold buffer_size. lia.
    - rewrite Forall_forall in Hmore. by apply Hmore. }
  pose proof (ALIGN_bounds (on_disk_word32_pos_e (br last)) 12 ltac:(lia) ltac:(lia) ltac:(lia)) as [Hal [u Hu]].
  change (2 ^ 12) with 4096 in Hal, Hu.
  pose proof (ALIGN_mono (on_disk_word32_pos_e (br last)) B 12 ltac:(lia) ltac:(lia) ltac:(lia)) as Hmono.
  change (2 ^ 12) with 4096 in Hmono.
  unfold chunk, chunk_of. fold base. unfold buffer_size in *. split; [lia|]. split; [lia|].
  apply Forall_forall. intros enr Hin. destruct (Hmax _ Hin) as [H1 H2].
  destruct (range_mono bpe mp Hbpe Hmp first enr H1) as [Hx _].
  destruct (range_mono bpe mp Hbpe Hmp enr last H2) as [_ Hy].
  fold (br first) (br enr) (br last) in Hx, Hy. unfold fits_chunk. fold (br enr). lia.
Qed.

Lemma sorted_unused x l :
  StronglySorted Z.le (x :: l) -> Forall in_u32 l -> x = UNUSED -> Forall (fun enr => enr = UNUSED) l.
Proof.
  intros Hs Hu ->. apply StronglySorted_inv in Hs as [_ Hx]. rewrite Forall_forall in *.
  intros y Hy. specialize (Hx y Hy). specialize (Hu y Hy). unfold UNUSED, in_u32 in *. lia.
Qed.

Lemma sorted_tail (l1 l2 : list Z) : StronglySorted Z.le (l1 ++ l2) -> StronglySorted Z.le l1 /\ StronglySorted Z.le l2.
Proof.
  induction l1 as [|x l1 IH]; intros Hs; [by split; [constructor|]|].
  apply StronglySorted_inv in Hs as [Hs Hx]. destruct (IH Hs) as [H1 H2]. split; [|done].
  constructor; [done|]. by apply Forall_app in Hx as [Hx _].
Qed.

Lemma marks_app l1 l2 p k : marks B bpe mp (l1 ++ l2) p k = marks B bpe mp l1 p k || marks B bpe mp l2 p k.
Proof. apply existsb_app. Qed.

Definition loop_post (l : list Z) (off : Z) (w w' : world) : Prop :=
  same_setup w w' /\ bytes (w_dev w') /\ bytes (w_buf w') /\
  marked (- off) (marks B bpe mp l) (w_dev w) (w_dev w').

Lemma loop_post_skip l off w :
  bytes (w_dev w) -> bytes (w_buf w) -> (forall p k, marks B bpe mp l p k = false) -> loop_post l off w w.
Proof.
  intros Hd Hb Hn. split; [done|]. split; [done|]. split; [done|].
  apply (marked_ext _ (fun _ _ => false)); [done | apply marked_refl].
Qed.

Lemma loop_post_seq l1 l2 off w1 w2 w3 :
  loop_post l1 off w1 w2 -> loop_post l2 off w2 w3 -> loop_post (l1 ++ l2) off w1 w3.
Proof.
  intros (Hs & _ & _ & Hm) (Hs' & Hd & Hb & Hm'). split; [by transitivity w2|]. split; [done|]. split; [done|].
  refine (marked_ext _ _ _ _ _ _ (marked_trans _ _ _ _ _ _ Hm Hm')). intros p k _. by rewrite marks_app.
Qed.

(** The next chunk: its read, change and write succeed and mark its extents. *)
Lemma chunk_step enr more additional w :
  let off := cfg_bm_offset (w_cfg w) in
  let base := aligned_4k_x_max_peers_on_disk_pos (br enr) in
  let chunk := chunk_of enr (List.last more enr) in
  rw_area w off (ALIGN B 4096) -> bytes (w_dev w) -> bytes (w_buf w) ->
  StronglySorted Z.le (enr :: more) -> in_u32 enr -> Forall in_u32 more ->
  applied B bpe mp enr = true ->
  Forall (fun x => applied B bpe mp x = true /\
    on_disk_word32_pos_e (br x) < base + buffer_size) more ->
  in_u64 chunk /\ chunk <= buffer_size /\ s64 (off + base) = off + base /\
  exists a w', (pread_or_die 0 chunk (off + base);;
                additional' ← change_bits (enr :: more) bpe mp base chunk additional;
                pwrite_buffer_or_die chunk (off + base);; mret additional') w = (Ok a, w') /\
    loop_post (enr :: more) off w w'.
Proof.
  intros off base chunk Hrw Hd Hb Hs He Hu Happ Hmore.
  assert (Hend : forall x, applied B bpe mp x = true -> on_disk_word32_pos_e (br x) < B).
  { intros x Hx. by apply andb_true_iff in Hx as [_ Hx%negb_true_iff%Z.leb_gt]. }
  destruct (chunk_fits enr more He Hs) as (Hc & Hcb & Hfit).
  { eapply Forall_impl; [exact Hu|]. cbn. unfold in_u32. lia. }
  { by apply Hend. }
  { eapply Forall_impl; [exact Hmore|]. cbn. intros x [Hx Hlt]. split; [by apply Hend | done]. }
  fold base chunk in Hc, Hcb, Hfit.
  pose proof (range_bounds bpe mp Hbpe Hmp enr ltac:(unfold in_u32 in He; lia)) as (Ha & _ & _ & [v Hv] & _).
  fold (br enr) base in Ha, Hv. pose proof Hrw as (H0 & _ & H63 & _). fold off in H0.
  split; [unfold in_u64, buffer_size in *; lia|]. split; [lia|]. split; [apply s64_id; lia|].
  destruct (read_modify_write_run bpe mp Hbpe Hmp w (ALIGN B 4096) base chunk (enr :: more) additional
    Hrw Hd Hb ltac:(exists (v * 1024); lia) (proj1 Ha) Hc Hcb Hfit) as (a & w1 & Hrmw & Hsetup & Hd1 & Hb1 & Hm1).
  exists a, w1. split; [done|]. split; [done|]. split; [done|]. split; [done|].
  refine (marked_ext _ _ _ _ _ _ Hm1). intros p k _. symmetry. apply marks_all.
  constructor; [done|]. by eapply Forall_impl; [exact Hmore|]; cbn; intros ? [? _].
Qed.

Lemma bind3_ret {A C D} (m1 : M unit) (m2 : M A) (m3 : M C) (f : A -> M D) w a w' :
  (m1;; x ← m2; m3;; mret x) w = (Ok a, w') -> (m1;; x ← m2; m3;; f x) w = f a w'.
Proof.
  unfold mbind, M_bind. destruct (m1 w) as [[|?| |] wa]; try done.
  destruct (m2 wa) as [[x|?| |] wb]; try done. destruct (m3 wb) as [[|?| |] wc]; try done.
  intros Hx. by injection Hx as -> ->.
Qed.

Lemma apply_al_loop_run n l i additional w :
  let off := cfg_bm_offset (w_cfg w) in
  (length l <= n)%nat -> rw_area w off (ALIGN B 4096) -> bytes (w_dev w) -> bytes (w_buf w) ->
  StronglySorted Z.le l -> Forall in_u32 l ->
  exists i' a w', apply_al_loop n B bpe mp l i additional w = (Ok (i', a), w') /\ loop_post l off w w'.
Proof.
  revert l i additional w. induction n as [|n IH]; intros l i additional w off Hn Hrw Hd Hb Hs Hu.
  { destruct l; [|cbn in Hn; lia]. exists i, additional, w. split; [done|]. by apply loop_post_skip. }
  destruct l as [|enr l']; [exists i, additional, w; split; [done|]; by apply loop_post_skip|].
  pose proof Hs as Hs'. apply StronglySorted_inv in Hs' as [Hs' _].
  pose proof Hu as Hu'. apply Forall_cons in Hu' as [He Hu']. cbn [apply_al_loop].
  destruct (enr =? UNUSED) eqn:Hne.
  { exists i, additional, w. split; [done|]. apply loop_post_skip; [done | done |]. intros p k. apply marks_none.
    apply Z.eqb_eq in Hne. constructor; [done|]. by apply (sorted_unused enr). }
  destruct (B <=? on_disk_word32_pos_e (enr_to_bit_range enr bpe mp)) eqn:Hend.
  { destruct (IH l' (i + 1) additional w ltac:(cbn in Hn; lia) Hrw Hd Hb Hs' Hu') as (i' & a & w' & Hrun & Hpost).
    exists i', a, w'. split; [done|]. apply (loop_post_seq [enr] l' off w w); [|done].
    apply loop_post_skip; [done | done |]. intros p k. cbn. unfold applied. by rewrite Hend, andb_false_r. }
  destruct (same_chunk _ B bpe mp l') as [more rest] eqn:Hsc. apply same_chunk_split in Hsc as [-> Hmore].
  apply Forall_app in Hu' as [Hum Hur]. rewrite app_comm_cons in Hs. apply sorted_tail in Hs as [Hsm Hsr].
  assert (Happ : applied B bpe mp enr = true) by (unfold applied; by rewrite Hne, Hend).
  destruct (chunk_step enr more additional w Hrw Hd Hb Hsm He Hum Happ Hmore)
    as (Hu64 & Hle & Hoff & a & w1 & Hrmw & Hpost1).
  pose proof Hpost1 as (Hsetup & Hd1 & Hb1 & _). fold off in Hrmw, Hpost1, Hoff.
  destruct (IH rest (i + 1 + Z.of_nat (length more)) a w1) as (i' & a' & w' & Hrun & Hpost);
    [| | done | done | done | done |].
  { rewrite length_cons, length_app in Hn. lia. }
  { replace (cfg_bm_offset (w_cfg w1)) with off by (by rewrite (proj1 Hsetup)). by apply (rw_area_setup w). }
  rewrite (proj1 Hsetup) in Hpost. fold off in Hpost.
  exists i', a', w'. split; [|rewrite app_comm_cons; by apply (loop_post_seq _ _ _ w w1)].
  cbv zeta. fold (br enr) (br (List.last more enr)). fold (chunk_of enr (List.last more enr)).
  rewrite (u64_id _ Hu64), bind_ASSERT, (proj2 (Z.leb_le _ _) Hle), bind_cfg. fold off. rewrite Hoff.
  by rewrite (bind3_ret _ _ _ _ _ _ _ Hrmw).
Qed.
End loop.

(** ** Theorems *)

Lemma bits_per_extent_ok md k :
  block_size md k -> extent_bits (bits_per_extent_of md) /\
  (4 <=? bits_per_extent_of md) && (bits_per_extent_of md <=? 1024) &&
    is_power_of_2 (bits_per_extent_of md) = true.
Proof.
  intros [Hk Hb]. unfold bits_per_extent_of. rewrite Hb, ilog2_pow2, Z.shiftl_1_l by lia.
  assert (Hx : extent_bits (2 ^ (AL_EXTENT_SHIFT - k))) by (exists (22 - k); split; [lia | done]).
  split; [done|]. pose proof (bpe_range _ Hx) as Hr. rewrite !andb_true_iff, !Z.leb_le.
  split; [done|]. apply is_power_of_2_spec; [unfold in_u64; lia|]. exists (22 - k). split; [lia | done].
Qed.

(** C1: [apply_al] marks in the slot of every peer the bits of the hot extents
    of the sorted list, as far as they lie before the end of the bitmap, and
    changes no other bit of the device.  It neither fails an assertion nor runs
    out of its buffer, whatever the number of extents, the number of peers and
    the granularity. *)
Theorem apply_al_marks_hot_extents `{DrbdHeadersOk} w l k :
  let c := w_cfg w in
  let bytes_on_disk := ALIGN (cfg_bm_bytes c) (md_hard_sect_size c) in
  block_size (cfg_md c) k -> 1 <= max_peers (cfg_md c) <= DRBD_PEERS_MAX ->
  0 <= bytes_on_disk < 2 ^ 63 -> rw_area w (cfg_bm_offset c) (ALIGN bytes_on_disk 4096) ->
  bytes (w_dev w) -> bytes (w_buf w) -> StronglySorted Z.le l -> Forall in_u32 l ->
  exists r w', apply_al l w = (Ok r, w') /\ same_setup w w' /\
    forall i b, 0 <= b < 8 ->
      Z.testbit (w_dev w' i) b =
      Z.testbit (w_dev w i) b ||
      existsb (fun enr =>
          negb (enr =? UNUSED) &&
          negb (bytes_on_disk <=? on_disk_word32_pos_e
                  (enr_to_bit_range enr (bits_per_extent_of (cfg_md c)) (max_peers (cfg_md c)))) &&
          in_extent (bits_per_extent_of (cfg_md c)) enr
            (slot_bit (max_peers (cfg_md c)) (i - cfg_bm_offset c) b)) l.
Proof.
  intros c B Hk Hmp HB Hrw Hd Hb Hs Hu. pose proof peers_max.
  destruct (bits_per_extent_ok _ _ Hk) as [Hbpe Hass].
  destruct (apply_al_loop_run (bits_per_extent_of (cfg_md c)) (max_peers (cfg_md c)) B Hbpe ltac:(lia) HB
    (length l) l 0 0 w (le_n _) Hrw Hd Hb Hs Hu) as (i' & a & w' & Hrun & Hsetup & _ & _ & Hm).
  eexists _, w'. split; [|split; [exact Hsetup|]].
  - unfold apply_al. rewrite bind_cfg, bind_ASSERT. fold c. rewrite Hass, bind_ASSERT.
    assert ((1 <=? max_peers (cfg_md c)) && (max_peers (cfg_md c) <=? DRBD_PEERS_MAX) = true) as ->
      by (apply andb_true_iff; rewrite !Z.leb_le; done).
    fold B. by rewrite (bind_ok _ _ _ _ _ Hrun).
  - intros i b Hbit. rewrite (Hm i b Hbit). replace (- cfg_bm_offset (w_cfg w) + i) with (i - cfg_bm_offset c)
      by (unfold c; lia). reflexivity.
Qed.

(** Three peers, 16 bits for an extent: extents 0, 3, 5 (in the second word) and
    1000, which is beyond the end of the bitmap. *)
Definition example_apply_md : md_cpu :=
  mk_md_cpu [0; 0; 0; 0; 0] DRBD_MD_MAGIC_09 0 80 8 0 72 0 (replicate 32 0) 0 0 (2 ^ 18) 0 3 0
    (replicate 32 zero_peer) 1 8 0.

Definition example_apply_world : world :=
  mk_world (mk_format DRBD_V09 "/dev/sdx" 0 512 DRBD_MD_INDEX_FLEX_EXT 4096 0 false false
              example_apply_md 0 4096 36864 0 0 0 40960 0 (mk_bdev_info 0 0 None))
    (default_options apply_al_cmd) (blank_env 40960) zero_mem zero_mem None [] [] [] 0 0.

Lemma apply_al_marks_hot_extents_witness :
  exists r w', apply_al [0; 3; 5; 1000; UNUSED] example_apply_world = (Ok r, w') /\
    same_setup example_apply_world w' /\
    (forall i b, 0 <= b < 8 ->
      Z.testbit (w_dev w' i) b =
      Z.testbit 0 b ||
      existsb (fun enr =>
          negb (enr =? UNUSED) &&
          negb (ALIGN 4096 512 <=? on_disk_word32_pos_e (enr_to_bit_range enr 16 3)) &&
          in_extent 16 enr (slot_bit 3 (i - 36864) b)) [0; 3; 5; 1000; UNUSED]).
Proof.
  apply (apply_al_marks_hot_extents example_apply_world [0; 3; 5; 1000; UNUSED] 18).
  - by split.
  - by split.
  - by split.
  - apply rw_area_intro; vm_compute; repeat split; congruence.
  - intros i. by split.
  - intros i. by split.
  - repeat constructor; vm_compute; congruence.
  - repeat constructor; vm_compute; congruence.
Defined.

(** An extent that ends where the bitmap ends is taken for one beyond it:
    128 MiB with one peer and 4 KiB per bit need 4096 bytes of bitmap, the last
    extent has the last 128 of them, and it is not applied. *)
Lemma apply_al_skips_last_extent md :
  bm_bytes_per_bit md = 4096 -> max_peers md = 1 ->
  bm_bytes_of md (128 * 2048) = 4096 /\
  bits_per_extent_of md = 1024 /\
  slot_bit 1 4095 7 = 128 * 2048 / 8 - 1 /\
  in_extent 1024 31 (slot_bit 1 4095 7) = true /\
  applied 4096 1024 1 31 = false.
Proof.
  intros Hb Hp. unfold bits_per_extent_of, bm_bytes_of. rewrite Hb, Hp. repeat split; reflexivity.
Qed.
