(* ===== verification/OpenMd.v ===== *)
(** * Opening the meta data device

    Opening the device, finding the super block and reading it; writing it back;
    closing (the [open], [close], [md_disk_to_cpu] and [md_cpu_to_disk] operations
    of the formats, and the search at the last-known location). *)

From S2P Require Import Prelude Machine Headers SharedTool MetaData OnDisk Layout.
From stdpp Require Import strings.

#[local] Open Scope Z_scope.

(** ** The device *)

Definition cancelled {A} : M A := printf ("Operation canceled." +:+ nl);; exit 20.

(** [open] is tried without O_EXCL after EBUSY if the user agrees, and without
    O_DIRECT after EINVAL; [errs] are the errors the attempts meet. *)
Fixpoint open_retry (errs : list bool) (o_excl o_direct : bool) : M unit :=
  match errs with
  | [] => e ← env; if dev_open_ok e then mret () else exit 20
  | true :: errs' =>
      if o_excl then
        o ← opt;
        if negb (force o) && is_apply_al_cmd o then cancelled
        else
          yes ← confirmed;
          if (yes : bool) then open_retry errs' false o_direct else cancelled
      else exit 20
  | false :: errs' => if o_direct then open_retry errs' o_excl false else exit 20
  end.

Definition v07_style_md_open_device `{DrbdHeaders} : M Z :=
  c ← cfg;
  e ← env;
  open_retry (dev_open_errors e) (md_index c <? 0) true;;
  (if dev_fstat_ok e then mret () else exit 20);;
  o ← opt;
  (if negb (dev_is_blk e) then
     if negb (force o) then exit 20 else upd_cfg (fun c => c <| cfg_bd_size := dev_size e |>)
   else mret ());;
  c ← cfg;
  ASSERT (version_lt c DRBD_V08 || negb (md_index c =? DRBD_MD_INDEX_INTERNAL));;
  upd_cfg (fun c => c <| md_hard_sect_size := default 512 (dev_sector_size e) |>);;
  c ← cfg;
  (if cfg_bd_size c =? 0 then
     if dev_is_blk e then upd_cfg (fun c => c <| cfg_bd_size := dev_size e |>)
     else exit 20 (* BLKGETSIZE64 of a regular file *)
   else mret ());;
  mret 0.

(** ** Reading and writing the super block

    [cfg->ops->md_disk_to_cpu]: 0, or -1 if there is no valid super block, in
    which case the configuration is unchanged (v06 keeps what it read). *)

Definition v06_md_disk_to_cpu `{DrbdHeaders} : M Z :=
  c ← cfg;
  pread_or_die 0 sizeof_md_on_disk_06 (s64 (md_offset c));;
  b ← gets w_buf;
  upd_md (fun _ => md_disk_06_to_cpu b 0);;
  c ← cfg;
  mret (if v06_validate_md c then 0 else -1).

Definition v06_md_cpu_to_disk `{DrbdHeaders} : M Z :=
  c ← cfg;
  if negb (v06_validate_md c) then mret (-1)
  else
    upd_buf (fun b => md_cpu_to_disk_06 b (cfg_md c));;
    pwrite_buffer_or_die sizeof_md_on_disk_06 (s64 (md_offset c));;
    mret 0.

(** The common part of 0.7, 8 and 9. *)
Definition read_super_block `{DrbdHeaders} (f : md_format) (size : Z) (disk_to_cpu : mem -> Z -> md_cpu) : M Z :=
  c ← cfg;
  pread_or_die 0 size (s64 (md_offset c));;
  b ← gets w_buf;
  let md := disk_to_cpu b 0 in
  ok ← is_valid_md f md (md_index c) (cfg_bd_size c);
  if (ok : bool) then upd_md (fun _ => md);; mret 0 else mret (-1).

Definition write_super_block `{DrbdHeaders} (f : md_format) (size : Z) (cpu_to_disk : mem -> md_cpu -> mem)
    (update_lk : bool) : M Z :=
  c ← cfg;
  ok ← is_valid_md f (cfg_md c) (md_index c) (cfg_bd_size c);
  if negb ok then mret (-1)
  else
    upd_buf (fun b => cpu_to_disk b (cfg_md c));;
    pwrite_buffer_or_die size (s64 (md_offset c));;
    (if update_lk then upd_cfg (fun c => c <| update_lk_bdev := true |>) else mret ());;
    mret 0.

Definition v07_md_disk_to_cpu `{DrbdHeaders} : M Z :=
  read_super_block DRBD_V07 sizeof_md_on_disk_07 md_disk_07_to_cpu.
Definition v07_md_cpu_to_disk `{DrbdHeaders} : M Z :=
  write_super_block DRBD_V07 sizeof_md_on_disk_07 md_cpu_to_disk_07 false.
Definition v08_md_disk_to_cpu `{DrbdHeaders} : M Z :=
  read_super_block DRBD_V08 sizeof_md_on_disk_08 md_disk_08_to_cpu.
Definition v08_md_cpu_to_disk `{DrbdHeaders} : M Z :=
  write_super_block DRBD_V08 sizeof_md_on_disk_08 md_cpu_to_disk_08 true.
Definition v09_md_disk_to_cpu `{DrbdHeaders} : M Z :=
  read_super_block DRBD_V09 sizeof_meta_data_on_disk_9 md_disk_09_to_cpu.
Definition v09_md_cpu_to_disk `{DrbdHeaders} : M Z :=
  write_super_block DRBD_V09 sizeof_meta_data_on_disk_9 md_cpu_to_disk_09 true.

Definition md_disk_to_cpu `{DrbdHeaders} : M Z :=
  c ← cfg;
  match ops c with
  | DRBD_V06 => v06_md_disk_to_cpu
  | DRBD_V07 => v07_md_disk_to_cpu
  | DRBD_V08 => v08_md_disk_to_cpu
  | DRBD_V09 => v09_md_disk_to_cpu
  | DRBD_UNKNOWN => fault
  end.

Definition md_cpu_to_disk `{DrbdHeaders} : M Z :=
  c ← cfg;
  match ops c with
  | DRBD_V06 => v06_md_cpu_to_disk
  | DRBD_V07 => v07_md_cpu_to_disk
  | DRBD_V08 => v08_md_cpu_to_disk
  | DRBD_V09 => v09_md_cpu_to_disk
  | DRBD_UNKNOWN => fault
  end.

(** ** Opening *)

(** A plain file; each failure is reported as missing meta data. *)
Definition v06_md_open `{DrbdHeaders} : M md_open_rc :=
  e ← env;
  match dev_open_errors e with
  | _ :: _ => mret NO_VALID_MD_FOUND
  | [] =>
      if negb (dev_open_ok e) || negb (dev_fstat_ok e) || dev_is_blk e then mret NO_VALID_MD_FOUND
      else
        rc ← md_disk_to_cpu;
        mret (if negb (rc =? 0) then NO_VALID_MD_FOUND else VALID_MD_FOUND)
  end.

Definition v07_style_md_open `{DrbdHeaders} : M md_open_rc :=
  rc ← v07_style_md_open_device;
  if rc <? 0 then exit 20
  else
    c ← cfg;
    if cfg_bd_size c <? SO_MUCH then exit 10
    else
      upd_cfg (fun c => c <| md_offset := v07_style_md_get_byte_offset (md_index c) (cfg_bd_size c) |>);;
      c ← cfg;
      if u64 (cfg_bd_size c - 4096) <? md_offset c then exit 10
      else
        rc ← md_disk_to_cpu;
        if negb (rc =? 0) then mret NO_VALID_MD_FOUND
        else
          upd_cfg (fun c => c
            <| cfg_al_offset := at_sectors (md_offset c) (al_offset (cfg_md c)) |>
            <| cfg_bm_offset := at_sectors (md_offset c) (bm_offset (cfg_md c)) |>);;
          usable ← max_usable_sectors;
          upd_cfg (fun c => c <| max_usable_sect := usable |>);;
          clip_effective_size_and_bm_bytes;;
          upd_cfg (fun c => c <| bits_set := u32 (-1) |>);;
          mret VALID_MD_FOUND.

(** The super block at the last-known location, if it is valid there and, unless
    --force, has the last-known device UUID. *)
Definition v08_check_for_resize `{DrbdHeaders} : M unit :=
  c ← cfg;
  ASSERT (magic (cfg_md c) =? 0);;
  if version_lt c DRBD_V08 then mret ()
  else if negb (md_index c =? DRBD_MD_INDEX_FLEX_INT) then mret ()
  else
    lk ← lk_bdev_load_file;
    match lk with
    | None => mret ()
    | Some lk =>
        upd_cfg (fun c => c <| lk_bd := lk |>);;
        if bd_size lk =? cfg_bd_size c then mret ()
        else
          let flex_offset := s64 (v07_style_md_get_byte_offset DRBD_MD_INDEX_FLEX_INT (bd_size lk)) in
          if u64 flex_offset <? cfg_bd_size c then
            pread_or_die 4096 4096 flex_offset;;
            b ← gets w_buf;
            let md_test := if is_v08 c then md_disk_08_to_cpu b 4096 else md_disk_09_to_cpu b 4096 in
            found ← is_valid_md (if is_v08 c then DRBD_V08 else DRBD_V09) md_test
                      DRBD_MD_INDEX_FLEX_INT (bd_size lk);
            if negb found then mret ()
            else
              o ← opt;
              if negb (bd_uuid lk =? 0) && negb (device_uuid md_test =? bd_uuid lk) then
                if negb (force o) then mret ()
                else
                  when (force o && quiet o)
                    (modify (fun w => w <| quiet_suppressed := quiet_suppressed w + 1 |>));;
                  upd_md (fun _ => md_test)
              else upd_md (fun _ => md_test)
          else mret ()
    end.

Definition v08_md_open `{DrbdHeaders} : M md_open_rc :=
  r ← v07_style_md_open;
  match r with
  | VALID_MD_FOUND => mret VALID_MD_FOUND
  | _ =>
      v08_check_for_resize;;
      c ← cfg;
      mret (if (bd_size (lk_bd c) =? 0) || (magic (cfg_md c) =? 0) then NO_VALID_MD_FOUND
            else VALID_MD_FOUND_AT_LAST_KNOWN_LOCATION)
  end.

Definition v08_md_close `{DrbdHeaders} : M Z :=
  c ← cfg;
  o ← opt;
  when (update_lk_bdev c && negb (dry_run o))
    (if negb (md_index c =? DRBD_MD_INDEX_FLEX_INT) then lk_bdev_delete
     else
       upd_cfg (fun c => c <| lk_bd := mk_bdev_info (cfg_bd_size c) (device_uuid (cfg_md c))
                                         (Some (md_device_name c)) |>);;
       c ← cfg;
       lk_bdev_save_file (lk_bd c));;
  generic_md_close.

(** [cfg->ops->open] and [cfg->ops->close] *)
Definition md_open `{DrbdHeaders} : M md_open_rc :=
  c ← cfg;
  match ops c with
  | DRBD_V06 => v06_md_open
  | DRBD_V07 => v07_style_md_open
  | DRBD_V08 | DRBD_V09 => v08_md_open
  | DRBD_UNKNOWN => fault
  end.

Definition md_close `{DrbdHeaders} : M Z :=
  c ← cfg;
  match ops c with
  | DRBD_V06 | DRBD_V07 => generic_md_close
  | DRBD_V08 | DRBD_V09 => v08_md_close
  | DRBD_UNKNOWN => fault
  end.

(** The value C gives to the result of [open]. *)
Definition rc_nr (r : md_open_rc) : Z :=
  match r with
  | VALID_MD_FOUND => 0
  | NO_VALID_MD_FOUND => -1
  | VALID_MD_FOUND_AT_LAST_KNOWN_LOCATION => -2
  end.
