(* ===== verification/SuperBlock.v ===== *)
(** * The super block as a stored value

    What the formats promise to the commands: a super block on disk is a value of
    type [md_cpu] that can be stored and loaded.  The class [SuperBlockFormat]
    states what an encoding must satisfy for that; 0.7, 8 and 9 are its instances.
    The abstract specification is a pair of the stored and the current value
    ([medium]); [super_block_refines] shows that any sequence of loads, changes
    and stores on the device behaves as it says. *)

From S2P Require Import Prelude Machine Headers SharedTool MetaData OnDisk Layout OpenMd.
From Stdlib Require Import FunctionalExtensionality.

(** ** Encodings *)

(** [stored] is the meta data that the format can represent. *)
Class SuperBlockFormat (size : Z) (decode : mem -> Z -> md_cpu) (encode : mem -> md_cpu -> mem)
    (stored : md_cpu -> Prop) := {
  sb_size : 0 < size <= 4096;
  sb_back m md : stored md -> decode (encode m md) 0 = md;
  sb_inside m1 m2 md i : 0 <= i < size -> encode m1 md i = encode m2 md i;
  sb_outside m md i : ~ (0 <= i < size) -> encode m md i = m i
}.

Lemma store_fields_inside size l m i :
  stores_ok size l -> ~ (0 <= i < size) -> store_fields l m i = m i.
Proof.
  intros Hok Hi. apply store_fields_other. intros f Hf.
  destruct (layout_ok_in _ _ f.1 Hok); [by apply list_elem_of_fmap_2 | lia].
Qed.

Section formats.
Context `{DrbdHeadersOk}.

#[export] Instance super_block_07 :
  SuperBlockFormat sizeof_md_on_disk_07 md_disk_07_to_cpu md_cpu_to_disk_07 md_v07.
Proof.
  split; [done | by intros; apply md_07_back | |].
  - intros m1 m2 md i Hi. unfold md_cpu_to_disk_07, memset. case_range; [done|]. apply store_fields_indep.
    assert (Hc : forallb (covered (md_stores_07 md).*1) (upto 48) = true) by reflexivity.
    rewrite forallb_forall in Hc. apply Hc, list_elem_of_In, elem_upto. unfold sizeof_md_on_disk_07 in Hi. lia.
  - intros m md i Hi. unfold sizeof_md_on_disk_07, md_cpu_to_disk_07, memset in *. case_range; [lia|].
    apply (store_fields_inside 48); [reflexivity | lia].
Qed.

#[export] Instance super_block_08 :
  SuperBlockFormat sizeof_md_on_disk_08 md_disk_08_to_cpu md_cpu_to_disk_08 md_v08.
Proof.
  split; [done | by intros; apply md_08_back | |]; unfold sizeof_md_on_disk_08.
  - intros m1 m2 md i Hi. apply store_fields_ext. unfold memset, sizeof_md_on_disk_08. case_range; [done | lia].
  - intros m md i Hi. unfold md_cpu_to_disk_08.
    rewrite (store_fields_inside 4096) by (done || apply stores_08_ok).
    unfold memset, sizeof_md_on_disk_08. case_range; [lia | done].
Qed.

#[export] Instance super_block_09 :
  SuperBlockFormat sizeof_meta_data_on_disk_9 md_disk_09_to_cpu md_cpu_to_disk_09 md_v09.
Proof.
  split; [done | by intros; apply md_09_back | |]; unfold sizeof_meta_data_on_disk_9.
  - intros m1 m2 md i Hi. apply store_fields_ext. unfold memset, sizeof_meta_data_on_disk_9.
    case_range; [done | lia].
  - intros m md i Hi. unfold md_cpu_to_disk_09.
    rewrite (store_fields_inside 4096) by (done || apply stores_09_ok).
    unfold memset, sizeof_meta_data_on_disk_9. case_range; [lia | done].
Qed.
End formats.

(** The encodings by the format of the configuration. *)
Definition decode_of `{DrbdHeaders} (f : md_format) : mem -> Z -> md_cpu :=
  match f with
  | DRBD_V07 => md_disk_07_to_cpu
  | DRBD_V08 => md_disk_08_to_cpu
  | _ => md_disk_09_to_cpu
  end.

Definition encode_of `{DrbdHeaders} (f : md_format) : mem -> md_cpu -> mem :=
  match f with
  | DRBD_V07 => md_cpu_to_disk_07
  | DRBD_V08 => md_cpu_to_disk_08
  | _ => md_cpu_to_disk_09
  end.

Definition storable `{DrbdHeaders} (f : md_format) : md_cpu -> Prop :=
  match f with
  | DRBD_V07 => md_v07
  | DRBD_V08 => md_v08
  | _ => md_v09
  end.

Definition super_block_format (f : md_format) : Prop := f = DRBD_V07 \/ f = DRBD_V08 \/ f = DRBD_V09.

#[export] Instance super_block_of `{DrbdHeadersOk} f :
  SuperBlockFormat 4096 (decode_of f) (encode_of f) (storable f).
Proof.
  destruct f; cbn [decode_of encode_of storable];
    [exact super_block_09 | exact super_block_07 | exact super_block_08 | exact super_block_09..].
Qed.

(** A buffer that holds an encoding is the encoding. *)
Section encoded.
Context {size : Z} {decode : mem -> Z -> md_cpu} {encode : mem -> md_cpu -> mem} {stored : md_cpu -> Prop}.
Context `{!SuperBlockFormat size decode encode stored}.

Lemma encoded_buffer b m md : (forall i, 0 <= i < size -> b i = encode m md i) -> b = encode b md.
Proof.
  intros Hb. extensionality i. destruct (decide (0 <= i < size)).
  - rewrite Hb by done. by apply sb_inside.
  - symmetry. by apply sb_outside.
Qed.

Lemma encoded_back b m md :
  stored md -> (forall i, 0 <= i < size -> b i = encode m md i) -> decode b 0 = md.
Proof. intros Hs Hb. rewrite (encoded_buffer _ _ _ Hb). by apply sb_back. Qed.
End encoded.

(** ** What is read from disk *)

Lemma in_u32_0 : in_u32 0. Proof. done. Qed.
Lemma in_u64_0 : in_u64 0. Proof. done. Qed.
Lemma in_s32_0 : in_s32 0. Proof. done. Qed.

Create HintDb md_range.
#[local] Hint Resolve be32_at_range be64_at_range s32_range u32_range u64_range in_u32_0 in_u64_0 in_s32_0 : md_range.

Lemma arr_u32_read f n : 0 <= n -> (forall i, in_u32 (f i)) -> arr_u32 n (f <$> upto n).
Proof.
  intros Hn Hf. split; [by rewrite length_fmap, length_upto|]. by apply Forall_fmap, Forall_true.
Qed.

Lemma arr_u64_read f n : 0 <= n -> (forall i, in_u64 (f i)) -> arr_u64 n (f <$> upto n).
Proof.
  intros Hn Hf. split; [by rewrite length_fmap, length_upto|]. by apply Forall_fmap, Forall_true.
Qed.

Lemma peers_wf_set `{DrbdHeaders} (l : list peer_md_cpu) n :
  Forall peer_wf l -> length l = Z.to_nat n -> n <= DRBD_PEERS_MAX -> 0 <= n ->
  length (l ++ drop (Z.to_nat n) (peers zero_md)) = Z.to_nat DRBD_PEERS_MAX /\
  Forall peer_wf (l ++ drop (Z.to_nat n) (peers zero_md)).
Proof.
  intros Hl Hlen Hn Hn0. destruct (wf_peers _ zero_md_wf) as [Hz Hw]. split.
  - rewrite length_app, length_drop, Hz. lia.
  - apply Forall_app. split; [done | by apply Forall_drop].
Qed.

Lemma decoded_09_wf `{DrbdHeadersOk} b a : md_v09 (md_disk_09_to_cpu b a).
Proof.
  pose proof node_id_max as Hn. pose proof peers_max as Hp.
  split; [|split; [done|split]].
  - split; cbn [md_disk_09_to_cpu gc magic effective_size md_size_sect al_offset al_nr_extents bm_offset current_uuid
      history_uuids flags device_uuid bm_bytes_per_bit la_peer_max_bio_size max_peers node_id peers al_stripes
      al_stripe_size_4k members]; auto with md_range.
    + apply (wf_gc _ zero_md_wf).
    + apply arr_u64_read; [done | auto with md_range].
    + case_match; [unfold in_u32; lia | auto with md_range].
    + apply peers_wf_set; [|by rewrite length_fmap, length_upto | lia..].
      apply Forall_fmap, Forall_true. intros p. split; cbn; auto with md_range.
  - cbn [md_disk_09_to_cpu max_peers]. case_match eqn:E; lia.
  - cbn [md_disk_09_to_cpu peers]. rewrite drop_app_length'; [done | by rewrite length_fmap, length_upto].
Qed.

Lemma decoded_08_wf `{DrbdHeadersOk} b a : md_v08 (md_disk_08_to_cpu b a).
Proof.
  pose proof peers_max as Hp. destruct (wf_peers _ zero_md_wf) as [Hz Hw].
  split; [|split_and!; try done].
  - split; cbn [md_disk_08_to_cpu gc magic effective_size md_size_sect al_offset al_nr_extents bm_offset current_uuid
      history_uuids flags device_uuid bm_bytes_per_bit la_peer_max_bio_size max_peers node_id peers al_stripes
      al_stripe_size_4k members]; auto with md_range.
    + apply (wf_gc _ zero_md_wf).
    + destruct (wf_history_uuids _ zero_md_wf) as [Hh Hhw]. split.
      * by rewrite length_app, length_drop, length_fmap, length_upto, Hh.
      * apply Forall_app. split; [apply Forall_fmap, Forall_true; auto with md_range | by apply Forall_drop].
    + done.
    + split; [by rewrite length_zinsert|]. apply Forall_insert; [done|]. split; cbn; auto with md_range.
    + case_match; [done | auto with md_range].
    + case_match; [done | auto with md_range].
  - unfold peer_at. cbn [md_disk_08_to_cpu peers]. rewrite zlookup_zinsert by (rewrite Hz; lia).
    cbn [from_option bitmap_uuid].
    generalize (be64_at b (a + d8_uuid UI_BITMAP)). intros u. vm_compute. reflexivity.
  - cbn [md_disk_08_to_cpu al_stripes al_stripe_size_4k].
    case_match eqn:E; [done | exact E].
Qed.

Lemma double_even x : u64 (Z.shiftl x 1) mod 2 = 0 /\ u32 (Z.shiftl x 1) mod 2 = 0.
Proof.
  rewrite Z.shiftl_mul_pow2 by lia. change (2 ^ 1) with 2. unfold u64, u32.
  split.
  - rewrite (Z.mod_mod_divide _ (2 ^ 64) 2) by (by exists (2 ^ 63)). by apply Z.mod_mul.
  - rewrite (Z.mod_mod_divide _ (2 ^ 32) 2) by (by exists (2 ^ 31)). by apply Z.mod_mul.
Qed.

(** The record of 0.7 is determined by what the format stores. *)
Lemma canonical_07 `{DrbdHeaders} md :
  current_uuid md = 0 -> history_uuids md = history_uuids zero_md -> flags md = 0 -> device_uuid md = 0 ->
  bm_bytes_per_bit md = BM_BLOCK_SIZE_4k -> la_peer_max_bio_size md = 0 -> max_peers md = 1 -> node_id md = 0 ->
  peers md = peers zero_md -> al_stripes md = 1 -> al_stripe_size_4k md = 8 -> members md = 0 ->
  md = zero_md <| effective_size := effective_size md |> <| gc := gc md |>
         <| magic := magic md |> <| md_size_sect := md_size_sect md |>
         <| al_offset := al_offset md |> <| al_nr_extents := al_nr_extents md |>
         <| bm_offset := bm_offset md |> <| bm_bytes_per_bit := BM_BLOCK_SIZE_4k |>
         <| max_peers := 1 |> <| al_stripes := 1 |> <| al_stripe_size_4k := 8 |>.
Proof. destruct md. unfold zero_md. cbn. intros. subst. reflexivity. Qed.

Lemma decoded_07_wf `{DrbdHeadersOk} b a : md_v07 (md_disk_07_to_cpu b a).
Proof.
  pose proof block_sizes as (Hb & _). split; [|split; [|split; [|by apply canonical_07]]].
  - split; cbn [md_disk_07_to_cpu gc magic effective_size md_size_sect al_offset al_nr_extents bm_offset current_uuid
      history_uuids flags device_uuid bm_bytes_per_bit la_peer_max_bio_size max_peers node_id peers al_stripes
      al_stripe_size_4k members]; auto with md_range.
    + apply arr_u32_read; [done | auto with md_range].
    + apply (wf_history_uuids _ zero_md_wf).
    + by rewrite Hb.
    + done.
    + apply (wf_peers _ zero_md_wf).
    + done.
    + done.
  - apply double_even.
  - apply double_even.
Qed.

Lemma decoded_06_wf `{DrbdHeadersOk} b a : md_v06 (md_disk_06_to_cpu b a).
Proof.
  split; [|done]. pose proof zero_md_wf as []. split; try done; cbn; auto with md_range.
  apply arr_u32_read; [done | auto with md_range].
Qed.

(** Operations whose result depends on their arguments alone, and that change
    nothing. *)
Definition constant {A} (m : M A) : Prop := exists r, forall w, m w = (r, w).

Lemma constant_ret {A} (a : A) : constant (mret a : M A).
Proof. by exists (Ok a). Qed.

Lemma constant_ASSERT b : constant (ASSERT b).
Proof. exists (if b then Ok () else Abort). intros w. by destruct b. Qed.

Lemma constant_bind {A B} (m : M A) (k : A -> M B) : constant m -> (forall a, constant (k a)) -> constant (m ≫= k).
Proof.
  intros [r Hm] Hk. unfold constant, mbind, M_bind. destruct r as [a|c| |].
  - destruct (Hk a) as [r Hr]. exists r. intros w. by rewrite Hm.
  - exists (Exit c). intros w. by rewrite Hm.
  - exists Abort. intros w. by rewrite Hm.
  - exists Fault. intros w. by rewrite Hm.
Qed.

(** The check of a super block is one. *)
Lemma is_valid_md_constant `{DrbdHeaders} f md idx size : constant (is_valid_md f md idx size).
Proof.
  unfold is_valid_md, bm_bytes.
  repeat lazymatch goal with
    | |- constant (if ?b then _ else _) => destruct b
    | |- constant (mbind _ _) => apply constant_bind; [|intros ?]
    | |- constant (ASSERT _) => apply constant_ASSERT
    | |- constant (let _ := _ in _) => cbv zeta
    | |- constant (mret _) => apply constant_ret
    end.
Qed.

(** ** The abstract specification *)

(** What is on disk, if it is valid, and the working copy. *)
Record medium := mk_medium {
  on_disk : option md_cpu;
  current : md_cpu
}.

Inductive request :=
  | Load
  | Store
  | Change (g : md_cpu -> md_cpu).

(** 0 for success, -1 if there is no valid super block to load or to store. *)
Definition spec (valid : md_cpu -> bool) (r : request) (s : medium) : Z * medium :=
  match r with
  | Load =>
      match on_disk s with
      | Some md => (0, mk_medium (Some md) md)
      | None => (-1, s)
      end
  | Store => if valid (current s) then (0, mk_medium (Some (current s)) (current s)) else (-1, s)
  | Change g => (0, mk_medium (on_disk s) (g (current s)))
  end.

Fixpoint spec_all (valid : md_cpu -> bool) (l : list request) (s : medium) : list Z * medium :=
  match l with
  | [] => ([], s)
  | r :: l' =>
      let '(z, s1) := spec valid r s in
      let '(zs, s2) := spec_all valid l' s1 in (z :: zs, s2)
  end.

(** ** The implementation *)

Definition serve `{DrbdHeaders} (r : request) : M Z :=
  match r with
  | Load => md_disk_to_cpu
  | Store => md_cpu_to_disk
  | Change g => upd_md g;; mret 0
  end.

Fixpoint serve_all `{DrbdHeaders} (l : list request) : M (list Z) :=
  match l with
  | [] => mret []
  | r :: l' => z ← serve r; zs ← serve_all l'; mret (z :: zs)
  end.

(** ** Refinement *)

Section refinement.
Context `{DrbdHeadersOk} (w0 : world).
Let c0 := w_cfg w0.
Let off := s64 (md_offset c0).
Let f := ops c0.
Hypothesis Hf : super_block_format f.
Hypothesis Hoff : 0 <= off /\ off + 4096 <= dev_size (w_env w0).

(** The check at the place of this configuration. *)
Definition check_md (md : md_cpu) : M bool := is_valid_md f md (md_index c0) (cfg_bd_size c0).

Definition valid_here (md : md_cpu) : bool :=
  match (check_md md w0).1 with Ok b => b | _ => false end.

(** The configuration with another working copy. *)
Definition cfg_with (md : md_cpu) (u : bool) : format := c0 <| cfg_md := md |> <| update_lk_bdev := u |>.

(** [b] starts with what is on the device at the place of the super block. *)
Definition super_block_in (w : world) (b : mem) : Prop := forall i, 0 <= i < 4096 -> b i = w_dev w (off + i).

Definition represents (w : world) (s : medium) : Prop :=
  w_env w = w_env w0 /\ w_opt w = w_opt w0 /\
  (exists u, w_cfg w = cfg_with (current s) u) /\
  match on_disk s with
  | Some md => check_md md w0 = (Ok true, w0) /\ forall b, super_block_in w b -> decode_of f b 0 = md
  | None => forall b, super_block_in w b -> check_md (decode_of f b 0) w0 = (Ok false, w0)
  end.

(** A store needs meta data that can be checked and, if they are valid, encoded
    and written. *)
Definition ready (r : request) (s : medium) : Prop :=
  match r with
  | Store =>
      check_md (current s) w0 = (Ok (valid_here (current s)), w0) /\
      (valid_here (current s) = true ->
       storable f (current s) /\ rw_area (set_cfg (cfg_with (current s) false) w0) off 4096)
  | _ => True
  end.

Fixpoint all_ready (l : list request) (s : medium) : Prop :=
  match l with
  | [] => True
  | r :: l' => ready r s /\ all_ready l' (spec valid_here r s).2
  end.

Lemma check_md_result md w r : (check_md md w).1 = r -> check_md md w = (r, w).
Proof.
  destruct (is_valid_md_constant f md (md_index c0) (cfg_bd_size c0)) as [r' Hr'].
  unfold check_md. rewrite !Hr'. by intros <-.
Qed.

Lemma check_md_here md b w : check_md md w0 = (Ok b, w0) -> check_md md w = (Ok b, w).
Proof.
  destruct (is_valid_md_constant f md (md_index c0) (cfg_bd_size c0)) as [r Hr].
  unfold check_md. rewrite !Hr. congruence.
Qed.

Lemma md_disk_to_cpu_format w : ops (w_cfg w) = f -> md_disk_to_cpu w = read_super_block f 4096 (decode_of f) w.
Proof.
  intros Ho. unfold md_disk_to_cpu. rewrite bind_cfg, Ho.
  destruct Hf as [-> |[-> | ->]]; reflexivity.
Qed.

Lemma md_cpu_to_disk_format w :
  ops (w_cfg w) = f -> exists u, md_cpu_to_disk w = write_super_block f 4096 (encode_of f) u w.
Proof.
  intros Ho. unfold md_cpu_to_disk. rewrite bind_cfg, Ho.
  destruct Hf as [-> |[-> | ->]]; eexists; reflexivity.
Qed.

(** Related worlds, and what is left as it was. *)
Definition simulates (r : res Z * world) (w : world) (z : Z) (s : medium) : Prop :=
  exists w', r = (Ok z, w') /\ represents w' s /\ same_dev_outside off (off + 4096) w w'.

Lemma w_cfg_md w s : represents w s -> cfg_md (w_cfg w) = current s /\ ops (w_cfg w) = f /\
  md_offset (w_cfg w) = md_offset c0 /\ md_index (w_cfg w) = md_index c0 /\ cfg_bd_size (w_cfg w) = cfg_bd_size c0.
Proof. intros (_ & _ & [u ->] & _). done. Qed.

Lemma copied_block w m : super_block_in w (copy m 0 (w_dev w) off 4096).
Proof. intros i Hi. unfold copy. case_range; [f_equal; lia | lia]. Qed.

(** Only the buffer and the working copy differ. *)
Lemma represents_step w w' s s' :
  represents w s -> on_disk s' = on_disk s -> w_env w' = w_env w -> w_opt w' = w_opt w -> w_dev w' = w_dev w ->
  (exists u, w_cfg w' = cfg_with (current s') u) -> represents w' s'.
Proof.
  intros (He & Ho & _ & Hd) Hs Hen Hop Hdev Hc. unfold represents, super_block_in in *.
  rewrite Hs, Hen, Hop, Hdev. done.
Qed.

Lemma load_simulates w s :
  represents w s -> simulates (serve Load w) w (spec valid_here Load s).1 (spec valid_here Load s).2.
Proof.
  intros Hr. destruct (w_cfg_md w s Hr) as (Hmd & Hops & Hmo & Hmi & Hbd). pose proof Hr as (He & Ho & [u Hc] & Hd).
  cbn [serve]. rewrite md_disk_to_cpu_format by done. unfold read_super_block. rewrite bind_cfg, Hmo.
  fold off. set (m := w_buf w).
  erewrite bind_ok by (apply pread_or_die_ok; rewrite ?He; unfold buffer_size; lia).
  set (w1 := w <| w_buf := copy (w_buf w) 0 (w_dev w) off 4096 |>). rewrite bind_gets.
  assert (Hb : super_block_in w (w_buf w1)) by apply copied_block.
  rewrite Hmi, Hbd. cbv zeta. fold (check_md (decode_of f (w_buf w1) 0)).
  unfold spec. destruct (on_disk s) as [md|] eqn:Hdisk.
  - destruct Hd as [Hv Hdec]. rewrite (Hdec _ Hb).
    erewrite bind_ok by (apply check_md_here, Hv). cbv match. rewrite bind_upd_md, run_mret.
    eexists. split; [reflexivity|]. split; [|done].
    apply (represents_step w _ s); try done. exists u. cbn. by rewrite Hc.
  - erewrite bind_ok by (apply check_md_here, (Hd _ Hb)). cbv match. rewrite run_mret.
    eexists. split; [reflexivity|]. split; [|done]. apply (represents_step w _ s); try done. by exists u.
Qed.

Lemma change_simulates g w s :
  represents w s -> simulates (serve (Change g) w) w 0 (mk_medium (on_disk s) (g (current s))).
Proof.
  intros Hr. pose proof Hr as (_ & _ & [u Hc] & _). cbn [serve]. rewrite bind_upd_md.
  eexists. split; [reflexivity|]. split; [|done]. apply (represents_step w _ s); try done.
  exists u. cbn. by rewrite Hc.
Qed.

(** Writing the buffer to the place of the super block. *)
Lemma written_block md u b w :
  w_env w = w_env w0 -> w_opt w = w_opt w0 -> w_cfg w = cfg_with md u -> w_buf w = b ->
  rw_area (set_cfg (cfg_with md false) w0) off 4096 ->
  pwrite_buffer_or_die 4096 off w = (Ok (), counted w <| w_dev := copy (w_dev w) off b 0 4096 |>).
Proof.
  intros He Ho Hc Hb (_ & _ & _ & Hdry & Ha). unfold pwrite_buffer_or_die. rewrite bind_gets, Hb.
  apply pwrite_or_die_ok; rewrite ?He, ?Ho; try done; try lia.
  etransitivity; [|apply (Ha 4096 off); lia]. unfold write_allowed. by rewrite Hc, Ho.
Qed.

Lemma store_simulates w s :
  represents w s -> ready Store s ->
  simulates (serve Store w) w (spec valid_here Store s).1 (spec valid_here Store s).2.
Proof.
  intros Hr [Hck Hready]. destruct (w_cfg_md w s Hr) as (Hmd & Hops & Hmo & Hmi & Hbd).
  pose proof Hr as (He & Ho & [u Hc] & Hd).
  cbn [serve]. destruct (md_cpu_to_disk_format w Hops) as [lk ->]. unfold write_super_block.
  rewrite bind_cfg, Hmo, Hmi, Hbd, Hmd. fold off. fold (check_md (current s)).
  erewrite bind_ok by (apply check_md_here, Hck). unfold spec.
  destruct (valid_here (current s)) eqn:Hv; cbn [negb].
  2: { eexists. split; [reflexivity|]. by split. }
  destruct (Hready eq_refl) as [Hst Hrw]. set (b := encode_of f (w_buf w) (current s)).
  set (w1 := w <| w_buf := b |>).
  rewrite (bind_ok (upd_buf (fun b => encode_of f b (current s))) _ w () w1) by done.
  erewrite bind_ok by (apply (written_block (current s) u b); done).
  set (w2 := counted w1 <| w_dev := copy (w_dev w1) off b 0 4096 |>).
  rewrite bind_if, bind_upd_cfg, bind_ret, !run_mret.
  assert (Hblock : forall b', super_block_in w2 b' -> decode_of f b' 0 = current s).
  { intros b' Hb'. apply (encoded_back b' (w_buf w)); [done|]. intros i Hi. rewrite Hb' by done.
    cbn. unfold copy. case_range; [|lia]. unfold b. f_equal. lia. }
  assert (Hout : same_dev_outside off (off + 4096) w w2).
  { intros i Hi. cbn. unfold copy. case_range; [lia | done]. }
  assert (Hrep : forall u' w3, w_env w3 = w_env w -> w_opt w3 = w_opt w -> w_dev w3 = w_dev w2 ->
            w_cfg w3 = cfg_with (current s) u' -> represents w3 (mk_medium (Some (current s)) (current s))).
  { intros u' w3 Hen Hop Hdev Hcfg. unfold represents, super_block_in in *. rewrite Hen, Hop, Hdev.
    split; [done|]. split; [done|]. split; [by exists u'|]. by split. }
  destruct lk.
  - eexists. split; [reflexivity|]. split; [apply (Hrep true); try done; cbn; by rewrite Hc | done].
  - eexists. split; [reflexivity|]. split; [by apply (Hrep u) | done].
Qed.

Lemma serve_simulates r w s :
  represents w s -> ready r s -> simulates (serve r w) w (spec valid_here r s).1 (spec valid_here r s).2.
Proof.
  intros Hr Hready. destruct r; [by apply load_simulates | by apply store_simulates | by apply change_simulates].
Qed.
End refinement.

(** ** Theorems *)

(** C16: whatever is on disk, decoding it gives a working copy in which every
    member is within its C type, the arrays have their full length, and what the
    format does not store has its initial value: exactly what the format can store
    again. *)
Theorem decoded_is_storable `{DrbdHeadersOk} b a :
  md_v06 (md_disk_06_to_cpu b a) /\ md_v07 (md_disk_07_to_cpu b a) /\
  md_v08 (md_disk_08_to_cpu b a) /\ md_v09 (md_disk_09_to_cpu b a).
Proof.
  split_and!; [apply decoded_06_wf | apply decoded_07_wf | apply decoded_08_wf | apply decoded_09_wf].
Qed.

Lemma decoded_is_storable_witness :
  md_v08 (md_disk_08_to_cpu (fun _ => 0xAA) 0) /\ md_v09 (md_disk_09_to_cpu (fun i => i) 3).
Proof. split; [apply (decoded_is_storable (fun _ => 0xAA) 0) | apply (decoded_is_storable (fun i => i) 3)]. Defined.

(** C13: loading, changing and storing the super block of 0.7, 8 and 9 refines the
    abstract medium: for every sequence of requests the functions of the format
    return what the specification returns, the device and the working copy again
    represent its state, and no byte outside of the 4 KiB of the super block has
    changed. *)
Theorem super_block_refines `{DrbdHeadersOk} w0 l w s :
  super_block_format (ops (w_cfg w0)) ->
  0 <= s64 (md_offset (w_cfg w0)) /\ s64 (md_offset (w_cfg w0)) + 4096 <= dev_size (w_env w0) ->
  represents w0 w s -> all_ready w0 l s ->
  exists w', serve_all l w = (Ok (spec_all (valid_here w0) l s).1, w') /\
    represents w0 w' (spec_all (valid_here w0) l s).2 /\
    same_dev_outside (s64 (md_offset (w_cfg w0))) (s64 (md_offset (w_cfg w0)) + 4096) w w'.
Proof.
  intros Hf Hoff. revert w s. induction l as [|r l IH]; intros w s Hr Hready; [by exists w|].
  destruct Hready as [Hready1 Hready]. cbn [serve_all spec_all].
  destruct (serve_simulates w0 Hf Hoff r w s Hr Hready1) as (w1 & Hserve & Hr1 & Hout1).
  rewrite (bind_ok _ _ _ _ _ Hserve).
  destruct (spec (valid_here w0) r s) as [z s1] eqn:Hs. cbn [fst snd] in *.
  destruct (IH w1 s1 Hr1 Hready) as (w2 & Hall & Hr2 & Hout2).
  rewrite (bind_ok _ _ _ _ _ Hall), run_mret.
  destruct (spec_all (valid_here w0) l s1) as [zs s2]. exists w2. split; [done|]. split; [done|].
  intros i Hi. by rewrite Hout2, Hout1.
Qed.

(** Meta data on a device of their own; the node id is changed, stored, changed
    again, and loaded. *)
Definition example_external_md : md_cpu :=
  example_md_09 <| al_offset := 8 |> <| bm_offset := 72 |> <| md_size_sect := 2048 |>.

Definition example_external_world : world :=
  blank_world DRBD_V09 show_gi (md_cpu_to_disk_09 zero_mem example_external_md) (2 ^ 20)
    <| w_cfg := blank_cfg DRBD_V09 <| md_index := DRBD_MD_INDEX_FLEX_EXT |> <| cfg_bd_size := 2 ^ 20 |>
                  <| cfg_md := example_external_md |> |>.

Definition example_requests : list request :=
  [Change (fun md => md <| node_id := 3 |>); Store; Change (fun md => md <| node_id := 5 |>); Load].

Lemma super_block_refines_witness :
  let w := example_external_world in
  let md := example_external_md in
  exists w', serve_all example_requests w = (Ok [0; 0; 0; 0], w') /\
    represents w w' (mk_medium (Some (md <| node_id := 3 |>)) (md <| node_id := 3 |>)) /\
    same_dev_outside 0 4096 w w'.
Proof.
  intros w md.
  assert (Hr : represents w w (mk_medium (Some md) md)).
  { split; [done|]. split; [done|]. split; [by exists false|].
    split; [apply check_md_result; by vm_compute|].
    intros b Hb. apply (encoded_back (decode := md_disk_09_to_cpu) b zero_mem); [|exact Hb].
    split; [concrete_wf|done]. }
  refine (super_block_refines w example_requests w _ (or_intror (or_intror eq_refl)) _ Hr _); [by vm_compute|].
  split; [done|]. split; [|done]. split; [apply check_md_result; by vm_compute|]. intros _. split.
  - split; [concrete_wf|done].
  - apply rw_area_intro; by vm_compute.
Defined.
