(* ===== verification/InitMd.v ===== *)
(** * Initializing meta data

    The empty activity log, the initial bitmap and the initial super block of
    each format (the [md_initialize] operations). *)

From S2P Require Import Prelude Machine Crc Headers SharedTool MetaData OnDisk Layout ActivityLog FsDetect.
From stdpp Require Import strings.

#[local] Open Scope Z_scope.

(** ** The activity log *)

(** One initialized block, with the checksum [crc_be] as it is stored. *)
Definition init_al_block `{DrbdHeaders} (buf : mem) (a crc_be : Z) : mem :=
  let buf := store_le 4 buf (a + al_magic) (cpu_to_be32 DRBD_AL_MAGIC) in
  let buf := store_le 2 buf (a + al_transaction_type) (cpu_to_be16 AL_TR_INITIALIZED) in
  store_le 4 buf (a + al_crc32c) crc_be.

(** The checksum of the first block, with a checksum of zero in it: the blocks
    are all alike. *)
Definition init_al_crc `{DrbdHeaders} (buf : mem) : Z :=
  let buf := store_le 4 buf al_magic (cpu_to_be32 DRBD_AL_MAGIC) in
  let buf := store_le 2 buf al_transaction_type (cpu_to_be16 AL_TR_INITIALIZED) in
  cpu_to_be32 (crc32c 0 (buffer buf 0 (Z.to_nat 4096))).

Definition init_al_blocks `{DrbdHeaders} (mx : Z) (buf : mem) : mem :=
  let crc_be := init_al_crc buf in
  fold_left (fun buf i => init_al_block buf (4096 * i) crc_be) (upto mx) buf.

(** [mx * 4096] is computed in 32 bits; a log larger than the buffer overruns it. *)
Definition initialize_al `{DrbdHeaders} : M unit :=
  c ← cfg;
  let mx := u32 (al_stripes (cfg_md c) * al_stripe_size_4k (cfg_md c)) in
  let al_size := u32 (mx * 4096) in
  if buffer_size <? al_size then fault
  else
    upd_buf (fun buf => memset buf 0 0 al_size);;
    (if version_ge c DRBD_V08 then
       if buffer_size <? mx * 4096 then fault
       else upd_buf (init_al_blocks mx)
     else mret ());;
    pwrite_buffer_or_die al_size (s64 (cfg_al_offset c)).

(** ** The bitmap *)

(** [n] bounds the number of chunks. *)
Fixpoint init_bitmap_loop (n : nat) (bytes_left off : Z) : M unit :=
  match n with
  | O => fault
  | S n' =>
      let chunk := if buffer_size <? bytes_left then buffer_size else bytes_left in
      pwrite_buffer_or_die chunk off;;
      let bytes_left := bytes_left - chunk in
      if bytes_left =? 0 then mret () else init_bitmap_loop n' bytes_left (s64 (off + chunk))
  end.

Definition chunks (size chunk : Z) : nat := S (Z.to_nat (size / chunk)).

Definition init_bitmap_pwrite (clear_or_set : Z) : M unit :=
  c ← cfg;
  let bitmap_bytes := ALIGN (cfg_bm_bytes c) (md_hard_sect_size c) in
  upd_buf (fun buf => memset buf 0 clear_or_set buffer_size);;
  init_bitmap_loop (chunks bitmap_bytes buffer_size) bitmap_bytes (s64 (cfg_bm_offset c)).

Definition zeroout_bitmap_pwrite : M unit := init_bitmap_pwrite 0x00.
Definition set_all_bitmap_pwrite : M unit := init_bitmap_pwrite 0xff.

Definition bytes_per_iteration : Z := 1024 * 1024 * 1024.

(** BLKZEROOUT of a range: granted by the kernel, or refused. *)
Definition blkzeroout (off len : Z) : M bool :=
  e ← env;
  modify (fun w => w <| n_writes := n_writes w + 1 |>);;
  if dev_zeroout_ok e off len then
    modify (fun w => w <| w_dev := memset (w_dev w) off 0 len |>);; mret true
  else mret false.

Fixpoint zeroout_loop (n : nat) (bytes_left off : Z) : M Z :=
  match n with
  | O => fault
  | S n' =>
      let chunk := if bytes_per_iteration <? bytes_left then bytes_per_iteration else bytes_left in
      ok ← blkzeroout off chunk;
      if negb ok then mret (-1)
      else
        let bytes_left := bytes_left - chunk in
        if bytes_left =? 0 then mret 0 else zeroout_loop n' bytes_left (s64 (off + chunk))
  end.

Definition zeroout_bitmap_fast : M Z :=
  c ← cfg;
  let bitmap_bytes := ALIGN (cfg_bm_bytes c) (md_hard_sect_size c) in
  zeroout_loop (chunks bitmap_bytes bytes_per_iteration) bitmap_bytes (s64 (cfg_bm_offset c)).

Definition initialize_bitmap : M unit :=
  o ← opt;
  match option_initialize_bitmap_mode o with
  | IBM_SKIP => mret ()
  | IBM_ZEROOUT_IOCTL_ONLY | IBM_ZEROOUT =>
      rc ← zeroout_bitmap_fast;
      if rc =? 0 then mret ()
      else
        match option_initialize_bitmap_mode o with
        | IBM_ZEROOUT_IOCTL_ONLY => exit 10
        | _ => zeroout_bitmap_pwrite
        end
  | IBM_ZEROOUT_PWRITE => zeroout_bitmap_pwrite
  | IBM_SET_ALL => set_all_bitmap_pwrite
  end.

(** ** The super block *)

Definition md_initialize_common `{DrbdHeaders} (do_disk_writes : bool) : M Z :=
  upd_md (fun md => md <| al_nr_extents := 257 |> <| bm_bytes_per_bit := 0 |>);;
  re_initialize_md_offsets;;
  if negb do_disk_writes then mret 0
  else
    check_for_existing_data;;
    printf ("initializing activity log" +:+ nl);;
    initialize_al;;
    initialize_bitmap;;
    mret 0.

Definition initial_gc : list Z := [0; 1; 1; 1; 1].

(** Only the counters, the number of peers and the magic: the rest of the meta
    data stays as it is. *)
Definition v06_md_initialize `{DrbdHeaders} : M Z :=
  upd_md (fun md => md <| gc := initial_gc |> <| max_peers := 1 |> <| magic := DRBD_MD_MAGIC_06 |>);;
  mret 0.

Definition v07_md_initialize `{DrbdHeaders} (do_disk_writes : bool) : M Z :=
  upd_md (fun _ => zero_md <| gc := initial_gc |> <| max_peers := 1 |> <| magic := DRBD_MD_MAGIC_07 |>
                           <| al_stripes := 1 |> <| al_stripe_size_4k := 8 |>);;
  md_initialize_common do_disk_writes.

Definition v08_initial `{DrbdHeaders} (o : options) : md_cpu :=
  zero_md <| current_uuid := UUID_JUST_CREATED |> <| flags := MDF_AL_CLEAN |> <| max_peers := 1 |>
          <| magic := DRBD_MD_MAGIC_08 |> <| al_stripes := option_al_stripes o |>
          <| al_stripe_size_4k := option_al_stripe_size_4k o |>.

Definition v08_md_initialize `{DrbdHeaders} (do_disk_writes : bool) : M Z :=
  o ← opt;
  upd_md (fun _ => v08_initial o);;
  md_initialize_common do_disk_writes.

(** The peers of the node ids; the array has room for more. *)
Definition no_peers `{DrbdHeaders} (md : md_cpu) : md_cpu :=
  fold_left (fun md p => upd_peer p (fun peer => peer <| bitmap_uuid := 0 |> <| peer_flags := 0 |>
                                                      <| bitmap_index := -1 |>) md)
    (upto DRBD_NODE_ID_MAX) md.

Definition v09_initial `{DrbdHeaders} (o : options) (peers : Z) : md_cpu :=
  no_peers
    (zero_md <| max_peers := u32 peers |> <| flags := MDF_AL_CLEAN |> <| node_id := -1 |>
             <| magic := DRBD_MD_MAGIC_09 |> <| al_stripes := option_al_stripes o |>
             <| al_stripe_size_4k := option_al_stripe_size_4k o |>
             <| current_uuid := UUID_JUST_CREATED |>).

Definition v09_md_initialize `{DrbdHeaders} (do_disk_writes : bool) (peers : Z) : M Z :=
  o ← opt;
  upd_md (fun _ => v09_initial o peers);;
  md_initialize_common do_disk_writes.

(** [cfg->ops->md_initialize] *)
Definition md_initialize `{DrbdHeaders} (do_disk_writes : bool) (peers : Z) : M Z :=
  c ← cfg;
  match ops c with
  | DRBD_V06 => v06_md_initialize
  | DRBD_V07 => v07_md_initialize do_disk_writes
  | DRBD_V08 => v08_md_initialize do_disk_writes
  | DRBD_V09 => v09_md_initialize do_disk_writes peers
  | DRBD_UNKNOWN => fault
  end.

(** ** The initialized activity log *)

Lemma load_le_shift n m a p : load_le n m (a + p) = load_le n (fun i => m (a + i)) p.
Proof.
  revert p. induction n as [|n IH]; intros p; [done|]. cbn [load_le].
  replace (a + p + 1) with (a + (p + 1)) by lia. by rewrite IH.
Qed.

Lemma buffer_shift m a p n : buffer m (a + p) n = buffer (fun i => m (a + i)) p n.
Proof.
  revert p. induction n as [|n IH]; intros p; [done|]. cbn [buffer].
  replace (a + p + 1) with (a + (p + 1)) by lia. by rewrite IH.
Qed.

Lemma store_le_shift n m a p v i : store_le n m (a + p) v (a + i) = store_le n (fun i => m (a + i)) p v i.
Proof.
  revert m p v. induction n as [|n IH]; intros m p v; [done|]. cbn [store_le].
  replace (a + p + 1) with (a + (p + 1)) by lia. rewrite IH.
  apply store_le_ext_in. destruct (Z.eqb_spec i p), (Z.eqb_spec (a + i) (a + p)); done || lia.
Qed.

(** A block is read the same wherever it is. *)
Lemma v84_shift `{DrbdHeaders} m a : v84_al_disk_to_cpu m a = v84_al_disk_to_cpu (fun i => m (a + i)) 0.
Proof.
  unfold v84_al_disk_to_cpu, al_block_crc, be16_at, be32_at. rewrite !Z.add_0_l, !load_le_shift.
  assert (Hcrc : buffer (al_clear_crc m a) a (Z.to_nat 4096) =
    buffer (al_clear_crc (fun i => m (a + i)) 0) 0 (Z.to_nat 4096)).
  { rewrite <- (Z.add_0_r a) at 2. rewrite buffer_shift. apply buffer_ext. intros i _.
    unfold al_clear_crc. by rewrite store_le_shift. }
  rewrite Hcrc.
  f_equal; apply fmap_upto_ext; intros i _; by rewrite Z.add_0_l, load_le_shift.
Qed.

(** A block as [initialize_al] leaves it. *)
Definition fresh_block `{DrbdHeaders} : mem := init_al_block zero_mem 0 (init_al_crc zero_mem).

Lemma init_al_block_shift `{DrbdHeaders} m a crc i :
  init_al_block m a crc (a + i) = init_al_block (fun j => m (a + j)) 0 crc i.
Proof.
  unfold init_al_block. rewrite !store_le_shift, !Z.add_0_l.
  apply store_le_ext_in. rewrite store_le_shift. apply store_le_ext_in, store_le_shift.
Qed.

Lemma al_field_range `{DrbdHeadersOk} f : f ∈ al_fields -> 0 <= f.1 /\ f.1 + Z.of_nat f.2 <= 4096.
Proof. exact (layout_ok_in _ _ _ al_layout). Qed.

Lemma al_fields_head `{DrbdHeaders} :
  (al_magic, 4%nat) ∈ al_fields /\ (al_crc32c, 4%nat) ∈ al_fields /\ (al_transaction_type, 2%nat) ∈ al_fields.
Proof.
  unfold al_fields. split; [|split]; repeat (apply elem_of_cons; (by left) || right); by apply elem_of_cons; left.
Qed.

Lemma init_al_block_other `{DrbdHeadersOk} m a crc i :
  i < a \/ a + 4096 <= i -> init_al_block m a crc i = m i.
Proof.
  intros Hi. destruct al_fields_head as (H1 & H2 & H3).
  apply al_field_range in H1 as [? ?], H2 as [? ?], H3 as [? ?]. cbn [fst snd] in *.
  unfold init_al_block. rewrite !store_le_other by lia. done.
Qed.

(** All blocks are alike. *)
Lemma init_al_blocks_fresh `{DrbdHeadersOk} mx buf b j :
  (forall i, 0 <= i < 4096 * mx -> buf i = 0) -> 0 <= b < mx -> 0 <= j < 4096 ->
  init_al_blocks mx buf (4096 * b + j) = fresh_block j.
Proof.
  intros Hz Hb Hj. unfold init_al_blocks.
  assert (Hcrc : init_al_crc buf = init_al_crc zero_mem).
  { refine (f_equal (fun l => cpu_to_be32 (crc32c 0 l)) (buffer_ext _ _ _ _ _)). intros i Hi.
    apply store_le_ext_in, store_le_ext_in, Hz. lia. }
  rewrite Hcrc. clear Hcrc. set (crc := init_al_crc zero_mem).
  assert (Hinv : forall n i, 0 <= i < 4096 * mx -> 0 <= n <= mx ->
    fold_left (fun buf i => init_al_block buf (4096 * i) crc) (upto n) buf i =
    if i <? 4096 * n then fresh_block (i mod 4096) else 0).
  2: { rewrite Hinv by lia. replace (4096 * b + j <? 4096 * mx) with true by lia.
       rewrite Z.add_comm, Z.mul_comm, Z.mod_add, Z.mod_small by lia. done. }
  intros n i Hi [Hn Hmx]. rewrite <- (Z2Nat.id n) in Hmx |- * by done. clear Hn.
  revert i Hi. induction (Z.to_nat n) as [|c IH]; intros i Hi.
  { rewrite (proj2 (Z.ltb_ge _ _)) by lia. by apply Hz. }
  rewrite Nat2Z.inj_succ, <- Z.add_1_r, upto_S, fold_left_app by lia. cbn [fold_left].
  specialize (IH ltac:(lia)). set (m := fold_left _ _ _) in *.
  destruct (Z.lt_ge_cases i (4096 * Z.of_nat c)) as [Hlt|Hge].
  - rewrite init_al_block_other, IH by lia. rewrite !(proj2 (Z.ltb_lt _ _)) by lia. done.
  - destruct (Z.lt_ge_cases i (4096 * (Z.of_nat c + 1))) as [Hlt'|Hge'].
    + rewrite (proj2 (Z.ltb_lt _ _)) by lia. replace i with (4096 * Z.of_nat c + (i - 4096 * Z.of_nat c)) by lia.
      rewrite init_al_block_shift. replace ((4096 * Z.of_nat c + (i - 4096 * Z.of_nat c)) mod 4096)
        with (i - 4096 * Z.of_nat c) by (apply Z.mod_unique with (Z.of_nat c); lia).
      unfold fresh_block, init_al_block. fold crc.
      do 3 apply store_le_ext_in.
      rewrite IH by lia. by rewrite (proj2 (Z.ltb_ge _ _)) by lia.
    + rewrite init_al_block_other, IH by lia. rewrite !(proj2 (Z.ltb_ge _ _)) by lia. done.
Qed.

(** Members of an activity log block do not overlap. *)
Lemma al_fields_disjoint `{DrbdHeadersOk} :
  disjoint_field (al_magic, 4%nat) (al_crc32c, 4%nat) = true /\
  disjoint_field (al_magic, 4%nat) (al_transaction_type, 2%nat) = true /\
  disjoint_field (al_crc32c, 4%nat) (al_transaction_type, 2%nat) = true.
Proof.
  split; [|split].
  - by apply (layout_ok_ne _ _ 0 2 _ _ al_layout).
  - by apply (layout_ok_ne _ _ 0 3 _ _ al_layout).
  - by apply (layout_ok_ne _ _ 2 3 _ _ al_layout).
Qed.

(** A block before its checksum is stored in it. *)
Definition unsigned_block `{DrbdHeaders} : mem :=
  store_le 2 (store_le 4 zero_mem al_magic (cpu_to_be32 DRBD_AL_MAGIC)) al_transaction_type
    (cpu_to_be16 AL_TR_INITIALIZED).

Lemma unsigned_block_bytes `{DrbdHeaders} : bytes unsigned_block.
Proof. apply store_le_bytes, store_le_bytes. intros i. unfold zero_mem. lia. Qed.

Lemma store_zero m a i : 0 <= i - a < 4 -> store_le 4 m a 0 i = 0.
Proof. intros Hi. cbn [store_le]. repeat case_match; first [done | lia]. Qed.

(** Clearing the checksum gives back the block it was computed of. *)
Lemma clear_fresh_block `{DrbdHeadersOk} i : al_clear_crc fresh_block 0 i = unsigned_block i.
Proof.
  destruct al_fields_disjoint as (Hmc & Hmt & Hct). rewrite disjoint_field_spec in Hmc, Hmt, Hct.
  cbn [fst snd] in *. unfold al_clear_crc, fresh_block, init_al_block, unsigned_block. rewrite !Z.add_0_l.
  set (v := init_al_crc zero_mem). clearbody v.
  destruct (decide (0 <= i - al_crc32c < 4)) as [Hi|Hi].
  - rewrite store_zero by done. by rewrite !store_le_other by lia.
  - rewrite (store_le_other 4 _ al_crc32c 0) by lia. by rewrite (store_le_other 4 _ al_crc32c v) by lia.
Qed.

Lemma crc_of_n_bytes `{DrbdHeadersOk} n :
  be32_to_cpu (cpu_to_be32 (crc32c 0 (buffer unsigned_block 0 n))) =
  crc32c 0 (buffer (al_clear_crc fresh_block 0) 0 n).
Proof.
  rewrite be32_cpu, u32_id.
  - apply (f_equal (crc32c 0)), buffer_ext. intros i _. symmetry. apply clear_fresh_block.
  - apply crc32c_u32; [unfold in_u32; lia|]. apply buffer_bytes, unsigned_block_bytes.
Qed.

Lemma init_al_crc_eq `{DrbdHeadersOk} : be32_to_cpu (init_al_crc zero_mem) = al_block_crc fresh_block 0.
Proof. exact (crc_of_n_bytes (Z.to_nat 4096)). Qed.

Lemma v84_valid_eq `{DrbdHeaders} m a :
  al84_is_valid (v84_al_disk_to_cpu m a) =
  (be32_at m (a + al_magic) =? DRBD_AL_MAGIC) && (be32_at m (a + al_crc32c) =? al_block_crc m a).
Proof. reflexivity. Qed.

Lemma v84_type_eq `{DrbdHeaders} m a :
  al84_transaction_type (v84_al_disk_to_cpu m a) = be16_at m (a + al_transaction_type).
Proof. reflexivity. Qed.

Lemma cpu_to_be32_range x : in_u32 (cpu_to_be32 x).
Proof. exact (be32_range x). Qed.

Lemma cpu_to_be16_range x : in_u16 (cpu_to_be16 x).
Proof. exact (be16_range x). Qed.

Lemma fresh_block_eq `{DrbdHeaders} :
  fresh_block = store_le 4 (store_le 2 (store_le 4 zero_mem al_magic (cpu_to_be32 DRBD_AL_MAGIC))
    al_transaction_type (cpu_to_be16 AL_TR_INITIALIZED)) al_crc32c (init_al_crc zero_mem).
Proof. unfold fresh_block, init_al_block. by rewrite !Z.add_0_l. Qed.

Lemma init_al_crc_u32 `{DrbdHeaders} m : in_u32 (init_al_crc m).
Proof. unfold init_al_crc. apply cpu_to_be32_range. Qed.

(** The initialized block is valid and has nothing to replay. *)
Lemma fresh_block_valid `{DrbdHeadersOk} :
  al84_is_valid (v84_al_disk_to_cpu fresh_block 0) = true /\
  al84_transaction_type (v84_al_disk_to_cpu fresh_block 0) = AL_TR_INITIALIZED.
Proof.
  destruct al_fields_disjoint as (Hmc & Hmt & Hct). rewrite disjoint_field_spec in Hmc, Hmt, Hct.
  pose proof al_magic_range. pose proof al_types as [_ ?]. cbn [fst snd] in *.
  rewrite v84_valid_eq, v84_type_eq, <- init_al_crc_eq. unfold be16_at, be32_at. rewrite !Z.add_0_l, fresh_block_eq.
  pose proof (init_al_crc_u32 zero_mem) as Hcrc. revert Hcrc. generalize (init_al_crc zero_mem). intros crc Hcrc. split.
  2: { rewrite load_store_le_ne, load_store_le by lia. change (256 ^ Z.of_nat 2) with (2 ^ 16).
       rewrite Z.mod_small by apply cpu_to_be16_range. rewrite be16_cpu. by apply u16_id. }
  apply andb_true_iff. rewrite !Z.eqb_eq. split.
  - rewrite !load_store_le_ne, load_store_le by lia. change (256 ^ Z.of_nat 4) with (2 ^ 32).
    rewrite Z.mod_small by apply cpu_to_be32_range. rewrite be32_cpu. by apply u32_id.
  - rewrite load_store_le. change (256 ^ Z.of_nat 4) with (2 ^ 32). by rewrite Z.mod_small.
Qed.

Lemma ring_blocks_u32 md :
  ring_ok md -> u32 (al_stripes md * al_stripe_size_4k md) = al_blocks md /\ 0 < al_blocks md <= 8192.
Proof.
  intros (Hs & Hz & Hmax). unfold al_blocks in *.
  assert (0 < al_stripes md * al_stripe_size_4k md) by nia.
  split; [apply u32_id; unfold in_u32; lia | lia].
Qed.

(** The log is written as a whole. *)
Lemma initialize_al_run `{DrbdHeadersOk} w :
  let n := al_blocks (cfg_md (w_cfg w)) in
  version_ge (w_cfg w) DRBD_V08 = true -> ring_ok (cfg_md (w_cfg w)) ->
  rw_area w (cfg_al_offset (w_cfg w)) (4096 * n) ->
  exists buf, initialize_al w =
    (Ok (), counted (w <| w_buf := buf |>)
              <| w_dev := copy (w_dev w) (cfg_al_offset (w_cfg w)) buf 0 (4096 * n) |>) /\
    forall b j, 0 <= b < n -> 0 <= j < 4096 -> buf (4096 * b + j) = fresh_block j.
Proof.
  intros n Hv Hring Hrw. destruct (ring_blocks_u32 _ Hring) as [Hmx Hn]. fold n in Hmx, Hn.
  destruct Hrw as (Hlo & Hhi & H63 & Hdry & Hallow).
  set (buf0 := memset (w_buf w) 0 0 (4096 * n)). set (buf := init_al_blocks n buf0).
  set (w2 := w <| w_buf := buf |>).
  assert (Hwr := pwrite_or_die_ok buf (4096 * n) (cfg_al_offset (w_cfg w)) w2
    (Hallow (4096 * n) (cfg_al_offset (w_cfg w)) ltac:(lia) ltac:(lia) ltac:(lia)) Hdry Hlo ltac:(lia) Hhi).
  exists buf. split.
  - unfold initialize_al. rewrite bind_cfg, Hmx. rewrite (u32_id (n * 4096)) by (unfold in_u32; lia).
    rewrite (Z.mul_comm n). rewrite (proj2 (Z.ltb_ge buffer_size (4096 * n))) by (unfold buffer_size; lia).
    rewrite Hv. rewrite (s64_id (cfg_al_offset _)) by lia. exact Hwr.
  - intros b j Hb Hj. apply init_al_blocks_fresh; [|done | done].
    intros i Hi. unfold buf0, memset. case_range; [done | lia].
Qed.

Lemma al_scan_none tr mx usable :
  (forall b, 0 <= b < mx -> usable b = false) -> scan_found (al_scan usable tr mx) = 0.
Proof.
  intros Hn. unfold al_scan. assert (Hin : forall b, b ∈ upto mx -> usable b = false)
    by (intros b Hb; by apply Hn, elem_upto).
  revert Hin. generalize (upto mx) as l. intros l Hin.
  assert (Hall : forall st, fold_left (fun st b => if usable b then al_scan_step b (tr b) st else st) l st = st).
  { induction l as [|b l IH]; intros st; [done|]. cbn. rewrite Hin by (apply elem_of_cons; by left).
    apply IH. intros c Hc. apply Hin, elem_of_cons. by right. }
  by rewrite Hall.
Qed.

Lemma filter_all {A} (P : A -> Prop) `{forall x, Decision (P x)} l : Forall P l -> filter P l = l.
Proof. induction 1 as [|x l Hx _ IH]; [done|]. rewrite filter_cons_True by done. by rewrite IH. Qed.

(** A log of initialized blocks has nothing to replay. *)
Lemma replay_fresh `{DrbdHeadersOk} w hot :
  let md := cfg_md (w_cfg w) in
  ring_ok md ->
  (forall b, 0 <= b < al_blocks md ->
     al84_is_valid (ring_block md (w_buf w) b) = true /\
     al84_transaction_type (ring_block md (w_buf w) b) = AL_TR_INITIALIZED) ->
  exists buf, replay_al_84 hot w = (Ok (0, hot), w <| w_buf := buf |>).
Proof.
  intros md Hring Hfresh. destruct (ring_blocks_u32 _ Hring) as [Hmx Hn].
  unfold replay_al_84. run. fold md in Hmx, Hn |- *. rewrite Hmx.
  rewrite (proj2 (Z.ltb_ge buffer_size (al_blocks md * 4096))) by (unfold buffer_size; lia).
  pose proof (block_at_ring md (w_buf w)) as Hblk.
  pose proof (al_84_blocks_eq md (al_blocks md) (upto (al_blocks md)) (w_buf w) (al_slots_nodup md Hring)) as Hlist.
  destruct (al_84_blocks md (al_blocks md) (upto (al_blocks md)) (w_buf w)) as [al_cpu buf'].
  cbn [fst] in Hblk, Hlist. cbv beta iota zeta. exists buf'.
  unfold upd_buf, modify at 1. unfold mbind at 1, M_bind at 1.
  assert (Hvalid : Forall (fun al => al84_is_valid al = true) al_cpu).
  { rewrite Hlist. apply Forall_fmap, Forall_forall. intros b Hb. apply elem_upto in Hb.
    unfold compose. rewrite al_slot_eq by done. by apply Hfresh. }
  rewrite filter_all by done. assert (Hlen : Z.of_nat (length al_cpu) = al_blocks md).
  { rewrite Hlist, length_fmap. unfold upto. rewrite length_seqZ. lia. }
  rewrite Hlen. destruct (Z.eqb_spec (al_blocks md) 0); [lia|].
  rewrite al_scan_none.
  - by rewrite !Z.eqb_refl.
  - intros b Hb. rewrite Hblk by done. unfold al_84_usable.
    destruct (Hfresh b Hb) as [_ ->]. by rewrite Z.eqb_refl, andb_false_r.
Qed.

(** ** Theorems *)

(** C12: the activity log [initialize_al] writes, read back from the device, is a
    clean log: every block of every stripe is valid, and [replay_al_84] finds
    nothing to apply and no error. *)
Theorem initialized_al_is_clean `{DrbdHeadersOk} w hot :
  let c := w_cfg w in
  let size := 4096 * al_blocks (cfg_md c) in
  version_ge c DRBD_V08 = true -> ring_ok (cfg_md c) -> rw_area w (cfg_al_offset c) size ->
  exists w', (initialize_al;; pread_or_die 0 size (cfg_al_offset c);; replay_al_84 hot) w
             = (Ok (0, hot), w').
Proof.
  intros c size Hv Hring Hrw. destruct (initialize_al_run w Hv Hring Hrw) as (buf & Hrun & Hfresh).
  destruct (ring_blocks_u32 _ Hring) as [_ Hn]. destruct Hrw as (Hlo & Hhi & _).
  rewrite (bind_ok _ _ _ _ _ Hrun). set (w1 := counted _ <| w_dev := _ |>).
  assert (Hrd : pread_or_die 0 size (cfg_al_offset c) w1 =
    (Ok (), w1 <| w_buf := copy (w_buf w1) 0 (w_dev w1) (cfg_al_offset c) size |>)).
  { apply pread_or_die_ok; [done | exact Hhi |]. unfold size, buffer_size. fold c in Hn. lia. }
  rewrite (bind_ok _ _ _ _ _ Hrd). set (w2 := w1 <| w_buf := _ |>).
  assert (Hbuf : forall b j, 0 <= b < al_blocks (cfg_md c) -> 0 <= j < 4096 ->
    w_buf w2 (4096 * b + j) = fresh_block j).
  { intros b j Hb Hj. transitivity (copy (w_dev w) (cfg_al_offset c) buf 0 size (4096 * b + j - 0 + cfg_al_offset c)).
    - change (w_buf w2) with (copy (w_buf w1) 0 (w_dev w1) (cfg_al_offset c) size).
      unfold copy at 1. unfold size. case_range; [done | lia].
    - unfold copy, size. case_range; [|lia]. rewrite <- (Hfresh b j Hb Hj). f_equal. lia. }
  destruct (replay_fresh w2 hot Hring) as [buf2 Hrep]; [|by exists (w2 <| w_buf := buf2 |>)].
  intros b Hb. pose proof Hring as (Hs & Hz & _).
  pose proof (slot_of_range _ _ b Hs Hz Hb) as Hslot. unfold ring_block.
  change (cfg_md (w_cfg w2)) with (cfg_md c). rewrite v84_shift.
  rewrite (v84_ext _ fresh_block); [apply fresh_block_valid|].
  intros i Hi. by apply Hbuf.
Qed.

(** A striped log of 2 times 3 blocks in external meta data. *)
Definition example_init_world : world :=
  mk_world (mk_format DRBD_V09 "/dev/sdx" 0 512 DRBD_MD_INDEX_FLEX_EXT 4096 0 false false
              (mk_md_cpu [0; 0; 0; 0; 0] DRBD_MD_MAGIC_09 0 80 8 0 56 0 [] 0 0 4096 0 3 0 [] 2 3 0)
              0 4096 28672 0 0 0 40960 0 (mk_bdev_info 0 0 None))
    (default_options create_md) (blank_env 40960) (fun _ => 0xAA) (fun _ => 0xBB) None [] [] [] 0 0.

Lemma initialized_al_is_clean_witness :
  exists w', (initialize_al;; pread_or_die 0 (4096 * 6) 4096;; replay_al_84 no_hot) example_init_world
             = (Ok (0, no_hot), w').
Proof.
  apply (initialized_al_is_clean example_init_world no_hot).
  - reflexivity.
  - by repeat split.
  - apply rw_area_intro; vm_compute; repeat split; congruence.
Defined.

(** ** The bitmap *)

(** The device after filling [size] bytes from [off] with [c]. *)
Definition filled (off size c : Z) (w w' : world) : Prop :=
  same_setup w w' /\ forall i, w_dev w' i = if in_range i off size then c else w_dev w i.

Lemma filled_app off n1 n2 c w1 w2 w3 :
  0 <= n1 -> 0 <= n2 -> filled off n1 c w1 w2 -> filled (off + n1) n2 c w2 w3 -> filled off (n1 + n2) c w1 w3.
Proof.
  intros Hn1 Hn2 [Hs H12] [Hs' H23]. split; [by transitivity w2|]. intros i. rewrite H23, H12.
  case_range; done || lia.
Qed.

Lemma rw_area_sub w off size off' size' :
  off <= off' -> off' + size' <= off + size -> rw_area w off size -> rw_area w off' size'.
Proof.
  intros Ho Hs (Hlo & Hhi & H63 & Hdry & Hallow). unfold rw_area. repeat split; try lia; try done.
  intros count offset ? ? ?. apply Hallow; lia.
Qed.

(** The loop ends within its bound and fills the bitmap. *)
Lemma init_bitmap_loop_run n left off c w :
  0 <= left -> left / buffer_size < Z.of_nat n -> rw_area w off left ->
  (forall i, 0 <= i < buffer_size -> w_buf w i = c) ->
  exists w', init_bitmap_loop n left off w = (Ok (), w') /\ filled off left c w w'.
Proof.
  revert left off w. induction n as [|n IH]; intros left off w Hl Hn Hrw Hbuf.
  { pose proof (Z.div_pos left buffer_size Hl ltac:(done)). lia. }
  cbn [init_bitmap_loop]. set (chunk := if buffer_size <? left then buffer_size else left).
  assert (Hc : 0 <= chunk <= left /\ chunk <= buffer_size).
  { unfold chunk. destruct (Z.ltb_spec buffer_size left); unfold buffer_size in *; lia. }
  destruct (rw_area_sub w off left off chunk ltac:(lia) ltac:(lia) Hrw) as (Hlo & Hhi & H63 & Hdry & Hallow).
  assert (Hwr := pwrite_or_die_ok (w_buf w) chunk off w (Hallow chunk off ltac:(lia) ltac:(lia) ltac:(lia))
    Hdry Hlo ltac:(lia) Hhi).
  unfold pwrite_buffer_or_die at 1. rewrite bind_bind, bind_gets, (bind_ok _ _ _ _ _ Hwr).
  set (w1 := counted w <| w_dev := _ |>).
  assert (H1 : filled off chunk c w w1).
  { split; [by repeat split|]. intros i.
    transitivity (copy (w_dev w) off (w_buf w) 0 chunk i); [reflexivity|].
    unfold copy. case_range; [|done]. apply Hbuf. lia. }
  destruct (Z.eqb_spec (left - chunk) 0) as [Heq|Hne].
  { exists w1. split; [done|]. by replace left with chunk by lia. }
  assert (Hbig : chunk = buffer_size /\ buffer_size < left).
  { unfold chunk in *. destruct (Z.ltb_spec buffer_size left); lia. }
  destruct Hbig as [Hch Hbig]. rewrite s64_id by (destruct Hrw as (? & ? & ? & _); lia).
  destruct (IH (left - chunk) (off + chunk) w1) as (w' & Hrun & Hf).
  - lia.
  - rewrite Hch. replace (left - buffer_size) with (left + (-1) * buffer_size) by lia.
    rewrite Z.div_add by done. lia.
  - apply (rw_area_setup w); [apply H1|]. apply (rw_area_sub _ off left); [lia | lia | done].
  - exact Hbuf.
  - exists w'. split; [done|]. replace left with (chunk + (left - chunk)) by lia.
    apply (filled_app _ _ _ _ _ w1); [lia | lia | done | done].
Qed.

Lemma init_bitmap_pwrite_run c w :
  let size := ALIGN (cfg_bm_bytes (w_cfg w)) (md_hard_sect_size (w_cfg w)) in
  0 <= size -> rw_area w (cfg_bm_offset (w_cfg w)) size ->
  exists w', init_bitmap_pwrite c w = (Ok (), w') /\ filled (cfg_bm_offset (w_cfg w)) size c w w'.
Proof.
  intros size Hs Hrw. unfold init_bitmap_pwrite. rewrite bind_cfg. fold size.
  rewrite s64_id by (destruct Hrw as (? & ? & ? & _); lia).
  set (w1 := w <| w_buf := memset (w_buf w) 0 c buffer_size |>).
  destruct (init_bitmap_loop_run (chunks size buffer_size) size (cfg_bm_offset (w_cfg w)) c w1) as (w' & Hrun & Hf).
  - done.
  - unfold chunks. pose proof (Z.div_pos size buffer_size Hs ltac:(done)). lia.
  - exact Hrw.
  - intros i Hi. change (w_buf w1) with (memset (w_buf w) 0 c buffer_size). unfold memset. case_range; [done | lia].
  - exists w'. split; [exact Hrun | exact Hf].
Qed.

(** The zeroing by the kernel: on success all of the bitmap is zero; whenever a
    request is refused, nothing outside of it has changed. *)
Lemma zeroout_loop_run n left off w :
  0 <= left -> left / bytes_per_iteration < Z.of_nat n -> 0 <= off -> off + left < 2 ^ 63 ->
  exists rc w', zeroout_loop n left off w = (Ok rc, w') /\ same_setup w w' /\
    (forall i, in_range i off left = false -> w_dev w' i = w_dev w i) /\
    (rc = 0 -> filled off left 0 w w').
Proof.
  revert left off w. induction n as [|n IH]; intros left off w Hl Hn Hlo H63.
  { pose proof (Z.div_pos left bytes_per_iteration Hl ltac:(done)). lia. }
  cbn [zeroout_loop]. set (chunk := if bytes_per_iteration <? left then bytes_per_iteration else left).
  assert (Hc : 0 <= chunk <= left).
  { unfold chunk. destruct (Z.ltb_spec bytes_per_iteration left); unfold bytes_per_iteration in *; lia. }
  set (w0 := w <| n_writes := n_writes w + 1 |>).
  set (w1 := w0 <| w_dev := memset (w_dev w) off 0 chunk |>).
  assert (Hblk : blkzeroout off chunk w = if dev_zeroout_ok (w_env w) off chunk then (Ok true, w1) else (Ok false, w0)).
  { unfold blkzeroout. rewrite bind_env. unfold modify at 1. unfold mbind at 1, M_bind at 1.
    by destruct (dev_zeroout_ok (w_env w) off chunk). }
  unfold mbind at 1, M_bind at 1. rewrite Hblk. destruct (dev_zeroout_ok (w_env w) off chunk); cbn [negb].
  2: { exists (-1), w0. split; [done|]. split; [done|]. by split. }
  assert (H1 : filled off chunk 0 w w1).
  { split; [by repeat split|]. intros i. reflexivity. }
  destruct (Z.eqb_spec (left - chunk) 0) as [Heq|Hne].
  { exists 0, w1. replace left with chunk by lia. split; [done|]. split; [apply H1|]. split; [|done].
    intros i Hi. by rewrite (proj2 H1), Hi. }
  assert (Hbig : chunk = bytes_per_iteration /\ bytes_per_iteration < left).
  { unfold chunk in *. destruct (Z.ltb_spec bytes_per_iteration left); lia. }
  destruct Hbig as [Hch Hbig]. rewrite s64_id by lia.
  destruct (IH (left - chunk) (off + chunk) w1) as (rc & w' & Hrun & Hsetup & Hout & Hok); [lia | | lia | lia |].
  { rewrite Hch. replace (left - bytes_per_iteration) with (left + (-1) * bytes_per_iteration) by lia.
    rewrite Z.div_add by done. lia. }
  exists rc, w'. split; [done|]. split; [etransitivity; [apply H1 | done]|]. split.
  - intros i Hi. apply in_range_false in Hi. rewrite Hout, (proj2 H1).
    + case_range; [lia | done].
    + apply in_range_false. lia.
  - intros Hrc. replace left with (chunk + (left - chunk)) by lia.
    apply (filled_app _ _ _ _ _ w1); [lia | lia | done | by apply Hok].
Qed.

(** What the bitmap is filled with. *)
Definition bitmap_fill (m : initialize_bitmap_mode) : Z :=
  match m with IBM_SET_ALL => 0xff | _ => 0 end.

(** The bitmap is filled unless it is skipped, whether or not the kernel grants
    BLKZEROOUT. *)
Lemma initialize_bitmap_run w :
  let c := w_cfg w in
  let size := ALIGN (cfg_bm_bytes c) (md_hard_sect_size c) in
  let mode := option_initialize_bitmap_mode (w_opt w) in
  mode <> IBM_ZEROOUT_IOCTL_ONLY ->
  0 <= size -> rw_area w (cfg_bm_offset c) size ->
  exists w', initialize_bitmap w = (Ok (), w') /\ same_setup w w' /\
    (mode <> IBM_SKIP -> filled (cfg_bm_offset c) size (bitmap_fill mode) w w').
Proof.
  intros c size mode Hioctl Hs Hrw. pose proof Hrw as (Hlo & _ & H63 & _).
  assert (Hz : exists w', (rc ← zeroout_bitmap_fast; if rc =? 0 then mret () else zeroout_bitmap_pwrite) w = (Ok (), w') /\
    filled (cfg_bm_offset c) size 0 w w').
  { destruct (zeroout_loop_run (chunks size bytes_per_iteration) size (cfg_bm_offset c) w)
      as (rc & w1 & Hrun & Hsetup & Hout & Hok); [done | | done | lia |].
    { unfold chunks. pose proof (Z.div_pos size bytes_per_iteration Hs ltac:(done)). lia. }
    assert (Hfast : zeroout_bitmap_fast w = (Ok rc, w1)).
    { unfold zeroout_bitmap_fast. rewrite bind_cfg. fold c size. by rewrite s64_id by lia. }
    rewrite (bind_ok _ _ _ _ _ Hfast). destruct (Z.eqb_spec rc 0) as [->|_].
    { exists w1. split; [done | by apply Hok]. }
    pose proof Hsetup as (Hcfg & _). destruct (init_bitmap_pwrite_run 0 w1) as (w' & Hrun' & [Hs' Hf]).
    - by rewrite Hcfg.
    - rewrite Hcfg. by apply (rw_area_setup w).
    - exists w'. split; [done|]. rewrite Hcfg in Hf. split; [by transitivity w1|].
      intros i. rewrite Hf. fold c size. destruct (in_range i (cfg_bm_offset c) size) eqn:Hi; [done|].
      by apply Hout. }
  destruct (init_bitmap_pwrite_run (bitmap_fill mode) w Hs Hrw) as (wp & Hp & Hfp).
  unfold initialize_bitmap. rewrite bind_opt. fold mode. unfold zeroout_bitmap_pwrite, set_all_bitmap_pwrite in *.
  destruct mode; try done.
  - destruct Hz as (w' & Hrun & Hf). exists w'. split; [done|]. split; [apply Hf | done].
  - exists wp. split; [done|]. split; [apply Hfp | done].
  - exists wp. split; [done|]. split; [apply Hfp | done].
  - exists w. by split.
Qed.

(** [initialize_bitmap] ends, and leaves every byte of the bitmap zero (or
    0xff for set-all) and every other byte of the device as it was, whether or not
    the kernel grants BLKZEROOUT, for the whole bitmap or for parts of it, and
    whatever the size of the bitmap. *)
Theorem initialize_bitmap_fills w :
  let c := w_cfg w in
  let size := ALIGN (cfg_bm_bytes c) (md_hard_sect_size c) in
  let mode := option_initialize_bitmap_mode (w_opt w) in
  mode <> IBM_SKIP -> mode <> IBM_ZEROOUT_IOCTL_ONLY ->
  0 <= size -> rw_area w (cfg_bm_offset c) size ->
  exists w', initialize_bitmap w = (Ok (), w') /\
    forall i, w_dev w' i = if in_range i (cfg_bm_offset c) size then bitmap_fill mode else w_dev w i.
Proof.
  intros c size mode Hskip Hioctl Hs Hrw. destruct (initialize_bitmap_run w Hioctl Hs Hrw) as (w' & Hrun & _ & Hf).
  exists w'. split; [exact Hrun | exact (proj2 (Hf Hskip))].
Qed.

Definition example_set_all_world : world :=
  example_init_world <| w_opt := default_options create_md <| option_initialize_bitmap_mode := IBM_SET_ALL |> |>.

Lemma initialize_bitmap_fills_witness :
  let w := example_set_all_world in
  exists w', initialize_bitmap w = (Ok (), w') /\
    forall i, w_dev w' i = if in_range i (cfg_bm_offset (w_cfg w)) (ALIGN (cfg_bm_bytes (w_cfg w)) (md_hard_sect_size (w_cfg w)))
                           then bitmap_fill (option_initialize_bitmap_mode (w_opt w)) else w_dev w i.
Proof.
  intros w. apply (initialize_bitmap_fills w).
  - discriminate.
  - discriminate.
  - vm_compute. congruence.
  - apply rw_area_intro; vm_compute; repeat split; congruence.
Defined.

(** With --dry-run the bitmap is zeroed all the same: the request to the kernel
    does not go through [pwrite_or_die]. *)
Lemma zeroout_ignores_dry_run :
  let w := example_init_world <| w_opt := default_options create_md <| dry_run := true |> |> in
  (initialize_bitmap w).1 = Ok () /\ w_dev w 28672 = 0xAA /\ w_dev (initialize_bitmap w).2 28672 = 0.
Proof. vm_compute. done. Qed.

(** ** The initial super blocks *)

Lemma no_peers_spec `{DrbdHeaders} md :
  exists ps, no_peers md = md <| peers := ps |> /\ length ps = length (peers md) /\
    forall n, 0 <= n < DRBD_NODE_ID_MAX -> n < Z.of_nat (length (peers md)) ->
      bitmap_index (default zero_peer (zlookup ps n)) = -1.
Proof.
  unfold no_peers. destruct (Z.le_gt_cases DRBD_NODE_ID_MAX 0) as [Hneg|Hpos].
  { exists (peers md). unfold upto. rewrite seqZ_nil by done. cbn. split; [by destruct md|].
    split; [done | intros; lia]. }
  rewrite <- (Z2Nat.id DRBD_NODE_ID_MAX) by lia. induction (Z.to_nat DRBD_NODE_ID_MAX) as [|c IH].
  { exists (peers md). split; [by destruct md|]. split; [done | intros; lia]. }
  rewrite Nat2Z.inj_succ, <- Z.add_1_r, upto_S, fold_left_app by lia. cbn [fold_left].
  destruct IH as (ps & -> & Hlen & Hall). eexists. split; [reflexivity|]. cbn. rewrite length_zinsert.
  split; [done|]. intros n Hn Hlt. destruct (Z.eq_dec n (Z.of_nat c)) as [->|Hne].
  - rewrite zlookup_zinsert by lia. done.
  - rewrite zlookup_zinsert_ne by lia. apply Hall; lia.
Qed.

Lemma bitmap_index_no_peers `{DrbdHeadersOk} md n :
  length (peers md) = Z.to_nat DRBD_PEERS_MAX -> 0 <= n < DRBD_NODE_ID_MAX ->
  bitmap_index (peer_at (no_peers md) n) = -1.
Proof.
  intros Hl Hn. pose proof node_id_max. destruct (no_peers_spec md) as (ps & -> & _ & Hall).
  apply Hall; [done | lia].
Qed.
