(* ===== verification/Convert.v ===== *)
(** * Converting meta data between the formats

    The conversions between 0.7, 8 and 9, and the search for meta data of another
    flavour at the places where it could be, which precedes the creation of new
    meta data. *)

From S2P Require Import Prelude Machine Headers SharedTool MetaData OnDisk Layout GenId.
From stdpp Require Import strings.

#[local] Open Scope Z_scope.

(** ** The conversions *)

(** After each conversion the result must be valid. *)
Definition conversion_done `{DrbdHeaders} (f : md_format) : M unit :=
  re_initialize_md_offsets;;
  c ← cfg;
  ok ← is_valid_md f (cfg_md c) (md_index c) (cfg_bd_size c);
  if (ok : bool) then mret () else exit 111.

(** The current UUID of a device that had generation counters. *)
Definition uuid_of_gc (gc : list Z) : Z :=
  Z.lor (Z.shiftl (Z.land (arr gc HumanCnt) 0xffff) 48)
    (Z.lor (Z.shiftl (Z.land (arr gc TimeoutCnt) 0xffff) 32)
      (Z.lor (Z.shiftl (Z.land (u32 (arr gc ConnectedCnt + arr gc ArbitraryCnt)) 0xffff) 16) 0xbabe)).

(** Element [i] of the UUIDs gets the [j]-th predecessor of the current one. *)
Definition set_predecessor `{DrbdHeaders} (md : md_cpu) (ij : Z * Z) : md_cpu :=
  let '(i, j) := ij in
  let uuid := u64 (current_uuid md - j * 0x10000) in
  if i =? UI_BITMAP then upd_peer 0 (fun p => p <| bitmap_uuid := uuid |>) md
  else set_history (i - UI_HISTORY_START) uuid md.

Definition uuids_07_to_08 `{DrbdHeaders} (bits : bool) (md : md_cpu) : md_cpu :=
  let first := if bits then UI_BITMAP else UI_HISTORY_START in
  fold_left set_predecessor
    ((fun i => (i, i - first + 1)) <$> seqZ first (UI_HISTORY_END - first + 1)) md.

Definition md_convert_07_to_08 `{DrbdHeaders} : M unit :=
  printf ("Converting meta data..." +:+ nl);;
  c ← cfg;
  upd_md (fun md =>
    let md := md <| magic := DRBD_MD_MAGIC_08 |> <| flags := arr (gc md) Flags |>
                 <| current_uuid := uuid_of_gc (gc md) |> in
    uuids_07_to_08 (negb (bits_set c =? 0)) (upd_peer 0 (fun p => p <| bitmap_uuid := 0 |>) md));;
  conversion_done DRBD_V08.

Definition md_convert_08_to_07 `{DrbdHeaders} : M unit :=
  printf ("Converting meta data..." +:+ nl);;
  upd_md (fun md => md <| magic := DRBD_MD_MAGIC_07 |>);;
  printf ("Conversion v08 -> v07 is BROKEN!" +:+ nl +:+ "Be prepared to manually intervene!" +:+ nl);;
  conversion_done DRBD_V07.

(** [if (x & from) y |= to] *)
Definition carry_flag (x from to y : Z) : Z := if has_bits x from then set_bits y to else y.

Definition flags_08_to_09 `{DrbdHeaders} (md : md_cpu) : md_cpu :=
  let md := fold_left (fun md p => upd_peer p (fun peer => peer <| bitmap_uuid := 0 |> <| peer_flags := 0 |>
                                                                <| bitmap_index := -1 |>) md)
              (upto DRBD_NODE_ID_MAX) md in
  let peer x := carry_flag (flags md) MDF_PEER_OUT_DATED MDF_PEER_OUTDATED
                  (carry_flag (flags md) MDF_FULL_SYNC MDF_PEER_FULL_SYNC
                    (carry_flag (flags md) MDF_CONNECTED_IND MDF_PEER_CONNECTED x)) in
  let md := upd_peer 0 (fun p => p <| peer_flags := peer (peer_flags p) |>) md in
  md <| flags := clear_bits (flags md) (Z.lor (Z.lor MDF_CONNECTED_IND MDF_FULL_SYNC) MDF_PEER_OUT_DATED) |>.

Definition md_convert_08_to_09 `{DrbdHeaders} : M unit :=
  upd_md (fun md => flags_08_to_09 md <| node_id := -1 |> <| magic := DRBD_MD_MAGIC_09 |>);;
  conversion_done DRBD_V09.

Definition flags_09_to_08 `{DrbdHeaders} (md : md_cpu) : md_cpu :=
  let x := peer_flags (peer_at md 0) in
  md <| flags := carry_flag x MDF_PEER_OUTDATED MDF_PEER_OUT_DATED
                   (carry_flag x MDF_PEER_FULL_SYNC MDF_FULL_SYNC
                     (carry_flag x MDF_PEER_CONNECTED MDF_CONNECTED_IND (flags md))) |>.

Definition md_convert_09_to_08 `{DrbdHeaders} : M unit :=
  upd_md (fun md => flags_09_to_08 md <| magic := DRBD_MD_MAGIC_08 |> <| max_peers := 1 |>);;
  conversion_done DRBD_V08.

(** The cases of the code fall through from one conversion to the next. *)
Definition convert_md `{DrbdHeaders} (from : md_format) : M unit :=
  c ← cfg;
  match ops c, from with
  | DRBD_V07, DRBD_V09 => md_convert_09_to_08;; md_convert_08_to_07
  | DRBD_V07, DRBD_V08 => md_convert_08_to_07
  | DRBD_V07, DRBD_V07 => mret ()
  | DRBD_V08, DRBD_V07 => md_convert_07_to_08
  | DRBD_V08, DRBD_V08 => mret ()
  | DRBD_V08, DRBD_V09 => md_convert_09_to_08
  | DRBD_V09, DRBD_V07 => md_convert_07_to_08;; md_convert_08_to_09
  | DRBD_V09, DRBD_V08 => md_convert_08_to_09
  | DRBD_V09, DRBD_V09 => mret ()
  | _, _ => exit 10
  end.

(** ** Detection *)

(** One candidate: the format and the meta data found so far are replaced if it
    is valid. *)
Definition detect_one `{DrbdHeaders} (ll_size idx : Z) (have : option (md_format * md_cpu))
    (f : md_format) (md_test : md_cpu) : M (option (md_format * md_cpu)) :=
  ok ← is_valid_md f md_test idx ll_size;
  mret (if (ok : bool) then Some (f, md_test) else have).

(** What is in the buffer; the last format that fits wins. *)
Definition detect_md `{DrbdHeaders} (ll_size idx : Z) : M (option (md_format * md_cpu)) :=
  b ← gets w_buf;
  have ← detect_one ll_size idx None DRBD_V07 (md_disk_07_to_cpu b 0);
  have ← detect_one ll_size idx have DRBD_V08 (md_disk_08_to_cpu b 0);
  detect_one ll_size idx have DRBD_V09 (md_disk_09_to_cpu b 0).

Definition cancel1 {A} : M A := printf ("Operation cancelled." +:+ nl);; exit 1.

(** Convert, or replace, or give up. *)
Definition convert_or_replace `{DrbdHeaders} (have : md_format) (md_now : md_cpu) : M unit :=
  yes ← confirmed;
  if (yes : bool) then upd_md (fun _ => md_now);; convert_md have
  else
    yes ← confirmed;
    if (yes : bool) then upd_md (fun md => md <| magic := 0 |>) else cancel1.

(** The same format is already there. *)
Definition overwrite_same `{DrbdHeaders} (have : md_format) : M unit :=
  c ← cfg;
  o ← opt;
  (if negb (md_format_eqb have DRBD_V07) &&
      (negb (al_stripes (cfg_md c) =? option_al_stripes o) ||
       negb (al_stripe_size_4k (cfg_md c) =? option_al_stripe_size_4k o))
   then yes ← confirmed; if (yes : bool) then exit 30 else mret ()
   else mret ());;
  yes ← confirmed;
  if (yes : bool) then upd_md (fun md => md <| magic := 0 |>) else cancel1.

(** The meta data at the end of the device: the fixed size layout of 0.7 first,
    then the flexible ones; with the offset it was found at. *)
Definition find_internal `{DrbdHeaders} (fixed_offset flex_offset : Z) :
    M (option (md_format * md_cpu * bool)) :=
  c ← cfg;
  fixed ← (if (0 <=? fixed_offset) && (fixed_offset <? s64 (cfg_bd_size c) - 4096) then
             pread_or_die 0 4096 fixed_offset;;
             b ← gets w_buf;
             let md_test := md_disk_07_to_cpu b 0 in
             ok ← is_valid_md DRBD_V07 md_test DRBD_MD_INDEX_INTERNAL (cfg_bd_size c);
             mret (if (ok : bool) then Some (DRBD_V07, md_test) else None)
           else mret None);
  match fixed with
  | Some (f, md) => mret (Some (f, md, true))
  | None =>
      pread_or_die 0 4096 flex_offset;;
      have ← detect_md (cfg_bd_size c) DRBD_MD_INDEX_FLEX_INT;
      mret (match have with Some (f, md) => Some (f, md, false) | None => None end)
  end.

Definition check_internal_md_flavours `{DrbdHeaders} : M unit :=
  c ← cfg;
  ASSERT ((md_index c =? DRBD_MD_INDEX_INTERNAL) || (md_index c =? DRBD_MD_INDEX_FLEX_INT));;
  let fixed_offset := s64 (v07_style_md_get_byte_offset DRBD_MD_INDEX_INTERNAL (cfg_bd_size c)) in
  let flex_offset := s64 (v07_style_md_get_byte_offset DRBD_MD_INDEX_FLEX_INT (cfg_bd_size c)) in
  found ← find_internal fixed_offset flex_offset;
  match found with
  | None => mret ()
  | Some (have, md_now, fixed) =>
      (if md_format_eqb (format_version c) have then overwrite_same have
       else convert_or_replace have md_now);;
      if md_format_eqb have DRBD_V07 && fixed && (md_index c =? DRBD_MD_INDEX_FLEX_INT) then
        upd_cfg (fun c => c <| wipe_fixed := u64 fixed_offset |>)
      else if (negb (md_format_eqb have DRBD_V07) || negb fixed) &&
              (is_v07 c && (md_index c =? DRBD_MD_INDEX_INTERNAL)) then
        upd_cfg (fun c => c <| wipe_flex := u64 flex_offset |>)
      else mret ()
  end.

Definition wipe_after_convert : M unit :=
  upd_buf (fun b => memset b 0 0 4096);;
  c ← cfg;
  when (negb (wipe_fixed c =? 0)) (pwrite_buffer_or_die 4096 (s64 (wipe_fixed c)));;
  when (negb (wipe_flex c =? 0)) (pwrite_buffer_or_die 4096 (s64 (wipe_flex c))).

Definition check_external_md_flavours `{DrbdHeaders} : M unit :=
  c ← cfg;
  ASSERT ((0 <=? md_index c) || (md_index c =? DRBD_MD_INDEX_FLEX_EXT));;
  if negb (magic (cfg_md c) =? 0) then
    yes ← confirmed;
    if (yes : bool) then upd_md (fun md => md <| magic := 0 |>) else cancel1
  else
    pread_or_die 0 4096 (s64 (md_offset c));;
    have ← detect_md (cfg_bd_size c) DRBD_MD_INDEX_FLEX_EXT;
    match have with
    | None => mret ()
    | Some (f, md_now) => convert_or_replace f md_now
    end.

(** ** The peers of converted meta data *)

Lemma peers_upd i f md : peers (upd_peer i f md) = zinsert i (f (peer_at md i)) (peers md).
Proof. done. Qed.

Lemma peer_at_upd i f md p :
  0 <= i < Z.of_nat (length (peers md)) ->
  peer_at (upd_peer i f md) p = if p =? i then f (peer_at md i) else peer_at md p.
Proof.
  intros Hi. unfold peer_at at 1. rewrite peers_upd. destruct (Z.eqb_spec p i) as [->|Hne].
  - by rewrite zlookup_zinsert.
  - by rewrite zlookup_zinsert_ne by done.
Qed.

Lemma peer_at_upd_out i f md p :
  ~ 0 <= i < Z.of_nat (length (peers md)) -> peer_at (upd_peer i f md) p = peer_at md p.
Proof.
  intros Hi. unfold peer_at at 1. rewrite peers_upd. unfold zinsert.
  destruct (Z.ltb_spec i 0); [done|]. by rewrite list_insert_ge by lia.
Qed.

(** The bitmap indices of all slots are in range. *)
Definition indices_ok `{DrbdHeaders} (n : Z) (md : md_cpu) : Prop :=
  forall p, 0 <= p < n -> -1 <= bitmap_index (peer_at md p) <= DRBD_PEERS_MAX - 1.

Lemma indices_ok_upd `{DrbdHeaders} n i f md :
  (forall p, -1 <= bitmap_index p <= DRBD_PEERS_MAX - 1 -> -1 <= bitmap_index (f p) <= DRBD_PEERS_MAX - 1) ->
  indices_ok n md -> indices_ok n (upd_peer i f md).
Proof.
  intros Hf Hmd p Hp.
  destruct (decide (0 <= i < Z.of_nat (length (peers md)))); [|by rewrite peer_at_upd_out; auto].
  rewrite peer_at_upd by done. destruct (Z.eqb_spec p i) as [->|]; auto.
Qed.

Lemma indices_ok_fold `{DrbdHeaders} n f l md :
  (forall p, -1 <= bitmap_index p <= DRBD_PEERS_MAX - 1 -> -1 <= bitmap_index (f p) <= DRBD_PEERS_MAX - 1) ->
  indices_ok n md -> indices_ok n (fold_left (fun md p => upd_peer p f md) l md).
Proof. intros Hf. revert md. induction l as [|i l IH]; intros md Hmd; [done|]. apply IH, indices_ok_upd; done. Qed.

Lemma fold_upd_peer (g : md_cpu -> Z) f l md :
  (forall i md, g (upd_peer i f md) = g md) -> g (fold_left (fun md p => upd_peer p f md) l md) = g md.
Proof. intros Hg. revert md. induction l as [|i l IH]; intros md; [done|]. cbn [fold_left]. by rewrite IH, Hg. Qed.

Lemma md_peers_ok_spec `{DrbdHeaders} md :
  md_peers_ok md = true <->
  1 <= max_peers md <= DRBD_PEERS_MAX - 1 /\ -1 <= node_id md <= DRBD_PEERS_MAX - 1 /\ indices_ok (max_peers md) md.
Proof.
  unfold md_peers_ok, indices_ok. rewrite !andb_true_iff, !negb_true_iff, !orb_false_iff, !Z.ltb_ge, forallb_forall.
  split.
  - intros [[[H1 H2] [H3 H4]] Hf]. split; [lia|]. split; [lia|]. intros p Hp.
    specialize (Hf p ltac:(apply list_elem_of_In, elem_upto; lia)).
    rewrite negb_true_iff, orb_false_iff, !Z.ltb_ge in Hf. lia.
  - intros (H1 & H2 & Hf). split; [lia|]. intros p Hp. apply list_elem_of_In, elem_upto in Hp.
    specialize (Hf p Hp). rewrite negb_true_iff, orb_false_iff, !Z.ltb_ge. lia.
Qed.

(** ** Exit codes

    [never c m]: [m] does not exit with code [c]. *)
Definition never {A} (c : Z) (m : M A) : Prop := forall w, (m w).1 <> Exit c.

Lemma never_bind {A B} c (m : M A) (k : A -> M B) : never c m -> (forall a, never c (k a)) -> never c (m ≫= k).
Proof.
  intros Hm Hk w. specialize (Hm w). unfold mbind, M_bind. destruct (m w) as [[a|c'| |] w']; cbn in *; try done.
  - apply Hk.
  - congruence.
Qed.

Lemma never_ret {A} c (a : A) : never c (mret a : M A).
Proof. by intros w. Qed.

Lemma never_gets {A} c (f : world -> A) : never c (gets f).
Proof. by intros w. Qed.

Lemma never_upd_cfg c f : never c (upd_cfg f).
Proof. by intros w. Qed.

Lemma never_upd_md c f : never c (upd_md f).
Proof. by intros w. Qed.

Lemma never_ASSERT c b : never c (ASSERT b).
Proof. intros w. by destruct b. Qed.

Lemma never_exit {A} c c' : c' <> c -> never c (exit c' : M A).
Proof. intros Hc w Hw. by injection Hw. Qed.

Create HintDb never.
#[export] Hint Resolve never_ret never_gets never_upd_cfg never_upd_md never_ASSERT : never.
#[export] Hint Extern 1 (never _ (exit _)) => apply never_exit; discriminate : never.

Ltac never :=
  repeat lazymatch goal with
    | |- never _ (mbind _ _) => apply never_bind; [|intros ?]
    | |- never _ (if ?b then _ else _) => destruct b
    | |- never _ cfg => unfold cfg
    | |- never _ opt => unfold opt
    | |- never _ _ => first [solve [auto with never] | fail]
    end.

Lemma re_init_not_111 `{DrbdHeaders} : never 111 re_initialize_md_offsets.
Proof. unfold re_initialize_md_offsets, max_usable_sectors, bm_bytes. never. Qed.

(** ** The conversions succeed *)

(** What a conversion needs: peers in range, and sizes the layout is computed from. *)
Record convertible `{DrbdHeaders} (k n : Z) (md : md_cpu) : Prop := {
  cv_peers : md_peers_ok md = true;
  cv_block : block_size md k;
  cv_al : al_size_ok md /\ al_blocks md = n
}.

Lemma convertible_same `{DrbdHeaders} k n md md' :
  max_peers md' = max_peers md -> node_id md' = node_id md -> peers md' = peers md ->
  bm_bytes_per_bit md' = bm_bytes_per_bit md -> al_blocks md' = al_blocks md ->
  convertible k n md -> convertible k n md'.
Proof.
  intros Hm Hn Hp Hb Ha [H1 H2 H3]. split.
  - unfold md_peers_ok, peer_at in *. by rewrite Hm, Hn, Hp.
  - unfold block_size in *. by rewrite Hb.
  - unfold al_size_ok in *. by rewrite Ha.
Qed.

Lemma convertible_defaults `{DrbdHeadersOk} k n md o : convertible k n md -> convertible k n (md_defaults o md).
Proof.
  intros Hc. pose proof Hc as [Hp [Hk Hb] _]. apply md_peers_ok_max in Hp.
  assert (0 < 2 ^ k) by (apply Z.pow_pos_nonneg; lia).
  refine (convertible_same _ _ md _ _ _ _ _ _ Hc); try reflexivity; unfold md_defaults; cbn.
  - destruct (Z.eqb_spec (max_peers md) 0); [lia | reflexivity].
  - destruct (Z.eqb_spec (bm_bytes_per_bit md) 0); [lia | reflexivity].
Qed.

Lemma convertible_layout `{DrbdHeaders} k n md md' : same_but_layout md md' -> convertible k n md -> convertible k n md'.
Proof. intros (size & al & bm & ->). by apply convertible_same. Qed.

Section conversions.
Context `{DrbdHeadersOk} (k n : Z).

(** The place is that of [w0]; the fixed layout of 0.7 has an activity log of
    eight blocks. *)
Context (w0 : world) (Hidx : md_index (w_cfg w0) = DRBD_MD_INDEX_INTERNAL -> n = 8)
  (Hbd : 0 <= cfg_bd_size (w_cfg w0) <= 2 ^ 50).

Definition valid_here_as (f : md_format) (w : world) : Prop :=
  is_valid_md f (cfg_md (w_cfg w)) (md_index (w_cfg w)) (cfg_bd_size (w_cfg w)) w = (Ok true, w).

(** After a conversion: at the same place, convertible, valid. *)
Definition converted_to (f : md_format) (r : res unit * world) : Prop :=
  r.1 <> Exit 111 /\
  (r.1 = Ok () -> same_place w0 r.2 /\ convertible k n (cfg_md (w_cfg r.2)) /\ valid_here_as f r.2).

Lemma conversion_done_ok f w :
  f = DRBD_V07 \/ f = DRBD_V08 \/ f = DRBD_V09 -> same_place w0 w ->
  convertible k n (cfg_md (w_cfg w)) -> md_magic_ok f (cfg_md (w_cfg w)) = true ->
  converted_to f (conversion_done f w).
Proof.
  intros Hf Hpl Hc Hm. pose proof Hpl as (_ & Hi & Hb & _).
  unfold conversion_done, converted_to. pose proof (re_init_not_111 w) as H111.
  pose proof (keeps_place_re_init w) as Hk.
  destruct (re_initialize_md_offsets w) as [[[]|c| |] w1] eqn:Hr; cbn [fst snd] in *;
    [rewrite (bind_ok _ _ _ _ _ Hr) | unfold mbind, M_bind; rewrite Hr; split; [cbn; congruence | done]..].
  apply (convertible_defaults k n _ (w_opt w)) in Hc. pose proof Hc as [Hp Hbl [Hal Hn]].
  assert (Hfix : fixed_log (md_index (w_cfg w)) (cfg_md (w_cfg w))).
  { intros Hx. rewrite Hi in Hx. apply Hidx in Hx as ->. transitivity (al_size_sect (md_defaults (w_opt w) (cfg_md (w_cfg w)))); [done|].
    rewrite al_size_sect_eq, Hn by done. done. }
  assert (Hli : layout_input f (md_defaults (w_opt w) (cfg_md (w_cfg w))) k) by (split; [done | exact Hm | done..]).
  assert (Hpl1 : same_place w0 w1) by (etransitivity; [exact Hpl | exact Hk]).
  assert (Hv : valid_here_as f w1).
  { unfold valid_here_as. destruct Hk as (_ & Hi1 & Hb1 & _). rewrite Hi1, Hb1.
    by apply (re_init_valid w w1 f k); rewrite ?Hb. }
  rewrite bind_cfg, (bind_ok _ _ _ _ _ Hv). cbv match. rewrite run_mret. split; [done|]. intros _. split; [done|].
  split; [|exact Hv]. eapply convertible_layout; [|exact Hc].
  eapply (re_init_shape w w1 k); rewrite ?Hb; try done. by apply md_peers_ok_max.
Qed.

Lemma convertible_uuids md bits : convertible k n md -> convertible k n (uuids_07_to_08 bits md).
Proof.
  unfold uuids_07_to_08. generalize (seqZ (if bits then UI_BITMAP else UI_HISTORY_START)
    (UI_HISTORY_END - (if bits then UI_BITMAP else UI_HISTORY_START) + 1)). intros l Hc.
  revert md Hc. induction l as [|i l IH]; intros md Hc; [done|]. cbn [fmap list_fmap fold_left].
  apply IH. unfold set_predecessor. destruct (i =? UI_BITMAP).
  - destruct Hc as [Hp Hb Ha]. split; [|exact Hb | exact Ha].
    apply md_peers_ok_spec in Hp as (H1 & H2 & H3). apply md_peers_ok_spec. split_and!; try apply H1; try apply H2.
    by apply indices_ok_upd.
  - revert Hc. by apply convertible_same.
Qed.

Lemma convertible_07_to_08 md bits :
  convertible k n md ->
  convertible k n (uuids_07_to_08 bits
    (upd_peer 0 (fun p => p <| bitmap_uuid := 0 |>)
      (md <| magic := DRBD_MD_MAGIC_08 |> <| flags := arr (gc md) Flags |> <| current_uuid := uuid_of_gc (gc md) |>))).
Proof.
  intros [Hp Hb Ha]. apply convertible_uuids. split; [|exact Hb | exact Ha].
  apply md_peers_ok_spec in Hp as (H1 & H2 & H3). apply md_peers_ok_spec. split_and!; try apply H1; try apply H2.
  by apply indices_ok_upd.
Qed.

Lemma flags_08_to_09_same (g : md_cpu -> Z) md :
  (forall i f md, g (upd_peer i f md) = g md) -> (forall x md, g (md <| flags := x |>) = g md) ->
  g (flags_08_to_09 md) = g md.
Proof. intros Hu Hf. unfold flags_08_to_09. rewrite Hf, Hu. by apply fold_upd_peer. Qed.

Lemma convertible_08_to_09 md :
  convertible k n md -> convertible k n (flags_08_to_09 md <| node_id := -1 |> <| magic := DRBD_MD_MAGIC_09 |>).
Proof.
  pose proof peers_max as Hpm. intros [Hp Hb Ha]. apply md_peers_ok_spec in Hp as (H1 & H2 & H3).
  assert (Hmp : max_peers (flags_08_to_09 md) = max_peers md) by (by apply flags_08_to_09_same).
  assert (Hbb : bm_bytes_per_bit (flags_08_to_09 md) = bm_bytes_per_bit md) by (by apply flags_08_to_09_same).
  assert (Hab : al_blocks (flags_08_to_09 md) = al_blocks md) by (by apply flags_08_to_09_same).
  split.
  - apply md_peers_ok_spec.
    replace (max_peers (_ <| magic := _ |>)) with (max_peers md) by (symmetry; exact Hmp).
    split; [exact H1|]. split; [change (-1 <= -1 <= DRBD_PEERS_MAX - 1); lia|].
    assert (Hi : indices_ok (max_peers md) (flags_08_to_09 md)); [|exact Hi].
    unfold flags_08_to_09. apply (indices_ok_upd (max_peers md) 0); [done|].
    apply indices_ok_fold; [|exact H3]. intros p _. cbn. lia.
  - unfold block_size in *. by rewrite <- Hbb in Hb.
  - unfold al_size_ok in *. by rewrite <- Hab in Ha.
Qed.

Lemma convertible_09_to_08 md :
  convertible k n md -> convertible k n (flags_09_to_08 md <| magic := DRBD_MD_MAGIC_08 |> <| max_peers := 1 |>).
Proof.
  pose proof peers_max as Hpm. intros [Hp Hb Ha]. apply md_peers_ok_spec in Hp as (H1 & H2 & H3). split; [|exact Hb | exact Ha].
  apply md_peers_ok_spec. split; [cbn; lia|]. split; [exact H2|].
  intros p Hp. apply H3. change (0 <= p < 1) in Hp. lia.
Qed.

(** The cases of [convert_md]. *)
Definition supported (from to : md_format) : Prop :=
  from = DRBD_V07 /\ to = DRBD_V08 \/ from = DRBD_V08 /\ to = DRBD_V09 \/
  from = DRBD_V07 /\ to = DRBD_V09 \/ from = DRBD_V09 /\ to = DRBD_V08 \/
  from = DRBD_V08 /\ to = DRBD_V07 \/ from = DRBD_V09 /\ to = DRBD_V07.

Lemma magic_uuids bits md : magic (uuids_07_to_08 bits md) = magic md.
Proof.
  unfold uuids_07_to_08. generalize (seqZ (if bits then UI_BITMAP else UI_HISTORY_START)
    (UI_HISTORY_END - (if bits then UI_BITMAP else UI_HISTORY_START) + 1)). intros l.
  revert md. induction l as [|i l IH]; intros md; [done|]. cbn [fmap list_fmap fold_left].
  rewrite IH. unfold set_predecessor. by destruct (i =? UI_BITMAP).
Qed.

Lemma convert_07_to_08_ok w :
  same_place w0 w -> convertible k n (cfg_md (w_cfg w)) -> converted_to DRBD_V08 (md_convert_07_to_08 w).
Proof.
  intros Hpl Hc. unfold md_convert_07_to_08. run. apply conversion_done_ok; [by right; left | exact Hpl | |].
  - by apply convertible_07_to_08.
  - unfold md_magic_ok. rewrite w_cfg_set.
    match goal with |- context [magic (cfg_md (?c <| cfg_md := ?m |>))] =>
      replace (cfg_md (c <| cfg_md := m |>)) with m by reflexivity end.
    rewrite magic_uuids. apply orb_true_iff. left. apply Z.eqb_refl.
Qed.

Lemma convert_08_to_09_ok w :
  same_place w0 w -> convertible k n (cfg_md (w_cfg w)) -> converted_to DRBD_V09 (md_convert_08_to_09 w).
Proof.
  intros Hpl Hc. unfold md_convert_08_to_09. run. apply conversion_done_ok; [by right; right | exact Hpl | |].
  - by apply convertible_08_to_09.
  - apply Z.eqb_refl.
Qed.

Lemma convert_09_to_08_ok w :
  same_place w0 w -> convertible k n (cfg_md (w_cfg w)) -> converted_to DRBD_V08 (md_convert_09_to_08 w).
Proof.
  intros Hpl Hc. unfold md_convert_09_to_08. run. apply conversion_done_ok; [by right; left | exact Hpl | |].
  - by apply convertible_09_to_08.
  - apply orb_true_iff. left. apply Z.eqb_refl.
Qed.

Lemma convertible_08_to_07 md : convertible k n md -> convertible k n (md <| magic := DRBD_MD_MAGIC_07 |>).
Proof. by apply convertible_same. Qed.

Lemma convert_08_to_07_ok w :
  same_place w0 w -> convertible k n (cfg_md (w_cfg w)) -> converted_to DRBD_V07 (md_convert_08_to_07 w).
Proof.
  intros Hpl Hc. unfold md_convert_08_to_07. run. apply conversion_done_ok; [by left | exact Hpl | |].
  - by apply convertible_08_to_07.
  - apply Z.eqb_refl.
Qed.

Lemma converted_bind f g (m m' : M unit) w :
  converted_to f (m w) -> (forall w1, same_place w0 w1 -> convertible k n (cfg_md (w_cfg w1)) -> converted_to g (m' w1)) ->
  converted_to g ((m;; m') w).
Proof.
  intros [H111 Hm] Hn. unfold mbind, M_bind. destruct (m w) as [[[]|c| |] w1]; cbn [fst snd] in *.
  - destruct (Hm eq_refl) as (Hpl & Hc & _). by apply Hn.
  - split; [cbn; congruence | done].
  - by split.
  - by split.
Qed.
End conversions.

(** ** Flags as bits *)

Lemma u32_testbit x i : 0 <= i -> Z.testbit (u32 x) i = (i <? 32) && Z.testbit x i.
Proof.
  intros Hi. unfold u32. destruct (Z.ltb_spec i 32).
  - by rewrite Z.mod_pow2_bits_low.
  - by rewrite Z.mod_pow2_bits_high by lia.
Qed.

Lemma has_bit x i : 0 <= i < 32 -> has_bits x (2 ^ i) = Z.testbit x i.
Proof.
  intros Hi. unfold has_bits, truth. assert (2 ^ i < 2 ^ 32) by (apply Z.pow_lt_mono_r; lia).
  rewrite u32_id by (unfold in_u32; lia).
  destruct (Z.testbit x i) eqn:E.
  - apply negb_true_iff, Z.eqb_neq. intros Hz. apply (f_equal (fun n => Z.testbit n i)) in Hz.
    rewrite Z.land_spec, E, Z.pow2_bits_true, Z.bits_0 in Hz by lia. done.
  - apply negb_false_iff, Z.eqb_eq, Z.bits_inj'. intros n Hn. rewrite Z.land_spec, Z.bits_0.
    destruct (Z.eq_dec n i) as [->|]; [by rewrite E | by rewrite Z.pow2_bits_false, andb_false_r by lia].
Qed.

Lemma set_bit x i n : 0 <= i < 32 -> 0 <= n -> Z.testbit (set_bits x (2 ^ i)) n = Z.testbit x n || (n =? i).
Proof.
  intros Hi Hn. unfold set_bits. assert (2 ^ i < 2 ^ 32) by (apply Z.pow_lt_mono_r; lia).
  rewrite u32_id by (unfold in_u32; lia). rewrite Z.lor_spec. f_equal.
  destruct (Z.eqb_spec n i) as [->|]; [by rewrite Z.pow2_bits_true by lia | by rewrite Z.pow2_bits_false by lia].
Qed.

Lemma clear_bit x m n : 0 <= n < 32 -> Z.testbit (clear_bits x m) n = Z.testbit x n && negb (Z.testbit m n).
Proof.
  intros Hn. unfold clear_bits. rewrite Z.land_spec, u32_testbit, Z.lnot_spec by lia.
  destruct (Z.ltb_spec n 32); [done | lia].
Qed.

Lemma in_u32_bits x n : in_u32 x -> 32 <= n -> Z.testbit x n = false.
Proof.
  intros [H1 H2] Hn. destruct (Z.eq_dec x 0) as [->|]; [apply Z.bits_0|].
  apply Z.bits_above_log2; [done|]. assert (Z.log2 x < 32) by (apply Z.log2_lt_pow2; lia). lia.
Qed.

Lemma carry_bit x i j y n :
  0 <= i < 32 -> 0 <= j < 32 -> 0 <= n ->
  Z.testbit (carry_flag x (2 ^ i) (2 ^ j) y) n = Z.testbit y n || (Z.testbit x i && (n =? j)).
Proof.
  intros Hi Hj Hn. unfold carry_flag. rewrite has_bit by done.
  destruct (Z.testbit x i); [by rewrite set_bit | by rewrite orb_false_r].
Qed.

(** Three different flags of a 32 bit word. *)
Definition distinct_flags (a b c : Z) : Prop :=
  exists i j k, a = 2 ^ i /\ b = 2 ^ j /\ c = 2 ^ k /\ 0 <= i < 32 /\ 0 <= j < 32 /\ 0 <= k < 32 /\
    i <> j /\ j <> k /\ i <> k.

(** The flags of the peer that takes over the flags of DRBD 8. *)
Lemma first_peer_flags `{DrbdHeadersOk} (f : peer_md_cpu -> peer_md_cpu) md :
  (forall p, peer_flags (f p) = 0) -> length (peers md) = Z.to_nat DRBD_PEERS_MAX ->
  peer_flags (peer_at (fold_left (fun md p => upd_peer p f md) (upto DRBD_NODE_ID_MAX) md) 0) = 0 /\
  length (peers (fold_left (fun md p => upd_peer p f md) (upto DRBD_NODE_ID_MAX) md)) = Z.to_nat DRBD_PEERS_MAX.
Proof.
  intros Hf Hl. pose proof node_id_max as Hn. pose proof peers_max as Hp.
  assert (Hlen : forall l md, length (peers md) = Z.to_nat DRBD_PEERS_MAX ->
    length (peers (fold_left (fun md p => upd_peer p f md) l md)) = Z.to_nat DRBD_PEERS_MAX).
  { induction l as [|i l IH]; intros md' Hl'; [done|]. cbn [fold_left]. apply IH.
    by rewrite peers_upd, length_zinsert. }
  assert (Hkeep : forall l md, length (peers md) = Z.to_nat DRBD_PEERS_MAX -> peer_flags (peer_at md 0) = 0 ->
    peer_flags (peer_at (fold_left (fun md p => upd_peer p f md) l md) 0) = 0).
  { induction l as [|i l IH]; intros md' Hl' H0'; [done|]. cbn [fold_left]. apply IH.
    - by rewrite peers_upd, length_zinsert.
    - destruct (decide (0 <= i < Z.of_nat (length (peers md')))); [|by rewrite peer_at_upd_out].
      rewrite peer_at_upd by done. by destruct (0 =? i). }
  split; [|by apply Hlen].
  unfold upto. rewrite seqZ_cons by lia. cbn [fold_left]. apply Hkeep.
  - by rewrite peers_upd, length_zinsert.
  - rewrite peer_at_upd by lia. apply Hf.
Qed.

(** ** Theorems *)

(** C17: a conversion of meta data that are in range, between any two of the
    formats 0.7, 8 and 9, never ends with the internal error 111; if it returns,
    the meta data are valid in the new format at the place where they will be
    written.  The fixed internal layout of 0.7 has room for an activity log of
    eight blocks only: there, this is about logs of that size. *)
Theorem conversion_is_valid `{DrbdHeadersOk} from w k n :
  supported from (ops (w_cfg w)) ->
  (md_index (w_cfg w) = DRBD_MD_INDEX_INTERNAL -> n = 8) -> 0 <= cfg_bd_size (w_cfg w) <= 2 ^ 50 ->
  convertible k n (cfg_md (w_cfg w)) ->
  converted_to k n w (ops (w_cfg w)) (convert_md from w).
Proof.
  intros Hs Hi Hbd Hc. unfold convert_md. rewrite bind_cfg.
  destruct Hs as [[-> Hto]|[[-> Hto]|[[-> Hto]|[[-> Hto]|[[-> Hto]|[-> Hto]]]]]]; rewrite Hto.
  - by apply convert_07_to_08_ok.
  - by apply convert_08_to_09_ok.
  - eapply converted_bind; [by apply convert_07_to_08_ok|]. intros w1 Hpl Hc1. by apply convert_08_to_09_ok.
  - by apply convert_09_to_08_ok.
  - by apply convert_08_to_07_ok.
  - eapply converted_bind; [by apply convert_09_to_08_ok|]. intros w1 Hpl Hc1. by apply convert_08_to_07_ok.
Qed.

(** With any other size of the log, the fixed internal layout is refused with 111. *)
Lemma fixed_layout_refused :
  let w := layout_example DRBD_MD_INDEX_INTERNAL in
  let w := set_cfg (w_cfg w <| ops := DRBD_V07 |>) w in
  al_blocks (cfg_md (w_cfg w)) = 16 /\ (convert_md DRBD_V08 w).1 = Exit 111.
Proof. by vm_compute. Qed.

(** The 1 GiB device of the layout example, with meta data of DRBD 9. *)
Definition conversion_example : world :=
  let w := layout_example DRBD_MD_INDEX_FLEX_INT in
  set_cfg (w_cfg w <| ops := DRBD_V08 |>
                   <| cfg_md := cfg_md (w_cfg w) <| bm_bytes_per_bit := 4096 |> |>) w.

(** From 9 to 8, and from 8 to 0.7 in its fixed layout with a log of eight blocks. *)
Definition conversion_07_example : world :=
  let w := layout_example DRBD_MD_INDEX_INTERNAL in
  set_cfg (w_cfg w <| ops := DRBD_V07 |>
                   <| cfg_md := cfg_md (w_cfg w) <| bm_bytes_per_bit := 4096 |> <| al_stripes := 1 |> |>) w.

Lemma conversion_is_valid_witness :
  converted_to 12 16 conversion_example DRBD_V08 (convert_md DRBD_V09 conversion_example) /\
  (convert_md DRBD_V09 conversion_example).1 = Ok () /\
  converted_to 12 8 conversion_07_example DRBD_V07 (convert_md DRBD_V08 conversion_07_example) /\
  (convert_md DRBD_V08 conversion_07_example).1 = Ok ().
Proof.
  split_and!; [|by vm_compute| |by vm_compute].
  - apply (conversion_is_valid DRBD_V09 conversion_example 12 16).
    + do 3 right. by left.
    + done.
    + vm_compute. split; discriminate.
    + split; [by vm_compute|by vm_compute|split; [by vm_compute|reflexivity]].
  - apply (conversion_is_valid DRBD_V08 conversion_07_example 12 8).
    + do 4 right. by left.
    + done.
    + vm_compute. split; discriminate.
    + split; [by vm_compute|by vm_compute|split; [by vm_compute|reflexivity]].
Defined.

(** the flags of DRBD 8 about its peer, which the conversion to 9 moves into
    the slot of a peer, come back unchanged when 9 is converted to 8 again. *)
Theorem flags_08_09_roundtrip `{DrbdHeadersOk} md :
  distinct_flags MDF_CONNECTED_IND MDF_FULL_SYNC MDF_PEER_OUT_DATED ->
  distinct_flags MDF_PEER_CONNECTED MDF_PEER_FULL_SYNC MDF_PEER_OUTDATED -> md_wf md ->
  flags (flags_09_to_08 (flags_08_to_09 md)) = flags md.
Proof.
  intros (c & f & o & Hc & Hf & Ho & Hcr & Hfr & Hor & Hcf & Hfo & Hco)
    (pc & pf & po & Hpc & Hpf & Hpo & Hpcr & Hpfr & Hpor & Hpcf & Hpfo & Hpco) Hwf.
  pose proof (proj1 (wf_peers _ Hwf)) as Hlen. pose proof peers_max as Hpm.
  assert (Hfx : in_u32 (flags md)) by apply (wf_flags _ Hwf). set (x := flags md) in *.
  destruct (first_peer_flags (fun peer => peer <| bitmap_uuid := 0 |> <| peer_flags := 0 |> <| bitmap_index := -1 |>) md
              ltac:(done) Hlen) as [Hz Hl].
  assert (Hx : flags (fold_left (fun md p => upd_peer p (fun peer => peer <| bitmap_uuid := 0 |> <| peer_flags := 0 |>
                 <| bitmap_index := -1 |>) md) (upto DRBD_NODE_ID_MAX) md) = x) by (by apply fold_upd_peer).
  unfold flags_09_to_08, flags_08_to_09. set (md1 := fold_left _ _ _) in *. clearbody md1.
  match goal with |- flags (_ <| flags := ?v |>) = _ => change (v = x) end.
  match goal with |- context [peer_at (?m <| flags := ?v |>) 0] =>
    replace (peer_at (m <| flags := v |>) 0) with (peer_at m 0) by reflexivity;
    replace (flags (m <| flags := v |>)) with v by reflexivity end.
  rewrite peer_at_upd by (rewrite Hl; lia). rewrite Z.eqb_refl.
  match goal with |- context [flags (upd_peer 0 ?g ?m)] =>
    replace (flags (upd_peer 0 g m)) with (flags m) by reflexivity end.
  cbv beta. 
  match goal with |- context [peer_flags (?p <| peer_flags := ?v |>)] =>
    replace (peer_flags (p <| peer_flags := v |>)) with v by reflexivity end.
  rewrite Hz, Hx, Hc, Hf, Ho, Hpc, Hpf, Hpo. clear Hz Hx. clearbody x.
  apply Z.bits_inj'. intros n Hn.
  rewrite !carry_bit by done. rewrite !carry_bit by lia. rewrite !Z.bits_0, ?orb_false_l.
  destruct (Z.lt_ge_cases n 32) as [Hn32|Hn32].
  2: { rewrite (in_u32_bits x n) by done.
       assert (Z.testbit (clear_bits x (Z.lor (Z.lor (2 ^ c) (2 ^ f)) (2 ^ o))) n = false) as ->.
       { unfold clear_bits. rewrite Z.land_spec, (in_u32_bits x n) by done. done. }
       replace (n =? c) with false by lia. replace (n =? f) with false by lia. replace (n =? o) with false by lia.
       by rewrite !andb_false_r. }
  rewrite clear_bit, !Z.lor_spec by lia.
  repeat match goal with |- context [?a =? ?b] => destruct (Z.eqb_spec a b); try lia end.
  all: subst; rewrite ?Z.pow2_bits_true, ?Z.pow2_bits_false by lia.
  all: repeat match goal with |- context [Z.testbit ?y ?i] => destruct (Z.testbit y i) end; reflexivity.
Qed.

Lemma flags_08_09_roundtrip_witness :
  let md := example_md_09 <| flags := 2 ^ 5 + 2 ^ 3 + 2 ^ 0 |> in
  flags (flags_08_to_09 md) = 2 ^ 0 /\ flags (flags_09_to_08 (flags_08_to_09 md)) = 2 ^ 5 + 2 ^ 3 + 2 ^ 0.
Proof.
  intros md. split; [by vm_compute|]. apply (flags_08_09_roundtrip md).
  - exists 2, 3, 5. vm_compute. intuition congruence.
  - exists 0, 3, 1. vm_compute. intuition congruence.
  - concrete_wf.
Defined.
