(* ===== verification/Resize.v ===== *)
(** * Moving internal meta data after the device has grown

    [v08_move_internal_md_after_resize] copies the activity log and the bitmap
    from the end of the smaller device to the end of the larger one, in chunks
    from the end because the areas may overlap, writes the new super block and
    wipes the old area. *)

From S2P Require Import Prelude Machine Headers SharedTool MetaData OnDisk Layout OpenMd.
From stdpp Require Import strings.

#[local] Open Scope Z_scope.

(** The number of chunks of at most [buffer_size] bytes, and one more. *)
Definition chunk_fuel (bytes : Z) : nat := S (Z.to_nat (bytes / buffer_size)).

(** Whole chunks, from the last one down; returns where the rest ends.  [bm_offset]
    is where the byte at [old_bm_offset] goes. *)
Fixpoint move_bitmap_loop (n : nat) (old_bm_offset bm_offset cur_offset : Z) : M Z :=
  match n with
  | O => fault
  | S n' =>
      if old_bm_offset <? cur_offset then
        pread_or_die 0 buffer_size cur_offset;;
        pwrite_buffer_or_die buffer_size (s64 (bm_offset + (cur_offset - old_bm_offset)));;
        move_bitmap_loop n' old_bm_offset bm_offset (cur_offset - buffer_size)
      else mret cur_offset
  end.

(** Writing the buffer to [off, end), a chunk at a time, after [before off]. *)
Fixpoint fill_loop (n : nat) (before : Z -> M unit) (off end_ : Z) : M unit :=
  match n with
  | O => fault
  | S n' =>
      if off <? end_ then
        let chunk := if buffer_size <? end_ - off then buffer_size else end_ - off in
        before off;;
        pwrite_buffer_or_die chunk off;;
        fill_loop n' before (off + chunk) end_
      else mret ()
  end.

Definition fill (before : Z -> M unit) (byte off end_ : Z) : M unit :=
  upd_buf (fun b => memset b 0 byte buffer_size);;
  fill_loop (S (chunk_fuel (end_ - off))) before off end_.

(** The part of the new bitmap that the old one did not have. *)
Definition init_trailing_bitmap (md_old : md_cpu) : M unit :=
  o ← opt;
  c ← cfg;
  match option_initialize_bitmap_mode o with
  | IBM_SKIP => mret ()
  | mode =>
      let old_bm_bytes := (al_offset md_old - bm_offset md_old) * 512 in
      fill (fun _ => mret ()) (match mode with IBM_SET_ALL => 0xff | _ => 0x00 end)
        (s64 (cfg_bm_offset c + old_bm_bytes)) (s64 (cfg_bm_offset c + cfg_bm_bytes c))
  end.

Definition move_al (md_old : md_cpu) (old_offset : Z) : M unit :=
  c ← cfg;
  let cur_offset := old_offset + al_offset md_old * 512 in
  pread_or_die 0 (u64 (old_offset - cur_offset)) cur_offset;;
  pwrite_buffer_or_die (u64 (old_offset - cur_offset)) (s64 (cfg_al_offset c)).

Definition move_bitmap (md_old : md_cpu) (old_offset : Z) : M unit :=
  c ← cfg;
  let old_bm_offset := old_offset + bm_offset md_old * 512 in
  let start := old_offset + al_offset md_old * 512 - buffer_size in
  cur_offset ← move_bitmap_loop (S (chunk_fuel (start - old_bm_offset + buffer_size))) old_bm_offset
                 (cfg_bm_offset c) start;
  let last_chunk_size := u64 (buffer_size - (old_bm_offset - cur_offset)) in
  pread_or_die 0 last_chunk_size old_bm_offset;;
  pwrite_buffer_or_die last_chunk_size (s64 (cfg_bm_offset c)).

(** Zeroes the old area, up to where the new one begins.  [wipe_resize] announces
    each write. *)
Definition wipe_old_area (md_old : md_cpu) (old_offset : Z) : M unit :=
  c ← cfg;
  let wipe_off := old_offset + bm_offset md_old * 512 in
  let wipe_end := old_offset + 4096 in
  let wipe_end := if u64 (cfg_bm_offset c) <? u64 wipe_end then s64 (cfg_bm_offset c) else wipe_end in
  fill (fun off => upd_cfg (fun c => c <| wipe_resize := u64 off |>)) 0 wipe_off wipe_end;;
  printf ("Old meta data region zeroed." +:+ nl).

Definition v08_move_internal_md_after_resize `{DrbdHeaders} : M Z :=
  c ← cfg;
  ASSERT (version_ge c DRBD_V08);;
  ASSERT (md_index c =? DRBD_MD_INDEX_FLEX_INT);;
  ASSERT (bd_size (lk_bd c) <=? cfg_bd_size c);;
  let md_old := cfg_md c in
  ok ← is_valid_md (ops c) md_old DRBD_MD_INDEX_FLEX_INT (bd_size (lk_bd c));
  ASSERT ok;;
  let old_offset := s64 (v07_style_md_get_byte_offset DRBD_MD_INDEX_FLEX_INT (bd_size (lk_bd c))) in
  re_initialize_md_offsets;;
  move_al md_old old_offset;;
  move_bitmap md_old old_offset;;
  init_trailing_bitmap md_old;;
  re_initialize_md_offsets;;
  err ← md_cpu_to_disk;
  (if err =? 0 then printf ("Internal drbd meta data successfully moved." +:+ nl) else mret ());;
  c ← cfg;
  (if (err =? 0) && (u64 old_offset <? cfg_bm_offset c) then wipe_old_area md_old old_offset else mret ());;
  rc ← md_close;
  mret (of_bool (truth rc || truth err)).
