(* ===== verification/Commands.v ===== *)
(** * The commands of drbdmeta

    Each command opens the meta data, does its work and closes them; the result
    is the exit code of the program.  Messages to stderr are not modelled. *)

From S2P Require Import Prelude Machine Headers SharedTool MetaData OnDisk Layout FsDetect GenId.
From S2P Require Import ActivityLog ApplyAl OpenMd InitMd Convert Resize.
From Stdlib Require Import Ascii String.
From stdpp Require Import strings.

#[local] Open Scope Z_scope.

(** [if (cfg->ops->open(cfg)) return -1]: what follows runs with valid meta data
    at their place. *)
Definition with_open `{DrbdHeaders} (k : M Z) : M Z :=
  rc ← md_open;
  if negb (rc_nr rc =? 0) then mret (-1) else k.

(** [err = md_cpu_to_disk(); err = close() || err] *)
Definition write_and_close `{DrbdHeaders} : M Z :=
  err ← md_cpu_to_disk;
  rc ← md_close;
  mret (of_bool (truth rc || truth err)).

(** ** Reading *)

Definition meta_get_gi `{DrbdHeaders} : M Z :=
  with_open
    (c ← cfg;
     o ← opt;
     get_gi_op (ops c) (cfg_md c) (option_node_id o);;
     md_close).

Definition dstate_name `{DrbdHeaders} (flags : Z) : string :=
  if has_bits flags MDF_CONSISTENT then
    if has_bits flags MDF_WAS_UP_TO_DATE then
      if has_bits flags MDF_PEER_OUT_DATED then "UpToDate" else "Consistent"
    else "Outdated"
  else "Inconsistent".

Definition meta_dstate `{DrbdHeaders} : M Z :=
  with_open
    (c ← cfg;
     printf (dstate_name (flags (cfg_md c)) +:+ nl);;
     md_close).

Definition meta_read_dev_uuid `{DrbdHeaders} : M Z :=
  with_open
    (c ← cfg;
     printf (show_x16 (device_uuid (cfg_md c)) nl);;
     md_close).

(** ** Changing the super block *)

Definition meta_set_gi `{DrbdHeaders} (argv : list string) : M Z :=
  match argv with
  | [] => exit 10
  | arg :: _ =>
      with_open
        (c ← cfg;
         o ← opt;
         tmp ← set_gi_op (ops c) (option_node_id o) arg (cfg_md c);
         printf "previously ";;
         get_gi_op (ops c) (cfg_md c) (option_node_id o);;
         printf "set GI to  ";;
         get_gi_op (ops c) tmp (option_node_id o);;
         yes ← confirmed;
         if negb yes then printf ("Operation canceled." +:+ nl);; exit 0
         else
           upd_md (fun _ => tmp);;
           write_and_close)
  end.

Definition meta_outdate `{DrbdHeaders} : M Z :=
  with_open
    (c ← cfg;
     let '(rc, md) := outdate_gi_op (ops c) (cfg_md c) in
     upd_md (fun _ => md);;
     if negb (rc =? 0) then exit 5 else write_and_close).

Definition meta_invalidate `{DrbdHeaders} : M Z :=
  with_open
    (c ← cfg;
     upd_md (fun _ => (invalidate_gi_op (ops c) (cfg_md c)).2);;
     write_and_close).

Definition meta_write_dev_uuid `{DrbdHeaders} (argv : list string) : M Z :=
  match argv with
  | [] => exit 10
  | arg :: _ =>
      with_open
        (let '(uuid, _, _) := strto_u64 arg 16 in
         upd_md (fun md => md <| device_uuid := uuid |>);;
         write_and_close)
  end.

Definition meta_wipe_md `{DrbdHeaders} : M Z :=
  virgin ← md_open;
  if negb (rc_nr virgin =? 0) then mret 0
  else
    yes ← confirmed;
    if negb yes then cancel1
    else
      printf ("Wiping meta data..." +:+ nl);;
      upd_buf (fun b => memset b 0 0 4096);;
      c ← cfg;
      pwrite_buffer_or_die 4096 (s64 (md_offset c));;
      err ← md_close;
      (if err =? 0 then printf ("DRBD meta data block successfully wiped out." +:+ nl) else mret ());;
      lk_bdev_delete;;
      mret err.

(** ** The activity log *)

Definition need_to_apply_al `{DrbdHeaders} (c : format) : bool :=
  match ops c with
  | DRBD_V07 => has_bits (arr (gc (cfg_md c)) Flags) MDF_PRIMARY_IND
  | DRBD_V08 | DRBD_V09 => has_bits (flags (cfg_md c)) MDF_PRIMARY_IND
  | _ => false
  end.

(** The array that [qsort] orders. *)
Definition hot_list (hot : hot_array) : list Z := hot <$> upto AL_EXTENTS_MAX.

(** The format of the log, by the magics of the super block and of its first two
    blocks; [true] with it if the log must be initialized in any case. *)
Definition replay_al `{DrbdHeaders} : M (Z * hot_array * bool) :=
  c ← cfg;
  b ← gets w_buf;
  let md := cfg_md c in
  if is_v07 c then
    '(err, hot) ← replay_al_07 no_hot; mret (err, hot, false)
  else if (DRBD_MD_MAGIC_84_UNCLEAN =? magic md) || (DRBD_MD_MAGIC_09 =? magic md) ||
          (DRBD_AL_MAGIC =? be32_at b al_magic) || (DRBD_AL_MAGIC =? be32_at b (4096 + al_magic)) ||
          negb (al_stripes md =? 1) || negb (al_stripe_size_4k md =? 8) then
    if DRBD_AL_PMEM_MAGIC =? be32_at b pmem_magic then
      '(err, hot) ← replay_al_pmem no_hot; mret (err, hot, false)
    else
      '(err, hot) ← replay_al_84 no_hot; mret (err, hot, false)
  else
    '(err, hot) ← replay_al_07 no_hot; mret (err, hot, true).

(** What is left to do once the bitmap is up to date. *)
Definition mark_al_clean `{DrbdHeaders} (need_to_update_md_flags : bool) : M Z :=
  c ← cfg;
  let md := cfg_md c in
  if need_to_update_md_flags ||
     (version_ge c DRBD_V08 &&
      (negb (has_bits (flags md) MDF_AL_CLEAN) || negb (magic md =? DRBD_MD_MAGIC_08))) then
    upd_md (fun md =>
      let md := if version_ge c DRBD_V08 then md <| flags := set_bits (flags md) MDF_AL_CLEAN |> else md in
      if is_v08 c then md <| magic := DRBD_MD_MAGIC_08 |> else md);;
    write_and_close
  else mret 0.

(** Applies the log if it is needed, and initializes it. *)
Definition apply_and_reset `{DrbdHeaders} (err : Z) (hot : hot_array) (re_initialize_anyways : bool) : M Z :=
  c ← cfg;
  let apply := (0 <? err) && need_to_apply_al c in
  (if apply then r ← apply_al (qsort_u32 (hot_list hot)); mret () else mret ());;
  (if re_initialize_anyways || ((0 <? err) && negb (is_v07 c)) then initialize_al else mret ());;
  mark_al_clean apply.

Definition meta_apply_al `{DrbdHeaders} : M Z :=
  c ← cfg;
  if version_lt c DRBD_V07 then mret (-1)
  else
    rc ← md_open;
    if negb (rc_nr rc =? 0) then mret (-1)
    else
      c ← cfg;
      let al_size := u32 (al_stripes (cfg_md c) * al_stripe_size_4k (cfg_md c) * 4096) in
      pread_or_die 0 (if al_size <? buffer_size then al_size else buffer_size) (s64 (cfg_al_offset c));;
      '(err, hot, re_initialize_anyways) ← replay_al;
      if err <? 0 then
        if need_to_apply_al c then mret (if err =? - ENODATA then 1 else 2)
        else apply_and_reset err hot (re_initialize_anyways || is_v08 c || is_v09 c)
      else apply_and_reset err hot re_initialize_anyways.
