(* ===== verification/Create.v ===== *)
(** * Creating and moving meta data, and the peer slots

    [create-md], [check-resize], [forget-peer] and [repair-md]: the commands that
    combine opening, detection, conversion, initialization and moving. *)

From S2P Require Import Prelude Machine Headers SharedTool MetaData OnDisk Layout FsDetect GenId.
From S2P Require Import OpenMd InitMd Convert Resize Commands.
From Stdlib Require Import Ascii String.
From stdpp Require Import strings.

#[local] Open Scope Z_scope.

(** ** create-md *)

(** A value of [m_strtoll], which ends the program on an error. *)
Definition strtoll_or_die (s : string) (def_unit : ascii) : M Z :=
  match m_strtoll s def_unit with
  | inl r => mret r
  | inr code => exit code
  end.

Definition UNIT_1 : ascii := ascii_of_nat 1.

(** MAX_PEERS, for v09 the first argument. *)
Definition create_max_peers `{DrbdHeaders} (argv : list string) : M Z :=
  c ← cfg;
  max_peers ← (if is_v09 c then
                 match argv with
                 | [] => exit 20
                 | arg :: _ => r ← strtoll_or_die arg UNIT_1; mret (s32 r)
                 end
               else mret 1);
  if (max_peers <? 1) || (DRBD_PEERS_MAX - 1 <? max_peers) then exit 20 else mret max_peers.

(** Valid meta data at the last-known location: [Some] result if they were moved. *)
Definition create_from_last_known `{DrbdHeaders} : M (option Z) :=
  c ← cfg;
  o ← opt;
  (if truth (option_al_stripes_used o) &&
      (negb (option_al_stripes o =? al_stripes (cfg_md c)) ||
       negb (option_al_stripe_size_4k o =? al_stripe_size_4k (cfg_md c)))
   then exit 20 else mret ());;
  yes ← (if force o then mret false else confirmed);
  if (yes : bool) then
    check_for_existing_data;;
    rv ← v08_move_internal_md_after_resize;
    mret (Some rv)
  else upd_md (fun _ => zero_md);; mret None.

(** [mask & (1<<i)]: [1<<i] is an [int], so that bit 31 extends to the upper half. *)
Definition in_peer_mask (mask i : Z) : bool := truth (Z.land mask (u64 (s32 (Z.shiftl 1 i)))).

Definition diskful_peers `{DrbdHeaders} (mask : Z) (md : md_cpu) : md_cpu :=
  fold_left (fun md i =>
    if in_peer_mask mask i
    then upd_peer i (fun p => p <| peer_flags := set_bits (peer_flags p) MDF_PEER_DEVICE_SEEN |>) md
    else md) (upto DRBD_PEERS_MAX) md.

(** The options that win over what was converted. *)
Definition create_overrides `{DrbdHeaders} (converted : bool) (o : options) (md : md_cpu) : md_cpu :=
  let md := if negb converted || truth (option_peer_max_bio_size o)
            then md <| la_peer_max_bio_size := u32 (option_peer_max_bio_size o) |> else md in
  let md := if negb converted || truth (option_effective_size o)
            then md <| effective_size := option_effective_size o |> else md in
  diskful_peers (option_diskful_peer_mask o) md.

(** --initial-current-uuid *)
Definition initial_current_uuid `{DrbdHeaders} (arg : string) : M Z :=
  if String.eqb arg "generate" then generate_random_uuid
  else
    let '(uuid, rest, _) := strto_u64 arg 16 in
    if negb (String.eqb rest "") then exit 10
    else
      let uuid := Z.land uuid (u64 (Z.lnot 1)) in
      if uuid =? 0 then exit 10 else mret uuid.

(** A new current UUID unless there is one. *)
Definition ensure_current_uuid `{DrbdHeaders} : M unit :=
  c ← cfg;
  if current_uuid (cfg_md c) =? UUID_JUST_CREATED then
    uuid ← generate_random_uuid;
    upd_md (fun md => md <| current_uuid := uuid |>)
  else mret ().

Definition every_node `{DrbdHeaders} (f : peer_md_cpu -> peer_md_cpu) (md : md_cpu) : md_cpu :=
  fold_left (fun md p => upd_peer p f md) (upto DRBD_NODE_ID_MAX) md.

Definition rotate_uuids `{DrbdHeaders} : M unit :=
  ensure_current_uuid;;
  upd_md (fun md =>
    let rotate_val := current_uuid md in
    set_history 0 rotate_val (every_node (fun p => p <| bitmap_uuid := rotate_val |>) md));;
  uuid ← generate_random_uuid;
  upd_md (fun md => md <| current_uuid := uuid |>).

(** The options about the initial data generation and disk state. *)
Definition create_initial_state `{DrbdHeaders} : M unit :=
  o ← opt;
  (match option_initial_current_uuid o with
   | None => mret ()
   | Some arg => uuid ← initial_current_uuid arg; upd_md (fun md => md <| current_uuid := uuid |>)
   end);;
  (if option_consistent o || option_uptodate o then ensure_current_uuid else mret ());;
  when (option_consistent o) (upd_md (fun md => md <| flags := set_bits (flags md) MDF_CONSISTENT |>));;
  when (option_uptodate o)
    (upd_md (fun md => md <| flags := set_bits (flags md) (Z.lor MDF_CONSISTENT MDF_WAS_UP_TO_DATE) |>));;
  when (option_peers_outdated o)
    (upd_md (every_node (fun p => p <| peer_flags := set_bits (peer_flags p) MDF_PEER_OUTDATED |>)));;
  (if option_rotate_uuids o then rotate_uuids else mret ()).

(** Converted ([true]) or initialized meta data, and the error code so far. *)
Definition create_or_convert `{DrbdHeaders} (max_peers : Z) : M (bool * Z) :=
  c ← cfg;
  (if (md_index c =? DRBD_MD_INDEX_INTERNAL) || (md_index c =? DRBD_MD_INDEX_FLEX_INT)
   then check_internal_md_flavours else check_external_md_flavours);;
  c ← cfg;
  if magic (cfg_md c) =? 0 then
    err ← md_initialize true max_peers;
    mret (false, err)
  else
    (if version_ge c DRBD_V09 && negb (max_peers =? 1) then
       printf ("Warning: setting max_peers to 1 instead of " +:+ show_int max_peers (nl +:+ nl))
     else mret ());;
    check_for_existing_data;;
    mret (true, 0).

(** The new meta data go to the disk; old ones at another place are wiped. *)
Definition create_write `{DrbdHeaders} (err : Z) : M Z :=
  printf ("Writing meta data..." +:+ nl);;
  err ← (if truth err then mret 1 else r ← md_cpu_to_disk; mret (of_bool (truth r)));
  (if err =? 0 then wipe_after_convert else mret ());;
  rc ← md_close;
  let err := of_bool (truth rc || truth err) in
  (if err =? 0 then printf ("New drbd meta data block successfully created." +:+ nl) else mret ());;
  mret err.

Definition meta_create_md `{DrbdHeaders} (argv : list string) : M Z :=
  max_peers ← create_max_peers argv;
  found ← md_open;
  moved ← (match found with
           | VALID_MD_FOUND_AT_LAST_KNOWN_LOCATION => create_from_last_known
           | _ => mret None
           end);
  match moved with
  | Some rv => mret rv
  | None =>
      '(converted, err) ← create_or_convert max_peers;
      o ← opt;
      upd_md (create_overrides converted o);;
      create_initial_state;;
      create_write err
  end.

(** ** check-resize *)

Definition meta_chk_offline_resize `{DrbdHeaders} : M Z :=
  found ← md_open;
  match found with
  | VALID_MD_FOUND =>
      c ← cfg;
      (if negb (md_index c =? DRBD_MD_INDEX_FLEX_INT) then lk_bdev_delete else mret ());;
      lk ← lk_bdev_load_file;
      (match lk with
       | None => upd_cfg (fun c => c <| update_lk_bdev := true |>)
       | Some lk =>
           upd_cfg (fun c => c <| lk_bd := lk |>);;
           c ← cfg;
           if negb (bd_size lk =? cfg_bd_size c) || negb (bd_uuid lk =? device_uuid (cfg_md c))
           then upd_cfg (fun c => c <| update_lk_bdev := true |>) else mret ()
       end);;
      md_close
  | NO_VALID_MD_FOUND => mret (-1)
  | VALID_MD_FOUND_AT_LAST_KNOWN_LOCATION =>
      c ← cfg;
      ASSERT (version_ge c DRBD_V08);;
      ASSERT (md_index c =? DRBD_MD_INDEX_FLEX_INT);;
      ASSERT (truth (bd_size (lk_bd c)));;
      ASSERT (truth (magic (cfg_md c)));;
      v08_move_internal_md_after_resize
  end.

(** ** The peer slots *)

Definition is_day0_peer (md : md_cpu) (peer_index : Z) : bool :=
  if peer_index =? node_id md then false
  else (bitmap_index (peer_at md peer_index) =? -1) && negb (truth (peer_flags (peer_at md peer_index))).

(** The last of the peers [p - 1 .. 0] that was never used. *)
Fixpoint day0_peer_below (md : md_cpu) (p : nat) : Z :=
  match p with
  | O => -1
  | S p' => if is_day0_peer md (Z.of_nat p') then Z.of_nat p' else day0_peer_below md p'
  end.

Definition day0_peer_id `{DrbdHeaders} (md : md_cpu) : Z :=
  day0_peer_below md (Z.to_nat DRBD_NODE_ID_MAX).

(** The slot of [node] as if the peer had never been seen. *)
Definition forgotten `{DrbdHeaders} (node : Z) (md : md_cpu) : md_cpu :=
  let day0_p := day0_peer_id md in
  let md := upd_peer node (fun p => p <| bitmap_index := -1 |> <| peer_flags := 0 |>) md in
  if -1 <? day0_p then
    upd_peer node (fun p => p <| bitmap_uuid := bitmap_uuid (peer_at md day0_p) |>
                              <| bitmap_dagtag := bitmap_dagtag (peer_at md day0_p) |>) md
  else upd_peer node (fun p => p <| bitmap_uuid := 0 |> <| bitmap_dagtag := 0 |>) md.

(** The result of writing the super block is ignored. *)
Definition meta_forget_peer `{DrbdHeaders} : M Z :=
  with_open
    (o ← opt;
     upd_md (forgotten (option_node_id o));;
     md_cpu_to_disk;;
     rc ← md_close;
     mret (of_bool (truth rc))).

(** The slots [p] of [l] that need the day0 UUID get it; was there one? *)
Fixpoint repair_slots (day0_uuid : Z) (l : list Z) (md : md_cpu) (dirty : bool) : md_cpu * bool :=
  match l with
  | [] => (md, dirty)
  | p :: l' =>
      if is_day0_peer md p && negb (bitmap_uuid (peer_at md p) =? day0_uuid)
      then repair_slots day0_uuid l' (upd_peer p (fun peer => peer <| bitmap_uuid := day0_uuid |>) md) true
      else repair_slots day0_uuid l' md dirty
  end.

Definition repaired `{DrbdHeaders} (md : md_cpu) : md_cpu * bool :=
  repair_slots (bitmap_uuid (peer_at md (day0_peer_id md))) (upto DRBD_NODE_ID_MAX) md false.

Definition meta_repair_md `{DrbdHeaders} : M Z :=
  found ← md_open;
  found ← (match found with
           | VALID_MD_FOUND_AT_LAST_KNOWN_LOCATION =>
               rv ← v08_move_internal_md_after_resize;
               if rv =? 0 then md_open else mret found
           | _ => mret found
           end);
  match found with
  | VALID_MD_FOUND =>
      c ← cfg;
      if day0_peer_id (cfg_md c) <? 0 then mret 0
      else
        o ← opt;
        let '(md, dirty) := repaired (cfg_md c) in
        upd_md (fun _ => md);;
        (if negb (dry_run o) && dirty then md_cpu_to_disk;; mret () else mret ());;
        err ← md_close;
        if truth err then mret err
        else if dry_run o && dirty then mret (-1) else mret 0
  | _ => mret (-1)
  end.

(** ** Repaired peer slots *)

Definition with_uuid (u : Z) (p : peer_md_cpu) : peer_md_cpu := p <| bitmap_uuid := u |>.

(** Every slot has its element of the array. *)
Definition all_slots `{DrbdHeaders} (md : md_cpu) : Prop := DRBD_NODE_ID_MAX <= Z.of_nat (length (peers md)).

(** The slots of [l] that were never used have the UUID [u]; all else is the same. *)
Definition slots_set `{DrbdHeaders} (u : Z) (l : list Z) (md md' : md_cpu) : Prop :=
  node_id md' = node_id md /\ length (peers md') = length (peers md) /\
  forall p, 0 <= p -> peer_at md' p = if bool_decide (p ∈ l) && is_day0_peer md p then with_uuid u (peer_at md p) else peer_at md p.

Lemma is_day0_with_uuid u md md' p :
  node_id md' = node_id md -> peer_at md' p = peer_at md p \/ peer_at md' p = with_uuid u (peer_at md p) ->
  is_day0_peer md' p = is_day0_peer md p.
Proof. intros Hn [Hp|Hp]; unfold is_day0_peer; by rewrite Hn, Hp. Qed.

Lemma slots_set_day0 `{DrbdHeaders} u l md md' p : slots_set u l md md' -> 0 <= p -> is_day0_peer md' p = is_day0_peer md p.
Proof.
  intros (Hn & _ & Hp) H0. apply (is_day0_with_uuid u); [done|]. rewrite Hp by done.
  destruct (_ && _); [by right | by left].
Qed.

Lemma with_uuid_id u p : bitmap_uuid p = u -> with_uuid u p = p.
Proof. intros <-. by destruct p. Qed.

Lemma with_uuid_twice u p : with_uuid u (with_uuid u p) = with_uuid u p.
Proof. by destruct p. Qed.

Lemma slots_set_cons `{DrbdHeaders} u i l md md1 md2 :
  0 <= i -> peer_at md1 i = (if is_day0_peer md i then with_uuid u (peer_at md i) else peer_at md i) ->
  (forall p, 0 <= p -> p <> i -> peer_at md1 p = peer_at md p) -> node_id md1 = node_id md ->
  length (peers md1) = length (peers md) -> slots_set u l md1 md2 -> slots_set u (i :: l) md md2.
Proof.
  intros Hi Hpi Hpo Hn Hl (Hn2 & Hl2 & Hp2). split; [congruence|]. split; [congruence|]. intros p Hp.
  rewrite Hp2 by done. destruct (Z.eq_dec p i) as [->|Hne].
  - rewrite (bool_decide_eq_true_2 (i ∈ i :: l)) by (apply elem_of_cons; by left). cbn [andb].
    assert (Hd : is_day0_peer md1 i = is_day0_peer md i).
    { apply (is_day0_with_uuid u); [done|]. rewrite Hpi. destruct (is_day0_peer md i); auto. }
    rewrite Hd, Hpi. destruct (is_day0_peer md i); [|by rewrite andb_false_r].
    destruct (bool_decide (i ∈ l)); cbn [andb]; [apply with_uuid_twice | done].
  - assert (Hd : is_day0_peer md1 p = is_day0_peer md p).
    { apply (is_day0_with_uuid u); [done|]. left. by apply Hpo. }
    rewrite Hd, Hpo by done.
    rewrite (bool_decide_ext (p ∈ i :: l) (p ∈ l)); [done|]. rewrite elem_of_cons. tauto.
Qed.

Lemma repair_slots_spec `{DrbdHeaders} u l md dirty md' dirty' :
  (forall i, i ∈ l -> 0 <= i < Z.of_nat (length (peers md))) -> repair_slots u l md dirty = (md', dirty') ->
  slots_set u l md md' /\ (dirty' = false -> dirty = false /\ md' = md) /\
  ((forall i, i ∈ l -> is_day0_peer md i = true -> bitmap_uuid (peer_at md i) = u) -> md' = md /\ dirty' = dirty).
Proof.
  revert md dirty. induction l as [|i l IH]; intros md dirty Hl Hr; cbn [repair_slots] in Hr.
  { injection Hr as <- <-. split; [|done]. split; [done|]. split; [done|]. intros p _. done. }
  assert (Hi : 0 <= i < Z.of_nat (length (peers md))) by (apply Hl, elem_of_cons; by left).
  destruct (is_day0_peer md i && negb (bitmap_uuid (peer_at md i) =? u)) eqn:E.
  - apply andb_true_iff in E as [Hd Hne]. apply negb_true_iff, Z.eqb_neq in Hne.
    set (md1 := upd_peer i _ md) in Hr.
    assert (Hl1 : length (peers md1) = length (peers md)) by (unfold md1; by rewrite peers_upd, length_zinsert).
    apply IH in Hr as (Hs & Hdirty & _); [|intros j Hj; rewrite Hl1; apply Hl, elem_of_cons; by right].
    split; [|split].
    + apply (slots_set_cons u i l md md1 md'); try done; [lia | |].
      * unfold md1. by rewrite peer_at_upd, Z.eqb_refl, Hd.
      * intros p _ Hp. unfold md1. rewrite peer_at_upd by done. by destruct (Z.eqb_spec p i).
    + intros Hz. by destruct (Hdirty Hz).
    + intros Hall. destruct Hne. apply Hall; [apply elem_of_cons; by left | done].
  - apply IH in Hr as (Hs & Hdirty & Hclean); [|intros j Hj; apply Hl, elem_of_cons; by right].
    split; [|split].
    + apply (slots_set_cons u i l md md md'); try done; [lia|].
      destruct (is_day0_peer md i) eqn:Hd; [|done]. symmetry. apply with_uuid_id.
      cbn [andb] in E. by apply negb_false_iff, Z.eqb_eq in E.
    + done.
    + intros Hall. apply Hclean. intros j Hj. apply Hall, elem_of_cons. by right.
Qed.

Lemma day0_peer_below_spec md n :
  day0_peer_below md n = -1 /\ (forall p, 0 <= p < Z.of_nat n -> is_day0_peer md p = false) \/
  0 <= day0_peer_below md n < Z.of_nat n /\ is_day0_peer md (day0_peer_below md n) = true.
Proof.
  induction n as [|n IH]; cbn [day0_peer_below]; [left; split; [done | lia]|].
  destruct (is_day0_peer md (Z.of_nat n)) eqn:E; [right; split; [lia | done]|].
  destruct IH as [[H1 H2]|[H1 H2]]; [left | right]; (split; [|]); try done; try lia.
  intros p Hp. destruct (Z.eq_dec p (Z.of_nat n)) as [->|]; [done | apply H2; lia].
Qed.

Lemma day0_peer_below_ext md md' n :
  (forall p, 0 <= p -> is_day0_peer md' p = is_day0_peer md p) -> day0_peer_below md' n = day0_peer_below md n.
Proof. intros Hp. induction n as [|n IH]; cbn [day0_peer_below]; [done|]. by rewrite Hp, IH by lia. Qed.

(** The slots that were never used have one UUID. *)
Definition day0_agree `{DrbdHeaders} (md : md_cpu) : Prop :=
  forall p q, 0 <= p < DRBD_NODE_ID_MAX -> 0 <= q < DRBD_NODE_ID_MAX ->
    is_day0_peer md p = true -> is_day0_peer md q = true -> bitmap_uuid (peer_at md p) = bitmap_uuid (peer_at md q).

(** What a forgotten slot contains. *)
Definition forgotten_slot `{DrbdHeaders} (md : md_cpu) : peer_md_cpu :=
  let d := day0_peer_id md in
  if -1 <? d then mk_peer_md_cpu (bitmap_uuid (peer_at md d)) (bitmap_dagtag (peer_at md d)) 0 (-1)
  else mk_peer_md_cpu 0 0 0 (-1).

Lemma forgotten_peers `{DrbdHeaders} node md p :
  0 <= node < Z.of_nat (length (peers md)) -> 0 <= p ->
  peer_at (forgotten node md) p = (if p =? node then forgotten_slot md else peer_at md p) /\
  node_id (forgotten node md) = node_id md.
Proof.
  intros Hn Hp. unfold forgotten, forgotten_slot. set (d := day0_peer_id md).
  set (md1 := upd_peer node (fun p => p <| bitmap_index := -1 |> <| peer_flags := 0 |>) md).
  assert (Hl : length (peers md1) = length (peers md)) by (unfold md1; by rewrite peers_upd, length_zinsert).
  assert (H1 : forall q, peer_at md1 q = if q =? node then peer_at md node <| bitmap_index := -1 |> <| peer_flags := 0 |> else peer_at md q).
  { intros q. unfold md1. by rewrite peer_at_upd. }
  assert (Hu : bitmap_uuid (peer_at md1 d) = bitmap_uuid (peer_at md d) /\
               bitmap_dagtag (peer_at md1 d) = bitmap_dagtag (peer_at md d)).
  { rewrite H1. by destruct (Z.eqb_spec d node) as [->|]. }
  destruct Hu as [Hu1 Hu2].
  destruct (-1 <? d); rewrite peer_at_upd by (by rewrite Hl); (split; [|done]).
  - rewrite Hu1, Hu2. destruct (p =? node) eqn:E; [by rewrite H1, Z.eqb_refl | by rewrite H1, E].
  - destruct (p =? node) eqn:E; [by rewrite H1, Z.eqb_refl | by rewrite H1, E].
Qed.

(** ** Theorems *)

(** repair-md gives every slot of a peer that was never seen the bitmap UUID
    of the last such slot and changes no other slot; it reports exactly the changes;
    a second repair finds nothing to do. *)
Theorem repair_md_slots `{DrbdHeadersOk} md md' dirty :
  all_slots md -> 0 <= day0_peer_id md -> repaired md = (md', dirty) ->
  let u := bitmap_uuid (peer_at md (day0_peer_id md)) in
  (forall p, 0 <= p < DRBD_NODE_ID_MAX -> is_day0_peer md' p = is_day0_peer md p /\
     peer_at md' p = if is_day0_peer md p then with_uuid u (peer_at md p) else peer_at md p) /\
  (dirty = false -> md' = md) /\ repaired md' = (md', false).
Proof.
  intros Hall Hd Hr u. unfold repaired in Hr. fold u in Hr. unfold all_slots in Hall.
  assert (Hin : forall i, i ∈ upto DRBD_NODE_ID_MAX -> 0 <= i < Z.of_nat (length (peers md))).
  { intros i Hi. apply elem_upto in Hi. lia. }
  apply repair_slots_spec in Hr as (Hs & Hdirty & _); [|done].
  assert (Hslot : forall p, 0 <= p < DRBD_NODE_ID_MAX -> is_day0_peer md' p = is_day0_peer md p /\
     peer_at md' p = if is_day0_peer md p then with_uuid u (peer_at md p) else peer_at md p).
  { intros p Hp. split; [apply (slots_set_day0 _ _ _ _ _ Hs); lia|]. destruct Hs as (_ & _ & Hs).
    rewrite Hs by lia. by rewrite bool_decide_eq_true_2 by (by apply elem_upto). }
  split; [done|]. split; [intros Hz; by destruct (Hdirty Hz)|].
  assert (Hid : day0_peer_id md' = day0_peer_id md).
  { apply day0_peer_below_ext. intros p Hp. by apply (slots_set_day0 _ _ _ _ _ Hs). }
  pose proof node_id_max as Hn.
  destruct (day0_peer_below_spec md (Z.to_nat DRBD_NODE_ID_MAX)) as [[H1' _]|[H1' H2']];
    fold (day0_peer_id md) in *; [lia|].
  assert (Hu : bitmap_uuid (peer_at md' (day0_peer_id md')) = u).
  { rewrite Hid. destruct (Hslot (day0_peer_id md)) as [_ ->]; [lia|]. by rewrite H2'. }
  unfold repaired. rewrite Hu. destruct (repair_slots u _ md' false) as [md2 d2] eqn:E.
  apply repair_slots_spec in E as (_ & _ & Hclean).
  - destruct Hclean as [-> ->]; [|done]. intros i Hi Hdi. apply elem_upto in Hi.
    destruct (Hslot i Hi) as [Hd' Hp']. rewrite Hp'. by rewrite <- Hd', Hdi.
  - intros i Hi. destruct Hs as (_ & -> & _). by apply Hin.
Qed.

(** Node 3 has seen the peer 1; the slot 5 has another UUID. *)
Definition example_slots : md_cpu :=
  example_md_09 <| node_id := 3 |>
    <| peers := <[1%nat := mk_peer_md_cpu 4 0 16 0]> (<[5%nat := mk_peer_md_cpu 99 0 0 (-1)]>
                  (replicate 32 (mk_peer_md_cpu 7 0 0 (-1)))) |>.

Lemma repair_md_slots_witness :
  let md' := (repaired example_slots).1 in
  (repaired example_slots).2 = true /\ bitmap_uuid (peer_at md' 5) = 7 /\ repaired md' = (md', false).
Proof.
  intros md'.
  destruct (repair_md_slots example_slots md' true) as (Hslot & _ & Hclean).
  - by vm_compute.
  - by vm_compute.
  - rewrite (surjective_pairing (repaired example_slots)). f_equal.
  - split; [reflexivity|]. split; [|exact Hclean].
    destruct (Hslot 5) as [_ Hp]; [by vm_compute|]. rewrite Hp. reflexivity.
Defined.

(** forget-peer makes the slot of the node one of a peer that was never seen
    and changes no other slot; and if all such slots had the same bitmap UUID, they
    still do. *)
Theorem forget_peer_slot `{DrbdHeadersOk} node md :
  all_slots md -> 0 <= node < DRBD_NODE_ID_MAX -> node <> node_id md ->
  is_day0_peer (forgotten node md) node = true /\
  (forall p, 0 <= p -> p <> node -> peer_at (forgotten node md) p = peer_at md p) /\
  (0 <= day0_peer_id md -> day0_agree md -> day0_agree (forgotten node md)).
Proof.
  intros Hall Hn Hne. unfold all_slots in Hall.
  assert (Hp : forall p, 0 <= p -> peer_at (forgotten node md) p = if p =? node then forgotten_slot md else peer_at md p).
  { intros p Hp. apply forgotten_peers; [lia | done]. }
  destruct (forgotten_peers node md node ltac:(lia) ltac:(lia)) as [_ Hid].
  split; [|split].
  - unfold is_day0_peer. rewrite Hid, Hp, Z.eqb_refl by lia. destruct (Z.eqb_spec node (node_id md)); [done|].
    unfold forgotten_slot. by destruct (-1 <? day0_peer_id md).
  - intros p H0' Hpn. rewrite Hp by done. by destruct (Z.eqb_spec p node).
  - intros Hd Hagree p q Hpr Hqr Hdp Hdq.
    destruct (day0_peer_below_spec md (Z.to_nat DRBD_NODE_ID_MAX)) as [[Hx _]|[Hx1 Hx2]];
      fold (day0_peer_id md) in *; [lia|].
    assert (Hfs : bitmap_uuid (forgotten_slot md) = bitmap_uuid (peer_at md (day0_peer_id md))).
    { unfold forgotten_slot. by replace (-1 <? day0_peer_id md) with true by lia. }
    assert (Hall_d : forall r, 0 <= r < DRBD_NODE_ID_MAX -> is_day0_peer (forgotten node md) r = true ->
      bitmap_uuid (peer_at (forgotten node md) r) = bitmap_uuid (peer_at md (day0_peer_id md))).
    { intros r Hr Hdr. unfold is_day0_peer in Hdr. rewrite Hid, Hp in Hdr by lia. rewrite Hp by lia.
      destruct (Z.eqb_spec r node) as [->|Hrn]; [exact Hfs|]. apply Hagree; [done | lia | exact Hdr | done]. }
    by rewrite !Hall_d.
Qed.

Lemma forget_peer_slot_witness :
  is_day0_peer example_slots 1 = false /\ is_day0_peer (forgotten 1 example_slots) 1 = true.
Proof.
  split; [reflexivity|]. apply (forget_peer_slot 1 example_slots).
  - by vm_compute.
  - by vm_compute.
  - by vm_compute.
Defined.
