(* ===== verification/Created.v ===== *)
(** * What create-md leaves on the device

    [create-md] ends by writing the super block and, after a change of the layout,
    wiping the old one.  If it succeeds, the format that wrote the super block
    reads it back from the same place.  The invariant [Stay] of the operations in
    between: the place of the meta data is the same, the working copy is well
    typed, and the block that will be wiped is not the one that is written. *)

From S2P Require Import Prelude Machine Headers SharedTool MetaData OnDisk Layout FsDetect GenId.
From S2P Require Import OpenMd SuperBlock InitMd Convert Resize Commands Create.

#[local] Open Scope Z_scope.

(** ** Operations that leave the configuration alone *)

(** A relation that holds if configuration, options and environment are the same. *)
Class SetupRel (R : world -> world -> Prop) := {
  setup_preorder :: PreOrder R;
  setup_step : forall w w', same_setup w w' -> R w w'
}.

#[export] Instance same_setup_rel : SetupRel same_setup.
Proof. split; [typeclasses eauto | done]. Qed.

Lemma keeps_setup {A} (m : M A) : keeps same_setup m -> forall w, same_setup w (m w).2.
Proof. done. Qed.

Section setup.
Context `{DrbdHeaders}.

Lemma setup_modify f : (forall w, same_setup w (f w)) -> keeps same_setup (modify f).
Proof. intros Hf w. apply Hf. Qed.

Lemma setup_printf s : keeps same_setup (printf s).
Proof. by apply setup_modify. Qed.

Lemma setup_upd_buf f : keeps same_setup (upd_buf f).
Proof. by apply setup_modify. Qed.

Lemma setup_suppressed : keeps same_setup (modify (fun w => w <| quiet_suppressed := quiet_suppressed w + 1 |>)).
Proof. by apply setup_modify. Qed.

Lemma setup_lk_bdev_delete : keeps same_setup lk_bdev_delete.
Proof. by apply setup_modify. Qed.

Lemma setup_get_random_bytes : keeps same_setup get_random_bytes.
Proof. intros w. unfold get_random_bytes. by destruct (w_random w). Qed.

Lemma setup_getline : keeps same_setup getline.
Proof. intros w. unfold getline. by destruct (w_stdin w). Qed.

Lemma setup_pread pos count offset : keeps same_setup (pread_or_die pos count offset).
Proof. unfold pread_or_die. keeps. by apply setup_modify. Qed.

Lemma setup_pwrite src count offset : keeps same_setup (pwrite src count offset).
Proof. unfold pwrite. keeps. by apply setup_modify. Qed.
#[local] Hint Resolve setup_printf setup_upd_buf setup_suppressed setup_get_random_bytes setup_getline
  setup_pread setup_pwrite : keeps.

Lemma setup_pwrite_or_die src count offset : keeps same_setup (pwrite_or_die src count offset).
Proof. unfold pwrite_or_die, validate_offsets_or_die. keeps. Qed.
#[local] Hint Resolve setup_pwrite_or_die : keeps.

Lemma setup_pwrite_buffer count offset : keeps same_setup (pwrite_buffer_or_die count offset).
Proof. unfold pwrite_buffer_or_die. keeps. Qed.

Lemma setup_confirmed : keeps same_setup confirmed.
Proof. unfold confirmed. keeps. Qed.

Lemma setup_generate_random_uuid : keeps same_setup generate_random_uuid.
Proof.
  unfold generate_random_uuid. generalize 4%nat. intros n.
  induction n as [|n IH]; cbn [generate_random_uuid_loop]; keeps.
Qed.

Lemma setup_is_valid_md f md idx size : keeps same_setup (is_valid_md f md idx size).
Proof. intros w. destruct (is_valid_md_constant f md idx size) as [r Hr]. by rewrite Hr. Qed.

Lemma setup_max_usable_sectors : keeps same_setup max_usable_sectors.
Proof. unfold max_usable_sectors. keeps. Qed.
#[local] Hint Resolve setup_pwrite_buffer setup_confirmed setup_max_usable_sectors : keeps.

Lemma setup_bm_bytes md sectors : keeps same_setup (bm_bytes md sectors).
Proof. unfold bm_bytes. keeps. Qed.

Lemma setup_check_for_existing_data : keeps same_setup check_for_existing_data.
Proof. unfold check_for_existing_data, refuse_unless_ignored, ask_to_proceed. keeps. Qed.

Lemma setup_initialize_al : keeps same_setup initialize_al.
Proof. unfold initialize_al. keeps. Qed.

Lemma setup_zeroout_loop n left off : keeps same_setup (zeroout_loop n left off).
Proof.
  revert left off. induction n as [|n IH]; intros; cbn [zeroout_loop]; unfold blkzeroout; keeps.
Qed.

Lemma setup_init_bitmap_loop n left off : keeps same_setup (init_bitmap_loop n left off).
Proof. revert left off. induction n as [|n IH]; intros; cbn [init_bitmap_loop]; keeps. Qed.
#[local] Hint Resolve setup_zeroout_loop setup_init_bitmap_loop : keeps.

Lemma setup_initialize_bitmap : keeps same_setup initialize_bitmap.
Proof.
  unfold initialize_bitmap, zeroout_bitmap_fast, zeroout_bitmap_pwrite, set_all_bitmap_pwrite, init_bitmap_pwrite.
  keeps.
Qed.
End setup.

#[export] Hint Resolve setup_printf setup_upd_buf setup_lk_bdev_delete setup_pwrite_or_die setup_pwrite_buffer
  setup_pread setup_confirmed setup_generate_random_uuid setup_is_valid_md setup_bm_bytes setup_max_usable_sectors
  setup_check_for_existing_data setup_initialize_al setup_initialize_bitmap : setup.

(** ** Well-typed working copies *)

(** The options that reach the super block, within their C types. *)
Record opts_ok (o : options) : Prop := {
  oo_stripes : in_u32 (option_al_stripes o);
  oo_stripe_size : in_u32 (option_al_stripe_size_4k o);
  oo_effective : in_u64 (option_effective_size o);
  oo_block : in_u32 (option_bm_block_size o)
}.

Section typed.
Context `{DrbdHeadersOk}.

Lemma arr_u64_set n l i v : arr_u64 n l -> in_u64 v -> arr_u64 n (zinsert i v l).
Proof.
  intros [Hl Hf] Hv. split; [by rewrite length_zinsert|]. unfold zinsert. destruct (i <? 0); [done|].
  by apply Forall_insert.
Qed.

Lemma md_wf_upd_peer i f md : (forall p, peer_wf p -> peer_wf (f p)) -> md_wf md -> md_wf (upd_peer i f md).
Proof.
  intros Hf Hmd. pose proof (peer_at_wf md i Hmd) as Hp. destruct (wf_peers _ Hmd) as [Hl Hps].
  destruct Hmd. split; try done. rewrite peers_upd, length_zinsert. split; [done|]. unfold zinsert.
  destruct (i <? 0); [done|]. apply Forall_insert; [done | by apply Hf].
Qed.

Lemma md_wf_fold_peer f l md :
  (forall p, peer_wf p -> peer_wf (f p)) -> md_wf md -> md_wf (fold_left (fun md p => upd_peer p f md) l md).
Proof. intros Hf. revert md. induction l as [|i l IH]; intros md Hmd; [done|]. by apply IH, md_wf_upd_peer. Qed.

Lemma md_wf_history i v md : in_u64 v -> md_wf md -> md_wf (set_history i v md).
Proof. intros Hv []. split; try done. cbn. by apply arr_u64_set. Qed.

Lemma md_wf_layout size al bm md :
  in_u32 size -> in_s32 al -> in_s32 bm -> md_wf md ->
  md_wf (md <| md_size_sect := size |> <| al_offset := al |> <| bm_offset := bm |>).
Proof. intros ??? []. by split. Qed.

Lemma md_wf_defaults o md : opts_ok o -> md_wf md -> md_wf (md_defaults o md).
Proof.
  assert (Hd : in_u32 DEFAULT_BM_BLOCK_SIZE).
  { unfold DEFAULT_BM_BLOCK_SIZE. by rewrite (proj1 block_sizes). }
  intros [] []. split; try done; unfold md_defaults; cbn.
  - destruct (_ =? 0); [|done]. by destruct (_ =? 0).
  - by destruct (_ =? 0).
Qed.

Lemma lor_range x y n : 0 <= n -> 0 <= x < 2 ^ n -> 0 <= y < 2 ^ n -> 0 <= Z.lor x y < 2 ^ n.
Proof.
  intros Hn Hx Hy. assert (H1 : 0 <= Z.lor x y) by (apply Z.lor_nonneg; lia). split; [done|].
  destruct (Z.eq_dec (Z.lor x y) 0) as [->|]; [apply Z.pow_pos_nonneg; lia|].
  apply Z.log2_lt_pow2; [lia|]. rewrite Z.log2_lor by lia.
  assert (Hlog : forall z, 0 <= z < 2 ^ n -> z <> 0 -> Z.log2 z < n) by (intros; apply Z.log2_lt_pow2; lia).
  destruct (Z.eq_dec x 0) as [->|]; [rewrite Z.lor_0_l in *; rewrite Z.max_r by apply Z.log2_nonneg; auto|].
  destruct (Z.eq_dec y 0) as [->|]; [rewrite Z.max_l by apply Z.log2_nonneg; auto|].
  apply Z.max_lub_lt; auto.
Qed.

Lemma set_bits_u32 x m : in_u32 x -> in_u32 (set_bits x m).
Proof. intros Hx. apply lor_range; [done | exact Hx | apply u32_range]. Qed.

Lemma field_of_uuid x k : 0 <= x -> 0 <= k <= 48 -> 0 <= Z.shiftl (Z.land x 0xffff) k < 2 ^ 64.
Proof.
  intros Hx Hk. rewrite Z.shiftl_mul_pow2 by lia. change 0xffff with (Z.ones 16). rewrite Z.land_ones by lia.
  pose proof (Z.mod_pos_bound x (2 ^ 16) ltac:(lia)). assert (0 < 2 ^ k <= 2 ^ 48).
  { split; [apply Z.pow_pos_nonneg; lia | apply Z.pow_le_mono_r; lia]. }
  change (2 ^ 64) with (2 ^ 16 * 2 ^ 48). nia.
Qed.

Lemma gc_u32_range md i : md_wf md -> in_u32 (arr (gc md) i).
Proof. intros Hmd. apply arr_range; [done | apply (wf_gc _ Hmd)]. Qed.

Lemma uuid_of_gc_u64 md : md_wf md -> in_u64 (uuid_of_gc (gc md)).
Proof.
  intros Hmd. unfold uuid_of_gc, in_u64.
  repeat (apply lor_range; [done | apply field_of_uuid; [apply gc_u32_range || apply u32_range; done | lia]|]).
  done.
Qed.

Lemma clear_bits_u32 x m : in_u32 x -> in_u32 (clear_bits x m).
Proof.
  unfold clear_bits, in_u32. intros Hx. pose proof (u32_range (Z.lnot m)) as Hm.
  rewrite Z.land_comm. pose proof (land_le_r (u32 (Z.lnot m)) x). unfold in_u32 in Hm. lia.
Qed.

Lemma carry_u32 x a b y : in_u32 y -> in_u32 (carry_flag x a b y).
Proof. intros Hy. unfold carry_flag. destruct (has_bits x a); [by apply set_bits_u32 | done]. Qed.
End typed.

(** ** The invariant *)

(** The block that will be wiped is not the super block. *)
Definition wipe_apart (c : format) : Prop :=
  wipe_flex c = 0 /\
  (wipe_fixed c = 0 \/ s64 (wipe_fixed c) + 4096 <= s64 (md_offset c) \/
   s64 (md_offset c) + 4096 <= s64 (wipe_fixed c)).

Record Stay `{DrbdHeaders} (w0 w : world) : Prop := {
  st_place : same_place w0 w;
  st_typed : md_wf (cfg_md (w_cfg w));
  st_wipe : wipe_apart (w_cfg w)
}.

(** [m] keeps the invariant if it returns, and its result satisfies [post]. *)
Definition stays `{DrbdHeaders} (w0 : world) {A} (post : A -> Prop) (m : M A) : Prop :=
  forall w a w', Stay w0 w -> m w = (Ok a, w') -> Stay w0 w' /\ post a.

Definition any {A} (_ : A) : Prop := True.

Section stays.
Context `{DrbdHeadersOk} (w0 : world) (Hopt : opts_ok (w_opt w0)).

Lemma stays_bind {A B} (P : A -> Prop) (Q : B -> Prop) (m : M A) (k : A -> M B) :
  stays w0 P m -> (forall a, P a -> stays w0 Q (k a)) -> stays w0 Q (m ≫= k).
Proof.
  intros Hm Hk w b w' Hw Hr. apply bind_inv in Hr as (a & w1 & Hm1 & Hr).
  destruct (Hm _ _ _ Hw Hm1) as [Hw1 Ha]. by apply (Hk a Ha w1).
Qed.

Lemma stays_ret {A} (P : A -> Prop) a : P a -> stays w0 P (mret a : M A).
Proof. intros Ha w b w' Hw Hr. injection Hr as <- <-. done. Qed.

Lemma stays_exit {A} (P : A -> Prop) c : stays w0 P (exit c : M A).
Proof. done. Qed.

Lemma stays_fault {A} (P : A -> Prop) : stays w0 P (fault : M A).
Proof. done. Qed.

Lemma stays_ASSERT b : stays w0 any (ASSERT b).
Proof. intros w [] w' Hw Hr. destruct b; [|done]. by injection Hr as <-. Qed.

Lemma stays_if {A} (P : A -> Prop) (b : bool) (m n : M A) : stays w0 P m -> stays w0 P n -> stays w0 P (if b then m else n).
Proof. by destruct b. Qed.

Lemma stays_weaken {A} (P Q : A -> Prop) (m : M A) : (forall a, P a -> Q a) -> stays w0 P m -> stays w0 Q m.
Proof. intros HPQ Hm w a w' Hw Hr. destruct (Hm _ _ _ Hw Hr) as [? ?]. auto. Qed.

Lemma stays_setup {A} (m : M A) : keeps same_setup m -> stays w0 any m.
Proof.
  intros Hm w a w' [Hp Ht Hx] Hr. specialize (Hm w). rewrite Hr in Hm. destruct Hm as (Hc & Ho & He).
  cbn in Hc, Ho, He. split; [|done]. split; [|by rewrite Hc..].
  destruct Hp as (? & ? & ? & ? & ? & ? & ?). unfold same_place. rewrite Hc, Ho, He. by split_and!.
Qed.

Lemma stays_gets {A} (f : world -> A) : stays w0 any (gets f).
Proof. apply stays_setup. apply keeps_gets. typeclasses eauto. Qed.

Lemma stays_cfg : stays w0 (fun c => md_wf (cfg_md c)) cfg.
Proof. intros w a w' Hw Hr. injection Hr as <- <-. split; [done | apply (st_typed _ _ Hw)]. Qed.

Lemma stays_opt : stays w0 opts_ok opt.
Proof.
  intros w a w' Hw Hr. injection Hr as <- <-. split; [done|].
  destruct (st_place _ _ Hw) as (_ & _ & _ & _ & _ & -> & _). done.
Qed.

Lemma stays_env : stays w0 any env.
Proof. apply stays_gets. Qed.

Lemma stays_upd_cfg f :
  (forall c, ops (f c) = ops c /\ md_index (f c) = md_index c /\ cfg_bd_size (f c) = cfg_bd_size c /\
             md_offset (f c) = md_offset c /\ md_hard_sect_size (f c) = md_hard_sect_size c /\
             wipe_flex (f c) = wipe_flex c /\ wipe_fixed (f c) = wipe_fixed c /\
             (md_wf (cfg_md c) -> md_wf (cfg_md (f c)))) ->
  stays w0 any (upd_cfg f).
Proof.
  intros Hf w a w' [Hp Ht [Hx1 Hx2]] Hr. injection Hr as _ <-. split; [|done].
  destruct (Hf (w_cfg w)) as (F1 & F2 & F3 & F4 & F5 & F6 & F7 & F8).
  split.
  - destruct Hp as (? & ? & ? & ? & ? & ? & ?). unfold same_place. cbn [w_cfg w_opt w_env].
    split_and!; congruence.
  - by apply F8.
  - unfold wipe_apart. cbn [w_cfg]. by rewrite F4, F6, F7.
Qed.

Lemma stays_upd_md f : (forall md, md_wf md -> md_wf (f md)) -> stays w0 any (upd_md f).
Proof. intros Hf. apply stays_upd_cfg. intros c. split_and!; try done. apply Hf. Qed.

Lemma stays_when b m : stays w0 any m -> stays w0 any (when b m).
Proof. destruct b; [done|]. intros _. by apply stays_ret. Qed.
End stays.

Create HintDb stays.
#[export] Hint Resolve stays_ASSERT : stays.
#[export] Hint Extern 2 (stays _ _ _) => apply stays_setup; solve [auto with setup] : stays.
#[export] Hint Extern 0 (any _) => exact I : stays.

(** Walks through an operation, leaving the changes of the configuration. *)
Ltac stays :=
  repeat lazymatch goal with
    | |- stays _ _ (mbind _ (upd_md _)) => eapply (stays_bind _ any); [apply stays_upd_md; intros ? ? | intros ? _]
    | |- stays _ _ (mbind _ (upd_cfg _)) => eapply (stays_bind _ any); [apply stays_upd_cfg; intros ? | intros ? _]
    | |- stays _ _ (mbind _ cfg) => eapply stays_bind; [apply stays_cfg | intros ? ?]
    | |- stays _ _ (mbind _ opt) => eapply stays_bind; [apply stays_opt; assumption | intros ? ?]
    | |- stays _ _ (mbind _ env) => eapply stays_bind; [apply stays_env | intros ? _]
    | |- stays _ _ (mbind _ (gets _)) => eapply stays_bind; [apply stays_gets | intros ? _]
    | |- stays _ _ (mbind _ (when _ _)) => eapply (stays_bind _ any); [apply stays_when | intros ? _]
    | |- stays _ _ (mbind _ (if _ then _ else _)) => eapply (stays_bind _ any); [|intros ? _]
    | |- stays _ _ (mbind _ _) => eapply stays_bind; [solve [eauto with stays] | intros ? ?]
    | |- stays _ any (upd_md _) => apply stays_upd_md; intros ? ?
    | |- stays _ any (upd_cfg _) => apply stays_upd_cfg; intros ?
    | |- stays _ any (when _ _) => apply stays_when
    | |- stays _ _ (exit _) => apply stays_exit
    | |- stays _ _ fault => apply stays_fault
    | |- stays _ _ (mret _) => apply stays_ret
    | |- stays _ _ (if _ then _ else _) => apply stays_if
    | |- stays _ _ (match ?x with _ => _ end) => destruct x
    | |- stays _ _ (let _ := _ in _) => cbv zeta
    | |- any _ => exact I
    | |- stays _ _ _ => solve [eauto with stays]
    end.

(** A change of the configuration: what stays, and the working copy. *)
Ltac cfg_stays := split_and!; [reflexivity..|]; let Hmd := fresh "Hmd" in intros Hmd; try exact Hmd.

Section operations.
Context `{DrbdHeadersOk} (w0 : world) (Hopt : opts_ok (w_opt w0)).

Lemma md_wf_al al md : in_s32 al -> md_wf md -> md_wf (md <| al_offset := al |>).
Proof. intros ? []. by split. Qed.

Lemma md_wf_size_bm size bm md :
  in_u32 size -> in_s32 bm -> md_wf md -> md_wf (md <| md_size_sect := size |> <| bm_offset := bm |>).
Proof. intros ?? []. by split. Qed.

Lemma stays_re_init : stays w0 any re_initialize_md_offsets.
Proof.
  unfold re_initialize_md_offsets. stays; try (cfg_stays; apply md_wf_layout; first [done | solve [auto with drbd_range]]).
  - by apply md_wf_defaults.
  - apply md_wf_al; auto with drbd_range.
  - apply md_wf_size_bm; auto with drbd_range.
Qed.
#[local] Hint Resolve stays_re_init : stays.

Lemma stays_conversion_done f : stays w0 any (conversion_done f).
Proof. unfold conversion_done. stays. Qed.
#[local] Hint Resolve stays_conversion_done : stays.

Lemma md_wf_set_predecessor md ij : md_wf md -> md_wf (set_predecessor md ij).
Proof.
  intros Hmd. destruct ij as [i j]. unfold set_predecessor. destruct (i =? UI_BITMAP).
  - apply md_wf_upd_peer; [|done]. intros p []. split; first [assumption | cbn; auto with drbd_range].
  - apply md_wf_history; auto with drbd_range.
Qed.

Lemma md_wf_uuids bits md : md_wf md -> md_wf (uuids_07_to_08 bits md).
Proof.
  unfold uuids_07_to_08. generalize ((fun i => (i, i - (if bits then UI_BITMAP else UI_HISTORY_START) + 1)) <$>
    seqZ (if bits then UI_BITMAP else UI_HISTORY_START) (UI_HISTORY_END - (if bits then UI_BITMAP else UI_HISTORY_START) + 1)).
  intros l. revert md. induction l as [|ij l IH]; intros md Hmd; [done|]. by apply IH, md_wf_set_predecessor.
Qed.

(** One member, several at a time. *)
Ltac wf_member := match goal with Hx : md_wf ?x |- md_wf _ => destruct Hx; split; first [assumption | done] end.

Lemma magics : in_u32 DRBD_MD_MAGIC_07 /\ in_u32 DRBD_MD_MAGIC_08 /\ in_u32 DRBD_MD_MAGIC_09.
Proof.
  unfold DRBD_MD_MAGIC_07, DRBD_MD_MAGIC_08, DRBD_MD_MAGIC_09, in_u32. pose proof magic_range. lia.
Qed.

Lemma peer_wf_uuid_0 p : peer_wf p -> peer_wf (p <| bitmap_uuid := 0 |>).
Proof. intros []. by split. Qed.

Lemma peer_wf_none p : peer_wf p -> peer_wf (p <| bitmap_uuid := 0 |> <| peer_flags := 0 |> <| bitmap_index := -1 |>).
Proof. intros []. by split. Qed.

Lemma peer_wf_flags (g : Z -> Z) p :
  (forall x, in_u32 x -> in_u32 (g x)) -> peer_wf p -> peer_wf (p <| peer_flags := g (peer_flags p) |>).
Proof. intros Hg []. split; try done. by apply Hg. Qed.

Lemma md_wf_07_to_08 md :
  md_wf md ->
  md_wf (md <| magic := DRBD_MD_MAGIC_08 |> <| flags := arr (gc md) Flags |> <| current_uuid := uuid_of_gc (gc md) |>).
Proof.
  intros Hmd. pose proof (uuid_of_gc_u64 md Hmd) as Hu. pose proof (gc_u32_range md Flags Hmd) as Hf.
  destruct magics as (_ & Hm & _). destruct Hmd. by split.
Qed.

Lemma stays_07_to_08 : stays w0 any md_convert_07_to_08.
Proof.
  unfold md_convert_07_to_08. stays. apply md_wf_uuids, md_wf_upd_peer; [apply peer_wf_uuid_0 | by apply md_wf_07_to_08].
Qed.

Lemma stays_08_to_07 : stays w0 any md_convert_08_to_07.
Proof. destruct magics as (Hm & _). unfold md_convert_08_to_07. stays. wf_member. Qed.

Lemma md_wf_flags x md : in_u32 x -> md_wf md -> md_wf (md <| flags := x |>).
Proof. intros ? []. by split. Qed.

Lemma md_wf_flags_08_to_09 md : md_wf md -> md_wf (flags_08_to_09 md).
Proof.
  intros Hmd. unfold flags_08_to_09.
  apply (md_wf_fold_peer (fun peer => peer <| bitmap_uuid := 0 |> <| peer_flags := 0 |> <| bitmap_index := -1 |>)
           (upto DRBD_NODE_ID_MAX)) in Hmd; [|apply peer_wf_none].
  set (md1 := fold_left _ _ _) in *. clearbody md1. set (x := flags md1).
  apply (md_wf_upd_peer 0 (fun p => p <| peer_flags := carry_flag x MDF_PEER_OUT_DATED MDF_PEER_OUTDATED
                  (carry_flag x MDF_FULL_SYNC MDF_PEER_FULL_SYNC
                    (carry_flag x MDF_CONNECTED_IND MDF_PEER_CONNECTED (peer_flags p))) |>)) in Hmd.
  - apply md_wf_flags; [apply clear_bits_u32, (wf_flags _ Hmd) | exact Hmd].
  - intros p Hp. apply (peer_wf_flags (fun y => carry_flag x _ _ (carry_flag x _ _ (carry_flag x _ _ y)))); [|done].
    intros y Hy. by repeat apply carry_u32.
Qed.

Lemma stays_08_to_09 : stays w0 any md_convert_08_to_09.
Proof.
  destruct magics as (_ & _ & Hm). unfold md_convert_08_to_09. stays.
  match goal with Hx : md_wf ?x |- _ => apply md_wf_flags_08_to_09 in Hx; destruct Hx end. by split.
Qed.

Lemma stays_09_to_08 : stays w0 any md_convert_09_to_08.
Proof.
  destruct magics as (_ & Hm & _). unfold md_convert_09_to_08. stays.
  match goal with Hx : md_wf ?x |- _ => pose proof (wf_flags _ Hx) as Hf; destruct Hx end.
  split; try done. unfold flags_09_to_08. cbn. by repeat apply carry_u32.
Qed.
#[local] Hint Resolve stays_07_to_08 stays_08_to_07 stays_08_to_09 stays_09_to_08 : stays.

Lemma stays_convert_md from : stays w0 any (convert_md from).
Proof. unfold convert_md. stays. Qed.
#[local] Hint Resolve stays_convert_md : stays.

(** ** Initialization *)

Lemma md_wf_no_peers md : md_wf md -> md_wf (no_peers md).
Proof.
  intros Hmd. unfold no_peers.
  exact (md_wf_fold_peer (fun peer => peer <| bitmap_uuid := 0 |> <| peer_flags := 0 |> <| bitmap_index := -1 |>)
           (upto DRBD_NODE_ID_MAX) md peer_wf_none Hmd).
Qed.

Lemma stays_initialize_common b : stays w0 any (md_initialize_common b).
Proof. unfold md_initialize_common. stays. match goal with Hx : md_wf ?x |- _ => destruct Hx end. by split. Qed.
#[local] Hint Resolve stays_initialize_common : stays.

(** The constants of the headers that reach the super block. *)
Context (Hjust : in_u64 UUID_JUST_CREATED) (Hclean : in_u32 MDF_AL_CLEAN).

Lemma md_wf_v08_initial o : opts_ok o -> md_wf (v08_initial o).
Proof. intros []. destruct magics as (_ & Hm & _). pose proof zero_md_wf as []. by split. Qed.

Lemma md_wf_v09_initial o n : opts_ok o -> md_wf (v09_initial o n).
Proof.
  intros []. destruct magics as (_ & _ & Hm). apply md_wf_no_peers. pose proof zero_md_wf as [].
  pose proof (u32_range n). by split.
Qed.

Lemma stays_md_initialize n : ops (w_cfg w0) = DRBD_V08 \/ ops (w_cfg w0) = DRBD_V09 ->
  stays w0 any (md_initialize true n).
Proof.
  intros Hops w a w' Hw Hr. unfold md_initialize in Hr. rewrite bind_cfg in Hr.
  rewrite (proj1 (st_place _ _ Hw)) in Hr. revert w a w' Hw Hr.
  destruct Hops as [-> | ->]; change (stays w0 any (v08_md_initialize true)) || change (stays w0 any (v09_md_initialize true n)).
  - unfold v08_md_initialize. stays. by apply md_wf_v08_initial.
  - unfold v09_md_initialize. stays. by apply md_wf_v09_initial.
Qed.

(** ** Meta data that are there already *)

Definition typed_found (have : option (md_format * md_cpu)) : Prop :=
  match have with Some (_, md) => md_wf md | None => True end.

Lemma stays_detect_one size idx have f md :
  typed_found have -> md_wf md -> stays w0 typed_found (detect_one size idx have f md).
Proof. intros Hh Hmd. unfold detect_one. stays. by destruct a. Qed.

Lemma stays_detect_md size idx : stays w0 typed_found (detect_md size idx).
Proof.
  unfold detect_md. stays.
  eapply stays_bind; [apply (stays_detect_one _ _ None); [done | apply decoded_07_wf]|]. intros h1 Hh1.
  eapply stays_bind; [apply stays_detect_one; [done | apply decoded_08_wf]|]. intros h2 Hh2.
  apply stays_detect_one; [done | apply decoded_09_wf].
Qed.
#[local] Hint Resolve stays_detect_md : stays.

Lemma stays_convert_or_replace have md : md_wf md -> stays w0 any (convert_or_replace have md).
Proof. intros Hmd. unfold convert_or_replace, cancel1. stays; [done|]. wf_member. Qed.

Lemma stays_overwrite_same have : stays w0 any (overwrite_same have).
Proof. unfold overwrite_same, cancel1. stays. wf_member. Qed.

Lemma stays_check_external : stays w0 any check_external_md_flavours.
Proof.
  unfold check_external_md_flavours, cancel1. stays; [wf_member|]. by apply stays_convert_or_replace.
Qed.

(** The place of the super block is the one that [open] computes. *)
Context (Hbd : 4096 <= cfg_bd_size (w_cfg w0) < 2 ^ 63)
  (Hoff : md_offset (w_cfg w0) = v07_style_md_get_byte_offset (md_index (w_cfg w0)) (cfg_bd_size (w_cfg w0))).

Definition fixed_offset : Z := s64 (v07_style_md_get_byte_offset DRBD_MD_INDEX_INTERNAL (cfg_bd_size (w_cfg w0))).

(** The fixed size layout of 0.7 had its super block elsewhere. *)
Lemma fixed_apart :
  md_index (w_cfg w0) = DRBD_MD_INDEX_FLEX_INT -> 0 <= fixed_offset ->
  s64 (u64 fixed_offset) + 4096 <= s64 (md_offset (w_cfg w0)).
Proof.
  intros Hi. rewrite Hoff, Hi, flex_int_offset by lia. unfold fixed_offset, v07_style_md_get_byte_offset.
  rewrite Z.eqb_refl, land_u64_r by solve_int. change 4095 with (2 ^ 12 - 1). rewrite land_lnot_ones by lia.
  change (2 ^ 12) with 4096. change (MD_RESERVED_SECT_07 * 512) with (2 ^ 27).
  set (bd := cfg_bd_size (w_cfg w0)) in *. pose proof (Z.div_mod bd 4096). pose proof (Z.mod_pos_bound bd 4096).
  set (b := bd / 4096 * 4096). assert (Hb : 4096 <= b < 2 ^ 63) by lia.
  intros Hnn. destruct (Z.lt_ge_cases b (2 ^ 27)) as [Hlt|Hge].
  - exfalso. assert (Hu : u64 (b - 2 ^ 27) = b - 2 ^ 27 + 2 ^ 64).
    { unfold u64. symmetry. apply Z.mod_unique with (-1); lia. }
    rewrite Hu in Hnn. unfold s64 in Hnn. replace (b - 2 ^ 27 + 2 ^ 64 + 2 ^ 63) with (b - 2 ^ 27 + 2 ^ 63 + 1 * 2 ^ 64) in Hnn by lia.
    rewrite Z.mod_add, Z.mod_small in Hnn by lia. lia.
  - rewrite (u64_id (b - 2 ^ 27)), (s64_id (b - 2 ^ 27)), u64_id, (s64_id (b - 2 ^ 27)), s64_id by solve_int. lia.
Qed.

Lemma stays_wipe_fixed :
  md_index (w_cfg w0) = DRBD_MD_INDEX_FLEX_INT -> 0 <= fixed_offset ->
  stays w0 any (upd_cfg (fun c => c <| wipe_fixed := u64 fixed_offset |>)).
Proof.
  intros Hi Hf w a w' [Hp Ht [Hx _]] Hr. rewrite run_upd_cfg in Hr.
  assert (w' = set_cfg (w_cfg w <| wipe_fixed := u64 fixed_offset |>) w) as -> by (by apply (f_equal snd) in Hr).
  split; [|done]. split; [exact Hp | exact Ht|]. split; [exact Hx|]. right. left.
  destruct Hp as (_ & _ & _ & Ho & _). change (s64 (u64 fixed_offset) + 4096 <= s64 (md_offset (w_cfg w))).
  rewrite Ho. by apply fixed_apart.
Qed.

(** What was found, at the fixed offset only if that is on the device. *)
Definition typed_internal (fixed : Z) (found : option (md_format * md_cpu * bool)) : Prop :=
  match found with
  | Some (_, md, at_fixed) => md_wf md /\ (at_fixed = true -> 0 <= fixed)
  | None => True
  end.

Lemma stays_find_internal fixed flex : stays w0 (typed_internal fixed) (find_internal fixed flex).
Proof.
  unfold find_internal. eapply stays_bind; [apply stays_cfg | intros c _].
  eapply (stays_bind _ (fun r => match r with Some (_, md) => md_wf md /\ 0 <= fixed | None => True end)).
  - destruct (Z.leb_spec 0 fixed); cbn [andb]; [|by apply stays_ret]. apply stays_if; [|by apply stays_ret].
    stays. match goal with |- context [if ?b then _ else _] => destruct b end; [split; [apply decoded_07_wf | done] | done].
  - intros [[f md]|] Hfound.
    + apply stays_ret. by destruct Hfound.
    + eapply stays_bind; [eauto with stays | intros u _]. eapply stays_bind; [apply stays_detect_md | intros have Hh].
      apply stays_ret. destruct have as [[f md]|]; [by split | done].
Qed.

Lemma stays_cfg_place :
  stays w0 (fun c => ops c = ops (w_cfg w0) /\ md_index c = md_index (w_cfg w0) /\
                     cfg_bd_size c = cfg_bd_size (w_cfg w0)) cfg.
Proof.
  intros w a w' Hw Hr. injection Hr as <- <-. split; [done|].
  destruct (st_place _ _ Hw) as (? & ? & ? & _). done.
Qed.

Lemma stays_check_internal :
  ops (w_cfg w0) = DRBD_V08 \/ ops (w_cfg w0) = DRBD_V09 -> stays w0 any check_internal_md_flavours.
Proof.
  intros Hops. unfold check_internal_md_flavours.
  eapply stays_bind; [apply stays_cfg_place | intros c (Ho & Hi & Hb)]. rewrite Hi, Hb. fold fixed_offset.
  eapply stays_bind; [apply stays_ASSERT | intros _ _].
  eapply stays_bind; [apply stays_find_internal | intros [[[have md] fixed]|] Hfound]; [|by apply stays_ret].
  destruct Hfound as [Hmd Hfixed].
  eapply (stays_bind _ any).
  { apply stays_if; [apply stays_overwrite_same | by apply stays_convert_or_replace]. }
  intros _ _. destruct (md_format_eqb have DRBD_V07 && fixed && (md_index (w_cfg w0) =? DRBD_MD_INDEX_FLEX_INT)) eqn:E.
  - rewrite !andb_true_iff, Z.eqb_eq in E. destruct E as [[_ ->] E]. apply stays_wipe_fixed; auto.
  - replace (is_v07 c) with false by (unfold is_v07, format_version; rewrite Ho; by destruct Hops as [-> | ->]).
    cbn [andb]. rewrite andb_false_r. by apply stays_ret.
Qed.

Lemma stays_create_or_convert n :
  ops (w_cfg w0) = DRBD_V08 \/ ops (w_cfg w0) = DRBD_V09 -> stays w0 any (create_or_convert n).
Proof.
  intros Hops. pose proof (stays_md_initialize n Hops). pose proof (stays_check_internal Hops).
  pose proof stays_check_external. unfold create_or_convert. stays.
Qed.

(** ** The options of create-md *)

Lemma peer_wf_seen p x : peer_wf p -> peer_wf (p <| peer_flags := set_bits (peer_flags p) x |>).
Proof. intros []. split; try done. by apply set_bits_u32. Qed.

Lemma md_wf_diskful_peers mask md : md_wf md -> md_wf (diskful_peers mask md).
Proof.
  unfold diskful_peers. generalize (upto DRBD_PEERS_MAX). intros l. revert md.
  induction l as [|i l IH]; intros md Hmd; [done|]. cbn [fold_left]. apply IH.
  destruct (in_peer_mask mask i); [|done]. apply md_wf_upd_peer; [|done]. intros p. apply peer_wf_seen.
Qed.

Lemma md_wf_overrides b o md : opts_ok o -> md_wf md -> md_wf (create_overrides b o md).
Proof.
  intros [] Hmd. unfold create_overrides. cbv zeta. apply md_wf_diskful_peers.
  pose proof (u32_range (option_peer_max_bio_size o)).
  destruct (negb b || truth (option_peer_max_bio_size o)), (negb b || truth (option_effective_size o));
    first [exact Hmd | destruct Hmd; by split].
Qed.

Lemma generate_random_uuid_u64 w u w' : generate_random_uuid w = (Ok u, w') -> in_u64 u.
Proof.
  unfold generate_random_uuid. generalize 4%nat. intros n. revert w.
  induction n as [|n IH]; intros w Hr; [done|]. cbn [generate_random_uuid_loop] in Hr.
  apply bind_inv in Hr as (v & w1 & Hg & Hr). destruct (negb _ && negb _); [|by apply (IH w1)].
  injection Hr as <- _. unfold get_random_bytes in Hg. destruct (w_random w) as [|x l]; [done|].
  injection Hg as <- _. pose proof (u64_range x). pose proof (u64_range (Z.lnot 1)) as Hm.
  unfold in_u64 in *. rewrite Z.land_comm. pose proof (land_le_r (u64 (Z.lnot 1)) (u64 x)). lia.
Qed.

Lemma stays_generate_random_uuid : stays w0 in_u64 generate_random_uuid.
Proof.
  intros w u w' Hw Hr. split; [|by eapply generate_random_uuid_u64].
  by apply (stays_setup w0 _ setup_generate_random_uuid w u).
Qed.
#[local] Hint Resolve stays_generate_random_uuid : stays.

Lemma strto_u64_range s base : in_u64 (strto_u64 s base).1.1.
Proof.
  unfold strto_u64. destruct (scan_number base s) as [[[neg v] rest]|]; [|done].
  destruct (2 ^ 64 <=? v); [done|]. apply u64_range.
Qed.

Lemma stays_initial_current_uuid arg : stays w0 in_u64 (initial_current_uuid arg).
Proof.
  unfold initial_current_uuid. apply stays_if; [apply stays_generate_random_uuid|].
  pose proof (strto_u64_range arg 16) as Hu. destruct (strto_u64 arg 16) as [[uuid rest] errno]. cbn in Hu.
  stays. pose proof (u64_range (Z.lnot 1)) as Hm. unfold in_u64 in *. rewrite Z.land_comm.
  pose proof (land_le_r (u64 (Z.lnot 1)) uuid). lia.
Qed.
#[local] Hint Resolve stays_initial_current_uuid : stays.

Lemma md_wf_current_uuid u md : in_u64 u -> md_wf md -> md_wf (md <| current_uuid := u |>).
Proof. intros ? []. by split. Qed.

Lemma stays_ensure_current_uuid : stays w0 any ensure_current_uuid.
Proof. unfold ensure_current_uuid. stays. by apply md_wf_current_uuid. Qed.
#[local] Hint Resolve stays_ensure_current_uuid : stays.

Lemma stays_rotate_uuids : stays w0 any rotate_uuids.
Proof.
  unfold rotate_uuids. stays; [|by apply md_wf_current_uuid].
  match goal with Hx : md_wf ?x |- _ => pose proof (wf_current_uuid _ Hx) as Hu end.
  apply md_wf_history; [done|]. apply md_wf_fold_peer; [|done]. intros p []. by split.
Qed.
#[local] Hint Resolve stays_rotate_uuids : stays.

Lemma stays_create_initial_state : stays w0 any create_initial_state.
Proof.
  unfold create_initial_state. eapply stays_bind; [by apply stays_opt | intros o _].
  eapply (stays_bind _ any).
  { destruct (option_initial_current_uuid o); [|by apply stays_ret]. stays. by apply md_wf_current_uuid. }
  intros _ _. stays.
  all: try (apply md_wf_flags; [by apply set_bits_u32, wf_flags | done]).
  apply md_wf_fold_peer; [|done]. intros p. apply peer_wf_seen.
Qed.
End operations.

Lemma keeps_result {A R} {m : M A} w r w' : keeps R m -> m w = (r, w') -> R w w'.
Proof. intros Hk Hr. specialize (Hk w). by rewrite Hr in Hk. Qed.

(** ** What the formats store *)

(** The meta data without what the format does not store. *)
Definition stored_08 `{DrbdHeaders} (md : md_cpu) : md_cpu :=
  md <| gc := gc zero_md |> <| node_id := 0 |> <| members := 0 |>
     <| peers := zinsert 0 (mk_peer_md_cpu (bitmap_uuid (peer_at md 0)) 0 0 0) (peers zero_md) |>
     <| history_uuids := take (Z.to_nat HISTORY_UUIDS_V08) (history_uuids md) ++
                         drop (Z.to_nat HISTORY_UUIDS_V08) (history_uuids zero_md) |>.

Definition stored_09 `{DrbdHeaders} (md : md_cpu) : md_cpu :=
  md <| gc := gc zero_md |>
     <| peers := take (Z.to_nat DRBD_NODE_ID_MAX) (peers md) ++ drop (Z.to_nat DRBD_NODE_ID_MAX) (peers zero_md) |>.

Definition stored_of `{DrbdHeaders} (f : md_format) (md : md_cpu) : md_cpu :=
  match f with DRBD_V08 => stored_08 md | _ => stored_09 md end.

(** 8 has one peer and an activity log. *)
Definition can_store (f : md_format) (md : md_cpu) : Prop :=
  match f with DRBD_V08 => max_peers md = 1 /\ al_stripes md <> 0 | _ => True end.

Section stored.
Context `{DrbdHeadersOk}.

Lemma zlookup_lookup {A} (l : list A) i : 0 <= i -> zlookup l i = l !! Z.to_nat i.
Proof. intros Hi. unfold zlookup. destruct (Z.ltb_spec i 0); [lia | done]. Qed.

Lemma peer_at_stored_09 md p : 0 <= p < DRBD_NODE_ID_MAX -> md_wf md -> peer_at (stored_09 md) p = peer_at md p.
Proof.
  intros Hp Hmd. pose proof node_id_max as Hn. destruct (wf_peers _ Hmd) as [Hl _].
  unfold peer_at. replace (peers (stored_09 md)) with
    (take (Z.to_nat DRBD_NODE_ID_MAX) (peers md) ++ drop (Z.to_nat DRBD_NODE_ID_MAX) (peers zero_md)) by reflexivity.
  rewrite !zlookup_lookup by lia. rewrite lookup_app_l by (rewrite length_take, Hl; lia).
  by rewrite lookup_take_lt by lia.
Qed.

Lemma encode_stored_09 b md : md_wf md -> md_cpu_to_disk_09 b (stored_09 md) = md_cpu_to_disk_09 b md.
Proof.
  intros Hmd. unfold md_cpu_to_disk_09. apply (f_equal (fun l => store_fields l _)). unfold md_stores_09.
  apply (f_equal2 app); [reflexivity|]. apply (f_equal2 app); [|reflexivity].
  apply Forall_bind_ext, Forall_forall. intros p Hp. apply elem_upto in Hp. by rewrite peer_at_stored_09.
Qed.

Lemma encode_stored_08 b md : md_wf md -> md_cpu_to_disk_08 b (stored_08 md) = md_cpu_to_disk_08 b md.
Proof.
  intros Hmd. unfold md_cpu_to_disk_08. apply (f_equal (fun l => store_fields l _)). unfold md_stores_08.
  assert (H0' : peer_at (stored_08 md) 0 = mk_peer_md_cpu (bitmap_uuid (peer_at md 0)) 0 0 0).
  { unfold peer_at at 1. replace (peers (stored_08 md)) with
      (zinsert 0 (mk_peer_md_cpu (bitmap_uuid (peer_at md 0)) 0 0 0) (peers zero_md)) by reflexivity.
    destruct (wf_peers _ zero_md_wf) as [Hl _]. pose proof peers_max. rewrite zlookup_zinsert; [done|]. rewrite Hl. lia. }
  assert (Hh : forall i, 0 <= i < HISTORY_UUIDS_V08 -> arr (history_uuids (stored_08 md)) i = arr (history_uuids md) i).
  { intros i Hi. unfold arr. replace (history_uuids (stored_08 md)) with
      (take (Z.to_nat HISTORY_UUIDS_V08) (history_uuids md) ++ drop (Z.to_nat HISTORY_UUIDS_V08) (history_uuids zero_md)) by reflexivity.
    destruct (wf_history_uuids _ Hmd) as [Hl _]. rewrite !zlookup_lookup by lia.
    unfold HISTORY_UUIDS_V08, HISTORY_UUIDS in *.
    rewrite lookup_app_l by (rewrite length_take, Hl; lia). by rewrite lookup_take_lt by lia. }
  rewrite H0'. apply (f_equal2 app); [reflexivity|]. apply (f_equal2 app); [|reflexivity]. apply list_fmap_ext. intros j i Hj.
  apply list_elem_of_lookup_2, elem_upto in Hj. by rewrite Hh.
Qed.

Lemma storable_stored_09 md : md_wf md -> max_peers md <= DRBD_PEERS_MAX - 1 -> md_v09 (stored_09 md).
Proof.
  intros Hmd Hm. pose proof node_id_max as Hn. destruct (wf_peers _ Hmd) as [Hl Hf].
  split; [|split; [done|split; [exact Hm|]]].
  - pose proof (wf_gc _ zero_md_wf). pose proof (peers_wf_set (take (Z.to_nat DRBD_NODE_ID_MAX) (peers md)) DRBD_NODE_ID_MAX) as Hps.
    rewrite length_take, Hl in Hps. specialize (Hps (Forall_take _ _ _ Hf) ltac:(lia) ltac:(lia) ltac:(lia)).
    destruct Hmd. by split.
  - replace (peers (stored_09 md)) with
      (take (Z.to_nat DRBD_NODE_ID_MAX) (peers md) ++ drop (Z.to_nat DRBD_NODE_ID_MAX) (peers zero_md)) by reflexivity.
    rewrite drop_app_length'; [done|]. rewrite length_take, Hl. lia.
Qed.

Lemma storable_stored_08 md : md_wf md -> can_store DRBD_V08 md -> md_v08 (stored_08 md).
Proof.
  intros Hmd [Hm Ha]. destruct (wf_peers _ zero_md_wf) as [Hz Hw]. destruct (wf_history_uuids _ Hmd) as [Hl Hf].
  destruct (wf_history_uuids _ zero_md_wf) as [Hzl Hzf]. pose proof (wf_gc _ zero_md_wf) as Hg.
  pose proof (peer_at_wf md 0 Hmd) as [Hu _ _ _]. pose proof peers_max as Hpm.
  split; [|split_and!; try done].
  - assert (Hh : arr_u64 HISTORY_UUIDS (take (Z.to_nat HISTORY_UUIDS_V08) (history_uuids md) ++
                   drop (Z.to_nat HISTORY_UUIDS_V08) (history_uuids zero_md))).
    { split; [rewrite length_app, length_take, length_drop, Hl, Hzl; done|].
      apply Forall_app. split; [by apply Forall_take | by apply Forall_drop]. }
    assert (Hp : length (zinsert 0 (mk_peer_md_cpu (bitmap_uuid (peer_at md 0)) 0 0 0) (peers zero_md)) =
        Z.to_nat DRBD_PEERS_MAX /\ Forall peer_wf (zinsert 0 (mk_peer_md_cpu (bitmap_uuid (peer_at md 0)) 0 0 0) (peers zero_md))).
    { split; [by rewrite length_zinsert|]. apply Forall_insert; [done|]. by split. }
    destruct Hmd. by split.
  - unfold peer_at. replace (peers (stored_08 md)) with
      (zinsert 0 (mk_peer_md_cpu (bitmap_uuid (peer_at md 0)) 0 0 0) (peers zero_md)) by reflexivity.
    rewrite zlookup_zinsert by (rewrite Hz; lia). done.
  - replace (history_uuids (stored_08 md)) with
      (take (Z.to_nat HISTORY_UUIDS_V08) (history_uuids md) ++ drop (Z.to_nat HISTORY_UUIDS_V08) (history_uuids zero_md)) by reflexivity.
    rewrite drop_app_length'; [done|]. rewrite length_take, Hl. done.
  - replace (al_stripes (stored_08 md)) with (al_stripes md) by reflexivity. apply andb_false_iff. left. by apply Z.eqb_neq.
Qed.

Lemma is_valid_peers f md idx size w : is_valid_md f md idx size w = (Ok true, w) -> md_peers_ok md = true.
Proof.
  unfold is_valid_md. rewrite bind_ASSERT. destruct (match f with DRBD_V07 | DRBD_V08 | DRBD_V09 => true | _ => false end); [|done].
  destruct (md_magic_ok f md); [|done]. by destruct (md_peers_ok md).
Qed.

Lemma is_valid_stored f md idx size w :
  md_wf md -> can_store f md -> f = DRBD_V08 \/ f = DRBD_V09 ->
  is_valid_md f md idx size w = (Ok true, w) -> is_valid_md f (stored_of f md) idx size w = (Ok true, w).
Proof.
  intros Hmd Hs Hf Hv. pose proof (is_valid_peers _ _ _ _ _ Hv) as Hp.
  assert (Hp' : md_peers_ok (stored_of f md) = true).
  { pose proof Hp as Hp0. apply md_peers_ok_spec in Hp0 as (H1 & H2 & H3). pose proof peers_max as Hpm. pose proof node_id_max as Hnm.
    destruct Hf as [-> | ->]; apply md_peers_ok_spec.
    - split; [exact H1|]. split; [change (-1 <= 0 <= DRBD_PEERS_MAX - 1); lia|].
      intros p _. assert (Hz : bitmap_index (peer_at (stored_08 md) p) = 0); [|cbn [stored_of]; lia].
      unfold peer_at. replace (peers (stored_08 md)) with
        (zinsert 0 (mk_peer_md_cpu (bitmap_uuid (peer_at md 0)) 0 0 0) (peers zero_md)) by reflexivity.
      destruct (Z.eq_dec p 0) as [->|Hne].
      + rewrite zlookup_zinsert; [done|]. destruct (wf_peers _ zero_md_wf) as [-> _]. lia.
      + rewrite zlookup_zinsert_ne by done. unfold zlookup. destruct (p <? 0); [done|]. cbn [peers zero_md].
        destruct (replicate _ _ !! _) eqn:E; [|done]. by apply lookup_replicate in E as [-> _].
    - split; [exact H1|]. split; [exact H2|].
      intros p Hr. change (max_peers (stored_of DRBD_V09 md)) with (max_peers md) in Hr. cbn [stored_of].
      destruct (Z.lt_ge_cases p DRBD_NODE_ID_MAX); [rewrite peer_at_stored_09 by (done || lia); by apply H3|].
      assert (Hz : bitmap_index (peer_at (stored_09 md) p) = 0); [|lia].
      unfold peer_at. replace (peers (stored_09 md)) with
        (take (Z.to_nat DRBD_NODE_ID_MAX) (peers md) ++ drop (Z.to_nat DRBD_NODE_ID_MAX) (peers zero_md)) by reflexivity.
      rewrite zlookup_lookup by lia. destruct (wf_peers _ Hmd) as [Hl _].
      rewrite lookup_app_r by (rewrite length_take, Hl; lia). rewrite lookup_drop. cbn [peers zero_md].
      destruct (replicate _ _ !! _) eqn:E; [|done]. by apply lookup_replicate in E as [-> _]. }
  rewrite <- Hv. unfold is_valid_md. rewrite Hp, Hp'. destruct Hf as [-> | ->]; reflexivity.
Qed.
End stored.

(** ** Writing the super block, and what follows *)

Lemma pwrite_inv src count offset w r w' :
  pwrite src count offset w = (Ok r, w') ->
  w' = w <| w_dev := copy (w_dev w) offset src 0 count |> /\
  0 <= offset /\ offset + count <= dev_size (w_env w).
Proof.
  unfold pwrite, env, gets, mbind, M_bind. cbn. destruct (Z.ltb_spec offset 0); [done|]. cbn.
  destruct (_ && _); [done|]. unfold when. destruct (Z.ltb_spec (Z.min count (dev_size (w_env w) - offset)) count) as [Hlt|Hge];
    [done|]. rewrite Z.min_l by lia. intros Hr. injection Hr as _ <-. split; [done | lia].
Qed.

Lemma pwrite_or_die_inv src count offset w r w' :
  dry_run (w_opt w) = false -> pwrite_or_die src count offset w = (Ok r, w') ->
  w' = counted w <| w_dev := copy (w_dev w) offset src 0 count |> /\
  0 <= offset /\ offset + count <= dev_size (w_env w).
Proof.
  intros Hd. rewrite pwrite_or_die_run, Hd. destruct (write_allowed w count offset); [|done].
  intros Hr. exact (pwrite_inv _ _ _ _ _ _ Hr).
Qed.

(** The block at [off] holds [b]. *)
Definition block_is (off : Z) (b : mem) (w : world) : Prop := forall i, 0 <= i < 4096 -> w_dev w (off + i) = b i.

Section written.
Context `{DrbdHeadersOk}.

Lemma md_cpu_to_disk_inv w w' :
  super_block_format (ops (w_cfg w)) -> dry_run (w_opt w) = false -> md_cpu_to_disk w = (Ok 0, w') ->
  let c := w_cfg w in
  (exists w1, is_valid_md (ops c) (cfg_md c) (md_index c) (cfg_bd_size c) w1 = (Ok true, w1)) /\
  (exists u, w_cfg w' = c <| update_lk_bdev := u |>) /\ w_opt w' = w_opt w /\ w_env w' = w_env w /\
  (0 <= s64 (md_offset c) /\ s64 (md_offset c) + 4096 <= dev_size (w_env w)) /\
  block_is (s64 (md_offset c)) (encode_of (ops c) (w_buf w) (cfg_md c)) w'.
Proof.
  intros Hf Hd Hr c. destruct (md_cpu_to_disk_format w Hf w eq_refl) as [u Hw]. rewrite Hw in Hr. clear Hw.
  unfold write_super_block in Hr. rewrite bind_cfg in Hr. fold c in Hr.
  apply bind_inv in Hr as (ok & w1 & Hv & Hr).
  assert (w1 = w) as -> by (pose proof (setup_is_valid_md (ops c) (cfg_md c) (md_index c) (cfg_bd_size c) w) as _;
    destruct (is_valid_md_constant (ops c) (cfg_md c) (md_index c) (cfg_bd_size c)) as [r Hc]; rewrite Hc in Hv; by injection Hv).
  destruct ok; [|discriminate]. cbn [negb] in Hr. split; [by exists w|].
  apply bind_inv in Hr as (? & w1 & Hb & Hr). apply (f_equal snd) in Hb. cbn [snd] in Hb.
  apply bind_inv in Hr as (? & w2 & Hp & Hr). unfold pwrite_buffer_or_die in Hp. rewrite bind_gets in Hp.
  assert (Hbuf : w_buf w1 = encode_of (ops c) (w_buf w) (cfg_md c)) by (by rewrite <- Hb).
  assert (Hset : w_cfg w1 = c /\ w_opt w1 = w_opt w /\ w_env w1 = w_env w) by (by rewrite <- Hb).
  clear Hb. destruct Hset as (Hc1 & Ho1 & He1).
  apply pwrite_or_die_inv in Hp as [Hp Hoff]; [|by rewrite Ho1]. rewrite He1 in Hoff. destruct Hoff as [Hoff1 Hoff2].
  assert (Hdev : w_dev w2 = copy (w_dev w1) (s64 (md_offset c)) (w_buf w1) 0 4096) by (by rewrite Hp).
  assert (Hset : w_cfg w2 = c /\ w_opt w2 = w_opt w /\ w_env w2 = w_env w) by (by rewrite Hp).
  clear Hp. destruct Hset as (Hc2 & Ho2 & He2).
  assert (Hblock : block_is (s64 (md_offset c)) (encode_of (ops c) (w_buf w) (cfg_md c)) w2).
  { intros i Hi. rewrite Hdev, Hbuf. unfold copy. case_range; [f_equal; lia | lia]. }
  destruct u.
  - rewrite bind_upd_cfg, run_mret in Hr. apply (f_equal snd) in Hr. cbn [snd] in Hr.
    rewrite <- Hr. split; [exists true; cbn; by rewrite Hc2|]. by split_and!.
  - rewrite bind_ret, run_mret in Hr. apply (f_equal snd) in Hr. cbn [snd] in Hr. rewrite <- Hr.
    split; [exists (update_lk_bdev c); rewrite Hc2; by destruct c|]. by split_and!.
Qed.

(** A write elsewhere keeps the block. *)
Lemma block_kept off b count offset w r w' :
  offset + count <= off \/ off + 4096 <= offset -> dry_run (w_opt w) = false ->
  pwrite_buffer_or_die count offset w = (Ok r, w') -> block_is off b w -> block_is off b w'.
Proof.
  intros Ha Hd Hp Hb i Hi. unfold pwrite_buffer_or_die in Hp. rewrite bind_gets in Hp.
  apply pwrite_or_die_inv in Hp as [-> _]; [|done]. cbn. unfold copy. case_range; [lia | by apply Hb].
Qed.

Lemma wipe_keeps_block b w w' :
  wipe_apart (w_cfg w) -> dry_run (w_opt w) = false -> wipe_after_convert w = (Ok (), w') ->
  block_is (s64 (md_offset (w_cfg w))) b w -> block_is (s64 (md_offset (w_cfg w))) b w'.
Proof.
  intros [Hx Hf] Hd Hr Hb. unfold wipe_after_convert in Hr.
  apply bind_inv in Hr as (? & w1 & Hu & Hr). apply (f_equal snd) in Hu. cbn [snd] in Hu.
  assert (Hset : w_cfg w1 = w_cfg w /\ w_opt w1 = w_opt w /\ w_dev w1 = w_dev w) by (by rewrite <- Hu).
  clear Hu. destruct Hset as (Hc & Ho & Hdev). rewrite bind_cfg, Hc, Hx, Z.eqb_refl in Hr. cbn [negb when] in Hr.
  apply bind_inv in Hr as (u & w2 & Hw & Hr). injection Hr as <-.
  assert (Hb1 : block_is (s64 (md_offset (w_cfg w))) b w1) by (intros i Hi; rewrite Hdev; by apply Hb).
  unfold when in Hw. destruct (Z.eqb_spec (wipe_fixed (w_cfg w)) 0) as [|Hne]; cbn [negb] in Hw.
  - by injection Hw as _ <-.
  - eapply (block_kept _ b); [|by rewrite Ho|exact Hw|exact Hb1]. lia.
Qed.
End written.

(** ** Opening *)

(** What [open] leaves alone. *)
Definition same_config `{DrbdHeaders} (w w' : world) : Prop :=
  ops (w_cfg w') = ops (w_cfg w) /\ md_index (w_cfg w') = md_index (w_cfg w) /\
  wipe_fixed (w_cfg w') = wipe_fixed (w_cfg w) /\ wipe_flex (w_cfg w') = wipe_flex (w_cfg w) /\
  w_opt w' = w_opt w /\ w_env w' = w_env w /\ w_lk w' = w_lk w /\
  (md_wf (cfg_md (w_cfg w)) -> md_wf (cfg_md (w_cfg w'))).

#[export] Instance same_config_preorder `{DrbdHeaders} : PreOrder same_config.
Proof.
  split; [by intros w; split_and!|].
  intros w1 w2 w3 (? & ? & ? & ? & ? & ? & ? & ?) (? & ? & ? & ? & ? & ? & ? & ?). split_and!; try congruence. auto.
Qed.

Section opening.
Context `{DrbdHeadersOk}.

Ltac config := intros ?; cbn; split_and!; reflexivity || (intros Hmd; exact Hmd).

Lemma config_modify f : (forall w, same_config w (f w)) -> keeps same_config (modify f).
Proof. intros Hf w. apply Hf. Qed.

Lemma config_upd_cfg f :
  (forall c, ops (f c) = ops c /\ md_index (f c) = md_index c /\ wipe_fixed (f c) = wipe_fixed c /\
             wipe_flex (f c) = wipe_flex c /\ (md_wf (cfg_md c) -> md_wf (cfg_md (f c)))) ->
  keeps same_config (upd_cfg f).
Proof. intros Hf w. destruct (Hf (w_cfg w)) as (? & ? & ? & ? & ?). by split_and!. Qed.

Lemma config_upd_md f : (forall md, md_wf md -> md_wf (f md)) -> keeps same_config (upd_md f).
Proof. intros Hf. apply config_upd_cfg. intros c. split_and!; try done. apply Hf. Qed.

Lemma config_printf s : keeps same_config (printf s).
Proof. apply config_modify. config. Qed.

Lemma config_pread pos count offset : keeps same_config (pread_or_die pos count offset).
Proof. unfold pread_or_die. keeps. apply config_modify. config. Qed.

Lemma config_suppressed : keeps same_config (modify (fun w => w <| quiet_suppressed := quiet_suppressed w + 1 |>)).
Proof. apply config_modify. config. Qed.

Lemma config_getline : keeps same_config getline.
Proof. intros w. unfold getline. destruct (w_stdin w); by split_and!. Qed.
#[local] Hint Resolve config_printf config_pread config_suppressed config_getline : keeps.

Lemma config_confirmed : keeps same_config confirmed.
Proof. unfold confirmed. keeps. Qed.
#[local] Hint Resolve config_confirmed : keeps.

Lemma config_open_retry errs o_excl o_direct : keeps same_config (open_retry errs o_excl o_direct).
Proof.
  revert o_excl o_direct. induction errs as [|e errs IH]; intros; cbn [open_retry]; unfold cancelled; keeps.
Qed.
#[local] Hint Resolve config_open_retry : keeps.

Lemma config_is_valid f md idx size : keeps same_config (is_valid_md f md idx size).
Proof. intros w. destruct (is_valid_md_constant f md idx size) as [r Hr]. by rewrite Hr. Qed.

Lemma config_bm_bytes md sectors : keeps same_config (bm_bytes md sectors).
Proof. unfold bm_bytes. keeps. Qed.
#[local] Hint Resolve config_is_valid config_bm_bytes : keeps.

Lemma config_max_usable : keeps same_config max_usable_sectors.
Proof. unfold max_usable_sectors. keeps. Qed.
#[local] Hint Resolve config_max_usable : keeps.

Lemma config_open_device : keeps same_config v07_style_md_open_device.
Proof. unfold v07_style_md_open_device. keeps; apply config_upd_cfg; intros c; by split_and!. Qed.

Lemma config_read f : super_block_format f -> keeps same_config (read_super_block f 4096 (decode_of f)).
Proof.
  intros Hf. unfold read_super_block. keeps. apply config_upd_md. intros _ _.
  destruct Hf as [-> |[-> | ->]]; [apply decoded_07_wf | apply decoded_08_wf | apply decoded_09_wf].
Qed.

Lemma config_disk_to_cpu w : super_block_format (ops (w_cfg w)) -> same_config w (md_disk_to_cpu w).2.
Proof. intros Hf. rewrite (md_disk_to_cpu_format w Hf) by done. by apply config_read. Qed.

(** After the offset is known. *)
Lemma place_upd_cfg f :
  (forall c, ops (f c) = ops c /\ md_index (f c) = md_index c /\ cfg_bd_size (f c) = cfg_bd_size c /\
             md_offset (f c) = md_offset c /\ md_hard_sect_size (f c) = md_hard_sect_size c) ->
  keeps same_place (upd_cfg f).
Proof. intros Hf w. destruct (Hf (w_cfg w)) as (? & ? & ? & ? & ?). by split_and!. Qed.

Lemma place_setup {A} (m : M A) : keeps same_setup m -> keeps same_place m.
Proof.
  intros Hm w. destruct (Hm w) as (Hc & Ho & He). unfold same_place. by rewrite Hc, Ho, He.
Qed.
#[local] Hint Extern 2 (keeps same_place _) => apply place_setup; solve [auto with setup] : keeps.
#[local] Hint Extern 1 (keeps same_place (upd_cfg _)) => apply place_upd_cfg; intros ?; split_and!; reflexivity : keeps.
#[local] Hint Extern 1 (keeps same_place (upd_md _)) => apply place_upd_cfg; intros ?; split_and!; reflexivity : keeps.

Lemma place_read f size g : keeps same_place (read_super_block f size g).
Proof. unfold read_super_block. keeps. Qed.

Lemma place_clip : keeps same_place clip_effective_size_and_bm_bytes.
Proof. unfold clip_effective_size_and_bm_bytes. keeps. Qed.
#[local] Hint Resolve place_read place_clip : keeps.

Lemma place_disk_to_cpu w : super_block_format (ops (w_cfg w)) -> same_place w (md_disk_to_cpu w).2.
Proof. intros Hf. rewrite (md_disk_to_cpu_format w Hf) by done. apply place_read. Qed.

Lemma usable_u64 w u w' :
  in_u64 (md_offset (w_cfg w)) -> in_u64 (cfg_al_offset (w_cfg w)) -> in_u64 (cfg_bm_offset (w_cfg w)) ->
  max_usable_sectors w = (Ok u, w') -> in_u64 u.
Proof.
  intros Hm Ha Hb. unfold max_usable_sectors. rewrite bind_cfg.
  match goal with |- context [if ?b then _ else _] => destruct b end.
  - intros Hr. injection Hr as <- _. rewrite Z.shiftr_div_pow2 by lia. change (2 ^ 9) with 512.
    assert (Hmin : in_u64 (min3 (md_offset (w_cfg w)) (cfg_al_offset (w_cfg w)) (cfg_bm_offset (w_cfg w)))).
    { unfold min3, min_. by repeat case_match. }
    unfold in_u64 in *. split; [apply Z.div_pos; lia|]. apply Z.div_lt_upper_bound; lia.
  - intros Hr. apply bind_inv in Hr as (? & w1 & _ & Hr). injection Hr as <- _.
    match goal with |- in_u64 (u64 ?x / 512) => pose proof (u64_range x) as Hy end.
    unfold in_u64 in *. split; [apply Z.div_pos; lia|]. apply Z.div_lt_upper_bound; lia.
Qed.

Lemma byte_offset_u64 idx bd : in_u64 (v07_style_md_get_byte_offset idx bd).
Proof.
  unfold v07_style_md_get_byte_offset. destruct (idx =? DRBD_MD_INDEX_INTERNAL); [apply u64_range|].
  destruct (idx =? DRBD_MD_INDEX_FLEX_INT).
  - pose proof (u64_range (bd - 4096)). pose proof (u64_range (Z.lnot 4095)) as Hn. unfold in_u64 in *.
    pose proof (land_le_r (u64 (bd - 4096)) (u64 (Z.lnot 4095))). lia.
  - destruct (idx =? DRBD_MD_INDEX_FLEX_EXT); [done | apply u64_range].
Qed.

(** The tail of [open]: offsets, usable size, clipping. *)
Lemma open_tail w r w' :
  in_u64 (md_offset (w_cfg w)) ->
  (upd_cfg (fun c => c
     <| cfg_al_offset := at_sectors (md_offset c) (al_offset (cfg_md c)) |>
     <| cfg_bm_offset := at_sectors (md_offset c) (bm_offset (cfg_md c)) |>);;
   usable ← max_usable_sectors;
   upd_cfg (fun c => c <| max_usable_sect := usable |>);;
   clip_effective_size_and_bm_bytes;;
   upd_cfg (fun c => c <| bits_set := u32 (-1) |>);;
   mret VALID_MD_FOUND) w = (Ok r, w') -> same_config w w' /\ same_place w w'.
Proof.
  intros Hoff Hr. split.
  2: { match type of Hr with ?m w = _ => assert (Hk : keeps same_place m) by keeps end.
       exact (keeps_result _ _ _ Hk Hr). }
  rewrite bind_upd_cfg in Hr. apply bind_inv in Hr as (u & w2 & Hu & Hr).
  set (w1 := set_cfg _ w) in Hu. assert (Hw1 : same_config w w1) by (by split_and!).
  assert (Hu64 : in_u64 u).
  { eapply (usable_u64 w1 u w2); [exact Hoff | apply u64_range | apply u64_range | exact Hu]. }
  assert (Hw2 : same_config w w2).
  { etransitivity; [exact Hw1|]. pose proof (config_max_usable w1) as Hk. by rewrite Hu in Hk. }
  etransitivity; [exact Hw2|]. rewrite bind_upd_cfg in Hr. unfold clip_effective_size_and_bm_bytes in Hr.
  rewrite bind_bind, bind_cfg in Hr. rewrite w_cfg_set in Hr.
  set (c3 := w_cfg w2 <| max_usable_sect := u |>) in Hr. set (w3 := set_cfg c3 w2) in Hr.
  assert (Hw3 : same_config w2 w3) by (by split_and!). etransitivity; [exact Hw3|].
  replace (max_usable_sect c3) with u in Hr by reflexivity.
  match type of Hr with ?m w3 = _ => assert (Hk : keeps same_config m) end.
  { keeps; first [apply config_upd_md; intros ? []; by split | apply config_upd_cfg; intros ?; by split_and!]. }
  exact (keeps_result _ _ _ Hk Hr).
Qed.

(** The size of the device is taken from the system unless it is known. *)
Definition size_of_device (w w' : world) : Prop :=
  cfg_bd_size (w_cfg w') = cfg_bd_size (w_cfg w) \/ cfg_bd_size (w_cfg w') = dev_size (w_env w).

Lemma open_retry_place errs o_excl o_direct : keeps same_place (open_retry errs o_excl o_direct).
Proof.
  revert o_excl o_direct. induction errs as [|e errs IH]; intros; cbn [open_retry]; unfold cancelled; keeps.
Qed.

Lemma open_device_size w r w' : v07_style_md_open_device w = (Ok r, w') -> size_of_device w w'.
Proof.
  intros Hr. unfold v07_style_md_open_device in Hr. rewrite bind_cfg, bind_env in Hr.
  apply bind_inv in Hr as (u & w1 & Hor & Hr).
  pose proof (keeps_result _ _ _ (open_retry_place _ _ _) Hor) as (_ & _ & Hb & _ & _ & _ & He).
  apply bind_inv in Hr as (u2 & w2 & Hfs & Hr).
  assert (w2 = w1) as -> by (destruct (dev_fstat_ok (w_env w)); by injection Hfs).
  rewrite bind_opt in Hr. apply bind_inv in Hr as (u3 & w3 & Hblk & Hr).
  assert (Hw3 : size_of_device w w3).
  { destruct (negb (dev_is_blk (w_env w))); [|injection Hblk as _ <-; by left].
    destruct (negb (force (w_opt w1))); [discriminate|]. injection Hblk as _ <-. by right. }
  assert (He3 : w_env w3 = w_env w).
  { destruct (negb (dev_is_blk (w_env w))); [|injection Hblk as _ <-; done].
    destruct (negb (force (w_opt w1))); [discriminate|]. injection Hblk as _ <-. exact He. }
  clear Hblk. rewrite bind_cfg, bind_ASSERT in Hr. destruct (_ || _); [|discriminate].
  rewrite bind_upd_cfg, bind_cfg in Hr. rewrite w_cfg_set in Hr.
  set (c4 := w_cfg w3 <| md_hard_sect_size := _ |>) in Hr.
  replace (cfg_bd_size c4) with (cfg_bd_size (w_cfg w3)) in Hr by reflexivity.
  destruct (cfg_bd_size (w_cfg w3) =? 0).
  - destruct (dev_is_blk (w_env w)).
    + rewrite bind_upd_cfg, run_mret in Hr. apply (f_equal snd) in Hr. cbn [snd] in Hr. rewrite <- Hr. by right.
    + discriminate.
  - rewrite bind_ret, run_mret in Hr. apply (f_equal snd) in Hr. cbn [snd] in Hr. rewrite <- Hr. exact Hw3.
Qed.

Lemma v07_open_inv w r w' :
  super_block_format (ops (w_cfg w)) -> v07_style_md_open w = (Ok r, w') ->
  same_config w w' /\
  md_offset (w_cfg w') = v07_style_md_get_byte_offset (md_index (w_cfg w)) (cfg_bd_size (w_cfg w')) /\
  SO_MUCH <= cfg_bd_size (w_cfg w') /\ size_of_device w w'.
Proof.
  intros Hf Hr. unfold v07_style_md_open in Hr. apply bind_inv in Hr as (rc & w1 & Hd & Hr).
  assert (Hw1 : same_config w w1) by (pose proof (config_open_device w) as Hk; by rewrite Hd in Hk).
  pose proof Hw1 as (Ho & Hi & _). destruct (rc <? 0); [discriminate|]. rewrite bind_cfg in Hr.
  destruct (Z.ltb_spec (cfg_bd_size (w_cfg w1)) SO_MUCH) as [|Hsm]; [discriminate|].
  rewrite bind_upd_cfg, bind_cfg, w_cfg_set in Hr.
  set (off := v07_style_md_get_byte_offset (md_index (w_cfg w1)) (cfg_bd_size (w_cfg w1))) in Hr.
  set (c2 := w_cfg w1 <| md_offset := off |>) in Hr. set (w2 := set_cfg c2 w1) in Hr.
  assert (Hw2 : same_config w w2) by (etransitivity; [exact Hw1|]; by split_and!).
  destruct (u64 (cfg_bd_size c2 - 4096) <? md_offset c2); [discriminate|].
  apply bind_inv in Hr as (rc2 & w3 & Hrd & Hr).
  assert (Hf2 : super_block_format (ops (w_cfg w2))) by (change (super_block_format (ops (w_cfg w1))); by rewrite Ho).
  assert (Hw3 : same_config w2 w3) by (pose proof (config_disk_to_cpu w2 Hf2) as Hk; by rewrite Hrd in Hk).
  assert (Hp3 : same_place w2 w3) by (pose proof (place_disk_to_cpu w2 Hf2) as Hk; by rewrite Hrd in Hk).
  assert (Hend : same_config w3 w' /\ same_place w3 w').
  { destruct (negb (rc2 =? 0)); [by injection Hr as _ <-|]. apply (open_tail w3 r w'); [|exact Hr].
    destruct Hp3 as (_ & _ & _ & -> & _). apply byte_offset_u64. }
  destruct Hend as [Hc4 Hp4].
  assert (Hp : same_place w2 w') by (etransitivity; [exact Hp3 | exact Hp4]).
  split; [etransitivity; [exact Hw2|]; etransitivity; [exact Hw3 | exact Hc4]|].
  destruct Hp as (_ & _ & Hb & Hoff & _). rewrite Hb, Hoff.
  change (off = v07_style_md_get_byte_offset (md_index (w_cfg w)) (cfg_bd_size (w_cfg w1)) /\ SO_MUCH <= cfg_bd_size (w_cfg w1) /\
    size_of_device w w').
  split; [by rewrite <- Hi|]. split; [done|]. apply open_device_size in Hd. unfold size_of_device. by rewrite Hb.
Qed.

Lemma config_check_for_resize : keeps same_config v08_check_for_resize.
Proof.
  unfold v08_check_for_resize, lk_bdev_load_file. keeps.
  all: first [apply config_upd_cfg; intros ?; by split_and! | apply config_upd_md; intros _ _].
  all: destruct (is_v08 _); [apply decoded_08_wf | apply decoded_09_wf].
Qed.

Lemma place_check_for_resize : keeps same_place v08_check_for_resize.
Proof.
  unfold v08_check_for_resize, lk_bdev_load_file. keeps.
Qed.

Lemma md_open_inv w r w' :
  ops (w_cfg w) = DRBD_V08 \/ ops (w_cfg w) = DRBD_V09 -> md_open w = (Ok r, w') ->
  same_config w w' /\
  md_offset (w_cfg w') = v07_style_md_get_byte_offset (md_index (w_cfg w)) (cfg_bd_size (w_cfg w')) /\
  SO_MUCH <= cfg_bd_size (w_cfg w') /\ size_of_device w w'.
Proof.
  intros Hf Hr. assert (Hsf : super_block_format (ops (w_cfg w))) by (by right).
  assert (Hr' : v08_md_open w = (Ok r, w')).
  { unfold md_open in Hr. rewrite bind_cfg in Hr. by destruct Hf as [Hf|Hf]; rewrite Hf in Hr. }
  unfold v08_md_open in Hr'. apply bind_inv in Hr' as (r1 & w1 & Ho & Hr').
  destruct (v07_open_inv w r1 w1 Hsf Ho) as (Hc & Hoff & Hsm & Hdev). unfold size_of_device in Hdev.
  assert (Hrest : forall m : M md_open_rc, keeps same_config m -> keeps same_place m -> m w1 = (Ok r, w') ->
    same_config w w' /\
    md_offset (w_cfg w') = v07_style_md_get_byte_offset (md_index (w_cfg w)) (cfg_bd_size (w_cfg w')) /\
    SO_MUCH <= cfg_bd_size (w_cfg w') /\ size_of_device w w').
  { intros m Hk1 Hk2 Hm. unfold size_of_device. apply (keeps_result _ _ _ Hk1) in Hm as H1'. apply (keeps_result _ _ _ Hk2) in Hm as H2'.
    split; [etransitivity; [exact Hc | exact H1']|]. destruct H2' as (_ & _ & Hb & -> & _). by rewrite Hb. }
  pose proof config_check_for_resize. pose proof place_check_for_resize.
  destruct r1; revert Hr'; apply Hrest; keeps.
Qed.
End opening.

(** ** create-md *)

Section created.
Context `{DrbdHeadersOk}.

Lemma close_keeps_dev w r w' : md_close w = (Ok r, w') -> w_dev w' = w_dev w /\ cfg_md (w_cfg w') = cfg_md (w_cfg w) /\ same_place w w'.
Proof.
  intros Hr. assert (Hk : keeps (fun w w' => w_dev w' = w_dev w /\ cfg_md (w_cfg w') = cfg_md (w_cfg w) /\ same_place w w') md_close).
  { assert (Hpo : PreOrder (fun w w' : world => w_dev w' = w_dev w /\ cfg_md (w_cfg w') = cfg_md (w_cfg w) /\ same_place w w')).
    { split; [intros x; by split_and!|]. intros w1 w2 w3 (? & ? & ?) (? & ? & ?).
      split_and!; [congruence.. | etransitivity; eassumption]. }
    unfold md_close, v08_md_close, generic_md_close, lk_bdev_delete, lk_bdev_save_file. keeps.
    all: try (intros w0; by split_and!). }
  exact (keeps_result _ _ _ Hk Hr).
Qed.

Lemma wipe_after_setup : keeps same_setup wipe_after_convert.
Proof. unfold wipe_after_convert. keeps; auto with setup. Qed.

(** The last step: the super block is on disk. *)
Lemma create_write_block err w w' :
  super_block_format (ops (w_cfg w)) -> dry_run (w_opt w) = false -> wipe_apart (w_cfg w) ->
  create_write err w = (Ok 0, w') ->
  let c := w_cfg w in
  (exists w1, is_valid_md (ops c) (cfg_md c) (md_index c) (cfg_bd_size c) w1 = (Ok true, w1)) /\
  same_place w w' /\ cfg_md (w_cfg w') = cfg_md c /\
  (0 <= s64 (md_offset c) /\ s64 (md_offset c) + 4096 <= dev_size (w_env w)) /\
  exists b, block_is (s64 (md_offset c)) (encode_of (ops c) b (cfg_md c)) w'.
Proof.
  intros Hf Hd Hx Hr c. unfold create_write in Hr. rewrite bind_printf in Hr.
  apply bind_inv in Hr as (e1 & w1 & He & Hr). apply bind_inv in Hr as (u & w2 & Hw & Hr).
  apply bind_inv in Hr as (rc & w3 & Hcl & Hr).
  assert (He1 : e1 = 0 /\ w' = w3 \/ e1 = 0 /\ exists s, w' = out s w3).
  { destruct (truth rc || truth e1) eqn:E; cbn [of_bool Z.eqb] in Hr.
    - rewrite bind_ret in Hr. discriminate.
    - rewrite bind_printf in Hr. injection Hr as <-. right. split; [|by eexists].
      apply orb_false_iff in E as [_ E]. unfold truth in E. by apply negb_false_iff, Z.eqb_eq in E. }
  assert (Hfin : e1 = 0 /\ w_dev w' = w_dev w3 /\ cfg_md (w_cfg w') = cfg_md (w_cfg w3) /\ same_place w3 w').
  { destruct He1 as [[-> ->]|[-> [s ->]]]; by split_and!. }
  clear He1 Hr. destruct Hfin as (-> & Hdev3 & Hmd3 & Hp3).
  destruct (truth err); [discriminate|]. apply bind_inv in He as (r & w4 & Hwr & He).
  injection He as He <-. assert (Hr0 : r = 0).
  { unfold truth, of_bool in He. destruct (Z.eqb_spec r 0); [done | discriminate]. }
  subst r.
  destruct (md_cpu_to_disk_inv (out ("Writing meta data..." +:+ nl) w) w4 Hf Hd Hwr) as (Hv & [lk Hc4] & Ho4 & Hen4 & Hin & Hb4).
  change (w_cfg (out ("Writing meta data..." +:+ nl) w)) with c in Hc4, Hv, Hb4.
  change (w_opt (out ("Writing meta data..." +:+ nl) w)) with (w_opt w) in Ho4.
  change (w_env (out ("Writing meta data..." +:+ nl) w)) with (w_env w) in Hen4, Hin.
  cbn [Z.eqb] in Hw. destruct u.
  assert (Hb2 : block_is (s64 (md_offset c)) (encode_of (ops c) (w_buf w) (cfg_md c)) w2).
  { assert (Hoff4 : md_offset (w_cfg w4) = md_offset c) by (by rewrite Hc4).
    rewrite <- Hoff4. apply (wipe_keeps_block _ w4 w2); [by rewrite Hc4 | by rewrite Ho4 | exact Hw | by rewrite Hoff4]. }
  pose proof (keeps_result _ _ _ wipe_after_setup Hw) as (Hc2 & Ho2 & Hen2).
  destruct (close_keeps_dev w2 rc w3 Hcl) as (Hdev2 & Hmd2 & Hp2).
  assert (Hp : same_place w w3).
  { etransitivity; [|exact Hp2]. unfold same_place. rewrite Hc2, Ho2, Hen2, Hc4, Ho4, Hen4. by split_and!. }
  split; [exact Hv|]. split; [etransitivity; [exact Hp | exact Hp3]|].
  split; [by rewrite Hmd3, Hmd2, Hc2, Hc4|]. split; [exact Hin|]. exists (w_buf w). intros i Hi. rewrite Hdev3, Hdev2. by apply Hb2.
Qed.

Lemma create_max_peers_world argv w mp w1 : create_max_peers argv w = (Ok mp, w1) -> w1 = w.
Proof.
  assert (Hk : keeps eq (create_max_peers argv)).
  { unfold create_max_peers, strtoll_or_die. keeps. }
  intros Hr. symmetry. exact (keeps_result _ _ _ Hk Hr).
Qed.

Lemma stays_from_last_known w0 w r w' :
  Stay w0 w -> opts_ok (w_opt w0) -> force (w_opt w0) = true ->
  create_from_last_known w = (Ok r, w') -> r = None /\ Stay w0 w'.
Proof.
  intros Hw Ho Hforce Hr. unfold create_from_last_known in Hr. rewrite bind_cfg, bind_opt in Hr.
  destruct (st_place _ _ Hw) as (_ & _ & _ & _ & _ & Hopt & _). rewrite Hopt, Hforce in Hr.
  apply bind_inv in Hr as (u & w1 & Hc & Hr).
  assert (w1 = w) as -> by (by destruct (_ && _); [|injection Hc]).
  rewrite bind_ret in Hr. cbv match in Hr. rewrite bind_upd_md, run_mret in Hr.
  assert (Hk : stays w0 any (upd_md (fun _ => zero_md))) by (apply stays_upd_md; intros _ _; apply zero_md_wf).
  injection Hr as <- <-. split; [done|]. eapply (Hk w ()); [done | reflexivity].
Qed.

(** The block is read back. *)
Lemma read_created b md w :
  let c := w_cfg w in
  ops c = DRBD_V08 \/ ops c = DRBD_V09 ->
  0 <= s64 (md_offset c) /\ s64 (md_offset c) + 4096 <= dev_size (w_env w) ->
  md_wf md -> can_store (ops c) md ->
  (exists w1, is_valid_md (ops c) md (md_index c) (cfg_bd_size c) w1 = (Ok true, w1)) ->
  block_is (s64 (md_offset c)) (encode_of (ops c) b md) w ->
  exists w3, md_disk_to_cpu w = (Ok 0, w3) /\ cfg_md (w_cfg w3) = stored_of (ops c) md.
Proof.
  intros c Hf Hin Hmd Hs [w1 Hv] Hb.
  assert (Hmax : max_peers md <= DRBD_PEERS_MAX - 1).
  { apply is_valid_peers, md_peers_ok_max in Hv. lia. }
  apply is_valid_stored in Hv; [|done..].
  rewrite (md_disk_to_cpu_format w (or_intror Hf) w eq_refl). unfold read_super_block. rewrite bind_cfg. fold c.
  erewrite bind_ok by (apply pread_or_die_ok; unfold buffer_size; lia). rewrite bind_gets.
  set (w2 := w <| w_buf := _ |>).
  assert (Hdec : decode_of (ops c) (w_buf w2) 0 = stored_of (ops c) md).
  { assert (Hcopy : forall i, 0 <= i < 4096 -> w_buf w2 i = encode_of (ops c) b (stored_of (ops c) md) i).
    { intros i Hi. cbn. unfold copy. case_range; [|lia]. transitivity (w_dev w (s64 (md_offset c) + i)); [f_equal; lia|].
      rewrite (Hb i Hi). destruct Hf as [Hf|Hf]; rewrite Hf; cbn [encode_of stored_of].
      all: first [by rewrite encode_stored_08 | by rewrite encode_stored_09]. }
    apply (encoded_back (stored := storable (ops c)) _ b (stored_of (ops c) md)); [|exact Hcopy].
    destruct Hf as [Hf|Hf]; rewrite Hf in *; cbn [storable stored_of].
    all: first [by apply storable_stored_08 | by apply storable_stored_09]. }
  cbv zeta. rewrite Hdec.
  destruct (is_valid_md_constant (ops c) (stored_of (ops c) md) (md_index c) (cfg_bd_size c)) as [r Hr].
  assert (r = Ok true) as -> by (rewrite Hr in Hv; by injection Hv).
  rewrite (bind_ok _ _ _ _ _ (Hr w2)). cbv match. rewrite bind_upd_md, run_mret. by eexists.
Qed.
End created.

(** ** Theorems *)

(** C18: if create-md for DRBD 8 or 9 succeeds (not in a dry run, on a device with
    no meta data at a last-known location unless --force is given), then from
    then on the format reads valid meta data at their place: those that were
    created, except for what the format does not store.  This holds whether new
    meta data were initialized or old ones converted, and whatever was wiped. *)
Theorem created_md_is_read `{DrbdHeadersOk} argv w w' w2 :
  let c := w_cfg w in let md := cfg_md (w_cfg w') in
  ops c = DRBD_V08 \/ ops c = DRBD_V09 ->
  opts_ok (w_opt w) -> dry_run (w_opt w) = false ->
  md_wf (cfg_md c) -> wipe_fixed c = 0 -> wipe_flex c = 0 ->
  cfg_bd_size c < 2 ^ 63 -> dev_size (w_env w) < 2 ^ 63 ->
  (md_open w).1 <> Ok VALID_MD_FOUND_AT_LAST_KNOWN_LOCATION \/ force (w_opt w) = true ->
  meta_create_md argv w = (Ok 0, w') -> can_store (ops c) md ->
  same_place w' w2 -> w_dev w2 = w_dev w' ->
  exists w3, md_disk_to_cpu w2 = (Ok 0, w3) /\ cfg_md (w_cfg w3) = stored_of (ops c) md.
Proof.
  intros c md Hf Ho Hd Hmd Hx1 Hx2 Hbd Hdevs Hlast Hr Hs Hp2 Hdev2.
  unfold meta_create_md in Hr. apply bind_inv in Hr as (mp & w0 & Hmp & Hr).
  apply create_max_peers_world in Hmp as ->. apply bind_inv in Hr as (found & w1 & Hopen & Hr).
  destruct (md_open_inv w found w1 Hf Hopen) as ((E1 & E2 & E3 & E4 & E5 & E6 & _ & E8) & Hoff & Hsm & Hsize).
  assert (Hst1 : Stay w1 w1).
  { split; [done | by apply E8|]. split; [by rewrite E4|]. left. by rewrite E3. }
  assert (Hf1 : ops (w_cfg w1) = DRBD_V08 \/ ops (w_cfg w1) = DRBD_V09) by (by rewrite E1).
  assert (Ho1 : opts_ok (w_opt w1)) by (by rewrite E5).
  apply bind_inv in Hr as (moved & w3 & Hmv & Hr).
  assert (Hmoved : moved = None /\ Stay w1 w3).
  { destruct found; [by injection Hmv as <- <- | by injection Hmv as <- <-|].
    destruct Hlast as [Hlast|Hforce]; [by rewrite Hopen in Hlast|].
    apply (stays_from_last_known w1 w1 moved w3); [done | done | by rewrite E5 | done]. }
  destruct Hmoved as [-> Hst3]. clear Hmv Hlast.
  apply bind_inv in Hr as ([conv err] & w4 & Hcc & Hr).
  rewrite bind_opt, bind_upd_md in Hr. apply bind_inv in Hr as (u & w6 & Hinit & Hr).
  assert (Hbd1 : 4096 <= cfg_bd_size (w_cfg w1) < 2 ^ 63).
  { unfold SO_MUCH in Hsm. destruct Hsize as [Hz|Hz]; rewrite Hz in *; unfold c in Hbd; lia. }
  rewrite <- E2 in Hoff.
  assert (Hst4 : Stay w1 w4).
  { eapply (stays_create_or_convert w1 Ho1 just_created_range al_clean_range Hbd1 Hoff mp Hf1 w3); [done | exact Hcc]. }
  assert (Hst6 : Stay w1 w6).
  { assert (Hopt4 : opts_ok (w_opt w4)) by (destruct (st_place _ _ Hst4) as (_ & _ & _ & _ & _ & -> & _); done).
    assert (Hup : stays w1 any (upd_md (create_overrides conv (w_opt w4)))).
    { apply stays_upd_md. intros x Hx. by apply md_wf_overrides. }
    eapply (stays_create_initial_state w1 Ho1); [|exact Hinit]. eapply (Hup w4 ()); [done | reflexivity]. }
  destruct Hst6 as [Hp6 Ht6 Hw6]. pose proof Hp6 as (F1 & F2 & F3 & F4 & F5 & F6 & F7).
  apply create_write_block in Hr as (Hv & Hp & Hmd' & Hin & b & Hb); [|by rewrite F1; right | by rewrite F6, E5 | done].
  assert (Hp62 : same_place w6 w2) by (etransitivity; [exact Hp | exact Hp2]).
  destruct Hp62 as (G1 & G2 & G3 & G4 & G5 & G6 & G7).
  assert (Hc2 : ops (w_cfg w2) = ops c) by (rewrite G1, F1, E1; done).
  unfold md in *. rewrite Hmd' in *.
  rewrite <- Hc2. apply (read_created b (cfg_md (w_cfg w6)) w2).
  - by rewrite Hc2.
  - by rewrite G4, G7.
  - done.
  - by rewrite Hc2.
  - by rewrite G1, G2, G3.
  - rewrite G4, G1. intros i Hi. rewrite Hdev2. by apply Hb.
Qed.

(** A blank block device of 1 MiB, all of it for the meta data of one peer. *)
Definition create_example : world :=
  blank_world DRBD_V09 create_md zero_mem (2 ^ 20)
    <| w_cfg := blank_cfg DRBD_V09 <| md_index := DRBD_MD_INDEX_FLEX_EXT |> |>
    <| w_opt := default_options create_md <| force := true |> |>.

Lemma created_md_is_read_witness :
  let w' := (meta_create_md ["1"%string] create_example).2 in
  (meta_create_md ["1"%string] create_example).1 = Ok 0 /\
  exists w3, md_disk_to_cpu w' = (Ok 0, w3) /\
    cfg_md (w_cfg w3) = stored_of (ops (w_cfg create_example)) (cfg_md (w_cfg w')).
Proof.
  intros w'. assert (Hr : (meta_create_md ["1"%string] create_example).1 = Ok 0) by (vm_compute; reflexivity).
  split; [exact Hr|].
  assert (Ho : opts_ok (w_opt create_example)) by (split; vm_compute; intuition congruence).
  exact (created_md_is_read ["1"%string] create_example w' w' (or_intror eq_refl) Ho eq_refl zero_md_wf eq_refl eq_refl
    eq_refl eq_refl (or_intror eq_refl) (run_result _ _ _ Hr) I (PreOrder_Reflexive (R := same_place) w') eq_refl).
Defined.
