(* ===== verification/Succeeds.v ===== *)
(** * Creating meta data succeeds

    [create-md] for DRBD 9 with internal meta data on a blank device: a logic for
    runs that return, and the run through the steps of [meta_create_md] of
    src/user/shared/drbdmeta.c, each of which is shown to return. *)

From S2P Require Import Prelude Machine Headers SharedTool MetaData OnDisk Layout FsDetect GenId.
From S2P Require Import ActivityLog OpenMd SuperBlock InitMd Convert Create Created.
From stdpp Require Import strings.

#[local] Open Scope Z_scope.

(** ** Runs that return *)

(** [m] returns from [w], and [Q] holds of its result and the world after it. *)
Definition yields {A} (m : M A) (w : world) (Q : A -> world -> Prop) : Prop :=
  exists a w', m w = (Ok a, w') /\ Q a w'.

Lemma yields_ret {A} (a : A) w (Q : A -> world -> Prop) : Q a w -> yields (mret a) w Q.
Proof. intros HQ. by exists a, w. Qed.

Lemma yields_bind {A B} (m : M A) (k : A -> M B) w P Q :
  yields m w P -> (forall a w', P a w' -> yields (k a) w' Q) -> yields (m ≫= k) w Q.
Proof.
  intros (a & w1 & Hm & HP) Hk. destruct (Hk a w1 HP) as (b & w2 & Hb & HQ).
  exists b, w2. split; [|done]. by rewrite (bind_ok _ _ _ _ _ Hm).
Qed.

Lemma yields_weaken {A} (m : M A) w (P Q : A -> world -> Prop) :
  yields m w P -> (forall a w', P a w' -> Q a w') -> yields m w Q.
Proof. intros (a & w' & Hm & HP) HPQ. exists a, w'. auto. Qed.

Lemma yields_run {A} (m : M A) w a w' (Q : A -> world -> Prop) : m w = (Ok a, w') -> Q a w' -> yields m w Q.
Proof. intros Hm HQ. by exists a, w'. Qed.

(** ** Reading a blank device *)

(** The same configuration, device and last-known information. *)
Definition unchanged (w w' : world) : Prop := same_setup w w' /\ w_dev w' = w_dev w /\ w_lk w' = w_lk w.

#[export] Instance unchanged_preorder : PreOrder unchanged.
Proof.
  split; [by intros w|]. intros w1 w2 w3 (H1 & H2 & H3) (H4 & H5 & H6).
  split; [by etransitivity|]. split; congruence.
Qed.

Definition blank (w : world) : Prop := forall i, w_dev w i = 0.

Lemma blank_unchanged w w' : unchanged w w' -> blank w -> blank w'.
Proof. intros (_ & Hd & _) Hb i. by rewrite Hd. Qed.

Lemma load_le_zero n m a : (forall i, a <= i < a + Z.of_nat n -> m i = 0) -> load_le n m a = 0.
Proof.
  revert a. induction n as [|n IH]; intros a Hm; [done|]. cbn [load_le].
  rewrite Hm by lia. rewrite IH; [done|]. intros i Hi. apply Hm. lia.
Qed.

Lemma blank_read count offset w :
  blank w -> 0 <= offset -> offset + count <= dev_size (w_env w) -> count <= buffer_size ->
  yields (pread_or_die 0 count offset) w
    (fun _ w' => unchanged w w' /\ forall i, 0 <= i < count -> w_buf w' i = 0).
Proof.
  intros Hb Ho He Hc. eapply yields_run; [apply pread_or_die_ok; lia|]. split; [by repeat split|].
  intros i Hi. transitivity (copy (w_buf w) 0 (w_dev w) offset count i); [reflexivity|].
  unfold copy. case_range; [apply Hb | lia].
Qed.

Section blank.
Context `{DrbdHeadersOk}.

(** A block of zeros is no super block. *)
Lemma zero_block_magic b :
  (forall i, 0 <= i < 4096 -> b i = 0) ->
  magic (md_disk_07_to_cpu b 0) = 0 /\ magic (md_disk_08_to_cpu b 0) = 0 /\ magic (md_disk_09_to_cpu b 0) = 0.
Proof.
  intros Hb. pose proof ui_order as (Hu1 & Hu2 & Hu3 & Hu4 & Hu5).
  assert (Hz : forall a, 0 <= a -> a + 4 <= 4096 -> be32_at b a = 0).
  { intros a H0' H1'. unfold be32_at. rewrite load_le_zero; [reflexivity|]. intros i Hi. apply Hb. lia. }
  split; [|split].
  - transitivity (be32_at b (0 + 28)); [reflexivity | apply Hz; lia].
  - transitivity (be32_at b (0 + d8_u32 1)); [reflexivity|]. unfold d8_u32. apply Hz; lia.
  - transitivity (be32_at b (0 + d9_magic)); [reflexivity|].
    destruct (layout_ok_in _ _ (d9_magic, 4%nat) d9_layout) as [? ?]; [|cbn [fst snd] in *; apply Hz; lia].
    unfold d9_fields. apply elem_of_app. left. repeat (apply elem_of_cons; (by left) || right).
Qed.

Lemma zero_magic_invalid f md idx size w :
  super_block_format f -> magic md = 0 -> is_valid_md f md idx size w = (Ok false, w).
Proof.
  intros Hf Hm. pose proof magic_range. unfold is_valid_md. rewrite bind_ASSERT.
  assert (Hok : md_magic_ok f md = false).
  { unfold md_magic_ok, DRBD_MD_MAGIC_07, DRBD_MD_MAGIC_08, DRBD_MD_MAGIC_84_UNCLEAN, DRBD_MD_MAGIC_09. rewrite Hm.
    destruct Hf as [-> |[-> | ->]]; rewrite ?orb_false_iff, ?Z.eqb_neq; lia. }
  rewrite Hok. by destruct Hf as [-> |[-> | ->]].
Qed.

Lemma zero_block_invalid f b idx size w :
  super_block_format f -> (forall i, 0 <= i < 4096 -> b i = 0) ->
  is_valid_md f (decode_of f b 0) idx size w = (Ok false, w).
Proof.
  intros Hf Hb. apply zero_magic_invalid; [done|]. destruct (zero_block_magic b Hb) as (H7 & H8 & H9).
  by destruct Hf as [-> |[-> | ->]].
Qed.

Lemma blank_detect size idx w :
  (forall i, 0 <= i < 4096 -> w_buf w i = 0) -> detect_md size idx w = (Ok None, w).
Proof.
  intros Hb. unfold detect_md. rewrite bind_gets. unfold detect_one.
  rewrite bind_bind, (bind_ok _ _ _ _ _ (zero_block_invalid DRBD_V07 _ idx size w (or_introl eq_refl) Hb)). cbn [decode_of].
  rewrite bind_ret, bind_bind, (bind_ok _ _ _ _ _ (zero_block_invalid DRBD_V08 _ idx size w (or_intror (or_introl eq_refl)) Hb)).
  by rewrite bind_ret, (bind_ok _ _ _ _ _ (zero_block_invalid DRBD_V09 _ idx size w (or_intror (or_intror eq_refl)) Hb)).
Qed.

(** No meta data of any flavour are found. *)
Lemma blank_find_internal fixed flex w :
  blank w -> cfg_bd_size (w_cfg w) = dev_size (w_env w) -> 0 <= dev_size (w_env w) < 2 ^ 63 ->
  0 <= flex -> flex + 4096 <= dev_size (w_env w) ->
  yields (find_internal fixed flex) w (fun r w' => r = None /\ unchanged w w').
Proof.
  intros Hb Hbd Hds Hf Hfe. unfold find_internal. unfold cfg at 1. apply (yields_bind _ _ _ (fun c w' => c = w_cfg w /\ w' = w)); [by eapply yields_run|].
  intros c w1 [-> ->].
  apply (yields_bind _ _ _ (fun r w' => r = None /\ unchanged w w')).
  - destruct (Z.leb_spec 0 fixed) as [Hfx|]; [|by apply yields_ret]. cbn [andb].
    rewrite s64_id by lia. destruct (Z.ltb_spec fixed (cfg_bd_size (w_cfg w) - 4096)) as [Hlt|]; [|by apply yields_ret].
    eapply yields_bind; [apply blank_read; [done | lia | lia | done]|]. intros [] w2 [Hu Hz].
    eapply yields_run; [|split; [done | exact Hu]]. rewrite bind_gets.
    by rewrite (bind_ok _ _ _ _ _ (zero_block_invalid DRBD_V07 _ _ _ _ (or_introl eq_refl) Hz)).
  - intros r w1 [-> Hu]. pose proof Hu as ((_ & _ & He) & _).
    eapply yields_bind; [apply blank_read; [by eapply blank_unchanged | lia | by rewrite He | done]|].
    intros [] w2 [Hu2 Hz]. eapply yields_run; [|split; [done | by transitivity w1]].
    by rewrite (bind_ok _ _ _ _ _ (blank_detect _ _ w2 Hz)).
Qed.
End blank.

(** ** Opening *)

(** The system grants what opening and closing ask for. *)
Record grants (e : environment) : Prop := {
  gr_blk : dev_is_blk e = true;
  gr_errors : dev_open_errors e = [];
  gr_open : dev_open_ok e = true;
  gr_fstat : dev_fstat_ok e = true;
  gr_close : dev_close_ok e = true;
  gr_size : SO_MUCH <= dev_size e <= 2 ^ 50
}.

(** A run of the tool for internal meta data of DRBD 9, before anything was
    read; nothing is known about an earlier place of the meta data. *)
Record fresh `{DrbdHeaders} (w : world) : Prop := {
  fr_ops : ops (w_cfg w) = DRBD_V09;
  fr_index : md_index (w_cfg w) = DRBD_MD_INDEX_FLEX_INT;
  fr_md : magic (cfg_md (w_cfg w)) = 0;
  fr_size : cfg_bd_size (w_cfg w) = 0;
  fr_wipe : wipe_fixed (w_cfg w) = 0 /\ wipe_flex (w_cfg w) = 0;
  fr_known : bd_size (lk_bd (w_cfg w)) = 0;
  fr_lk : w_lk w = None
}.

(** The configuration of the opened device. *)
Definition opened_cfg `{DrbdHeaders} (w : world) : format :=
  w_cfg w <| md_hard_sect_size := default 512 (dev_sector_size (w_env w)) |>
          <| cfg_bd_size := dev_size (w_env w) |>
          <| md_offset := v07_style_md_get_byte_offset DRBD_MD_INDEX_FLEX_INT (dev_size (w_env w)) |>.

Section opening.
Context `{DrbdHeadersOk} (w : world) (Hfr : fresh w) (Hgr : grants (w_env w)).

Lemma fresh_device_run :
  v07_style_md_open_device w =
  (Ok 0, set_cfg (w_cfg w <| md_hard_sect_size := default 512 (dev_sector_size (w_env w)) |>
                          <| cfg_bd_size := dev_size (w_env w) |>) w).
Proof.
  destruct Hfr as [Ho Hi _ Hs _ _ _], Hgr as [G1 G2 G3 G4 _ _]. pose proof md_index_ne as (_ & Hne & _).
  unfold v07_style_md_open_device. rewrite bind_cfg, bind_env, G2. cbn [open_retry].
  rewrite bind_bind, bind_env, G3, bind_ret, G4, bind_ret, bind_opt, G1. cbn [negb]. rewrite bind_ret, bind_cfg, bind_ASSERT.
  replace (version_lt (w_cfg w) DRBD_V08 || negb (md_index (w_cfg w) =? DRBD_MD_INDEX_INTERNAL)) with true.
  2: { symmetry. apply orb_true_iff. right. apply negb_true_iff, Z.eqb_neq. congruence. }
  rewrite bind_upd_cfg, bind_cfg, w_cfg_set.
  match goal with |- context [cfg_bd_size ?c =? 0] => replace (cfg_bd_size c) with (cfg_bd_size (w_cfg w)) by reflexivity end.
  rewrite Hs, Z.eqb_refl. by rewrite bind_upd_cfg.
Qed.

Lemma flex_offset_range :
  let off := v07_style_md_get_byte_offset DRBD_MD_INDEX_FLEX_INT (dev_size (w_env w)) in
  0 <= off /\ off + 4096 <= dev_size (w_env w) /\ off < 2 ^ 50.
Proof.
  destruct Hgr as [_ _ _ _ _ Hs]. unfold SO_MUCH in Hs. intros off. unfold off. rewrite flex_int_offset by lia.
  pose proof (Z.div_mod (dev_size (w_env w)) 4096). pose proof (Z.mod_pos_bound (dev_size (w_env w)) 4096).
  assert (1 <= dev_size (w_env w) / 4096) by (apply Z.div_le_lower_bound; lia). lia.
Qed.

Let opened : world := set_cfg (opened_cfg w) w.

Lemma opened_place :
  md_offset (w_cfg opened) = v07_style_md_get_byte_offset DRBD_MD_INDEX_FLEX_INT (dev_size (w_env w)) /\
  cfg_bd_size (w_cfg opened) = dev_size (w_env w) /\ w_env opened = w_env w /\ w_opt opened = w_opt w /\
  ops (w_cfg opened) = DRBD_V09 /\ md_index (w_cfg opened) = DRBD_MD_INDEX_FLEX_INT /\ cfg_md (w_cfg opened) = cfg_md (w_cfg w).
Proof. pose proof Hfr as [Ho Hi _ _ _ _ _]. split_and!; (reflexivity || assumption). Qed.

(** There is no super block at its place. *)
Lemma blank_read_super (Hb : blank w) :
  yields md_disk_to_cpu opened (fun rc w' => rc = -1 /\ unchanged opened w').
Proof.
  destruct flex_offset_range as (Hlo & Hhi & Hlt). destruct opened_place as (E1 & E2 & E3 & _ & E5 & _).
  assert (Hsf : super_block_format (ops (w_cfg opened))) by (right; by right).
  unfold yields. rewrite (md_disk_to_cpu_format opened Hsf opened eq_refl), E5.
  unfold read_super_block. rewrite bind_cfg, E1, s64_id by lia.
  eapply yields_bind; [apply blank_read; [exact Hb | done | by rewrite E3 | done]|].
  intros [] w1 [Hu Hz]. eapply yields_run; [|split; [reflexivity | exact Hu]]. rewrite bind_gets. cbv zeta.
  by rewrite (bind_ok _ _ _ _ _ (zero_block_invalid DRBD_V09 _ _ _ w1 (or_intror (or_intror eq_refl)) Hz)).
Qed.

Lemma blank_open_07 (Hb : blank w) :
  yields v07_style_md_open w (fun r w' => r = NO_VALID_MD_FOUND /\ unchanged opened w').
Proof.
  destruct flex_offset_range as (Hlo & Hhi & Hlt). pose proof Hfr as [Ho Hi Hm Hs _ Hk Hl]. pose proof Hgr as [_ _ _ _ _ Hsm].
  unfold SO_MUCH in Hsm. unfold v07_style_md_open, yields. rewrite (bind_ok _ _ _ _ _ fresh_device_run).
  change (0 <? 0) with false. cbv match. rewrite bind_cfg. set (w1 := set_cfg _ w).
  replace (cfg_bd_size (w_cfg w1)) with (dev_size (w_env w)) by reflexivity. unfold SO_MUCH.
  rewrite (proj2 (Z.ltb_ge (dev_size (w_env w)) _)) by lia. rewrite bind_upd_cfg, bind_cfg, w_cfg_set.
  replace (md_index (w_cfg w1)) with (md_index (w_cfg w)) by reflexivity.
  replace (cfg_bd_size (w_cfg w1)) with (dev_size (w_env w)) by reflexivity. rewrite Hi.
  replace (set_cfg _ w1) with opened by reflexivity.
  match goal with |- context [u64 (cfg_bd_size ?c - 4096) <? md_offset ?c] =>
    replace (u64 (cfg_bd_size c - 4096) <? md_offset c) with false end.
  2: { destruct opened_place as (E1 & E2 & _). symmetry. apply Z.ltb_ge. unfold opened in E1, E2. rewrite w_cfg_set in E1, E2.
       unfold opened_cfg in E1, E2. etransitivity; [exact (Z.eq_le_incl _ _ E1)|]. 
       etransitivity; [|exact (Z.eq_le_incl _ _ (f_equal (fun x => u64 (x - 4096)) (eq_sym E2)))]. rewrite u64_id by (unfold in_u64; lia). lia. }
  eapply yields_bind; [apply (blank_read_super Hb)|]. intros rc w2 [-> Hu]. by apply yields_ret.
Qed.

(** Nor at the last-known location. *)
Lemma blank_open (Hb : blank w) : yields md_open w (fun r w' => r = NO_VALID_MD_FOUND /\ unchanged opened w').
Proof.
  pose proof Hfr as [Ho Hi Hm Hs _ Hk Hl]. destruct opened_place as (_ & _ & _ & _ & E5 & E6 & E7).
  unfold yields, md_open. rewrite bind_cfg, Ho. unfold v08_md_open.
  eapply yields_bind; [apply (blank_open_07 Hb)|]. intros r w1 [-> Hu].
  pose proof Hu as ((Hc & _ & _) & _ & Hlk).
  assert (Hres : v08_check_for_resize w1 = (Ok (), w1)).
  { unfold v08_check_for_resize. rewrite bind_cfg, Hc, bind_ASSERT, E7, Hm. cbn [Z.eqb].
    assert (Hv : version_lt (w_cfg opened) DRBD_V08 = false) by (unfold version_lt, version_ge, format_version; by rewrite E5).
    rewrite Hv, E6, Z.eqb_refl. cbn [negb]. unfold lk_bdev_load_file. 
    rewrite bind_bind, bind_gets, bind_ret, Hlk. change (w_lk opened) with (w_lk w). by rewrite Hl. }
  cbv match. unfold yields at 1. rewrite (bind_ok _ _ _ _ _ Hres), bind_cfg, Hc. apply yields_ret. split; [|done].
  replace (bd_size (lk_bd (w_cfg opened))) with (bd_size (lk_bd (w_cfg w))) by reflexivity. by rewrite Hk.
Qed.
End opening.

(** ** Initializing *)

(** The meta data the layout is computed for. *)
Definition initial_md `{DrbdHeaders} (o : options) (mp : Z) : md_cpu :=
  md_defaults o (v09_initial o mp <| al_nr_extents := 257 |> <| bm_bytes_per_bit := 0 |>).

Definition initial_bitmap `{DrbdHeaders} (w : world) (mp : Z) : Z :=
  bm_bytes_of (initial_md (w_opt w) mp) (dev_size (w_env w) / 512).

(** The device has room for super block, activity log and bitmap, the bitmap is
    not larger than the tool allows, and sectors not larger than a block. *)
Record room `{DrbdHeaders} (w : world) (mp : Z) : Prop := {
  rm_block : exists k, block_size (initial_md (w_opt w) mp) k;
  rm_ring : ring_ok (initial_md (w_opt w) mp);
  rm_large : initial_bitmap w mp / 512 <= mp * 2 ^ 26;
  rm_fits : 4096 + 4096 * al_blocks (initial_md (w_opt w) mp) + initial_bitmap w mp <= dev_size (w_env w) / 4096 * 4096;
  rm_sector : exists j, 0 <= j <= 12 /\ default 512 (dev_sector_size (w_env w)) = 2 ^ j
}.

(** No option asks for a dry run, for UUIDs or for an unusual initial state. *)
Record plain (o : options) : Prop := {
  pl_dry : dry_run o = false;
  pl_mode : option_initialize_bitmap_mode o <> IBM_ZEROOUT_IOCTL_ONLY;
  pl_uuid : option_initial_current_uuid o = None;
  pl_state : option_consistent o = false /\ option_uptodate o = false /\ option_rotate_uuids o = false
}.

Lemma replicate_peer n p : default zero_peer (zlookup (replicate n zero_peer) p) = zero_peer.
Proof.
  unfold zlookup. destruct (p <? 0); [done|]. destruct (_ !! _) eqn:E; [|done]. by apply lookup_replicate in E as [-> _].
Qed.

(** The meta data before the peers are set. *)
Definition v09_blank `{DrbdHeaders} (o : options) (mp : Z) : md_cpu :=
  zero_md <| max_peers := mp |> <| flags := MDF_AL_CLEAN |> <| node_id := -1 |>
          <| magic := DRBD_MD_MAGIC_09 |> <| al_stripes := option_al_stripes o |>
          <| al_stripe_size_4k := option_al_stripe_size_4k o |>
          <| current_uuid := UUID_JUST_CREATED |>.

Lemma v09_blank_fields `{DrbdHeaders} o mp :
  let md := v09_blank o mp in
  max_peers md = mp /\ magic md = DRBD_MD_MAGIC_09 /\ node_id md = -1 /\ forall p, peer_at md p = zero_peer.
Proof.
  unfold v09_blank, zero_md. cbv zeta. split_and!; [by vm_compute.. |]. intros p. apply replicate_peer.
Qed.

Lemma defaults_fields `{DrbdHeaders} o a b md :
  let md' := md_defaults o (md <| al_nr_extents := a |> <| bm_bytes_per_bit := b |>) in
  max_peers md' = (if max_peers md =? 0 then 1 else max_peers md) /\ magic md' = magic md /\ node_id md' = node_id md /\
  peers md' = peers md.
Proof. destruct md. cbv zeta. unfold md_defaults. split_and!; reflexivity. Qed.

Lemma ring_ok_laid md md' :
  al_stripes md' = al_stripes md -> al_stripe_size_4k md' = al_stripe_size_4k md -> ring_ok md -> ring_ok md'.
Proof. unfold ring_ok, al_blocks. by intros -> ->. Qed.

Lemma initial_md_eq `{DrbdHeaders} o mp :
  u32 mp = mp ->
  initial_md o mp = md_defaults o (no_peers (v09_blank o mp) <| al_nr_extents := 257 |> <| bm_bytes_per_bit := 0 |>).
Proof.
  intros Hu. unfold initial_md, v09_initial. rewrite Hu. unfold v09_blank. reflexivity.
Qed.

Lemma no_peers_blank `{DrbdHeadersOk} o mp :
  1 <= mp <= DRBD_PEERS_MAX - 1 ->
  let md := no_peers (v09_blank o mp) in
  max_peers md = mp /\ magic md = DRBD_MD_MAGIC_09 /\ node_id md = -1 /\ indices_ok mp md.
Proof.
  intros Hmp. pose proof peers_max. destruct (v09_blank_fields o mp) as (B1 & B2 & B3 & B4).
  revert B1 B2 B3 B4. generalize (v09_blank o mp). intros m0 B1 B2 B3 B4.
  assert (Hi0 : indices_ok mp (no_peers m0)).
  { apply indices_ok_fold; [intros p _; cbn; lia|]. intros p _. rewrite B4. cbn. lia. }
  cbv zeta. split_and!; [.. | exact Hi0]; destruct (no_peers_spec m0) as (ps & -> & _); by destruct m0.
Qed.

Section initializing.
Context `{DrbdHeadersOk} (w : world) (mp : Z).
Context (Hfr : fresh w) (Hgr : grants (w_env w)) (Hmp : 1 <= mp <= DRBD_PEERS_MAX - 1) (Hrm : room w mp).
Let opened : world := set_cfg (opened_cfg w) w.
Let md := initial_md (w_opt w) mp.
Let bytes := initial_bitmap w mp.

Lemma initial_md_fields :
  max_peers md = mp /\ magic md = DRBD_MD_MAGIC_09 /\ node_id md = -1 /\ indices_ok mp md.
Proof.
  pose proof peers_max. destruct (no_peers_blank (w_opt w) mp) as (P1 & P2 & P3 & P4); [lia|].
  assert (Hmd := initial_md_eq (w_opt w) mp ltac:(apply u32_id; unfold in_u32; lia)).
  unfold md. rewrite Hmd. clear Hmd. revert P1 P2 P3 P4. generalize (no_peers (v09_blank (w_opt w) mp)). intros m1 P1 P2 P3 P4.
  destruct (defaults_fields (w_opt w) 257 0 m1) as (E1 & E2 & E3 & E4). cbv zeta in E1, E2, E3, E4.
  split; [rewrite E1, P1; by destruct (Z.eqb_spec mp 0); [lia|]|]. split; [congruence|]. split; [congruence|].
  unfold indices_ok, peer_at in *. by rewrite E4.
Qed.

Lemma initial_md_ok : md_magic_ok DRBD_V09 md = true /\ md_peers_ok md = true.
Proof.
  destruct initial_md_fields as (Hm & Hg & Hn & Hb). pose proof peers_max.
  split; [unfold md_magic_ok; rewrite Hg; apply Z.eqb_refl|].
  apply md_peers_ok_spec. rewrite Hm, Hn. split; [done|]. split; [lia | done].
Qed.

Lemma initial_al_size : al_size_ok md.
Proof. destruct Hrm as [_ (Hs & Hz & Hmax) _ _ _]. fold md in Hs, Hz, Hmax. unfold al_size_ok, al_blocks in *. nia. Qed.

(** The layout is computed, and it is the internal one. *)
Let laid (w1 : world) : world := set_cfg (flex_int_cfg (w_cfg w1) md bytes) w1.

Lemma initial_layout w1 (md0 : md_cpu) :
  same_setup opened w1 ->
  let w2 := set_cfg (w_cfg w1 <| cfg_md := v09_initial (w_opt w) mp <| al_nr_extents := 257 |> <| bm_bytes_per_bit := 0 |> |>) w1 in
  re_initialize_md_offsets w2 = (Ok (), laid w1) /\ flex_int_layout (w_cfg (laid w1)).
Proof.
  intros (Hc & Ho & He) w2. destruct (opened_place w Hfr) as (E1 & E2 & E3 & E4 & E5 & E6 & _). fold opened in E1, E2, E3, E4, E5, E6.
  pose proof Hgr as [_ _ _ _ _ Hs]. unfold SO_MUCH in Hs. pose proof Hrm as [[k Hk] _ Hl Hf _]. fold md in Hk, Hf. fold bytes in Hl, Hf.
  destruct initial_md_fields as (Hm & _). 
  assert (Ho2 : md_defaults (w_opt w2) (cfg_md (w_cfg w2)) = md).
  { unfold w2. rewrite w_opt_set, w_cfg_set, Ho, E4. reflexivity. }
  assert (Hbd : cfg_bd_size (w_cfg w2) = dev_size (w_env w)).
  { unfold w2. rewrite w_cfg_set. rewrite <- E2, <- Hc. reflexivity. }
  assert (Hidx : md_index (w_cfg w2) = DRBD_MD_INDEX_FLEX_INT).
  { unfold w2. rewrite w_cfg_set. rewrite <- E6, <- Hc. reflexivity. }
  assert (Hoff : md_offset (w_cfg w1) = v07_style_md_get_byte_offset DRBD_MD_INDEX_FLEX_INT (cfg_bd_size (w_cfg w1))).
  { rewrite Hc, E2. exact E1. }
  assert (Hbd1 : cfg_bd_size (w_cfg w1) = dev_size (w_env w)) by (by rewrite Hc).
  assert (Hb : bm_bytes_of md (cfg_bd_size (w_cfg w1) / 512) = bytes) by (by rewrite Hbd1).
  split.
  - rewrite (re_init_flex_int_run w2 k); rewrite ?Ho2, ?Hbd; [|done | done | by rewrite Hm | apply initial_al_size | lia].
    replace (bm_bytes_of md (dev_size (w_env w) / 512)) with bytes by reflexivity.
    destruct (Z.ltb_spec (max_peers md * 2 ^ 26) (bytes / 512)); [lia|]. reflexivity.
  - replace (w_cfg (laid w1)) with (flex_int_cfg (w_cfg w1) md (bm_bytes_of md (cfg_bd_size (w_cfg w1) / 512))) by (by rewrite Hb).
    apply (flex_int_cfg_layout _ _ k); rewrite ?Hb; [done | by rewrite Hm | apply initial_al_size | lia | done |].
    rewrite Hoff, Hbd1, flex_int_offset by lia. lia.
Qed.

Lemma initial_bitmap_bounds : 0 <= bytes <= 2 ^ 48 /\ (4096 | bytes).
Proof.
  pose proof Hgr as [_ _ _ _ _ Hs]. unfold SO_MUCH in Hs. destruct Hrm as [[k Hk] _ _ _ _].
  destruct initial_md_fields as (Hm & _). pose proof peers_max. fold md in Hk.
  destruct (bm_bytes_of_covers md (dev_size (w_env w) / 512) k) as (Hd & _ & _ & Hr); [done | | rewrite Hm; lia | done].
  split; [apply Z.div_pos; lia | apply Z.div_le_upper_bound; lia].
Qed.

(** The three parts of the meta data can be written. *)
Lemma laid_areas w1 x :
  same_setup opened w1 -> plain (w_opt w) -> same_setup (laid w1) x ->
  let c := w_cfg (laid w1) in
  rw_area x (cfg_al_offset c) (4096 * al_blocks (cfg_md c)) /\ rw_area x (cfg_bm_offset c) (cfg_bm_bytes c) /\
  rw_area x (md_offset c) 4096.
Proof.
  intros H1 Hpl Hx c. destruct (initial_layout w1 md H1) as [_ [Ls Lb La Lsu (_ & Lbb & _) _ _ [Las Lae]]]. fold c in Ls, Lb, La, Lsu, Lbb, Las, Lae.
  destruct H1 as (Hc & Ho & He). destruct (opened_place w Hfr) as (_ & E2 & E3 & E4 & _). fold opened in E2, E3, E4.
  pose proof Hgr as [_ _ _ _ _ Hs]. unfold SO_MUCH in Hs.
  assert (Hbd : cfg_bd_size c = dev_size (w_env w)) by (rewrite <- E2, <- Hc; reflexivity).
  assert (Hen : w_env (laid w1) = w_env w) by (rewrite <- E3, <- He; reflexivity).
  assert (Hop : dry_run (w_opt (laid w1)) = false) by (transitivity (dry_run (w_opt w1)); [reflexivity|]; rewrite Ho, E4; apply Hpl).
  assert (Hal : 0 <= al_blocks (cfg_md c)).
  { pose proof initial_al_size as Ha. unfold al_size_ok in Ha. replace (al_blocks (cfg_md c)) with (al_blocks md) by reflexivity. lia. }
  assert (Hb0 : 0 <= cfg_bm_bytes c) by apply initial_bitmap_bounds.
  split; [|split]; apply (rw_area_setup (laid w1) x _ _ Hx); apply rw_area_intro; rewrite ?Hen; fold c; rewrite ?Las, ?Lae;
    first [done | lia].
Qed.

Lemma blank_no_data x : blank x -> SO_MUCH <= dev_size (w_env x) ->
  yields check_for_existing_data x (fun _ x' => unchanged x x').
Proof.
  intros Hb Hs. unfold check_for_existing_data.
  eapply yields_bind; [apply blank_read; [done | lia | lia | vm_compute; discriminate]|]. intros [] x1 [Hu Hz].
  assert (Hzero : all_zero (w_buf x1) = true).
  { unfold all_zero. apply forallb_forall. intros i Hi. apply list_elem_of_In, elem_upto in Hi. apply Z.eqb_eq, load_le_zero.
    change (SO_MUCH / 8) with 8704 in Hi. intros j Hj. apply Hz. unfold SO_MUCH. lia. }
  unfold yields. rewrite bind_gets, Hzero. by apply yields_ret.
Qed.

Lemma blank_initialize w1 :
  same_setup opened w1 -> blank w1 -> plain (w_opt w) ->
  yields (md_initialize true mp) w1 (fun err x => err = 0 /\ same_setup (laid w1) x).
Proof.
  intros H1 Hb Hpl. pose proof H1 as (Hc & Ho & He). destruct (opened_place w Hfr) as (E1 & E2 & E3 & E4 & E5 & E6 & E7).
  fold opened in E1, E2, E3, E4, E5, E6, E7. pose proof Hgr as [_ _ _ _ _ Hs].
  destruct (initial_layout w1 md H1) as [Hre Hlay]. pose proof Hpl as [Hdry Hmode _ _].
  unfold yields, md_initialize. rewrite bind_cfg, Hc, E5. unfold v09_md_initialize. rewrite bind_opt, bind_upd_md, Ho, E4.
  unfold md_initialize_common. rewrite bind_upd_md, set_cfg_twice, w_cfg_set.
  match goal with |- context [set_cfg ?c w1] =>
    replace (set_cfg c w1) with (set_cfg (w_cfg w1 <| cfg_md := v09_initial (w_opt w) mp <| al_nr_extents := 257 |> <| bm_bytes_per_bit := 0 |> |>) w1)
      by reflexivity end.
  rewrite (bind_ok _ _ _ _ _ Hre). cbn [negb].
  eapply yields_bind; [apply blank_no_data; [exact Hb | change (w_env (laid w1)) with (w_env w1); rewrite He, E3; lia]|].
  intros _ x1 [Hx1 _]. unfold yields. rewrite bind_printf. set (x2 := out _ x1).
  assert (Hx2 : same_setup (laid w1) x2) by exact Hx1.
  destruct (laid_areas w1 x2 H1 Hpl Hx2) as (Ra & _). pose proof Hx2 as (Hc2 & _).
  destruct (initialize_al_run x2) as (buf & Hal & _).
  { rewrite Hc2. unfold version_ge, format_version. replace (ops (w_cfg (laid w1))) with (ops (w_cfg w1)) by reflexivity. rewrite Hc, E5. reflexivity. }
  { rewrite Hc2. apply (ring_ok_laid md); [reflexivity | reflexivity | exact (rm_ring w mp Hrm)]. }
  { rewrite Hc2. exact Ra. }
  rewrite (bind_ok _ _ _ _ _ Hal). set (x3 := counted _ <| w_dev := _ |>).
  assert (Hx3 : same_setup (laid w1) x3) by exact Hx2. clearbody x3. clear Hal. pose proof Hx3 as (Hc3 & Ho3 & _).
  destruct (laid_areas w1 x3 H1 Hpl Hx3) as (_ & Rb & _).
  assert (Hsz : ALIGN (cfg_bm_bytes (w_cfg x3)) (md_hard_sect_size (w_cfg x3)) = cfg_bm_bytes (w_cfg (laid w1)) /\ 0 <= cfg_bm_bytes (w_cfg (laid w1))).
  { destruct initial_bitmap_bounds as [Hbr [q Hq]]. rewrite Hc3. replace (cfg_bm_bytes (w_cfg (laid w1))) with bytes by reflexivity.
    replace (md_hard_sect_size (w_cfg (laid w1))) with (md_hard_sect_size (w_cfg w1)) by reflexivity.
    rewrite Hc. replace (md_hard_sect_size (w_cfg opened)) with (default 512 (dev_sector_size (w_env w))) by reflexivity.
    destruct Hrm as [_ _ _ _ (j & Hj & ->)]. split; [|lia]. assert (2 ^ j <= 2 ^ 12) by (apply Z.pow_le_mono_r; lia).
    apply ALIGN_id; [lia | lia | lia|]. rewrite Hq. apply Z.divide_mul_r. exists (2 ^ (12 - j)). rewrite <- Z.pow_add_r by lia.
    change 4096 with (2 ^ 12). f_equal. lia. }
  destruct (initialize_bitmap_run x3) as (x4 & Hbm & Hx4 & _).
  { rewrite Ho3. change (w_opt (laid w1)) with (w_opt w1). by rewrite Ho, E4. }
  { rewrite (proj1 Hsz). exact (proj2 Hsz). }
  { by rewrite (proj1 Hsz), Hc3. }
  rewrite (bind_ok _ _ _ _ _ Hbm). apply yields_ret. split; [done|]. by transitivity x3.
Qed.
End initializing.

(** ** The rest of create-md *)

(** What the check of a super block looks at is the same. *)
Definition same_shape (md md' : md_cpu) : Prop :=
  magic md' = magic md /\ max_peers md' = max_peers md /\ node_id md' = node_id md /\
  al_offset md' = al_offset md /\ bm_offset md' = bm_offset md /\ md_size_sect md' = md_size_sect md /\
  al_stripes md' = al_stripes md /\ al_stripe_size_4k md' = al_stripe_size_4k md /\
  bm_bytes_per_bit md' = bm_bytes_per_bit md /\
  forall p, bitmap_index (peer_at md' p) = bitmap_index (peer_at md p).

#[export] Instance same_shape_preorder : PreOrder same_shape.
Proof.
  split; [intros x; unfold same_shape; by split_and!|].
  intros x y z (A1 & A2 & A3 & A4 & A5 & A6 & A7 & A8 & A9 & A10) (B1 & B2 & B3 & B4 & B5 & B6 & B7 & B8 & B9 & B10).
  unfold same_shape. split_and!; [congruence..|]. intros p. by rewrite B10.
Qed.

Lemma is_valid_same_shape `{DrbdHeaders} f md md' idx size w :
  same_shape md md' -> is_valid_md f md' idx size w = is_valid_md f md idx size w.
Proof.
  intros (E1 & E2 & E3 & E4 & E5 & E6 & E7 & E8 & E9 & E10).
  assert (Hal : al_size_sect md' = al_size_sect md) by (unfold al_size_sect; by rewrite E7, E8).
  assert (Hp : md_peers_ok md' = md_peers_ok md).
  { unfold md_peers_ok. rewrite E2, E3. f_equal. induction (upto (max_peers md)) as [|n l IH]; [done|]. cbn. by rewrite E10, IH. }
  assert (Hm : md_magic_ok f md' = md_magic_ok f md) by (unfold md_magic_ok; by rewrite E1).
  unfold is_valid_md, flex_md_size_sect, bm_bytes, bm_bytes_of. by rewrite Hm, Hp, Hal, E2, E4, E5, E6, E9.
Qed.

Lemma same_shape_upd_peer i f md :
  (forall p, bitmap_index (f p) = bitmap_index p) -> same_shape md (upd_peer i f md).
Proof.
  intros Hf. unfold same_shape. split_and!; [reflexivity..|]. intros p.
  destruct (decide (0 <= i < Z.of_nat (length (peers md)))); [|by rewrite peer_at_upd_out].
  rewrite peer_at_upd by done. destruct (Z.eqb_spec p i) as [->|]; [apply Hf | done].
Qed.

Lemma same_shape_fold {A} (f : md_cpu -> A -> md_cpu) l md :
  (forall md x, same_shape md (f md x)) -> same_shape md (fold_left f l md).
Proof.
  intros Hf. revert md. induction l as [|x l IH]; intros md; cbn [fold_left]; [reflexivity|].
  etransitivity; [apply Hf | apply IH].
Qed.

Lemma same_shape_overrides `{DrbdHeaders} b o md : same_shape md (create_overrides b o md).
Proof.
  unfold create_overrides. cbv zeta. unfold diskful_peers.
  assert (H1 : forall m, same_shape m (if negb b || truth (option_peer_max_bio_size o)
    then m <| la_peer_max_bio_size := u32 (option_peer_max_bio_size o) |> else m))
    by (intros m; destruct (negb b || truth (option_peer_max_bio_size o)); unfold same_shape; split_and!; reflexivity).
  assert (H2 : forall m, same_shape m (if negb b || truth (option_effective_size o)
    then m <| effective_size := option_effective_size o |> else m))
    by (intros m; destruct (negb b || truth (option_effective_size o)); unfold same_shape; split_and!; reflexivity).
  etransitivity; [apply H1|]. etransitivity; [apply H2|]. apply same_shape_fold. intros m x.
  destruct (in_peer_mask _ _); [|reflexivity]. by apply same_shape_upd_peer.
Qed.

(** Only meta data fields outside of the shape differ. *)
Definition reshaped (w w' : world) : Prop :=
  exists md', same_shape (cfg_md (w_cfg w)) md' /\ w_cfg w' = w_cfg w <| cfg_md := md' |> /\
    w_opt w' = w_opt w /\ w_env w' = w_env w.

Lemma initial_state_run `{DrbdHeaders} w : plain (w_opt w) ->
  yields create_initial_state w (fun _ w' => reshaped w w').
Proof.
  intros [_ _ Hu (Hc & Ht & Hr)]. unfold create_initial_state, yields.
  rewrite bind_opt, Hu, bind_ret, Hc, Ht, Hr. cbn [orb when]. rewrite !bind_ret.
  unfold when. destruct (option_peers_outdated (w_opt w)).
  - rewrite bind_upd_md. apply yields_ret. exists (every_node (fun p => p <| peer_flags := set_bits (peer_flags p) MDF_PEER_OUTDATED |>) (cfg_md (w_cfg w))).
    split; [|by split_and!]. unfold every_node. apply same_shape_fold. intros m x. by apply same_shape_upd_peer.
  - rewrite bind_ret. apply yields_ret. exists (cfg_md (w_cfg w)). split; [reflexivity|]. split; [by destruct (w_cfg w) | done].
Qed.

Lemma close_run `{DrbdHeaders} w :
  ops (w_cfg w) = DRBD_V09 -> dev_close_ok (w_env w) = true -> yields md_close w (fun rc _ => rc = 0).
Proof.
  intros Ho Hcl. unfold yields, md_close. rewrite bind_cfg, Ho. unfold v08_md_close. rewrite bind_cfg, bind_opt.
  apply (yields_bind _ _ _ (fun _ w' => w_env w' = w_env w)).
  - unfold when. destruct (_ && _); [|by apply yields_ret]. destruct (negb _).
    + by eapply yields_run.
    + unfold yields. rewrite bind_upd_cfg, bind_cfg. unfold lk_bdev_save_file. rewrite bind_env.
      unfold when. destruct (lk_file_writable _); by eapply yields_run.
  - intros [] w' He. unfold generic_md_close, yields. rewrite bind_env, He, Hcl. by apply yields_ret.
Qed.

(** Writing the super block, and the end of the run. *)
Lemma write_run `{DrbdHeadersOk} w :
  ops (w_cfg w) = DRBD_V09 -> dev_close_ok (w_env w) = true ->
  wipe_fixed (w_cfg w) = 0 /\ wipe_flex (w_cfg w) = 0 ->
  (forall x, is_valid_md DRBD_V09 (cfg_md (w_cfg w)) (md_index (w_cfg w)) (cfg_bd_size (w_cfg w)) x = (Ok true, x)) ->
  rw_area w (md_offset (w_cfg w)) 4096 ->
  yields (create_write 0) w (fun err _ => err = 0).
Proof.
  intros Ho Hcl [Hx1 Hx2] Hv Hrw. pose proof Hrw as (Hlo & Hhi & H63 & Hdry & Hallow).
  unfold create_write, yields. rewrite bind_printf. change (truth 0) with false. cbv match.
  set (w1 := out _ w).
  assert (Hw : yields md_cpu_to_disk w1 (fun r w' => r = 0 /\ ops (w_cfg w') = DRBD_V09 /\ w_env w' = w_env w /\
    wipe_fixed (w_cfg w') = 0 /\ wipe_flex (w_cfg w') = 0)).
  { unfold yields, md_cpu_to_disk. rewrite bind_cfg. change (w_cfg w1) with (w_cfg w). rewrite Ho.
    unfold v09_md_cpu_to_disk, write_super_block. rewrite bind_cfg. change (w_cfg w1) with (w_cfg w).
    rewrite (bind_ok _ _ _ _ _ (Hv w1)). cbn [negb]. set (b := md_cpu_to_disk_09 (w_buf w1) (cfg_md (w_cfg w))).
    set (w2 := w1 <| w_buf := b |>).
    assert (Hb : forall B (k : unit -> M B), (upd_buf (fun b => md_cpu_to_disk_09 b (cfg_md (w_cfg w))) ≫= k) w1 = k () w2) by done.
    rewrite Hb. change sizeof_meta_data_on_disk_9 with 4096. rewrite s64_id by lia.
    assert (Hp : pwrite_buffer_or_die 4096 (md_offset (w_cfg w)) w2 =
      (Ok (), counted w2 <| w_dev := copy (w_dev w2) (md_offset (w_cfg w)) b 0 4096 |>)).
    { unfold pwrite_buffer_or_die. rewrite bind_gets. apply pwrite_or_die_ok; [|exact Hdry | exact Hlo | lia | exact Hhi].
      apply (Hallow 4096 (md_offset (w_cfg w))); lia. }
    rewrite (bind_ok _ _ _ _ _ Hp), bind_upd_cfg. apply yields_ret. by split_and!. }
  apply (yields_bind _ _ _ (fun err w' => err = 0 /\ ops (w_cfg w') = DRBD_V09 /\ w_env w' = w_env w /\
    wipe_fixed (w_cfg w') = 0 /\ wipe_flex (w_cfg w') = 0)).
  { eapply yields_bind; [exact Hw|]. intros r w' (-> & Hr). apply yields_ret. by split. }
  intros r w2 (-> & Ho2 & He2 & Hf2 & Hx).
  eapply (yields_bind _ _ _ (fun _ w' => w_cfg w' = w_cfg w2 /\ w_env w' = w_env w2)).
  { unfold wipe_after_convert, yields.
    assert (Hb : forall B (k : unit -> M B), (upd_buf (fun b => memset b 0 0 4096) ≫= k) w2 = k () (w2 <| w_buf := memset (w_buf w2) 0 0 4096 |>)) by done.
    change (0 =? 0) with true. cbv match. rewrite Hb, bind_cfg. change (w_cfg (w2 <| w_buf := memset (w_buf w2) 0 0 4096 |>)) with (w_cfg w2). rewrite Hf2, Hx. cbn [negb Z.eqb when]. by apply yields_ret. }
  intros [] w3 [Hc3 He3]. eapply yields_bind; [apply close_run; [by rewrite Hc3 | by rewrite He3, He2]|].
  intros rc w4 ->. cbv zeta. change (of_bool (truth 0 || truth 0)) with 0. cbn [Z.eqb].
  unfold yields. rewrite bind_printf. by apply yields_ret.
Qed.

(** What may be written depends on the shape of the meta data. *)
Lemma rw_area_intro_same w w' off size :
  (exists md', same_shape (cfg_md (w_cfg w)) md' /\ w_cfg w' = w_cfg w <| cfg_md := md' |>) ->
  w_opt w' = w_opt w -> w_env w' = w_env w -> rw_area w off size -> rw_area w' off size.
Proof.
  intros (md' & (_ & _ & _ & E4 & E5 & E6 & _) & Hc) Ho He (H1 & H2 & H3 & H4 & H5).
  unfold rw_area. rewrite He, Ho. split_and!; try done. intros count offset Hl Hh H0. rewrite <- (H5 count offset Hl Hh H0).
  unfold write_allowed. rewrite Ho.
  assert (Hs : md_area_start (w_cfg w') = md_area_start (w_cfg w)).
  { unfold md_area_start. rewrite Hc. replace (cfg_md (w_cfg w <| cfg_md := md' |>)) with md' by reflexivity. by rewrite E4, E5. }
  assert (Hz : md_size_sect (cfg_md (w_cfg w')) = md_size_sect (cfg_md (w_cfg w))) by (rewrite Hc; exact E6).
  assert (Hwp : is_wipe_offset (w_cfg w') offset = is_wipe_offset (w_cfg w) offset) by (by rewrite Hc).
  unfold md_area_end. by rewrite Hwp, Hs, Hz.
Qed.

Section creating.
Context `{DrbdHeadersOk} (w : world) (mp : Z).
Context (Hfr : fresh w) (Hgr : grants (w_env w)) (Hmp : 1 <= mp <= DRBD_PEERS_MAX - 1) (Hrm : room w mp)
  (Hpl : plain (w_opt w)) (Hb : blank w).
Let opened : world := set_cfg (opened_cfg w) w.
Let md := initial_md (w_opt w) mp.
Let bytes := initial_bitmap w mp.
Let laid (w1 : world) : world := set_cfg (flex_int_cfg (w_cfg w1) md bytes) w1.

Lemma laid_fields w1 :
  ops (w_cfg (laid w1)) = ops (w_cfg w1) /\ wipe_fixed (w_cfg (laid w1)) = wipe_fixed (w_cfg w1) /\
  wipe_flex (w_cfg (laid w1)) = wipe_flex (w_cfg w1).
Proof. unfold laid. rewrite w_cfg_set. clearbody md bytes. unfold flex_int_cfg. by destruct (w_cfg w1). Qed.

(** No meta data of another flavour are found. *)
Lemma blank_flavours x : unchanged opened x -> yields check_internal_md_flavours x (fun _ x' => unchanged opened x').
Proof.
  intros Hu. destruct (opened_place w Hfr) as (E1 & E2 & E3 & E4 & E5 & E6 & E7). fold opened in E1, E2, E3, E4, E5, E6, E7.
  destruct (flex_offset_range w Hgr) as (Hlo & Hhi & Hlt). pose proof Hgr as [_ _ _ _ _ Hs]. unfold SO_MUCH in Hs.
  pose proof Hu as ((Hc & _ & He) & _). unfold check_internal_md_flavours, yields.
  rewrite bind_cfg, bind_ASSERT, Hc, E6, E2, Z.eqb_refl, orb_true_r. cbv zeta. rewrite (s64_id (v07_style_md_get_byte_offset DRBD_MD_INDEX_FLEX_INT _)) by lia.
  eapply yields_bind.
  - apply blank_find_internal; [by apply (blank_unchanged opened) | by rewrite Hc, He, E2, E3 | rewrite He, E3; lia | exact Hlo | by rewrite He, E3].
  - intros r x' [-> Hu']. apply yields_ret. by transitivity x.
Qed.

Lemma laid_valid w1 x : same_setup opened w1 ->
  let c := w_cfg (laid w1) in is_valid_md DRBD_V09 (cfg_md c) (md_index c) (cfg_bd_size c) x = (Ok true, x).
Proof.
  intros (Hc & Ho & He) c. destruct (opened_place w Hfr) as (_ & E2 & _ & _ & _ & E6 & _). fold opened in E2, E6.
  pose proof Hgr as [_ _ _ _ _ Hs]. unfold SO_MUCH in Hs. destruct Hrm as [[k Hk] _ Hl _ _].
  destruct (initial_md_fields w mp Hmp) as (Hm & Hg & Hn & Hi). destruct (initial_md_ok w mp Hmp) as [Hmo Hpo]. fold md in Hm, Hmo, Hpo.
  assert (Hbd : cfg_bd_size c = dev_size (w_env w)) by (rewrite <- E2, <- Hc; reflexivity).
  assert (Hix : md_index c = DRBD_MD_INDEX_FLEX_INT) by (rewrite <- E6, <- Hc; reflexivity).
  assert (Hmd : cfg_md c = flex_int_md md bytes) by reflexivity. rewrite Hbd, Hix, Hmd.
  assert (Hs0 : 0 <= dev_size (w_env w) <= 2 ^ 50) by lia.
  pose proof (initial_al_size w mp Hrm) as Hal. fold md in Hal.
  assert (Hby : bytes = bm_bytes_of md (dev_size (w_env w) / 512)) by reflexivity. fold md in Hk. fold bytes in Hl.
  clear Hbd Hix Hmd. clearbody md bytes. subst bytes. rewrite <- Hm in Hmp, Hl.
  exact (is_valid_flex_int_run DRBD_V09 md (dev_size (w_env w)) k x (or_intror (or_intror eq_refl)) Hmo Hpo Hk Hmp Hal Hs0 Hl).
Qed.

(** New meta data are initialized. *)
Lemma blank_create_or_convert x :
  unchanged opened x ->
  yields (create_or_convert mp) x (fun r x' => r = (false, 0) /\ exists w1, same_setup opened w1 /\ same_setup (laid w1) x').
Proof.
  intros Hu. pose proof Hu as ((Hc & _ & _) & _). destruct (opened_place w Hfr) as (E1 & E2 & E3 & E4 & E5 & E6 & E7).
  fold opened in E1, E2, E3, E4, E5, E6, E7. unfold create_or_convert, yields.
  rewrite bind_cfg, Hc, E6, Z.eqb_refl, orb_true_r. eapply yields_bind; [apply (blank_flavours x Hu)|].
  intros [] x1 Hu1. pose proof Hu1 as (Hs1 & _). pose proof Hs1 as (Hc1 & _). unfold yields.
  rewrite bind_cfg, Hc1, E7, (fr_md w Hfr). cbn [Z.eqb].
  eapply yields_bind; [apply (blank_initialize w mp Hfr Hgr Hmp Hrm x1 Hs1); [by apply (blank_unchanged opened) | exact Hpl]|].
  intros err x2 [-> Hx2]. apply yields_ret. split; [done|]. by exists x1.
Qed.

Lemma created_write w1 x :
  same_setup opened w1 -> same_setup (laid w1) x ->
  yields (upd_md (create_overrides false (w_opt w));; create_initial_state;; create_write 0) x (fun err _ => err = 0).
Proof.
  intros H1 Hx. pose proof Hx as (Hcx & Hox & Hex). pose proof H1 as (Hc1 & Ho1 & He1).
  destruct (opened_place w Hfr) as (E1 & E2 & E3 & E4 & E5 & E6 & E7). fold opened in E1, E2, E3, E4, E5, E6, E7.
  unfold yields. rewrite bind_upd_md, Hcx. set (c := w_cfg (laid w1)). set (m2 := create_overrides false (w_opt w) (cfg_md c)).
  set (x2 := set_cfg (c <| cfg_md := m2 |>) x).
  assert (Hopt : w_opt x2 = w_opt w) by (change (w_opt x2) with (w_opt x); rewrite Hox; change (w_opt (laid w1)) with (w_opt w1); by rewrite Ho1, E4).
  assert (Henv : w_env x2 = w_env w) by (change (w_env x2) with (w_env x); rewrite Hex; change (w_env (laid w1)) with (w_env w1); by rewrite He1, E3).
  eapply yields_bind; [apply initial_state_run; by rewrite Hopt|]. intros [] x3 (m3 & Hsh & Hc3 & Ho3 & He3).
  assert (Hsh3 : same_shape (cfg_md c) m3) by (transitivity m2; [apply same_shape_overrides | exact Hsh]).
  assert (Hcc : w_cfg x3 = c <| cfg_md := m3 |>).
  { rewrite Hc3. unfold x2. rewrite w_cfg_set. clearbody c m2. by destruct c. }
  clear Hc3.
  assert (Hsame : cfg_md (w_cfg x3) = m3 /\ md_index (w_cfg x3) = md_index c /\ cfg_bd_size (w_cfg x3) = cfg_bd_size c /\
    md_offset (w_cfg x3) = md_offset c /\ ops (w_cfg x3) = ops (w_cfg w1) /\
    wipe_fixed (w_cfg x3) = wipe_fixed (w_cfg w1) /\ wipe_flex (w_cfg x3) = wipe_flex (w_cfg w1)).
  { destruct (laid_fields w1) as (L1 & L2 & L3). fold c in L1, L2, L3. rewrite <- L1, <- L2, <- L3, Hcc. clearbody c.
    destruct c. by split_and!. }
  destruct Hsame as (S1 & S2 & S3 & S4 & S5 & S6 & S7).
  apply write_run.
  - by rewrite S5, Hc1, E5.
  - rewrite He3, Henv. apply Hgr.
  - rewrite S6, S7, Hc1. exact (fr_wipe w Hfr).
  - intros y. rewrite S1, S2, S3, (is_valid_same_shape _ (cfg_md c)) by done. apply (laid_valid w1 y H1).
  - rewrite S4. destruct (laid_areas w mp Hfr Hgr Hmp Hrm w1 x H1 Hpl Hx) as (_ & _ & Ra).
    apply (rw_area_intro_same x x3); [exists m3 | by rewrite Ho3, Hopt, <- E4, <- Ho1, Hox | by rewrite He3, Henv, <- E3, <- He1, Hex | exact Ra].
    rewrite Hcx, Hcc. split; [exact Hsh3 | reflexivity].
Qed.
End creating.

(** The number of peers is in range. *)
Lemma create_max_peers_range `{DrbdHeaders} argv w mp w' :
  create_max_peers argv w = (Ok mp, w') -> 1 <= mp <= DRBD_PEERS_MAX - 1.
Proof.
  intros Hr. unfold create_max_peers in Hr. rewrite bind_cfg in Hr. apply bind_inv in Hr as (n & w1 & _ & Hr).
  destruct ((n <? 1) || (DRBD_PEERS_MAX - 1 <? n)) eqn:E; [discriminate|]. injection Hr as <- _. bool_lia.
Qed.

(** C21: create-md for DRBD 9 with internal meta data succeeds: on a blank device
    that the system lets it open, with room for the super block, an activity log
    of the given geometry and a bitmap for the given number of peers, the command
    ends, and ends with result 0, whichever way the bitmap is initialized and
    whether or not the kernel grants BLKZEROOUT. *)
Theorem create_md_succeeds `{DrbdHeadersOk} argv w mp :
  fresh w -> grants (w_env w) -> plain (w_opt w) -> blank w ->
  create_max_peers argv w = (Ok mp, w) -> room w mp ->
  exists w', meta_create_md argv w = (Ok 0, w').
Proof.
  intros Hfr Hgr Hpl Hb Hcm Hrm. pose proof (create_max_peers_range _ _ _ _ Hcm) as Hmp.
  assert (Hy : yields (meta_create_md argv) w (fun err _ => err = 0)).
  { unfold meta_create_md. eapply yields_bind; [exact (yields_run _ _ _ _ (fun r x => r = mp /\ x = w) Hcm (conj eq_refl eq_refl))|].
    intros r x [-> ->]. eapply yields_bind; [apply (blank_open w Hfr Hgr Hb)|]. intros r x [-> Hu]. cbv match.
    unfold yields. rewrite bind_ret. cbv match.
    eapply yields_bind; [apply (blank_create_or_convert w mp Hfr Hgr Hmp Hrm Hpl Hb x Hu)|].
    intros r x1 (-> & w1 & H1 & Hx1). unfold yields. rewrite bind_opt.
    pose proof Hx1 as (_ & -> & _). change (w_opt (set_cfg _ w1)) with (w_opt w1). pose proof H1 as (_ & -> & _).
    exact (created_write w mp Hfr Hgr Hmp Hrm Hpl w1 x1 H1 Hx1). }
  destruct Hy as (a & w' & Hr & ->). by exists w'.
Qed.

(** A blank device of 1 MiB, two peers. *)
Definition blank_example : world :=
  blank_world DRBD_V09 create_md zero_mem (2 ^ 20)
    <| w_cfg := blank_cfg DRBD_V09 <| md_index := DRBD_MD_INDEX_FLEX_INT |> |>.

Lemma create_md_succeeds_witness : exists w', meta_create_md ["2"%string] blank_example = (Ok 0, w').
Proof.
  apply (create_md_succeeds ["2"%string] blank_example 2).
  - split; vm_compute; repeat split.
  - split; vm_compute; repeat split; discriminate.
  - split; vm_compute; repeat split; discriminate.
  - intros i. reflexivity.
  - vm_compute. reflexivity.
  - split.
    + exists 12. vm_compute. repeat split; discriminate.
    + vm_compute. repeat split; discriminate.
    + vm_compute. discriminate.
    + vm_compute. discriminate.
    + exists 9. vm_compute. repeat split; discriminate.
Defined.
