(* ===== verification/Scanner.v ===== *)
(** * The scanner of meta data dumps

    The token rules of drbdmeta_scanner.fl.  Apart from blanks, comments, operators
    and quoted strings, every rule consists of the characters of INVALID_TOKEN: the
    longest match is the run of these characters, 100 at most, and the rules
    above INVALID_TOKEN decide what it is. *)

From S2P Require Import Prelude SharedTool.
From Stdlib Require Import Ascii String.
From stdpp Require Import strings.

#[local] Open Scope Z_scope.

(** ** Tokens *)

Inductive keyword :=
  | TK_GC | TK_BM | TK_UUID | TK_VERSION | TK_MEMBERS | TK_LA_SIZE | TK_BM_BYTE_PER_BIT
  | TK_DEVICE_UUID | TK_TIMES | TK_FLAGS | TK_LA_BIO_SIZE | TK_NODE_ID | TK_BITMAP_INDEX
  | TK_CURRENT_UUID | TK_BITMAP | TK_BITMAP_UUID | TK_BITMAP_DAGTAG | TK_HISTORY_UUIDS
  | TK_PEER | TK_HASH | TK_MAX_PEERS | TK_AL_STRIPES | TK_AL_STRIPE_SIZE_4K.

#[export] Instance keyword_eq_dec : EqDecision keyword.
Proof. solve_decision. Defined.

(** A token with its [yylval]; the end of the file is the end of the list. *)
Inductive token :=
  | T_op (c : ascii)
  | T_string (txt : string)
  | T_u64 (v : Z)
  | T_u32 (v : Z)
  | T_num (v : Z)
  | T_kw (k : keyword)
  | T_invalid.

Definition keywords : list (string * keyword) :=
  [("gc", TK_GC); ("bm", TK_BM); ("uuid", TK_UUID); ("version", TK_VERSION); ("members", TK_MEMBERS);
   ("la-size-sect", TK_LA_SIZE); ("bm-byte-per-bit", TK_BM_BYTE_PER_BIT); ("device-uuid", TK_DEVICE_UUID);
   ("times", TK_TIMES); ("flags", TK_FLAGS); ("al-stripes", TK_AL_STRIPES);
   ("al-stripe-size-4k", TK_AL_STRIPE_SIZE_4K); ("la-peer-max-bio-size", TK_LA_BIO_SIZE);
   ("node-id", TK_NODE_ID); ("current-uuid", TK_CURRENT_UUID); ("bitmap", TK_BITMAP);
   ("bitmap-uuid", TK_BITMAP_UUID); ("bitmap-dagtag", TK_BITMAP_DAGTAG);
   ("history-uuids", TK_HISTORY_UUIDS); ("peer", TK_PEER); ("hash", TK_HASH);
   ("max-peers", TK_MAX_PEERS); ("bitmap-index", TK_BITMAP_INDEX)]%string.

(** ** Character classes *)

Definition is_ws (c : ascii) : bool := let x := code c in (x =? 32) || (x =? 13) || (x =? 9) || (x =? 10).

Definition is_op (c : ascii) : bool :=
  let x := code c in (x =? 123) || (x =? 125) || (x =? 59) || (x =? 91) || (x =? 93).

(** [-_a-zA-Z0-9] *)
Definition is_word (c : ascii) : bool :=
  let x := code c in
  (x =? 45) || (x =? 95) || SharedTool.between 97 122 x || SharedTool.between 65 90 x || SharedTool.between 48 57 x.

Definition is_hex (c : ascii) : bool := match digit_in 16 c with Some _ => true | None => false end.

Definition in_quotes (c : ascii) : bool := let x := code c in negb ((x =? 34) || (x =? 13) || (x =? 10)).

(** At most [n] characters of [s] in the class, and the rest. *)
Fixpoint span (f : ascii -> bool) (n : nat) (s : string) : string * string :=
  match n, s with
  | S n', String c s' => if f c then let '(a, b) := span f n' s' in (String c a, b) else (EmptyString, s)
  | _, _ => (EmptyString, s)
  end.

(** ** The rules *)

Definition is_0x (digits : nat) (w : string) : bool :=
  match w with
  | String z (String x s) =>
      Ascii.eqb z "0" && Ascii.eqb x "x" && (String.length s =? digits)%nat && all_chars is_hex s
  | _ => false
  end.

(** -?[0-9]{1,19} *)
Definition is_num (w : string) : bool :=
  let digits s := only_digits s && (String.length s <=? 19)%nat in
  match w with
  | String c s => if Ascii.eqb c "-" then digits s else digits w
  | EmptyString => false
  end.

Fixpoint find_keyword (w : string) (l : list (string * keyword)) : option keyword :=
  match l with
  | [] => None
  | (name, k) :: l' => if String.eqb name w then Some k else find_keyword w l'
  end.

Definition classify (w : string) : token :=
  if is_0x 16 w then T_u64 (strto_u64 w 16).1.1
  else if is_0x 8 w then T_u32 (strto_u64 w 16).1.1
  else if is_num w then T_num (strto_u64 w 10).1.1
  else match find_keyword w keywords with Some k => T_kw k | None => T_invalid end.

(** A string token with its quotes. *)
Definition quoted (txt : string) : string := String QUOTE (txt +:+ String QUOTE EmptyString).

(** A token in double quotes, after the first of them. *)
Definition scan_string (s : string) : token * string :=
  match span in_quotes 20 s with
  | (EmptyString, String q rest) => (T_invalid, if Ascii.eqb q QUOTE then rest else s)
  | (EmptyString, EmptyString) => (T_invalid, EmptyString)
  | (txt, String q rest) =>
      if Ascii.eqb q QUOTE then (T_string (unescape (quoted txt)), rest) else (T_invalid, String q rest)
  | (txt, EmptyString) => (T_invalid, EmptyString)
  end.

(** The tokens of [s].  [comment]: within a comment. *)
Fixpoint scan (n : nat) (comment : bool) (s : string) : list token :=
  match n, s with
  | S n', String c s' =>
      if comment then scan n' (negb (code c =? 10)) s'
      else if is_ws c then scan n' false s'
      else if Ascii.eqb c "#" then scan n' true s'
      else if is_op c then T_op c :: scan n' false s'
      else if Ascii.eqb c QUOTE then let '(t, rest) := scan_string s' in t :: scan n' false rest
      else if is_word c then let '(w, rest) := span is_word 100 s in classify w :: scan n' false rest
      else T_invalid :: scan n' false s'
  | _, _ => []
  end.

(** Each step takes a character at least. *)
Definition yylex (s : string) : list token := scan (String.length s) false s.

(** ** Steps of the scanner

    The fuel is irrelevant once it covers the text. *)

Lemma length_span f n s : let '(a, b) := span f n s in (String.length a + String.length b = String.length s)%nat.
Proof.
  revert s. induction n as [|n IH]; intros [|c s]; cbn; try done.
  destruct (f c); [|done]. specialize (IH s). destruct (span f n s). cbn in *. lia.
Qed.

Lemma length_span_first f n c s :
  f c = true -> (1 <= String.length (span f (S n) (String c s)).1)%nat.
Proof. intros Hc. cbn. rewrite Hc. destruct (span f n s). cbn. lia. Qed.

Lemma length_scan_string s : (String.length (scan_string s).2 <= String.length s)%nat.
Proof.
  unfold scan_string. pose proof (length_span in_quotes 20 s) as Hl.
  destruct (span in_quotes 20 s) as [[|a txt] [|q rest]]; cbn in Hl |- *; try lia;
    destruct (Ascii.eqb q QUOTE); cbn; lia.
Qed.

Lemma scan_fuel n m b s :
  (String.length s <= n)%nat -> (String.length s <= m)%nat -> scan n b s = scan m b s.
Proof.
  revert m b s. induction n as [|n IH]; intros m b s Hn Hm.
  { destruct s; cbn in Hn; [by destruct m|lia]. }
  destruct m as [|m]; [by destruct s; [|cbn in Hm; lia]|].
  destruct s as [|c s']; [done|]. cbn [String.length] in Hn, Hm. cbn [scan].
  assert (He : forall b s1, (String.length s1 <= String.length s')%nat -> scan n b s1 = scan m b s1).
  { intros. apply IH; lia. }
  destruct b; [by apply He|].
  destruct (is_ws c); [by apply He|]. destruct (Ascii.eqb c "#"); [by apply He|].
  destruct (is_op c); [f_equal; by apply He|].
  destruct (Ascii.eqb c QUOTE).
  - pose proof (length_scan_string s') as Hl. destruct (scan_string s') as [t rest]. f_equal. by apply He.
  - destruct (is_word c) eqn:Hw; [|f_equal; by apply He].
    pose proof (length_span is_word 100 (String c s')) as Hl.
    pose proof (length_span_first is_word 99 c s' Hw) as Hne.
    destruct (span is_word 100 (String c s')) as [w rest]. cbn in Hl, Hne. f_equal. apply He. lia.
Qed.
