(* ===== verification/Restore.v ===== *)
(** * Restoring meta data from a dump

    [verify-dump] and [restore-md]: the parser of dumps, on the tokens of
    the scanner, the bitmap window in the I/O buffer, and the restored super
    block.  The scanner is restarted at the begin of the bitmap for every window:
    the tokens from there on are parsed again. *)

From S2P Require Import Prelude Machine Headers SharedTool MetaData OnDisk Layout FsDetect GenId.
From S2P Require Import OpenMd InitMd Commands Scanner.
From Stdlib Require Import Ascii String.
From stdpp Require Import strings.

#[local] Open Scope Z_scope.

(** ** The parser *)

Definition P (A : Type) : Type := list token -> M (A * list token).

#[export] Instance P_ret : MRet P := fun A a ts => mret (a, ts).
#[export] Instance P_bind : MBind P := fun A B k p ts => '(a, ts) ← p ts; k a ts.

Definition lift {A} (m : M A) : P A := fun ts => a ← m; mret (a, ts).

(** [md_parse_error] *)
Definition parse_error {A} : P A := fun _ => exit 10.

(** [yylex], [None] at the end of the file. *)
Definition next_token : P (option token) := fun ts =>
  match ts with [] => mret (None, []) | t :: ts' => mret (Some t, ts') end.

(** [EXP(token)], with the [yylval] it leaves for numbers and strings. *)
Definition EXP_op (c : ascii) : P unit :=
  t ← next_token; match t with Some (T_op d) => if Ascii.eqb c d then mret () else parse_error | _ => parse_error end.
Definition EXP_kw (k : keyword) : P unit :=
  t ← next_token; match t with Some (T_kw j) => if decide (k = j) then mret () else parse_error | _ => parse_error end.
Definition EXP_num : P Z := t ← next_token; match t with Some (T_num v) => mret v | _ => parse_error end.
Definition EXP_u64 : P Z := t ← next_token; match t with Some (T_u64 v) => mret v | _ => parse_error end.
Definition EXP_u32 : P Z := t ← next_token; match t with Some (T_u32 v) => mret v | _ => parse_error end.
Definition EXP_string : P string := t ← next_token; match t with Some (T_string s) => mret s | _ => parse_error end.
Definition EXP_eof : P unit := t ← next_token; match t with None => mret () | _ => parse_error end.

Definition semicolon {A} (p : P A) : P A := v ← p; EXP_op ";";; mret v.
Definition num_field (k : keyword) : P Z := EXP_kw k;; semicolon EXP_num.
Definition u64_field (k : keyword) : P Z := EXP_kw k;; semicolon EXP_u64.
Definition u32_field (k : keyword) : P Z := EXP_kw k;; semicolon EXP_u32.

Definition set_md (f : md_cpu -> md_cpu) : P unit := lift (upd_md f).

(** ** The bitmap *)

Definition buffer_words : Z := buffer_size / 4.

(** [i] is an [int], the comparison is one of [size_t]s. *)
Definition assign_32_of_64bit (i value max_peers : Z) : M Z :=
  if buffer_words <=? u64 i then mret i
  else
    when (0 <=? i)
      (upd_buf (fun b => store_le 4 b (4 * i)
        (cpu_to_le32 (u32 (if Z.land (i / max_peers) 1 =? 0 then value else Z.shiftr value 32)))));;
    mret (s32 (i + max_peers)).

Definition assign_64 (i value max_peers : Z) : M Z :=
  i ← assign_32_of_64bit i value max_peers;
  assign_32_of_64bit i value max_peers.

Fixpoint assign_times (times : nat) (i value max_peers : Z) : M Z :=
  match times with
  | O => mret i
  | S n => i ← assign_64 i value max_peers; assign_times n i value max_peers
  end.

(** The entries up to the closing brace; every round takes a token at least. *)
Fixpoint parse_entries (n : nat) (i max_peers : Z) (parse_only : bool) : P Z :=
  match n with
  | O => lift fault
  | S n' =>
      t ← next_token;
      match t with
      | Some (T_u64 value) =>
          EXP_op ";";;
          i ← (if parse_only then mret (s32 (i + max_peers * 2)) else lift (assign_64 i value max_peers));
          parse_entries n' i max_peers parse_only
      | Some (T_num v) =>
          let times := s32 v in
          EXP_kw TK_TIMES;;
          value ← semicolon EXP_u64;
          i ← (if parse_only then mret (s32 (i + u32 (times * max_peers) * 2))
               else if times <? 0 then lift fault
               else lift (assign_times (Z.to_nat times) i value max_peers));
          parse_entries n' i max_peers parse_only
      | Some (T_op c) => if Ascii.eqb c "}" then mret i else parse_error
      | _ => parse_error
      end
  end.

Definition entries (i max_peers : Z) (parse_only : bool) : P Z :=
  fun ts => parse_entries (S (length ts)) i max_peers parse_only ts.

Definition parse_bitmap_window_one_peer `{DrbdHeaders} (window peer_nr : Z) (parse_only : bool) : P Z :=
  c ← lift cfg;
  let i := s32 (u64 (peer_nr - window * buffer_words)) in
  (if version_lt c DRBD_V09 then EXP_kw TK_BM
   else
     EXP_kw TK_BITMAP;; EXP_op "[";;
     v ← EXP_num;
     EXP_op "]";;
     if negb (v =? u64 peer_nr) then parse_error else mret ());;
  EXP_op "{";;
  i ← entries i (max_peers (cfg_md c)) parse_only;
  mret (s32 (i - peer_nr)).

Fixpoint parse_bitmap_peers `{DrbdHeaders} (l : list Z) (window words : Z) (parse_only : bool) : P Z :=
  match l with
  | [] => mret words
  | p :: l' =>
      words ← parse_bitmap_window_one_peer window p parse_only;
      parse_bitmap_peers l' window words parse_only
  end.

Definition parse_bitmap_window `{DrbdHeaders} (window : Z) (parse_only : bool) : P Z :=
  c ← lift cfg;
  if version_lt c DRBD_V09 then parse_bitmap_window_one_peer window 0 parse_only
  else parse_bitmap_peers (upto (max_peers (cfg_md c))) window 0 parse_only.

(** The window goes to the disk; is the bitmap truncated there? *)
Definition write_window (window words bm_max_on_disk_off : Z) (parse_only : bool) : M bool :=
  c ← cfg;
  let s := words * 4 in
  (if buffer_size <? s then fault else mret ());;
  upd_buf (fun b => memset b s 0 (buffer_size - s));;
  let s := ALIGN s (md_hard_sect_size c) in
  let off := u64 (cfg_bm_offset c + window * buffer_size) in
  n ← (if parse_only then
         let n := u64 (bm_max_on_disk_off - off) in mret (if s <? n then s else n)
       else
         b ← gets w_buf;
         pwrite_with_limit_or_die b s (s64 off) bm_max_on_disk_off);
  mret (negb (s =? n)).

(** One round for each window. *)
Fixpoint parse_bitmap_loop `{DrbdHeaders} (n : nat) (window bm_max_on_disk_off : Z) (truncated parse_only : bool)
    (start : list token) : M (unit * list token) :=
  match n with
  | O => fault
  | S n' =>
      '(words, ts) ← parse_bitmap_window window parse_only start;
      truncated ← (if (0 <? words) && negb truncated
                   then write_window window words bm_max_on_disk_off parse_only else mret truncated);
      if words =? buffer_words
      then parse_bitmap_loop n' (window + 1) bm_max_on_disk_off truncated parse_only start
      else mret ((), ts)
  end.

(** Two rounds are enough. *)
Definition parse_bitmap `{DrbdHeaders} (parse_only : bool) : P unit :=
  c ← lift cfg;
  parse_bitmap_loop 2 0 (s64 (cfg_bm_offset c + ALIGN (cfg_bm_bytes c) 4096)) false parse_only.

(** ** The super block *)

(** The elements of an array, each with its semicolon. *)
Fixpoint parse_array (p : P Z) (set : Z -> Z -> md_cpu -> md_cpu) (l : list Z) : P unit :=
  match l with
  | [] => mret ()
  | i :: l' => v ← semicolon p; set_md (set i v);; parse_array p set l'
  end.

Definition parse_gc : P unit :=
  EXP_kw TK_GC;; EXP_op "{";;
  parse_array EXP_num (fun i v => set_gc i (u32 v)) (upto GEN_CNT_SIZE);;
  EXP_op "}".

Definition parse_uuids_08 : P unit :=
  EXP_kw TK_UUID;; EXP_op "{";;
  v ← semicolon EXP_u64; set_md (fun md => md <| current_uuid := v |>);;
  v ← semicolon EXP_u64; set_md (upd_peer 0 (fun p => p <| bitmap_uuid := v |>));;
  parse_array EXP_u64 set_history (upto HISTORY_UUIDS_V08);;
  v ← u32_field TK_FLAGS; set_md (fun md => md <| flags := u32 v |>);;
  EXP_op "}".

(** A slot that was not seen yet; [seen] is the set of those that were. *)
Definition parse_peer `{DrbdHeaders} (seen : list Z) : P (list Z) :=
  EXP_op "[";;
  v ← EXP_num;
  EXP_op "]";;
  let cur_slot := s32 v in
  if (cur_slot <? 0) || (DRBD_NODE_ID_MAX <=? cur_slot) then parse_error
  else if existsb (Z.eqb cur_slot) seen then parse_error
  else
    EXP_op "{";;
    v ← num_field TK_BITMAP_INDEX; set_md (upd_peer cur_slot (fun p => p <| bitmap_index := s32 v |>));;
    v ← u64_field TK_BITMAP_UUID; set_md (upd_peer cur_slot (fun p => p <| bitmap_uuid := v |>));;
    v ← u64_field TK_BITMAP_DAGTAG; set_md (upd_peer cur_slot (fun p => p <| bitmap_dagtag := v |>));;
    v ← u32_field TK_FLAGS; set_md (upd_peer cur_slot (fun p => p <| peer_flags := u32 v |>));;
    EXP_op "}";;
    mret (cur_slot :: seen).

(** [n] slots, the keyword of the first one may have been read already. *)
Fixpoint parse_peers `{DrbdHeaders} (n : nat) (have_peer : bool) (seen : list Z) : P unit :=
  match n with
  | O => mret ()
  | S n' =>
      (if have_peer then mret () else EXP_kw TK_PEER);;
      seen ← parse_peer seen;
      parse_peers n' false seen
  end.

Definition parse_uuids_09 `{DrbdHeaders} : P unit :=
  v ← num_field TK_NODE_ID; set_md (fun md => md <| node_id := s32 v |>);;
  v ← u64_field TK_CURRENT_UUID; set_md (fun md => md <| current_uuid := v |>);;
  v ← u32_field TK_FLAGS; set_md (fun md => md <| flags := u32 v |>);;
  t ← next_token;
  have_peer ← (match t with
               | Some (T_kw TK_MEMBERS) => v ← semicolon EXP_u64; set_md (fun md => md <| members := v |>);; mret false
               | Some (T_kw TK_PEER) => set_md (fun md => md <| members := 0 |>);; mret true
               | _ => set_md (fun md => md <| members := 0 |>);; mret false
               end);
  parse_peers (Z.to_nat DRBD_NODE_ID_MAX) have_peer [];;
  EXP_kw TK_HISTORY_UUIDS;; EXP_op "{";;
  parse_array EXP_u64 set_history (upto HISTORY_UUIDS);;
  EXP_op "}".

(** What follows the UUIDs, for 8 and 9. *)
Definition parse_sizes_08 `{DrbdHeaders} : P unit :=
  v ← num_field TK_BM_BYTE_PER_BIT; set_md (fun md => md <| bm_bytes_per_bit := u32 v |>);;
  (if negb (is_power_of_2 v) || (v <? BM_BLOCK_SIZE_MIN) || (BM_BLOCK_SIZE_MAX <? v)
   then lift (exit 10) else mret ());;
  v ← u64_field TK_DEVICE_UUID; set_md (fun md => md <| device_uuid := v |>);;
  v ← num_field TK_LA_BIO_SIZE; set_md (fun md => md <| la_peer_max_bio_size := u32 v |>);;
  v ← num_field TK_AL_STRIPES; set_md (fun md => md <| al_stripes := u32 v |>);;
  v ← num_field TK_AL_STRIPE_SIZE_4K; set_md (fun md => md <| al_stripe_size_4k := u32 v |>).

(** The striping of the command line wins; the layout is only computed again if
    the striping of the dump is not that of the command line. *)
Definition adjust_striping `{DrbdHeaders} : M unit :=
  o ← opt;
  c ← cfg;
  if negb (option_al_stripes o =? al_stripes (cfg_md c)) ||
     negb (option_al_stripe_size_4k o =? al_stripe_size_4k (cfg_md c)) then
    (if truth (option_al_stripes_used o) then
       upd_md (fun md => md <| al_stripes := option_al_stripes o |>
                            <| al_stripe_size_4k := option_al_stripe_size_4k o |>)
     else mret ());;
    re_initialize_md_offsets
  else mret ().

Definition format_name (f : md_format) : string :=
  match f with
  | DRBD_V06 => "v06" | DRBD_V07 => "v07" | DRBD_V08 => "v08" | DRBD_V09 => "v09" | DRBD_UNKNOWN => "unknown"
  end.

(** The version must be that of the command line; the number of peers follows
    for v09. *)
Definition parse_version `{DrbdHeaders} : P Z :=
  c ← lift cfg;
  EXP_kw TK_VERSION;;
  name ← EXP_string;
  (if String.eqb name (format_name (ops c)) then mret () else lift (exit 10));;
  EXP_op ";";;
  if is_v09 c then v ← num_field TK_MAX_PEERS; mret (s32 v) else mret 1.

Definition parse_super_block `{DrbdHeaders} : P unit :=
  c ← lift cfg;
  (if version_lt c DRBD_V08 then parse_gc else if is_v08 c then parse_uuids_08 else parse_uuids_09);;
  v ← num_field TK_LA_SIZE; set_md (fun md => md <| effective_size := v |>);;
  if version_ge c DRBD_V08 then parse_sizes_08
  else set_md (fun md => md <| bm_bytes_per_bit := BM_BLOCK_SIZE_4k |>).

(** ** restore-md and verify-dump *)

(** May valid meta data be overwritten?  With the number of peers they have. *)
Definition restore_open `{DrbdHeaders} : M (option Z) :=
  found ← md_open;
  match found with
  | NO_VALID_MD_FOUND => c ← cfg; ASSERT (negb (is_v06 c));; mret (Some (-1))
  | _ =>
      c ← cfg;
      yes ← confirmed;
      mret (if (yes : bool) then Some (s32 (max_peers (cfg_md c))) else None)
  end.

Definition restore_checks `{DrbdHeaders} (old_max_peers new_max_peers : Z) : M unit :=
  c ← cfg;
  (if (old_max_peers <? new_max_peers) && negb (md_index c =? DRBD_MD_INDEX_FLEX_INT) then
     printf ("Meta data needs more space now, since max_peers" +:+ nl +:+
             "is bigger than in existing meta_data. (" +:+ show_int old_max_peers
             (" -> " +:+ show_int new_max_peers (")" +:+ nl)))
   else mret ());;
  check_for_existing_data.

Definition restore_dump `{DrbdHeaders} (old_max_peers : Z) (parse_only : bool) : P unit :=
  new_max_peers ← parse_version;
  lift (md_initialize false new_max_peers);;
  (if parse_only then mret () else lift (restore_checks old_max_peers new_max_peers));;
  parse_super_block;;
  lift adjust_striping;;
  lift clip_effective_size_and_bm_bytes;;
  parse_bitmap parse_only;;
  EXP_eof.

(** [dump] is the text of the dump, or [None] if the file could not be opened. *)
Definition verify_dumpfile_or_restore `{DrbdHeaders} (dump : option string) (parse_only : bool) : M Z :=
  match dump with
  | None => exit 20
  | Some text =>
      old_max_peers ← (if parse_only then mret (Some (-1)) else restore_open);
      match old_max_peers with
      | None => mret (-1)
      | Some old_max_peers =>
          restore_dump old_max_peers parse_only (yylex text);;
          if parse_only then printf ("input file parsed ok" +:+ nl);; mret 0
          else
            err ← write_and_close;
            if truth err then mret (-1)
            else printf ("Successfully restored meta data" +:+ nl);; mret 0
      end
  end.

Definition meta_restore_md `{DrbdHeaders} (dump : option string) : M Z := verify_dumpfile_or_restore dump false.
Definition meta_verify_dump_file `{DrbdHeaders} (dump : option string) : M Z := verify_dumpfile_or_restore dump true.

(** ** What a parser does to the world *)

(** Whatever the tokens, the worlds before and after are related by [R]. *)
Definition keepsP {A} (R : world -> world -> Prop) (p : P A) : Prop := forall ts, keeps R (p ts).

Section keepsP.
Context {R : world -> world -> Prop} `{!PreOrder R}.

Lemma keepsP_ret {A} (a : A) : keepsP R (mret a : P A).
Proof. intros ts. apply keeps_ret. typeclasses eauto. Qed.

Lemma keepsP_bind {A B} (p : P A) (k : A -> P B) : keepsP R p -> (forall a, keepsP R (k a)) -> keepsP R (p ≫= k).
Proof.
  intros Hp Hk ts. unfold mbind, P_bind. apply keeps_bind; [typeclasses eauto | apply Hp|].
  intros [a ts']. apply Hk.
Qed.

Lemma keepsP_lift {A} (m : M A) : keeps R m -> keepsP R (lift m).
Proof. intros Hm ts. unfold lift. keeps. Qed.
End keepsP.
