(* ===== verification/Windows.v ===== *)
(** The windows in which a dump's bitmap is read back ([parse_bitmap] of
    src/user/shared/drbdmeta.c): the parser's effect on the world, the round of
    the second window, and the two theorems on the whole.  A later window never
    is full, so that the loop ends after two rounds; what is beyond the first 32
    MiB of the bitmap is dropped by the loop. *)

From S2P Require Import Prelude Machine Headers SharedTool MetaData OnDisk Layout FsDetect GenId.
From S2P Require Import OpenMd SuperBlock ApplyAl InitMd Commands Create Created Scanner Restore.
From Stdlib Require Import Ascii String.
#[local] Open Scope Z_scope.

(** ** The windows of the bitmap *)

(** Results of a parser that leave the world alone. *)
Definition P_ok {A} (p : P A) (ts : list token) (w : world) (a : A) (ts' : list token) (w' : world) : Prop :=
  p ts w = (Ok (a, ts'), w').

Lemma P_bind_inv {A B} (p : P A) (k : A -> P B) ts w b ts' w' :
  (p ≫= k) ts w = (Ok (b, ts'), w') ->
  exists a ts1 w1, p ts w = (Ok (a, ts1), w1) /\ k a ts1 w1 = (Ok (b, ts'), w').
Proof.
  intros Hr. unfold mbind, P_bind in Hr. apply bind_inv in Hr as ([a ts1] & w1 & Hp & Hr). eauto 6.
Qed.

Lemma P_bind_ok {A B} (p : P A) (k : A -> P B) ts w a ts1 w1 :
  p ts w = (Ok (a, ts1), w1) -> (p ≫= k) ts w = k a ts1 w1.
Proof. intros Hp. unfold mbind at 1, P_bind. by rewrite (bind_ok _ _ _ _ _ Hp). Qed.

(** A parser that depends on the tokens only. *)
Definition pure_parser {A} (p : P A) : Prop := forall ts, exists r, forall w, p ts w = (r, w).

Lemma pure_ret {A} (a : A) : pure_parser (mret a).
Proof. intros ts. by eexists. Qed.

Lemma pure_error {A} : pure_parser (@parse_error A).
Proof. intros ts. by eexists. Qed.

Lemma pure_fault {A} : pure_parser (lift (fault : M A)).
Proof. intros ts. by eexists. Qed.

Lemma pure_token : pure_parser next_token.
Proof. intros ts. destruct ts; by eexists. Qed.

Lemma pure_bind {A B} (p : P A) (k : A -> P B) : pure_parser p -> (forall a, pure_parser (k a)) -> pure_parser (p ≫= k).
Proof.
  intros Hp Hk ts. destruct (Hp ts) as [r Hr]. destruct r as [[a ts1]|c| |].
  - destruct (Hk a ts1) as [r Hr2]. exists r. intros w. by rewrite (P_bind_ok _ _ _ _ _ _ _ (Hr w)).
  - exists (Exit c). intros w. unfold mbind, P_bind, mbind, M_bind. by rewrite Hr.
  - exists Abort. intros w. unfold mbind, P_bind, mbind, M_bind. by rewrite Hr.
  - exists Fault. intros w. unfold mbind, P_bind, mbind, M_bind. by rewrite Hr.
Qed.

Ltac pure_parser :=
  repeat lazymatch goal with
    | |- pure_parser (mbind _ _) => apply pure_bind; [|intros ?]
    | |- pure_parser (mret _) => apply pure_ret
    | |- pure_parser parse_error => apply pure_error
    | |- pure_parser (lift fault) => apply pure_fault
    | |- pure_parser next_token => apply pure_token
    | |- pure_parser (if ?b then _ else _) => destruct b
    | |- pure_parser (match ?x with _ => _ end) => destruct x
    end.

Lemma pure_op c : pure_parser (EXP_op c).
Proof. unfold EXP_op. pure_parser. Qed.

Lemma pure_kw k : pure_parser (EXP_kw k).
Proof. unfold EXP_kw. pure_parser. Qed.

Lemma pure_num : pure_parser EXP_num.
Proof. unfold EXP_num. pure_parser. Qed.

Lemma pure_semicolon_u64 : pure_parser (semicolon EXP_u64).
Proof. unfold semicolon, EXP_u64. pure_parser. apply pure_op. Qed.

Lemma s32_mod x y : (x - y) mod 2 ^ 32 = 0 -> s32 x = s32 y.
Proof.
  intros Hm. unfold s32. f_equal. replace (x + 2 ^ 31) with ((x - y) + (y + 2 ^ 31)) by lia.
  rewrite Z.add_mod, Hm, Z.add_0_l, Z.mod_mod by lia. done.
Qed.

Lemma s32_diff x : exists q, s32 x = x + q * 2 ^ 32.
Proof.
  exists (- ((x + 2 ^ 31) / 2 ^ 32)). unfold s32. pose proof (Z.div_mod (x + 2 ^ 31) (2 ^ 32)). lia.
Qed.

Lemma s32_shift r i j c : s32 (r + (s32 (j + c) - s32 (i + c))) = s32 (r + (j - i)).
Proof.
  destruct (s32_diff (j + c)) as [q1 ->], (s32_diff (i + c)) as [q2 ->]. apply s32_mod.
  replace (_ - _) with ((q1 - q2) * 2 ^ 32) by lia. apply Z.mod_mul. lia.
Qed.

(** Without assignments, the result depends on the start by a shift only. *)
Lemma entries_shift n mp : forall i j ts w r ts' w',
  in_s32 i -> in_s32 j -> parse_entries n i mp true ts w = (Ok (r, ts'), w') ->
  w' = w /\ in_s32 r /\ forall w2, parse_entries n j mp true ts w2 = (Ok (s32 (r + (j - i)), ts'), w2).
Proof.
  induction n as [|n IH]; intros i j ts w r ts' w' Hi Hj Hr; [done|]. cbn [parse_entries] in Hr |- *.
  apply P_bind_inv in Hr as (t & ts1 & w1 & Ht & Hr).
  destruct (pure_token ts) as [r0 Hp]. rewrite Hp in Ht. assert (r0 = Ok (t, ts1)) as -> by congruence.
  assert (w1 = w) as -> by congruence. clear Ht.
  destruct t as [[c|s|v|v|v|k|]|]; try done.
  - (* the closing brace *)
    destruct (Ascii.eqb c "}") eqn:Ec; [|done]. injection Hr as <- <- <-. split; [done|]. split; [done|].
    intros w2. rewrite (P_bind_ok _ _ _ _ _ _ _ (Hp w2)), Ec.
    replace (i + (j - i)) with j by lia. by rewrite s32_id.
  - (* a word *)
    apply P_bind_inv in Hr as (u & ts2 & w2 & Hk & Hr). destruct (pure_op ";" ts1) as [r1 Hpk].
    rewrite Hpk in Hk. assert (r1 = Ok (u, ts2)) as -> by congruence. assert (w2 = w) as -> by congruence. clear Hk.
    rewrite (P_bind_ok _ _ ts2 w (s32 (i + mp * 2)) ts2 w) in Hr by done.
    apply (IH _ (s32 (j + mp * 2))) in Hr as (-> & Hrr & Hr); [|apply s32_range..]. split; [done|]. split; [done|].
    intros w2. rewrite (P_bind_ok _ _ _ _ _ _ _ (Hp w2)), (P_bind_ok _ _ _ _ _ _ _ (Hpk w2)),
      (P_bind_ok _ _ ts2 w2 (s32 (j + mp * 2)) ts2 w2) by done.
    by rewrite Hr, s32_shift.
  - (* a run *)
    apply P_bind_inv in Hr as (u & ts2 & w2 & Hk & Hr). destruct (pure_kw TK_TIMES ts1) as [r1 Hpk].
    rewrite Hpk in Hk. assert (r1 = Ok (u, ts2)) as -> by congruence. assert (w2 = w) as -> by congruence. clear Hk.
    apply P_bind_inv in Hr as (value & ts3 & w3 & Hk & Hr). destruct (pure_semicolon_u64 ts2) as [r2 Hpv].
    rewrite Hpv in Hk. assert (r2 = Ok (value, ts3)) as -> by congruence. assert (w3 = w) as -> by congruence. clear Hk.
    rewrite (P_bind_ok _ _ ts3 w (s32 (i + u32 (s32 v * mp) * 2)) ts3 w) in Hr by done.
    set (c := u32 (s32 v * mp) * 2) in *.
    apply (IH _ (s32 (j + c))) in Hr as (-> & Hrr & Hr); [|apply s32_range..]. split; [done|]. split; [done|].
    intros w2. rewrite (P_bind_ok _ _ _ _ _ _ _ (Hp w2)), (P_bind_ok _ _ _ _ _ _ _ (Hpk w2)),
      (P_bind_ok _ _ _ _ _ _ _ (Hpv w2)), (P_bind_ok _ _ ts3 w2 (s32 (j + c)) ts3 w2) by done.
    by rewrite Hr, s32_shift.
Qed.

Lemma u64_diff x : exists q, u64 x = x + q * 2 ^ 32.
Proof.
  exists (- (x / 2 ^ 64) * 2 ^ 32). unfold u64. pose proof (Z.div_mod x (2 ^ 64)). lia.
Qed.

Lemma words_shift r p a :
  s32 (s32 (r + (s32 (u64 (a - buffer_words)) - s32 (u64 a))) - p) = s32 (s32 (r - p) - buffer_words).
Proof.
  destruct (u64_diff (a - buffer_words)) as [q1 ->], (u64_diff a) as [q2 ->].
  destruct (s32_diff (a - buffer_words + q1 * 2 ^ 32)) as [q3 ->], (s32_diff (a + q2 * 2 ^ 32)) as [q4 ->].
  match goal with |- s32 (s32 ?x - p) = _ => destruct (s32_diff x) as [q5 ->] end.
  destruct (s32_diff (r - p)) as [q6 ->]. apply s32_mod.
  replace (_ - _) with ((q1 + q3 - q2 - q4 + q5 - q6) * 2 ^ 32) by lia. apply Z.mod_mul. lia.
Qed.

Section windows.
Context `{DrbdHeaders}.

(** What precedes the entries of a peer. *)
Definition bitmap_head (c : format) (p : Z) : P unit :=
  (if version_lt c DRBD_V09 then EXP_kw TK_BM
   else
     EXP_kw TK_BITMAP;; EXP_op "[";;
     v ← EXP_num;
     EXP_op "]";;
     if negb (v =? u64 p) then parse_error else mret ());;
  EXP_op "{".

Lemma pure_bitmap_head c p : pure_parser (bitmap_head c p).
Proof. unfold bitmap_head. pure_parser; apply pure_kw || apply pure_op || apply pure_num. Qed.

Lemma P_bind_assoc {A B C} (p : P A) (f : A -> P B) (k : B -> P C) ts w :
  ((p ≫= f) ≫= k) ts w = (p ≫= fun x => f x ≫= k) ts w.
Proof.
  unfold mbind at 1 2 3 4, P_bind. unfold mbind, M_bind. by destruct (p ts w) as [[[a ts1]|c| |] w1].
Qed.

Lemma one_peer_unfold window p parse_only ts w :
  parse_bitmap_window_one_peer window p parse_only ts w =
  (bitmap_head (w_cfg w) p ≫= fun _ =>
     entries (s32 (u64 (p - window * buffer_words))) (max_peers (cfg_md (w_cfg w))) parse_only ≫= fun i =>
     mret (s32 (i - p))) ts w.
Proof.
  unfold parse_bitmap_window_one_peer. rewrite (P_bind_ok _ _ ts w (w_cfg w) ts w) by done.
  cbv zeta. unfold bitmap_head. by rewrite P_bind_assoc.
Qed.

Lemma one_peer_shift window p ts w words ts' w' :
  parse_bitmap_window_one_peer window p true ts w = (Ok (words, ts'), w') ->
  w' = w /\ in_s32 words /\ forall w2, w_cfg w2 = w_cfg w ->
    parse_bitmap_window_one_peer (window + 1) p true ts w2 = (Ok (s32 (words - buffer_words), ts'), w2).
Proof.
  rewrite one_peer_unfold. intros Hr. apply P_bind_inv in Hr as (u & ts1 & w1 & Hh & Hr).
  destruct (pure_bitmap_head (w_cfg w) p ts) as [r0 Hp]. rewrite Hp in Hh.
  assert (r0 = Ok (u, ts1)) as -> by congruence. assert (w1 = w) as -> by congruence. clear Hh.
  apply P_bind_inv in Hr as (r & ts2 & w2 & He & Hr). injection Hr as <- <- <-.
  unfold entries in He.
  apply (entries_shift _ _ _ (s32 (u64 (p - (window + 1) * buffer_words)))) in He as (-> & Hrr & He); [|apply s32_range..].
  split; [done|]. split; [apply s32_range|]. intros w2 Hc. rewrite one_peer_unfold, Hc.
  rewrite (P_bind_ok _ _ _ _ _ _ _ (Hp w2)).
  rewrite (P_bind_ok (entries _ _ _) _ ts1 w2 _ ts2 w2 (He w2)).
  replace (p - (window + 1) * buffer_words) with (p - window * buffer_words - buffer_words) by lia.
  by rewrite <- (words_shift r p (p - window * buffer_words)).
Qed.

(** With assignments, nothing is assigned in the second window. *)
Lemma entries_stuck n mp : forall i ts w r ts' w',
  - 2 ^ 31 <= i < 0 -> parse_entries n i mp false ts w = (Ok (r, ts'), w') -> w' = w /\ r = i.
Proof.
  assert (Hst : forall i v w, - 2 ^ 31 <= i < 0 -> assign_64 i v mp w = (Ok i, w)).
  { intros i v w Hi. assert (Hu : (buffer_words <=? u64 i) = true).
    { assert (u64 i = i + 2 ^ 64) as -> by (unfold u64; symmetry; apply Z.mod_unique with (-1); lia).
      change buffer_words with (2 ^ 23). lia. }
    unfold assign_64, assign_32_of_64bit. rewrite Hu, bind_ret, Hu. done. }
  assert (Hts : forall k i v w, - 2 ^ 31 <= i < 0 -> assign_times k i v mp w = (Ok i, w)).
  { induction k as [|k IHk]; intros i v w Hi; [done|]. cbn [assign_times].
    rewrite (bind_ok _ _ _ _ _ (Hst i v w Hi)). by apply IHk. }
  induction n as [|n IH]; intros i ts w r ts' w' Hi Hr; [done|]. cbn [parse_entries] in Hr.
  apply P_bind_inv in Hr as (t & ts1 & w1 & Ht & Hr).
  destruct (pure_token ts) as [r0 Hp]. rewrite Hp in Ht. assert (w1 = w) as -> by congruence. clear Ht Hp.
  destruct t as [[c|s|v|v|v|k|]|]; try done.
  - destruct (Ascii.eqb c "}"); [|done]. by injection Hr as <- <- <-.
  - apply P_bind_inv in Hr as (u & ts2 & w2 & Hk & Hr). destruct (pure_op ";" ts1) as [r1 Hpk].
    rewrite Hpk in Hk. assert (w2 = w) as -> by congruence. clear Hk Hpk.
    rewrite (P_bind_ok _ _ ts2 w i ts2 w) in Hr by (unfold lift; by rewrite (bind_ok _ _ _ _ _ (Hst i v w Hi))).
    by apply IH in Hr.
  - apply P_bind_inv in Hr as (u & ts2 & w2 & Hk & Hr). destruct (pure_kw TK_TIMES ts1) as [r1 Hpk].
    rewrite Hpk in Hk. assert (w2 = w) as -> by congruence. clear Hk Hpk.
    apply P_bind_inv in Hr as (value & ts3 & w3 & Hk & Hr). destruct (pure_semicolon_u64 ts2) as [r2 Hpv].
    rewrite Hpv in Hk. assert (w3 = w) as -> by congruence. clear Hk Hpv.
    destruct (s32 v <? 0); [done|].
    rewrite (P_bind_ok _ _ ts3 w i ts3 w) in Hr by (unfold lift; by rewrite (bind_ok _ _ _ _ _ (Hts _ i value w Hi))).
    by apply IH in Hr.
Qed.

Lemma one_peer_stuck p ts w words ts' w' :
  0 <= p < buffer_words -> parse_bitmap_window_one_peer 1 p false ts w = (Ok (words, ts'), w') ->
  w' = w /\ words = - buffer_words.
Proof.
  intros Hp. rewrite one_peer_unfold. intros Hr. apply P_bind_inv in Hr as (u & ts1 & w1 & Hh & Hr).
  destruct (pure_bitmap_head (w_cfg w) p ts) as [r0 Hph]. rewrite Hph in Hh. assert (w1 = w) as -> by congruence. clear Hh.
  apply P_bind_inv in Hr as (r & ts2 & w2 & He & Hr). injection Hr as <- <- <-. unfold entries in He.
  change buffer_words with (2 ^ 23) in *.
  assert (Hi : s32 (u64 (p - 1 * 2 ^ 23)) = p - 2 ^ 23).
  { rewrite <- s32_u32, u32_u64, s32_u32, s32_id by (unfold in_s32; lia). lia. }
  rewrite Hi in He. apply entries_stuck in He as [-> ->]; [|lia]. split; [done|].
  rewrite s32_id by (unfold in_s32; lia). lia.
Qed.

Lemma peers_shift l window : forall words0 ts w words ts' w',
  parse_bitmap_peers l window words0 true ts w = (Ok (words, ts'), w') ->
  w' = w /\ (in_s32 words0 -> in_s32 words) /\ (l = [] -> words = words0) /\
  (l <> [] -> forall words0' w2, w_cfg w2 = w_cfg w ->
     parse_bitmap_peers l (window + 1) words0' true ts w2 = (Ok (s32 (words - buffer_words), ts'), w2)).
Proof.
  induction l as [|p l IH]; intros words0 ts w words ts' w' Hr; cbn [parse_bitmap_peers] in *.
  { injection Hr as <- <- <-. by split_and!. }
  apply P_bind_inv in Hr as (words1 & ts1 & w1 & H1 & Hr). apply one_peer_shift in H1 as (-> & Hs1 & H1).
  destruct l as [|q l].
  - injection Hr as <- <- <-. split_and!; try done. intros _ words0' w2 Hc. by rewrite (P_bind_ok _ _ _ _ _ _ _ (H1 w2 Hc)).
  - apply IH in Hr as (-> & Hs & _ & Hr). split; [done|]. split; [auto|]. split; [done|]. intros _ words0' w2 Hc.
    rewrite (P_bind_ok _ _ _ _ _ _ _ (H1 w2 Hc)). by apply Hr.
Qed.

Lemma peers_stuck l : forall words0 ts w words ts' w',
  (forall p, p ∈ l -> 0 <= p < buffer_words) -> parse_bitmap_peers l 1 words0 false ts w = (Ok (words, ts'), w') ->
  w' = w /\ (words = words0 \/ words = - buffer_words).
Proof.
  induction l as [|p l IH]; intros words0 ts w words ts' w' Hl Hr; cbn [parse_bitmap_peers] in Hr.
  { injection Hr as <- <- <-. auto. }
  apply P_bind_inv in Hr as (words1 & ts1 & w1 & H1 & Hr).
  apply one_peer_stuck in H1 as [-> ->]; [|apply Hl, elem_of_cons; by left].
  apply IH in Hr as [-> Hw]; [|intros q Hq; apply Hl, elem_of_cons; by right]. split; [done|]. right. tauto.
Qed.

Lemma s32_buffer_words : s32 (buffer_words - buffer_words) = 0.
Proof. reflexivity. Qed.

(** A full first window is never followed by another full one. *)
Lemma second_window_not_full parse_only ts w ts1 w1 w2 words ts2 w3 :
  0 <= max_peers (cfg_md (w_cfg w)) <= buffer_words -> w_cfg w2 = w_cfg w1 ->
  parse_bitmap_window 0 parse_only ts w = (Ok (buffer_words, ts1), w1) -> w_cfg w1 = w_cfg w ->
  parse_bitmap_window 1 parse_only ts w2 = (Ok (words, ts2), w3) ->
  words <= 0 /\ (parse_only = false -> w3 = w2).
Proof.
  intros Hmp Hc2 H0 Hc1 H1. unfold parse_bitmap_window in H0, H1.
  rewrite (P_bind_ok _ _ ts w (w_cfg w) ts w) in H0 by done.
  rewrite (P_bind_ok _ _ ts w2 (w_cfg w2) ts w2), Hc2, Hc1 in H1 by done.
  assert (Hr : forall p, p ∈ upto (max_peers (cfg_md (w_cfg w))) -> 0 <= p < buffer_words).
  { intros p Hp. apply elem_upto in Hp. lia. }
  assert (Hbw : 0 < buffer_words) by done.
  destruct (version_lt (w_cfg w) DRBD_V09).
  - destruct parse_only.
    + apply one_peer_shift in H0 as (_ & _ & H0). change (0 + 1) with 1 in H0. rewrite (H0 w2) in H1 by congruence. injection H1 as <- <- <-.
      rewrite s32_buffer_words. by split.
    + apply one_peer_stuck in H1 as [-> ->]; [|lia]. split; [lia | done].
  - destruct parse_only.
    + destruct (decide (upto (max_peers (cfg_md (w_cfg w))) = [])) as [Hn|Hn].
      * rewrite Hn in H1. cbn [parse_bitmap_peers] in H1. injection H1 as <- <- <-. by split.
      * apply peers_shift in H0 as (_ & _ & _ & H0). change (0 + 1) with 1 in H0. rewrite (H0 Hn 0 w2) in H1 by congruence. injection H1 as <- <- <-.
        rewrite s32_buffer_words. by split.
    + apply peers_stuck in H1 as [-> H1]; [|done]. split; [lia | done].
Qed.
End windows.

Lemma bind_ext {A B} (m : M A) (k1 k2 : A -> M B) w :
  (forall a w1, m w = (Ok a, w1) -> k1 a w1 = k2 a w1) -> (m ≫= k1) w = (m ≫= k2) w.
Proof. intros Hk. unfold mbind, M_bind. destruct (m w) as [[a|c| |] w1]; try done. by apply Hk. Qed.

Lemma setup_write_window window words lim parse_only : keeps same_setup (write_window window words lim parse_only).
Proof. unfold write_window, pwrite_with_limit_or_die. keeps; auto with setup. Qed.

(** Parsers that keep a relation. *)
Lemma keepsP_pure {A} {R : world -> world -> Prop} `{!PreOrder R} (p : P A) : pure_parser p -> keepsP R p.
Proof. intros Hp ts w. destruct (Hp ts) as [r Hr]. rewrite Hr. cbn. reflexivity. Qed.

(** Configuration, options, environment and the content of the device. *)
Definition parsing (w w' : world) : Prop := same_setup w w' /\ w_dev w' = w_dev w.

#[export] Instance parsing_preorder : PreOrder parsing.
Proof.
  split; [by intros w; split|]. intros w1 w2 w3 [H1 H2] [H3 H4]. split; [by etransitivity | congruence].
Qed.

Section parsing.
Context `{DrbdHeaders}.

Lemma parsing_upd_buf f : keeps parsing (upd_buf f).
Proof. by intros w. Qed.
#[local] Hint Resolve parsing_upd_buf : keeps.

Lemma parsing_assign_64 i v mp : keeps parsing (assign_64 i v mp).
Proof. unfold assign_64, assign_32_of_64bit. keeps. Qed.
#[local] Hint Resolve parsing_assign_64 : keeps.

Lemma parsing_assign_times k i v mp : keeps parsing (assign_times k i v mp).
Proof. revert i. induction k as [|k IH]; intros; cbn [assign_times]; keeps. Qed.

Lemma parsing_entries n i mp po : keepsP parsing (parse_entries n i mp po).
Proof.
  revert i. induction n as [|n IH]; intros i; cbn [parse_entries]; [apply keepsP_pure; [apply pure_fault]|].
  apply keepsP_bind; [apply keepsP_pure; [apply pure_token]|]. intros t.
  assert (Hpure : forall A (p : P A), pure_parser p -> keepsP parsing p) by (intros; apply keepsP_pure; [done]).
  destruct t as [[c|s|v|v|v|k|]|]; try (apply Hpure, pure_error).
  - destruct (Ascii.eqb c "}"); apply Hpure; [apply pure_ret | apply pure_error].
  - apply keepsP_bind; [apply Hpure, pure_op|]. intros _.
    apply keepsP_bind; [| intros; apply IH].
    destruct po; [apply Hpure, pure_ret | apply keepsP_lift; [apply parsing_assign_64]].
  - apply keepsP_bind; [apply Hpure, pure_kw|]. intros _.
    apply keepsP_bind; [apply Hpure, pure_semicolon_u64|]. intros value.
    apply keepsP_bind; [| intros; apply IH].
    destruct po; [apply Hpure, pure_ret|]. destruct (s32 v <? 0); [apply Hpure, pure_fault|].
    apply keepsP_lift; [apply parsing_assign_times].
Qed.

Lemma parsing_one_peer window p po ts w : parsing w (parse_bitmap_window_one_peer window p po ts w).2.
Proof.
  rewrite one_peer_unfold. apply keepsP_bind; [apply keepsP_pure; [apply pure_bitmap_head]|].
  intros _. apply keepsP_bind; [intros ts'; apply parsing_entries|]. intros i. apply keepsP_ret.
Qed.

Lemma parsing_peers l window words po : keepsP parsing (parse_bitmap_peers l window words po).
Proof.
  revert words. induction l as [|p l IH]; intros words; cbn [parse_bitmap_peers]; [apply keepsP_ret; typeclasses eauto|].
  apply keepsP_bind; [intros ts w; apply parsing_one_peer | done].
Qed.

Lemma parsing_window window po : keepsP parsing (parse_bitmap_window window po).
Proof.
  unfold parse_bitmap_window. apply keepsP_bind; [apply keepsP_lift; [by intros w]|].
  intros c. destruct (version_lt c DRBD_V09); [intros ts w; apply parsing_one_peer | apply parsing_peers].
Qed.

(** A window in a round of its own: what the next one finds. *)
Lemma write_window_setup window words lim po w truncated w' :
  write_window window words lim po w = (Ok truncated, w') -> same_setup w w'.
Proof. apply keeps_result, setup_write_window. Qed.
End parsing.

Lemma write_window_dev words lim w t w' i k :
  md_hard_sect_size (w_cfg w) = 2 ^ k -> 0 <= k <= 25 -> 0 < words ->
  write_window 0 words lim false w = (Ok t, w') ->
  ~ (s64 (u64 (cfg_bm_offset (w_cfg w))) <= i < s64 (u64 (cfg_bm_offset (w_cfg w))) + buffer_size) ->
  w_dev w' i = w_dev w i.
Proof.
  intros Hk Hkr Hwd Hr Hi. unfold write_window in Hr. rewrite bind_cfg in Hr.
  destruct (Z.ltb_spec buffer_size (words * 4)) as [|Hs]; [discriminate|]. rewrite bind_ret in Hr.
  apply bind_inv in Hr as ([] & w1 & Hu & Hr). apply (f_equal snd) in Hu. cbn [snd] in Hu.
  assert (Hdev1 : w_dev w1 = w_dev w) by (rewrite <- Hu; reflexivity).
  assert (Hc1 : w_cfg w1 = w_cfg w) by (rewrite <- Hu; reflexivity). clear Hu.
  rewrite bind_bind, bind_gets in Hr. apply bind_inv in Hr as (n & w2 & Hp & Hr). injection Hr as _ <-.
  rewrite Hk in Hp. change (0 * buffer_size) with 0 in Hp. rewrite Z.add_0_r in Hp.
  set (off := s64 (u64 (cfg_bm_offset (w_cfg w)))) in *. set (count := ALIGN (words * 4) (2 ^ k)) in *.
  assert (H2k : 1 <= 2 ^ k <= 2 ^ 25).
  { split; [assert (0 < 2 ^ k) by (apply Z.pow_pos_nonneg; lia); lia | apply Z.pow_le_mono_r; lia]. }
  assert (Hcount : count <= buffer_size).
  { change buffer_size with (2 ^ 25) in *. destruct (ALIGN_bounds (words * 4) k) as [[_ Hlt] [q Hq]]; [lia | lia | lia|].
    fold count in Hlt, Hq. assert (Hpk : 2 ^ 25 = 2 ^ (25 - k) * 2 ^ k) by (rewrite <- Z.pow_add_r by lia; f_equal; lia).
    rewrite Hq, Hpk in *. assert (q < 2 ^ (25 - k) + 1) by nia. nia. }
  unfold pwrite_with_limit_or_die in Hp. destruct (lim <=? off); [discriminate|].
  apply bind_inv in Hp as ([] & w3 & Hp & Hr). injection Hr as _ <-.
  rewrite pwrite_or_die_run in Hp. destruct (write_allowed _ _ _); [|discriminate].
  destruct (dry_run _).
  { apply (f_equal snd) in Hp. cbn [snd] in Hp. rewrite <- Hp, <- Hdev1. reflexivity. }
  set (cnt := if _ <? count then _ else count) in Hp.
  assert (Hcnt : cnt <= count) by (unfold cnt; destruct (Z.ltb_spec (lim - off) count); lia).
  pose proof (pwrite_dev (w_buf w1) cnt off (counted w1) i) as Hd. rewrite Hp in Hd. cbn [snd] in Hd.
  rewrite Hd by lia. change (w_dev (counted w1)) with (w_dev w1). by rewrite Hdev1.
Qed.

(** The bitmap of three peers, one word each. *)
Definition bitmap_example : list token :=
  let one p := [T_kw TK_BITMAP; T_op "["; T_num p; T_op "]"; T_op "{"; T_u64 255; T_op ";"; T_num 2; T_kw TK_TIMES; T_u64 7;
                T_op ";"; T_op "}"] in
  one 0 ++ one 1 ++ one 2.

(** ** Theorems *)

Section theorems.
Context `{DrbdHeaders}.

(** The round of the second window. *)
Lemma last_round n lim truncated po ts w ts1 w1 w2 :
  0 <= max_peers (cfg_md (w_cfg w)) <= buffer_words ->
  parse_bitmap_window 0 po ts w = (Ok (buffer_words, ts1), w1) -> w_cfg w2 = w_cfg w1 ->
  parse_bitmap_loop (S n) 1 lim truncated po ts w2 =
  ('(words, ts') ← parse_bitmap_window 1 po ts; mret ((), ts')) w2.
Proof.
  intros Hmp H0 Hc. pose proof (parsing_window 0 po ts w) as [[Hc1 _] _]. rewrite H0 in Hc1. cbn [snd] in Hc1.
  cbn [parse_bitmap_loop]. apply bind_ext. intros [words ts2] w3 H1.
  destruct (second_window_not_full po ts w ts1 w1 w2 words ts2 w3 Hmp Hc H0 Hc1 H1) as [Hw _].
  replace (0 <? words) with false by lia. cbn [andb]. rewrite bind_ret.
  replace (words =? buffer_words) with false; [done|]. change buffer_words with (2 ^ 23). lia.
Qed.

(** C19: restore-md's loop over the windows of the bitmap ends: whatever the
    dump holds, two rounds give the result that any larger number of rounds
    gives, since the second window is never a full one. *)
Theorem parse_bitmap_two_rounds n lim truncated po ts w :
  0 <= max_peers (cfg_md (w_cfg w)) <= buffer_words ->
  parse_bitmap_loop (2 + n) 0 lim truncated po ts w = parse_bitmap_loop 2 0 lim truncated po ts w.
Proof.
  intros Hmp. change (2 + n)%nat with (S (S n)). cbn [parse_bitmap_loop]. apply bind_ext. intros [words ts1] w1 H0.
  apply bind_ext. intros t w2 Hw. destruct (Z.eqb_spec words buffer_words) as [->|]; [|done].
  assert (Hc : w_cfg w2 = w_cfg w1).
  { destruct (_ && _); [by apply write_window_setup in Hw as [? _] | by injection Hw as _ <-]. }
  change (0 + 1) with 1.
  etransitivity; [eapply (last_round n); eassumption|]. symmetry. eapply (last_round 0); eassumption.
Qed.

(** C20: what restore-md reads of a dump's bitmap changes the device only in the
    first 32 MiB of the on-disk bitmap: the words of a later window are not
    stored, since a negative index is taken for one beyond the window. *)
Theorem restore_first_window_only ts w r ts' w' i k :
  0 <= max_peers (cfg_md (w_cfg w)) <= buffer_words ->
  md_hard_sect_size (w_cfg w) = 2 ^ k -> 0 <= k <= 25 ->
  parse_bitmap false ts w = (Ok (r, ts'), w') ->
  ~ (s64 (u64 (cfg_bm_offset (w_cfg w))) <= i < s64 (u64 (cfg_bm_offset (w_cfg w))) + 32 * 1024 * 1024) ->
  w_dev w' i = w_dev w i.
Proof.
  intros Hmp Hk Hkr Hr Hi. unfold parse_bitmap in Hr. rewrite (P_bind_ok _ _ ts w (w_cfg w) ts w) in Hr by done.
  set (lim := s64 _) in Hr. clearbody lim. cbn [parse_bitmap_loop] in Hr.
  apply bind_inv in Hr as ([words ts1] & w1 & H0 & Hr). apply bind_inv in Hr as (t & w2 & Hw & Hr).
  pose proof (parsing_window 0 false ts w) as [[Hc1 _] Hd1]. rewrite H0 in Hc1, Hd1. cbn [snd] in Hc1, Hd1.
  assert (H2 : w_cfg w2 = w_cfg w1 /\ w_dev w2 i = w_dev w i).
  { destruct (Z.ltb_spec 0 words); cbn [andb negb] in Hw; [|injection Hw as _ <-; by rewrite Hd1].
    split; [by apply write_window_setup in Hw as [? _]|]. rewrite <- Hd1.
    apply (write_window_dev words lim w1 t w2 i k); rewrite ?Hc1; done. }
  destruct H2 as [Hc2 <-]. destruct (Z.eqb_spec words buffer_words) as [->|]; [|by injection Hr as _ _ <-].
  change (0 + 1) with 1 in Hr.
  change ((parse_bitmap_loop 1 1 lim t false ts) w2 = (Ok (r, ts'), w')) in Hr.
  rewrite (last_round 0 lim t false ts w ts1 w1 w2) in Hr by done.
  apply bind_inv in Hr as ([words2 ts2] & w3 & H1 & Hr). injection Hr as _ _ <-.
  pose proof (parsing_window 1 false ts w2) as [_ Hd2]. rewrite H1 in Hd2. cbn [snd] in Hd2. by rewrite Hd2.
Qed.
End theorems.

Lemma parse_bitmap_two_rounds_witness :
  parse_bitmap_loop 5 0 40960 false false bitmap_example example_apply_world =
  parse_bitmap_loop 2 0 40960 false false bitmap_example example_apply_world.
Proof. apply (parse_bitmap_two_rounds 3 40960 false false bitmap_example example_apply_world). split; discriminate. Defined.

Lemma restore_first_window_only_witness :
  let r := parse_bitmap false bitmap_example example_apply_world in
  r.1 = Ok ((), []) /\ w_dev r.2 36864 <> w_dev example_apply_world 36864 /\
  w_dev r.2 (36864 + 2 ^ 25) = w_dev example_apply_world (36864 + 2 ^ 25).
Proof.
  intros r. assert (Hr : r.1 = Ok ((), [])) by (vm_compute; reflexivity). split; [exact Hr|].
  split; [vm_compute; discriminate|].
  apply (restore_first_window_only bitmap_example example_apply_world () [] r.2 (36864 + 2 ^ 25) 9).
  - split; discriminate.
  - reflexivity.
  - split; discriminate.
  - rewrite <- Hr. apply surjective_pairing.
  - intros [_ Hlt]. revert Hlt. vm_compute. discriminate.
Defined.
