(* ===== verification/Dump.v ===== *)
(** * Dumping meta data

    [show-gi], [dump-md], [dump-superblock] and [hexdump-superblock].  The text is
    what goes to standard output; the time, the host name and the command line in
    it are parameters. *)

From S2P Require Import Prelude Machine Hweight Headers SharedTool MetaData OnDisk Layout GenId.
From S2P Require Import OpenMd Commands Scanner Restore.
From Stdlib Require Import Ascii String.
From stdpp Require Import strings.

#[local] Open Scope Z_scope.

(** ** show-gi *)

Fixpoint text (l : list string) : string :=
  match l with [] => EmptyString | s :: l' => s +:+ nl +:+ text l' end.

Definition choose (b : bool) (s t : string) : string := if b then s else t.

(** [%3d] and [%3s] *)
Fixpoint spaces (n : nat) : string := match n with O => EmptyString | S n' => String " " (spaces n') end.
Definition pad3 (s : string) : string := spaces (3 - String.length s) +:+ s.

Definition dt_pretty_print_gc `{DrbdHeaders} (gen_cnt : list Z) : string :=
  let flag m a b := pad3 (choose (has_bits (arr gen_cnt Flags) m) a b) in
  let cnt i := pad3 (show_int (arr gen_cnt i) "") in
  text
   ["";
    "                                        WantFullSync |";
    "                                  ConnectedInd |     |";
    "                               lastState |     |     |";
    "                      ArbitraryCnt |     |     |     |";
    "                ConnectedCnt |     |     |     |     |";
    "            TimeoutCnt |     |     |     |     |     |";
    "        HumanCnt |     |     |     |     |     |     |";
    "Consistent |     |     |     |     |     |     |     |";
    "   --------+-----+-----+-----+-----+-----+-----+-----+";
    "       " +:+ flag MDF_CONSISTENT "1/c" "0/i" +:+ " | " +:+ cnt HumanCnt +:+ " | " +:+ cnt TimeoutCnt +:+
    " | " +:+ cnt ConnectedCnt +:+ " | " +:+ cnt ArbitraryCnt +:+ " | " +:+ flag MDF_PRIMARY_IND "1/p" "0/s" +:+
    " | " +:+ flag MDF_CONNECTED_IND "1/c" "0/n" +:+ " | " +:+ flag MDF_FULL_SYNC "1/y" "0/n" +:+ "  ";
    ""].

Definition uuid_header : string :=
  text
   ["";
    "       +--<  Current data generation UUID  >-";
    "       |               +--<  Bitmap's base data generation UUID  >-";
    "       |               |                 +--<  younger history UUID  >-";
    "       |               |                 |         +-<  older history  >-";
    "       V               V                 V         V"].

Definition dt_pretty_print_uuids `{DrbdHeaders} (md : md_cpu) (node : Z) : string :=
  let f m := has_bits (flags md) m in
  uuid_header +:+ uuids_line md node nl +:+
  text
   ["                                                                    ^ ^ ^ ^ ^ ^ ^";
    "                                      -<  Data consistency flag  >--+ | | | | | |";
    "                             -<  Data was/is currently up-to-date  >--+ | | | | |";
    "                                  -<  Node was/is currently primary  >--+ | | | |";
    "                                  -<  Node was/is currently connected  >--+ | | |";
    "         -<  Node was in the progress of setting all bits in the bitmap  >--+ | |";
    "                        -<  The peer's disk was out-dated or inconsistent  >--+ |";
    "      -<  This node was a crashed primary, and has not seen its peer since   >--+";
    "";
    "flags:" +:+ choose (f MDF_CRASHED_PRIMARY) " crashed" "" +:+ " " +:+
    choose (f MDF_PRIMARY_IND) "Primary" "Secondary" +:+ ", " +:+
    choose (f MDF_CONNECTED_IND) "Connected" "StandAlone" +:+ ", " +:+
    choose (f MDF_CONSISTENT) (choose (f MDF_WAS_UP_TO_DATE) "UpToDate" "Outdated") "Inconsistent" +:+
    choose (f MDF_FULL_SYNC) ", need full sync" "" +:+ choose (f MDF_PEER_OUT_DATED) ", peer Outdated" "";
    "meta-data: " +:+ choose (f MDF_AL_CLEAN) "clean" "need apply-al"].

Definition dt_pretty_print_v9_uuids `{DrbdHeaders} (md : md_cpu) (node : Z) : string :=
  uuid_header +:+ v9_uuids_line md node nl +:+
  text
   ["                                                                    ^ ^ ^ ^ ^ ^ ^ ^ ^ ^ ^ ^";
    "                                      -<  Data consistency flag  >--+ | | | | | | | | | | |";
    "                             -<  Data was/is currently up-to-date  >--+ | | | | | | | | | |";
    "                                  -<  Node was/is currently primary  >--+ | | | | | | | | |";
    " -<  This node was a crashed primary, and has not seen its peer since  >--+ | | | | | | | |";
    "             -<  The activity-log was applied, the disk can be attached  >--+ | | | | | | |";
    "        -<  The activity-log was disabled, peer is completely out of sync  >--+ | | | | | |";
    "                              -<  This node was primary when it lost quorum  >--+ | | | | |";
    "                                          -<  Node was/is currently connected  >--+ | | | |";
    "                              -<  The peer's disk was out-dated or inconsistent  >--+ | | |";
    "                                 -<   A fence policy other the dont-care was used  >--+ | |";
    "                  -<  Node was in the progress of marking all blocks as out of sync  >--+ |";
    "                     -<  At least once we saw this node with a backing device attached >--+";
    ""].

Definition show_gi_op `{DrbdHeaders} (f : md_format) (md : md_cpu) (node : Z) : M unit :=
  match f with
  | DRBD_V06 | DRBD_V07 => printf (dt_pretty_print_gc (gc md))
  | DRBD_V08 => printf (dt_pretty_print_uuids md node)
  | DRBD_V09 => printf (dt_pretty_print_v9_uuids md node)
  | DRBD_UNKNOWN => fault
  end.

Definition meta_show_gi `{DrbdHeaders} : M Z :=
  with_open
    (c ← cfg;
     o ← opt;
     let md := cfg_md c in
     show_gi_op (ops c) md (option_node_id o);;
     (if negb (effective_size md =? 0) then
        printf ("last agreed size: " +:+ ppsize (Z.shiftr (effective_size md) 1) +:+ " (" +:+
                show_u (effective_size md) (" sectors)" +:+ nl));;
        printf ("last agreed max bio size: " +:+ show_u (la_peer_max_bio_size md) (" Byte" +:+ nl))
      else printf ("zero size device -- never seen peer yet?" +:+ nl));;
     md_close).

(** ** The bitmap of a peer *)

Definition X16 (n : Z) (tail : string) : string := "0x" +:+ show_x16 n tail.
Definition X8 (n : Z) (tail : string) : string := "0x" +:+ fixed_digits 16 8 n tail.

Definition WPL : Z := 8.

(** The variables of the loop. *)
Record bm_state := mk_bm_state {
  bs_i : Z;          (* in-buffer offset *)
  bs_r : Z;          (* real offset *)
  bs_cw : Z;         (* current word for run lengths *)
  bs_lw : Z;         (* low word of the next one *)
  bs_count : Z;
  bs_bits_set : Z;
  bs_n_buffer : Z;
  bs_disk_off : Z
}.

#[export] Instance eta_bm_state : Eta bm_state :=
  fun r => mk_bm_state (bs_i r) (bs_r r) (bs_cw r) (bs_lw r) (bs_count r) (bs_bits_set r)
                       (bs_n_buffer r) (bs_disk_off r).

(** The labels [start], the head of the loop and [next]. *)
Inductive bm_label := at_start | at_while | at_next.

Definition bm_word (b : mem) (i : Z) : Z := load_le 4 b (4 * i).

(** How far the words stay the same as [cw] from [j], in steps of [mp]. *)
Fixpoint run_end (n : nat) (b : mem) (cw j n_buffer mp : Z) : Z :=
  match n with
  | O => j
  | S n' => if (j <? n_buffer) && (cw =? bm_word b j) then run_end n' b cw (j + mp) n_buffer mp else j
  end.

Definition fprintf_bm_eol (i peer_nr : Z) : M unit :=
  if Z.land i 63 =? peer_nr
  then printf (nl +:+ "   # at " +:+ show_u (u64 (128 * (i - peer_nr))) ("kB" +:+ nl +:+ "   "))
  else printf (nl +:+ "   ").

Section fprintf_bm.
Context `{DrbdHeaders} (cfg_ : format) (peer_nr : Z).

Let mp : Z := max_peers (cfg_md cfg_).
Let n : Z := u32 (cfg_bm_bytes cfg_ / 4).
Let max_chunk_size : Z := round_down buffer_size (4096 * mp).

(** Reads the next chunk. *)
Definition bm_read (s : bm_state) : M bm_state :=
  let chunk := ALIGN (u32 (n - round_down (bs_r s) mp) * 4) (md_hard_sect_size cfg_) in
  let chunk := if max_chunk_size <? chunk then max_chunk_size else chunk in
  ASSERT (truth chunk);;
  pread_or_die 0 chunk (s64 (bs_disk_off s));;
  mret (s <| bs_disk_off := bs_disk_off s + chunk |> <| bs_n_buffer := chunk / 4 |>).

(** The word at [i]: the low one is kept, the high one completes an entry. *)
Definition bm_emit (b : mem) (s : bm_state) : M bm_state :=
  ASSERT (bs_i s <? bs_n_buffer s);;
  let w := bm_word b (bs_i s) in
  let s' := s <| bs_bits_set := u32 (bs_bits_set s + generic_hweight32 w) |>
              <| bs_r := u32 (bs_r s + mp) |> <| bs_i := u32 (bs_i s + mp) |> in
  if Z.land (bs_i s / mp) 1 =? 0 then mret (s' <| bs_lw := w |>)
  else
    printf (" 0x" +:+ fixed_digits 16 8 (le32_to_cpu w) (fixed_digits 16 8 (le32_to_cpu (bs_lw s)) ";"));;
    mret s'.

(** The loop; the last word printed, the labels entered next. *)
Fixpoint bm_loop (fuel : nat) (l : bm_label) (s : bm_state) : M bm_state :=
  match fuel with
  | O => fault
  | S fuel' =>
      match l with
      | at_start => s ← bm_read s; bm_loop fuel' at_next s
      | at_while =>
          if bs_r s <? n then
            if max_chunk_size <=? bs_i s * 4
            then s ← bm_read (s <| bs_i := u32 (bs_i s - max_chunk_size / 4) |>); bm_loop fuel' at_next s
            else bm_loop fuel' at_next s
          else mret s
      | at_next =>
          ASSERT (bs_i s <? bs_n_buffer s);;
          b ← gets w_buf;
          let s := if bs_count s =? 0 then s <| bs_cw := bm_word b (bs_i s) |> else s in
          if bs_i s mod (WPL * mp) =? peer_nr then
            (if bs_count s =? 0 then fprintf_bm_eol (bs_r s) peer_nr else mret ());;
            let j := run_end (Z.to_nat (bs_n_buffer s)) b (bs_cw s) (bs_i s) (bs_n_buffer s) mp in
            let tmp := round_down (u32 (j / mp - bs_i s / mp)) WPL in
            let s := if WPL <? tmp
                     then s <| bs_count := u32 (bs_count s + tmp) |> <| bs_r := u32 (bs_r s + tmp * mp) |>
                            <| bs_i := u32 (bs_i s + tmp * mp) |>
                     else s in
            if (WPL <? tmp) && (bs_n_buffer s <=? j) && (bs_r s <? n) then bm_loop fuel' at_while s
            else if negb (bs_count s =? 0) then
              printf (" " +:+ show_u (bs_count s / 2)
                (" times 0x" +:+ fixed_digits 16 8 (le32_to_cpu (bs_cw s))
                                   (fixed_digits 16 8 (le32_to_cpu (bs_cw s)) ";")));;
              let s := s <| bs_bits_set := u32 (bs_bits_set s + bs_count s * generic_hweight32 (bs_cw s)) |>
                         <| bs_count := 0 |> in
              if n <=? bs_r s then mret s else bm_loop fuel' at_next s
            else s ← bm_emit b s; bm_loop fuel' at_while s
          else s ← bm_emit b s; bm_loop fuel' at_while s
      end
  end.

(** Every word is passed once, with at most two more rounds in between. *)
Definition fprintf_bm : M unit :=
  ASSERT (DRBD_PEERS_MAX * 4096 <=? buffer_size);;
  ASSERT (truth max_chunk_size);;
  printf "{";;
  s ← (if peer_nr <? n
       then bm_loop (Z.to_nat (4 * n + 4)) at_start (mk_bm_state peer_nr peer_nr 0 0 0 0 0 (cfg_bm_offset cfg_))
       else mret (mk_bm_state peer_nr peer_nr 0 0 0 0 0 (cfg_bm_offset cfg_)));
  printf (nl +:+ "}" +:+ nl);;
  upd_cfg (fun c => c <| bits_set := bs_bits_set s |>).
End fprintf_bm.

Fixpoint printf_bm_peers `{DrbdHeaders} (l : list Z) : M unit :=
  match l with
  | [] => mret ()
  | i :: l' =>
      printf ("bitmap[" +:+ show_int i "] ");;
      c ← cfg;
      fprintf_bm c i;;
      printf_bm_peers l'
  end.

Definition printf_bm `{DrbdHeaders} : M unit :=
  c ← cfg;
  match format_version c with
  | DRBD_V06 => mret ()
  | DRBD_V07 | DRBD_V08 => printf "bm ";; fprintf_bm c 0
  | DRBD_V09 => printf_bm_peers (upto (max_peers (cfg_md c)))
  | DRBD_UNKNOWN => mret ()
  end.

(** ** dump-md *)

Definition flag_name (i : Z) : option string :=
  match i with
  | 0 => Some "connected"
  | 1 => Some "<=outdated"
  | 2 => Some "fencing"
  | 3 => Some "full-sync"
  | 4 => Some "seen"
  | 16 => Some "exists"
  | _ => None
  end%string.

Definition lower_char (c : ascii) : ascii :=
  if SharedTool.between 65 90 (code c) then ascii_of_nat (nat_of_ascii c + 32) else c.

Fixpoint lower (s : string) : string :=
  match s with EmptyString => EmptyString | String c s' => String (lower_char c) (lower s') end.

(** [%x], and [%08llx], which takes more than 8 digits if need be. *)
Definition show_hex (n : Z) : string := lower (all_digits 16 16 n "").

Fixpoint zeros (n : nat) : string := match n with O => EmptyString | S n' => String "0" (zeros n') end.
Definition show_hex8 (n : Z) : string := zeros (8 - String.length (show_hex n)) +:+ show_hex n.
Definition hex2 (n : Z) : string := lower (fixed_digits 16 2 n "").

(** The names of the flags; what does not fit into the [room] is cut off. *)
Fixpoint pretty_peer_md_flags (l : list Z) (room : nat) (flags : Z) (cur_sep sep : string) : string :=
  match l with
  | [] => EmptyString
  | i :: l' =>
      if Z.testbit flags i then
        let s := match flag_name i with
                 | Some name => cur_sep +:+ name
                 | None => cur_sep +:+ "0x" +:+ show_hex (Z.shiftl 1 i) +:+ "=?"
                 end in
        if (room <=? String.length s)%nat then String.substring 0 (room - 1) s
        else s +:+ pretty_peer_md_flags l' (room - String.length s) flags sep sep
      else pretty_peer_md_flags l' room flags cur_sep sep
  end.

Definition al_is_clean `{DrbdHeaders} (md : md_cpu) : bool :=
  negb (DRBD_MD_MAGIC_84_UNCLEAN =? magic md) && has_bits (flags md) MDF_AL_CLEAN.

Definition offset_lines (pre : string) (c : format) : string :=
  pre +:+ " md_offset " +:+ show_u (md_offset c) nl +:+
  pre +:+ " al_offset " +:+ show_u (cfg_al_offset c) nl +:+
  pre +:+ " bm_offset " +:+ show_u (cfg_bm_offset c) nl.

(** The meta data are at the last-known location: the offsets there. *)
Definition dump_last_known `{DrbdHeaders} : M unit :=
  c ← cfg;
  printf (text
   ["#"; "### Device seems to have been resized!";
    "### dumping meta data from the last known position";
    "### current size of " +:+ md_device_name c +:+ ": " +:+ show_u (cfg_bd_size c) " byte";
    "### expected position of meta data:"]);;
  printf (offset_lines "##" c);;
  printf (text
   ["### last known size of " +:+ default "-?-" (bd_name (lk_bd c)) +:+ ": " +:+ show_u (bd_size (lk_bd c)) " byte";
    "### adjusted position of meta data:"]);;
  upd_cfg (fun c => c <| md_offset := v07_style_md_get_byte_offset DRBD_MD_INDEX_FLEX_INT (bd_size (lk_bd c)) |>);;
  upd_cfg (fun c => c <| cfg_al_offset := at_sectors (md_offset c) (al_offset (cfg_md c)) |>
                      <| cfg_bm_offset := at_sectors (md_offset c) (bm_offset (cfg_md c)) |>);;
  c ← cfg;
  bytes ← bm_bytes (cfg_md c) (effective_size (cfg_md c));
  upd_cfg (fun c => c <| cfg_bm_bytes := bytes |>).

Definition dump_gc (md : md_cpu) : string :=
  "gc {" +:+ nl +:+ "   " +:+
  String.concat "" ((fun i => " " +:+ show_int (arr (gc md) i) ";") <$> upto GEN_CNT_SIZE) +:+
  nl +:+ "}" +:+ nl.

Definition dump_uuids_08 (md : md_cpu) : string :=
  "uuid {" +:+ nl +:+ "    " +:+
  X16 (current_uuid md) ("; " +:+ X16 (bitmap_uuid (peer_at md 0)) ("; " +:+
  X16 (arr (history_uuids md) 0) ("; " +:+ X16 (arr (history_uuids md) 1) (";" +:+ nl)))) +:+
  "    flags " +:+ X8 (flags md) (";" +:+ nl) +:+ "}" +:+ nl.

Definition dump_peer (md : md_cpu) (i : Z) : string :=
  let peer := peer_at md i in
  "peer[" +:+ show_int i "] {" +:+ nl +:+
  "    bitmap-index " +:+ show_int (bitmap_index peer) (";" +:+ nl) +:+
  "    bitmap-uuid " +:+ X16 (bitmap_uuid peer) (";" +:+ nl) +:+
  "    bitmap-dagtag " +:+ X16 (bitmap_dagtag peer) (";" +:+ nl) +:+
  "    flags " +:+ X8 (peer_flags peer) (";" +:+
    pretty_peer_md_flags (upto 32) 80 (peer_flags peer) " # " " | " +:+ nl) +:+
  "}" +:+ nl.

Definition dump_history (md : md_cpu) : string :=
  "history-uuids {" +:+
  String.concat "" ((fun i => choose (negb (i mod 4 =? 0)) " " (nl +:+ "        ") +:+
                              X16 (arr (history_uuids md) i) ";") <$> upto HISTORY_UUIDS) +:+
  nl +:+ "}" +:+ nl.

Definition dump_uuids_09 `{DrbdHeaders} (md : md_cpu) : string :=
  "node-id " +:+ show_int (node_id md) (";" +:+ nl) +:+
  "current-uuid " +:+ X16 (current_uuid md) (";" +:+ nl) +:+
  "flags " +:+ X8 (flags md) (";" +:+ nl) +:+
  "members " +:+ X16 (members md) (";" +:+ nl) +:+
  String.concat "" (dump_peer md <$> upto DRBD_NODE_ID_MAX) +:+
  dump_history md.

Definition dump_sizes_08 (md : md_cpu) : string :=
  "bm-byte-per-bit " +:+ show_u (bm_bytes_per_bit md) (";" +:+ nl) +:+
  "device-uuid " +:+ X16 (device_uuid md) (";" +:+ nl) +:+
  "la-peer-max-bio-size " +:+ show_int (la_peer_max_bio_size md) (";" +:+ nl) +:+
  "al-stripes " +:+ show_u (al_stripes md) (";" +:+ nl) +:+
  "al-stripe-size-4k " +:+ show_u (al_stripe_size_4k md) (";" +:+ nl).

(** The super block, after the header of the dump. *)
Definition dump_version (c : format) : string :=
  "version " +:+ quoted (format_name (ops c)) +:+ ";" +:+ nl +:+ nl.

Definition dump_uuids `{DrbdHeaders} (c : format) : string :=
  match format_version c with
  | DRBD_V06 | DRBD_V07 => dump_gc (cfg_md c)
  | DRBD_V08 => dump_uuids_08 (cfg_md c)
  | DRBD_V09 => dump_uuids_09 (cfg_md c)
  | DRBD_UNKNOWN => EmptyString
  end.

Definition dump_sizes `{DrbdHeaders} (c : format) : string :=
  "# al-extents " +:+ show_u (al_nr_extents (cfg_md c)) (";" +:+ nl) +:+
  "la-size-sect " +:+ show_u (effective_size (cfg_md c)) (";" +:+ nl) +:+
  (if version_ge c DRBD_V08 then dump_sizes_08 (cfg_md c) else EmptyString) +:+
  "# bm-bytes " +:+ show_u (cfg_bm_bytes c) (";" +:+ nl).

Definition unclean_text : string :=
  "This_is_an_unclean_meta_data_dump._Don't_trust_the_bitmap." +:+ nl +:+
  "# You should " +:+ quoted "apply-al" +:+ " first, if you plan to restore this." +:+ nl +:+ nl.

(** [header]: time, host and command line. *)
Definition meta_dump_md `{DrbdHeaders} (header : string) : M Z :=
  found ← md_open;
  if bool_decide (found = NO_VALID_MD_FOUND) then mret (-1)
  else
    c ← cfg;
    o ← opt;
    let clean := al_is_clean (cfg_md c) in
    when (negb clean && force o && quiet o)
      (modify (fun w => w <| quiet_suppressed := quiet_suppressed w + 1 |>));;
    if negb clean && negb (force o) then mret (-1)
    else
      printf header;;
      printf (dump_version c);;
      (if clean then mret () else printf unclean_text);;
      (if version_ge c DRBD_V09 then printf ("max-peers " +:+ show_int (max_peers (cfg_md c)) (";" +:+ nl)) else mret ());;
      printf ("# md_size_sect " +:+ show_u (md_size_sect (cfg_md c)) nl);;
      (if bool_decide (found = VALID_MD_FOUND_AT_LAST_KNOWN_LOCATION) then dump_last_known else mret ());;
      c ← cfg;
      printf (offset_lines "#" c +:+ nl);;
      printf (dump_uuids c);;
      (if version_ge c DRBD_V07 then
         printf (dump_sizes c);;
         printf_bm;;
         c ← cfg;
         printf ("# bits-set " +:+ show_u (bits_set c) (";" +:+ nl))
       else mret ());;
      md_close.

(** ** dump-superblock *)

Inductive dump_fmt := DUMP_AUTO | DUMP_HEX | DUMP_BINARY | DUMP_JSON.

Definition printable (x : Z) : ascii :=
  if SharedTool.between 32 126 x then ascii_of_nat (Z.to_nat x) else "."%char.

Fixpoint hex_bytes (l : list Z) : string :=
  match l with [] => EmptyString | x :: l' => " " +:+ hex2 x +:+ hex_bytes l' end.

Fixpoint chars (l : list Z) : string :=
  match l with [] => EmptyString | x :: l' => String (printable x) (chars l') end.

Definition bytes_at (b : mem) (o n : Z) : list Z := b <$> seqZ o n.

Definition same_line (b : mem) (o : Z) : bool := bool_decide (bytes_at b (o - 16) 16 = bytes_at b o 16).

Definition hex_line (file_offset o : Z) (b : mem) : string :=
  show_hex8 (o + file_offset) +:+ " " +:+ hex_bytes (bytes_at b o 8) +:+ " " +:+ hex_bytes (bytes_at b (o + 8) 8) +:+
  "  |" +:+ chars (bytes_at b o 16) +:+ "|" +:+ nl.

(** The lines but the last; a repeated one is skipped.  Returns where it stops. *)
Fixpoint hex_lines (n : nat) (file_offset o len : Z) (skipped : bool) (b : mem) : string * Z :=
  match n with
  | O => (EmptyString, o)
  | S n' =>
      if o + 16 <? len then
        if negb (o =? 0) && same_line b o then hex_lines n' file_offset (o + 16) len true b
        else
          let '(s, e) := hex_lines n' file_offset (o + 16) len false b in
          ((if skipped : bool then "*" +:+ nl else EmptyString) +:+ hex_line file_offset o b +:+ s, e)
      else (if skipped then "*" +:+ nl else EmptyString, o)
  end.

Definition hex_rest (file_offset o len : Z) (b : mem) : string :=
  if o <? len then
    let l := bytes_at b o (len - o) in
    let i := Z.to_nat (len - o) in
    show_hex8 (o + file_offset) +:+ " " +:+ hex_bytes (take 8 l) +:+
    (if (8 <? i)%nat then " " +:+ hex_bytes (drop 8 l) else EmptyString) +:+
    spaces ((16 - i) * 3 + (if (i <? 8)%nat then 1 else 0)) +:+ "  |" +:+ chars l +:+ "|" +:+ nl
  else EmptyString.

Definition fprintf_hex (file_offset : Z) (b : mem) (len : Z) : string :=
  let '(s, o) := hex_lines (Z.to_nat len) file_offset 0 len false b in
  s +:+ hex_rest file_offset o len b +:+ show_hex8 (len + file_offset) +:+ nl.

Fixpoint binary (l : list Z) : string :=
  match l with [] => EmptyString | x :: l' => String (ascii_of_nat (Z.to_nat x)) (binary l') end.

(** *** The super block as JSON *)

Definition str (s : string) : string := quoted s.
Definition jx16 (n : Z) : string := str (X16 n "").
Definition jx8 (n : Z) : string := str (X8 n "").
Definition ju (n : Z) : string := show_u n "".
Definition jd (n : Z) : string := show_d n "".

Definition json_field (name value : string) : string := "  " +:+ str name +:+ ": " +:+ value +:+ "," +:+ nl.

Definition json_common (md : md_cpu) : string :=
  json_field "effective_size" (ju (effective_size md)) +:+
  json_field "current_uuid" (jx16 (current_uuid md)) +:+
  json_field "device_uuid" (jx16 (device_uuid md)) +:+
  json_field "flags" (jx8 (flags md)) +:+
  json_field "magic" (jx8 (magic md)) +:+
  json_field "md_size_sect" (ju (md_size_sect md)) +:+
  json_field "al_offset" (jd (al_offset md)) +:+
  json_field "al_nr_extents" (ju (al_nr_extents md)) +:+
  json_field "bm_offset" (jd (bm_offset md)) +:+
  json_field "bm_bytes_per_bit" (ju (bm_bytes_per_bit md)) +:+
  json_field "la_peer_max_bio_size" (ju (la_peer_max_bio_size md)) +:+
  json_field "al_stripes" (ju (al_stripes md)) +:+
  json_field "al_stripe_size_4k" (ju (al_stripe_size_4k md)).

Definition json_peer `{DrbdHeaders} (b : mem) (pos : Z) (md : md_cpu) (i : Z) : string :=
  let peer := peer_at md i in
  let reserved k := be32_at b (pos + d9_peer i d9_peer_reserved_u32 + 4 * k) in
  choose (i =? 0) "" "," +:+ nl +:+ "    { " +:+
  str "bitmap_uuid" +:+ ": " +:+ jx16 (bitmap_uuid peer) +:+ ",  " +:+
  str "bitmap_dagtag" +:+ ": " +:+ ju (bitmap_dagtag peer) +:+ ",  " +:+
  str "flags" +:+ ": " +:+ jx8 (peer_flags peer) +:+ ",  " +:+
  str "bitmap_index" +:+ ": " +:+ jd (bitmap_index peer) +:+ ",  " +:+
  str "reserved_u32" +:+ ": [ " +:+ jx8 (reserved 0) +:+ ", " +:+ jx8 (reserved 1) +:+ " ] }".

Definition json_peers_08 (md : md_cpu) : string :=
  "  " +:+ str "peers" +:+ ": [ { " +:+ str "bitmap_uuid" +:+ ": " +:+ jx16 (bitmap_uuid (peer_at md 0)) +:+ " } ]," +:+ nl.

Definition json_peers_09 `{DrbdHeaders} (b : mem) (pos : Z) (md : md_cpu) : string :=
  "  " +:+ str "peers" +:+ ": [" +:+
  String.concat "" (json_peer b pos md <$> upto DRBD_PEERS_MAX) +:+ nl +:+ "  ]," +:+ nl +:+
  json_field "bm_max_peers" (ju (max_peers md)) +:+
  json_field "node_id" (jd (node_id md)) +:+
  json_field "members" (jx16 (members md)) +:+
  json_field "reserved_u64"
    ("[ " +:+ jx16 (be64_at b (pos + d9_reserved_u64)) +:+ ", " +:+ jx16 (be64_at b (pos + d9_reserved_u64 + 8)) +:+
     ", " +:+ jx16 (be64_at b (pos + d9_reserved_u64 + 16)) +:+ " ]") +:+
  json_field "reserved_u32"
    ("[ " +:+ jx8 (be32_at b (pos + d9_reserved_u32)) +:+ ", " +:+ jx8 (be32_at b (pos + d9_reserved_u32 + 4)) +:+ " ]").

(** Four on a line. *)
Definition json_history (n : Z) (md : md_cpu) : string :=
  "  " +:+ str "history_uuids" +:+ ": [" +:+
  String.concat "" ((fun i => choose (i =? 0) "" "," +:+
                              choose (i mod 4 =? 0) (nl +:+ "    ") " " +:+
                              jx16 (arr (history_uuids md) i)) <$> upto n) +:+
  nl +:+ "  ]," +:+ nl.

(** Unused bytes that are not zero are reported. *)
Definition json_padding (b : mem) (pos start end_ : Z) : string :=
  let non_zero := filter (fun i => b (pos + i) <> 0) (seqZ start (end_ - start)) in
  "  " +:+ str "padding" +:+ ": {" +:+
  match non_zero with
  | [] => " " +:+ str "start" +:+ ": " +:+ ju start +:+ ", " +:+ str "end" +:+ ": " +:+ ju end_ +:+ ", " +:+
          str "non-zero" +:+ ": { } }," +:+ nl
  | first :: _ =>
      nl +:+ "    " +:+ str "start" +:+ ": " +:+ ju start +:+ "," +:+ nl +:+
      "    " +:+ str "end" +:+ ": " +:+ ju end_ +:+ "," +:+ nl +:+
      "    " +:+ str "non-zero" +:+ ": {" +:+
      String.concat "" ((fun i => choose (i =? first) "" "," +:+ nl +:+ "      " +:+ str (ju i) +:+ ": " +:+
                                  str ("0x" +:+ hex2 (b (pos + i)))) <$> non_zero) +:+
      nl +:+ "    }" +:+ nl +:+ "  }," +:+ nl
  end.

Definition rc_name (rc : md_open_rc) : string :=
  match rc with
  | VALID_MD_FOUND => "VALID_MD_FOUND"
  | VALID_MD_FOUND_AT_LAST_KNOWN_LOCATION => "VALID_MD_FOUND_AT_LAST_KNOWN_LOCATION"
  | NO_VALID_MD_FOUND => "NO_VALID_MD_FOUND"
  end.

(** Does the buffer hold valid meta data of the other of the two formats? *)
Definition json_looks_like `{DrbdHeaders} (b : mem) (pos : Z) (rc : md_open_rc) : M (option string) :=
  c ← cfg;
  if bool_decide (rc <> NO_VALID_MD_FOUND) then mret None
  else
    let '(f, md_test) := if is_v08 c then (DRBD_V09, md_disk_09_to_cpu b pos)
                         else (DRBD_V08, md_disk_08_to_cpu b pos) in
    ok ← is_valid_md f md_test (md_index c) (cfg_bd_size c);
    mret (if (ok : bool) then Some (format_name f) else None).

(** [dump_time] and [nodename] are what the system says. *)
Definition json_dump_buffer `{DrbdHeaders} (dump_time nodename : string) (b : mem) (pos offset : Z) (rc : md_open_rc) : M unit :=
  c ← cfg;
  (if is_v08 c || is_v09 c then mret () else exit 4);;
  looks_like ← json_looks_like b pos rc;
  let md := if is_v08 c then md_disk_08_to_cpu b pos else md_disk_09_to_cpu b pos in
  let meta name value comma := "    " +:+ str name +:+ ": " +:+ value +:+ choose comma "," "" +:+ nl in
  printf ("{" +:+ nl +:+
    json_common md +:+
    (if is_v08 c then json_peers_08 md else json_peers_09 b pos md) +:+
    json_history (if is_v08 c then HISTORY_UUIDS_V08 else HISTORY_UUIDS) md +:+
    (if is_v08 c then json_padding b pos (d8_u32 11) sizeof_md_on_disk_08
     else json_padding b pos d9_padding_start d9_padding_end) +:+
    "  " +:+ str "#meta" +:+ ": {" +:+ nl +:+
    meta "dump_time_utc" (str (dump_time +:+ "Z")) true +:+
    meta "dump_host" (str nodename) true +:+
    meta "md_device_name" (str (md_device_name c)) true +:+
    meta "dump_offset" (ju (u64 offset)) true +:+
    meta "bd_size" (ju (cfg_bd_size c)) true +:+
    meta "dumped_as" (str (format_name (ops c))) true +:+
    meta "looks_like" (str (default (if bool_decide (rc = NO_VALID_MD_FOUND) then "UNKNOWN" else format_name (ops c))
                                    looks_like)) true +:+
    meta "valid" (str (rc_name rc)) false +:+
    "  }" +:+ nl +:+ "}" +:+ nl).

(** *** The commands *)

Definition hex_dump_buffer (b : mem) (pos offset : Z) (_ : md_open_rc) : M unit :=
  printf (fprintf_hex offset (fun i => b (pos + i)) 4096).

Definition binary_dump_buffer (b : mem) (pos offset : Z) (_ : md_open_rc) : M unit :=
  printf (binary (bytes_at b pos 4096)).

(** [force] drops O_EXCL; what was read at the last-known location is in the
    second block of the buffer. *)
Definition meta_generic_dump_superblock `{DrbdHeaders} (dump_impl : mem -> Z -> Z -> md_open_rc -> M unit) : M Z :=
  upd_opt (fun o => o <| force := true |>);;
  open_rc ← md_open;
  c ← cfg;
  b ← gets w_buf;
  (match open_rc with
   | VALID_MD_FOUND_AT_LAST_KNOWN_LOCATION =>
       dump_impl b 4096 (s64 (v07_style_md_get_byte_offset DRBD_MD_INDEX_FLEX_INT (bd_size (lk_bd c)))) open_rc
   | _ => dump_impl b 0 (s64 (md_offset c)) open_rc
   end);;
  md_close;;
  match open_rc with
  | VALID_MD_FOUND => mret 0
  | VALID_MD_FOUND_AT_LAST_KNOWN_LOCATION => exit 2
  | NO_VALID_MD_FOUND => exit 3
  end.

Definition meta_dump_superblock `{DrbdHeaders} (fmt : dump_fmt) (stdout_isatty : bool) (dump_time nodename : string) : M Z :=
  meta_generic_dump_superblock
    (match fmt with
     | DUMP_HEX => hex_dump_buffer
     | DUMP_JSON => json_dump_buffer dump_time nodename
     | DUMP_AUTO => if stdout_isatty then hex_dump_buffer else binary_dump_buffer
     | DUMP_BINARY => binary_dump_buffer
     end).

Definition meta_hex_dump_superblock `{DrbdHeaders} : M Z := meta_generic_dump_superblock hex_dump_buffer.
