(* ===== verification/Main.v ===== *)
(** * The command line of drbdmeta

    [main] of drbdmeta.c: options, format, command, the checks that precede a
    command, and the dispatch.  [getopt_long] belongs to the C library: its
    result, the options in their order and the remaining arguments, is the input. *)

From S2P Require Import Prelude Machine Headers SharedTool MetaData OnDisk Layout OpenMd Commands.
From S2P Require Import Create Scanner Restore Dump.
From Stdlib Require Import Ascii String.
From stdpp Require Import strings.

#[local] Open Scope Z_scope.

(** ** Options *)

(** An option that [getopt_long] has recognized, by the name in [metaopt]. *)
Inductive getopt_event :=
  | opt_ignore_sanity_checks
  | opt_dry_run                              (* and --tentative *)
  | opt_force
  | opt_quiet
  | opt_verbose
  | opt_peer_max_bio_size (optarg : string)
  | opt_node_id (optarg : string)
  | opt_output_format (optarg : string)
  | opt_al_stripes (optarg : string)
  | opt_al_stripe_size_kB (optarg : string)
  | opt_effective_size (optarg : string)
  | opt_diskful_peers (optarg : string)
  | opt_initialize_bitmap (optarg : string)
  | opt_bitmap_block_size (optarg : string)
  | opt_initial_current_uuid (optarg : string)
  | opt_consistent
  | opt_uptodate
  | opt_peers_outdated
  | opt_rotate_uuids
  | opt_var_lib_drbd (optarg : string)
  | opt_unknown.

Definition check_ibm_arg (arg : string) : M initialize_bitmap_mode :=
  if String.eqb arg "automatic" then mret IBM_ZEROOUT
  else if String.eqb arg "zeroout" then mret IBM_ZEROOUT_IOCTL_ONLY
  else if String.eqb arg "pwrite" then mret IBM_ZEROOUT_PWRITE
  else if String.eqb arg "set-all" then mret IBM_SET_ALL
  else if String.eqb arg "skip" then mret IBM_SKIP
  else exit 10.

(** The list of node ids: [1<<tmp] is an [int]; every id but the last takes at
    least the comma, so that the length of the argument is enough fuel. *)
Fixpoint node_list `{DrbdHeaders} (n : nat) (result : Z) (arg : string) : M Z :=
  match n with
  | O => fault
  | S n' =>
      let '(tmp, rest, _) := strtol arg 10 in
      if (0 <=? tmp) && (tmp <? DRBD_NODE_ID_MAX) then
        let result := Z.lor result (u64 (s32 (Z.shiftl 1 tmp))) in
        match rest with
        | EmptyString => mret result
        | String c arg' => if Ascii.eqb c "," then node_list n' result arg' else exit 10
        end
      else exit 10
  end.

Definition node_mask_from_arg `{DrbdHeaders} (arg : string) : M Z :=
  match arg with
  | String z (String x hex) =>
      if Ascii.eqb z "0" && Ascii.eqb x "x" then
        let '(tmp, rest, _) := strtol hex 16 in
        match rest with
        | EmptyString => mret (u64 tmp)
        | _ => exit 10
        end
      else node_list (S (String.length arg)) 0 arg
  | _ => node_list (S (String.length arg)) 0 arg
  end.

Definition output_format (arg : string) : M dump_fmt :=
  if String.eqb arg "auto" then mret DUMP_AUTO
  else if String.eqb arg "hex" then mret DUMP_HEX
  else if String.eqb arg "bin" then mret DUMP_BINARY
  else if String.eqb arg "json" then mret DUMP_JSON
  else exit 10.

(** One option; [seen] is the --output-format that was seen. *)
Definition process_option `{DrbdHeaders} (seen : option dump_fmt) (ev : getopt_event) : M (option dump_fmt) :=
  match ev with
  | opt_ignore_sanity_checks => upd_opt (fun o => o <| ignore_sanity_checks := true |>);; mret seen
  | opt_dry_run => upd_opt (fun o => o <| dry_run := true |>);; mret seen
  | opt_force => upd_opt (fun o => o <| force := true |>);; mret seen
  | opt_quiet => upd_opt (fun o => o <| quiet := true |>);; mret seen
  | opt_verbose => mret seen
  | opt_peer_max_bio_size arg =>
      r ← strtoll_or_die arg UNIT_1;
      let v := s32 r in
      upd_opt (fun o => o <| option_peer_max_bio_size := v |>);;
      if (v <? 0) || (1024 * 1024 <? v) then exit 10 else mret seen
  | opt_node_id arg =>
      r ← strtoll_or_die arg UNIT_1;
      let v := s32 r in
      upd_opt (fun o => o <| option_node_id := v |>);;
      if (v <? 0) || (DRBD_PEERS_MAX - 1 <? v) then exit 10 else mret seen
  | opt_output_format arg => fmt ← output_format arg; mret (Some fmt)
  | opt_al_stripes arg =>
      r ← strtoll_or_die arg UNIT_1;
      upd_opt (fun o => o <| option_al_stripes := u32 r |> <| option_al_stripes_used := 1 |>);; mret seen
  | opt_al_stripe_size_kB arg =>
      r ← strtoll_or_die arg "k"%char;
      upd_opt (fun o => o <| option_al_stripe_size_4k := u32 (r / 4) |> <| option_al_stripes_used := 1 |>);;
      mret seen
  | opt_effective_size arg =>
      r ← strtoll_or_die arg "s"%char;
      upd_opt (fun o => o <| option_effective_size := r |>);; mret seen
  | opt_diskful_peers arg =>
      mask ← node_mask_from_arg arg;
      upd_opt (fun o => o <| option_diskful_peer_mask := mask |>);; mret seen
  | opt_initialize_bitmap arg =>
      mode ← check_ibm_arg arg;
      upd_opt (fun o => o <| option_initialize_bitmap_mode := mode |>);; mret seen
  | opt_bitmap_block_size arg =>
      r ← strtoll_or_die arg "1"%char;
      let v := u32 (if r =? 0 then DEFAULT_BM_BLOCK_SIZE else r) in
      upd_opt (fun o => o <| option_bm_block_size := v |>);; mret seen
  | opt_initial_current_uuid arg =>
      upd_opt (fun o => o <| option_initial_current_uuid := Some arg |>);; mret seen
  | opt_consistent => upd_opt (fun o => o <| option_consistent := true |>);; mret seen
  | opt_uptodate => upd_opt (fun o => o <| option_uptodate := true |>);; mret seen
  | opt_peers_outdated => upd_opt (fun o => o <| option_peers_outdated := true |>);; mret seen
  | opt_rotate_uuids => upd_opt (fun o => o <| option_rotate_uuids := true |>);; mret seen
  | opt_var_lib_drbd _ => mret seen
  | opt_unknown => exit 20
  end.

Fixpoint process_options `{DrbdHeaders} (seen : option dump_fmt) (evs : list getopt_event) : M (option dump_fmt) :=
  match evs with
  | [] => mret seen
  | ev :: evs' => seen ← process_option seen ev; process_options seen evs'
  end.

(** ** The format *)

Definition v06_parse (lib_dir : string) (argv : list string) : M (option (list string)) :=
  match argv with
  | [] => exit 20
  | arg :: argv' =>
      let '(x, rest, _) := strtol arg 0 in
      let minor := u64 x in
      if negb (String.eqb rest "") || (255 <? minor) then exit 20
      else
        upd_cfg (fun c => c <| md_device_name := lib_dir +:+ "/drbd" +:+ show_u minor "" |>);;
        mret (Some argv')
  end.

(** The index: a name, or a number up to 255. *)
Definition parse_index `{DrbdHeaders} (c : format) (arg : string) : option Z :=
  if String.eqb arg "internal" then
    Some (if is_v07 c then DRBD_MD_INDEX_INTERNAL else DRBD_MD_INDEX_FLEX_INT)
  else if String.eqb arg "flex-external" then Some DRBD_MD_INDEX_FLEX_EXT
  else if String.eqb arg "flex-internal" then Some DRBD_MD_INDEX_FLEX_INT
  else
    let '(index, rest, errno) := strtol arg 0 in
    if negb (String.eqb rest "") || (index <? 0) || (255 <? index) || errno then None
    else Some index.

Definition v07_parse `{DrbdHeaders} (argv : list string) : M (option (list string)) :=
  match argv with
  | dev :: arg :: argv' =>
      upd_cfg (fun c => c <| md_device_name := dev |>);;
      c ← cfg;
      match parse_index c arg with
      | None => mret None
      | Some index => upd_cfg (fun c => c <| md_index := index |>);; mret (Some argv')
      end
  | _ => mret None
  end.

Definition format_of_name (name : string) : option md_format :=
  if String.eqb name "v06" then Some DRBD_V06
  else if String.eqb name "v07" then Some DRBD_V07
  else if String.eqb name "v08" then Some DRBD_V08
  else if String.eqb name "v09" then Some DRBD_V09
  else None.

(** The arguments that remain, or [None] if the format is not understood. *)
Definition parse_format `{DrbdHeaders} (lib_dir : string) (argv : list string) : M (option (list string)) :=
  match argv with
  | [] => mret None
  | name :: argv' =>
      match format_of_name name with
      | None => mret None
      | Some f =>
          upd_cfg (fun c => c <| ops := f |>);;
          match f with
          | DRBD_V06 => v06_parse lib_dir argv'
          | _ => v07_parse argv'
          end
      end
  end.

(** ** The commands *)

Record meta_cmd := mk_meta_cmd {
  cmd_name : string;
  cmd_function : meta_command;
  node_id_required : bool;
  modifies_md : bool
}.

Definition cmds : list meta_cmd :=
  [mk_meta_cmd "get-gi" get_gi true false;
   mk_meta_cmd "show-gi" show_gi true false;
   mk_meta_cmd "dump-md" dump_md false false;
   mk_meta_cmd "dump-superblock" dump_superblock false false;
   mk_meta_cmd "hexdump-superblock" hexdump_superblock false false;
   mk_meta_cmd "restore-md" restore_md false true;
   mk_meta_cmd "verify-dump" verify_dump false false;
   mk_meta_cmd "apply-al" apply_al_cmd false true;
   mk_meta_cmd "wipe-md" wipe_md false true;
   mk_meta_cmd "outdate" outdate false true;
   mk_meta_cmd "invalidate" invalidate false true;
   mk_meta_cmd "dstate" dstate false false;
   mk_meta_cmd "read-dev-uuid" read_dev_uuid false false;
   mk_meta_cmd "write-dev-uuid" write_dev_uuid false true;
   mk_meta_cmd "set-gi" set_gi true true;
   mk_meta_cmd "check-resize" check_resize false true;
   mk_meta_cmd "create-md" create_md false true;
   mk_meta_cmd "forget-peer" forget_peer true true;
   mk_meta_cmd "repair-md" repair_md false true].

Definition find_cmd (name : string) : option meta_cmd :=
  List.find (fun cmd => String.eqb (cmd_name cmd) name) cmds.

(** ** Is the minor in use? *)

(** What the run depends on besides the device: the names of the disk states (a
    table of the headers), [stat], the lock file, the output of drbdsetup with its
    exit code; for dumps time, host and command line, and the text of the dump
    to restore, which is standard input or the file that the arguments name. *)
Record system := mk_system {
  lib_dir : string;
  drbd_disk_state_names : list (option string);
  D_DISKLESS : Z;
  stat_drbd_minor : string -> option Z;        (* the minor, if a DRBD block device *)
  lock_granted : Z -> bool;
  drbdsetup_dstate : string -> Z * string;
  dump_header : string;
  dump_time : string;
  nodename : string;
  stdout_isatty : bool;
  dump_text : list string -> option string
}.

Definition dt_minor_of_dev (sys : system) (device : string) : Z :=
  let of_digits s := let '(m, _, errno) := strtol s 10 in if errno : bool then -1 else s32 m in
  if only_digits device then of_digits device
  else if String.prefix "/dev/drbd" device && only_digits (String.substring 9 (String.length device - 9) device)
  then of_digits (String.substring 9 (String.length device - 9) device)
  else default (-1) (stat_drbd_minor sys device).

(** Up to the slash. *)
Fixpoint before_slash (s : string) : string :=
  match s with
  | EmptyString => EmptyString
  | String c s' => if Ascii.eqb c "/" then EmptyString else String c (before_slash s')
  end.

Fixpoint find_state (p : string) (names : list (option string)) (n : Z) : option Z :=
  match names with
  | [] => None
  | Some name :: names' => if String.prefix p name then Some n else find_state p names' (n + 1)
  | None :: names' => find_state p names' (n + 1)
  end.

Definition drbd_str_disk (sys : system) (str : string) : M Z :=
  match find_state (before_slash str) (drbd_disk_state_names sys) 0 with
  | Some n => mret n
  | None => if String.eqb str "Unconfigured" then mret (D_DISKLESS sys) else exit 20
  end.

(** [minor_string] has room for six characters. *)
Definition minor_string (minor : Z) : string := String.substring 0 6 (show_d minor "").

Definition is_attached (sys : system) (minor : Z) : M bool :=
  let '(exitcode, result) := drbdsetup_dstate sys (minor_string minor) in
  if (exitcode =? 20) || (exitcode =? 10) then mret false
  else
    match String.length result with
    | O => exit 20
    | S n => s ← drbd_str_disk sys (String.substring 0 n result); mret (D_DISKLESS sys <? s)
    end.

(** A device that is in use must not be modified.  [cfg->minor] is unsigned: a
    minor that could not be determined does not end the program here. *)
Definition check_minor (sys : system) (drbd_dev_name : string) (cmd : meta_cmd) : M unit :=
  if String.eqb drbd_dev_name "-" then upd_cfg (fun c => c <| minor := u32 (-1) |>)
  else
    let m := u32 (dt_minor_of_dev sys drbd_dev_name) in
    upd_cfg (fun c => c <| minor := m |>);;
    if m <? 0 then exit 20
    else if negb (lock_granted sys (s32 m)) then exit 20
    else
      o ← opt;
      let modifies := if bool_decide (cmd_function cmd = repair_md) && dry_run o then false
                      else modifies_md cmd in
      minor_attached ← is_attached sys (s32 m);
      if (minor_attached : bool) && modifies then exit 20 else mret ().

(** ** The checks of the options *)

Definition only_with (ok : bool) (given : bool) : M unit := if given && negb ok then exit 10 else mret ().

Definition check_bm_block_size `{DrbdHeaders} (cmd : meta_cmd) : M unit :=
  o ← opt;
  c ← cfg;
  if option_bm_block_size o =? 0 then mret ()
  else if bool_decide (cmd_function cmd <> create_md) then exit 10
  else if negb (is_v09 c) then exit 10
  else if negb (is_power_of_2 (option_bm_block_size o)) ||
          (option_bm_block_size o <? BM_BLOCK_SIZE_MIN) || (BM_BLOCK_SIZE_MAX <? option_bm_block_size o)
  then exit 10
  else mret ().

Definition require_v09_create_md_option (cmd : meta_cmd) (option_set : bool) : M unit :=
  if negb option_set then mret ()
  else if bool_decide (cmd_function cmd <> create_md) then exit 10
  else
    c ← cfg;
    if negb (is_v09 c) then exit 10 else mret ().

Definition check_al_stripes : M unit :=
  o ← opt;
  if buffer_size / 4096 <? u64 (option_al_stripes o * option_al_stripe_size_4k o) then exit 10
  else if u32 (option_al_stripes o * option_al_stripe_size_4k o) <? 32 / 4 then exit 10
  else mret ().

Definition check_node_id (cmd : meta_cmd) : M unit :=
  o ← opt;
  c ← cfg;
  (if negb (option_node_id o =? -1) && negb (node_id_required cmd) then exit 10 else mret ());;
  when (negb (is_v09 c) && node_id_required cmd && (option_node_id o =? -1))
    (upd_opt (fun o => o <| option_node_id := 0 |>));;
  o ← opt;
  if (option_node_id o =? -1) && node_id_required cmd then exit 10 else mret ().

Definition check_options `{DrbdHeaders} (cmd : meta_cmd) (option_output_fmt_seen : bool) : M unit :=
  o ← opt;
  let only x := bool_decide (cmd_function cmd = x) in
  only_with (only dump_superblock) option_output_fmt_seen;;
  only_with (only create_md) (truth (option_peer_max_bio_size o));;
  check_bm_block_size cmd;;
  only_with (only create_md || only restore_md) (truth (option_al_stripes_used o));;
  only_with (only create_md) (truth (option_effective_size o));;
  only_with (only create_md) (truth (option_diskful_peer_mask o));;
  require_v09_create_md_option cmd (match option_initial_current_uuid o with Some _ => true | None => false end);;
  require_v09_create_md_option cmd (option_consistent o);;
  require_v09_create_md_option cmd (option_uptodate o);;
  require_v09_create_md_option cmd (option_peers_outdated o);;
  require_v09_create_md_option cmd (option_rotate_uuids o);;
  check_al_stripes;;
  check_node_id cmd.

(** ** main *)

Definition run_command `{DrbdHeaders} (sys : system) (fmt : dump_fmt) (c : meta_command) (argv : list string) : M Z :=
  match c with
  | get_gi => meta_get_gi
  | show_gi => meta_show_gi
  | dump_md => meta_dump_md (dump_header sys)
  | dump_superblock => meta_dump_superblock fmt (stdout_isatty sys) (dump_time sys) (nodename sys)
  | hexdump_superblock => meta_hex_dump_superblock
  | restore_md => meta_restore_md (dump_text sys argv)
  | verify_dump => meta_verify_dump_file (dump_text sys argv)
  | apply_al_cmd => meta_apply_al
  | wipe_md => meta_wipe_md
  | outdate => meta_outdate
  | invalidate => meta_invalidate
  | dstate => meta_dstate
  | read_dev_uuid => meta_read_dev_uuid
  | write_dev_uuid => meta_write_dev_uuid argv
  | set_gi => meta_set_gi argv
  | check_resize => meta_chk_offline_resize
  | create_md => meta_create_md argv
  | forget_peer => meta_forget_peer
  | repair_md => meta_repair_md
  end.

(** What follows the command's name: the checks, then the command. *)
Definition checked_command `{DrbdHeaders} (sys : system) (drbd_dev_name : string) (seen : option dump_fmt)
    (cmd : meta_cmd) (argv : list string) : M Z :=
  upd_opt (fun o => o <| command := cmd_function cmd |>);;
  check_minor sys drbd_dev_name cmd;;
  check_options cmd (match seen with Some _ => true | None => false end);;
  run_command sys (default DUMP_AUTO seen) (cmd_function cmd) argv.

(** [events] and [args] are what [getopt_long] makes of the [argc] arguments. *)
Definition main `{DrbdHeaders} (sys : system) (argc : Z) (events : list getopt_event) (args : list string) : M Z :=
  if argc <? 4 then exit 20
  else
    seen ← process_options None events;
    match args with
    | [] => exit 20
    | drbd_dev_name :: args =>
        rest ← parse_format (lib_dir sys) args;
        match rest with
        | None | Some [] => exit 20
        | Some (name :: argv) =>
            match find_cmd name with
            | None => exit 20
            | Some cmd => checked_command sys drbd_dev_name seen cmd argv
            end
        end
    end.
