(* ===== verification/Effects.v ===== *)
(** * What the commands do to the device

    Which commands leave the device alone, and that a dry run does.  Every
    operation keeps a relation on worlds that holds over the steps that do not
    write ([Passive]) and, as far as the operation writes, over write requests
    ([KeptByWrites]) and the initialization of the bitmap ([KeptByInit]). *)

From S2P Require Import Prelude Machine Headers SharedTool MetaData OnDisk Layout FsDetect GenId.
From S2P Require Import ActivityLog ApplyAl OpenMd InitMd Convert Resize Commands Create Scanner.
From S2P Require Import Restore Dump Main.
From Stdlib Require Import Ascii String.
From stdpp Require Import strings.

#[local] Open Scope Z_scope.

Class KeptByInit (R : world -> world -> Prop) := kept_initialize_bitmap : keeps R initialize_bitmap.

(** ** Opening, reading and closing *)

Section passive.
Context `{DrbdHeaders} {R : world -> world -> Prop} `{!Passive R}.

Lemma keeps_bm_bytes md s : keeps R (bm_bytes md s).
Proof. unfold bm_bytes. keeps. Qed.
#[local] Hint Resolve keeps_bm_bytes : keeps.

Lemma keeps_is_valid_md f md idx s : keeps R (is_valid_md f md idx s).
Proof. unfold is_valid_md. keeps. Qed.

Lemma keeps_max_usable_sectors : keeps R max_usable_sectors.
Proof. unfold max_usable_sectors. keeps. Qed.
#[local] Hint Resolve keeps_is_valid_md keeps_max_usable_sectors : keeps.

Lemma keeps_re_initialize : keeps R re_initialize_md_offsets.
Proof. unfold re_initialize_md_offsets. keeps. Qed.

Lemma keeps_clip : keeps R clip_effective_size_and_bm_bytes.
Proof. unfold clip_effective_size_and_bm_bytes. keeps. Qed.
#[local] Hint Resolve keeps_re_initialize keeps_clip : keeps.

Lemma keeps_open_retry errs o_excl o_direct : keeps R (open_retry errs o_excl o_direct).
Proof.
  revert o_excl o_direct. induction errs as [|e errs IH]; intros; cbn [open_retry]; unfold cancelled; keeps.
Qed.
#[local] Hint Resolve keeps_open_retry : keeps.

Lemma keeps_open_device : keeps R v07_style_md_open_device.
Proof. unfold v07_style_md_open_device. keeps. Qed.

Lemma keeps_read_super_block f size g : keeps R (read_super_block f size g).
Proof. unfold read_super_block. keeps. Qed.
#[local] Hint Resolve keeps_open_device keeps_read_super_block : keeps.

Lemma keeps_md_disk_to_cpu : keeps R md_disk_to_cpu.
Proof.
  unfold md_disk_to_cpu, v06_md_disk_to_cpu, v07_md_disk_to_cpu, v08_md_disk_to_cpu, v09_md_disk_to_cpu.
  keeps.
Qed.
#[local] Hint Resolve keeps_md_disk_to_cpu : keeps.

Lemma keeps_check_for_resize : keeps R v08_check_for_resize.
Proof. unfold v08_check_for_resize. keeps. Qed.
#[local] Hint Resolve keeps_check_for_resize : keeps.

Lemma keeps_md_open : keeps R md_open.
Proof. unfold md_open, v06_md_open, v08_md_open, v07_style_md_open. keeps. Qed.

Lemma keeps_md_close : keeps R md_close.
Proof. unfold md_close, v08_md_close. keeps. Qed.

Lemma keeps_check_for_existing_data : keeps R check_for_existing_data.
Proof. unfold check_for_existing_data, refuse_unless_ignored, ask_to_proceed. keeps. Qed.
End passive.

#[export] Hint Resolve keeps_bm_bytes keeps_is_valid_md keeps_max_usable_sectors keeps_re_initialize
  keeps_clip keeps_md_disk_to_cpu keeps_md_open keeps_md_close keeps_check_for_existing_data : keeps.

(** ** The commands that only read *)

Section readers.
Context `{DrbdHeaders} {R : world -> world -> Prop} `{!Passive R}.

Lemma keeps_with_open k : keeps R k -> keeps R (with_open k).
Proof. intros. unfold with_open. keeps. Qed.

Lemma keeps_get_gi_op f md node : keeps R (get_gi_op f md node).
Proof. unfold get_gi_op, m_get_gc, m_get_uuid, m_get_v9_uuid. keeps. Qed.
#[local] Hint Resolve keeps_with_open keeps_get_gi_op : keeps.

Lemma keeps_meta_get_gi : keeps R meta_get_gi.
Proof. unfold meta_get_gi. apply keeps_with_open. keeps. Qed.

Lemma keeps_meta_show_gi : keeps R meta_show_gi.
Proof. unfold meta_show_gi, show_gi_op. apply keeps_with_open. keeps. Qed.

Lemma keeps_meta_dstate : keeps R meta_dstate.
Proof. unfold meta_dstate. apply keeps_with_open. keeps. Qed.

Lemma keeps_meta_read_dev_uuid : keeps R meta_read_dev_uuid.
Proof. unfold meta_read_dev_uuid. apply keeps_with_open. keeps. Qed.

Lemma keeps_bm_loop c p n l s : keeps R (bm_loop c p n l s).
Proof.
  revert l s. induction n as [|n IH]; intros; cbn [bm_loop]; unfold bm_read, bm_emit, fprintf_bm_eol; keeps.
Qed.
#[local] Hint Resolve keeps_bm_loop : keeps.

Lemma keeps_fprintf_bm c p : keeps R (fprintf_bm c p).
Proof. unfold fprintf_bm. keeps. Qed.
#[local] Hint Resolve keeps_fprintf_bm : keeps.

Lemma keeps_printf_bm_peers l : keeps R (printf_bm_peers l).
Proof. induction l; cbn [printf_bm_peers]; keeps. Qed.
#[local] Hint Resolve keeps_printf_bm_peers : keeps.

Lemma keeps_meta_dump_md header : keeps R (meta_dump_md header).
Proof. unfold meta_dump_md, dump_last_known, printf_bm. keeps. Qed.

Lemma keeps_upd_force : keeps R (upd_opt (fun o => o <| force := true |>)).
Proof. by apply passive_modify. Qed.
#[local] Hint Resolve keeps_upd_force : keeps.

Lemma keeps_generic_dump impl :
  (forall b pos off rc, keeps R (impl b pos off rc)) -> keeps R (meta_generic_dump_superblock impl).
Proof. intros. unfold meta_generic_dump_superblock. keeps. Qed.

Lemma keeps_hex_dump b pos off rc : keeps R (hex_dump_buffer b pos off rc).
Proof. unfold hex_dump_buffer. keeps. Qed.

Lemma keeps_meta_hex_dump : keeps R meta_hex_dump_superblock.
Proof. unfold meta_hex_dump_superblock. apply keeps_generic_dump, keeps_hex_dump. Qed.

Lemma keeps_meta_dump_superblock fmt tty t n : keeps R (meta_dump_superblock fmt tty t n).
Proof.
  unfold meta_dump_superblock. apply keeps_generic_dump. intros b pos off rc.
  unfold json_dump_buffer, json_looks_like, hex_dump_buffer, binary_dump_buffer.
  destruct fmt; [destruct tty|..]; keeps.
Qed.
End readers.

(** ** The parser of dumps *)

Section parser.
Context `{DrbdHeaders} {R : world -> world -> Prop} `{!Passive R}.

Lemma keepsP_error {A} : keepsP R (parse_error : P A).
Proof. intros ts. unfold parse_error. apply keeps_exit. typeclasses eauto. Qed.

Lemma keepsP_next : keepsP R next_token.
Proof. intros [|t ts]; unfold next_token; apply keeps_ret; typeclasses eauto. Qed.

Lemma keepsP_set_md f : keepsP R (set_md f).
Proof. apply keepsP_lift. keeps. Qed.
End parser.

Create HintDb keepsP.
#[export] Hint Resolve keepsP_ret keepsP_error keepsP_next keepsP_set_md : keepsP.

(** As [keeps], for parsers. *)
Ltac keepsP :=
  repeat lazymatch goal with
    | |- keepsP ?R (mbind _ _) => apply keepsP_bind; [|intros ?]
    | |- keepsP ?R (if ?b then _ else _) => destruct b
    | |- keepsP ?R (match ?x with _ => _ end) => destruct x
    | |- keepsP ?R (lift cfg) => apply keepsP_lift; unfold cfg; keeps
    | |- keepsP ?R (lift (exit _)) => apply keepsP_lift; keeps
    | |- keepsP ?R _ => first [solve [eauto with keepsP typeclass_instances] | fail]
    end.

Section parser.
Context `{DrbdHeaders} {R : world -> world -> Prop} `{!Passive R}.

Lemma keepsP_EXP_op c : keepsP R (EXP_op c).
Proof. unfold EXP_op. keepsP. Qed.
Lemma keepsP_EXP_kw k : keepsP R (EXP_kw k).
Proof. unfold EXP_kw. keepsP. Qed.
Lemma keepsP_EXP_num : keepsP R EXP_num.
Proof. unfold EXP_num. keepsP. Qed.
Lemma keepsP_EXP_u64 : keepsP R EXP_u64.
Proof. unfold EXP_u64. keepsP. Qed.
Lemma keepsP_EXP_u32 : keepsP R EXP_u32.
Proof. unfold EXP_u32. keepsP. Qed.
Lemma keepsP_EXP_string : keepsP R EXP_string.
Proof. unfold EXP_string. keepsP. Qed.
Lemma keepsP_EXP_eof : keepsP R EXP_eof.
Proof. unfold EXP_eof. keepsP. Qed.
#[local] Hint Resolve keepsP_EXP_op keepsP_EXP_kw keepsP_EXP_num keepsP_EXP_u64 keepsP_EXP_u32
  keepsP_EXP_string keepsP_EXP_eof : keepsP.

Lemma keepsP_semicolon {A} (p : P A) : keepsP R p -> keepsP R (semicolon p).
Proof. intros. unfold semicolon. keepsP. Qed.
#[local] Hint Resolve keepsP_semicolon : keepsP.

Lemma keepsP_num_field k : keepsP R (num_field k).
Proof. unfold num_field. keepsP. Qed.
Lemma keepsP_u64_field k : keepsP R (u64_field k).
Proof. unfold u64_field. keepsP. Qed.
Lemma keepsP_u32_field k : keepsP R (u32_field k).
Proof. unfold u32_field. keepsP. Qed.
#[local] Hint Resolve keepsP_num_field keepsP_u64_field keepsP_u32_field : keepsP.

Lemma keepsP_array p set l : keepsP R p -> keepsP R (parse_array p set l).
Proof. intros. induction l; cbn [parse_array]; keepsP. Qed.
#[local] Hint Resolve keepsP_array : keepsP.

Lemma keepsP_parse_peers n have seen : keepsP R (parse_peers n have seen).
Proof.
  revert have seen. induction n as [|n IH]; intros; cbn [parse_peers]; unfold parse_peer; keepsP.
Qed.
#[local] Hint Resolve keepsP_parse_peers : keepsP.

Lemma keepsP_parse_super_block : keepsP R parse_super_block.
Proof.
  unfold parse_super_block, parse_gc, parse_uuids_08, parse_uuids_09, parse_sizes_08. keepsP.
Qed.

Lemma keepsP_parse_version : keepsP R parse_version.
Proof. unfold parse_version. keepsP. Qed.

Lemma keeps_assign_64 i v mp : keeps R (assign_64 i v mp).
Proof. unfold assign_64, assign_32_of_64bit. keeps. Qed.
#[local] Hint Resolve keeps_assign_64 : keeps.

Lemma keeps_assign_times n i v mp : keeps R (assign_times n i v mp).
Proof. revert i. induction n; intros; cbn [assign_times]; keeps. Qed.
#[local] Hint Resolve keeps_assign_times keeps_assign_64 : keeps.

Lemma keepsP_parse_entries n i mp po : keepsP R (parse_entries n i mp po).
Proof.
  revert i. induction n as [|n IH]; intros; cbn [parse_entries]; [apply keepsP_lift; keeps|].
  keepsP; apply keepsP_lift; keeps.
Qed.

Lemma keepsP_one_peer window peer po : keepsP R (parse_bitmap_window_one_peer window peer po).
Proof.
  unfold parse_bitmap_window_one_peer. keepsP. intros ts. apply keepsP_parse_entries.
Qed.
#[local] Hint Resolve keepsP_one_peer : keepsP.

Lemma keepsP_bitmap_peers l window words po : keepsP R (parse_bitmap_peers l window words po).
Proof. revert words. induction l; intros; cbn [parse_bitmap_peers]; keepsP. Qed.
#[local] Hint Resolve keepsP_bitmap_peers : keepsP.

Lemma keepsP_bitmap_window window po : keepsP R (parse_bitmap_window window po).
Proof. unfold parse_bitmap_window. keepsP. Qed.

Lemma keeps_write_window_parse_only window words off : keeps R (write_window window words off true).
Proof. unfold write_window. keeps. Qed.

(** [po]: only parsing, or [R] is kept by writes. *)
Lemma keepsP_parse_bitmap (po : bool) :
  (forall window words off, keeps R (write_window window words off po)) -> keepsP R (parse_bitmap po).
Proof.
  intros Hw. unfold parse_bitmap. apply keepsP_bind; [apply keepsP_lift; unfold cfg; keeps|]. intros c ts.
  generalize 0 at 1. generalize false. generalize 2%nat. intros n.
  induction n as [|n IH]; intros tr window; cbn [parse_bitmap_loop]; [keeps|].
  apply keeps_bind; [typeclasses eauto|apply keepsP_bitmap_window|]. intros [words ts'].
  apply keeps_bind; [typeclasses eauto|destruct (_ && _); [apply Hw|keeps]|]. intros tr'.
  destruct (words =? buffer_words); [apply IH|keeps].
Qed.

Lemma keeps_md_initialize_parse peers : keeps R (md_initialize false peers).
Proof.
  unfold md_initialize, v06_md_initialize, v07_md_initialize, v08_md_initialize, v09_md_initialize,
    md_initialize_common. cbn [negb]. keeps.
Qed.

Lemma keepsP_restore_dump old (po : bool) :
  (forall window words off, keeps R (write_window window words off po)) -> keepsP R (restore_dump old po).
Proof.
  intros Hw. unfold restore_dump, restore_checks, adjust_striping.
  apply keepsP_bind; [apply keepsP_parse_version|intros peers].
  apply keepsP_bind; [apply keepsP_lift, keeps_md_initialize_parse|intros _].
  apply keepsP_bind; [destruct po; [apply keepsP_ret|apply keepsP_lift; keeps]|intros []].
  apply keepsP_bind; [apply keepsP_parse_super_block|intros []].
  apply keepsP_bind; [apply keepsP_lift; keeps|intros []].
  apply keepsP_bind; [apply keepsP_lift; keeps|intros []].
  apply keepsP_bind; [by apply keepsP_parse_bitmap|intros []]. apply keepsP_EXP_eof.
Qed.

Lemma keeps_meta_verify_dump_file dump : keeps R (meta_verify_dump_file dump).
Proof.
  unfold meta_verify_dump_file, verify_dumpfile_or_restore. keeps.
  apply keepsP_restore_dump, keeps_write_window_parse_only.
Qed.
End parser.

(** ** The commands that write *)

Section writers.
Context `{DrbdHeaders} {R : world -> world -> Prop} `{!Passive R, !KeptByWrites R}.

Lemma keeps_write_super_block f size g u : keeps R (write_super_block f size g u).
Proof. unfold write_super_block. keeps. Qed.
#[local] Hint Resolve keeps_write_super_block : keeps.

Lemma keeps_md_cpu_to_disk : keeps R md_cpu_to_disk.
Proof.
  unfold md_cpu_to_disk, v06_md_cpu_to_disk, v07_md_cpu_to_disk, v08_md_cpu_to_disk, v09_md_cpu_to_disk.
  keeps.
Qed.
#[local] Hint Resolve keeps_md_cpu_to_disk : keeps.

Lemma keeps_write_and_close : keeps R write_and_close.
Proof. unfold write_and_close. keeps. Qed.
#[local] Hint Resolve keeps_write_and_close keeps_with_open keeps_get_gi_op : keeps.

Definition keeps_setter (f : setter) : Prop := forall s md, keeps R (f s md).

Lemma keeps_run_setters l s md : Forall keeps_setter l -> keeps R (run_setters l s md).
Proof.
  intros Hl. revert s md. induction Hl as [|f l Hf Hl IH]; intros s md; cbn [run_setters]; [keeps|].
  apply keeps_bind; [typeclasses eauto|apply Hf|]. intros [[s' md'] more].
  destruct more; [apply IH|keeps].
Qed.

Lemma keeps_strsep base max s v : keeps R (m_strsep base max s v).
Proof. unfold m_strsep, token_number. keeps. Qed.

Lemma keeps_strsep_bit mask s v : keeps R (m_strsep_bit s v mask).
Proof. unfold m_strsep_bit, m_strsep_u32. apply keeps_bind; [typeclasses eauto|apply keeps_strsep|]. intros [[]]. keeps. Qed.

Lemma keeps_set_field p get set : (forall s v, keeps R (p s v)) -> keeps_setter (set_field p get set).
Proof. intros Hp s md. unfold set_field. apply keeps_bind; [typeclasses eauto|apply Hp|]. intros [[]]. keeps. Qed.

(** Every step of the [set_gi] functions is one of these. *)
Ltac setter := apply keeps_set_field; intros; first [apply keeps_strsep | apply keeps_strsep_bit].

Lemma keeps_flag_setters l : Forall keeps_setter (set_flag <$> l).
Proof. apply Forall_fmap, Forall_true. intros. setter. Qed.

Lemma keeps_peer_flag_setters node l : Forall keeps_setter (set_peer_flag node <$> l).
Proof. apply Forall_fmap, Forall_true. intros. setter. Qed.

Lemma keeps_uuid_setters node l :
  Forall keeps_setter l ->
  Forall keeps_setter ([set_current; set_bitmap node; set_history_uuid 0; set_history_uuid 1] ++ l).
Proof. intros Hl. cbn. repeat (apply Forall_cons; split; [setter|]). done. Qed.

Lemma keeps_set_gi_op f node arg md : keeps R (set_gi_op f node arg md).
Proof.
  assert (Hgc : keeps R (m_set_gc arg md)).
  { apply keeps_run_setters. repeat (apply Forall_cons; split; [setter|]). done. }
  destruct f; cbn [set_gi_op]; try done; apply keeps_run_setters, keeps_uuid_setters;
    try apply Forall_app; try split; try apply keeps_flag_setters; apply keeps_peer_flag_setters.
Qed.
#[local] Hint Resolve keeps_set_gi_op : keeps.

Lemma keeps_meta_set_gi argv : keeps R (meta_set_gi argv).
Proof. unfold meta_set_gi. destruct argv; [keeps|]. apply keeps_with_open. keeps. Qed.

Lemma keeps_meta_outdate : keeps R meta_outdate.
Proof. unfold meta_outdate. apply keeps_with_open. keeps. Qed.

Lemma keeps_meta_invalidate : keeps R meta_invalidate.
Proof. unfold meta_invalidate. apply keeps_with_open. keeps. Qed.

Lemma keeps_meta_write_dev_uuid argv : keeps R (meta_write_dev_uuid argv).
Proof. unfold meta_write_dev_uuid. destruct argv; [keeps|]. apply keeps_with_open. keeps. Qed.

Lemma keeps_meta_wipe_md : keeps R meta_wipe_md.
Proof. unfold meta_wipe_md, cancel1. keeps. Qed.

Lemma keeps_move_bitmap_loop n a b o : keeps R (move_bitmap_loop n a b o).
Proof. revert o. induction n; intros; cbn [move_bitmap_loop]; keeps. Qed.

Lemma keeps_fill before byte off end_ : (forall o, keeps R (before o)) -> keeps R (fill before byte off end_).
Proof.
  intros Hb. unfold fill. apply keeps_bind; [typeclasses eauto|keeps|]. intros _.
  generalize (S (chunk_fuel (end_ - off))). intros n. revert off.
  induction n; intros; cbn [fill_loop]; keeps.
Qed.
#[local] Hint Resolve keeps_move_bitmap_loop keeps_fill : keeps.

Lemma keeps_move_after_resize : keeps R v08_move_internal_md_after_resize.
Proof.
  unfold v08_move_internal_md_after_resize, move_al, move_bitmap, init_trailing_bitmap, wipe_old_area.
  keeps; apply keeps_fill; intros; keeps.
Qed.
#[local] Hint Resolve keeps_move_after_resize : keeps.

Lemma keeps_meta_chk_offline_resize : keeps R meta_chk_offline_resize.
Proof. unfold meta_chk_offline_resize. keeps. Qed.

Lemma keeps_meta_forget_peer : keeps R meta_forget_peer.
Proof. unfold meta_forget_peer. apply keeps_with_open. keeps. Qed.

Lemma keeps_meta_repair_md : keeps R meta_repair_md.
Proof. unfold meta_repair_md. keeps. Qed.

Lemma keeps_meta_restore_md dump : keeps R (meta_restore_md dump).
Proof.
  unfold meta_restore_md, verify_dumpfile_or_restore, restore_open. keeps.
  apply keepsP_restore_dump. intros. unfold write_window, pwrite_with_limit_or_die. keeps.
Qed.

(** *** The activity log *)

Lemma keeps_replay_al : keeps R replay_al.
Proof. unfold replay_al, replay_al_07, replay_al_84, replay_al_pmem. keeps. Qed.

Lemma keeps_change_bits l bpe mp pos chunk add : keeps R (change_bits l bpe mp pos chunk add).
Proof. revert add. induction l as [|enr l IH]; intros; cbn [change_bits]; keeps. Qed.
#[local] Hint Resolve keeps_change_bits : keeps.

Lemma keeps_apply_al_loop n bm bpe mp l i add : keeps R (apply_al_loop n bm bpe mp l i add).
Proof.
  revert l i add. induction n as [|n IH]; intros; cbn [apply_al_loop]; keeps.
Qed.
#[local] Hint Resolve keeps_replay_al keeps_apply_al_loop : keeps.

Lemma keeps_apply_al hot : keeps R (apply_al hot).
Proof. unfold apply_al. keeps. Qed.

Lemma keeps_initialize_al : keeps R initialize_al.
Proof. unfold initialize_al. keeps. Qed.
#[local] Hint Resolve keeps_apply_al keeps_initialize_al : keeps.

Lemma keeps_meta_apply_al : keeps R meta_apply_al.
Proof. unfold meta_apply_al, apply_and_reset, mark_al_clean. keeps. Qed.

(** *** Creating meta data *)

Lemma keeps_conversion_done f : keeps R (conversion_done f).
Proof. unfold conversion_done. keeps. Qed.
#[local] Hint Resolve keeps_conversion_done : keeps.

Lemma keeps_convert_md from : keeps R (convert_md from).
Proof.
  unfold convert_md, md_convert_07_to_08, md_convert_08_to_07, md_convert_08_to_09, md_convert_09_to_08.
  keeps.
Qed.
#[local] Hint Resolve keeps_convert_md : keeps.

Lemma keeps_detect_md size idx : keeps R (detect_md size idx).
Proof. unfold detect_md, detect_one. keeps. Qed.

Lemma keeps_convert_or_replace have md : keeps R (convert_or_replace have md).
Proof. unfold convert_or_replace, cancel1. keeps. Qed.
#[local] Hint Resolve keeps_detect_md keeps_convert_or_replace : keeps.

Lemma keeps_check_internal : keeps R check_internal_md_flavours.
Proof. unfold check_internal_md_flavours, find_internal, overwrite_same, cancel1. keeps. Qed.

Lemma keeps_check_external : keeps R check_external_md_flavours.
Proof. unfold check_external_md_flavours, cancel1. keeps. Qed.

Lemma keeps_wipe_after_convert : keeps R wipe_after_convert.
Proof. unfold wipe_after_convert. keeps. Qed.
#[local] Hint Resolve keeps_check_internal keeps_check_external keeps_wipe_after_convert : keeps.

Lemma keeps_md_initialize `{!KeptByInit R} do_disk_writes peers : keeps R (md_initialize do_disk_writes peers).
Proof.
  assert (keeps R initialize_bitmap) by done.
  unfold md_initialize, v06_md_initialize, v07_md_initialize, v08_md_initialize, v09_md_initialize,
    md_initialize_common. keeps.
Qed.
#[local] Hint Resolve keeps_md_initialize : keeps.

Lemma keeps_create_initial_state : keeps R create_initial_state.
Proof.
  unfold create_initial_state, initial_current_uuid, ensure_current_uuid, rotate_uuids, ensure_current_uuid.
  keeps.
Qed.
#[local] Hint Resolve keeps_create_initial_state : keeps.

Lemma keeps_meta_create_md `{!KeptByInit R} argv : keeps R (meta_create_md argv).
Proof.
  unfold meta_create_md, create_max_peers, strtoll_or_die, create_from_last_known, create_or_convert,
    create_write. keeps.
Qed.
End writers.

(** ** All commands *)

#[export] Hint Resolve keeps_meta_get_gi keeps_meta_show_gi keeps_meta_dump_md keeps_meta_dump_superblock
  keeps_meta_hex_dump keeps_meta_verify_dump_file keeps_meta_dstate keeps_meta_read_dev_uuid
  keeps_meta_restore_md keeps_meta_apply_al keeps_meta_wipe_md keeps_meta_outdate keeps_meta_invalidate
  keeps_meta_write_dev_uuid keeps_meta_set_gi keeps_meta_chk_offline_resize keeps_meta_create_md
  keeps_meta_forget_peer keeps_meta_repair_md : keeps.

(** Those that the table of the commands says do not modify meta data. *)
Lemma keeps_reader `{DrbdHeaders} {R} `{!Passive R} sys fmt cmd argv :
  cmd ∈ cmds -> modifies_md cmd = false -> keeps R (run_command sys fmt (cmd_function cmd) argv).
Proof.
  intros Hc Hm. unfold cmds in Hc.
  repeat (apply elem_of_cons in Hc as [->|Hc];
          [first [discriminate Hm | cbn [cmd_function run_command]; auto with keeps]|]).
  by apply not_elem_of_nil in Hc.
Qed.

Lemma keeps_run_command `{DrbdHeaders} {R} `{!Passive R, !KeptByWrites R, !KeptByInit R} sys fmt c argv :
  keeps R (run_command sys fmt c argv).
Proof. destruct c; cbn [run_command]; auto with keeps. Qed.

(** ** Dry runs *)

(** The bitmap is initialized by write requests only. *)
Definition no_ioctl (o : options) : Prop :=
  option_initialize_bitmap_mode o <> IBM_ZEROOUT /\ option_initialize_bitmap_mode o <> IBM_ZEROOUT_IOCTL_ONLY.

Definition dry_no_ioctl (w w' : world) : Prop :=
  dry_run (w_opt w) = true -> no_ioctl (w_opt w) ->
  dry_run (w_opt w') = true /\ no_ioctl (w_opt w') /\ w_dev w' = w_dev w.

#[export] Instance dry_no_ioctl_passive : Passive dry_no_ioctl.
Proof.
  split; [split|].
  - by intros w Hd Hm.
  - intros w1 w2 w3 H12 H23 Hd Hm. destruct (H12 Hd Hm) as (Hd2 & Hm2 & <-).
    destruct (H23 Hd2 Hm2) as (Hd3 & Hm3 & <-). done.
  - intros w w' (Hdev & Hdry & Hmode) Hd Hm. unfold no_ioctl. rewrite Hmode. split; [congruence|by split].
Qed.

#[export] Instance dry_no_ioctl_writes : KeptByWrites dry_no_ioctl.
Proof.
  intros src count offset w Hd Hm. rewrite pwrite_or_die_run. destruct (write_allowed _ _ _); [|done].
  by rewrite Hd.
Qed.

Lemma keeps_init_bitmap_pwrite {R} `{!Passive R, !KeptByWrites R} c : keeps R (init_bitmap_pwrite c).
Proof.
  unfold init_bitmap_pwrite. keeps. generalize (chunks (ALIGN (cfg_bm_bytes a) (md_hard_sect_size a)) buffer_size).
  intros n. generalize (s64 (cfg_bm_offset a)). generalize (ALIGN (cfg_bm_bytes a) (md_hard_sect_size a)).
  induction n; intros; cbn [init_bitmap_loop]; keeps.
Qed.

#[export] Instance dry_no_ioctl_init : KeptByInit dry_no_ioctl.
Proof.
  intros w Hd Hm. unfold initialize_bitmap. rewrite bind_opt. pose proof Hm as [Hz Hi].
  destruct (option_initialize_bitmap_mode (w_opt w)); try done;
    by apply (keeps_init_bitmap_pwrite (R := dry_no_ioctl)).
Qed.

(** All commands but create-md initialize no bitmap. *)
Lemma keeps_no_create `{DrbdHeaders} {R} `{!Passive R, !KeptByWrites R} sys fmt c argv :
  c <> create_md -> keeps R (run_command sys fmt c argv).
Proof. intros Hc. destruct c; cbn [run_command]; auto with keeps. done. Qed.

(** C15: with --dry-run no command changes a byte of the meta data device, unless
    it is create-md with a bitmap initialization by BLKZEROOUT, the default, which
    is issued in a dry run as well.  This is about the device only: the file with
    the device that was last seen is deleted by wipe-md and check-resize in a dry
    run, too ([dry_run_deletes_file]). *)
Theorem dry_run_leaves_device `{DrbdHeaders} sys fmt c argv w :
  dry_run (w_opt w) = true ->
  (c = create_md -> no_ioctl (w_opt w)) ->
  w_dev (run_command sys fmt c argv w).2 = w_dev w.
Proof.
  intros Hd Hc. destruct (decide (c = create_md)) as [->|Hne].
  - apply (keeps_run_command (R := dry_no_ioctl)); auto.
  - by apply (keeps_no_create (R := dry)).
Qed.

Lemma dry_run_leaves_device_witness :
  let w := blank_world DRBD_V09 create_md zero_mem (2 ^ 20)
             <| w_opt := default_options create_md <| dry_run := true |>
                           <| option_initialize_bitmap_mode := IBM_SET_ALL |> |> in
  let sys := mk_system "" [] 0 (fun _ => None) (fun _ => true) (fun _ => (10, "")) "" "" "" false (fun _ => None) in
  dry_run (w_opt w) = true /\ no_ioctl (w_opt w) /\
  w_dev (run_command sys DUMP_AUTO create_md ["1"] w).2 = w_dev w.
Proof.
  intros w sys. split; [done|]. split; [by split|].
  apply (dry_run_leaves_device sys DUMP_AUTO create_md ["1"] w); [done|]. by intros _.
Defined.

(** the commands that the table does not mark as modifying meta data change
    no byte of the device, whatever the meta data, the options and the answers of
    the system. *)
Theorem readers_leave_device `{DrbdHeaders} sys fmt cmd argv w :
  cmd ∈ cmds -> modifies_md cmd = false ->
  w_dev (run_command sys fmt (cmd_function cmd) argv w).2 = w_dev w.
Proof. intros Hc Hm. by apply (keeps_reader (R := same_content)). Qed.

Lemma readers_leave_device_witness :
  let w := blank_world DRBD_V09 dump_md zero_mem (2 ^ 20) in
  let sys := mk_system "" [] 0 (fun _ => None) (fun _ => true) (fun _ => (10, "")) "" "" "" false (fun _ => None) in
  let cmd := mk_meta_cmd "dump-md" dump_md false false in
  cmd ∈ cmds /\ w_dev (run_command sys DUMP_AUTO (cmd_function cmd) [] w).2 = w_dev w.
Proof.
  intros w sys cmd. assert (Hc : cmd ∈ cmds) by (do 2 (apply elem_of_cons; right); by apply elem_of_cons; left).
  split; [exact Hc|]. exact (readers_leave_device sys DUMP_AUTO cmd [] w Hc eq_refl).
Defined.

(** ** A device in use *)

#[export] Instance bystander_passive : Passive bystander.
Proof. split; [typeclasses eauto|done]. Qed.

Lemma bind_changed {A B} (m : M A) (k : A -> M B) w :
  keeps same_content m -> w_dev ((m ≫= k) w).2 <> w_dev w ->
  exists a w1, m w = (Ok a, w1) /\ w_dev w1 = w_dev w /\ w_dev (k a w1).2 <> w_dev w1.
Proof.
  intros Hm. specialize (Hm w). unfold mbind, M_bind, same_content in *.
  destruct (m w) as [[a|c| |] w1]; cbn in *; try done. intros Hne. exists a, w1. split_and!; congruence.
Qed.

Lemma keeps_content_upd_opt f : keeps same_content (upd_opt f).
Proof. by intros w. Qed.
#[local] Hint Resolve keeps_content_upd_opt : keeps.

Section in_use.
Context `{DrbdHeaders}.

Lemma keeps_content_process_options seen evs : keeps same_content (process_options seen evs).
Proof.
  revert seen. induction evs as [|ev evs IH]; intros; cbn [process_options]; [keeps|].
  apply keeps_bind; [typeclasses eauto| |done].
  destruct ev; cbn [process_option]; unfold strtoll_or_die, check_ibm_arg, output_format; keeps.
  unfold node_mask_from_arg. keeps; generalize 0.
  all: match goal with |- context [node_list ?n _ ?s] => generalize n; intros k; generalize s; induction k end.
  all: intros; cbn [node_list]; keeps.
Qed.

Lemma keeps_content_parse_format dir argv : keeps same_content (parse_format dir argv).
Proof. unfold parse_format, v06_parse, v07_parse. keeps. Qed.

Lemma is_attached_any sys m : exists r, forall w, is_attached sys m w = (r, w).
Proof.
  unfold is_attached, drbd_str_disk. destruct (drbdsetup_dstate sys (minor_string m)) as [code result].
  destruct (_ || _); [by eexists|]. destruct (String.length result); [by eexists|].
  destruct (find_state _ _ _); [by eexists|]. destruct (String.eqb _ _); by eexists.
Qed.

Lemma keeps_is_attached {R} `{!Passive R} sys m : keeps R (is_attached sys m).
Proof. unfold is_attached, drbd_str_disk. keeps. Qed.
#[local] Hint Resolve keeps_is_attached : keeps.

Lemma keeps_check_minor {R} `{!Passive R} sys name cmd : keeps R (check_minor sys name cmd).
Proof. unfold check_minor. keeps. Qed.

Lemma bystander_check_options cmd seen : keeps bystander (check_options cmd seen).
Proof.
  unfold check_options, only_with, check_bm_block_size, require_v09_create_md_option, check_al_stripes,
    check_node_id. keeps. apply passive_modify. done.
Qed.

(** A command starts on a device that it may modify only if the device is not in
    use. *)
Lemma check_minor_ok sys name cmd w w' :
  check_minor sys name cmd w = (Ok (), w') -> name <> "-" ->
  modifies_md cmd = true -> ~ (cmd_function cmd = repair_md /\ dry_run (w_opt w) = true) ->
  forall w0, (is_attached sys (s32 (u32 (dt_minor_of_dev sys name))) w0).1 = Ok false.
Proof.
  intros Hr Hn Hm Hd w0. unfold check_minor in Hr.
  destruct (String.eqb_spec name "-"); [done|]. run_in Hr.
  destruct (u32 _ <? 0); [discriminate|]. destruct (negb (lock_granted _ _)); [discriminate|].
  destruct (is_attached_any sys (s32 (u32 (dt_minor_of_dev sys name)))) as [r Ha]. rewrite Ha. cbn.
  run_in Hr. apply bind_inv in Hr as (att & w1 & Hi & Hr). rewrite Ha in Hi. apply (f_equal fst) in Hi. cbn [fst] in Hi. subst r.
  destruct att; [|done].
  assert (bool_decide (cmd_function cmd = repair_md) && dry_run (w_opt w) = false) as Hb.
  { apply not_true_iff_false. rewrite andb_true_iff, bool_decide_eq_true. done. }
  rewrite Hb, Hm in Hr. discriminate.
Qed.

(** A device that is changed was not reported to be in use. *)
Lemma changed_not_attached sys argc events name args w :
  name <> "-" ->
  w_dev (main sys argc events (name :: args) w).2 <> w_dev w ->
  forall w0, (is_attached sys (s32 (u32 (dt_minor_of_dev sys name))) w0).1 = Ok false.
Proof.
  intros Hn. unfold main. destruct (argc <? 4); [done|]. intros Hne.
  apply bind_changed in Hne as (seen & w1 & _ & _ & Hne); [|apply keeps_content_process_options].
  apply bind_changed in Hne as (rest & w2 & _ & _ & Hne); [|apply keeps_content_parse_format].
  destruct rest as [[|cname argv]|]; [done| |done].
  destruct (find_cmd cname) as [cmd|] eqn:Hf; [|done]. apply find_some in Hf as [Hin _].
  apply list_elem_of_In in Hin. unfold checked_command in Hne.
  apply bind_changed in Hne as ([] & w3 & _ & _ & Hne); [|apply keeps_content_upd_opt].
  apply bind_changed in Hne as ([] & w4 & Hc & _ & Hne); [|apply keeps_check_minor].
  pose proof (keeps_check_minor (R := bystander) sys name cmd w3) as Hb. rewrite Hc in Hb. cbn in Hb.
  assert (Hk : keeps same_content (check_options cmd (match seen with Some _ => true | None => false end))).
  { intros w'. apply bystander_check_options. }
  pose proof (bystander_check_options cmd (match seen with Some _ => true | None => false end) w4) as Hb4.
  apply bind_changed in Hne as ([] & w5 & Ho & _ & Hne); [|done].
  rewrite Ho in Hb4. destruct Hb as (_ & Hd3 & _), Hb4 as (_ & Hd4 & _). cbn in Hd4.
  apply (check_minor_ok sys name cmd w3 w4 Hc Hn).
  - apply not_false_iff_true. intros Hm. apply Hne. by apply (keeps_reader (R := same_content)).
  - intros [Hcmd Hd]. apply Hne. rewrite Hcmd. apply (keeps_no_create (R := dry)); [done|congruence].
Qed.

(** *** What drbdsetup says of an attached device *)

(** A disk state above diskless; it is not the start of the name of a lower one. *)
Record attached_state (sys : system) (state : string) : Prop := {
  above_diskless : exists n, drbd_disk_state_names sys !! n = Some (Some state) /\ D_DISKLESS sys < Z.of_nat n;
  not_below k name :
    drbd_disk_state_names sys !! k = Some (Some name) -> Z.of_nat k <= D_DISKLESS sys -> String.prefix state name = false;
  no_slash : all_chars (fun c => negb (Ascii.eqb c "/")) state = true
}.

(** drbdsetup dstate prints the state, and since DRBD 9 nothing else; before, a
    slash and the state of the peer. *)
Definition reported_attached (sys : system) (minor : Z) : Prop :=
  exists code state rest,
    drbdsetup_dstate sys (show_d minor "") = (code, state +:+ rest +:+ nl) /\ code <> 10 /\ code <> 20 /\
    attached_state sys state /\ (rest = "" \/ exists peer, rest = String "/" peer).

Lemma find_state_inv p names n k :
  find_state p names n = Some k ->
  exists i name, k = n + Z.of_nat i /\ names !! i = Some (Some name) /\ String.prefix p name = true.
Proof.
  revert n. induction names as [|[name|] names IH]; intros n Hf; cbn [find_state] in Hf; [done| |].
  - destruct (String.prefix p name) eqn:Hp.
    + exists O, name. injection Hf as <-. split_and!; [lia|done|done].
    + apply IH in Hf as (i & nm & -> & ? & ?). exists (S i), nm. split_and!; [lia|done|done].
  - apply IH in Hf as (i & nm & -> & ? & ?). exists (S i), nm. split_and!; [lia|done|done].
Qed.

Lemma find_state_some p names n i name :
  names !! i = Some (Some name) -> String.prefix p name = true -> is_Some (find_state p names n).
Proof.
  revert n i. induction names as [|[nm|] names IH]; intros n [|i] Hi Hp; cbn [find_state]; try done.
  - injection Hi as ->. by rewrite Hp.
  - destruct (String.prefix p nm); [done|]. by eapply IH.
  - by eapply IH.
Qed.

Lemma before_slash_state state rest :
  all_chars (fun c => negb (Ascii.eqb c "/")) state = true -> (rest = "" \/ exists peer, rest = String "/" peer) ->
  before_slash (state +:+ rest) = state.
Proof.
  intros Hs Hr. induction state as [|c s IH]; [by destruct Hr as [->|[? ->]]|].
  cbn [all_chars] in Hs. apply andb_true_iff in Hs as [Hc%negb_true_iff Hs].
  change (before_slash (String c (s +:+ rest)) = String c s). cbn [before_slash]. by rewrite Hc, IH.
Qed.

Lemma substring_app s t : String.substring 0 (String.length s) (s +:+ t) = s.
Proof.
  induction s as [|c s IH]; [by destruct t|]. change (String.substring 0 (String.length (String c s)) (String c (s +:+ t)) = String c s).
  cbn [String.length String.substring]. by rewrite IH.
Qed.

Lemma prefix_refl s : String.prefix s s = true.
Proof. induction s as [|c s IH]; [done|]. cbn. by destruct (ascii_dec c c). Qed.

Lemma short_minor_string m : 0 <= m < 10 ^ 6 -> minor_string m = show_d m "".
Proof.
  intros Hm. unfold minor_string, show_d, show_u. destruct (Z.ltb_spec m 0); [lia|].
  pose proof (all_digits_length 20 m "" 6) as Hl. cbn [String.length] in Hl.
  generalize dependent (all_digits 10 20 m ""). intros s Hl.
  assert (String.length s <= 6)%nat as Hs by lia. clear -Hs. revert Hs. generalize 6%nat.
  induction s as [|c s IH]; intros [|n] Hs; cbn in *; try done; [lia|]. rewrite IH; [done|lia].
Qed.

Lemma reported_is_attached sys m w :
  0 <= m < 10 ^ 6 -> reported_attached sys m -> is_attached sys m w = (Ok true, w).
Proof.
  intros Hm (code & state & rest & Hd & H10 & H20 & [(n & Hn & Hlt) Hbelow Hslash] & Hrest).
  unfold is_attached. rewrite short_minor_string, Hd by done.
  rewrite (proj2 (Z.eqb_neq _ _) H10), (proj2 (Z.eqb_neq _ _) H20). cbn [orb].
  assert (String.length (state +:+ rest +:+ nl) = S (String.length (state +:+ rest))) as ->.
  { clear. induction state as [|c s IH].
    - change (String.length (rest +:+ nl) = S (String.length rest)). induction rest as [|c s IH]; [done|].
      change (S (String.length (s +:+ nl)) = S (S (String.length s))). by rewrite IH.
    - change (S (String.length (s +:+ rest +:+ nl)) = S (S (String.length (s +:+ rest)))). by rewrite IH. }
  assert (state +:+ rest +:+ nl = (state +:+ rest) +:+ nl) as ->.
  { clear. induction state as [|c s IH]; [done|]. change (String c (s +:+ rest +:+ nl) = String c ((s +:+ rest) +:+ nl)). by rewrite IH. }
  rewrite substring_app. unfold drbd_str_disk. rewrite before_slash_state by done.
  destruct (find_state_some state (drbd_disk_state_names sys) 0 n state Hn (prefix_refl _)) as [k Hk]. rewrite Hk.
  apply find_state_inv in Hk as (i & name & -> & Hi & Hp).
  unfold mbind, M_bind, mret, M_ret. f_equal. f_equal. apply Z.ltb_lt.
  destruct (Z.le_gt_cases (Z.of_nat i) (D_DISKLESS sys)) as [Hle|]; [|lia]. by rewrite (Hbelow i name Hi Hle) in Hp.
Qed.

(** C14: drbdmeta does not change a byte of the meta data device of a minor that
    is attached: when drbdsetup dstate, asked for the minor of the device that
    was named, prints a disk state above diskless, then the device is the same
    after any command with any options.  This holds for minors of up to six
    digits (the minor is cut off behind them, so that a longer one is not found);
    the name - stands for no minor, and nothing is asked for it. *)
Theorem attached_device_untouched sys argc events name args w i :
  name <> "-" -> 0 <= dt_minor_of_dev sys name < 10 ^ 6 -> reported_attached sys (dt_minor_of_dev sys name) ->
  w_dev (main sys argc events (name :: args) w).2 i = w_dev w i.
Proof.
  intros Hn Hm Hr. destruct (decide (w_dev (main sys argc events (name :: args) w).2 i = w_dev w i)) as [|Hne]; [done|].
  assert (w_dev (main sys argc events (name :: args) w).2 <> w_dev w) as Hdev by congruence.
  pose proof (changed_not_attached sys argc events name args w Hn Hdev w) as Ha.
  rewrite u32_id, s32_id, reported_is_attached in Ha by (done || solve_int). done.
Qed.
End in_use.

(** A 0.6 meta data file, and a system whose drbdsetup knows no minor. *)
Definition example_v06_dev : mem :=
  md_cpu_to_disk_06 zero_mem (zero_md <| magic := DRBD_MD_MAGIC_06 |>).

Definition example_v06_world : world :=
  blank_world DRBD_UNKNOWN get_gi example_v06_dev 8192
    <| w_env := mk_environment 8192 false [] true true (Some 512) (fun _ _ => true) true false true None |>.

Definition example_system : system :=
  mk_system "/var/lib/drbd" [] 0 (fun _ => None) (fun _ => true) (fun _ => (10, "")) "" "" "" false (fun _ => None).

(** The same, when drbdsetup reports the minor as up to date: nothing is wiped. *)
Definition attached_system : system :=
  mk_system "/var/lib/drbd" [Some "Diskless"; Some "Attaching"; Some "UpToDate"] 0 (fun _ => None) (fun _ => true)
    (fun m => if String.eqb m "1" then (0, "UpToDate" +:+ nl) else (10, "")) "" "" "" false (fun _ => None).

Lemma attached_device_untouched_witness :
  let run sys := main sys 6 [opt_force; opt_ignore_sanity_checks] ["/dev/drbd1"; "v06"; "1"; "wipe-md"] example_v06_world in
  w_dev (run example_system).2 20 <> w_dev example_v06_world 20 /\
  w_dev (run attached_system).2 20 = w_dev example_v06_world 20.
Proof.
  intros run. split; [vm_compute; discriminate|].
  apply (attached_device_untouched attached_system 6 _ "/dev/drbd1" _ example_v06_world 20 ltac:(discriminate)).
  - vm_compute. split; congruence.
  - exists 0, "UpToDate", "". split_and!; [by vm_compute|discriminate|discriminate| |by left]. split.
    + by exists 2%nat.
    + intros [|k] name Hk Hle; [|cbn in Hle; lia]. by injection Hk as <-.
    + by vm_compute.
Defined.

(** A dry run of wipe-md leaves the device, but not the file with the device that
    was last seen. *)
Lemma dry_run_deletes_file :
  let run := main example_system 7 [opt_force; opt_ignore_sanity_checks; opt_dry_run] ["/dev/drbd1"; "v06"; "1"; "wipe-md"]
               (example_v06_world <| w_lk := Some "device" |>) in
  run.1 = Ok 0 /\ w_dev run.2 20 = w_dev example_v06_world 20 /\ w_lk run.2 = None.
Proof. by vm_compute. Qed.
