(* ===== verification/Setup.v ===== *)
(** * The command line of drbdsetup

    How drbdsetup (user/v9/drbdsetup.c) understands its command line: the table
    of its commands, the long options of a command ([make_longoptions]), and
    the part of [drbdsetup_main] that determines the object a command is for;
    with the part of [_generic_config_cmd] that takes the options and the other
    arguments.  The result is a request; Options models how its options are put
    into a message, the attributes of the other arguments are left out.

    The functions parse the line twice, the second time without the arguments
    for the object; the model parses it once.  Support for DRBD 8.4
    ([WITH_84_SUPPORT]) is left out.  Whether the kernel module is there is a
    parameter, and so is the size of a field for the name of a resource, which
    comes from the drbd-headers submodule. *)

From S2P Require Import Prelude Machine SharedTool ConfigFlags Address AdmConfig Argv Getopt Contexts.
From S2P Require Main.
From Stdlib Require Import Ascii String.
From stdpp Require Import strings.

#[local] Open Scope string_scope.
#[local] Open Scope list_scope.
#[local] Open Scope Z_scope.

(** ** Commands *)

Definition CTX_RESOURCE : Z := 1.
Definition CTX_PEER_NODE_ID : Z := 2.
Definition CTX_MINOR : Z := 4.
Definition CTX_VOLUME : Z := 8.
Definition CTX_ALL : Z := 64.
Definition CTX_MULTIPLE_ARGUMENTS : Z := 128.
Definition CTX_PEER_NODE : Z := Z.lor (Z.lor CTX_RESOURCE CTX_PEER_NODE_ID) CTX_MULTIPLE_ARGUMENTS.
Definition CTX_PEER_DEVICE : Z := Z.lor CTX_PEER_NODE CTX_VOLUME.

(** The functions that put an argument into a message. *)
Inductive convert_function := conv_block_dev | conv_md_idx | conv_u32 | conv_str | conv_addr.

#[export] Instance convert_function_eq_dec : EqDecision convert_function.
Proof. solve_decision. Defined.

(** An argument: its name and function. *)
Record drbd_argument := mk_drbd_argument { ad_name : string; ad_convert : convert_function }.

(** The part of [struct drbd_cmd] that the command line depends on;
    [dc_payload]: there is an attribute for options and arguments. *)
Record drbd_cmd := mk_drbd_cmd {
  dc_cmd : string;
  dc_ctx_key : Z;
  dc_payload : bool;
  dc_args : list drbd_argument;
  dc_ctx : option setup_context;
  dc_options : list long_option;
  dc_set_defaults : bool;
  dc_missing_ok : bool
}.

Definition conf_cmd (name : string) (key : Z) (ctx : option setup_context) : drbd_cmd :=
  mk_drbd_cmd name key (bool_decide (is_Some ctx)) [] ctx [] false false.
Definition defaults_cmd (name : string) (key : Z) (ctx : setup_context) : drbd_cmd :=
  mk_drbd_cmd name key true [] (Some ctx) [] true false.
Definition args_cmd (name : string) (key : Z) (args : list drbd_argument) (ctx : option setup_context) : drbd_cmd :=
  mk_drbd_cmd name key true args ctx [] false false.
Definition event_cmd (name : string) (key : Z) (opts : list long_option) : drbd_cmd :=
  mk_drbd_cmd name key false [] None opts false false.

Definition wait_cmds_options : list long_option :=
  [mk_long_option "wfc-timeout" required_argument (code "t"); mk_long_option "degr-wfc-timeout" required_argument (code "d");
   mk_long_option "outdated-wfc-timeout" required_argument (code "o");
   mk_long_option "wait-after-sb" optional_argument (code "w")].

Definition show_cmd_options : list long_option :=
  [mk_long_option "show-defaults" no_argument (code "D"); mk_long_option "json" no_argument (code "j")].

Definition status_cmd_options : list long_option :=
  [mk_long_option "verbose" no_argument (code "v"); mk_long_option "statistics" no_argument (code "s");
   mk_long_option "color" optional_argument (code "c"); mk_long_option "json" no_argument (code "j")].

Definition OPT_GENL_RCVBUF_SZ : Z := 0x101.

Definition events_cmd_options : list long_option :=
  [mk_long_option "timestamps" no_argument (code "T"); mk_long_option "statistics" no_argument (code "s");
   mk_long_option "now" no_argument (code "n"); mk_long_option "poll" no_argument (code "p");
   mk_long_option "full" no_argument (code "f"); mk_long_option "color" optional_argument (code "c");
   mk_long_option "diff" optional_argument (code "i"); mk_long_option "rcvbuf" required_argument OPT_GENL_RCVBUF_SZ].

Definition path_arguments : list drbd_argument :=
  [mk_drbd_argument "local-addr" conv_addr; mk_drbd_argument "remote-addr" conv_addr].

Definition commands : list drbd_cmd :=
  [conf_cmd "primary" CTX_RESOURCE (Some primary_cmd_ctx);
   conf_cmd "secondary" CTX_RESOURCE (Some secondary_cmd_ctx);
   args_cmd "attach" CTX_MINOR
     [mk_drbd_argument "lower_dev" conv_block_dev; mk_drbd_argument "meta_data_dev" conv_block_dev;
      mk_drbd_argument "meta_data_index" conv_md_idx] (Some attach_cmd_ctx);
   defaults_cmd "disk-options" CTX_MINOR disk_options_ctx;
   conf_cmd "detach" CTX_MINOR (Some detach_cmd_ctx);
   conf_cmd "connect" CTX_PEER_NODE (Some connect_cmd_ctx);
   conf_cmd "new-peer" CTX_PEER_NODE (Some new_peer_cmd_ctx);
   conf_cmd "del-peer" CTX_PEER_NODE (Some disconnect_cmd_ctx);
   args_cmd "new-path" CTX_PEER_NODE path_arguments (Some path_cmd_ctx);
   args_cmd "del-path" CTX_PEER_NODE path_arguments (Some path_cmd_ctx);
   defaults_cmd "net-options" CTX_PEER_NODE net_options_ctx;
   conf_cmd "disconnect" CTX_PEER_NODE (Some disconnect_cmd_ctx);
   conf_cmd "resize" CTX_MINOR (Some resize_cmd_ctx);
   defaults_cmd "resource-options" CTX_RESOURCE resource_options_ctx;
   defaults_cmd "peer-device-options" CTX_PEER_DEVICE peer_device_options_ctx;
   conf_cmd "new-current-uuid" CTX_MINOR (Some new_current_uuid_cmd_ctx);
   conf_cmd "invalidate" CTX_MINOR (Some invalidate_ctx);
   conf_cmd "invalidate-remote" CTX_PEER_DEVICE (Some invalidate_peer_ctx);
   conf_cmd "pause-sync" CTX_PEER_DEVICE None;
   conf_cmd "resume-sync" CTX_PEER_DEVICE None;
   conf_cmd "suspend-io" CTX_MINOR (Some suspend_io_ctx);
   conf_cmd "resume-io" CTX_MINOR None;
   conf_cmd "outdate" CTX_MINOR None;
   conf_cmd "verify" CTX_PEER_DEVICE (Some verify_cmd_ctx);
   mk_drbd_cmd "down" (Z.lor CTX_RESOURCE CTX_ALL) false [] None [] false true;
   conf_cmd "role" CTX_RESOURCE None;
   conf_cmd "peer-role" CTX_PEER_NODE None;
   conf_cmd "cstate" CTX_PEER_NODE None;
   conf_cmd "dstate" CTX_MINOR None;
   conf_cmd "show-gi" CTX_PEER_DEVICE None;
   conf_cmd "get-gi" CTX_PEER_DEVICE None;
   event_cmd "show" (Z.lor CTX_RESOURCE CTX_ALL) show_cmd_options;
   event_cmd "status" (Z.lor CTX_RESOURCE CTX_ALL) status_cmd_options;
   conf_cmd "check-resize" CTX_MINOR None;
   mk_drbd_cmd "events2" (Z.lor CTX_RESOURCE CTX_ALL) false [] None events_cmd_options false true;
   event_cmd "wait-sync-volume" CTX_PEER_DEVICE wait_cmds_options;
   event_cmd "wait-sync-connection" CTX_PEER_NODE wait_cmds_options;
   event_cmd "wait-sync-resource" CTX_RESOURCE wait_cmds_options;
   event_cmd "wait-connect-volume" CTX_PEER_DEVICE wait_cmds_options;
   event_cmd "wait-connect-connection" CTX_PEER_NODE wait_cmds_options;
   event_cmd "wait-connect-resource" CTX_RESOURCE wait_cmds_options;
   args_cmd "new-resource" CTX_RESOURCE [mk_drbd_argument "node_id" conv_u32] (Some resource_options_ctx);
   conf_cmd "new-minor" (Z.lor (Z.lor (Z.lor CTX_RESOURCE CTX_MINOR) CTX_VOLUME) CTX_MULTIPLE_ARGUMENTS)
     (Some device_options_ctx);
   conf_cmd "del-minor" CTX_MINOR None;
   conf_cmd "del-resource" CTX_RESOURCE None;
   args_cmd "forget-peer" CTX_RESOURCE [mk_drbd_argument "peer_node_id" conv_u32] None;
   args_cmd "rename-resource" CTX_RESOURCE [mk_drbd_argument "new_name" conv_str] None;
   conf_cmd "udev" CTX_MINOR None].

Definition find_cmd_by_name (name : string) : option drbd_cmd :=
  List.find (fun cmd => String.eqb name (dc_cmd cmd)) commands.

(** [ctx_next_arg]: the kind of the next argument, and the keys left. *)
Definition ctx_next_arg (key : Z) : Z * Z :=
  let next_arg := if truth (Z.land key CTX_MULTIPLE_ARGUMENTS)
                  then Z.land (Z.land key (Z.lnot (key - 1))) (Z.lnot CTX_MULTIPLE_ARGUMENTS) else key in
  (next_arg, Z.land key (Z.lnot next_arg)).

(** ** The long options of a command *)

Definition OPT_ALT_BASE : Z := 1000.
Definition OPTION_BUFFER : Z := 47.

Section Setup.
Context `{Contexts}.

Definition cmd_fields (cm : drbd_cmd) : list field_def :=
  match dc_ctx cm with Some c => ctx_fields (fields_of c) | None => [] end.

Definition field_option (f : field_def) : long_option :=
  mk_long_option (fd_name f) (if argument_is_optional f then optional_argument else required_argument) 0.

(** The last field of this name, and its index. *)
Fixpoint field_index (name : string) (l : list field_def) (i : nat) : option nat :=
  match l with
  | [] => None
  | f :: l' =>
      match field_index name l' (S i) with
      | Some j => Some j
      | None => if String.eqb (fd_name f) name then Some i else None
      end
  end.

(** Another name of a field of the command [cmd]. *)
Definition alias (cm : drbd_cmd) (cmd field name : string) : list long_option :=
  if String.eqb (dc_cmd cm) cmd then
    match field_index field (cmd_fields cm) 0 with
    | Some i =>
        match cmd_fields cm !! i with
        | Some f => [mk_long_option name (lo_has_arg (field_option f)) (OPT_ALT_BASE + Z.of_nat i)]
        | None => []
        end
    | None => []
    end
  else [].

(** With the assertion that there is room for all, and for the end. *)
Definition make_longoptions (cm : drbd_cmd) : res (list long_option) :=
  let l := (field_option <$> cmd_fields cm) ++ dc_options cm ++ alias cm "primary" "force" "overwrite-data-of-peer" ++
           alias cm "connect" "tentative" "dry-run" ++
           (if dc_set_defaults cm then [mk_long_option "set-defaults" no_argument (code "(")] else []) in
  assert_res (Z.of_nat (length l) <? OPTION_BUFFER);;
  Ok l.

(** The letters of [make_optstring]. *)
Definition make_optstring (opts : list long_option) : list (ascii * has_arg_t) :=
  omap (fun o => if (0 <? lo_val o) && (lo_val o <? 256) then Some (ascii_of_nat (Z.to_nat (lo_val o)), lo_has_arg o)
                 else None) opts.

(** ** The object of a command *)

Context (sys : Main.system) (ctx_resource_name_size : Z) (modprobe_drbd : bool).

Record context := mk_context {
  objname : option string;
  all : bool;
  ctx_resource_name : option string;
  ctx_minor : option Z;
  ctx_volume : option Z;
  ctx_peer_node_id : option Z
}.

#[export] Instance eta_context : Eta context :=
  fun c => mk_context (objname c) (all c) (ctx_resource_name c) (ctx_minor c) (ctx_volume c) (ctx_peer_node_id c).

Definition no_context : context := mk_context None false None None None None.

Definition one : ascii := ascii_of_nat 1.

Definition ensure_sanity_of_res_name (name : string) : res unit :=
  if String.eqb name "" then Exit 1
  else if all_chars (fun c => negb ((code c <? code " ") || (code c =? 127))) name then Ok () else Exit 1.

(** One argument for a key. *)
Definition context_arg (next_arg : Z) (arg : string) (c : context) : res context :=
  if truth (Z.land next_arg (Z.lor (Z.lor CTX_RESOURCE CTX_MINOR) CTX_ALL)) then
    ensure_sanity_of_res_name arg;;
    let c := c <| objname := Some (default arg (objname c)) |> in
    if String.eqb arg "all" then
      if truth (Z.land next_arg CTX_ALL) then Ok (c <| all := true |>) else Exit 20
    else if truth (Z.land next_arg CTX_MINOR) then
      let minor := u32 (Main.dt_minor_of_dev sys arg) in
      if (minor =? u32 (-1)) && (next_arg =? CTX_MINOR) then Exit 20 else Ok (c <| ctx_minor := Some minor |>)
    else if truth (Z.land next_arg CTX_RESOURCE) then
      let name := default arg (objname c) in
      assert_res (Z.of_nat (String.length name) <? ctx_resource_name_size);;
      Ok (c <| ctx_resource_name := Some name |>)
    else Exit 20
  else if next_arg =? CTX_VOLUME then
    v ← m_strtoll_res (Some arg) one;
    Ok (c <| ctx_volume := Some (u32 v) |>)
  else if next_arg =? CTX_PEER_NODE_ID then
    match new_strtoll arg one with
    | (MSE_OK, r) => Ok (c <| ctx_peer_node_id := Some (u32 r) |>)
    | (err, _) => Exit (print_strtoll_error_and_exit err)
    end
  else Abort.

(** The loop over the keys, which are at most four; the arguments left. *)
Fixpoint context_args (n : nat) (key : Z) (args : list string) (c : context) : res (context * list string) :=
  match n with
  | O => Fault
  | S n' =>
      let '(next_arg, key) := ctx_next_arg key in
      if next_arg =? 0 then Ok (c, args)
      else
        match args with
        | [] =>
            if negb (truth (Z.land key CTX_MULTIPLE_ARGUMENTS)) && truth (Z.land next_arg CTX_ALL)
            then Ok (c <| all := true |> <| objname := Some "all" |>, []) else Exit 20
        | arg :: args' => c ← context_arg next_arg arg c; context_args n' key args' c
        end
  end.

(** ** The request *)

(** [rq_options]: the fields that are given, with their arguments. *)
Record request := mk_request {
  rq_cmd : drbd_cmd;
  rq_context : context;
  rq_options : list (field_def * option string);
  rq_set_defaults : bool;
  rq_args : list string
}.

(** What _generic_config_cmd makes of an option. *)
Definition request_option (cm : drbd_cmd) (opts : list long_option) (g : got) :
    res (option (field_def * option string)) :=
  match g with
  | Short c _ => if Ascii.eqb c "(" then Ok None else Exit 20
  | Long i optarg =>
      match opts !! i with
      | None => Fault
      | Some o =>
          if lo_val o =? code "(" then Ok None
          else
            let i := if OPT_ALT_BASE <=? lo_val o then Z.to_nat (lo_val o - OPT_ALT_BASE) else i in
            if (lo_val o =? 0) || (OPT_ALT_BASE <=? lo_val o) then
              match cmd_fields cm !! i with Some f => Ok (Some (f, optarg)) | None => Fault end
            else Exit 20
      end
  end.

Fixpoint request_options (cm : drbd_cmd) (opts : list long_option) (gots : list got) :
    res (list (field_def * option string) * bool) :=
  match gots with
  | [] => Ok ([], false)
  | g :: gots' =>
      o ← request_option cm opts g;
      '(l, set_defaults) ← request_options cm opts gots';
      Ok (match o with Some x => (x :: l, set_defaults) | None => (l, true) end)
  end.

(** A command that makes a request with its arguments, as many as it takes. *)
Definition setup_request (cm : drbd_cmd) (args : list string) : res request :=
  opts ← make_longoptions cm;
  match getopt_long (make_optstring opts) opts args with
  | None => Exit 20
  | Some (gots, plain) =>
      '(c, rest) ← context_args 5 (dc_ctx_key cm) plain no_context;
      '(options, set_defaults) ← request_options cm opts gots;
      if Z.of_nat (length rest) =? Z.of_nat (length (dc_args cm))
      then Ok (mk_request cm c options set_defaults rest) else Exit 20
  end.

Definition is_help (arg : string) : bool := String.eqb arg "--help" || String.eqb arg "-h".

(** From the arguments after the name of the program to the request of a
    command for the configuration. *)
Definition drbdsetup_main (argv : list string) : res request :=
  let argv := match argv with
              | a :: b :: argv' => if is_help b then b :: a :: argv' else argv
              | _ => argv
              end in
  match argv with
  | [] => Exit 20
  | a :: args =>
      if is_help a || String.eqb a "help" || String.eqb a "xml-help" then
        Exit (match args with
              | name :: _ => if find_cmd_by_name name then 0 else 20
              | [] => 20
              end)
      else if negb modprobe_drbd then
        Exit (if existsb (String.eqb a) ["down"; "secondary"; "disconnect"; "detach"] then 0 else 20)
      else
        match find_cmd_by_name a with
        | None => Exit 20
        | Some cm => setup_request cm args
        end
  end.
End Setup.
