(* ===== verification/SetupRequests.v ===== *)
(** * Command lines that drbdsetup understands

    A command line that gives the object and the arguments of a command and its
    options by their full names, in any order, is the request it looks like. *)

From S2P Require Import Prelude Machine SharedTool ConfigFlags AdmConfig Argv Getopt Contexts Setup.
From Stdlib Require Import Ascii String.
From stdpp Require Import strings.

#[local] Open Scope string_scope.
#[local] Open Scope list_scope.
#[local] Open Scope Z_scope.

(** ** Options by name *)

Lemma find_index_Some {A} (p : A -> bool) (l : list A) i :
  find_index p l = Some i -> exists x, l !! i = Some x /\ p x = true.
Proof.
  revert i. induction l as [|x l IH]; intros i; cbn [find_index]; [done|].
  destruct (p x) eqn:Hp; [intros [= <-]; by exists x|].
  destruct (find_index p l) as [j|]; [|done]. intros [= <-]. by apply IH.
Qed.

Lemma find_index_None {A} (p : A -> bool) (l : list A) : find_index p l = None -> forall x, x ∈ l -> p x = false.
Proof.
  induction l as [|y l IH]; cbn [find_index]; [by intros _ x ?%elem_of_nil|].
  destruct (p y) eqn:Hp; [done|]. destruct (find_index p l); [done|].
  intros _ x [->|Hx]%elem_of_cons; [done|by apply IH].
Qed.

Lemma find_index_app {A} (p : A -> bool) (l l' : list A) :
  find_index p (l ++ l') = match find_index p l with
                           | Some i => Some i
                           | None => (fun i => (length l + i)%nat) <$> find_index p l'
                           end.
Proof.
  induction l as [|x l IH]; cbn [app find_index length]; [by destruct (find_index p l')|].
  destruct (p x); [done|]. rewrite IH. destruct (find_index p l); [done|]. by destruct (find_index p l').
Qed.

Section Requests.
Context `{Contexts}.

(** The options of a command after those of its context. *)
Definition other_options (cm : drbd_cmd) : list long_option :=
  dc_options cm ++ alias cm "primary" "force" "overwrite-data-of-peer" ++ alias cm "connect" "tentative" "dry-run" ++
  (if dc_set_defaults cm then [mk_long_option "set-defaults" no_argument (code "(")] else []).

Definition long_options (cm : drbd_cmd) : list long_option := (field_option <$> cmd_fields cm) ++ other_options cm.

Lemma make_longoptions_ok cm :
  Z.of_nat (length (long_options cm)) < OPTION_BUFFER -> make_longoptions cm = Ok (long_options cm).
Proof using.
  intros Hl. unfold make_longoptions, long_options, other_options in *. cbv zeta. by rewrite (proj2 (Z.ltb_lt _ _) Hl).
Qed.

(** A field of the context is found by its name. *)
Lemma field_by_name cm name :
  name ∈ (fd_name <$> cmd_fields cm) -> exists i f,
    find_index (fun o => String.eqb (lo_name o) name) (long_options cm) = Some i /\
    long_options cm !! i = Some (field_option f) /\ cmd_fields cm !! i = Some f /\ fd_name f = name.
Proof using.
  intros (f & Hname & Hf)%list_elem_of_fmap. unfold long_options. rewrite find_index_app.
  destruct (find_index (fun o => String.eqb (lo_name o) name) (field_option <$> cmd_fields cm)) as [i|] eqn:Hi.
  - destruct (find_index_Some _ _ _ Hi) as (o & Ho & Hn%String.eqb_eq). pose proof Ho as Ho'.
    rewrite list_lookup_fmap in Ho. destruct (cmd_fields cm !! i) as [g|] eqn:Hg; [|done].
    cbn in Ho. injection Ho as <-. exists i, g. split_and!; [done|by apply lookup_app_l_Some|done|done].
  - exfalso. pose proof (find_index_None _ _ Hi (field_option f) ltac:(by apply list_elem_of_fmap_2)) as Hn.
    cbn in Hn. by rewrite Hname, String.eqb_refl in Hn.
Qed.

(** What an argument stands for: an option of the context, or set-defaults. *)
Definition given (x : item) : option (string * option string) :=
  match x with
  | WithValue name value => Some (name, Some value)
  | Alone name => if String.eqb name "set-defaults" then None else Some (name, None)
  | Positional _ => None
  end.

Definition is_set_defaults (x : item) : bool :=
  match x with Alone name => String.eqb name "set-defaults" | _ => false end.

Definition field_name_ok (f : field_def) : Prop := option_name (fd_name f) /\ fd_name f <> "set-defaults" /\ fd_name f <> "help".

(** The argument is one of the command [cm]. *)
Inductive known (cm : drbd_cmd) : item -> Prop :=
  | known_value name value : name ∈ (fd_name <$> cmd_fields cm) -> known cm (WithValue name value)
  | known_flag name f : f ∈ cmd_fields cm -> fd_name f = name -> argument_is_optional f = true -> known cm (Alone name)
  | known_defaults : dc_set_defaults cm = true -> known cm (Alone "set-defaults")
  | known_plain text : plain_text text -> known cm (Positional text).

(** What is got for it is what it stands for. *)
Definition means (cm : drbd_cmd) (x : item) (g : option got) : Prop :=
  match g with
  | None => given x = None /\ is_set_defaults x = false
  | Some g => exists o, request_option cm (long_options cm) g = Ok o /\
                (fun y => (fd_name y.1, y.2)) <$> o = given x /\ is_set_defaults x = bool_decide (o = None) /\
                forall y, o = Some y -> y.1 ∈ cmd_fields cm
  end.

(** The table is as [commands] has it. *)
Definition simple_cmd (cm : drbd_cmd) : Prop :=
  dc_options cm = [] /\ (dc_set_defaults cm = true -> dc_cmd cm <> "primary" /\ dc_cmd cm <> "connect") /\
  Z.of_nat (length (long_options cm)) < OPTION_BUFFER /\ Forall field_name_ok (cmd_fields cm) /\
  NoDup (fd_name <$> cmd_fields cm).

Lemma set_defaults_found cm :
  simple_cmd cm -> dc_set_defaults cm = true ->
  find_index (fun o => String.eqb (lo_name o) "set-defaults") (long_options cm) = Some (length (cmd_fields cm)) /\
  long_options cm !! length (cmd_fields cm) = Some (mk_long_option "set-defaults" no_argument (code "(")).
Proof using.
  intros (Ho & Hpc & _ & Hf & _) Hd. destruct (Hpc Hd) as [Hp Hc].
  assert (other_options cm = [mk_long_option "set-defaults" no_argument (code "(")]) as Hother.
  { unfold other_options, alias. rewrite Ho, Hd. apply String.eqb_neq in Hp as ->. by apply String.eqb_neq in Hc as ->. }
  unfold long_options. rewrite Hother. split.
  - rewrite find_index_app, length_fmap.
    destruct (find_index _ (field_option <$> cmd_fields cm)) as [i|] eqn:Hi; [|cbn; f_equal; lia]. exfalso.
    destruct (find_index_Some _ _ _ Hi) as (o & (f & -> & Hin)%list_elem_of_lookup_2%list_elem_of_fmap & Hn%String.eqb_eq).
    rewrite Forall_forall in Hf. by destruct (Hf f Hin) as (_ & ? & _).
  - rewrite lookup_app_r by (rewrite length_fmap; lia). by rewrite length_fmap, Nat.sub_diag.
Qed.

Lemma known_understood cm x :
  simple_cmd cm -> known cm x -> exists g, understood (long_options cm) x g /\ means cm x g.
Proof using.
  intros Hs. pose proof Hs as (_ & _ & _ & Hf & _). rewrite Forall_forall in Hf.
  intros [name value Hname|name f0 Hf0 Hn0 Hopt|Hd|text Ht].
  - destruct (field_by_name cm name Hname) as (i & f & Hi & Hl & Hfi & <-).
    destruct (Hf f ltac:(by eapply list_elem_of_lookup_2)) as (Hon & _).
    exists (Some (Long i (Some value))). split.
    + eapply understood_value; [done|done|done|]. cbn. by destruct (argument_is_optional f).
    + exists (Some (f, Some value)). split_and!; [|done|done|intros y [= <-]; by eapply list_elem_of_lookup_2].
      cbn [request_option]. rewrite Hl. cbn. by rewrite Hfi.
  - assert (name ∈ (fd_name <$> cmd_fields cm)) as Hname by (rewrite <- Hn0; by apply list_elem_of_fmap_2).
    destruct (field_by_name cm name Hname) as (i & f & Hi & Hl & Hfi & <-).
    destruct (Hf f ltac:(by eapply list_elem_of_lookup_2)) as (Hon & Hns & _).
    assert (f0 = f) as ->.
    { pose proof Hs as (_ & _ & _ & _ & Hnd). apply list_elem_of_lookup_1 in Hf0 as [j Hj].
      assert (j = i) as ->; [|by simplify_eq].
      eapply NoDup_lookup; [exact Hnd|rewrite list_lookup_fmap, Hj; done|rewrite list_lookup_fmap, Hfi; cbn; congruence]. }
    exists (Some (Long i None)). split.
    + eapply understood_alone; [done|done|done|]. cbn. by rewrite Hopt.
    + exists (Some (f, None)). split_and!; [| | |intros y [= <-]; by eapply list_elem_of_lookup_2].
      * cbn [request_option]. rewrite Hl. cbn. by rewrite Hfi.
      * cbn. by apply String.eqb_neq in Hns as ->.
      * cbn. by apply String.eqb_neq in Hns as ->.
  - destruct (set_defaults_found cm Hs Hd) as [Hi Hl]. exists (Some (Long (length (cmd_fields cm)) None)). split.
    + by eapply understood_alone.
    + exists None. cbn [request_option]. by rewrite Hl.
  - exists None. split; [by constructor|done].
Qed.

Lemma request_options_items cm items gots :
  Forall2 (means cm) items gots ->
  exists options, request_options cm (long_options cm) (omap id gots) = Ok (options, existsb is_set_defaults items) /\
    (fun y => (fd_name y.1, y.2)) <$> options = omap given items /\ Forall (fun y => y.1 ∈ cmd_fields cm) options.
Proof using.
  induction 1 as [|x g items gots Hx _ (options & Hr & Hn & Hin)]; [by exists []|].
  destruct g as [g|]; cbn [means] in Hx.
  - destruct Hx as (o & Ho & Hg & Hd & Hf). cbn [omap list_omap id request_options existsb]. rewrite Ho.
    cbn [mbind res_bind]. rewrite Hr. cbn [mbind res_bind]. rewrite Hd, <- Hg.
    destruct o as [y|]; cbn; [|by exists options]. exists (y :: options). split_and!; [done|cbn; by rewrite Hn|].
    constructor; [by apply Hf|done].
  - destruct Hx as [Hg Hd]. cbn [omap list_omap id existsb]. rewrite Hg, Hd. by exists options.
Qed.

(** The tables of the contexts have what is asked for. *)
Lemma table_names_ok c : Forall (fun x => option_name x.1 /\ x.1 <> "set-defaults" /\ x.1 <> "help") (context_table c).
Proof using. destruct c; repeat constructor; done. Qed.

Lemma simple_cmd_ok cm :
  dc_options cm = [] -> (dc_set_defaults cm = true -> dc_cmd cm <> "primary" /\ dc_cmd cm <> "connect") ->
  simple_cmd cm.
Proof using.
  intros Ho Hd. unfold simple_cmd. split_and!; [done|done| | |].
  - unfold long_options, other_options. rewrite Ho. rewrite !length_app, length_fmap.
    assert (length (cmd_fields cm) <= 39)%nat as Hf.
    { unfold cmd_fields. destruct (dc_ctx cm) as [c|]; [|cbn; lia].
      rewrite <- (length_fmap fd_name), field_names. destruct c; cbn; lia. }
    assert (forall a b c, length (alias cm a b c) <= 1)%nat as Ha.
    { intros a b c. unfold alias. destruct (String.eqb _ _); [|cbn; lia]. destruct (field_index _ _ _); [|cbn; lia].
      destruct (cmd_fields cm !! _); cbn; lia. }
    pose proof (Ha "primary" "force" "overwrite-data-of-peer"). pose proof (Ha "connect" "tentative" "dry-run").
    destruct (dc_set_defaults cm); cbn [length]; unfold OPTION_BUFFER; lia.
  - unfold cmd_fields. destruct (dc_ctx cm) as [c|]; [|constructor]. apply Forall_forall. intros f Hf.
    pose proof (table_names_ok c) as Ht. rewrite Forall_forall in Ht. unfold field_name_ok.
    assert ((fd_name f, argument_is_optional f) ∈ context_table c) as Hin.
    { rewrite <- fields_table. by apply (list_elem_of_fmap_2 (fun f => (fd_name f, argument_is_optional f))). }
    exact (Ht _ Hin).
  - unfold cmd_fields. destruct (dc_ctx cm) as [c|]; [apply fields_NoDup|constructor].
Qed.

Context (sys : Main.system) (ctx_resource_name_size : Z).

(** The request a line is understood as. *)
Lemma setup_request_items cm items c rest :
  simple_cmd cm -> Forall (known cm) items ->
  context_args sys ctx_resource_name_size 5 (dc_ctx_key cm) (omap positional items) no_context = Ok (c, rest) ->
  length rest = length (dc_args cm) ->
  exists options, setup_request sys ctx_resource_name_size cm (render <$> items) =
      Ok (mk_request cm c options (existsb is_set_defaults items) rest) /\
    (fun y => (fd_name y.1, y.2)) <$> options = omap given items /\ Forall (fun y => y.1 ∈ cmd_fields cm) options.
Proof using.
  intros Hs Hk Hc Hrest.
  assert (exists gots, Forall2 (fun x g => understood (long_options cm) x g /\ means cm x g) items gots) as [gots H2].
  { clear Hc. induction Hk as [|x items Hx _ IH]; [by exists []|].
    destruct (known_understood cm x Hs Hx) as (g & ? & ?). destruct IH as [gots ?]. exists (g :: gots). by constructor. }
  destruct (request_options_items cm items gots) as (options & Hr & Hn & Hin).
  { eapply Forall2_impl; [exact H2|]. by intros x g [_ ?]. }
  exists options. split; [|by split]. pose proof Hs as (_ & _ & Hl & _).
  unfold setup_request. rewrite make_longoptions_ok by done. cbn [mbind res_bind].
  rewrite (getopt_items (long_options cm) _ items gots).
  - rewrite Hc. cbn [mbind res_bind]. rewrite Hr. cbn [mbind res_bind]. by rewrite Hrest, Z.eqb_refl.
  - eapply Forall2_impl; [exact H2|]. by intros x g [? _].
Qed.

Lemma plain_no_help text : plain_text text -> is_help text = false.
Proof using.
  unfold is_help, plain_text. intros Ht. destruct (String.eqb_spec text "--help") as [->|]; [done|].
  by destruct (String.eqb_spec text "-h") as [->|].
Qed.

Lemma known_no_help cm x : simple_cmd cm -> known cm x -> is_help (render x) = false.
Proof using.
  intros (_ & _ & _ & Hf & _) Hk. rewrite Forall_forall in Hf.
  assert (forall s, s <> "help" -> is_help ("--" +:+ s) = false) as Hlong.
  { intros s Hs. unfold is_help. destruct (String.eqb_spec ("--" +:+ s) "--help") as [[=]|]; [done|].
    by destruct (String.eqb_spec ("--" +:+ s) "-h") as [[=]|]. }
  destruct Hk as [name value (f & -> & Hin)%list_elem_of_fmap|name f Hin <- _| |text Ht]; cbn [render].
  - apply Hlong. intros He. destruct (Hf f Hin) as ((_ & Hn) & _).
    pose proof (after_equals_app (fd_name f) value Hn) as Ha. change ("=" +:+ value) with (String "=" value) in He.
    by rewrite He in Ha.
  - apply Hlong. by destruct (Hf f Hin) as (_ & _ & ?).
  - done.
  - by apply plain_no_help.
Qed.

(** The whole line. *)
Lemma drbdsetup_main_items cm items :
  find_cmd_by_name (dc_cmd cm) = Some cm -> simple_cmd cm -> Forall (known cm) items ->
  drbdsetup_main sys ctx_resource_name_size true (dc_cmd cm :: (render <$> items)) =
  setup_request sys ctx_resource_name_size cm (render <$> items).
Proof using.
  intros Hf Hs Hk.
  assert (is_help (dc_cmd cm) || String.eqb (dc_cmd cm) "help" || String.eqb (dc_cmd cm) "xml-help" = false) as Hn.
  { destruct (is_help (dc_cmd cm)) eqn:Hh; [|destruct (String.eqb_spec (dc_cmd cm) "help") as [Hd|]; [|
      destruct (String.eqb_spec (dc_cmd cm) "xml-help") as [Hd|]; [|done]]]; exfalso.
    - apply orb_true_iff in Hh as [Hd%String.eqb_eq|Hd%String.eqb_eq]; rewrite Hd in Hf; by vm_compute in Hf.
    - rewrite Hd in Hf. by vm_compute in Hf.
    - rewrite Hd in Hf. by vm_compute in Hf. }
  unfold drbdsetup_main. destruct items as [|x items]; cbn [fmap list_fmap]; [by rewrite Hn, Hf|].
  apply Forall_cons in Hk as [Hx _]. rewrite (known_no_help cm x) by done. by rewrite Hn, Hf.
Qed.
End Requests.
