(* ===== verification/Understood.v ===== *)
(** * drbdsetup understands drbdadm

    The command lines that drbdadm builds to bring resources up and to adjust
    them (AdmCommands) are parsed by drbdsetup (Setup) into the requests they
    are meant to be: the abstract specification [meaning_of] says what a
    command of drbdadm asks for, in terms of the configuration alone. *)

From S2P Require Import Prelude Machine SharedTool ConfigFlags Address AdmConfig Argv Getopt Numerals Contexts Deferred AdmCommands Setup SetupRequests.
From S2P Require Main.
From Stdlib Require Import Ascii String.
From stdpp Require Import strings.

#[local] Open Scope string_scope.
#[local] Open Scope list_scope.
#[local] Open Scope Z_scope.

(** ** What a command means *)

(** The command, the object it is for, the options with their values, whether
    the others are to be reset, and the other arguments. *)
Record meaning := mk_meaning {
  mn_name : string;
  mn_resource : option string;
  mn_minor : option Z;
  mn_volume : option Z;
  mn_node : option Z;
  mn_options : list (string * option string);
  mn_reset : bool;
  mn_args : list string
}.

Definition request_meaning (rq : request) : meaning :=
  mk_meaning (dc_cmd (rq_cmd rq)) (ctx_resource_name (rq_context rq)) (ctx_minor (rq_context rq))
    (ctx_volume (rq_context rq)) (ctx_peer_node_id (rq_context rq))
    ((fun y => (fd_name y.1, y.2)) <$> rq_options rq) (rq_set_defaults rq) (rq_args rq).

Definition option_values (opts : options) : list (string * option string) := (fun o => (o_name o, o_value o)) <$> opts.

(** The options that a command passes on. *)
Definition sent_options (ctx : cfg_ctx) : options :=
  match ctx_cmd ctx, ctx_vol ctx, ctx_conn ctx with
  | new_resource_cmd, _, _ | res_options_defaults_cmd, _, _ => res_options (ctx_res ctx)
  | new_minor_cmd, Some vol, _ => device_options vol
  | attach_cmd, Some vol, _ => disk_options vol
  | disk_options_defaults_cmd, Some vol, _ | disk_options_early_defaults_cmd, Some vol, _ =>
      List.filter (fun o => negb (o_adj_skip o)) (disk_options vol)
  | new_peer_cmd, _, Some conn => net_options conn
  | net_options_defaults_cmd, _, Some conn => (del_opt (net_options conn) "transport").1
  | peer_device_options_cmd, Some vol, Some conn | peer_device_options_defaults_cmd, Some vol, Some conn =>
      default [] (pd_options <$> find_peer_device conn (vnr vol))
  | _, _, _ => []
  end.

Definition resets (cmd : cmd_object) : bool :=
  match cmd with
  | res_options_defaults_cmd | disk_options_defaults_cmd | disk_options_early_defaults_cmd
  | net_options_defaults_cmd | peer_device_options_defaults_cmd => true
  | _ => false
  end.

(** The node id of the peer, and its number. *)
Definition peer_id (ctx : cfg_ctx) : option string := conn ← ctx_conn ctx; p ← peer conn; node_id p.
Definition node_number (id : string) : Z := (new_strtoll id Setup.one).2.

Definition for_connection (cmd : cmd_object) : bool :=
  match cmd with
  | new_peer_cmd | del_peer_cmd | new_path_cmd | del_path_cmd | connect_cmd | disconnect_cmd
  | net_options_defaults_cmd | peer_device_options_cmd | peer_device_options_defaults_cmd => true
  | _ => false
  end.

Definition for_resource (cmd : cmd_object) : bool :=
  for_connection cmd ||
  bool_decide (cmd ∈ [new_resource_cmd; res_options_defaults_cmd; new_minor_cmd; down_cmd; primary_cmd; secondary_cmd]).

Definition for_minor (cmd : cmd_object) : bool :=
  bool_decide (cmd ∈ [new_minor_cmd; del_minor_cmd; attach_cmd; detach_cmd; disk_options_defaults_cmd;
                      disk_options_early_defaults_cmd]).

Definition for_volume (cmd : cmd_object) : bool :=
  bool_decide (cmd ∈ [new_minor_cmd; peer_device_options_cmd; peer_device_options_defaults_cmd]).

(** A device without a lower-level device is diskless. *)
Definition diskless_flag (ctx : cfg_ctx) : list (string * option string) :=
  match ctx_cmd ctx, ctx_vol ctx with
  | new_minor_cmd, Some vol => if disk vol then [] else [("diskless", None)]
  | detach_cmd, Some vol => if device vol then [] else [("diskless", None)]
  | _, _ => []
  end.

Definition other_args (ctx : cfg_ctx) : list string :=
  match ctx_cmd ctx, ctx_vol ctx, ctx_path ctx with
  | new_resource_cmd, _, _ => from_option (fun id => [id]) [] (me_node_id (ctx_res ctx))
  | attach_cmd, Some vol, _ =>
      match disk vol, meta_disk vol, meta_index vol with
      | Some d, Some meta, Some index => [d; if is_internal meta then d else meta; index]
      | _, _, _ => []
      end
  | new_path_cmd, _, Some p | del_path_cmd, _, Some p =>
      match my_address p, connect_to p with
      | Some a, Some b => [ssprintf_addr a; ssprintf_addr b]
      | _, _ => []
      end
  | _, _, _ => []
  end.

Definition when_some {A} (b : bool) (x : option A) : option A := if b then x else None.

Definition meaning_of (ctx : cfg_ctx) : meaning :=
  let cmd := ctx_cmd ctx in
  mk_meaning (cmd_name (adm_cmd_of cmd))
    (when_some (for_resource cmd) (Some (res_name (ctx_res ctx))))
    (when_some (for_minor cmd) (device_minor <$> ctx_vol ctx))
    (when_some (for_volume cmd) (vnr <$> ctx_vol ctx))
    (when_some (for_connection cmd) (node_number <$> peer_id ctx))
    (diskless_flag ctx ++ option_values (sent_options ctx))
    (resets cmd) (other_args ctx).

(** The commands of up and adjust that start drbdsetup. *)
Definition configures (cmd : cmd_object) : bool := for_resource cmd || for_minor cmd.

(** ** The command line as items *)

Definition option_item (o : d_option) : item :=
  match o_value o with Some v => WithValue (o_name o) v | None => Alone (o_name o) end.

Definition line_items (ctx : cfg_ctx) : list item :=
  let cmd := ctx_cmd ctx in
  let vol f := from_option (fun v => [Positional (f v)]) [] (ctx_vol ctx) in
  (if for_resource cmd then [Positional (res_name (ctx_res ctx))] else []) ++
  (if for_connection cmd then from_option (fun id => [Positional id]) [] (peer_id ctx) else []) ++
  (if bool_decide (cmd = detach_cmd) then Alone <$> (diskless_flag ctx).*1 else []) ++
  (if for_minor cmd then vol (fun v => show_int (device_minor v)) else []) ++
  (if for_volume cmd then vol (fun v => show_int (vnr v)) else []) ++
  (Positional <$> other_args ctx) ++
  (if bool_decide (cmd = detach_cmd) then [] else Alone <$> (diskless_flag ctx).*1) ++
  (if resets cmd then [Alone "set-defaults"] else []) ++
  (option_item <$> sent_options ctx).

(** ** What is assumed of the configuration *)

Section Understood.
Context `{Hoverrun : !Overrun}.
Context `{Contexts} (sys : Main.system) (ctx_resource_name_size : Z) (drbdsetup : string).

Definition good_name (name : string) : Prop :=
  ensure_sanity_of_res_name name = Ok () /\ name <> "all" /\ plain_text name /\
  Z.of_nat (String.length name) < ctx_resource_name_size.

Definition good_node_id (id : string) : Prop :=
  plain_text id /\ exists n, new_strtoll id Setup.one = (MSE_OK, n) /\ in_u32 n.

Definition good_volume (vol : d_volume) : Prop := 0 <= device_minor vol < 2 ^ 20 /\ 0 <= vnr vol < 2 ^ 16.

(** The context that drbdsetup has for a command. *)
Definition target_context (cmd : cmd_object) : option setup_context :=
  match cmd with
  | disk_options_defaults_cmd | disk_options_early_defaults_cmd => Some disk_options_ctx
  | _ => drbdsetup_ctx (adm_cmd_of cmd)
  end.

Definition context_names (c : option setup_context) : list string :=
  match c with Some c => (context_table c).*1 | None => [] end.

(** An option has a value that is not cut off, and a name that drbdsetup
    knows. *)
Definition option_fits (cmd : cmd_object) (o : d_option) : Prop :=
  o_name o ∈ context_names (target_context cmd) /\
  exists v w, o_value o = Some v /\
    max_width (find_field (fields_of <$> drbdsetup_ctx (adm_cmd_of cmd)) (o_name o)) = Ok w /\
    Z.of_nat (String.length v) <= w.

(** The context has what the command needs. *)
Definition has_all (ctx : cfg_ctx) : Prop :=
  match ctx_cmd ctx with
  | new_resource_cmd => exists id, me_node_id (ctx_res ctx) = Some id /\ plain_text id
  | attach_cmd =>
      exists vol d meta index, ctx_vol ctx = Some vol /\ disk vol = Some d /\ meta_disk vol = Some meta /\
        meta_index vol = Some index /\ d <> "" /\ meta <> "" /\ plain_text d /\ plain_text meta /\ plain_text index
  | new_minor_cmd | del_minor_cmd | detach_cmd | disk_options_defaults_cmd | disk_options_early_defaults_cmd =>
      is_Some (ctx_vol ctx)
  | new_path_cmd | del_path_cmd =>
      exists p a b, ctx_path ctx = Some p /\ my_address p = Some a /\ connect_to p = Some b /\
        plain_text (ssprintf_addr a) /\ plain_text (ssprintf_addr b)
  | peer_device_options_cmd | peer_device_options_defaults_cmd =>
      exists vol conn pd, ctx_vol ctx = Some vol /\ ctx_conn ctx = Some conn /\ find_peer_device conn (vnr vol) = Some pd
  | del_peer_cmd | disconnect_cmd | down_cmd | primary_cmd | secondary_cmd => ctx_vol ctx = None
  | _ => True
  end.

Record well_configured (ctx : cfg_ctx) : Prop := {
  wc_name : good_name (res_name (ctx_res ctx));
  wc_peer : for_connection (ctx_cmd ctx) = true -> exists id, peer_id ctx = Some id /\ good_node_id id;
  wc_vol vol : ctx_vol ctx = Some vol -> good_volume vol;
  wc_all : has_all ctx;
  wc_options : Forall (option_fits (ctx_cmd ctx)) (sent_options ctx);
  wc_room : (length (sent_options ctx) <= 30)%nat
}.

(** ** What drbdadm builds *)

(** The command lines by command. *)
Definition setup_line (ctx : cfg_ctx) : res (list string) :=
  match ctx_cmd ctx with
  | new_resource_cmd | res_options_defaults_cmd => resource_args fields_of drbdsetup [] ctx
  | new_minor_cmd => new_minor_args fields_of drbdsetup [] ctx
  | attach_cmd | disk_options_defaults_cmd | disk_options_early_defaults_cmd => attach_args fields_of drbdsetup [] ctx
  | new_peer_cmd | net_options_defaults_cmd => new_peer_args fields_of drbdsetup [] ctx
  | connect_cmd => connect_args fields_of drbdsetup [] ctx
  | new_path_cmd | del_path_cmd => path_args fields_of drbdsetup [] ctx
  | peer_device_options_cmd | peer_device_options_defaults_cmd =>
      conn ← need (ctx_conn ctx);
      vol ← need (ctx_vol ctx);
      peer_device_args fields_of drbdsetup [] ctx conn vol
  | _ => drbdsetup_args fields_of drbdsetup [] 0 (command_of ctx) ctx
  end.

Lemma make_options_items cmd argv opts :
  Forall (option_fits cmd) opts -> Z.of_nat (length argv + length opts) <= MAX_ARGS ->
  make_options fields_of [] argv opts (drbdsetup_ctx (adm_cmd_of cmd)) =
  Ok (argv ++ (Some <$> (render <$> (option_item <$> opts)))).
Proof using.
  intros Ho. revert argv. induction Ho as [|o opts (_ & v & w & Hv & Hw & Hl) _ IH]; intros argv Hroom; cbn [make_options].
  { by rewrite app_nil_r. }
  cbn [length] in Hroom. unfold make_option. cbn [overridden mbind res_bind]. rewrite Hv, Hw. cbn [mbind res_bind].
  assert (with_precision w v = v) as ->.
  { unfold with_precision. rewrite (proj2 (Z.ltb_ge _ _)) by lia. apply substring_all. lia. }
  rewrite add_arg_guarded. rewrite (proj2 (Z.leb_gt _ _)) by lia. cbn [mbind res_bind].
  rewrite IH by (rewrite length_app; cbn [length]; lia).
  cbn [fmap list_fmap]. rewrite <- app_assoc. unfold option_item at 2. by rewrite Hv.
Qed.

Lemma no_setup_options argv c : add_setup_options fields_of [] argv c = Ok argv.
Proof using. done. Qed.

Lemma add_args_short argv args :
  (length argv + length args <= 8)%nat -> add_args argv args = Ok (argv ++ args).
Proof using. intros Hl. apply add_args_ok. rewrite length_app. unfold MAX_ARGS. lia. Qed.

Lemma add_arg_short argv arg : (length argv <= 8)%nat -> add_arg argv arg = Ok (argv ++ [arg]).
Proof using. intros Hl. rewrite add_arg_guarded. by rewrite (proj2 (Z.leb_gt _ _)) by (unfold MAX_ARGS; lia). Qed.

(** The end of a command line: the options and the terminating NULL. *)
Lemma finish_line cmd l opts :
  Forall (option_fits cmd) opts -> (length opts <= 30)%nat -> (length l <= 8)%nat ->
  (argv ← make_options fields_of [] (Some <$> l) opts (drbdsetup_ctx (adm_cmd_of cmd));
   argv ← add_setup_options fields_of [] argv (drbdsetup_ctx (adm_cmd_of cmd));
   terminate argv) = Ok (l ++ (render <$> (option_item <$> opts))).
Proof using.
  intros Ho Hn Hl. rewrite (make_options_items cmd) by (rewrite ?length_fmap; unfold MAX_ARGS; (done || lia)).
  cbn [mbind res_bind]. rewrite no_setup_options. cbn [mbind res_bind].
  rewrite terminate_short by (rewrite length_app, !length_fmap; unfold MAX_ARGS; lia).
  rewrite <- fmap_app, until_null_some. done.
Qed.

(** The rewriting of a command line whose start is short. *)
#[local] Ltac decide_cmd :=
  cbn [ctx_cmd ctx_vol ctx_conn ctx_path ctx_res];
  repeat match goal with
  | |- context [bool_decide ?P] =>
      first [ replace (bool_decide P) with true by reflexivity | replace (bool_decide P) with false by reflexivity ]
  end.

#[local] Ltac build :=
  repeat first [ rewrite add_args_short by (cbn; lia) | rewrite add_arg_short by (cbn; lia)
               | rewrite no_setup_options
               | progress cbn [mbind res_bind app need negb orb ctx_cmd ctx_vol ctx_conn ctx_path ctx_res] ].

#[local] Ltac finish cmd l Ho Hr :=
  etrans; [apply (finish_line cmd l); [exact Ho|exact Hr|cbn; lia]|].

Lemma resource_line r v c p cmd :
  let ctx := mk_cfg_ctx r v c p cmd in
  well_configured ctx -> cmd = new_resource_cmd \/ cmd = res_options_defaults_cmd ->
  setup_line ctx = Ok (drbdsetup :: cmd_name (command_of ctx) :: (render <$> line_items ctx)).
Proof using.
  cbv zeta. intros [_ _ _ Hall Ho Hr] [-> | ->]; cbn [setup_line ctx_cmd]; unfold resource_args; decide_cmd.
  - destruct Hall as (id & Hid & _). cbn in Hid. build. rewrite Hid. build.
    finish new_resource_cmd [drbdsetup; "new-resource"; res_name r; id] Ho Hr.
    unfold line_items, other_args. cbn [ctx_cmd ctx_res]. by rewrite Hid.
  - build. by finish res_options_defaults_cmd [drbdsetup; "resource-options"; res_name r; "--set-defaults"] Ho Hr.
Qed.

Lemma minor_line r v c p cmd :
  let ctx := mk_cfg_ctx r v c p cmd in
  well_configured ctx ->
  cmd ∈ [new_minor_cmd; attach_cmd; disk_options_defaults_cmd; disk_options_early_defaults_cmd] ->
  setup_line ctx = Ok (drbdsetup :: cmd_name (command_of ctx) :: (render <$> line_items ctx)).
Proof using.
  cbv zeta. intros [_ _ Hv Hall Ho Hr] Hc.
  repeat (apply elem_of_cons in Hc as [-> | Hc]); [..|by apply elem_of_nil in Hc]; cbn [has_all ctx_cmd] in Hall.
  - destruct Hall as [vol Hvol]. cbn in Hvol. subst v. destruct (Hv vol eq_refl) as [Hm Hn].
    cbn [setup_line ctx_cmd]. unfold new_minor_args. build.
    rewrite !show_unsigned_id, <- !show_int_nonneg by solve_int.
    unfold line_items. decide_cmd. destruct (disk vol) eqn:Hd; build.
    + finish new_minor_cmd [drbdsetup; "new-minor"; res_name r; show_int (device_minor vol); show_int (vnr vol)] Ho Hr.
      cbn [diskless_flag ctx_cmd ctx_vol]. by rewrite Hd.
    + finish new_minor_cmd [drbdsetup; "new-minor"; res_name r; show_int (device_minor vol); show_int (vnr vol); "--diskless"] Ho Hr.
      cbn [diskless_flag ctx_cmd ctx_vol]. by rewrite Hd.
  - destruct Hall as (vol & d & meta & index & Hvol & Hd & Hmeta & Hi & Hdn & Hmn & _). cbn in Hvol. subst v.
    cbn [setup_line ctx_cmd]. unfold attach_args. decide_cmd. build. rewrite Hd, Hmeta, Hi.
    unfold streq. rewrite !(proj2 (String.eqb_neq _ _)) by done. build.
    finish attach_cmd [drbdsetup; "attach"; show_int (device_minor vol); d; if is_internal meta then d else meta; index] Ho Hr.
    unfold line_items, other_args. cbn [ctx_cmd ctx_vol]. by rewrite Hd, Hmeta, Hi.
  - destruct Hall as [vol Hvol]. cbn in Hvol. subst v. cbn [setup_line ctx_cmd]. unfold attach_args. decide_cmd. build.
    by finish disk_options_defaults_cmd [drbdsetup; "disk-options"; show_int (device_minor vol); "--set-defaults"] Ho Hr.
  - destruct Hall as [vol Hvol]. cbn in Hvol. subst v. cbn [setup_line ctx_cmd]. unfold attach_args. decide_cmd. build.
    by finish disk_options_early_defaults_cmd [drbdsetup; "disk-options"; show_int (device_minor vol); "--set-defaults"] Ho Hr.
Qed.

Lemma peer_id_Some ctx id : peer_id ctx = Some id -> peer_node_id ctx = Ok (Some id) /\ is_Some (ctx_conn ctx).
Proof using.
  unfold peer_id, peer_node_id. destruct (ctx_conn ctx) as [conn|]; [|done]. cbn.
  destruct (peer conn) as [p|]; [|done]. cbn. by intros ->.
Qed.

Lemma connection_args_ok ctx id :
  peer_id ctx = Some id ->
  connection_args drbdsetup ctx = Ok (Some <$> [drbdsetup; cmd_name (command_of ctx); res_name (ctx_res ctx); id]).
Proof using. intros [Hid _]%peer_id_Some. unfold connection_args. rewrite Hid. by build. Qed.

Lemma connection_line r v c p cmd :
  let ctx := mk_cfg_ctx r v c p cmd in
  well_configured ctx ->
  cmd ∈ [new_peer_cmd; net_options_defaults_cmd; connect_cmd; new_path_cmd; del_path_cmd] ->
  setup_line ctx = Ok (drbdsetup :: cmd_name (command_of ctx) :: (render <$> line_items ctx)).
Proof using.
  cbv zeta. intros [_ Hp _ Hall Ho Hr] Hc. cbn [ctx_cmd] in Hp.
  assert (for_connection cmd = true) as Hfor.
  { repeat (apply elem_of_cons in Hc as [-> | Hc]; [done|]). by apply elem_of_nil in Hc. }
  destruct (Hp Hfor) as (id & Hid & _). pose proof (peer_id_Some _ _ Hid) as [_ [conn Hconn]]. cbn in Hconn. subst c.
  unfold line_items. cbn [ctx_cmd]. rewrite Hid.
  repeat (apply elem_of_cons in Hc as [-> | Hc]); [..|by apply elem_of_nil in Hc]; cbn [has_all ctx_cmd] in Hall;
    cbn [setup_line ctx_cmd].
  - unfold new_peer_args. rewrite (connection_args_ok _ id) by done. decide_cmd. build.
    by finish new_peer_cmd [drbdsetup; "new-peer"; res_name r; id] Ho Hr.
  - unfold new_peer_args. rewrite (connection_args_ok _ id) by done. decide_cmd. build.
    cbn [fmap list_fmap]. build.
    by finish net_options_defaults_cmd [drbdsetup; "net-options"; res_name r; id; "--set-defaults"] Ho Hr.
  - unfold connect_args. rewrite (connection_args_ok _ id) by done. build. done.
  - destruct Hall as (pa & a & b & Hpa & Ha & Hb & _). cbn in Hpa. subst p. unfold path_args, other_args.
    rewrite (connection_args_ok _ id) by done. cbn [ctx_cmd ctx_path fmap list_fmap]. build. rewrite Ha. build. rewrite Hb. by build.
  - destruct Hall as (pa & a & b & Hpa & Ha & Hb & _). cbn in Hpa. subst p. unfold path_args, other_args.
    rewrite (connection_args_ok _ id) by done. cbn [ctx_cmd ctx_path fmap list_fmap]. build. rewrite Ha. build. rewrite Hb. by build.
Qed.

Lemma peer_device_line r v c p cmd :
  let ctx := mk_cfg_ctx r v c p cmd in
  well_configured ctx -> cmd = peer_device_options_cmd \/ cmd = peer_device_options_defaults_cmd ->
  setup_line ctx = Ok (drbdsetup :: cmd_name (command_of ctx) :: (render <$> line_items ctx)).
Proof using.
  cbv zeta. intros [_ Hp _ Hall Ho Hr] Hc. unfold line_items. cbn [ctx_cmd].
  destruct Hc as [-> | ->]; destruct Hall as (vol & conn & pd & Hvol & Hconn & Hpd); cbn in Hvol, Hconn; subst v c;
    (destruct (Hp eq_refl) as (id & Hid & _)); rewrite Hid; cbn [setup_line ctx_cmd]; build; unfold peer_device_args;
    rewrite Hpd; destruct (peer_id_Some _ _ Hid) as [-> _]; decide_cmd; build;
    unfold sent_options in *; cbn [ctx_cmd ctx_vol ctx_conn] in *; rewrite Hpd in *.
  - by finish peer_device_options_cmd [drbdsetup; "peer-device-options"; res_name r; id; show_int (vnr vol)] Ho Hr.
  - by finish peer_device_options_defaults_cmd [drbdsetup; "peer-device-options"; res_name r; id; show_int (vnr vol); "--set-defaults"] Ho Hr.
Qed.

Lemma plain_line r v c p cmd :
  let ctx := mk_cfg_ctx r v c p cmd in
  well_configured ctx ->
  cmd ∈ [detach_cmd; del_minor_cmd; del_peer_cmd; disconnect_cmd; down_cmd; primary_cmd; secondary_cmd] ->
  setup_line ctx = Ok (drbdsetup :: cmd_name (command_of ctx) :: (render <$> line_items ctx)).
Proof using.
  cbv zeta. intros [_ Hp _ Hall _ _] Hc.
  repeat (apply elem_of_cons in Hc as [-> | Hc]); [..|by apply elem_of_nil in Hc]; cbn [has_all ctx_cmd] in Hall;
    cbn [setup_line ctx_cmd]; unfold drbdsetup_args, line_items; cbn [ctx_cmd] in *.
  - destruct Hall as [vol Hvol]. cbn in Hvol. subst v. cbn [diskless_flag ctx_cmd ctx_vol].
    destruct (device vol) eqn:Hd.
    + replace (bool_decide (_ /\ _)) with false by (symmetry; apply bool_decide_eq_false; naive_solver).
      by destruct c; cbn.
    + replace (bool_decide (_ /\ _)) with true by (symmetry; apply bool_decide_eq_true; naive_solver).
      by destruct c; cbn.
  - destruct Hall as [vol Hvol]. cbn in Hvol. subst v. by destruct c; cbn.
  - cbn in Hall. subst v. destruct (Hp eq_refl) as (id & Hid & _). destruct (peer_id_Some _ _ Hid) as [Hn [conn Hconn]].
    cbn in Hconn. subst c. rewrite Hid, Hn. by cbn.
  - cbn in Hall. subst v. destruct (Hp eq_refl) as (id & Hid & _). destruct (peer_id_Some _ _ Hid) as [Hn [conn Hconn]].
    cbn in Hconn. subst c. rewrite Hid, Hn. by cbn.
  - cbn in Hall. subst v. by destruct c.
  - cbn in Hall. subst v. by destruct c.
  - cbn in Hall. subst v. by destruct c.
Qed.

Lemma setup_line_items ctx :
  well_configured ctx -> configures (ctx_cmd ctx) = true ->
  setup_line ctx = Ok (drbdsetup :: cmd_name (command_of ctx) :: (render <$> line_items ctx)).
Proof using.
  intros Hwc Hc. destruct ctx as [r v c p cmd]. cbn [ctx_cmd] in Hc.
  destruct cmd; try discriminate Hc;
    first [ apply resource_line; [exact Hwc|by auto]
          | apply peer_device_line; [exact Hwc|by auto]
          | apply minor_line; [exact Hwc|apply (bool_decide_unpack _); by vm_compute]
          | apply connection_line; [exact Hwc|apply (bool_decide_unpack _); by vm_compute]
          | apply plain_line; [exact Hwc|apply (bool_decide_unpack _); by vm_compute] ].
Qed.

(** ** What drbdsetup makes of it *)

Lemma positional_options opts : omap positional (option_item <$> opts) = [].
Proof using. induction opts as [|o opts IH]; [done|]. cbn. unfold option_item at 1. by destruct (o_value o). Qed.

Lemma given_options cmd opts : Forall (option_fits cmd) opts -> omap given (option_item <$> opts) = option_values opts.
Proof using.
  induction 1 as [|o opts (_ & v & w & Hv & _) _ IH]; [done|]. cbn. unfold option_item at 1. rewrite Hv. cbn. by rewrite IH.
Qed.

Lemma no_set_defaults cmd opts :
  Forall (option_fits cmd) opts -> existsb is_set_defaults (option_item <$> opts) = false.
Proof using.
  induction 1 as [|o opts (_ & v & w & Hv & _) _ IH]; [done|]. cbn. unfold option_item at 1. by rewrite Hv.
Qed.

(** The arguments that say what object the command is for. *)
Definition object_args (ctx : cfg_ctx) : list string :=
  let cmd := ctx_cmd ctx in
  let vol f := from_option (fun v => [f v]) [] (ctx_vol ctx) in
  (if for_resource cmd then [res_name (ctx_res ctx)] else []) ++
  (if for_connection cmd then from_option (fun id => [id]) [] (peer_id ctx) else []) ++
  (if for_minor cmd then vol (fun v => show_int (device_minor v)) else []) ++
  (if for_volume cmd then vol (fun v => show_int (vnr v)) else []).

Lemma positional_all (l : list string) : omap positional (Positional <$> l) = l.
Proof using. induction l as [|a l IH]; [done|]. cbn. by rewrite IH. Qed.

Lemma diskless_flag_cases ctx : diskless_flag ctx = [] \/ diskless_flag ctx = [("diskless", None)].
Proof using.
  unfold diskless_flag. destruct (ctx_cmd ctx), (ctx_vol ctx) as [v|]; auto; [destruct (device v)|destruct (disk v)]; auto.
Qed.

Lemma positional_line ctx : omap positional (line_items ctx) = object_args ctx ++ other_args ctx.
Proof using.
  unfold line_items, object_args. cbv zeta.
  repeat rewrite omap_app. rewrite positional_options, positional_all, app_nil_r, <- !app_assoc.
  destruct (diskless_flag_cases ctx) as [-> | ->]; destruct (for_resource _), (for_connection _), (for_minor _), (for_volume _),
    (bool_decide _), (resets _), (peer_id ctx), (ctx_vol ctx); cbn [from_option fmap list_fmap fst omap list_omap positional app]; rewrite ?app_nil_r; try done.
Qed.

Lemma given_line ctx :
  well_configured ctx -> omap given (line_items ctx) = diskless_flag ctx ++ option_values (sent_options ctx).
Proof using.
  intros [_ _ _ _ Ho _]. unfold line_items. cbv zeta. repeat rewrite omap_app. rewrite (given_options _ _ Ho).
  assert (omap given (Positional <$> other_args ctx) = []) as ->.
  { generalize (other_args ctx). intros l. induction l; done. }
  destruct (diskless_flag_cases ctx) as [-> | ->]; destruct (for_resource _), (for_connection _), (for_minor _), (for_volume _),
    (bool_decide _), (resets _), (peer_id ctx), (ctx_vol ctx); done.
Qed.

Lemma resets_line ctx : well_configured ctx -> existsb is_set_defaults (line_items ctx) = resets (ctx_cmd ctx).
Proof using.
  intros [_ _ _ _ Ho _]. unfold line_items. cbv zeta. repeat rewrite existsb_app. rewrite (no_set_defaults _ _ Ho).
  assert (existsb is_set_defaults (Positional <$> other_args ctx) = false) as ->.
  { generalize (other_args ctx). intros l. induction l; done. }
  destruct (diskless_flag_cases ctx) as [-> | ->]; destruct (for_resource _), (for_connection _), (for_minor _), (for_volume _),
    (bool_decide _), (resets _), (peer_id ctx), (ctx_vol ctx); done.
Qed.

(** What a command is for, and how many arguments it takes. *)
Definition object_key (cmd : cmd_object) : Z :=
  match cmd with
  | new_minor_cmd => Z.lor (Z.lor (Z.lor CTX_RESOURCE CTX_MINOR) CTX_VOLUME) CTX_MULTIPLE_ARGUMENTS
  | peer_device_options_cmd | peer_device_options_defaults_cmd => CTX_PEER_DEVICE
  | down_cmd => Z.lor CTX_RESOURCE CTX_ALL
  | _ => if for_connection cmd then CTX_PEER_NODE else if for_minor cmd then CTX_MINOR else CTX_RESOURCE
  end.

Definition arg_count (cmd : cmd_object) : nat :=
  match cmd with
  | new_resource_cmd => 1
  | attach_cmd => 3
  | new_path_cmd | del_path_cmd => 2
  | _ => 0
  end.

(** The command of drbdsetup. *)
Definition setup_cmd_ok (cmd : cmd_object) (cm : drbd_cmd) : Prop :=
  find_cmd_by_name (cmd_name (adm_cmd_of cmd)) = Some cm /\ dc_cmd cm = cmd_name (adm_cmd_of cmd) /\
  dc_options cm = [] /\ (dc_set_defaults cm = true -> dc_cmd cm <> "primary" /\ dc_cmd cm <> "connect") /\
  dc_ctx cm = target_context cmd /\ (resets cmd = true -> dc_set_defaults cm = true) /\
  dc_ctx_key cm = object_key cmd /\ length (dc_args cm) = arg_count cmd.

Lemma setup_cmd_found cmd : configures cmd = true -> exists cm, setup_cmd_ok cmd cm.
Proof using.
  intros Hc. unfold setup_cmd_ok. destruct cmd; try discriminate Hc; eexists; (split; [reflexivity|]); by split_and!.
Qed.

(** Flags of a context. *)
Lemma flag_known cm c name :
  dc_ctx cm = Some c -> (name, true) ∈ context_table c -> known cm (Alone name).
Proof using.
  intros Hc Hin. rewrite <- fields_table in Hin. apply list_elem_of_fmap in Hin as (f & Hf & Hin).
  apply (known_flag cm name f); [by unfold cmd_fields; rewrite Hc|congruence|congruence].
Qed.

Lemma show_int_plain n : 0 <= n < 2 ^ 31 -> plain_text (show_int n).
Proof using. intros Hn. rewrite show_int_nonneg by done. apply show_u_plain. solve_int. Qed.

Lemma other_args_plain ctx : well_configured ctx -> configures (ctx_cmd ctx) = true -> Forall plain_text (other_args ctx).
Proof using.
  intros [_ _ _ Hall _ _] _. destruct ctx as [r v c p cmd]. unfold has_all, other_args in *. cbn [ctx_cmd ctx_vol ctx_path ctx_res] in *.
  destruct cmd; try (by constructor).
  - destruct Hall as (vol & d & meta & index & -> & Hd & Hm & Hi & _ & _ & ? & ? & ?). rewrite Hd, Hm, Hi.
    repeat constructor; [done| |done]. by destruct (is_internal meta).
  - destruct Hall as (pa & a & b & -> & Ha & Hb & ? & ?). rewrite Ha, Hb. by repeat constructor.
  - destruct Hall as (pa & a & b & -> & Ha & Hb & ? & ?). rewrite Ha, Hb. by repeat constructor.
  - destruct Hall as (id & Hid & ?). rewrite Hid. by repeat constructor.
Qed.

Lemma line_known ctx cm :
  well_configured ctx -> configures (ctx_cmd ctx) = true -> setup_cmd_ok (ctx_cmd ctx) cm -> Forall (known cm) (line_items ctx).
Proof using.
  intros Hwc Hc (Hf & Hn & Hopts & Hp & Hctx & Hd & _). pose proof Hwc as [Hname Hpeer Hvol Hall Ho Hr].
  assert (forall x, Forall plain_text x -> Forall (known cm) (Positional <$> x)) as Hplain.
  { intros x Hx. apply Forall_fmap. eapply Forall_impl; [exact Hx|]. intros a Ha. by apply known_plain. }
  assert (forall b : bool, Forall (known cm) (if b then Alone <$> (diskless_flag ctx).*1 else [])) as Hdl.
  { intros [|]; [|by constructor]. unfold diskless_flag.
    destruct (ctx_cmd ctx) eqn:Hcmd, (ctx_vol ctx) as [vol|]; try (by constructor).
    - destruct (device vol); repeat constructor. eapply flag_known; [exact Hctx|]. apply (bool_decide_unpack _). by vm_compute.
    - destruct (disk vol); repeat constructor. eapply flag_known; [exact Hctx|]. apply (bool_decide_unpack _). by vm_compute. }
  assert (forall f, (forall vol, ctx_vol ctx = Some vol -> 0 <= f vol < 2 ^ 31) ->
    Forall (known cm) (from_option (fun v => [Positional (show_int (f v))]) [] (ctx_vol ctx))) as Hnum.
  { intros f Hb. destruct (ctx_vol ctx) as [vol|]; repeat constructor. by apply show_int_plain, Hb. }
  unfold line_items. cbv zeta. rewrite !Forall_app. split_and!.
  - destruct (for_resource _); repeat constructor. by destruct Hname as (_ & _ & ? & _).
  - destruct (for_connection _); [|by constructor]. destruct (Hpeer eq_refl) as (id & -> & Hid & _). by repeat constructor.
  - exact (Hdl _).
  - destruct (for_minor _); [|by constructor]. apply Hnum. intros vol Hv. destruct (Hvol vol Hv). lia.
  - destruct (for_volume _); [|by constructor]. apply Hnum. intros vol Hv. destruct (Hvol vol Hv). lia.
  - by apply Hplain, other_args_plain.
  - pose proof (Hdl (negb (bool_decide (ctx_cmd ctx = detach_cmd)))) as Hx. by destruct (bool_decide _).
  - destruct (resets _); repeat constructor. by apply Hd.
  - apply Forall_fmap. eapply Forall_impl; [exact Ho|]. intros o (Hin & v & w & Hv & _). unfold compose, option_item.
    rewrite Hv. apply known_value. unfold cmd_fields. rewrite Hctx. unfold context_names in Hin.
    destruct (target_context _); [by rewrite field_names|by apply elem_of_nil in Hin].
Qed.

Lemma other_args_length ctx :
  well_configured ctx -> length (other_args ctx) = arg_count (ctx_cmd ctx).
Proof using.
  intros [_ _ _ Hall _ _]. destruct ctx as [r v c p cmd]. unfold has_all, other_args in *.
  cbn [ctx_cmd ctx_vol ctx_path ctx_res] in *. destruct cmd; try done.
  - destruct Hall as (vol & d & meta & index & -> & Hd & Hm & Hi & _). by rewrite Hd, Hm, Hi.
  - destruct Hall as (pa & a & b & -> & Ha & Hb & _). by rewrite Ha, Hb.
  - destruct Hall as (pa & a & b & -> & Ha & Hb & _). by rewrite Ha, Hb.
  - destruct Hall as (id & Hid & _). by rewrite Hid.
Qed.

(** The arguments for the object, one by one. *)
Lemma arg_resource key name :
  key ∈ [CTX_RESOURCE; Z.lor CTX_RESOURCE CTX_ALL] -> good_name name ->
  context_arg sys ctx_resource_name_size key name no_context =
  Ok (no_context <| objname := Some name |> <| ctx_resource_name := Some name |>).
Proof using.
  intros Hk (Hs & Ha & _ & Hl). apply String.eqb_neq in Ha. apply Z.ltb_lt in Hl.
  repeat (apply elem_of_cons in Hk as [-> | Hk]); [..|by apply elem_of_nil in Hk]; unfold context_arg;
    rewrite Hs; cbn [mbind res_bind]; rewrite Ha; cbn; by rewrite Hl.
Qed.

Lemma all_chars_mono f g s : (forall c, f c = true -> g c = true) -> all_chars f s = true -> all_chars g s = true.
Proof using.
  intros Hfg. induction s as [|c s IH]; [done|]. cbn. intros [Hc Hs]%andb_true_iff. by rewrite (Hfg _ Hc), IH.
Qed.

Lemma show_int_sane n : 0 <= n < 2 ^ 31 -> ensure_sanity_of_res_name (show_int n) = Ok () /\ show_int n <> "all".
Proof using.
  intros Hn. rewrite show_int_nonneg by done. pose proof (show_u_digits n ltac:(solve_int)) as Hd. split.
  - unfold ensure_sanity_of_res_name. destruct (show_u n "") as [|c s]; [done|]. cbn [String.eqb].
    rewrite (all_chars_mono isdigit); [done| |done]. clear. intros c Hc. unfold isdigit, SharedTool.between in Hc.
    apply andb_true_iff in Hc as [H1%Z.leb_le H2%Z.leb_le]. apply negb_true_iff, orb_false_iff.
    change (code " ") with 32. split; [apply Z.ltb_ge|apply Z.eqb_neq]; lia.
  - intros He. by rewrite He in Hd.
Qed.

Lemma arg_minor m c :
  0 <= m < 2 ^ 20 ->
  context_arg sys ctx_resource_name_size CTX_MINOR (show_int m) c =
  Ok (c <| objname := Some (default (show_int m) (objname c)) |> <| ctx_minor := Some m |>).
Proof using.
  intros Hm. destruct (show_int_sane m ltac:(lia)) as [Hs Ha%String.eqb_neq]. unfold context_arg.
  replace (truth (Z.land CTX_MINOR (Z.lor (Z.lor CTX_RESOURCE CTX_MINOR) CTX_ALL))) with true by reflexivity.
  rewrite Hs. cbn [mbind res_bind]. rewrite Ha. replace (truth (Z.land CTX_MINOR CTX_MINOR)) with true by reflexivity.
  assert (Main.dt_minor_of_dev sys (show_int m) = m) as ->.
  { rewrite show_int_nonneg by lia. unfold Main.dt_minor_of_dev. rewrite show_u_digits by solve_int.
    rewrite strtol_show_u by (done || lia). apply s32_id. solve_int. }
  rewrite u32_id by solve_int. by rewrite (proj2 (Z.eqb_neq m (u32 (-1)))) by (change (u32 (-1)) with (2 ^ 32 - 1); lia).
Qed.

Lemma arg_node id c :
  good_node_id id ->
  context_arg sys ctx_resource_name_size CTX_PEER_NODE_ID id c =
  Ok (c <| ctx_peer_node_id := Some (node_number id) |>).
Proof using.
  intros (_ & n & Hid & Hn). unfold context_arg, node_number.
  replace (truth (Z.land CTX_PEER_NODE_ID _)) with false by reflexivity. cbn [Z.eqb Pos.eqb]. replace (CTX_PEER_NODE_ID =? CTX_VOLUME) with false by reflexivity. replace (CTX_PEER_NODE_ID =? CTX_PEER_NODE_ID) with true by reflexivity. rewrite Hid. cbn [snd]. by rewrite u32_id.
Qed.

Lemma arg_volume n c :
  0 <= n < 2 ^ 16 ->
  context_arg sys ctx_resource_name_size CTX_VOLUME (show_int n) c = Ok (c <| ctx_volume := Some n |>).
Proof using.
  intros Hn. unfold context_arg. replace (truth (Z.land CTX_VOLUME _)) with false by reflexivity.
  rewrite show_int_nonneg by lia. unfold m_strtoll_res, m_strtoll. unfold Setup.one.
  rewrite new_strtoll_show_u by solve_int. cbn [mbind res_bind]. by rewrite u32_id by solve_int.
Qed.

(** The context after the arguments for the object. *)
Definition object_of (ctx : cfg_ctx) (c : context) : Prop :=
  let m := meaning_of ctx in
  ctx_resource_name c = mn_resource m /\ ctx_minor c = mn_minor m /\ ctx_volume c = mn_volume m /\
  ctx_peer_node_id c = mn_node m.

(** The keys one after the other. *)
Lemma context_args_step n key next key' arg args c c' :
  ctx_next_arg key = (next, key') -> next <> 0 -> context_arg sys ctx_resource_name_size next arg c = Ok c' ->
  context_args sys ctx_resource_name_size (S n) key (arg :: args) c =
  context_args sys ctx_resource_name_size n key' args c'.
Proof using.
  intros Hk Hn Ha. cbn [context_args]. rewrite Hk. cbv beta iota. rewrite (proj2 (Z.eqb_neq _ _) Hn). by rewrite Ha.
Qed.

Lemma context_args_end n key args c :
  (ctx_next_arg key).1 = 0 -> context_args sys ctx_resource_name_size (S n) key args c = Ok (c, args).
Proof using. intros Hk. cbn [context_args]. by destruct (ctx_next_arg key) as [next key'] eqn:He; cbn in Hk; subst next. Qed.

#[local] Ltac next_arg H := erewrite context_args_step; [|reflexivity|discriminate|apply H].
#[local] Ltac last_arg := rewrite context_args_end by reflexivity; eexists; split; [reflexivity|].

#[local] Ltac flag f := repeat match goal with
  | |- context [f ?c] => let v := eval vm_compute in (f c) in change (f c) with v
  end.
#[local] Ltac flags :=
  flag for_minor; flag for_volume; flag for_resource; flag for_connection; cbn [object_key app from_option].

Lemma context_args_object ctx rest :
  well_configured ctx -> configures (ctx_cmd ctx) = true ->
  exists c, context_args sys ctx_resource_name_size 5 (object_key (ctx_cmd ctx)) (object_args ctx ++ rest) no_context =
    Ok (c, rest) /\ object_of ctx c.
Proof using.
  intros Hwc Hc. pose proof Hwc as [Hname Hpeer Hvol Hall _ _].
  assert (for_minor (ctx_cmd ctx) || for_volume (ctx_cmd ctx) = true -> exists vol, ctx_vol ctx = Some vol /\ good_volume vol)
    as Hv.
  { destruct ctx as [r v c p cmd]. unfold has_all in Hall. cbn [ctx_cmd ctx_vol] in *.
    destruct cmd; try discriminate 1; intros _;
      first [ destruct Hall as (vol & _ & _ & _ & Hvol' & _); exists vol; by split; [exact Hvol'|exact (Hvol vol Hvol')]
            | destruct Hall as (vol & _ & _ & Hvol' & _); exists vol; by split; [exact Hvol'|exact (Hvol vol Hvol')]
            | destruct Hall as [vol Hvol']; exists vol; by split; [exact Hvol'|exact (Hvol vol Hvol')] ]. }
  pose proof (fun key Hk => arg_resource key _ Hk Hname) as Hres.
  unfold object_args, object_of, meaning_of.
  destruct (for_connection (ctx_cmd ctx)) eqn:Hconn.
  - destruct (Hpeer eq_refl) as (id & Hid & Hgood). rewrite Hid.
    destruct (for_volume (ctx_cmd ctx)) eqn:Hfv.
    + destruct (Hv ltac:(by rewrite orb_true_r)) as (vol & Hvol' & Hm & Hn). rewrite Hvol'.
      destruct (ctx_cmd ctx); try discriminate Hconn; try discriminate Hfv; flags;
        next_arg (Hres CTX_RESOURCE ltac:(by left)); next_arg (fun c => arg_node id c Hgood); next_arg (fun c => arg_volume (vnr vol) c Hn);
        by last_arg.
    + destruct (ctx_cmd ctx); try discriminate Hconn; try discriminate Hfv; flags;
        next_arg (Hres CTX_RESOURCE ltac:(by left)); next_arg (fun c => arg_node id c Hgood); by last_arg.
  - destruct (for_minor (ctx_cmd ctx)) eqn:Hfm.
    + destruct (Hv eq_refl) as (vol & Hvol' & Hm & Hn). rewrite Hvol'.
      destruct (ctx_cmd ctx); try discriminate Hconn; try discriminate Hfm; flags;
        first [ next_arg (fun c => arg_minor (device_minor vol) c Hm); by last_arg
              | next_arg (Hres CTX_RESOURCE ltac:(by left)); next_arg (fun c => arg_minor (device_minor vol) c Hm);
                next_arg (fun c => arg_volume (vnr vol) c Hn); by last_arg ].
    + destruct (ctx_cmd ctx); try discriminate Hconn; try discriminate Hfm; try discriminate Hc; flags;
        first [ next_arg (Hres CTX_RESOURCE ltac:(by left)); by last_arg
              | next_arg (Hres (Z.lor CTX_RESOURCE CTX_ALL) ltac:(by right; left)); by last_arg ].
Qed.

Lemma target_simple cmd cm : setup_cmd_ok cmd cm -> simple_cmd cm.
Proof using. intros (_ & _ & Ho & Hp & _). by apply simple_cmd_ok. Qed.

(** The line is understood as it is meant, and the options of the request are
    fields of the context of the command. *)
Lemma line_understood ctx :
  well_configured ctx -> configures (ctx_cmd ctx) = true ->
  exists argv rq, setup_line ctx = Ok (drbdsetup :: argv) /\
    drbdsetup_main sys ctx_resource_name_size true argv = Ok rq /\ request_meaning rq = meaning_of ctx /\
    Forall (fun y => exists c, target_context (ctx_cmd ctx) = Some c /\ y.1 ∈ ctx_fields (fields_of c)) (rq_options rq).
Proof using.
  intros Hwc Hc. destruct (setup_cmd_found _ Hc) as [cm Hcm]. pose proof Hcm as (Hf & Hn & _ & _ & Htarget & _ & Hkey & Hargs).
  pose proof (line_known ctx cm Hwc Hc Hcm) as Hk. pose proof (target_simple _ _ Hcm) as Hs.
  destruct (context_args_object ctx (other_args ctx) Hwc Hc) as (c & Hctx & Hobj).
  destruct (setup_request_items sys ctx_resource_name_size cm (line_items ctx) c (other_args ctx) Hs Hk) as (opts & Hr & Hopts & Hfields).
  { by rewrite Hkey, positional_line. }
  { by rewrite Hargs, other_args_length. }
  exists (cmd_name (command_of ctx) :: (render <$> line_items ctx)). eexists. split_and!.
  - by apply setup_line_items.
  - unfold command_of. rewrite <- Hn. rewrite <- Hn in Hf. rewrite drbdsetup_main_items by done. exact Hr.
  - unfold request_meaning. cbn [rq_cmd rq_context rq_options rq_set_defaults rq_args]. rewrite Hopts, given_line, resets_line by done.
    destruct Hobj as (-> & -> & -> & ->). by rewrite Hn.
  - cbn [rq_options]. eapply Forall_impl; [exact Hfields|]. intros y Hy. unfold cmd_fields in Hy. rewrite Htarget in Hy.
    destruct (target_context _) as [tc|]; [by exists tc|by apply elem_of_nil in Hy].
Qed.
End Understood.
