(* ===== verification/Requested.v ===== *)
(** * What drbdadm asks drbdsetup for

    The commands of drbdadm that bring resources up, adjust them and take them
    down start drbdsetup with command lines that it understands as they are
    meant (Understood): from the configuration to the request in one theorem. *)

From S2P Require Import Prelude Machine SharedTool ConfigFlags Address AdmConfig Argv Getopt Numerals Contexts Deferred AdmCommands ArgvFits Setup SetupRequests Understood.
From S2P Require Main Effects.
From Stdlib Require Import Ascii String.
From stdpp Require Import strings.

#[local] Open Scope string_scope.
#[local] Open Scope list_scope.
#[local] Open Scope Z_scope.

Section Requested.
Context `{Hoverrun : !Overrun}.
Context `{Contexts} (sys : Main.system) (ctx_resource_name_size : Z) (drbdsetup : string).

Context (drbdmeta : string) (is_drbd_top do_register : bool) (verbose : Z).

(** The function of a command in a world that remembers what is started, and in
    which every program succeeds. *)
Definition run_adm (ctx : cfg_ctx) (w : list (list string)) : res Z * list (list string) :=
  match cmd_function fields_of drbdsetup drbdmeta [] false is_drbd_top do_register verbose logging logging_stderr
          (fun _ _ => 0) (fun w => w) (fun _ w => w) (fun _ w => w) ctx with
  | Some f => f w
  | None => (Fault, w)
  end.

(** The meta data is repaired, and the activity log applied, before attaching. *)
Definition meta_line (ctx : cfg_ctx) (cmd : cmd_object) : option (list string) :=
  vol ← ctx_vol ctx;
  d ← disk vol;
  meta ← meta_disk vol;
  index ← meta_index vol;
  Some [drbdmeta; show_int (device_minor vol); "v09"; if is_internal meta then d else meta;
        if streq index "flexible" then (if is_internal meta then "flex-internal" else "flex-external") else index;
        cmd_name (adm_cmd_of cmd)].

Definition started_before (ctx : cfg_ctx) : list (list string) :=
  match ctx_cmd ctx with
  | attach_cmd => omap (meta_line ctx) [repair_md_cmd; apply_al_cmd]
  | _ => []
  end.

Lemma drbdmeta_line ctx vol cmd d meta index :
  cmd = repair_md_cmd \/ cmd = apply_al_cmd ->
  ctx_vol ctx = Some vol -> disk vol = Some d -> meta_disk vol = Some meta -> meta_index vol = Some index ->
  d <> "" -> meta <> "" ->
  exists l, drbdmeta_args fields_of drbdmeta [] (with_cmd ctx cmd) None = Ok l /\ meta_line ctx cmd = Some l.
Proof using.
  intros Hc Hvol Hd Hm Hi Hdn Hmn. eexists. unfold meta_line. rewrite Hvol. cbn [mbind option_bind]. rewrite Hd, Hm, Hi.
  split; [|reflexivity].
  apply String.eqb_neq in Hdn, Hmn. unfold drbdmeta_args. destruct ctx as [r v c p cmd0]. cbn [ctx_vol with_cmd] in *. subst v.
  destruct Hc as [-> | ->]; unfold meta_device, meta_index_arg; cbn [ctx_vol need]; cbn [mbind res_bind];
    rewrite Hd, Hm, Hi; cbn [need mbind res_bind]; unfold streq; rewrite Hmn; cbn [negb assert_res mbind res_bind];
    destruct (is_internal meta); rewrite ?Hdn; destruct (String.eqb index "flexible"); reflexivity.
Qed.

Lemma act_bind_ok {W A B} (m : act W A) (k : A -> act W B) w a w' : m w = (Ok a, w') -> (m ≫= k) w = k a w'.
Proof using. intros Hm. unfold mbind, act_bind. by rewrite Hm. Qed.

Lemma start_logs r flags l w : r = Ok l -> start logging r flags w = (Ok 0, w ++ [l]).
Proof using. by intros ->. Qed.

Lemma meta_call ctx cmd vol d meta index w :
  cmd = repair_md_cmd \/ cmd = apply_al_cmd ->
  ctx_vol ctx = Some vol -> disk vol = Some d -> meta_disk vol = Some meta -> meta_index vol = Some index ->
  d <> "" -> meta <> "" ->
  call_cmd_fn (adm_drbdmeta fields_of drbdmeta [] logging) cmd ctx KEEP_RUNNING w =
  (Ok 0, w ++ omap (meta_line ctx) [cmd]).
Proof using.
  intros Hc Hvol Hd Hm Hi Hdn Hmn. destruct (drbdmeta_line ctx vol cmd d meta index) as (l & Hl & Hline); [done..|].
  cbn [omap list_omap]. rewrite Hline. unfold call_cmd_fn, __call_cmd_fn.
  assert (no_local_disk vol = false) as Hno.
  { unfold no_local_disk. apply bool_decide_eq_false. rewrite Hd, Hm, Hi. naive_solver. }
  replace (ctx_vol (with_cmd ctx cmd)) with (Some vol) by (by destruct ctx).
  replace (ctx_cmd (with_cmd ctx cmd)) with cmd by (by destruct ctx). rewrite Hno.
  replace (bool_decide (ctx_path (with_cmd ctx cmd) = None) && iterate_paths (adm_cmd_of cmd)) with false
    by (destruct Hc as [-> | ->]; by rewrite andb_false_r).
  assert (call_function (adm_drbdmeta fields_of drbdmeta [] logging) (with_cmd ctx cmd) KEEP_RUNNING w =
    (Ok 0, w ++ [l])) as Hcall.
  { unfold call_function, adm_drbdmeta, _adm_drbdmeta. by rewrite (start_logs _ _ l). }
  by destruct Hc as [-> | ->].
Qed.

Lemma run_adm_starts ctx line w :
  well_configured ctx_resource_name_size ctx -> configures (ctx_cmd ctx) = true -> setup_line drbdsetup ctx = Ok line ->
  run_adm ctx w = (Ok 0, w ++ started_before ctx ++ [line]).
Proof using.
  intros Hwc Hc Hline. pose proof Hwc as [_ _ _ Hall _ _]. unfold run_adm, cmd_function, started_before.
  destruct ctx as [r v c p cmd]. unfold has_all, setup_line in *. cbn [ctx_cmd ctx_vol ctx_conn] in *.
  destruct cmd; try discriminate Hc; cbn [app];
    try (unfold adm_attach, adm_new_peer, adm_path, adm_connect, adm_drbdsetup, _adm_drbdsetup;
         cbn [ctx_cmd]; rewrite ?bool_decide_eq_false_2 by done; by apply start_logs).
  - destruct Hall as (vol & d & meta & index & -> & Hd & Hm & Hi & Hdn & Hmn & _). unfold adm_attach. cbn [ctx_cmd].
    rewrite bool_decide_eq_true_2 by done.
    etrans; [eapply act_bind_ok, (meta_call _ repair_md_cmd vol d meta index); by auto|]. cbv beta.
    change (truth 0) with false. cbv iota.
    etrans; [eapply act_bind_ok, (meta_call _ apply_al_cmd vol d meta index); by auto|]. cbv beta.
    change (truth 0) with false. cbv iota. rewrite (start_logs _ _ line) by done. f_equal.
    destruct (drbdmeta_line (mk_cfg_ctx r (Some vol) c p attach_cmd) vol repair_md_cmd d meta index) as (l1 & _ & Hl1); [by auto..|].
    destruct (drbdmeta_line (mk_cfg_ctx r (Some vol) c p attach_cmd) vol apply_al_cmd d meta index) as (l2 & _ & Hl2); [by auto..|].
    cbn [omap list_omap]. rewrite Hl1, Hl2. by rewrite <- !app_assoc.
  - destruct Hall as (vol & conn & pd & -> & -> & _). by apply start_logs.
  - unfold adm_resource. etrans; [eapply act_bind_ok, (start_logs _ _ line); exact Hline|]. by destruct (_ && _).
  - unfold adm_new_minor. destruct Hall as [vol ->].
    etrans; [eapply act_bind_ok; reflexivity|]. cbv beta.
    etrans; [eapply act_bind_ok, (start_logs _ _ line); exact Hline|]. by destruct (_ && _).
  - unfold adm_resource. etrans; [eapply act_bind_ok, (start_logs _ _ line); exact Hline|]. by destruct (_ && _).
  - destruct Hall as (vol & conn & pd & -> & -> & _). by apply start_logs.
Qed.

(** C36: What drbdadm starts to configure a resource, a device, a connection, a
    path or a peer device, to attach, or to take them away again, is understood
    by drbdsetup as it is meant: the command starts drbdsetup once - after
    drbdmeta has repaired the meta data and applied the activity log, if it
    attaches -, and drbdsetup takes the command line for a request for that
    object, with exactly the configured options and their values, with the
    other options reset when the command is to set defaults, and with the other
    arguments in place; it never refuses the line, and no option is lost or
    taken for an argument. *)
Theorem drbdsetup_understands ctx w :
  well_configured ctx_resource_name_size ctx -> configures (ctx_cmd ctx) = true ->
  exists argv rq, run_adm ctx w = (Ok 0, w ++ started_before ctx ++ [drbdsetup :: argv]) /\
    drbdsetup_main sys ctx_resource_name_size true argv = Ok rq /\ request_meaning rq = meaning_of ctx.
Proof using.
  intros Hwc Hc. destruct (line_understood sys ctx_resource_name_size drbdsetup ctx Hwc Hc) as (argv & rq & Hl & Hrq & Hm & _).
  exists argv, rq. split_and!; [by apply run_adm_starts|done|done].
Qed.
End Requested.

(** ** An example *)

(** Attaching a disk with internal meta data and two options. *)
Definition attached_volume : d_volume :=
  example_volume <| disk_options := [mk_d_option "al-extents" (Some "6001") false false false;
                                     mk_d_option "on-io-error" (Some "detach") false false false] |>.

Definition attaching : cfg_ctx :=
  mk_cfg_ctx (plain_resource 1 "r0" [attached_volume] [] []) (Some attached_volume) None None attach_cmd.

#[local] Existing Instance text_contexts.

Lemma attaching_configured : well_configured 128 attaching.
Proof.
  split.
  - split_and!; [done|discriminate|done|cbn; lia].
  - discriminate.
  - intros vol [= <-]. split; cbn; lia.
  - exists attached_volume, "/dev/sda1", "internal", "internal". by split_and!.
  - assert (Hfits : forall n v, n ∈ context_names (Some attach_cmd_ctx) ->
      max_width (find_field (Some (fields_of attach_cmd_ctx)) n) = Ok 512 -> Z.of_nat (String.length v) <= 512 ->
      option_fits attach_cmd (mk_d_option n (Some v) false false false)).
    { intros n v Hn Hw Hl. split; [exact Hn|]. by exists v, 512. }
    apply Forall_cons_2; [|apply Forall_cons_2; [|by constructor]]; (apply Hfits; [|done|done]);
      apply (bool_decide_unpack _); by vm_compute.
  - cbn. lia.
Qed.

Lemma drbdsetup_understands_witness :
  exists argv rq,
    run_adm "drbdsetup" "drbdmeta" false false 0 attaching [] =
      (Ok 0, [["drbdmeta"; "1"; "v09"; "/dev/sda1"; "internal"; "repair-md"];
              ["drbdmeta"; "1"; "v09"; "/dev/sda1"; "internal"; "apply-al"];
              "drbdsetup" :: argv]) /\
    argv = ["attach"; "1"; "/dev/sda1"; "/dev/sda1"; "internal"; "--al-extents=6001"; "--on-io-error=detach"] /\
    drbdsetup_main Effects.example_system 128 true argv = Ok rq /\
    request_meaning rq = mk_meaning "attach" None (Some 1) None None
      [("al-extents", Some "6001"); ("on-io-error", Some "detach")] false ["/dev/sda1"; "/dev/sda1"; "internal"].
Proof.
  destruct (drbdsetup_understands Effects.example_system 128 "drbdsetup" "drbdmeta" false false 0 attaching []
              attaching_configured ltac:(reflexivity)) as (argv & rq & Hrun & Hrq & Hm).
  exists argv, rq. split_and!; [exact Hrun| |exact Hrq|exact Hm].
  assert (Hl : run_adm "drbdsetup" "drbdmeta" false false 0 attaching [] =
    (Ok 0, [["drbdmeta"; "1"; "v09"; "/dev/sda1"; "internal"; "repair-md"];
            ["drbdmeta"; "1"; "v09"; "/dev/sda1"; "internal"; "apply-al"];
            ["drbdsetup"; "attach"; "1"; "/dev/sda1"; "/dev/sda1"; "internal"; "--al-extents=6001"; "--on-io-error=detach"]])).
  { by vm_compute. }
  rewrite Hl in Hrun. by injection Hrun as <-.
Defined.
