(* ===== verification/Settings.v ===== *)
(** * Settings on their way to the kernel and back

    The composition of the components that carry the options of the
    configuration: drbdadm builds a command line (AdmCommands), drbdsetup
    parses it (Setup) and puts the options into the nested attribute of a
    request (Options), the kernel reports what it was given, drbdsetup shows it
    (Options), and drbdadm adjust compares it with the configuration
    (Adjust). *)

From S2P Require Import Prelude Machine Nla NlaPut SharedTool ConfigFlags Options Address AdmConfig Argv Getopt Contexts Deferred Adjust AdmCommands ArgvFits Setup SetupRequests Understood Requested.
From S2P Require Main Effects.
From Stdlib Require Import Ascii String.
From stdpp Require Import strings.

#[local] Open Scope string_scope.
#[local] Open Scope list_scope.
#[local] Open Scope Z_scope.

Section Settings.
Context `{Hoverrun : !Overrun}.
Context `{Contexts} (sys : Main.system) (ctx_resource_name_size : Z) (drbdsetup : string).

(** Fields of a context are known by their names. *)
Lemma arguments_by_name c (l : list (field_def * option string)) (opts : list (field_def * string)) :
  Forall (fun y => y.1 ∈ ctx_fields (fields_of c)) l -> Forall (fun x => x.1 ∈ ctx_fields (fields_of c)) opts ->
  (fun y => (fd_name y.1, y.2)) <$> l = (fun x => (fd_name x.1, Some x.2)) <$> opts -> l = arguments opts.
Proof using.
  intros Hl. revert opts. induction Hl as [|[f v] l Hf _ IH]; intros [|[g u] opts] Ho He; try done.
  cbn in He. injection He as Hn -> He. apply Forall_cons in Ho as [Hg Ho].
  cbn. rewrite (IH opts Ho He). by rewrite (field_name_inj (fields_of c) (fields_NoDup c) f g Hf Hg Hn).
Qed.

(** The options of a request for configured options are those. *)
Lemma request_arguments ctx c rq opts :
  target_context (ctx_cmd ctx) = Some c -> diskless_flag ctx = [] -> sent_options ctx = configured opts ->
  Forall (fun x => x.1 ∈ ctx_fields (fields_of c)) opts ->
  request_meaning rq = meaning_of ctx ->
  Forall (fun y => exists c, target_context (ctx_cmd ctx) = Some c /\ y.1 ∈ ctx_fields (fields_of c)) (rq_options rq) ->
  rq_options rq = arguments opts.
Proof using.
  intros Hc Hd Hs Ho Hm Hf. apply (arguments_by_name c); [|done|].
  - eapply Forall_impl; [exact Hf|]. intros y (c' & Hc' & Hy). by simplify_eq.
  - apply (f_equal mn_options) in Hm. cbn [request_meaning mn_options meaning_of] in Hm. rewrite Hm, Hd, Hs.
    cbn [app]. unfold option_values, configured. by rewrite <- list_fmap_compose.
Qed.

End Settings.

(** ** An example *)

#[local] Existing Instance text_contexts.

(** Options of a peer device. *)
Definition rate_field : field_def := text_field 4 (VALUE "c-max-rate").
Definition bitmap_field : field_def := text_field 6 (BOOLEAN "bitmap").
Definition rate_options : list (field_def * string) := [(rate_field, "100M"); (bitmap_field, "no")].

Definition rated_connection : connection :=
  mk_connection 20 false false false 0 [] [mk_peer_device 0 (configured rate_options)] (Some example_peer) [].

Definition setting_rates : cfg_ctx :=
  mk_cfg_ctx (plain_resource 1 "r0" [example_volume] [rated_connection] []) (Some example_volume) (Some rated_connection)
    None peer_device_options_defaults_cmd.

Lemma setting_rates_configured : well_configured 128 setting_rates.
Proof.
  split.
  - split_and!; [done|discriminate|done|cbn; lia].
  - intros _. exists "1". split; [done|]. split; [done|]. exists 1. by split; [|solve_int].
  - intros vol [= <-]. split; cbn; lia.
  - by do 3 eexists.
  - assert (Hfits : forall x, x ∈ rate_options -> option_fits peer_device_options_defaults_cmd
        (mk_d_option (fd_name x.1) (Some x.2) false false false)).
    { intros x Hx. split.
      - repeat (apply elem_of_cons in Hx as [-> | Hx]); [..|by apply elem_of_nil in Hx];
          apply (bool_decide_unpack _); by vm_compute.
      - exists x.2, 512. split; [done|].
        repeat (apply elem_of_cons in Hx as [-> | Hx]); [..|by apply elem_of_nil in Hx]; by split. }
    apply Forall_cons_2; [|apply Forall_cons_2; [|by constructor]].
    + exact (Hfits (rate_field, "100M") ltac:(by left)).
    + exact (Hfits (bitmap_field, "no") ltac:(by right; left)).
  - cbn. lia.
Qed.

Lemma rate_context_wf : wf_context (fields_of peer_device_options_ctx).
Proof.
  split_and!; [by apply (bool_decide_unpack _); vm_compute| |done]. repeat constructor; done.
Qed.

Lemma rate_options_good : Forall (good_option (fields_of peer_device_options_ctx)) rate_options.
Proof.
  assert (Hgood : forall f v, f ∈ ctx_fields (fields_of peer_device_options_ctx) -> fd_u f = U_s 512 ->
    fd_ops f = fc_string -> policy_of_field (fields_of peer_device_options_ctx) f = Ok (mk_nla_policy NLA_NUL_STRING 512) ->
    c_string v -> Z.of_nat (String.length v) < 512 -> good_option (fields_of peer_device_options_ctx) (f, v)).
  { intros f v Hf Hu Hops Hp Hv Hl. split_and!; cbn [fst snd]; [done|..]; unfold ops; rewrite Hops.
    - exists 512, 512. by split_and!; [|lia..|].
    - split; [done|lia].
    - cbn [fc_check class_of]. unfold string_check, u_s. rewrite Hu. cbn. by rewrite (proj2 (Z.leb_gt _ _)). }
  apply Forall_cons_2; [|apply Forall_cons_2; [|by constructor]];
    (apply Hgood; [apply (bool_decide_unpack _); by vm_compute|done..| |cbn; lia]);
    apply (bool_decide_unpack _); by vm_compute.
Qed.

