(* ===== verification/ConfigScanner.v ===== *)
(** * The scanner of the configuration

    The tokens of a configuration file, and of the output of drbdsetup show,
    the way user/v9/drbdadm_scanner.fl describes them: patterns, of which the
    one with the longest match is taken, and the first one of those.  The
    matching is done with derivatives of the patterns. *)

From S2P Require Import Prelude SharedTool.
From Stdlib Require Import Ascii String.
From stdpp Require Import strings.

#[local] Open Scope string_scope.
#[local] Open Scope list_scope.
#[local] Open Scope Z_scope.

(** ** Patterns *)

Inductive pattern :=
  | Never
  | Nothing
  | Chars (p : ascii -> bool)
  | Seq (a b : pattern)
  | Alt (a b : pattern)
  | Star (a : pattern)
  | Rep (a : pattern) (lo hi : nat).

Fixpoint nullable (r : pattern) : bool :=
  match r with
  | Never | Chars _ => false
  | Nothing | Star _ => true
  | Seq a b => nullable a && nullable b
  | Alt a b => nullable a || nullable b
  | Rep a lo hi => bool_decide (lo = 0%nat) || nullable a
  end.

Definition mk_seq (a b : pattern) : pattern :=
  match a with
  | Never => Never
  | Nothing => b
  | _ => match b with Never => Never | _ => Seq a b end
  end.

Definition mk_alt (a b : pattern) : pattern :=
  match a, b with
  | Never, _ => b
  | _, Never => a
  | _, _ => Alt a b
  end.

(** What is left of a pattern after a character. *)
Fixpoint deriv (c : ascii) (r : pattern) : pattern :=
  match r with
  | Never | Nothing => Never
  | Chars p => if p c then Nothing else Never
  | Seq a b => if nullable a then mk_alt (mk_seq (deriv c a) b) (deriv c b) else mk_seq (deriv c a) b
  | Alt a b => mk_alt (deriv c a) (deriv c b)
  | Star a => mk_seq (deriv c a) (Star a)
  | Rep a lo hi => match hi with O => Never | S hi => mk_seq (deriv c a) (Rep a (pred lo) hi) end
  end.

(** The length of the longest match at the start of a text. *)
Fixpoint longest (r : pattern) (s : string) : option nat :=
  match r with
  | Never => None
  | _ =>
      match s with
      | EmptyString => if nullable r then Some 0%nat else None
      | String c s' =>
          match longest (deriv c r) s' with
          | Some n => Some (S n)
          | None => if nullable r then Some 0%nat else None
          end
      end
  end.

(** ** Notation of the patterns *)

Fixpoint lit (s : string) : pattern :=
  match s with
  | EmptyString => Nothing
  | String c s' => Seq (Chars (Ascii.eqb c)) (lit s')
  end.

Definition one_of (s : string) (c : ascii) : bool := existsb (Ascii.eqb c) (list_ascii_of_string s).
Definition none_of (s : string) (c : ascii) : bool := negb (one_of s c).
Definition maybe (a : pattern) : pattern := Alt a Nothing.
Definition one_or_more (a : pattern) : pattern := Seq a (Star a).

Definition in_range (lo hi : ascii) (c : ascii) : bool := SharedTool.between (code lo) (code hi) (code c).
Definition is_hex (c : ascii) : bool := isdigit c || in_range "a" "f" c || in_range "A" "F" c.
Definition word_char (c : ascii) : bool :=
  in_range "a" "z" c || in_range "A" "Z" c || isdigit c || one_of "/._-" c.

Definition CR : ascii := ascii_of_nat 13.

(** *** The definitions of the scanner *)

Definition NUM : pattern := Seq (Rep (Chars isdigit) 1 8) (maybe (Chars (one_of "MKGs"))).
Definition SNUMB : pattern := Rep (Chars isdigit) 1 3.
Definition dot : pattern := Chars (Ascii.eqb ".").
Definition colon : pattern := Chars (Ascii.eqb ":").
Definition KMODVERS : pattern :=
  Seq (one_or_more (Chars isdigit)) (Seq dot (Seq (one_or_more (Chars isdigit)) (Seq dot (one_or_more (Chars isdigit))))).
Definition IPV4ADDR : pattern := Seq (Rep (Seq SNUMB dot) 3 3) SNUMB.
Definition HEX4 : pattern := Rep (Chars is_hex) 1 4.
Definition STRING : pattern := Rep (Chars word_char) 1 128.
Definition LONG_STRING : pattern := Rep (Chars word_char) 129 129.
Definition IPV6ADDR : pattern :=
  Alt (Seq (maybe (Seq (Rep (Seq HEX4 colon) 0 5) HEX4))
         (Seq colon (Seq (maybe HEX4) (Seq colon
           (Seq (maybe (Seq HEX4 (Rep (Seq colon HEX4) 0 5))) (maybe (Seq (Chars (Ascii.eqb "%")) STRING)))))))
      (Seq (lit "::") (Seq (Rep (Chars (one_of "fF")) 4 4) (Seq colon IPV4ADDR))).
Definition WS : pattern := Chars (fun c => Ascii.eqb c " " || Ascii.eqb c TAB || Ascii.eqb c CR).
Definition OPCHAR : pattern := Chars (one_of "{};[]:").

Definition not_newline (c : ascii) : bool := negb (Ascii.eqb c NL).

(** A character of a string in double quotes, or an escaped one. *)
Definition dq_char : pattern :=
  Alt (Chars (fun c => negb (Ascii.eqb c QUOTE || Ascii.eqb c BACKSLASH || Ascii.eqb c NL)))
      (Seq (Chars (Ascii.eqb BACKSLASH)) (Chars not_newline)).
Definition dq_start : pattern := Chars (Ascii.eqb QUOTE).
Definition DQSTRING : pattern := Seq dq_start (Seq (Rep dq_char 0 255) (Chars (Ascii.eqb QUOTE))).
Definition LONG_DQSTRING : pattern := Seq dq_start (Seq (Rep dq_char 255 255) (Chars not_newline)).
Definition ERR_DQSTRING : pattern :=
  Seq dq_start (Seq (Rep dq_char 0 255) (Chars (fun c => Ascii.eqb c BACKSLASH || Ascii.eqb c NL))).

(** ** Tokens *)

Inductive token :=
  | TK_EOF | Op (c : ascii)
  | TK_ON | TK_STACKED | TK_FLOATING | TK_NO | TK_NET | TK_YES | TK_ASK | TK_VIA | TK_SKIP
  | TK_MODULE_EQ | TK_MODULE_NE | TK_MODULE_GT | TK_MODULE_GE | TK_MODULE_LT | TK_MODULE_LE | TK_KMODVERS
  | TK_DISK | TK_HOST | TK_HOSTS | TK_PORT | TK_PROXY | TK_MINOR | TK_INSIDE | TK_VOLUME
  | TK_CMD_TIMEOUT_SHORT | TK_CMD_TIMEOUT_MEDIUM | TK_CMD_TIMEOUT_LONG | TK_SYNCER | TK_DEVICE | TK_GLOBAL
  | TK_COMMON | TK_OPTIONS | TK_OUTSIDE | TK_ADDRESS | TK_STARTUP | TK_INCLUDE | TK_HANDLER | TK_CONNECTION
  | TK_OUTSIDE_ADDRESS | TK_CONNECTION_MESH | TK_MINOR_COUNT | TK_DISABLE_IP_VERIFICATION
  | TK_UDEV_ALWAYS_USE_VNR | TK_DIALOG_REFRESH | TK_RESOURCE | TK_META_DISK | TK_FLEX_META_DISK | TK_NODE_ID
  | TK_USAGE_COUNT | TK__THIS_HOST | TK__REMOTE_HOST | TK__PEER_NODE_ID | TK__CSTATE | TK__UNKNOWN
  | TK_TEMPLATE_FILE | TK_PATH | TK_TIEBREAKER | TK_SCI | TK_SSOCKS | TK_SDP | TK_IPV4 | TK_IPV6 | TK_IPADDR
  | TK_IPADDR6 | TK_INTEGER | TK_STRING | TK_ERR_STRING_TOO_LONG | TK_ERR_DQSTRING_TOO_LONG | TK_ERR_DQSTRING
  | TK_ELSE.

#[export] Instance token_eq_dec : EqDecision token.
Proof. solve_decision. Defined.

(** What is done with a match. *)
Inductive action := Ignore | Char | Keyword (t : token) | Unescape (t : token).

Definition keyword (x : string * token) : pattern * action := (lit x.1, Keyword x.2).

Definition keywords : list (string * token) :=
  [("on", TK_ON); ("stacked-on-top-of", TK_STACKED); ("floating", TK_FLOATING); ("no", TK_NO); ("net", TK_NET);
   ("yes", TK_YES); ("ask", TK_ASK); ("via", TK_VIA); ("skip", TK_SKIP);
   ("require-drbd-module-version-eq", TK_MODULE_EQ); ("require-drbd-module-version-ne", TK_MODULE_NE);
   ("require-drbd-module-version-gt", TK_MODULE_GT); ("require-drbd-module-version-ge", TK_MODULE_GE);
   ("require-drbd-module-version-lt", TK_MODULE_LT); ("require-drbd-module-version-le", TK_MODULE_LE)].

Definition more_keywords : list (string * token) :=
  [("disk", TK_DISK); ("host", TK_HOST); ("hosts", TK_HOSTS); ("port", TK_PORT); ("proxy", TK_PROXY);
   ("minor", TK_MINOR); ("inside", TK_INSIDE); ("volume", TK_VOLUME); ("cmd-timeout-short", TK_CMD_TIMEOUT_SHORT);
   ("cmd-timeout-medium", TK_CMD_TIMEOUT_MEDIUM); ("cmd-timeout-long", TK_CMD_TIMEOUT_LONG);
   ("syncer", TK_SYNCER); ("device", TK_DEVICE); ("global", TK_GLOBAL); ("common", TK_COMMON);
   ("options", TK_OPTIONS); ("outside", TK_OUTSIDE); ("address", TK_ADDRESS); ("startup", TK_STARTUP);
   ("include", TK_INCLUDE); ("handlers", TK_HANDLER); ("connection", TK_CONNECTION);
   ("outside-address", TK_OUTSIDE_ADDRESS); ("connection-mesh", TK_CONNECTION_MESH);
   ("minor-count", TK_MINOR_COUNT); ("disable-ip-verification", TK_DISABLE_IP_VERIFICATION);
   ("udev-always-use-vnr", TK_UDEV_ALWAYS_USE_VNR); ("dialog-refresh", TK_DIALOG_REFRESH);
   ("resource", TK_RESOURCE); ("meta-disk", TK_META_DISK); ("flexible-meta-disk", TK_FLEX_META_DISK);
   ("node-id", TK_NODE_ID); ("usage-count", TK_USAGE_COUNT); ("_this_host", TK__THIS_HOST);
   ("_remote_host", TK__REMOTE_HOST); ("_peer_node_id", TK__PEER_NODE_ID); ("_cstate", TK__CSTATE);
   ("_unknown", TK__UNKNOWN); ("template-file", TK_TEMPLATE_FILE); ("path", TK_PATH);
   ("tiebreaker", TK_TIEBREAKER); ("sci", TK_SCI); ("ssocks", TK_SSOCKS); ("sdp", TK_SDP); ("ipv4", TK_IPV4);
   ("ipv6", TK_IPV6)].

(** The rules of the scanner, in order. *)
Definition rules : list (pattern * action) :=
  [(Chars (Ascii.eqb NL), Ignore); (Seq (Chars (Ascii.eqb "#")) (Star (Chars not_newline)), Ignore); (WS, Ignore);
   (OPCHAR, Char)] ++
  (keyword <$> keywords) ++ [(KMODVERS, Keyword TK_KMODVERS)] ++ (keyword <$> more_keywords) ++
  [(IPV4ADDR, Keyword TK_IPADDR); (IPV6ADDR, Keyword TK_IPADDR6); (NUM, Keyword TK_INTEGER);
   (DQSTRING, Unescape TK_STRING); (STRING, Keyword TK_STRING); (LONG_STRING, Keyword TK_ERR_STRING_TOO_LONG);
   (LONG_DQSTRING, Keyword TK_ERR_DQSTRING_TOO_LONG); (ERR_DQSTRING, Keyword TK_ERR_DQSTRING);
   (Chars not_newline, Keyword TK_ELSE)].

(** The rule that is taken: the one with the longest match, the first of
    them. *)
Fixpoint best_rule (l : list (pattern * action)) (s : string) : option (nat * action) :=
  match l with
  | [] => None
  | (r, a) :: l' =>
      match longest r s, best_rule l' s with
      | Some n, Some (m, b) => if (n <? m)%nat then Some (m, b) else Some (n, a)
      | Some n, None => Some (n, a)
      | None, best => best
      end
  end.

Fixpoint drop_chars (n : nat) (s : string) : string :=
  match n, s with
  | O, _ => s
  | S n', String _ s' => drop_chars n' s'
  | _, EmptyString => EmptyString
  end.

Fixpoint take_chars (n : nat) (s : string) : string :=
  match n, s with
  | S n', String c s' => String c (take_chars n' s')
  | _, _ => EmptyString
  end.

(** The next token, [yytext], and the rest of the text.  Every match is of one
    character at least. *)
Fixpoint yylex_loop (fuel : nat) (s : string) : token * string * string :=
  match fuel with
  | O => (TK_EOF, "", s)
  | S fuel' =>
      match best_rule rules s with
      | None | Some (O, _) => (TK_EOF, "", s)
      | Some (n, a) =>
          let text := take_chars n s in
          let rest := drop_chars n s in
          match a with
          | Ignore => yylex_loop fuel' rest
          | Char => (match text with String c _ => Op c | _ => TK_EOF end, text, rest)
          | Keyword t => (t, text, rest)
          | Unescape t => (t, unescape text, rest)
          end
      end
  end.

Definition yylex (s : string) : token * string * string := yylex_loop (S (String.length s)) s.

(** ** How far a pattern can match *)

(** All the characters of a pattern satisfy [P]. *)
Fixpoint within (P : ascii -> bool) (r : pattern) : Prop :=
  match r with
  | Never | Nothing => True
  | Chars p => forall c, p c = true -> P c = true
  | Seq a b | Alt a b => within P a /\ within P b
  | Star a | Rep a _ _ => within P a
  end.

Lemma within_mk_seq P a b : within P a -> within P b -> within P (mk_seq a b).
Proof. intros Ha Hb. destruct a; cbn in *; try done; destruct b; cbn in *; naive_solver. Qed.

Lemma within_mk_alt P a b : within P a -> within P b -> within P (mk_alt a b).
Proof. intros Ha Hb. destruct a; cbn in *; try done; destruct b; cbn in *; naive_solver. Qed.

Lemma within_deriv P c r : within P r -> within P (deriv c r).
Proof.
  induction r as [| |p|a IHa b IHb|a IHa b IHb|a IHa|a IHa lo hi]; cbn [within deriv]; intros Hr; try done.
  - by destruct (p c).
  - destruct Hr. destruct (nullable a); [apply within_mk_alt; [|auto]|]; apply within_mk_seq; auto.
  - destruct Hr. apply within_mk_alt; auto.
  - apply within_mk_seq; auto.
  - destruct hi; [done|]. apply within_mk_seq; auto.
Qed.

Lemma deriv_outside P c r : within P r -> P c = false -> deriv c r = Never.
Proof.
  intros Hr Hc. induction r as [| |p|a IHa b IHb|a IHa b IHb|a IHa|a IHa lo hi]; cbn [within deriv] in *; try done.
  - destruct (p c) eqn:Hp; [|done]. by rewrite (Hr c Hp) in Hc.
  - destruct Hr as [Ha Hb]. rewrite IHa, IHb by done. by destruct (nullable a).
  - destruct Hr as [Ha Hb]. by rewrite IHa, IHb.
  - by rewrite IHa.
  - destruct hi; [done|]. by rewrite IHa.
Qed.

Lemma longest_never s : longest Never s = None.
Proof. by destruct s. Qed.

Lemma longest_cons c r s :
  longest r (String c s) = match longest (deriv c r) s with
                           | Some n => Some (S n)
                           | None => if nullable r then Some 0%nat else None
                           end.
Proof.
  destruct r; [|reflexivity..]. change (None = match longest Never s with Some n => Some (S n) | None => None end).
  by rewrite longest_never.
Qed.

Lemma longest_nil r : longest r "" = if nullable r then Some 0%nat else None.
Proof. by destruct r. Qed.

(** A match does not go beyond a character that is not of the pattern. *)
Lemma longest_within P r w c rest n :
  within P r -> P c = false -> longest r (w +:+ String c rest) = Some n -> (n <= String.length w)%nat.
Proof.
  revert r n. induction w as [|d w IH]; intros r n Hr Hc.
  - change ("" +:+ String c rest) with (String c rest). rewrite longest_cons, (deriv_outside P) by done.
    rewrite longest_never. destruct (nullable r); [|done]. intros [= <-]. cbn. lia.
  - change (String d w +:+ String c rest) with (String d (w +:+ String c rest)). rewrite longest_cons.
    destruct (longest (deriv d r) (w +:+ String c rest)) as [k|] eqn:Hk.
    + intros [= <-]. cbn. specialize (IH (deriv d r) k (within_deriv _ _ _ Hr) Hc Hk). lia.
    + destruct (nullable r); [|done]. intros [= <-]. lia.
Qed.

(** A pattern that cannot start with this character. *)
Lemma longest_start r c s : deriv c r = Never -> nullable r = false -> longest r (String c s) = None.
Proof. intros Hd Hn. rewrite longest_cons, Hd, longest_never. by rewrite Hn. Qed.

Lemma longest_one p c s : longest (Chars p) (String c s) = if p c then Some 1%nat else None.
Proof.
  rewrite longest_cons. cbn [deriv nullable]. destruct (p c); [|by rewrite longest_never].
  destruct s as [|d s]; [done|]. rewrite longest_cons. cbn [deriv]. by rewrite longest_never.
Qed.

(** Exactly the literal is matched. *)
Lemma longest_lit l s n : longest (lit l) s = Some n -> n = String.length l /\ take_chars n s = l.
Proof.
  revert s n. induction l as [|c l IH]; intros s n.
  - destruct s as [|d s]; cbn [lit]; [by intros [= <-]|]. rewrite longest_cons. cbn [deriv]. rewrite longest_never. by intros [= <-].
  - destruct s as [|d s]; [done|]. cbn [lit]. rewrite longest_cons. cbn [nullable deriv andb].
    destruct (Ascii.eqb_spec c d) as [->|]; [|by rewrite longest_never].
    assert (mk_seq Nothing (lit l) = lit l) as -> by done.
    destruct (longest (lit l) s) as [k|] eqn:Hk; [|done]. intros [= <-]. destruct (IH s k Hk) as [-> Ht].
    cbn. by rewrite Ht.
Qed.

(** ** The texts of a pattern *)

Inductive matches : pattern -> string -> Prop :=
  | M_nothing : matches Nothing ""
  | M_chars p c : p c = true -> matches (Chars p) (String c "")
  | M_seq a b v w : matches a v -> matches b w -> matches (Seq a b) (v +:+ w)
  | M_alt_l a b w : matches a w -> matches (Alt a b) w
  | M_alt_r a b w : matches b w -> matches (Alt a b) w
  | M_star_nil a : matches (Star a) ""
  | M_star a c v w : matches a (String c v) -> matches (Star a) w -> matches (Star a) (String c v +:+ w)
  | M_rep_nil a lo hi : lo = 0%nat \/ matches a "" -> matches (Rep a lo hi) ""
  | M_rep a lo hi c v w :
      matches a (String c v) -> matches (Rep a (pred lo) hi) w -> matches (Rep a lo (S hi)) (String c v +:+ w).

Fixpoint derivs (w : string) (r : pattern) : pattern :=
  match w with EmptyString => r | String c w' => derivs w' (deriv c r) end.

Ltac inv_matches H := inversion H; subst; clear H.

Lemma matches_never w : matches Never w <-> False.
Proof. split; [intros H; inversion H|done]. Qed.

Lemma matches_nothing w : matches Nothing w <-> w = "".
Proof. split; [intros H; by inv_matches H|intros ->; constructor]. Qed.

Lemma matches_chars p w : matches (Chars p) w <-> exists c, w = String c "" /\ p c = true.
Proof. split; [intros H; inv_matches H; eauto|intros (c & -> & ?); by constructor]. Qed.

Lemma matches_seq a b w : matches (Seq a b) w <-> exists u v, w = u +:+ v /\ matches a u /\ matches b v.
Proof. split; [intros H; inv_matches H; eauto 10|intros (u & v & -> & ? & ?); by constructor]. Qed.

Lemma matches_alt a b w : matches (Alt a b) w <-> matches a w \/ matches b w.
Proof. split; [intros H; inv_matches H; auto|intros [?|?]; by constructor]. Qed.

Lemma matches_mk_seq a b w : matches (mk_seq a b) w <-> matches (Seq a b) w.
Proof.
  assert (forall b, matches (Seq Never b) w <-> matches Never w) as Hl.
  { intros b'. rewrite matches_seq. setoid_rewrite matches_never. naive_solver. }
  assert (forall a, matches (Seq a Never) w <-> matches Never w) as Hr.
  { intros a'. rewrite matches_seq. setoid_rewrite matches_never. naive_solver. }
  assert (matches (Seq Nothing b) w <-> matches b w) as Hn.
  { rewrite matches_seq. setoid_rewrite matches_nothing. split; [by intros (u & v & -> & -> & ?)|]. by exists "", w. }
  destruct a; cbn [mk_seq]; [by rewrite Hl|by rewrite Hn|..]; (destruct b; [by rewrite Hr|done..]).
Qed.

Lemma matches_mk_alt a b w : matches (mk_alt a b) w <-> matches a w \/ matches b w.
Proof.
  pose proof (matches_never w) as Hn.
  destruct a; cbn [mk_alt]; [tauto|..]; (destruct b; [tauto|apply matches_alt..]).
Qed.

Lemma matches_nil r : matches r "" <-> nullable r = true.
Proof.
  induction r as [| |p|a IHa b IHb|a IHa b IHb|a IHa|a IHa lo hi]; cbn [nullable].
  - by rewrite matches_never.
  - by rewrite matches_nothing.
  - rewrite matches_chars. naive_solver.
  - rewrite matches_seq, andb_true_iff, <- IHa, <- IHb. split; [|intros [? ?]; by exists "", ""].
    intros ([|? ?] & [|? ?] & Hw & ? & ?); done.
  - by rewrite matches_alt, orb_true_iff, IHa, IHb.
  - split; [done|constructor].
  - rewrite orb_true_iff, bool_decide_eq_true, <- IHa. split; [intros H; by inv_matches H|by constructor].
Qed.

Lemma split_cons c w u v : String c w = u +:+ v -> (u = "" /\ v = String c w) \/ exists u', u = String c u' /\ w = u' +:+ v.
Proof.
  destruct u as [|d u]; [intros Hw; left; split; [done|by rewrite Hw]|]. change (String d u +:+ v) with (String d (u +:+ v)).
  intros [= -> ->]. right. eauto.
Qed.

Lemma matches_star_cons a c w :
  matches (Star a) (String c w) <-> exists u v, w = u +:+ v /\ matches a (String c u) /\ matches (Star a) v.
Proof.
  split; [|intros (u & v & -> & ? & ?); by apply (M_star a c u v)].
  intros H. remember (Star a) as r eqn:Hr. remember (String c w) as s eqn:Hs.
  destruct H as [| | | | | |a' d u v Hu Hv| |]; try done. injection Hr as ->. symmetry in Hs.
  apply split_cons in Hs as [[? _]|(u' & [= -> ->] & ->)]; [done|]. eauto.
Qed.

Lemma matches_rep_cons a lo hi c w :
  matches (Rep a lo hi) (String c w) <->
  exists u v hi', hi = S hi' /\ w = u +:+ v /\ matches a (String c u) /\ matches (Rep a (pred lo) hi') v.
Proof.
  split; [|intros (u & v & hi' & -> & -> & ? & ?); by apply (M_rep a lo hi' c u v)].
  intros H. remember (Rep a lo hi) as r eqn:Hr. remember (String c w) as s eqn:Hs.
  destruct H as [| | | | | | | |a' lo' hi' d u v Hu Hv]; try done. injection Hr as -> -> <-. symmetry in Hs.
  apply split_cons in Hs as [[? _]|(u' & [= -> ->] & ->)]; [done|]. eauto 10.
Qed.

Lemma matches_cons r c w : matches r (String c w) <-> matches (deriv c r) w.
Proof.
  revert w. induction r as [| |p|a IHa b IHb|a IHa b IHb|a IHa|a IHa lo hi]; intros w; cbn [deriv].
  - by rewrite !matches_never.
  - rewrite matches_nothing, matches_never. done.
  - rewrite matches_chars. destruct (p c) eqn:Hp; [rewrite matches_nothing|rewrite matches_never].
    + split; [by intros (d & [= -> ->] & _)|intros ->; by exists c].
    + split; [|done]. intros (d & [= -> ->] & Hd). congruence.
  - assert (matches (Seq (deriv c a) b) w \/ (nullable a = true /\ matches (deriv c b) w) <-> matches (Seq a b) (String c w)) as Hs.
    { rewrite !matches_seq, <- matches_nil, <- IHb. split.
      - intros [(u & v & -> & Hu & Hv)|[Hn Hb]]; [|by exists "", (String c w)].
        exists (String c u), v. split_and!; [done| |done]. by apply IHa.
      - intros (u & v & Hw & Hu & Hv). apply split_cons in Hw as [[-> ->]|(u' & -> & ->)]; [by right|].
        left. exists u', v. split_and!; [done| |done]. by apply IHa. }
    rewrite <- Hs. destruct (nullable a).
    + rewrite matches_mk_alt, matches_mk_seq. tauto.
    + rewrite matches_mk_seq. split; [intros [?|[? _]]|left]; done.
  - by rewrite matches_alt, matches_mk_alt, IHa, IHb.
  - rewrite matches_mk_seq, matches_seq, matches_star_cons. by setoid_rewrite IHa.
  - rewrite matches_rep_cons. destruct hi as [|hi].
    + rewrite matches_never. split; [by intros (? & ? & ? & ? & _)|done].
    + rewrite matches_mk_seq, matches_seq. setoid_rewrite IHa. split.
      * intros (u & v & hi' & [= <-] & ?). by exists u, v.
      * intros (u & v & ?). by exists u, v, hi.
Qed.

Lemma matches_derivs r w : matches r w <-> nullable (derivs w r) = true.
Proof. revert r. induction w as [|c w IH]; intros r; [apply matches_nil|]. cbn [derivs]. by rewrite matches_cons, IH. Qed.

(** A text is matched as a whole, and no more. *)
Lemma longest_whole Q r w c rest :
  within Q r -> Q c = false -> longest r (w +:+ String c rest) = Some (String.length w) <-> matches r w.
Proof.
  rewrite matches_derivs. revert r. induction w as [|d w IH]; intros r Hr Hc; cbn [derivs].
  - change ("" +:+ String c rest) with (String c rest). rewrite longest_cons, (deriv_outside Q), longest_never by done.
    by destruct (nullable r).
  - change (String d w +:+ String c rest) with (String d (w +:+ String c rest)). rewrite longest_cons.
    rewrite <- (IH (deriv d r)) by (done || by apply within_deriv). cbn [String.length].
    destruct (longest (deriv d r) _) as [n|]; [naive_solver|]. by destruct (nullable r).
Qed.

Lemma matches_lit k w : matches (lit k) w <-> w = k.
Proof.
  revert w. induction k as [|c k IH]; intros w; cbn [lit]; [apply matches_nothing|].
  rewrite matches_seq. setoid_rewrite matches_chars. setoid_rewrite IH. split.
  - intros (u & v & -> & (d & -> & <-%Ascii.eqb_eq) & ->). done.
  - intros ->. exists (String c ""), k. split_and!; [done| |done]. exists c. by rewrite Ascii.eqb_refl.
Qed.

(** ** Words *)

Lemma longest_seq_nothing r s : longest (mk_seq Nothing r) s = longest r s.
Proof. done. Qed.

(** Up to [hi] characters of a class. *)
Lemma longest_rep p lo hi w c rest :
  all_chars p w = true -> p c = false -> (lo <= String.length w <= hi)%nat ->
  longest (Rep (Chars p) lo hi) (w +:+ String c rest) = Some (String.length w).
Proof.
  revert lo hi. induction w as [|d w IH]; intros lo hi Hw Hc Hl.
  - change ("" +:+ String c rest) with (String c rest). rewrite longest_cons. cbn [deriv nullable].
    rewrite Hc. cbn [String.length] in Hl. assert (lo = 0%nat) as -> by lia.
    destruct hi; cbn [mk_seq]; by rewrite longest_never.
  - cbn [all_chars] in Hw. apply andb_true_iff in Hw as [Hd Hw]. cbn [String.length] in *.
    destruct hi as [|hi]; [lia|].
    change (String d w +:+ String c rest) with (String d (w +:+ String c rest)). rewrite longest_cons. cbn [deriv].
    rewrite Hd, longest_seq_nothing, (IH (pred lo) hi) by (done || lia). done.
Qed.

(** The characters of names, numbers and addresses. *)
Definition name_char (c : ascii) : bool := word_char c || one_of ":%" c.

Lemma word_is_name c : word_char c = true -> name_char c = true.
Proof. unfold name_char. by intros ->. Qed.

Lemma for_all_chars (p q : ascii -> bool) :
  forallb (fun n => implb (p (ascii_of_nat n)) (q (ascii_of_nat n))) (List.seq 0 256) = true ->
  forall c, p c = true -> q c = true.
Proof.
  intros Hf c Hp. rewrite forallb_forall in Hf. specialize (Hf (nat_of_ascii c)).
  rewrite ascii_nat_embedding, Hp in Hf. apply Hf. apply in_seq. pose proof (nat_ascii_bounded c). lia.
Qed.

Ltac within_names :=
  repeat match goal with
  | |- _ /\ _ => split
  | |- True => exact I
  | |- forall c, _ = true -> _ = true => apply for_all_chars; by vm_compute
  end.

Definition NAME_RULES : list (pattern * action) :=
  (keyword <$> keywords) ++ [(KMODVERS, Keyword TK_KMODVERS)] ++ (keyword <$> more_keywords) ++
  [(IPV4ADDR, Keyword TK_IPADDR); (IPV6ADDR, Keyword TK_IPADDR6); (NUM, Keyword TK_INTEGER)].

Lemma within_lit P s : all_chars P s = true -> within P (lit s).
Proof.
  induction s as [|c s IH]; [done|]. cbn. intros [Hc Hs]%andb_true_iff. split; [|by apply IH].
  intros d Hd. apply Ascii.eqb_eq in Hd as <-. done.
Qed.

Lemma keywords_within P l :
  forallb (fun x => all_chars P x.1) l = true -> Forall (fun x => within P x.1) (keyword <$> l).
Proof.
  intros Hl. rewrite forallb_forall in Hl. apply Forall_fmap, Forall_forall. intros x Hx.
  by apply within_lit, Hl, list_elem_of_In.
Qed.

Lemma name_rules_within : Forall (fun x => within name_char x.1) NAME_RULES.
Proof.
  unfold NAME_RULES. rewrite !Forall_app. split_and!.
  - by apply keywords_within.
  - constructor; [|done]. cbn. within_names.
  - by apply keywords_within.
  - repeat (apply Forall_cons_2; [cbn; within_names|]). done.
Qed.

(** The best rule is the first one with a match of the greatest length. *)
Lemma best_rule_bound l s m :
  (forall x n, x ∈ l -> longest x.1 s = Some n -> (n <= m)%nat) ->
  forall n b, best_rule l s = Some (n, b) -> (n <= m)%nat.
Proof.
  intros Hmax. induction l as [|[r a] l IH]; [done|]. intros n b. cbn [best_rule].
  assert (forall n b, best_rule l s = Some (n, b) -> (n <= m)%nat) as Hl by (apply IH; intros x k Hx; apply Hmax; by right).
  destruct (longest r s) as [k|] eqn:Hk; [|apply Hl].
  assert (k <= m)%nat by (apply (Hmax (r, a)); [by left|done]).
  destruct (best_rule l s) as [[k' b']|]; [|by intros [= <- <-]].
  destruct (k <? k')%nat; [|by intros [= <- <-]]. intros [= <- <-]. by eapply Hl.
Qed.

Lemma best_rule_at l1 x l2 s m :
  (forall y n, y ∈ l1 ++ x :: l2 -> longest y.1 s = Some n -> (n <= m)%nat) -> longest x.1 s = Some m ->
  Forall (fun y => longest y.1 s <> Some m) l1 -> best_rule (l1 ++ x :: l2) s = Some (m, x.2).
Proof.
  intros Hmax Hx Hl1. induction Hl1 as [|[r a] l1 Hr Hl1 IH]; cbn [app best_rule].
  - destruct x as [r a]. cbn [best_rule fst snd] in *. rewrite Hx.
    destruct (best_rule l2 s) as [[k b]|] eqn:Hb; [|done].
    assert (k <= m)%nat by (eapply (best_rule_bound l2); [|exact Hb]; intros y n Hy; apply Hmax; by right).
    by rewrite (proj2 (Nat.ltb_ge m k)).
  - rewrite IH by (intros y n Hy; apply Hmax; by right). cbn [fst] in Hr.
    destruct (longest r s) as [n|] eqn:Hn; [|done].
    assert (n <= m)%nat by (apply (Hmax (r, a)); [by left|done]).
    assert (n <> m) by congruence. by rewrite (proj2 (Nat.ltb_lt n m)) by lia.
Qed.

(** A word: what STRING matches. *)
Definition config_word (w : string) : Prop :=
  w <> "" /\ all_chars word_char w = true /\ (String.length w <= 128)%nat.

(** No token of the kinds that words can be ends a name. *)
Definition ends_name (c : ascii) : Prop := name_char c = false.

Definition START_RULES : list (pattern * action) :=
  [(Chars (Ascii.eqb NL), Ignore); (Seq (Chars (Ascii.eqb "#")) (Star (Chars not_newline)), Ignore); (WS, Ignore);
   (OPCHAR, Char)].

Definition END_RULES : list (pattern * action) :=
  [(LONG_STRING, Keyword TK_ERR_STRING_TOO_LONG); (LONG_DQSTRING, Keyword TK_ERR_DQSTRING_TOO_LONG);
   (ERR_DQSTRING, Keyword TK_ERR_DQSTRING); (Chars not_newline, Keyword TK_ELSE)].

Lemma rules_parts :
  rules = START_RULES ++ NAME_RULES ++ (DQSTRING, Unescape TK_STRING) :: (STRING, Keyword TK_STRING) :: END_RULES.
Proof. reflexivity. Qed.

(** Patterns that no word starts with. *)
Lemma no_word_start c s x :
  word_char c = true -> x ∈ START_RULES ++ [(DQSTRING, Unescape TK_STRING); (LONG_DQSTRING, Keyword TK_ERR_DQSTRING_TOO_LONG);
    (ERR_DQSTRING, Keyword TK_ERR_DQSTRING)] -> longest x.1 (String c s) = None.
Proof.
  intros Hc Hx.
  assert (Hnone : forall p, forallb (fun n => implb (word_char (ascii_of_nat n)) (negb (p (ascii_of_nat n)))) (List.seq 0 256) = true ->
    p c = false).
  { intros p Hp. apply negb_true_iff. by apply (for_all_chars word_char (fun c => negb (p c))). }
  cbn [START_RULES app] in Hx. repeat (apply elem_of_cons in Hx as [-> | Hx]); [..|by apply elem_of_nil in Hx]; cbn [fst].
  - rewrite longest_one. by rewrite Hnone by by vm_compute.
  - apply longest_start; [|done]. cbn [deriv nullable]. by rewrite Hnone by by vm_compute.
  - unfold WS. rewrite longest_one. rewrite (Hnone (fun c => Ascii.eqb c " " || Ascii.eqb c TAB || Ascii.eqb c CR)); [done|by vm_compute].
  - unfold OPCHAR. rewrite longest_one. rewrite (Hnone (one_of "{};[]:")); [done|by vm_compute].
  - apply longest_start; [|done]. unfold DQSTRING, dq_start. cbn [deriv nullable].
    by rewrite (Hnone (Ascii.eqb QUOTE)) by by vm_compute.
  - apply longest_start; [|done]. unfold LONG_DQSTRING, dq_start. cbn [deriv nullable].
    by rewrite (Hnone (Ascii.eqb QUOTE)) by by vm_compute.
  - apply longest_start; [|done]. unfold ERR_DQSTRING, dq_start. cbn [deriv nullable].
    by rewrite (Hnone (Ascii.eqb QUOTE)) by by vm_compute.
Qed.

(** A rule for one character, or one that no name starts with. *)
Lemma start_rule_short d s x :
  name_char d = true -> x ∈ START_RULES -> longest x.1 (String d s) = None \/ longest x.1 (String d s) = Some 1%nat.
Proof.
  intros Hd Hx.
  assert (forall p, forallb (fun n => implb (name_char (ascii_of_nat n)) (negb (p (ascii_of_nat n)))) (List.seq 0 256) = true ->
    p d = false) as Hnone.
  { intros p Hp. apply negb_true_iff. by apply (for_all_chars name_char (fun c => negb (p c))). }
  unfold START_RULES in Hx. repeat (apply elem_of_cons in Hx as [-> | Hx]); [..|by apply elem_of_nil in Hx]; cbn [fst].
  - left. rewrite longest_one. by rewrite Hnone by by vm_compute.
  - left. apply longest_start; [|done]. cbn [deriv nullable]. by rewrite Hnone by by vm_compute.
  - left. unfold WS. rewrite longest_one.
    rewrite (Hnone (fun c => Ascii.eqb c " " || Ascii.eqb c TAB || Ascii.eqb c CR)); [done|by vm_compute].
  - unfold OPCHAR. rewrite longest_one. destruct (one_of _ d); auto.
Qed.

(** A token that starts with a name is not longer than what the rules for names
    match of it. *)
Lemma rule_bound d w c rest x n :
  name_char d = true -> word_char c = false ->
  (forall x n, x ∈ NAME_RULES -> longest x.1 (String d (w +:+ String c rest)) = Some n -> (n <= S (String.length w))%nat) ->
  x ∈ rules -> longest x.1 (String d (w +:+ String c rest)) = Some n -> (n <= S (String.length w))%nat.
Proof.
  intros Hd Hc Hnames Hx. rewrite rules_parts in Hx.
  assert (Hquote : forall r, longest (Seq dq_start r) (String d (w +:+ String c rest)) = None).
  { intros r. apply longest_start; [|done]. cbn [deriv dq_start nullable]. replace (Ascii.eqb QUOTE d) with false; [done|].
    symmetry. apply Ascii.eqb_neq. intros <-. by vm_compute in Hd. }
  assert (Hword : forall r, within word_char r -> longest r (String d (w +:+ String c rest)) = Some n -> (n <= S (String.length w))%nat).
  { intros r Hr. change (String d (w +:+ String c rest)) with (String d w +:+ String c rest). by apply (longest_within word_char). }
  apply elem_of_app in Hx as [Hx|Hx].
  { destruct (start_rule_short d (w +:+ String c rest) x Hd Hx) as [-> | ->]; [done|]. intros [= <-]. lia. }
  apply elem_of_app in Hx as [Hx|Hx]; [by apply Hnames|].
  unfold END_RULES in Hx. repeat (apply elem_of_cons in Hx as [-> |Hx]); [..|by apply elem_of_nil in Hx]; cbn [fst].
  - unfold DQSTRING. by rewrite Hquote.
  - apply Hword. intros e. by cbn.
  - apply Hword. intros e. by cbn.
  - unfold LONG_DQSTRING. by rewrite Hquote.
  - unfold ERR_DQSTRING. by rewrite Hquote.
  - rewrite longest_one. destruct (not_newline d); [|done]. intros [= <-]. lia.
Qed.

Lemma ends_name_word c : ends_name c -> word_char c = false.
Proof. intros Hc. apply not_true_iff_false. intros Hw%word_is_name. unfold ends_name in Hc. congruence. Qed.

Lemma name_bound d w c rest x n :
  name_char d = true -> ends_name c -> x ∈ rules -> longest x.1 (String d (w +:+ String c rest)) = Some n ->
  (n <= S (String.length w))%nat.
Proof.
  intros Hd Hc. apply rule_bound; [done|by apply ends_name_word|]. clear n x. intros x n Hx.
  change (String d (w +:+ String c rest)) with (String d w +:+ String c rest). apply (longest_within name_char); [|done].
  pose proof name_rules_within as Hn. rewrite Forall_forall in Hn. by apply Hn.
Qed.

Lemma word_bound w c rest x n :
  config_word w -> ends_name c -> x ∈ rules -> longest x.1 (w +:+ String c rest) = Some n -> (n <= String.length w)%nat.
Proof.
  intros (Hne & Hw & _). destruct w as [|d w]; [done|]. cbn in Hw. apply andb_true_iff in Hw as [Hd%word_is_name _].
  intros Hc Hx. by apply name_bound.
Qed.
