(* ===== verification/ConfigTokens.v ===== *)
(** * Tokens of what the tools print

    How the scanner of the configuration (ConfigScanner) reads blanks, comments,
    words, numbers, addresses and strings in double quotes. *)

From S2P Require Import Prelude SharedTool ConfigFlags ConfigScanner.
From Stdlib Require Import Ascii String.
From stdpp Require Import strings.

#[local] Open Scope string_scope.
#[local] Open Scope list_scope.
#[local] Open Scope Z_scope.

(** ** One token after the other *)

#[local] Opaque rules.

Lemma take_chars_app w s : take_chars (String.length w) (w +:+ s) = w.
Proof. induction w as [|c w IH]; [done|]. cbn. change (String c w +:+ s) with (String c (w +:+ s)). cbn. by rewrite IH. Qed.

Lemma drop_chars_app w s : drop_chars (String.length w) (w +:+ s) = s.
Proof. induction w as [|c w IH]; [done|]. change (String c w +:+ s) with (String c (w +:+ s)). by cbn. Qed.

Lemma string_app_assoc (a b c : string) : (a +:+ b) +:+ c = a +:+ b +:+ c.
Proof.
  induction a as [|d a IH]; [done|].
  change (String d ((a +:+ b) +:+ c) = String d (a +:+ b +:+ c)). by rewrite IH.
Qed.

Lemma string_app_nil_r (a : string) : a +:+ "" = a.
Proof. induction a as [|c a IH]; [done|]. change (String c (a +:+ "") = String c a). by rewrite IH. Qed.

Lemma string_length_app (a b : string) : String.length (a +:+ b) = (String.length a + String.length b)%nat.
Proof. induction a as [|c a IH]; [done|]. change (String c a +:+ b) with (String c (a +:+ b)). cbn. by rewrite IH. Qed.

Lemma length_drop_chars n s : (String.length (drop_chars n s) <= String.length s - n)%nat.
Proof.
  revert n. induction s as [|c s IH]; intros n; destruct n as [|n]; cbn; try lia. specialize (IH n). lia.
Qed.

(** More fuel changes nothing. *)
Lemma yylex_fuel s f g : (String.length s < f)%nat -> (String.length s < g)%nat -> yylex_loop f s = yylex_loop g s.
Proof.
  revert s g. induction f as [|f IH]; intros s g Hf Hg; [lia|]. destruct g as [|g]; [lia|]. cbn [yylex_loop].
  destruct s as [|c s].
  { assert (best_rule rules "" = None) as -> by (vm_compute; reflexivity). done. }
  destruct (best_rule rules (String c s)) as [[[|n] a]|]; [done| |done]. destruct a; [|done..].
  cbn [drop_chars]. pose proof (length_drop_chars n s). cbn in Hf, Hg. apply IH; lia.
Qed.

(** A match that is passed over. *)
Lemma yylex_skip s n : best_rule rules s = Some (S n, Ignore) -> (S n <= String.length s)%nat -> yylex s = yylex (drop_chars (S n) s).
Proof.
  intros Hb Hn. unfold yylex at 1. cbn [yylex_loop]. rewrite Hb. pose proof (length_drop_chars (S n) s).
  apply yylex_fuel; lia.
Qed.

Lemma rules_not_nullable : Forall (fun x => nullable x.1 = false) rules.
Proof. apply Forall_forall. intros x Hx. assert (forallb (fun x => negb (nullable x.1)) rules = true) as Hf by by vm_compute.
  rewrite forallb_forall in Hf. apply negb_true_iff, Hf. by apply list_elem_of_In. Qed.

Definition is_never (r : pattern) : bool := match r with Never => true | _ => false end.

(** The rules that go on after a first character. *)
Definition after (c : ascii) (l : list (pattern * action)) : list (pattern * action) :=
  List.filter (fun x => negb (is_never x.1)) ((fun x => (deriv c x.1, x.2)) <$> l).

Lemma best_rule_after l c s :
  Forall (fun x => nullable x.1 = false) l ->
  best_rule l (String c s) = (fun x => (S x.1, x.2)) <$> best_rule (after c l) s.
Proof.
  induction 1 as [|[r a] l Hr _ IH]; [done|]. unfold after in *. cbn [best_rule fmap list_fmap List.filter fst snd].
  rewrite longest_cons, IH. cbn [fst] in Hr. rewrite Hr. destruct (is_never (deriv c r)) eqn:Hn.
  - destruct (deriv c r); try done. by rewrite longest_never.
  - cbn [negb best_rule]. destruct (longest (deriv c r) s) as [n|]; [|done].
    destruct (best_rule _ s) as [[m b]|]; [|done].
    cbn [fmap option_fmap option_map fst snd]. change (S n <? S m)%nat with (n <? m)%nat. by destruct (n <? m)%nat.
Qed.

Lemma longest_nothing s : longest Nothing s = Some 0%nat.
Proof. destruct s as [|d s]; [done|]. rewrite longest_cons. cbn [deriv]. by rewrite longest_never. Qed.

Lemma best_rule_blank c s :
  c = " "%char \/ c = TAB \/ c = NL -> best_rule rules (String c s) = Some (1%nat, Ignore).
Proof.
  intros Hc. rewrite best_rule_after by apply rules_not_nullable.
  assert (exists a, after c rules = [(Nothing, Ignore); (Nothing, a)] \/ after c rules = [(Nothing, Ignore)]) as (a & [-> | ->]).
  { exists (Keyword TK_ELSE). destruct Hc as [-> |[-> | ->]]; vm_compute; auto. }
  - cbn [best_rule]. by rewrite longest_nothing.
  - cbn [best_rule]. by rewrite longest_nothing.
Qed.

Lemma yylex_blank c s : c = " "%char \/ c = TAB \/ c = NL -> yylex (String c s) = yylex s.
Proof. intros Hc. by rewrite (yylex_skip _ 0) by (rewrite ?best_rule_blank; cbn; (done || lia)). Qed.

Lemma yylex_blanks w s : all_chars (Ascii.eqb " ") w = true -> yylex (w +:+ s) = yylex s.
Proof.
  induction w as [|c w IH]; [done|]. cbn [all_chars]. intros [<-%Ascii.eqb_eq Hw]%andb_true_iff.
  change (String " " w +:+ s) with (String " " (w +:+ s)). rewrite yylex_blank by auto. by apply IH.
Qed.

(** A comment, up to the end of the line. *)
Lemma yylex_comment w s : all_chars not_newline w = true -> yylex (String "#" (w +:+ String NL s)) = yylex s.
Proof.
  intros Hw. rewrite (yylex_skip _ (String.length w)).
  - cbn [drop_chars]. rewrite drop_chars_app. apply yylex_blank. auto.
  - rewrite best_rule_after by apply rules_not_nullable.
    replace (after "#" rules) with [(Star (Chars not_newline), Ignore); (Nothing, Keyword TK_ELSE)] by (symmetry; vm_compute; reflexivity).
    assert (forall w, all_chars not_newline w = true ->
      longest (Star (Chars not_newline)) (w +:+ String NL s) = Some (String.length w)) as Hstar.
    { clear. induction w as [|c w IH]; cbn [all_chars].
      - intros _. change ("" +:+ String NL s) with (String NL s). rewrite longest_cons. cbn. by rewrite longest_never.
      - intros [Hc Hw]%andb_true_iff. change (String c w +:+ String NL s) with (String c (w +:+ String NL s)).
        rewrite longest_cons. cbn [deriv]. rewrite Hc, longest_seq_nothing. by rewrite IH. }
    cbn [best_rule]. rewrite Hstar by done.
    by rewrite longest_nothing.
  - cbn [String.length]. rewrite string_length_app. cbn. lia.
Qed.

(** A character with a meaning of its own. *)
Lemma yylex_op c s : one_of "{};[]" c = true -> yylex (String c s) = (Op c, String c "", s).
Proof.
  intros Hc. unfold yylex. cbn [yylex_loop]. rewrite best_rule_after by apply rules_not_nullable.
  assert (after c rules = [(Nothing, Char); (Nothing, Keyword TK_ELSE)]) as ->.
  { unfold one_of in Hc. cbn [list_ascii_of_string existsb] in Hc.
    repeat (apply orb_true_iff in Hc as [Hc|Hc]); try done; apply Ascii.eqb_eq in Hc as ->; vm_compute; reflexivity. }
  cbn [best_rule]. by rewrite longest_nothing.
Qed.

(** ** Words and strings *)

Definition name_token (t : token) : bool :=
  match t with
  | TK_EOF | Op _ | TK_ERR_STRING_TOO_LONG | TK_ERR_DQSTRING_TOO_LONG | TK_ERR_DQSTRING | TK_ELSE => false
  | _ => true
  end.

(** The token of a word: that of the first rule for the whole of it. *)
Definition token_of_word (w : string) : token :=
  match List.find (fun x => nullable (derivs w x.1)) NAME_RULES with
  | Some (_, Keyword t) => t
  | _ => TK_STRING
  end.

Lemma find_first {A} (p : A -> bool) l x :
  List.find p l = Some x -> exists l1 l2, l = l1 ++ x :: l2 /\ p x = true /\ Forall (fun y => p y = false) l1.
Proof.
  induction l as [|y l IH]; [done|]. cbn [List.find]. destruct (p y) eqn:Hy.
  - intros [= <-]. by exists [], l.
  - intros (l1 & l2 & -> & Hx & Hl1)%IH. exists (y :: l1), l2. split_and!; [done|done|by constructor].
Qed.

Lemma find_nothing {A} (p : A -> bool) l : List.find p l = None -> Forall (fun y => p y = false) l.
Proof. intros Hf. apply Forall_forall. intros x Hx. apply (find_none _ _ Hf). by apply list_elem_of_In. Qed.

Lemma name_rules_keywords x : x ∈ NAME_RULES -> exists t, x.2 = Keyword t /\ name_token t = true.
Proof.
  intros Hx. assert (forallb (fun x => match x.2 with Keyword t => name_token t | _ => false end) NAME_RULES = true) as Hf
    by by vm_compute.
  rewrite forallb_forall in Hf. specialize (Hf x ltac:(by apply list_elem_of_In)).
  destruct x as [r [| |t|t]]; try done. by exists t.
Qed.

(** A rule that is for names matches a word as a whole, or does not. *)
Lemma name_rule_whole x w c rest :
  x ∈ NAME_RULES -> ends_name c ->
  longest x.1 (w +:+ String c rest) = Some (String.length w) <-> nullable (derivs w x.1) = true.
Proof.
  intros Hx Hc. rewrite <- matches_derivs. apply (longest_whole name_char); [|done].
  pose proof name_rules_within as Hn. rewrite Forall_forall in Hn. by apply Hn.
Qed.

(** A word is one token, if the rules for names match no more than the word of
    the text, and the whole word only if they match it by itself. *)
Lemma yylex_word_before w c rest :
  config_word w -> word_char c = false ->
  (forall x n, x ∈ NAME_RULES -> longest x.1 (w +:+ String c rest) = Some n -> (n <= String.length w)%nat) ->
  (forall x, x ∈ NAME_RULES -> longest x.1 (w +:+ String c rest) = Some (String.length w) <-> nullable (derivs w x.1) = true) ->
  yylex (w +:+ String c rest) = (token_of_word w, w, String c rest).
Proof.
  intros Hw Hc Hbound Hwhole. set (s := w +:+ String c rest).
  assert (Hne : exists d w', w = String d w' /\ word_char d = true /\ s = String d (w' +:+ String c rest)).
  { destruct Hw as (Hne & Hch & _). destruct w as [|d w]; [done|]. cbn in Hch. apply andb_true_iff in Hch as [Hd _]. by exists d, w. }
  destruct Hne as (d & w' & Hdw & Hd & Hs).
  assert (Hbest : best_rule rules s = Some (String.length w, Keyword (token_of_word w))).
  { assert (Hstart : Forall (fun y => longest y.1 s <> Some (String.length w)) (START_RULES ++ [(DQSTRING, Unescape TK_STRING)])).
    { apply Forall_forall. intros y Hy. rewrite Hs, (no_word_start d); [done|done|].
      apply elem_of_app in Hy as [Hy| ->%list_elem_of_singleton]; apply elem_of_app; [by left|right; by left]. }
    apply Forall_app in Hstart as [Hstart Hquote].
    assert (Hnot : forall l, (forall y, y ∈ l -> y ∈ NAME_RULES) -> Forall (fun y => nullable (derivs w y.1) = false) l ->
      Forall (fun y => longest y.1 s <> Some (String.length w)) l).
    { intros l Hl. rewrite !Forall_forall. intros Hf y Hy. unfold s. rewrite Hwhole by auto. by rewrite Hf. }
    assert (Hmax : forall y n, y ∈ rules -> longest y.1 s = Some n -> (n <= String.length w)%nat).
    { intros y n. rewrite Hs, Hdw. apply rule_bound; [by apply word_is_name|done|]. intros x k Hx. rewrite <- Hs.
      replace (S (String.length w')) with (String.length w) by by subst w. by apply Hbound. }
    unfold token_of_word. rewrite rules_parts in Hmax |- *. destruct (List.find _ NAME_RULES) as [x|] eqn:Hf.
    - apply find_first in Hf as (n1 & n2 & Hn & Hx & Hn1).
      assert (x ∈ NAME_RULES) as Hin by (rewrite Hn; apply elem_of_app; right; by left).
      destruct (name_rules_keywords x Hin) as (t & Ht & _).
      replace (match x with (_, Keyword t) => t | _ => TK_STRING end) with t by (destruct x as [r a]; cbn in Ht; by subst a).
      rewrite <- Ht. rewrite Hn in Hmax |- *. rewrite <- (app_assoc n1), (app_assoc START_RULES) in Hmax |- *.
      apply best_rule_at; [exact Hmax| |].
      + by apply Hwhole.
      + apply Forall_app. split; [done|]. apply Hnot; [|done]. intros y Hy. rewrite Hn. apply elem_of_app. by left.
    - apply find_nothing in Hf. rewrite (app_assoc START_RULES), cons_middle, app_assoc in Hmax |- *.
      apply (best_rule_at _ (STRING, Keyword TK_STRING)); [exact Hmax| |].
      + destruct Hw as (Hne & Hch & Hl). apply longest_rep; [done|done|]. destruct w; [done|]. cbn in *. lia.
      + rewrite !Forall_app. split_and!; [done|by apply Hnot|done]. }
  unfold yylex. cbn [yylex_loop]. rewrite Hbest. destruct Hw as (Hne & _). unfold s.
  rewrite take_chars_app, drop_chars_app. by destruct w.
Qed.

Lemma yylex_word w c rest :
  config_word w -> ends_name c -> yylex (w +:+ String c rest) = (token_of_word w, w, String c rest).
Proof.
  intros Hw Hc. apply yylex_word_before; [done|by apply ends_name_word| |].
  - intros x n Hx. apply (longest_within name_char); [|done].
    pose proof name_rules_within as Hn. rewrite Forall_forall in Hn. by apply Hn.
  - intros x Hx. by apply name_rule_whole.
Qed.

Lemma token_of_word_name w : name_token (token_of_word w) = true.
Proof.
  unfold token_of_word. destruct (List.find _ _) as [x|] eqn:Hf; [|done]. apply find_some in Hf as [Hx _].
  destruct (name_rules_keywords x) as (t & Ht & Hn); [by apply list_elem_of_In|]. destruct x as [r a]. cbn in Ht. by subst a.
Qed.

(** A token that is a keyword has its text. *)
Lemma token_of_word_keyword w t :
  token_of_word w = t -> t ∉ [TK_STRING; TK_KMODVERS; TK_IPADDR; TK_IPADDR6; TK_INTEGER] ->
  (w, t) ∈ keywords ++ more_keywords.
Proof.
  unfold token_of_word. destruct (List.find _ _) as [x|] eqn:Hf; [|intros <- Ht; exfalso; apply Ht; by left].
  apply find_some in Hf as [Hx Hw%matches_derivs]. apply list_elem_of_In in Hx. intros Hxt Ht.
  assert (forall l : list (string * token), x ∈ (keyword <$> l) -> (w, t) ∈ l) as Hk.
  { intros l (k & -> & Hk)%list_elem_of_fmap. cbn in Hxt, Hw. apply matches_lit in Hw as ->. destruct k. cbn in *. by subst t. }
  unfold NAME_RULES in Hx. apply elem_of_app in Hx as [Hx|Hx]; [apply elem_of_app; left; by apply Hk|].
  assert (forall u, u ∈ [TK_STRING; TK_KMODVERS; TK_IPADDR; TK_IPADDR6; TK_INTEGER] -> x.2 = Keyword u -> False) as Hno.
  { intros u Hu Hxu. apply Ht. destruct x as [r a]. cbn in *. by subst a t. }
  apply elem_of_app in Hx as [->%list_elem_of_singleton|Hx].
  { exfalso. apply (Hno TK_KMODVERS); [by apply (bool_decide_unpack _)|done]. }
  apply elem_of_app in Hx as [Hx|Hx]; [apply elem_of_app; right; by apply Hk|].
  exfalso. repeat (apply elem_of_cons in Hx as [-> |Hx]; [eapply Hno; [|done]; by apply (bool_decide_unpack _)|]).
  by apply elem_of_nil in Hx.
Qed.

Lemma token_of_word_unknown w : token_of_word w = TK__UNKNOWN -> w = "_unknown".
Proof.
  intros Hw. apply token_of_word_keyword in Hw; [|by apply (bool_decide_unpack _)].
  assert (forallb (fun x => implb (bool_decide (x.2 = TK__UNKNOWN)) (String.eqb x.1 "_unknown")) (keywords ++ more_keywords) = true)
    as Hall by by vm_compute.
  rewrite forallb_forall in Hall. specialize (Hall _ ltac:(by apply list_elem_of_In)). by apply String.eqb_eq in Hall.
Qed.

(** The first rule for a word. *)
Lemma token_of_word_rule w l1 r t l2 :
  NAME_RULES = l1 ++ (r, Keyword t) :: l2 -> matches r w -> Forall (fun y => ~ matches y.1 w) l1 -> token_of_word w = t.
Proof.
  intros Hn Hr Hl1. unfold token_of_word. rewrite Hn.
  assert (List.find (fun x => nullable (derivs w x.1)) (l1 ++ (r, Keyword t) :: l2) = Some (r, Keyword t)) as ->; [|done].
  clear Hn. induction Hl1 as [|y l1 Hy _ IH]; cbn [app List.find fst].
  - by apply matches_derivs in Hr as ->.
  - rewrite matches_derivs in Hy. by apply not_true_iff_false in Hy as ->.
Qed.

Lemma keywords_do_not_match (p : string -> bool) w l :
  forallb (fun x => negb (p x.1)) l = true -> p w = true -> Forall (fun y => ~ matches y.1 w) (keyword <$> l).
Proof.
  intros Hl Hw. rewrite forallb_forall in Hl. apply Forall_forall. intros y (k & -> & Hk)%list_elem_of_fmap. cbn.
  intros ->%matches_lit. specialize (Hl k ltac:(by apply list_elem_of_In)). by rewrite Hw in Hl.
Qed.


(** *** Numbers and addresses *)

Lemma all_chars_app p v w : all_chars p (v +:+ w) = all_chars p v && all_chars p w.
Proof. induction v as [|c v IH]; [done|]. change (String c v +:+ w) with (String c (v +:+ w)). cbn. by rewrite IH, andb_assoc. Qed.

Fixpoint count_char (c : ascii) (s : string) : nat :=
  match s with EmptyString => 0 | String d s' => (if Ascii.eqb c d then 1 else 0) + count_char c s' end%nat.

Lemma count_char_app c v w : count_char c (v +:+ w) = (count_char c v + count_char c w)%nat.
Proof. induction v as [|d v IH]; [done|]. change (String d v +:+ w) with (String d (v +:+ w)). cbn. rewrite IH. lia. Qed.

Lemma count_char_none p c s : p c = false -> all_chars p s = true -> count_char c s = 0%nat.
Proof.
  intros Hc. induction s as [|d s IH]; [done|]. cbn. intros [Hd Hs]%andb_true_iff. rewrite IH by done.
  destruct (Ascii.eqb_spec c d) as [->|]; [congruence|done].
Qed.

(** A sequence of characters of a class. *)
Lemma matches_rep_chars p lo hi w :
  matches (Rep (Chars p) lo hi) w <-> all_chars p w = true /\ (lo <= String.length w <= hi)%nat.
Proof.
  revert lo hi. induction w as [|c w IH]; intros lo hi.
  - rewrite matches_nil. cbn. rewrite orb_false_r, bool_decide_eq_true. lia.
  - rewrite matches_rep_cons. setoid_rewrite matches_chars. cbn [all_chars String.length]. rewrite andb_true_iff. split.
    + intros (u & v & hi' & -> & -> & (d & [= -> ->] & Hd) & [Hv Hl]%IH). change ("" +:+ v) with v in *. split_and!; [done..|lia|lia].
    + intros [[Hc Hw] Hl]. destruct hi as [|hi]; [lia|]. exists "", w, hi. split_and!; [done|done| |apply IH; split; [done|lia]].
      by exists c.
Qed.

Lemma matches_star_chars p w : matches (Star (Chars p)) w -> all_chars p w = true.
Proof.
  induction w as [|c w IH]; [done|]. rewrite matches_star_cons. intros (u & v & -> & Hu & Hv).
  apply matches_chars in Hu as (d & [= -> ->] & Hd). change ("" +:+ v) with v in *. cbn. by rewrite Hd, IH.
Qed.

Lemma matches_plus_digits w : matches (one_or_more (Chars isdigit)) w -> all_chars isdigit w = true.
Proof.
  unfold one_or_more. rewrite matches_seq. intros (u & v & -> & (d & -> & Hd)%matches_chars & Hv%matches_star_chars).
  rewrite all_chars_app. cbn. by rewrite Hd, Hv.
Qed.

Lemma digits_no_dot s : all_chars isdigit s = true -> count_char "." s = 0%nat.
Proof. by apply count_char_none. Qed.

Lemma matches_dot w : matches dot w -> w = ".".
Proof. intros (c & -> & <-%Ascii.eqb_eq)%matches_chars. done. Qed.

(** Versions have two dots. *)
Lemma kmodvers_dots w : matches KMODVERS w -> count_char "." w = 2%nat.
Proof.
  unfold KMODVERS. intros (a & ? & -> & Ha & (? & ? & -> & ->%matches_dot & Hb)%matches_seq)%matches_seq.
  apply matches_seq in Hb as (b & ? & -> & Hb & (? & c & -> & ->%matches_dot & Hc)%matches_seq).
  apply matches_plus_digits in Ha, Hb, Hc.
  rewrite !count_char_app, (digits_no_dot a), (digits_no_dot b), (digits_no_dot c) by done. done.
Qed.

Lemma ipv6_colons w : matches IPV6ADDR w -> count_char ":" w <> 0%nat.
Proof.
  unfold IPV6ADDR. intros [Hm|Hm]%matches_alt.
  - apply matches_seq in Hm as (u & v & -> & _ & Hv). apply matches_seq in Hv as (v1 & v2 & -> & Hc & _).
    apply matches_chars in Hc as (c & -> & <-%Ascii.eqb_eq). rewrite !count_char_app. cbn. lia.
  - apply matches_seq in Hm as (u & v & -> & ->%matches_lit & _). rewrite count_char_app. cbn. lia.
Qed.

(** Numbers of up to eight digits. *)
Definition number_text (w : string) : Prop := all_chars isdigit w = true /\ (1 <= String.length w <= 8)%nat.

(** IPv4 addresses. *)
Definition ipv4_text (w : string) : Prop :=
  exists a b c d, w = a +:+ "." +:+ b +:+ "." +:+ c +:+ "." +:+ d /\
    Forall (fun x => all_chars isdigit x = true /\ (1 <= String.length x <= 3)%nat) [a; b; c; d].

Lemma ipv4_dots w : ipv4_text w -> count_char "." w = 3%nat.
Proof.
  intros (a & b & c & d & -> & Hf). rewrite !Forall_cons in Hf. destruct Hf as ([Ha _] & [Hb _] & [Hc _] & [Hd _] & _).
  rewrite !count_char_app, (digits_no_dot a), (digits_no_dot b), (digits_no_dot c), (digits_no_dot d) by done. done.
Qed.

Lemma ipv4_matches w : ipv4_text w -> matches IPV4ADDR w.
Proof.
  assert (forall x, all_chars isdigit x = true /\ (1 <= String.length x <= 3)%nat -> matches SNUMB x) as Hnum.
  { intros x Hx. by apply matches_rep_chars. }
  assert (forall x, all_chars isdigit x = true /\ (1 <= String.length x <= 3)%nat -> exists e x', x = String e x') as Hcons.
  { intros [|e x'] [_ Hl]; [cbn in Hl; lia|]. eauto. }
  intros (a & b & c & d & -> & Hf). rewrite !Forall_cons in Hf. destruct Hf as (Ha & Hb & Hc & Hd & _).
  assert (forall x, matches SNUMB x -> matches (Seq SNUMB dot) (x +:+ ".")) as Hgroup.
  { intros x Hx. apply M_seq; [done|]. by constructor. }
  destruct (Hcons a Ha) as (a0 & a' & ->), (Hcons b Hb) as (b0 & b' & ->), (Hcons c Hc) as (c0 & c' & ->).
  set (u := String a0 a'). set (v := String b0 b'). set (z := String c0 c').
  replace (u +:+ "." +:+ v +:+ "." +:+ z +:+ "." +:+ d)
    with (((u +:+ ".") +:+ ((v +:+ ".") +:+ ((z +:+ ".") +:+ ""))) +:+ d)
    by by rewrite !string_app_assoc.
  apply M_seq; [|by apply Hnum]. apply (M_rep _ 3 2 a0 (a' +:+ ".")); [exact (Hgroup u (Hnum u Ha))|].
  apply (M_rep _ 2 1 b0 (b' +:+ ".")); [exact (Hgroup v (Hnum v Hb))|].
  apply (M_rep _ 1 0 c0 (c' +:+ ".")); [exact (Hgroup z (Hnum z Hc))|]. constructor. by left.
Qed.

Lemma no_keyword_digit w :
  all_chars isdigit w = true \/ count_char "." w <> 0%nat -> w <> "" ->
  Forall (fun y => ~ matches y.1 w) (keyword <$> keywords) /\ Forall (fun y => ~ matches y.1 w) (keyword <$> more_keywords).
Proof.
  intros [Hw|Hw] Hne.
  - split; by apply (keywords_do_not_match (all_chars isdigit)).
  - split; apply (keywords_do_not_match (fun k => negb (Nat.eqb (count_char "." k) 0))); try by vm_compute.
    + by apply negb_true_iff, Nat.eqb_neq.
    + by apply negb_true_iff, Nat.eqb_neq.
Qed.

Lemma token_of_number w : number_text w -> token_of_word w = TK_INTEGER.
Proof.
  intros [Hw Hl]. pose proof (count_char_none isdigit "." w eq_refl Hw) as Hdots.
  pose proof (count_char_none isdigit ":" w eq_refl Hw) as Hcolons.
  destruct (no_keyword_digit w) as [H1 H2]; [by left|by intros ->; cbn in Hl; lia|].
  apply (token_of_word_rule _ ((keyword <$> keywords) ++ [(KMODVERS, Keyword TK_KMODVERS)] ++ (keyword <$> more_keywords) ++
    [(IPV4ADDR, Keyword TK_IPADDR); (IPV6ADDR, Keyword TK_IPADDR6)]) NUM TK_INTEGER []).
  - unfold NAME_RULES. by rewrite <- !app_assoc.
  - unfold NUM. rewrite <- (string_app_nil_r w). apply M_seq; [by apply matches_rep_chars|]. apply M_alt_r. constructor.
  - rewrite !Forall_app. split_and!; [done| |done|].
    + constructor; [|done]. cbn. intros Hk%kmodvers_dots. lia.
    + constructor; [|constructor; [|done]]; cbn; [|by intros Hk%ipv6_colons].
      unfold IPV4ADDR. intros (u & v & -> & Hu & _)%matches_seq. rewrite count_char_app in Hdots.
      destruct u as [|c u]; [apply matches_nil in Hu; by vm_compute in Hu|].
      apply matches_rep_cons in Hu as (x & y & hi & _ & -> & (x1 & x2 & Hx & _ & ->%matches_dot)%matches_seq & _).
      change (String c (x +:+ y)) with (String c x +:+ y) in Hdots. rewrite Hx, !count_char_app in Hdots. cbn in Hdots. lia.
Qed.

Lemma token_of_ipv4 w : ipv4_text w -> token_of_word w = TK_IPADDR.
Proof.
  intros Hw. pose proof (ipv4_dots w Hw) as Hdots.
  destruct (no_keyword_digit w) as [H1 H2]; [right; lia|by intros ->|].
  apply (token_of_word_rule _ ((keyword <$> keywords) ++ [(KMODVERS, Keyword TK_KMODVERS)] ++ (keyword <$> more_keywords))
    IPV4ADDR TK_IPADDR [(IPV6ADDR, Keyword TK_IPADDR6); (NUM, Keyword TK_INTEGER)]).
  - unfold NAME_RULES. by rewrite <- !app_assoc.
  - by apply ipv4_matches.
  - rewrite !Forall_app. split_and!; [done| |done]. constructor; [|done]. cbn. intros Hk%kmodvers_dots. lia.
Qed.

(** *** Addresses with colons *)

Lemma longest_matches r s n : longest r s = Some n -> matches r (take_chars n s).
Proof.
  revert r n. induction s as [|c s IH]; intros r n.
  - rewrite longest_nil. destruct (nullable r) eqn:Hr; [|done]. intros [= <-]. by apply matches_nil.
  - rewrite longest_cons. destruct (longest (deriv c r) s) as [k|] eqn:Hk.
    + intros [= <-]. cbn [take_chars]. by apply matches_cons, IH.
    + destruct (nullable r) eqn:Hr; [|done]. intros [= <-]. by apply matches_nil.
Qed.

Lemma count_take c n s : (count_char c (take_chars n s) <= count_char c s)%nat.
Proof. revert n. induction s as [|d s IH]; intros [|n]; cbn; try lia. specialize (IH n). lia. Qed.

Lemma take_chars_le n w s : (n <= String.length w)%nat -> take_chars n (w +:+ s) = take_chars n w.
Proof.
  revert n. induction w as [|c w IH]; intros [|n] Hn; cbn in Hn; try done; try lia.
  change (String c w +:+ s) with (String c (w +:+ s)). cbn. by rewrite IH by lia.
Qed.

Lemma ipv6_two_colons w : matches IPV6ADDR w -> (2 <= count_char ":" w)%nat.
Proof.
  unfold IPV6ADDR. intros [Hm|Hm]%matches_alt.
  - apply matches_seq in Hm as (u & v & -> & _ & Hv). apply matches_seq in Hv as (v1 & v2 & -> & Hc & Hv).
    apply matches_seq in Hv as (v3 & v4 & -> & _ & Hv). apply matches_seq in Hv as (v5 & v6 & -> & Hd & _).
    apply matches_chars in Hc as (c & -> & <-%Ascii.eqb_eq), Hd as (d & -> & <-%Ascii.eqb_eq).
    rewrite !count_char_app. cbn. lia.
  - apply matches_seq in Hm as (u & v & -> & ->%matches_lit & _). rewrite count_char_app. cbn. lia.
Qed.

Lemma ipv6_within : within name_char IPV6ADDR.
Proof.
  pose proof name_rules_within as Hf. rewrite Forall_forall in Hf. apply (Hf (IPV6ADDR, Keyword TK_IPADDR6)).
  unfold NAME_RULES. rewrite !elem_of_app. right; right; right. by right; left.
Qed.

Lemma matches_within p r w : within p r -> matches r w -> all_chars p w = true.
Proof.
  intros Hr Hm. induction Hm as [|q c Hq|a b v w Ha IHa Hb IHb|a b w Hm IH|a b w Hm IH|a|a c v w Ha IHa Hb IHb|a lo hi _|
    a lo hi c v w Ha IHa Hb IHb]; cbn [within] in Hr; try done.
  - cbn. by rewrite Hr.
  - destruct Hr. by rewrite all_chars_app, IHa, IHb.
  - by apply IH, Hr.
  - by apply IH, Hr.
  - by rewrite all_chars_app, IHa, IHb.
  - by rewrite all_chars_app, IHa, IHb.
Qed.

(** Digits and dots. *)
Lemma dotted_within :
  within (fun c => isdigit c || Ascii.eqb "." c) KMODVERS /\ within (fun c => isdigit c || Ascii.eqb "." c) IPV4ADDR.
Proof.
  cbn [within KMODVERS IPV4ADDR SNUMB one_or_more dot].
  split_and!; intros c Hc; rewrite Hc; by rewrite ?orb_true_r.
Qed.

Lemma dotted_no_colon r w :
  within (fun c => isdigit c || Ascii.eqb "." c) r -> matches r w -> count_char ":" w = 0%nat.
Proof. intros Hr Hm. by eapply count_char_none; [|by eapply matches_within]. Qed.

(** The colon in front of a port. *)
Lemma yylex_colon w c s :
  number_text w -> ends_name c -> yylex (String ":" (w +:+ String c s)) = (Op ":", ":", w +:+ String c s).
Proof.
  intros [Hw _] Hc.
  assert (longest (deriv ":" IPV6ADDR) (w +:+ String c s) = None) as Hd.
  { destruct (longest (deriv ":" IPV6ADDR) (w +:+ String c s)) as [n|] eqn:Hn; [exfalso|done].
    assert (n <= String.length w)%nat.
    { apply (longest_within name_char _ _ _ _ _) in Hn; [done| |done]. by apply within_deriv, ipv6_within. }
    apply longest_matches in Hn. apply matches_cons, ipv6_two_colons in Hn.
    rewrite take_chars_le in Hn by done. cbn [count_char] in Hn. pose proof (count_take ":" n w).
    rewrite (count_char_none isdigit ":" w) in * by done. cbn in Hn. lia. }
  unfold yylex. cbn [yylex_loop]. rewrite best_rule_after by apply rules_not_nullable.
  replace (after ":" rules) with [(Nothing, Char); (deriv ":" IPV6ADDR, Keyword TK_IPADDR6); (Nothing, Keyword TK_ELSE)]
    by (symmetry; vm_compute; reflexivity).
  cbn [best_rule]. by rewrite Hd, longest_nothing.
Qed.

(** The rules for words and for addresses without colons. *)
Lemma word_rules_within : Forall (fun x => x.1 = IPV6ADDR \/ within word_char x.1) NAME_RULES.
Proof.
  assert (forall l, forallb (fun x => all_chars word_char x.1) l = true ->
    Forall (fun x => x.1 = IPV6ADDR \/ within word_char x.1) (keyword <$> l)) as Hk.
  { intros l Hl%keywords_within. eapply Forall_impl; [exact Hl|]. auto. }
  unfold NAME_RULES. rewrite !Forall_app. split_and!; [by apply Hk| |by apply Hk|].
  - constructor; [|done]. right. cbn. within_names.
  - apply Forall_cons_2; [right; cbn; within_names|]. apply Forall_cons_2; [by left|].
    apply Forall_cons_2; [right; cbn; within_names|]. done.
Qed.

(** A word in front of a colon and a number: one colon is no IPv6 address. *)
Lemma longest_one_colon w p c rest :
  all_chars word_char w = true -> all_chars isdigit p = true -> ends_name c ->
  longest IPV6ADDR (w +:+ String ":" (p +:+ String c rest)) = None.
Proof.
  intros Hw Hp Hc. destruct (longest IPV6ADDR _) as [n|] eqn:Hn; [exfalso|done].
  set (t := w +:+ String ":" p).
  assert (w +:+ String ":" (p +:+ String c rest) = t +:+ String c rest) as Ht
    by (unfold t; rewrite string_app_assoc; reflexivity).
  rewrite Ht in Hn. assert (n <= String.length t)%nat as Hl by (by apply (longest_within name_char _ _ _ _ _ ipv6_within Hc) in Hn).
  apply longest_matches, ipv6_two_colons in Hn. rewrite take_chars_le in Hn by done.
  pose proof (count_take ":" n t) as Hcount. assert (count_char ":" t = 1%nat); [|lia].
  unfold t. rewrite count_char_app. cbn [count_char].
  by rewrite (count_char_none word_char ":" w), (count_char_none isdigit ":" p).
Qed.

Lemma yylex_word_colon w p c rest :
  config_word w -> all_chars isdigit p = true -> ends_name c ->
  yylex (w +:+ String ":" (p +:+ String c rest)) = (token_of_word w, w, String ":" (p +:+ String c rest)).
Proof.
  intros Hw Hp Hc. pose proof Hw as (_ & Hch & _). pose proof word_rules_within as Hin. rewrite Forall_forall in Hin.
  apply yylex_word_before; [done..| |].
  - intros x n Hx. destruct (Hin x Hx) as [-> |Hxw]; [by rewrite longest_one_colon|]. by apply (longest_within word_char).
  - intros x Hx. destruct (Hin x Hx) as [-> |Hxw].
    + rewrite longest_one_colon by done. split; [done|]. intros Hm%matches_derivs%ipv6_colons.
      by rewrite (count_char_none word_char ":" w) in Hm.
    + rewrite <- matches_derivs. by apply (longest_whole word_char).
Qed.

(** IPv6 addresses, as far as the scanner knows them. *)
Definition ipv6_text (w : string) : Prop := matches IPV6ADDR w /\ all_chars name_char w = true.

Lemma ipv6_first w : ipv6_text w -> exists d w', w = String d w' /\ name_char d = true /\ (0 < String.length w')%nat.
Proof.
  intros [Hm%ipv6_two_colons Hw]. destruct w as [|d w]; [cbn in Hm; lia|]. cbn in Hw. apply andb_true_iff in Hw as [Hd _].
  exists d, w. split_and!; [done..|]. destruct w as [|e w]; [|cbn; lia]. revert Hm. cbn [count_char String.length]. destruct (Ascii.eqb ":" d); lia.
Qed.

Lemma yylex_ipv6 w c s :
  ipv6_text w -> ends_name c -> yylex (w +:+ String c s) = (TK_IPADDR6, w, String c s).
Proof.
  intros Hw Hc. destruct (ipv6_first w Hw) as (d & w' & Hd & Hdn & Hlen). destruct Hw as [Hm Hw].
  set (t := w +:+ String c s).
  assert (Hshort : (1 < String.length w)%nat) by (subst w; cbn; lia).
  assert (Ht : t = String d (w' +:+ String c s)) by (unfold t; by subst w).
  assert (Hstart : Forall (fun x => longest x.1 t <> Some (String.length w)) START_RULES).
  { apply Forall_forall. intros x Hx. rewrite Ht. destruct (start_rule_short d (w' +:+ String c s) x Hdn Hx) as [-> | ->]; [done|].
    intros [= Hl]. lia. }
  assert (Hcolon : forall r, count_char ":" w <> 0%nat -> within name_char r -> (matches r w -> count_char ":" w = 0%nat) ->
    longest r t <> Some (String.length w)).
  { intros r Hn Hr Hz Hl. apply (longest_whole name_char) in Hl; auto. }
  pose proof (ipv6_colons w Hm) as Hn. pose proof name_rules_within as Hin. unfold NAME_RULES in Hin.
  rewrite !Forall_app, !Forall_cons in Hin. destruct Hin as (Hk1 & (Hv & _) & Hk2 & Hi4 & _).
  assert (Hkey : forall l, forallb (fun x => Nat.eqb (count_char ":" x.1) 0) l = true -> Forall (fun x => within name_char x.1) (keyword <$> l) ->
    Forall (fun x => longest x.1 t <> Some (String.length w)) (keyword <$> l)).
  { intros l Hl Hwl. rewrite Forall_forall in Hwl |- *. intros x Hx. apply Hcolon; [done|by apply Hwl|].
    apply list_elem_of_fmap in Hx as (k & -> & Hk). cbn. intros ->%matches_lit. rewrite forallb_forall in Hl.
    by apply Nat.eqb_eq, Hl, list_elem_of_In. }
  assert (Hbest : best_rule rules t = Some (String.length w, Keyword TK_IPADDR6)).
  { assert (Hmax : forall y n, y ∈ rules -> longest y.1 t = Some n -> (n <= String.length w)%nat).
    { intros y n Hy. rewrite Ht, Hd. by apply name_bound. }
    assert (Hparts : rules = (START_RULES ++ (keyword <$> keywords) ++ [(KMODVERS, Keyword TK_KMODVERS)] ++
      (keyword <$> more_keywords) ++ [(IPV4ADDR, Keyword TK_IPADDR)]) ++ (IPV6ADDR, Keyword TK_IPADDR6) ::
      (NUM, Keyword TK_INTEGER) :: (DQSTRING, Unescape TK_STRING) :: (STRING, Keyword TK_STRING) :: END_RULES).
    { rewrite rules_parts. unfold NAME_RULES. by rewrite <- !app_assoc. }
    rewrite Hparts in Hmax |- *. apply (best_rule_at _ (IPV6ADDR, Keyword TK_IPADDR6)); [exact Hmax| |].
    - by apply (longest_whole name_char); [apply ipv6_within| |].
    - rewrite !Forall_app. split_and!; [done|by apply Hkey| |by apply Hkey|]; (constructor; [|done]); apply Hcolon; try done; cbn.
      + apply dotted_no_colon, dotted_within.
      + apply dotted_no_colon, dotted_within. }
  unfold yylex. cbn [yylex_loop]. rewrite Hbest. unfold t. rewrite take_chars_app, drop_chars_app. by subst w.
Qed.

(** *** Strings in double quotes *)

(** The part of the patterns of strings behind the first quote. *)
Definition dq_tail (lo hi : nat) (p : ascii -> bool) : pattern := Seq (Rep dq_char lo hi) (Chars p).

Lemma dq_tail_plain lo hi p c s :
  negb (Ascii.eqb c QUOTE || Ascii.eqb c BACKSLASH || Ascii.eqb c NL) = true -> (lo = 0%nat -> p c = false) ->
  longest (dq_tail lo (S hi) p) (String c s) = (S <$> longest (dq_tail (pred lo) hi p) s).
Proof.
  intros Hc Hp. unfold dq_tail. rewrite longest_cons. cbn [deriv nullable dq_char]. rewrite Hc.
  assert (Ascii.eqb BACKSLASH c = false) as Hb.
  { apply Ascii.eqb_neq. intros <-. apply negb_true_iff, orb_false_iff in Hc as [Hc _]. by apply orb_false_iff in Hc as [_ ?]. }
  rewrite Hb. cbn [mk_seq mk_alt andb]. rewrite andb_false_r.
  destruct lo as [|lo].
  - rewrite bool_decide_eq_true_2 by done. cbn [orb]. rewrite Hp by done. cbn [pred mk_alt].
    by destruct (longest _ s).
  - rewrite bool_decide_eq_false_2 by done. cbn [orb pred]. by destruct (longest _ s).
Qed.

Lemma dq_tail_escaped lo hi p d s :
  not_newline d = true ->
  longest (dq_tail lo (S hi) p) (String BACKSLASH (String d s)) =
  match longest (dq_tail (pred lo) hi p) s with
  | Some n => Some (S (S n))
  | None => if (bool_decide (lo = 0%nat) && p BACKSLASH)%bool then Some 1%nat else None
  end.
Proof.
  intros Hd. unfold dq_tail. rewrite longest_cons. cbn [deriv nullable dq_char].
  replace (negb (Ascii.eqb BACKSLASH QUOTE || Ascii.eqb BACKSLASH BACKSLASH || Ascii.eqb BACKSLASH NL)) with false by reflexivity.
  replace (Ascii.eqb BACKSLASH BACKSLASH) with true by reflexivity. cbn [mk_seq mk_alt andb]. rewrite andb_false_r.
  assert (Hstep : forall r, longest (Seq (Seq (Chars not_newline) r) (Chars p)) (String d s) =
    S <$> longest (mk_seq r (Chars p)) s).
  { intros r. rewrite longest_cons. cbn [deriv nullable andb]. rewrite Hd. cbn [mk_seq]. by destruct (longest _ s). }
  destruct lo as [|lo].
  - rewrite bool_decide_eq_true_2 by done. cbn [orb andb pred]. destruct (p BACKSLASH); cbn [mk_alt].
    + rewrite longest_cons. cbn [deriv nullable orb andb]. rewrite Hd. cbn [mk_seq mk_alt].
      by destruct (longest _ s).
    + rewrite Hstep. cbn [mk_seq]. by destruct (longest _ s).
  - rewrite bool_decide_eq_false_2 by done. cbn [orb andb pred]. rewrite Hstep. cbn [mk_seq]. by destruct (longest _ s).
Qed.

Lemma dq_tail_quote lo hi p s :
  longest (dq_tail lo hi p) (String QUOTE s) = if (bool_decide (lo = 0%nat) && p QUOTE)%bool then Some 1%nat else None.
Proof.
  unfold dq_tail. rewrite longest_cons. cbn [deriv nullable dq_char].
  replace (Ascii.eqb QUOTE QUOTE) with true by reflexivity.
  replace (Ascii.eqb BACKSLASH QUOTE) with false by reflexivity. cbn [orb negb mk_seq mk_alt andb].
  rewrite andb_false_r, orb_false_r.
  assert (mk_seq match hi with O => Never | S _ => Never end (Chars p) = Never) as Hn by by destruct hi.
  destruct hi; cbn [mk_seq]; destruct (bool_decide (lo = 0%nat)); cbn [andb mk_alt]; destruct (p QUOTE);
    rewrite ?longest_nothing, ?longest_never; done.
Qed.

Lemma dq_tail_full p c s : longest (dq_tail 0 0 p) (String c s) = if p c then Some 1%nat else None.
Proof.
  unfold dq_tail. rewrite longest_cons. cbn [deriv nullable mk_seq mk_alt andb orb bool_decide decide_rel].
  rewrite bool_decide_eq_true_2 by done. cbn [orb]. destruct (p c); [by rewrite longest_nothing|by rewrite longest_never].
Qed.

Definition no_newline (v : string) : Prop := all_chars not_newline v = true.


(** A string in double quotes, escaped as the tools print it, is matched as a
    whole. *)
Lemma longest_dq v hi s :
  no_newline v -> (String.length v <= hi)%nat ->
  longest (dq_tail 0 hi (Ascii.eqb QUOTE)) (escape_quotes v +:+ String QUOTE s) =
  Some (S (String.length (escape_quotes v))).
Proof.
  revert hi. induction v as [|c v IH]; intros hi Hv Hl.
  - change (escape_quotes "" +:+ String QUOTE s) with (String QUOTE s). by rewrite dq_tail_quote.
  - unfold no_newline in Hv. cbn [all_chars] in Hv. apply andb_true_iff in Hv as [Hc Hv]. cbn [String.length] in Hl.
    destruct hi as [|hi]; [lia|]. cbn [escape_quotes].
    destruct (Ascii.eqb c BACKSLASH || Ascii.eqb c QUOTE) eqn:He.
    + change (String BACKSLASH (String c (escape_quotes v)) +:+ String QUOTE s)
        with (String BACKSLASH (String c (escape_quotes v +:+ String QUOTE s))).
      rewrite dq_tail_escaped by done. cbn [pred]. by rewrite IH by (done || lia).
    + change (String c (escape_quotes v) +:+ String QUOTE s) with (String c (escape_quotes v +:+ String QUOTE s)).
      apply orb_false_iff in He as [Hb Hq].
      rewrite dq_tail_plain; [cbn [pred]; by rewrite IH by (done || lia)| |].
      * unfold not_newline in Hc. apply negb_true_iff in Hc. by rewrite Hq, Hb, Hc.
      * intros _. apply Ascii.eqb_neq. intros <-. by rewrite Ascii.eqb_refl in Hq.
Qed.

(** The other patterns that start with a quote do not match more. *)
Lemma longest_long_dq v k s n :
  no_newline v -> (String.length v <= k)%nat ->
  longest (dq_tail k k not_newline) (escape_quotes v +:+ String QUOTE s) = Some n ->
  (n <= S (String.length (escape_quotes v)))%nat.
Proof.
  revert k n. induction v as [|c v IH]; intros k n Hv Hl.
  - change (escape_quotes "" +:+ String QUOTE s) with (String QUOTE s). rewrite dq_tail_quote.
    destruct (_ && _)%bool; [|done]. intros [= <-]. cbn. lia.
  - unfold no_newline in Hv. cbn [all_chars] in Hv. apply andb_true_iff in Hv as [Hc Hv]. cbn [String.length] in Hl.
    destruct k as [|k]; [lia|]. cbn [escape_quotes].
    destruct (Ascii.eqb c BACKSLASH || Ascii.eqb c QUOTE) eqn:He.
    + change (String BACKSLASH (String c (escape_quotes v)) +:+ String QUOTE s)
        with (String BACKSLASH (String c (escape_quotes v +:+ String QUOTE s))).
      rewrite dq_tail_escaped by done. cbn [pred].
      destruct (longest _ _) as [m|] eqn:Hm; [|rewrite bool_decide_eq_false_2 by done; done].
      intros [= <-]. specialize (IH k m Hv ltac:(lia) Hm). cbn [String.length]. lia.
    + change (String c (escape_quotes v) +:+ String QUOTE s) with (String c (escape_quotes v +:+ String QUOTE s)).
      apply orb_false_iff in He as [Hb Hq].
      rewrite dq_tail_plain; [cbn [pred]| |done].
      * destruct (longest _ _) as [m|] eqn:Hm; [|done]. intros [= <-]. specialize (IH k m Hv ltac:(lia) Hm).
        cbn [String.length]. lia.
      * unfold not_newline in Hc. apply negb_true_iff in Hc. by rewrite Hq, Hb, Hc.
Qed.

Lemma longest_err_dq v hi s n :
  no_newline v -> (String.length v <= hi)%nat ->
  longest (dq_tail 0 hi (fun c => Ascii.eqb c BACKSLASH || Ascii.eqb c NL)) (escape_quotes v +:+ String QUOTE s) = Some n ->
  (n <= S (String.length (escape_quotes v)))%nat.
Proof.
  revert hi n. induction v as [|c v IH]; intros hi n Hv Hl.
  - change (escape_quotes "" +:+ String QUOTE s) with (String QUOTE s). by rewrite dq_tail_quote.
  - unfold no_newline in Hv. cbn [all_chars] in Hv. apply andb_true_iff in Hv as [Hc Hv]. cbn [String.length] in Hl.
    destruct hi as [|hi]; [lia|]. cbn [escape_quotes].
    destruct (Ascii.eqb c BACKSLASH || Ascii.eqb c QUOTE) eqn:He.
    + change (String BACKSLASH (String c (escape_quotes v)) +:+ String QUOTE s)
        with (String BACKSLASH (String c (escape_quotes v +:+ String QUOTE s))).
      rewrite dq_tail_escaped by done. cbn [pred].
      destruct (longest _ _) as [m|] eqn:Hm.
      * intros [= <-]. specialize (IH hi m Hv ltac:(lia) Hm). cbn [String.length]. lia.
      * destruct (_ && _)%bool; [|done]. intros [= <-]. cbn [String.length]. lia.
    + change (String c (escape_quotes v) +:+ String QUOTE s) with (String c (escape_quotes v +:+ String QUOTE s)).
      apply orb_false_iff in He as [Hb Hq]. unfold not_newline in Hc. apply negb_true_iff in Hc.
      rewrite dq_tail_plain; [cbn [pred]| |].
      * destruct (longest _ _) as [m|] eqn:Hm; [|done]. intros [= <-]. specialize (IH hi m Hv ltac:(lia) Hm).
        cbn [String.length]. lia.
      * by rewrite Hq, Hb, Hc.
      * intros _. by rewrite Hb, Hc.
Qed.

Lemma yylex_quoted v s :
  no_newline v -> (String.length v <= 255)%nat ->
  yylex (double_quote_string (Some v) +:+ s) = (TK_STRING, v, s).
Proof.
  intros Hv Hl. cbn [double_quote_string].
  assert (String QUOTE (escape_quotes v +:+ String QUOTE "") +:+ s = String QUOTE (escape_quotes v +:+ String QUOTE s)) as Hs.
  { change (String QUOTE (escape_quotes v +:+ String QUOTE "") +:+ s) with (String QUOTE ((escape_quotes v +:+ String QUOTE "") +:+ s)).
    f_equal. generalize (escape_quotes v). intros e. induction e as [|c e IH]; [done|].
    change (String c ((e +:+ String QUOTE "") +:+ s) = String c (e +:+ String QUOTE s)). by rewrite IH. }
  rewrite Hs. unfold yylex. cbn [yylex_loop]. rewrite best_rule_after by apply rules_not_nullable.
  replace (after QUOTE rules) with
    [(dq_tail 0 255 (Ascii.eqb QUOTE), Unescape TK_STRING); (dq_tail 255 255 not_newline, Keyword TK_ERR_DQSTRING_TOO_LONG);
     (dq_tail 0 255 (fun c => Ascii.eqb c BACKSLASH || Ascii.eqb c NL), Keyword TK_ERR_DQSTRING); (Nothing, Keyword TK_ELSE)]
    by (symmetry; vm_compute; reflexivity).
  set (text := escape_quotes v +:+ String QUOTE s).
  assert (best_rule [(dq_tail 0 255 (Ascii.eqb QUOTE), Unescape TK_STRING); (dq_tail 255 255 not_newline, Keyword TK_ERR_DQSTRING_TOO_LONG);
     (dq_tail 0 255 (fun c => Ascii.eqb c BACKSLASH || Ascii.eqb c NL), Keyword TK_ERR_DQSTRING); (Nothing, Keyword TK_ELSE)] text =
    Some (S (String.length (escape_quotes v)), Unescape TK_STRING)) as ->.
  { cbn [best_rule]. unfold text. rewrite longest_dq by done. rewrite longest_nothing.
    destruct (longest (dq_tail 255 255 not_newline) _) as [n1|] eqn:H1;
      [apply longest_long_dq in H1; [|done|done]|];
      (destruct (longest (dq_tail 0 255 (fun c => _)) _) as [n2|] eqn:H2;
        [apply longest_err_dq in H2; [|done|done]|]);
      repeat match goal with |- context [(?a <? ?b)%nat] => destruct (Nat.ltb_spec a b); try lia end; done. }
  cbn [fmap option_fmap option_map fst snd].
  set (n := S (String.length (escape_quotes v))).
  change (take_chars (S n) (String QUOTE text)) with (String QUOTE (take_chars n text)).
  change (drop_chars (S n) (String QUOTE text)) with (drop_chars n text). subst n.
  assert (forall e, take_chars (S (String.length e)) (e +:+ String QUOTE s) = e +:+ String QUOTE "" /\
    drop_chars (S (String.length e)) (e +:+ String QUOTE s) = s) as Htd.
  { clear. intros e. replace (e +:+ String QUOTE s) with ((e +:+ String QUOTE "") +:+ s).
    - replace (S (String.length e)) with (String.length (e +:+ String QUOTE "")) by (rewrite string_length_app; cbn; lia).
      split; [apply take_chars_app|apply drop_chars_app].
    - induction e as [|c e IH]; [done|]. change (String c ((e +:+ String QUOTE "") +:+ s) = String c (e +:+ String QUOTE s)). by rewrite IH. }
  destruct (Htd (escape_quotes v)) as [Ht Hd]. unfold text. rewrite Ht, Hd. f_equal. f_equal.
  exact (unescape_double_quote v).
Qed.
