(* ===== verification/ConfigParser.v ===== *)
(** * The parser of the configuration

    The hand written parser of user/v9/drbdadm_parser.c, with [parse_device] of
    drbdadm_linux.c and the nesting of files of user/shared/shared_parser.c: it
    reads the configuration, and the output of drbdsetup show, which drbdadm
    adjust compares the configuration with.

    The parser is a state monad [P]: the text that is left, [yytext] and
    [yylval], and the variables of the parser.  A run gives a value, leaves the
    program with an exit code, crashes (a null pointer is dereferenced, or a
    string read behind its end), or never ends ([Endless], with the state in
    which it turns round).  Loops end in [Endless] after more turns than
    characters are left; since every turn reads a token, this means that a turn
    found nothing to read and went on.  [TooDeep]: files are nested deeper than
    the model follows them.

    Messages, with the line numbers and file names they give, are left out.
    Parameters are the contexts of the options, the limits of numbers, which
    come from the drbd-headers submodule, and what is asked of the system. *)

From S2P Require Import Prelude SharedTool ConfigFlags AdmConfig Argv Contexts ConfigScanner.
From S2P Require Main.
From Stdlib Require Import Ascii String.
From stdpp Require Import strings.

#[local] Open Scope string_scope.
#[local] Open Scope list_scope.
#[local] Open Scope Z_scope.

(** ** The monad *)

Inductive cfg_version := CV_IS_V9 | CV_IS_V8 | CV_AMBIGOUS.

(** [yylval] is [yylval.txt]; the trees of unique values are lists of their
    keys; [cwd] is a file in the current directory, and [next_at] the next free
    address. *)
Record parser := mk_parser {
  input : string;
  yytext : string;
  yylval : option string;
  config_valid : Z;
  global_btree : list string;
  per_resource_btree : list string;
  config_version : cfg_version;
  config_file : string;
  config_save : string;
  cwd : string;
  next_at : Z
}.

#[export] Instance eta_parser : Eta parser :=
  fun r => mk_parser (input r) (yytext r) (yylval r) (config_valid r) (global_btree r) (per_resource_btree r)
    (config_version r) (config_file r) (config_save r) (cwd r) (next_at r).

Inductive outcome (A : Type) :=
  | Done (a : A) (st : parser)
  | Leave (code : Z)
  | Crash
  | Endless (st : parser)
  | TooDeep.
Arguments Done {A} a st.
Arguments Leave {A} code.
Arguments Crash {A}.
Arguments Endless {A} st.
Arguments TooDeep {A}.

Definition P (A : Type) : Type := parser -> outcome A.

#[export] Instance P_ret : MRet P := fun A a st => Done a st.

#[export] Instance P_bind : MBind P := fun A B k p st =>
  match p st with
  | Done a st' => k a st'
  | Leave c => Leave c
  | Crash => Crash
  | Endless st' => Endless st'
  | TooDeep => TooDeep
  end.

Definition gets {A} (f : parser -> A) : P A := fun st => Done (f st) st.
Definition modify (f : parser -> parser) : P unit := fun st => Done () (f st).
Definition leave {A} (code : Z) : P A := fun _ => Leave code.
Definition crash {A} : P A := fun _ => Crash.

(** The outcome of an operation of a class of options. *)
Definition of_res {A} (r : res A) : P A :=
  match r with Ok a => mret a | Exit c => leave c | Abort | Fault => crash end.

Definition or_crash {A} (o : option A) : P A := match o with Some a => mret a | None => crash end.

(** [while (1)]: a turn ends the loop with a value or gives the state of the
    next turn. *)
Fixpoint turns {S A} (n : nat) (body : S -> P (S + A)) (s : S) : P A :=
  match n with
  | O => Endless
  | S n' => r ← body s; match r with inl s' => turns n' body s' | inr a => mret a end
  end.

Definition loop {S A} (body : S -> P (S + A)) (s : S) : P A :=
  fun st => turns (Datatypes.S (String.length (input st))) body s st.

Definition again {S A} (s : S) : P (S + A) := mret (inl s).
Definition return_ {S A} (a : A) : P (S + A) := mret (inr a).

(** ** Tokens and errors *)

Definition E_USAGE : Z := 1.
Definition E_CONFIG_INVALID : Z := 10.

(** The rules with [CP], which copy [yytext] to [yylval.txt]. *)
Definition copies (t : token) : bool :=
  match t with
  | TK_KMODVERS | TK_SCI | TK_SSOCKS | TK_SDP | TK_IPV4 | TK_IPV6 | TK_IPADDR | TK_IPADDR6 | TK_INTEGER | TK_STRING => true
  | _ => false
  end.

(** A call of [yylex]. *)
Definition next_token : P token := fun st =>
  let '(t, text, rest) := yylex (input st) in
  Done t (st <| input := rest |> <| yytext := text |> <| yylval := if copies t then Some text else yylval st |>).

Definition pe_expected {A} : P A := leave E_CONFIG_INVALID.


Definition EXP (t : token) : P unit :=
  token ← next_token; if decide (token = t) then mret () else pe_expected.

Definition yylval_txt : P string := txt ← gets yylval; or_crash txt.

Definition invalidate : P unit := modify (fun st => st <| config_valid := 0 |>).

(** While the configuration is read; what is parsed later is not judged. *)
Definition invalidate_early : P unit :=
  v ← gets config_valid; if v <=? 1 then invalidate else mret ().

(** ** Names of hosts *)

(** The part before the first dot, and whether there is one. *)
Fixpoint before_dot (s : string) : string * bool :=
  match s with
  | EmptyString => ("", false)
  | String c s' => if Ascii.eqb c "." then ("", true) else let '(r, d) := before_dot s' in (String c r, d)
  end.

Definition hostnames_equal (a b : string) : bool :=
  let '(short_a, domain_a) := before_dot a in
  let '(short_b, domain_b) := before_dot b in
  if domain_a && domain_b then strcaseeq a b
  else Nat.eqb (String.length short_a) (String.length short_b) && strcaseeq short_a short_b.

Definition hostname_in_list (name : string) (names : list string) : bool :=
  existsb (fun n => hostnames_equal n name) names.

(** ** Numbers *)

Definition atoi (s : string) : Z := s32 (strtol s 10).1.1.

Inductive range_checks := R_MINOR_COUNT | R_DIALOG_REFRESH | R_PORT | R_NODE_ID.

(** [m_strtoll] leaves the program when the text is no number. *)
Definition m_strtoll_range (s : string) (def_unit : ascii) (min max : Z) : P unit :=
  match m_strtoll s def_unit with
  | inr c => leave c
  | inl r => if (r <? min) || (max <? r) then invalidate_early else mret ()
  end.

(** ** What the parser depends on *)

(** The result of [fopen]. *)
Inductive opened_file := Opened (text : string) | NoSuchFile | NotOpened.

(** The result of [glob]. *)
Inductive glob_result := Globbed (paths : list string) | NoMatch | GlobError (code : Z).

(** The contexts of the sections that only the parser uses; their limits come
    from the drbd-headers submodule. *)
Class ParserContexts := {
  parser_contexts :: Contexts;
  show_net_options_ctx : context_def;
  startup_options_ctx : context_def;
  proxy_options_ctx : context_def;
  show_net_table : (fun f => (fd_name f, argument_is_optional f)) <$> ctx_fields show_net_options_ctx =
    IMMUTABLE_NET_OPTIONS ++ CHANGEABLE_NET_OPTIONS;
  startup_table : fd_name <$> ctx_fields startup_options_ctx =
    ["wfc-timeout"; "degr-wfc-timeout"; "outdated-wfc-timeout"; "wait-after-sb"];
  proxy_table : fd_name <$> ctx_fields proxy_options_ctx =
    ["memlimit"; "read-loops"; "compression"; "bwlimit"; "sndbuf-size"; "rcvbuf-size"; "ping-timeout"]
}.

Definition handler (name : string) : field_def :=
  mk_field_def name 0 fc_string (U_s 0) true false false false None.

Definition handlers_ctx : context_def :=
  mk_context_def [] 0
    (handler <$> ["pri-on-incon-degr"; "pri-lost-after-sb"; "pri-lost"; "initial-split-brain"; "split-brain";
       "outdate-peer"; "fence-peer"; "unfence-peer"; "local-io-error"; "before-resync-target";
       "after-resync-target"; "before-resync-source"; "out-of-sync"; "quorum-lost"; "disconnected"]).

(** The environment: the name of the host ([nodename] of [sys]), files, the first
    argument being [cwd], the version of the driver, [inet_pton], the names of
    the states of a connection, and the limits of numbers: minimum, maximum and
    unit. *)
Record environment := mk_environment {
  sys : Main.system;
  fopen : string -> string -> opened_file;
  glob : string -> string -> glob_result;
  realpath : string -> string -> string;
  canonify_path : string -> string -> string;
  driver_version_code : option Z;
  inet_pton : Address.family -> string -> option (list Z);
  drbd_conn_state_names : list string;
  range_of : range_checks -> Z * Z * ascii
}.

Section Parser.
Context `{PC : !ParserContexts} (env : environment).

Definition range_check (what : range_checks) (value : string) : P unit :=
  let '(min, max, scale) := range_of env what in m_strtoll_range value scale min max.

(** *** Unique values *)

Definition check_upr_init : P unit :=
  v ← gets config_valid;
  if 2 <=? v then mret () else modify (fun st => st <| per_resource_btree := [] |>).

(** A conflict leaves the program ([EXIT_ON_CONFLICT]). *)
Definition check_uniq (key : string) : P unit :=
  v ← gets config_valid;
  if 2 <=? v then mret () else
  tree ← gets global_btree;
  if decide (key ∈ tree) then leave E_CONFIG_INVALID
  else modify (fun st => st <| global_btree := key :: tree |>).

Definition check_upr (key : string) : P unit :=
  v ← gets config_valid;
  if 2 <=? v then mret () else
  tree ← gets per_resource_btree;
  if decide (key ∈ tree) then leave E_CONFIG_INVALID
  else modify (fun st => st <| per_resource_btree := key :: tree |>).

Fixpoint for_each {A} (f : A -> P unit) (l : list A) : P unit :=
  match l with [] => mret () | x :: l' => f x;; for_each f l' end.

(** ** Options *)

Definition new_opt (name : string) (value : option string) : d_option := mk_d_option name value false false false.
Definition unknown_opt (name : string) : d_option := mk_d_option name None false true false.

Definition check_deprecated_alias (name : string) : string :=
  if String.eqb name "outdate-peer" then "fence-peer"
  else if String.eqb name "rate" then "resync-rate"
  else if String.eqb name "after" then "resync-after"
  else name.

Definition pe_field : P unit := invalidate_early.

Definition no_prefix (name : string) : bool := String.prefix "no-" name.

Definition parse_option_value (field : field_def) (no : bool) : P string :=
  token ← next_token;
  if decide (token = Op ";") then mret (if no then "no" else "yes")
  else
    text ← gets yytext;
    (if checked_in_postparse field then mret () else
     e ← of_res (fc_check (ops field) field (Some text));
     if decide (e = CC_OK) then mret () else pe_field);;
    EXP (Op ";");;
    mret text.

(** One option of a section, once its field is known. *)
Definition parse_option (field : field_def) (no obey_value : bool) : P d_option :=
  if obey_value then value ← parse_option_value field no; mret (new_opt (fd_name field) (Some value))
  else EXP (Op ";");; mret (unknown_opt (fd_name field)).

(** What is done with an option of this name; the state [D] is what the delegate
    adds options to. *)
Definition place_option {D} (options_def : context_def) (delegate : option (bool -> D -> P D)) (s : options * D)
    (text : string) (obey_value : bool) : P (options * D) :=
  let '(opts, d) := s in
  match find_field (Some options_def) text with
  | Some field => opt ← parse_option field (no_prefix text) obey_value; mret (opts ++ [opt], d)
  | None =>
      match delegate with
      | Some delegate => d ← delegate obey_value d; mret (opts, d)
      | None => if obey_value then pe_expected else crash
      end
  end.

(** One turn of the loop of [__parse_options]. *)
Definition option_turn {D} (options_def : context_def) (delegate : option (bool -> D -> P D)) (s : options * D) :
    P ((options * D) + (options * D)) :=
  token ← next_token;
  if decide (token = Op "}") then return_ s else
  obey_value ← (if decide (token = TK__UNKNOWN) then next_token;; mret false else mret true);
  text ← gets yytext;
  s ← place_option options_def delegate s text obey_value; again s.

Definition __parse_options {D} (options_def : context_def) (delegate : option (bool -> D -> P D)) (d : D) :
    P (options * D) :=
  loop (option_turn options_def delegate) ([], d).

Definition parse_options (options_def : context_def) : P options :=
  '(opts, _) ← __parse_options options_def None (); mret opts.

(** *** Delegates *)

(** [peer_delegate_data]: where options of a disk section go that are not
    options of the disk. *)
Record peer_delegate_data := mk_peer_delegate_data {
  pdd_device_options : options;
  pdd_peer_device_options : options;
  pdd_net_options : option options
}.

Definition insert_pd_options_delegate (obey_value : bool) (params : peer_delegate_data) : P peer_delegate_data :=
  text ← gets yytext;
  match find_field (Some (fields_of peer_device_options_ctx)) text, find_field (Some (fields_of device_options_ctx)) text with
  | Some field, _ =>
      opt ← parse_option field (no_prefix text) obey_value;
      mret (mk_peer_delegate_data (pdd_device_options params) (pdd_peer_device_options params ++ [opt]) (pdd_net_options params))
  | None, Some field =>
      opt ← parse_option field (no_prefix text) obey_value;
      mret (mk_peer_delegate_data (pdd_device_options params ++ [opt]) (pdd_peer_device_options params) (pdd_net_options params))
  | None, None =>
      match pdd_net_options params with
      | Some net_options =>
          if String.eqb text "fencing" then
            field ← or_crash (find_field (Some (fields_of net_options_ctx)) text);
            opt ← parse_option field (no_prefix text) obey_value;
            mret (mk_peer_delegate_data (pdd_device_options params) (pdd_peer_device_options params) (Some (net_options ++ [opt])))
          else if obey_value then pe_expected else mret params
      | None => if obey_value then pe_expected else mret params
      end
  end.

(** The options of the disk, and what the delegate added to. *)
Definition parse_disk_options (device_options peer_device_options : options) (net_options : option options) :
    P (options * peer_delegate_data) :=
  __parse_options (fields_of attach_cmd_ctx) (Some insert_pd_options_delegate)
    (mk_peer_delegate_data device_options peer_device_options net_options).

(** The flags of [parse_resource]: [NO_HOST_SECT_ALLOWED] and
    [PARSE_FOR_ADJUST]. *)
Inductive pr_flags := No_flags | NO_HOST_SECT_ALLOWED | PARSE_FOR_ADJUST.

#[export] Instance pr_flags_eq_dec : EqDecision pr_flags.
Proof using. solve_decision. Defined.

Definition net_delegate (flags : pr_flags) (obey_value : bool) (u : unit) : P unit :=
  text ← gets yytext;
  if String.eqb text "discard-my-data" && bool_decide (flags = PARSE_FOR_ADJUST) then
    if obey_value then
      token ← next_token;
      if decide (token = TK_YES \/ token = TK_NO) then EXP (Op ";")
      else if decide (token = Op ";") then mret () else pe_expected
    else EXP (Op ";")
  else pe_expected.

Definition parse_net_options (flags : pr_flags) : P options :=
  '(opts, _) ← __parse_options show_net_options_ctx (Some (net_delegate flags)) (); mret opts.

(** The state is [stacked_timeouts]. *)
Definition startup_delegate (obey_value stacked_timeouts : bool) : P bool :=
  text ← gets yytext;
  if String.eqb text "become-primary-on" then
    (if obey_value then
       loop (fun u => token ← next_token; if decide (token = Op ";") then return_ () else again u) ()
     else EXP (Op ";"));;
    mret stacked_timeouts
  else if String.eqb text "stacked-timeouts" then EXP (Op ";");; mret true
  else pe_expected.

(** The names with [c] between them, as far as they fit into the buffer. *)
Fixpoint join_names (buffer_size : Z) (names : list string) (c : ascii) : string :=
  match names with
  | [] => ""
  | name :: names' =>
      let n := Z.of_nat (String.length name) in
      if buffer_size <=? n then String.substring 0 (Z.to_nat (buffer_size - 1)) name
      else
        match names' with
        | [] => name
        | _ => if buffer_size - n =? 1 then name else name +:+ String c (join_names (buffer_size - n - 1) names' c)
        end
  end.

Definition _names_to_str_c (buffer_size : Z) (names : list string) (c : ascii) : string :=
  match names with
  | [] => String.substring 0 (Z.to_nat (buffer_size - 1)) "UNKNOWN"
  | _ => join_names buffer_size names c
  end.

Definition names_to_str (names : list string) : string := _names_to_str_c 4096 names " ".

(** The words of a line of the plugins; [None] for the brace after the last
    line. *)
Definition plugin_line : P (option (list string)) :=
  loop (fun line =>
    token ← next_token;
    if decide (token = Op ";") then return_ (Some line)
    else if decide (token = Op "}") then
      match line with [] => return_ None | _ => leave E_CONFIG_INVALID end
    else word ← gets yytext; again (line ++ [word])) [].

(** The plugins replace those found before. *)
Definition proxy_delegate (obey_value : bool) (proxy_plugins : options) : P options :=
  token ← next_token;
  if decide (token = Op "{") then
    loop (fun opts =>
      line ← plugin_line;
      match line with
      | None => return_ opts
      | Some line => again (opts ++ [new_opt (names_to_str line) None])
      end) []
  else leave E_CONFIG_INVALID.

(** The options and the plugins of a proxy. *)
Definition parse_proxy_options (proxy_plugins : options) : P (options * options) :=
  EXP (Op "{");; __parse_options proxy_options_ctx (Some proxy_delegate) proxy_plugins.

(** ** Addresses and hosts *)

Record address := mk_address {
  a_af : option string;
  a_addr : option string;
  a_port : option string;
  is_local_address : bool
}.

#[export] Instance eta_address : Eta address := fun r => mk_address (a_af r) (a_addr r) (a_port r) (is_local_address r).

Definition no_address : address := mk_address None None None false.

Definition addr_scope_local (input : string) : bool :=
  match inet_pton env Address.AF_INET6 input, inet_pton env Address.AF_INET input with
  | Some addr6, _ => bool_decide (addr6 = repeat 0 15 ++ [1])
  | None, Some addr4 => bool_decide (head addr4 = Some 127)
  | None, None => false
  end.

Definition __parse_address : P address :=
  token ← next_token;
  af ← match token with
       | TK_SCI => EXP TK_IPADDR;; mret "ssocks"
       | TK_SSOCKS | TK_SDP | TK_IPV4 => af ← yylval_txt; EXP TK_IPADDR;; mret af
       | TK_IPV6 => af ← yylval_txt; EXP (Op "[");; EXP TK_IPADDR6;; mret af
       | TK_IPADDR => mret "ipv4"
       | _ => pe_expected
       end;
  addr ← yylval_txt;
  (if String.eqb af "ipv6" then EXP (Op "]") else mret ());;
  EXP (Op ":");;
  EXP TK_INTEGER;;
  port ← yylval_txt;
  range_check R_PORT port;;
  mret (mk_address (Some af) (Some addr) (Some port) (addr_scope_local addr)).

Definition parse_address : P address := a ← __parse_address; EXP (Op ";");; mret a.

Definition parse_hosts (delimeter : ascii) : P (list string) :=
  loop (fun hosts =>
    token ← next_token;
    if decide (token = TK_STRING) then name ← yylval_txt; again (hosts ++ [name])
    else if decide (token = Op delimeter) then
      match hosts with [] => pe_expected | _ => return_ hosts end
    else pe_expected) [].

(** *** Proxies *)

Record d_proxy_info := mk_d_proxy_info {
  proxy_on_hosts : list string;
  inside : address;
  outside : address;
  proxy_options : options;
  plugins : options
}.

#[export] Instance eta_d_proxy_info : Eta d_proxy_info :=
  fun r => mk_d_proxy_info (proxy_on_hosts r) (inside r) (outside r) (proxy_options r) (plugins r).

Definition pperror : P unit := invalidate.

Definition parse_proxy_section : P d_proxy_info :=
  EXP TK_ON;;
  hosts ← parse_hosts "{";
  proxy ← loop (fun proxy =>
    token ← next_token;
    match token with
    | TK_INSIDE => a ← parse_address; again (proxy <| inside := a |>)
    | TK_OUTSIDE => a ← parse_address; again (proxy <| outside := a |>)
    | TK_OPTIONS =>
        '(opts, plugs) ← parse_proxy_options (plugins proxy);
        again (proxy <| proxy_options := opts |> <| plugins := plugs |>)
    | Op c => if Ascii.eqb c "}" then return_ proxy else pe_expected
    | _ => pe_expected
    end) (mk_d_proxy_info hosts no_address no_address [] []);
  (if decide (a_addr (inside proxy) = None) then pperror else mret ());;
  (if decide (a_addr (outside proxy) = None) then pperror else mret ());;
  mret proxy.

(** ** Volumes *)

(** [struct d_volume] with what only the parser and the checks after it use;
    [vol] are the other members. *)
Record volume_section := mk_volume_section {
  vol : d_volume;
  pd_options_of : options;
  implicit_volume : bool;
  parsed_device : bool;
  parsed_disk : bool;
  parsed_meta_disk : bool;
  parsed_tiebreaker : bool;
  tiebreaker : bool
}.

#[export] Instance eta_volume_section : Eta volume_section :=
  fun r => mk_volume_section (vol r) (pd_options_of r) (implicit_volume r) (parsed_device r) (parsed_disk r)
    (parsed_meta_disk r) (parsed_tiebreaker r) (tiebreaker r).

Definition new_address : P Z :=
  a ← gets next_at; modify (fun st => st <| next_at := a + 1 |>);; mret a.

Definition alloc_volume (vnr device_minor : Z) : P volume_section :=
  a ← new_address;
  mret (mk_volume_section (mk_d_volume a (u32 vnr) (u32 device_minor) None None None [] false false false false false false None [])
    [] false false false false false true).

(** The volume that statements outside of a volume section belong to, and the
    volumes after it. *)
Definition volume0 (volumes : list volume_section) : P (volume_section * list volume_section) :=
  match volumes with
  | [] => v ← alloc_volume 0 (-1); mret (v <| implicit_volume := true |>, [])
  | v :: rest =>
      (if (vnr (vol v) =? 0) && bool_decide (rest = []) && implicit_volume v then mret () else invalidate);;
      mret (v, rest)
  end.

Definition on_volume (f : d_volume -> d_volume) (v : volume_section) : volume_section := v <| vol := f (vol v) |>.

Definition set_meta_disk (disk index : string) : volume_section -> volume_section :=
  on_volume (fun d => d <| meta_disk := Some disk |> <| meta_index := Some index |>).

Definition parse_meta_disk (v : volume_section) : P volume_section :=
  EXP TK_STRING;;
  disk ← yylval_txt;
  if String.eqb "internal" disk then EXP (Op ";");; mret (set_meta_disk disk "internal" v)
  else
    token ← next_token;
    if decide (token = Op "[") then
      EXP TK_INTEGER;; index ← yylval_txt; EXP (Op "]");; EXP (Op ";");; mret (set_meta_disk disk index v)
    else if decide (token = Op ";") then mret (set_meta_disk disk "flexible" v)
    else pe_expected.

(** The text from its tenth character on, reading no further than its end. *)
Definition behind_dev_drbd (devname : string) : option string :=
  if (String.length devname <? 9)%nat then None else Some (String.substring 9 (String.length devname - 9) devname).

Definition check_minor_nonsense (devname : option string) (explicit_minor : Z) : P unit :=
  match devname with
  | None => mret ()
  | Some devname =>
      rest ← or_crash (behind_dev_drbd devname);
      if only_digits rest then if s32 (strtol rest 10).1.1 =? explicit_minor then mret () else invalidate
      else if String.prefix "_" rest then mret ()
      else invalidate
  end.

(** Whether a statement concerns this host. *)
Definition concerns_me (on_hosts : option (list string)) : bool :=
  match on_hosts with None => true | Some names => hostname_in_list (Main.nodename (sys env)) names end.

Definition explicit_minor (on_hosts : option (list string)) (v : volume_section) : P volume_section :=
  EXP TK_INTEGER;;
  text ← yylval_txt;
  let v := on_volume (fun d => d <| device_minor := u32 (atoi text) |>) v in
  EXP (Op ";");;
  (if concerns_me on_hosts then check_minor_nonsense (device (vol v)) (s32 (device_minor (vol v))) else mret ());;
  mret v.

Definition unique_devices (on_hosts : option (list string)) (d : d_volume) : P unit :=
  for_each (fun h =>
    check_uniq ("device-minor:" +:+ h +:+ ":" +:+ show_unsigned (device_minor d));;
    match device d with Some name => check_uniq ("device:" +:+ h +:+ ":" +:+ name) | None => mret () end)
    (default [] on_hosts).

(** A token that is neither a string nor minor is passed over. *)
Definition parse_device (on_hosts : option (list string)) (v : volume_section) : P volume_section :=
  token ← next_token;
  v ← match token with
      | TK_STRING =>
          text ← yylval_txt;
          let name := if String.prefix "drbd" text then "/dev/" +:+ text else text in
          let v := on_volume (fun d => d <| device := Some name |>) v in
          (if concerns_me on_hosts && negb (String.prefix "/dev/drbd" name) then invalidate else mret ());;
          token ← next_token;
          if decide (token = TK_MINOR) then explicit_minor on_hosts v
          else if decide (token = Op ";") then
            let m := Main.dt_minor_of_dev (sys env) name in
            (if m <? 0 then invalidate else mret ());;
            mret (on_volume (fun d => d <| device_minor := u32 m |>) v)
          else pe_expected
      | TK_MINOR => explicit_minor on_hosts v
      | _ => mret v
      end;
  unique_devices on_hosts (vol v);;
  mret v.

(** Ends at the brace that closes the first one that was opened. *)
Definition parse_skip : P unit :=
  loop (fun level =>
    token ← next_token;
    if decide (token = TK_EOF) then leave E_CONFIG_INVALID
    else if decide (token = Op "{") then again (level + 1)
    else if decide (token = Op "}") then if level - 1 =? 0 then return_ () else again (level - 1)
    else again level) 0.

(** The options of a disk section of a volume. *)
Definition volume_disk_options (v : volume_section) : P volume_section :=
  '(opts, params) ← parse_disk_options (device_options (vol v)) (pd_options_of v) None;
  mret (on_volume (fun d => d <| disk_options := opts |> <| device_options := pdd_device_options params |>) v
        <| pd_options_of := pdd_peer_device_options params |>).

(** [None]: no statement of a volume starts with this token. *)
Definition parse_volume_stmt (v : volume_section) (on_hosts : option (list string)) (token : token) :
    P (option volume_section) :=
  match token with
  | TK_DISK =>
      token ← next_token;
      v ← match token with
          | TK_STRING =>
              name ← yylval_txt; EXP (Op ";");; mret (on_volume (fun d => d <| disk := Some name |>) v)
          | Op c => if Ascii.eqb c "{" then volume_disk_options v else pe_expected
          | _ => pe_expected
          end;
      mret (Some (v <| parsed_disk := true |>))
  | TK_DEVICE => v ← parse_device on_hosts v; mret (Some (v <| parsed_device := true |>))
  | TK_META_DISK => v ← parse_meta_disk v; mret (Some (v <| parsed_meta_disk := true |>))
  | TK_FLEX_META_DISK =>
      EXP TK_STRING;;
      name ← yylval_txt;
      let v := set_meta_disk name (if String.eqb "internal" name then "internal" else "flexible") v in
      EXP (Op ";");;
      mret (Some (v <| parsed_meta_disk := true |>))
  | TK_SKIP => parse_skip;; mret (Some v)
  | TK_TIEBREAKER =>
      token ← next_token;
      yes ← match token with TK_YES => mret true | TK_NO => mret false | _ => pe_expected end;
      EXP (Op ";");;
      mret (Some (v <| tiebreaker := yes |> <| parsed_tiebreaker := true |>))
  | _ => mret None
  end.

Definition volume_turn (on_hosts : option (list string)) (v : volume_section) : P (volume_section + volume_section) :=
  token ← next_token;
  if decide (token = Op "}") then return_ v else
  r ← parse_volume_stmt v on_hosts token;
  match r with Some v => again v | None => pe_expected end.

Definition parse_volume (vnr : Z) (on_hosts : option (list string)) : P volume_section :=
  v ← alloc_volume vnr (-1); EXP (Op "{");; loop (volume_turn on_hosts) v.

Definition parse_stacked_volume (vnr : Z) : P volume_section :=
  v ← alloc_volume vnr (-1);
  EXP (Op "{");;
  v ← loop (fun v =>
    token ← next_token;
    match token with
    | TK_DEVICE => v ← parse_device None v; again v
    | TK_DISK => EXP (Op "{");; v ← volume_disk_options v; again v
    | Op c => if Ascii.eqb c "}" then return_ v else pe_expected
    | _ => pe_expected
    end) v;
  mret (set_meta_disk "internal" "internal" v).

(** [insert_volume], see AdmConfig. *)
Fixpoint before_greater (head : list volume_section) (elem : volume_section) : list volume_section :=
  match head with
  | [] => []
  | t :: head' => if vnr (vol elem) <? vnr (vol t) then elem :: t :: head' else t :: before_greater head' elem
  end.

Definition insert_section (head : list volume_section) (elem : volume_section) : list volume_section :=
  match list.last head with
  | None => [elem]
  | Some t => if vnr (vol t) <=? vnr (vol elem) then head ++ [elem] else before_greater head elem
  end.

(** ** Hosts *)

(** [host_config] is [struct d_host_info] as it is parsed. *)
Record host_config := mk_host_config {
  h_on_hosts : list string;
  h_volumes : list volume_section;
  h_address : address;
  proxy_compat_only : option d_proxy_info;
  lower_name : option string;
  h_implicit : bool;
  by_address : bool;
  require_minor : bool;
  h_res_options : options;
  h_node_id : option string
}.

#[export] Instance eta_host_config : Eta host_config :=
  fun r => mk_host_config (h_on_hosts r) (h_volumes r) (h_address r) (proxy_compat_only r) (lower_name r) (h_implicit r)
    (by_address r) (require_minor r) (h_res_options r) (h_node_id r).

Definition strict_char (c : ascii) : ascii :=
  if isdigit c || in_range "A" "Z" c || in_range "a" "z" c || one_of "+-._" c then c else "_"%char.

Fixpoint fixup_name_inplace_for_strict_names (name : string) : string :=
  match name with
  | EmptyString => ""
  | String c name' => String (strict_char c) (fixup_name_inplace_for_strict_names name')
  end.

(** The key is unique for each of the names. *)
Definition check_upr_hosts (res_name : string) (on_hosts : list string) (what : string) : P unit :=
  for_each (fun h => check_upr (res_name +:+ ":" +:+ h +:+ ":" +:+ what)) on_hosts.

(** A configuration that uses what is new in DRBD 9. *)
Definition is_v9 : P unit :=
  modify (fun st => match config_version st with CV_AMBIGOUS => st <| config_version := CV_IS_V9 |> | _ => st end).

Definition parse_node_id : P string := EXP TK_INTEGER;; id ← yylval_txt; range_check R_NODE_ID id;; mret id.

Definition node_id_statement (res_name : string) (on_hosts : list string) : P string :=
  id ← parse_node_id;
  check_upr_hosts res_name on_hosts "node-id";;
  check_upr (res_name +:+ ":" +:+ id);;
  EXP (Op ";");;
  is_v9;;
  mret id.

(** A statement about the only volume of a host. *)
Definition vol0stmt (host : host_config) (on_hosts : list string) (token : token) : P host_config :=
  '(v, rest) ← volume0 (h_volumes host);
  r ← parse_volume_stmt v (Some on_hosts) token;
  match r with Some v => mret (host <| h_volumes := v :: rest |>) | None => pe_expected end.

Definition host_statement (res_name : string) (on_hosts : list string) (host : host_config) (token : token) :
    P host_config :=
  match token with
  | TK_DISK => check_upr_hosts res_name on_hosts "disk";; vol0stmt host on_hosts token
  | TK_DEVICE => check_upr_hosts res_name on_hosts "device";; vol0stmt host on_hosts token
  | TK_META_DISK | TK_FLEX_META_DISK => check_upr_hosts res_name on_hosts "meta-disk";; vol0stmt host on_hosts token
  | TK_ADDRESS =>
      if by_address host then leave E_CONFIG_INVALID else
      check_upr_hosts res_name on_hosts "address";;
      a ← parse_address;
      port ← or_crash (a_port a);
      range_check R_PORT port;;
      mret (host <| h_address := a |>)
  | TK_PROXY => proxy ← parse_proxy_section; mret (host <| proxy_compat_only := Some proxy |>)
  | TK_VOLUME =>
      EXP TK_INTEGER;;
      text ← yylval_txt;
      v ← parse_volume (atoi text) (Some on_hosts);
      mret (host <| h_volumes := insert_section (h_volumes host) v |>)
  | TK_NODE_ID => id ← node_id_statement res_name on_hosts; mret (host <| h_node_id := Some id |>)
  | TK_OPTIONS =>
      EXP (Op "{");; opts ← parse_options (fields_of resource_options_ctx); mret (host <| h_res_options := opts |>)
  | TK_SKIP => parse_skip;; mret host
  | _ => pe_expected
  end.

Definition host_turn (res_name : string) (on_hosts : list string) (host : host_config) : P (host_config + host_config) :=
  token ← next_token;
  if decide (token = Op "}") then return_ host else
  host ← host_statement res_name on_hosts host token; again host.

Definition host_statements (res_name : string) (on_hosts : list string) (host : host_config) : P host_config :=
  loop (host_turn res_name on_hosts) host.

(** The head of a floating section: its address, and whether statements
    follow. *)
Definition floating_head (host : host_config) : P (host_config * bool) :=
  a ← __parse_address;
  addr ← or_crash (a_addr a);
  port ← or_crash (a_port a);
  let fake_uname := fixup_name_inplace_for_strict_names (addr +:+ ":" +:+ port) in
  let host := host <| by_address := true |> <| h_address := a |> <| h_on_hosts := fake_uname :: h_on_hosts host |> in
  token ← next_token;
  if decide (token = Op "{") then mret (host, true)
  else if decide (token = Op ";") then mret (host, false) else pe_expected.

(** [minor] and [floating]: the flags [REQUIRE_MINOR] and [BY_ADDRESS]. *)
Definition parse_host_section (res_name : string) (on_hosts : list string) (minor floating : bool) : P host_config :=
  let host := mk_host_config on_hosts [] no_address None None false false minor [] None in
  '(host, in_braces) ← (if floating then floating_head host else mret (host, true));
  for_each (fun h => check_upr (res_name +:+ ": on " +:+ h)) on_hosts;;
  if in_braces : bool then host_statements res_name on_hosts host else mret host.

(** The volume of a stacked host that has no volume section. *)
Definition stacked_device (host : host_config) : P host_config :=
  '(v, rest) ← volume0 (h_volumes host);
  v ← parse_device (Some (h_on_hosts host)) v;
  '(v, rest) ← volume0 (v :: rest);
  '(v, rest) ← volume0 (set_meta_disk "internal" "internal" v :: rest);
  mret (host <| h_volumes := v :: rest |>).

Definition stacked_statement (res_name : string) (host : host_config) (token : token) : P host_config :=
  match token with
  | TK_DEVICE => stacked_device host
  | TK_ADDRESS =>
      check_upr_hosts res_name (h_on_hosts host) "address";;
      a ← parse_address;
      text ← yylval_txt;
      range_check R_PORT text;;
      mret (host <| h_address := a |>)
  | TK_PROXY => proxy ← parse_proxy_section; mret (host <| proxy_compat_only := Some proxy |>)
  | TK_VOLUME =>
      EXP TK_INTEGER;;
      text ← yylval_txt;
      v ← parse_stacked_volume (atoi text);
      mret (host <| h_volumes := insert_section (h_volumes host) v |>)
  | TK_NODE_ID => id ← node_id_statement res_name (h_on_hosts host); mret (host <| h_node_id := Some id |>)
  | _ => pe_expected
  end.

Definition parse_stacked_section (res_name : string) : P host_config :=
  EXP TK_STRING;;
  lower ← yylval_txt;
  check_uniq ("stacked:" +:+ lower);;
  EXP (Op "{");;
  loop (fun host =>
    token ← next_token;
    if decide (token = Op "}") then return_ host else
    host ← stacked_statement res_name host token; again host)
    (mk_host_config [] [] no_address None (Some lower) false false false [] None).

(** ** Connections *)

Record hname_address := mk_hname_address {
  ha_name : string;
  ha_address : address;
  outside_address : address;
  ha_proxy : option d_proxy_info;
  ha_by_address : bool;
  parsed_address : bool;
  parsed_outside_address : bool;
  parsed_port : bool
}.

#[export] Instance eta_hname_address : Eta hname_address :=
  fun r => mk_hname_address (ha_name r) (ha_address r) (outside_address r) (ha_proxy r) (ha_by_address r)
    (parsed_address r) (parsed_outside_address r) (parsed_port r).

(** [path_config] and [connection_config] are [struct path] and [struct
    connection] as they are parsed. *)
Record path_config := mk_path_config {
  p_at : Z;
  hname_address_pairs : list hname_address;
  p_my_address : option address;
  p_connect_to : option address;
  p_implicit : bool
}.

#[export] Instance eta_path_config : Eta path_config :=
  fun r => mk_path_config (p_at r) (hname_address_pairs r) (p_my_address r) (p_connect_to r) (p_implicit r).

Record connection_config := mk_connection_config {
  c_at : Z;
  c_paths : list path_config;
  c_peer_devices : list peer_device;
  c_peer : option host_config;
  c_net_options : options;
  c_pd_options : options;
  c_cstate : Z
}.

#[export] Instance eta_connection_config : Eta connection_config :=
  fun r => mk_connection_config (c_at r) (c_paths r) (c_peer_devices r) (c_peer r) (c_net_options r) (c_pd_options r) (c_cstate r).

Definition parse_via (ha : hname_address) : P hname_address :=
  token ← next_token;
  match token with
  | TK_PROXY => proxy ← parse_proxy_section; mret (ha <| ha_proxy := Some proxy |>)
  | TK_OUTSIDE_ADDRESS =>
      a ← __parse_address; EXP (Op ";");; mret (ha <| outside_address := a |> <| parsed_outside_address := true |>)
  | _ => pe_expected
  end.

(** With the token that follows an address or a port. *)
Definition parse_optional_via (ha : hname_address) (token : token) : P hname_address :=
  if decide (token = TK_VIA) then parse_via ha
  else if decide (token = Op ";") then mret ha else pe_expected.

Definition host_by_name (name : string) : hname_address :=
  mk_hname_address name no_address no_address None false false false false.

(** An address and what may follow it. *)
Definition pair_address (ha : hname_address) : P hname_address :=
  a ← __parse_address;
  token ← next_token;
  parse_optional_via (ha <| ha_address := a |> <| parsed_address := true |>) token.

(** The pair is added to the path, which also refers to its address. *)
Definition parse_hname_address_pair (p : path_config) (prev_token : token) : P path_config :=
  match prev_token with
  | TK_ADDRESS =>
      ha ← pair_address (host_by_name "UNKNOWN" <| ha_by_address := true |>);
      mret (p <| hname_address_pairs := hname_address_pairs p ++ [ha] |>)
  | TK__THIS_HOST =>
      ha ← pair_address (host_by_name "_this_host");
      mret (p <| hname_address_pairs := hname_address_pairs p ++ [ha] |> <| p_my_address := Some (ha_address ha) |>)
  | TK__REMOTE_HOST =>
      ha ← pair_address (host_by_name "_remote_host");
      mret (p <| hname_address_pairs := hname_address_pairs p ++ [ha] |> <| p_connect_to := Some (ha_address ha) |>)
  | TK_HOST =>
      EXP TK_STRING;;
      name ← yylval_txt;
      let ha := host_by_name name in
      token ← next_token;
      ha ← match token with
           | TK_ADDRESS => pair_address ha
           | TK_PORT =>
               EXP TK_INTEGER;;
               port ← yylval_txt;
               token ← next_token;
               parse_optional_via (ha <| ha_address := no_address <| a_port := Some port |> |> <| parsed_port := true |>) token
           | TK_VIA => parse_via ha
           | Op c => if Ascii.eqb c ";" then mret ha else pe_expected
           | _ => pe_expected
           end;
      mret (p <| hname_address_pairs := hname_address_pairs p ++ [ha] |>)
  | _ => crash
  end.

Definition parse_peer_device (vnr : Z) : P peer_device :=
  EXP (Op "{");;
  EXP TK_DISK;;
  EXP (Op "{");;
  opts ← parse_options (fields_of peer_device_options_ctx);
  EXP (Op "}");;
  mret (mk_peer_device vnr opts).

Definition parse_peer_node_id : P host_config :=
  id ← parse_node_id;
  EXP (Op ";");;
  mret (mk_host_config [] [] no_address None None true false false [] (Some id)).

Definition alloc_path (implicit : bool) : P path_config :=
  a ← new_address; mret (mk_path_config a [] None None implicit).

(** The path that addresses outside of a path section belong to, and the paths
    after it. *)
Definition path0 (paths : list path_config) : P (path_config * list path_config) :=
  match paths with
  | [] => p ← alloc_path true; mret (p, [])
  | p :: rest => (if p_implicit p then mret () else invalidate);; mret (p, rest)
  end.

(** The third host of a path or connection, and every further one. *)
Definition count_host (hosts : Z) : P Z := (if 3 <=? hosts + 1 then invalidate else mret ());; mret (hosts + 1).

Definition starts_pair (token : token) : bool :=
  match token with TK_ADDRESS | TK_HOST | TK__THIS_HOST | TK__REMOTE_HOST => true | _ => false end.

(** With the number of hosts. *)
Definition path_turn (s : path_config * Z) : P ((path_config * Z) + path_config) :=
  token ← next_token;
  if starts_pair token then
    p ← parse_hname_address_pair s.1 token; hosts ← count_host s.2; again (p, hosts)
  else if decide (token = Op "}") then return_ s.1 else pe_expected.

Definition parse_path : P path_config :=
  p ← alloc_path false; EXP (Op "{");; loop path_turn (p, 0).

(** The position of a name, or -1. *)
Fixpoint index_of (names : list string) (i : Z) (txt : string) : Z :=
  match names with [] => -1 | n :: names' => if String.eqb n txt then i else index_of names' (i + 1) txt end.

Definition parse_drbd_state (names : list string) : P Z :=
  EXP TK_STRING;; txt ← yylval_txt; mret (index_of names 0 txt).

Definition connection_statement (flags : pr_flags) (c : connection_config) (token : token) : P connection_config :=
  match token with
  | TK__PEER_NODE_ID => host ← parse_peer_node_id; mret (c <| c_peer := Some host |>)
  | TK_NET =>
      (match c_net_options c with [] => mret () | _ => invalidate end);;
      EXP (Op "{");;
      opts ← parse_net_options flags;
      mret (c <| c_net_options := opts |>)
  | TK_SKIP => parse_skip;; mret c
  | TK_DISK =>
      EXP (Op "{");; opts ← parse_options (fields_of peer_device_options_ctx); mret (c <| c_pd_options := opts |>)
  | TK_VOLUME =>
      EXP TK_INTEGER;;
      text ← yylval_txt;
      pd ← parse_peer_device (atoi text);
      mret (c <| c_peer_devices := c_peer_devices c ++ [pd] |>)
  | TK__CSTATE =>
      s ← parse_drbd_state (drbd_conn_state_names env); EXP (Op ";");; mret (c <| c_cstate := s |>)
  | TK_PATH => p ← parse_path; mret (c <| c_paths := c_paths c ++ [p] |>)
  | _ => pe_expected
  end.

Definition connection_turn (flags : pr_flags) (s : connection_config * Z) : P ((connection_config * Z) + connection_config) :=
  let '(c, hosts) := s in
  token ← next_token;
  if starts_pair token then
    '(p, rest) ← path0 (c_paths c);
    p ← parse_hname_address_pair p token;
    hosts ← count_host hosts;
    again (c <| c_paths := p :: rest |>, hosts)
  else if decide (token = Op "}") then
    (if bool_decide (c_paths c = []) && negb (bool_decide (flags = PARSE_FOR_ADJUST)) then invalidate else mret ());;
    return_ c
  else c ← connection_statement flags c token; again (c, hosts).

Definition connection_statements (flags : pr_flags) (c : connection_config) : P connection_config :=
  loop (connection_turn flags) (c, 0).

Definition parse_connection (flags : pr_flags) : P connection_config :=
  a ← new_address;
  token ← next_token;
  (if decide (token = Op "{") then mret ()
   else if decide (token = TK_STRING) then EXP (Op "{") else pe_expected);;
  connection_statements flags (mk_connection_config a [] [] None [] [] 0).

Record mesh := mk_mesh { mesh_hosts : list string; mesh_net_options : options }.

#[export] Instance eta_mesh : Eta mesh := fun r => mk_mesh (mesh_hosts r) (mesh_net_options r).

(** The hosts of several statements are joined. *)
Definition parse_connection_mesh (flags : pr_flags) : P mesh :=
  EXP (Op "{");;
  loop (fun m =>
    token ← next_token;
    match token with
    | TK_HOSTS => hosts ← parse_hosts ";"; again (m <| mesh_hosts := mesh_hosts m ++ hosts |>)
    | TK_NET =>
        (match mesh_net_options m with [] => mret () | _ => invalidate end);;
        EXP (Op "{");;
        opts ← parse_net_options flags;
        again (m <| mesh_net_options := opts |>)
    | Op c => if Ascii.eqb c "}" then return_ m else pe_expected
    | _ => pe_expected
    end) (mk_mesh [] []).

(** ** Resources *)

(** [resource_config] is [struct d_resource] as it is parsed, without the
    template. *)
Record resource_config := mk_resource_config {
  r_name : string;
  r_volumes : list volume_section;
  r_connections : list connection_config;
  r_all_hosts : list host_config;
  r_meshes : list mesh;
  r_net_options : options;
  r_device_options : options;
  r_disk_options : options;
  r_pd_options : options;
  r_res_options : options;
  r_startup_options : options;
  r_handlers : options;
  r_proxy_options : options;
  r_proxy_plugins : options;
  r_stacked_timeouts : bool;
  r_stacked_on_one : bool
}.

#[export] Instance eta_resource_config : Eta resource_config :=
  fun r => mk_resource_config (r_name r) (r_volumes r) (r_connections r) (r_all_hosts r) (r_meshes r) (r_net_options r)
    (r_device_options r) (r_disk_options r) (r_pd_options r) (r_res_options r) (r_startup_options r) (r_handlers r)
    (r_proxy_options r) (r_proxy_plugins r) (r_stacked_timeouts r) (r_stacked_on_one r).

Definition new_resource (name : string) : resource_config :=
  mk_resource_config name [] [] [] [] [] [] [] [] [] [] [] [] [] false false.

(** With the template of a template-file statement. *)
Inductive resource := Resource (r : resource_config) (template : option resource).

(** The deprecated syncer section: options of four kinds. *)
Definition syncer_option (r : resource_config) : P resource_config :=
  text ← gets (fun st => check_deprecated_alias (yytext st));
  let no := no_prefix text in
  let value field := v ← parse_option_value field no; mret (new_opt (fd_name field) (Some v)) in
  match find_field (Some show_net_options_ctx) text, find_field (Some (fields_of attach_cmd_ctx)) text,
        find_field (Some (fields_of resource_options_ctx)) text, find_field (Some (fields_of peer_device_options_ctx)) text with
  | Some f, _, _, _ => o ← value f; mret (r <| r_net_options := r_net_options r ++ [o] |>)
  | None, Some f, _, _ => o ← value f; mret (r <| r_disk_options := r_disk_options r ++ [o] |>)
  | None, None, Some f, _ => o ← value f; mret (r <| r_res_options := r_res_options r ++ [o] |>)
  | None, None, None, Some f => o ← value f; mret (r <| r_pd_options := r_pd_options r ++ [o] |>)
  | None, None, None, None => pe_expected
  end.

Definition parse_options_syncer (r : resource_config) : P resource_config :=
  loop (fun r =>
    token ← next_token;
    if decide (token = Op "}") then return_ r else r ← syncer_option r; again r) r.

(** The string or section after disk. *)
Definition resource_disk (r : resource_config) : P resource_config :=
  token ← next_token;
  match token with
  | TK_STRING =>
      '(v, rest) ← volume0 (r_volumes r);
      name ← yylval_txt;
      EXP (Op ";");;
      mret (r <| r_volumes := on_volume (fun d => d <| disk := Some name |>) v <| parsed_disk := true |> :: rest |>)
  | Op c =>
      if Ascii.eqb c "{" then
        check_upr (r_name r +:+ ":disk");;
        '(opts, params) ← parse_disk_options (r_device_options r) (r_pd_options r) (Some (r_net_options r));
        mret (r <| r_disk_options := r_disk_options r ++ opts |> <| r_device_options := pdd_device_options params |>
                <| r_pd_options := pdd_peer_device_options params |>
                <| r_net_options := default [] (pdd_net_options params) |>)
      else pe_expected
  | _ => pe_expected
  end.

(** A statement about the only volume of the resource. *)
Definition resource_volume0 (r : resource_config) (token : token) : P resource_config :=
  '(v, rest) ← volume0 (r_volumes r);
  s ← parse_volume_stmt v None token;
  mret (r <| r_volumes := default v s :: rest |>).

Definition protocol_statement (r : resource_config) : P resource_config :=
  check_upr (r_name r +:+ ": protocol");;
  field ← or_crash (find_field (Some (fields_of net_options_ctx)) "protocol");
  value ← parse_option_value field false;
  mret (r <| r_net_options := r_net_options r ++ [new_opt (fd_name field) (Some value)] |>).

Definition add_host (r : resource_config) (h : host_config) : resource_config :=
  r <| r_all_hosts := r_all_hosts r ++ [h] |>.

(** Every statement of a resource except template-file. *)
Definition resource_statement (flags : pr_flags) (r : resource_config) (token : token) : P resource_config :=
  match token with
  | TK_STRING =>
      txt ← yylval_txt; if String.eqb txt "protocol" then protocol_statement r else pe_expected
  | TK_ON => hosts ← parse_hosts "{"; h ← parse_host_section (r_name r) hosts true false; mret (add_host r h)
  | TK_STACKED => h ← parse_stacked_section (r_name r); mret (add_host r h <| r_stacked_on_one := true |>)
  | TK__THIS_HOST =>
      EXP (Op "{");; h ← parse_host_section (r_name r) ["_this_host"] false false; mret (add_host r h)
  | TK_FLOATING => h ← parse_host_section (r_name r) [] true true; mret (add_host r h)
  | TK_DISK => resource_disk r
  | TK_NET =>
      check_upr (r_name r +:+ ":net");;
      EXP (Op "{");;
      opts ← parse_net_options flags;
      mret (r <| r_net_options := r_net_options r ++ opts |>)
  | TK_SYNCER => check_upr (r_name r +:+ ":syncer");; EXP (Op "{");; parse_options_syncer r
  | TK_STARTUP =>
      check_upr (r_name r +:+ ":startup");;
      EXP (Op "{");;
      '(opts, stacked) ← __parse_options startup_options_ctx (Some startup_delegate) (r_stacked_timeouts r);
      mret (r <| r_startup_options := opts |> <| r_stacked_timeouts := stacked |>)
  | TK_HANDLER =>
      check_upr (r_name r +:+ ":handlers");;
      EXP (Op "{");;
      opts ← parse_options handlers_ctx;
      mret (r <| r_handlers := opts |>)
  | TK_PROXY =>
      check_upr (r_name r +:+ ":proxy");;
      '(opts, plugs) ← parse_proxy_options (r_proxy_plugins r);
      mret (r <| r_proxy_options := opts |> <| r_proxy_plugins := plugs |>)
  | TK_DEVICE => check_upr (r_name r +:+ ":device");; resource_volume0 r token
  | TK_META_DISK | TK_FLEX_META_DISK => resource_volume0 r token
  | TK_VOLUME =>
      EXP TK_INTEGER;;
      text ← yylval_txt;
      v ← parse_volume (atoi text) None;
      mret (r <| r_volumes := insert_section (r_volumes r) v |>)
  | TK_OPTIONS =>
      check_upr (r_name r +:+ ":res_options");;
      EXP (Op "{");;
      opts ← parse_options (fields_of resource_options_ctx);
      mret (r <| r_res_options := r_res_options r ++ opts |>)
  | TK_CONNECTION =>
      c ← parse_connection flags; is_v9;; mret (r <| r_connections := r_connections r ++ [c] |>)
  | TK_CONNECTION_MESH =>
      m ← parse_connection_mesh flags; is_v9;; mret (r <| r_meshes := r_meshes r ++ [m] |>)
  | TK_SKIP => parse_skip;; mret r
  | _ => pe_expected
  end.

(** What [vasprintf] makes of a format without arguments; a conversion reads an
    argument that is not there. *)
Fixpoint format_without_arguments (fmt : string) : option string :=
  match fmt with
  | EmptyString => Some ""
  | String c rest =>
      if Ascii.eqb c "%" then
        match rest with
        | String d rest' => if Ascii.eqb d "%" then String "%" <$> format_without_arguments rest' else None
        | EmptyString => None
        end
      else String c <$> format_without_arguments rest
  end.

(** The name of the resource is the format of the key. *)
Definition check_resource_section (name : string) : P unit :=
  v ← gets config_valid;
  if 2 <=? v then mret () else key ← or_crash (format_without_arguments name); check_uniq key.

(** [save_parse_context] and [restore_parse_context] around the parsing of
    another file. *)
Definition in_file {A} (text name : string) (p : P A) : P A :=
  saved ← gets (fun st => (input st, config_file st, config_save st));
  modify (fun st => st <| input := text |> <| config_file := name |> <| config_save := canonify_path env (cwd st) name |>);;
  a ← p;
  modify (fun st => st <| input := saved.1.1 |> <| config_file := saved.1.2 |> <| config_save := saved.2 |>);;
  mret a.

(** [p] is run in the directory of the file that is read
    ([pushd_to_current_config_file_unless_stdin] and [popd]). *)
Definition in_directory {A} (p : P A) : P A :=
  dir ← gets cwd;
  modify (fun st => if existsb (Ascii.eqb "/") (list_ascii_of_string (config_save st)) then st <| cwd := config_save st |> else st);;
  a ← p;
  modify (fun st => st <| cwd := dir |>);;
  mret a.

(** [parse_template] is [parse_resource]. *)
Definition template_file (parse_template : string -> P resource) (res_name : string) : P (option resource) :=
  in_directory (
  EXP TK_STRING;;
  file_name ← yylval_txt;
  EXP (Op ";");;
  dir ← gets cwd;
  match fopen env dir file_name with
  | Opened text =>
      template ← in_file text file_name (EXP TK_COMMON;; EXP (Op "{");; parse_template ("template-" +:+ res_name));
      mret (Some template)
  | _ => invalidate;; mret None
  end).

Definition ends_resource (token : token) : bool := bool_decide (token = Op "}" \/ token = TK_EOF).

(** [parse_template] is [parse_resource] for templates. *)
Definition resource_turn (parse_template : string -> P resource) (flags : pr_flags) (name : string)
    (s : resource_config * option resource) : P ((resource_config * option resource) + (resource_config * option resource)) :=
  let '(r, template) := s in
  token ← next_token;
  if ends_resource token then return_ (r, template)
  else if decide (token = TK_TEMPLATE_FILE) then
    template ← template_file parse_template name; is_v9;; again (r, template)
  else r ← resource_statement flags r token; again (r, template).

(** [depth] is how deep templates may be nested; the code has no limit. *)
Fixpoint parse_resource (depth : nat) (flags : pr_flags) (name : string) : P resource :=
  match depth with
  | O => fun _ => TooDeep
  | S depth' =>
      check_upr_init;;
      check_resource_section name;;
      '(r, template) ← loop (resource_turn (parse_resource depth' NO_HOST_SECT_ALLOWED) flags name) (new_resource name, None);
      (if bool_decide (flags = NO_HOST_SECT_ALLOWED) && negb (bool_decide (r_all_hosts r = [])) then invalidate
       else mret ());;
      mret (Resource r template)
  end.

(** ** Files *)

Inductive usage_count_type := UC_YES | UC_NO | UC_ASK.

Record d_globals := mk_d_globals {
  cmd_timeout_short : Z;
  cmd_timeout_medium : Z;
  cmd_timeout_long : Z;
  disable_ip_verification : bool;
  udev_always_symlink_vnr : bool;
  minor_count : Z;
  dialog_refresh : Z;
  usage_count : usage_count_type
}.

#[export] Instance eta_d_globals : Eta d_globals :=
  fun r => mk_d_globals (cmd_timeout_short r) (cmd_timeout_medium r) (cmd_timeout_long r) (disable_ip_verification r)
    (udev_always_symlink_vnr r) (minor_count r) (dialog_refresh r) (usage_count r).

Definition global_integer (check : string -> P unit) : P Z :=
  EXP TK_INTEGER;; text ← yylval_txt; check text;; mret (atoi text).

Definition cmd_timeout (text : string) : P unit := m_strtoll_range text "1" 0 900.

Definition global_statement (g : d_globals) (token : token) : P d_globals :=
  match token with
  | TK_UDEV_ALWAYS_USE_VNR => mret (g <| udev_always_symlink_vnr := true |>)
  | TK_DISABLE_IP_VERIFICATION => mret (g <| disable_ip_verification := true |>)
  | TK_MINOR_COUNT => n ← global_integer (range_check R_MINOR_COUNT); mret (g <| minor_count := n |>)
  | TK_DIALOG_REFRESH => n ← global_integer (range_check R_DIALOG_REFRESH); mret (g <| dialog_refresh := n |>)
  | TK_CMD_TIMEOUT_SHORT => n ← global_integer cmd_timeout; mret (g <| cmd_timeout_short := u32 n |>)
  | TK_CMD_TIMEOUT_MEDIUM => n ← global_integer cmd_timeout; mret (g <| cmd_timeout_medium := u32 n |>)
  | TK_CMD_TIMEOUT_LONG => n ← global_integer cmd_timeout; mret (g <| cmd_timeout_long := u32 n |>)
  | TK_USAGE_COUNT =>
      token ← next_token;
      match token with
      | TK_YES => mret (g <| usage_count := UC_YES |>)
      | TK_NO => mret (g <| usage_count := UC_NO |>)
      | TK_ASK => mret (g <| usage_count := UC_ASK |>)
      | _ => pe_expected
      end
  | _ => pe_expected
  end.

Definition parse_global (g : d_globals) : P d_globals :=
  check_uniq "global";;
  EXP (Op "{");;
  loop (fun g =>
    token ← next_token;
    if decide (token = Op "}") then return_ g else
    g ← global_statement g token; EXP (Op ";");; again g) g.

(** *** The version of the module *)

Definition isgraph (c : ascii) : bool := SharedTool.between 33 126 (code c).

(** The word at the start of a text, of less than [size] characters, without
    the character behind it. *)
Fixpoint sget_word (size : nat) (text : string) : string * string :=
  match text with
  | EmptyString => ("", "")
  | String c text' =>
      match size with
      | S size' => if isgraph c then let '(w, rest) := sget_word size' text' in (String c w, rest) else ("", text')
      | O => ("", text')
      end
  end.

Fixpoint sget_token (size : nat) (text : string) : option (string * string) :=
  match text with
  | EmptyString => None
  | String c text' =>
      if isgraph c then let '(w, rest) := sget_word (size - 2) text' in Some (String c w, rest) else sget_token size text'
  end.

(** [version_code]; [None] where it is not set. *)
Definition version_from_str (token : string) : option Z :=
  let '(maj, dot, _) := strtol token 10 in
  match dot with
  | String c rest =>
      if Ascii.eqb c "." then
        let '(min, dot, _) := strtol rest 10 in
        match dot with
        | String c rest =>
            if Ascii.eqb c "." then Some (u32 (Z.shiftl maj 16 + Z.shiftl min 8 + (strtol rest 10).1.1)) else None
        | EmptyString => None
        end
      else None
  | EmptyString => None
  end.

(** Whether a comparison of the versions holds; the codes are unsigned, and so
    is their difference. *)
Definition kmod_valid (token : token) (have expected : Z) : bool :=
  let difference := u32 (have - expected) in
  match token with
  | TK_MODULE_EQ => difference =? 0
  | TK_MODULE_NE => negb (difference =? 0)
  | TK_MODULE_GT => 0 <? difference
  | TK_MODULE_GE => 0 <=? difference
  | TK_MODULE_LT => difference <? 0
  | TK_MODULE_LE => difference <=? 0
  | _ => false
  end.

Inductive version_state := V_BEGIN | V_VER | V_SVN | V_REV | V_GIT | V_SRCV.

(** [version_code] of a text; every word is of one character at least. *)
Fixpoint parse_version (fuel : nat) (ex : version_state) (code : option Z) (text : string) : option Z :=
  match fuel, sget_token 80 text with
  | S fuel', Some (token, text') =>
      match ex with
      | V_BEGIN =>
          let ex := if String.eqb token "version:" then V_VER else ex in
          let ex := if String.eqb token "SVN" then V_SVN else ex in
          let ex := if String.eqb token "GIT-hash:" then V_GIT else ex in
          let ex := if String.eqb token "srcversion:" then V_SRCV else ex in
          parse_version fuel' ex code text'
      | V_VER =>
          if String.eqb token "plus" then parse_version fuel' ex code text'
          else parse_version fuel' V_BEGIN (match version_from_str token with Some c => Some c | None => code end) text'
      | V_SVN => parse_version fuel' (if String.eqb token "Revision:" then V_REV else ex) code text'
      | V_REV | V_GIT | V_SRCV => code
      end
  | _, _ => code
  end.

(** A version that is not set is garbage from the stack. *)
Definition validate_kmod (token : token) : P unit :=
  match driver_version_code env with
  | None => leave E_CONFIG_INVALID
  | Some have =>
      txt ← yylval_txt;
      let text := "version: " +:+ txt in
      expected ← or_crash (parse_version (String.length text) V_BEGIN None text);
      if kmod_valid token have expected then mret () else leave E_CONFIG_INVALID
  end.

(** *** Statements of a file *)

Definition ensure_sanity_of_res_name (name : string) : P unit :=
  if String.eqb name "" then leave 1
  else if all_chars (fun c => (32 <=? code c) && negb (code c =? 127)) name then mret () else leave 1.

Record config_files := mk_config_files { config : list resource; common : option resource; globals : d_globals }.

#[export] Instance eta_config_files : Eta config_files := fun r => mk_config_files (config r) (common r) (globals r).

(** Whether the file has been read; it is registered. *)
Definition was_file_already_seen (fn : string) : P bool :=
  dir ← gets cwd;
  let real_path := realpath env dir fn in
  tree ← gets global_btree;
  if decide (real_path ∈ tree) then mret true
  else modify (fun st => st <| global_btree := real_path :: tree |>);; mret false.

Definition contains_glob_magic_char (str : string) : bool := negb (all_chars (none_of "*?[") str).

(** The files of an include statement; [parse_file] is [my_parse]. *)
Fixpoint include_files (parse_file : config_files -> P config_files) (magic : bool) (paths : list string)
    (c : config_files) : P config_files :=
  match paths with
  | [] => mret c
  | path :: paths' =>
      seen ← was_file_already_seen path;
      if seen : bool then include_files parse_file magic paths' c else
      dir ← gets cwd;
      match fopen env dir path with
      | Opened text => c ← in_file text path (parse_file c); include_files parse_file magic paths' c
      | NoSuchFile => (if magic then mret () else invalidate);; include_files parse_file magic paths' c
      | NotOpened => invalidate;; include_files parse_file magic paths' c
      end
  end.

Definition include_stmt (parse_file : config_files -> P config_files) (str : string) (c : config_files) : P config_files :=
  let magic := contains_glob_magic_char str in
  in_directory (
  dir ← gets cwd;
  match glob env dir str with
  | Globbed paths => include_files parse_file magic paths c
  | NoMatch => (if magic then mret () else invalidate);; mret c
  | GlobError _ => leave E_USAGE
  end).

Definition file_statement (parse_file : config_files -> P config_files) (depth : nat) (c : config_files) (token : token) :
    P config_files :=
  match token with
  | TK_GLOBAL => g ← parse_global (globals c); mret (c <| globals := g |>)
  | TK_COMMON =>
      EXP (Op "{");; r ← parse_resource depth NO_HOST_SECT_ALLOWED "common"; mret (c <| common := Some r |>)
  | TK_RESOURCE =>
      EXP TK_STRING;;
      name ← yylval_txt;
      ensure_sanity_of_res_name name;;
      EXP (Op "{");;
      r ← parse_resource depth No_flags name;
      mret (c <| config := config c ++ [r] |>)
  | TK_SKIP => parse_skip;; mret c
  | TK_INCLUDE =>
      EXP TK_STRING;; EXP (Op ";");; str ← yylval_txt; include_stmt parse_file str c
  | TK_MODULE_EQ | TK_MODULE_NE | TK_MODULE_GT | TK_MODULE_GE | TK_MODULE_LT | TK_MODULE_LE =>
      EXP TK_KMODVERS;; EXP (Op ";");; validate_kmod token;; is_v9;; mret c
  | _ => pe_expected
  end.

(** [depth] is how deep files may be nested. *)
Fixpoint my_parse (depth : nat) (c : config_files) : P config_files :=
  match depth with
  | O => fun _ => TooDeep
  | S depth' =>
      file ← gets config_file;
      was_file_already_seen file;;
      loop (fun c =>
        token ← next_token;
        if decide (token = TK_EOF) then return_ c
        else c ← file_statement (my_parse depth') depth c token; again c) c
  end.

(** ** The output of drbdsetup show *)

(** The resources of [parse_drbdsetup_show]; what does not start with a
    resource ends it. *)
Definition show_turn (depth : nat) (running : list resource) : P (list resource + list resource) :=
  token ← next_token;
  if decide (token = TK_RESOURCE) then
    token ← next_token;
    if decide (token = TK_STRING) then
      token ← next_token;
      if decide (token = Op "{") then
        name ← yylval_txt; r ← parse_resource depth PARSE_FOR_ADJUST name; again (running ++ [r])
      else return_ running
    else return_ running
  else return_ running.

Definition drbdsetup_show (depth : nat) : P (list resource) := loop (show_turn depth) [].

(** The variables of the parser when the output is parsed. *)
Definition show_output (text : string) (st : parser) : parser :=
  st <| input := text |> <| config_valid := 2 |> <| config_file := "drbdsetup show" |>.

End Parser.

(** ** Examples *)

(** Every option is a text. *)
#[refine] Definition text_parser_contexts : ParserContexts := {|
  parser_contexts := text_contexts;
  show_net_options_ctx := text_context (IMMUTABLE_NET_OPTIONS ++ CHANGEABLE_NET_OPTIONS);
  startup_options_ctx := text_context (VALUE <$> ["wfc-timeout"; "degr-wfc-timeout"; "outdated-wfc-timeout"; "wait-after-sb"]);
  proxy_options_ctx :=
    text_context (VALUE <$> ["memlimit"; "read-loops"; "compression"; "bwlimit"; "sndbuf-size"; "rcvbuf-size"; "ping-timeout"])
|}.
Proof. all: by vm_compute. Defined.

(** A host without other files, where no text is an address. *)
Definition example_environment : environment :=
  mk_environment (Main.mk_system "" [] 0 (fun _ => None) (fun _ => true) (fun _ => (0, "")) "" "" "alpha" false (fun _ => None))
    (fun _ _ => NoSuchFile) (fun _ _ => NoMatch) (fun _ f => f) (fun _ f => f) None (fun _ _ => None)
    ["StandAlone"; "Disconnecting"; "Unconnected"; "Connecting"; "Connected"]
    (fun r => match r with R_PORT => (1, 65535, "1"%char) | R_NODE_ID => (0, 31, "1"%char) | _ => (0, 10000, "1"%char) end).

Definition example_parser (text : string) : parser :=
  mk_parser text "" None 1 [] [] CV_AMBIGOUS "/etc/drbd.conf" "/etc/drbd.conf" "" 0.

Definition example_files : config_files := mk_config_files [] None (mk_d_globals 5 42 121 false false 0 0 UC_ASK).

(** A list of hosts that is not ended: the loop around it does not see the end of
    the file. *)
Definition unfinished_text : string := "resource r0 { startup { become-primary-on alpha beta".
