(* ===== verification/ConfigEnds.v ===== *)
(** * The parser of the configuration ends

    Every turn of the loops of the parser (ConfigParser) reads a token, so that
    none of them goes round while there is text left.  At the end of a file
    this is another matter: two loops do not look for it. *)

From S2P Require Import Prelude SharedTool ConfigFlags AdmConfig Argv Contexts ConfigScanner ConfigTokens ConfigParser.
From S2P Require Main.
From Stdlib Require Import Ascii String.
From stdpp Require Import strings.

#[local] Open Scope string_scope.
#[local] Open Scope list_scope.
#[local] Open Scope Z_scope.
#[local] Opaque rules.

(** ** Tokens take text away *)

Lemma best_rule_found l s x : x ∈ l -> longest x.1 s <> None -> best_rule l s <> None.
Proof.
  induction l as [|[r a] l IH]; [by intros ?%elem_of_nil|]. cbn [best_rule].
  intros [->|Hin]%elem_of_cons Hx; cbn [fst] in *.
  - destruct (longest r s) as [n|]; [|done]. destruct (best_rule l s) as [[m b]|]; [|done]. by destruct (n <? m)%nat.
  - specialize (IH Hin Hx). destruct (longest r s) as [n|]; [|done]. destruct (best_rule l s) as [[m b]|]; [|done].
    by destruct (n <? m)%nat.
Qed.

Lemma some_rule c s : exists n a, best_rule rules (String c s) = Some (S n, a).
Proof.
  rewrite best_rule_after by apply rules_not_nullable.
  assert (best_rule (after c rules) s <> None) as Hb.
  { assert (exists a, (Nothing, a) ∈ after c rules) as (a & Ha).
    { assert (forallb (fun n => existsb (fun x => match x.1 with Nothing => true | _ => false end)
        (after (ascii_of_nat n) rules)) (List.seq 0 256) = true) as Hall by by vm_compute.
      rewrite forallb_forall in Hall. specialize (Hall (nat_of_ascii c)). rewrite ascii_nat_embedding in Hall.
      apply existsb_exists in Hall as ([r a] & Hin & Hr).
      - exists a. apply list_elem_of_In. by destruct r.
      - apply in_seq. pose proof (nat_ascii_bounded c). lia. }
    apply (best_rule_found _ _ _ Ha). cbn [fst]. by rewrite longest_nothing. }
  destruct (best_rule (after c rules) s) as [[n a]|]; [|done]. by exists n, a.
Qed.

Lemma yylex_loop_shrinks f s t text rest :
  (String.length s < f)%nat -> yylex_loop f s = (t, text, rest) -> rest = "" \/ (String.length rest < String.length s)%nat.
Proof.
  revert s. induction f as [|f IH]; intros s Hf; [lia|]. cbn [yylex_loop]. destruct s as [|c s].
  { assert (best_rule rules "" = None) as -> by (vm_compute; reflexivity). intros [= _ _ <-]. by left. }
  destruct (some_rule c s) as (n & a & ->). cbn [drop_chars String.length] in *. pose proof (length_drop_chars n s).
  destruct a; [|intros [= _ _ <-]; right; lia..].
  intros Hl. apply IH in Hl; [|lia]. destruct Hl; [by left|right; lia].
Qed.

Lemma yylex_shrinks s t text rest :
  yylex s = (t, text, rest) -> rest = "" \/ (String.length rest < String.length s)%nat.
Proof. unfold yylex. apply yylex_loop_shrinks. lia. Qed.

(** ** Operations that end *)

Definition text_left (st : parser) : nat := String.length (input st).

Definition at_end (st : parser) : Prop := input st = "".

(** An operation does not go round for ever before the end of a file, and gives
    no text back. *)
Definition ends {A} (p : P A) : Prop :=
  forall st, match p st with
             | Done _ st' => (text_left st' <= text_left st)%nat
             | Endless st' => at_end st'
             | _ => True
             end.

(** An operation that reads something, if there is something to read. *)
Definition consumes {A} (p : P A) : Prop :=
  forall st, match p st with
             | Done _ st' => at_end st' \/ (text_left st' < text_left st)%nat
             | Endless st' => at_end st'
             | _ => True
             end.

Lemma at_end_left st : at_end st <-> text_left st = 0%nat.
Proof. unfold at_end, text_left. destruct (input st); cbn; split; done || lia. Qed.

Lemma consumes_ends {A} (p : P A) : consumes p -> ends p.
Proof.
  intros Hp st. specialize (Hp st). destruct (p st); try done. destruct Hp as [He%at_end_left|]; lia.
Qed.

Lemma ends_ret {A} (a : A) : ends (mret a).
Proof. intros st. cbn. lia. Qed.

Lemma ends_bind {A B} (p : P A) (k : A -> P B) : ends p -> (forall a, ends (k a)) -> ends (p ≫= k).
Proof.
  intros Hp Hk st. specialize (Hp st). unfold mbind, P_bind. destruct (p st) as [a st'| | | |]; try done.
  specialize (Hk a st'). destruct (k a st'); try done. lia.
Qed.

Lemma consumes_bind {A B} (p : P A) (k : A -> P B) : consumes p -> (forall a, ends (k a)) -> consumes (p ≫= k).
Proof.
  intros Hp Hk st. specialize (Hp st). unfold mbind, P_bind. destruct (p st) as [a st'| | | |]; try done.
  specialize (Hk a st'). destruct (k a st') as [b st''| | | |]; try done. rewrite !at_end_left in *. lia.
Qed.

Lemma consumes_loop {S A} (body : S -> P (S + A)) s : (forall s, consumes (body s)) -> consumes (loop body s).
Proof.
  intros Hb st. unfold loop.
  assert (forall n s st, (text_left st < n)%nat \/ at_end st ->
    match turns n body s st with
    | Done _ st' => at_end st' \/ (text_left st' < text_left st)%nat
    | Endless st' => at_end st'
    | _ => True
    end) as Hturns.
  { clear s st. induction n as [|n IH]; intros s st Hn; cbn [turns]; [destruct Hn; [lia|done]|].
    specialize (Hb s st). unfold mbind, P_bind. destruct (body s st) as [[s'|a] st'| | | |]; try done.
    specialize (IH s' st'). destruct (turns n body s' st') as [a' st''| | | |]; rewrite !at_end_left in *;
      try done; try lia; apply IH; lia. }
  apply Hturns. left. unfold text_left. lia.
Qed.

Lemma ends_gets {A} (f : parser -> A) : ends (gets f).
Proof. intros st. cbn. lia. Qed.

Lemma ends_modify f : (forall st, input (f st) = input st) -> ends (modify f).
Proof. intros Hf st. cbn. unfold text_left. rewrite Hf. lia. Qed.

Lemma ends_leave {A} code : ends (A := A) (leave code).
Proof. done. Qed.

Lemma ends_crash {A} : ends (A := A) crash.
Proof. done. Qed.

Lemma consumes_next_token : consumes next_token.
Proof.
  intros st. unfold next_token. destruct (yylex (input st)) as [[t text] rest] eqn:Hl.
  apply yylex_shrinks in Hl. unfold at_end, text_left. by cbn [input].
Qed.

Lemma ends_next_token : ends next_token.
Proof. apply consumes_ends, consumes_next_token. Qed.

Lemma ends_of_res {A} (r : res A) : ends (of_res r).
Proof. destruct r; [apply ends_ret|done..]. Qed.

Lemma ends_or_crash {A} (o : option A) : ends (or_crash o).
Proof. destruct o; [apply ends_ret|done]. Qed.

Lemma ends_pe_expected {A} : ends (A := A) pe_expected.
Proof. done. Qed.

Create HintDb ends.
#[local] Hint Resolve ends_pe_expected ends_ret ends_gets ends_leave ends_crash ends_next_token ends_of_res ends_or_crash : ends.

(** Goes through the operations one after the other. *)
#[local] Ltac ends_step :=
  match goal with
  | |- forall _, _ => intros ?
  | |- ends (_ ≫= _) => apply ends_bind
  | |- consumes (_ ≫= _) => apply consumes_bind
  | |- ends (loop _ _) => apply consumes_ends, consumes_loop
  | |- consumes (loop _ _) => apply consumes_loop
  | |- consumes next_token => apply consumes_next_token
  | |- ends (again _) => apply ends_ret
  | |- ends (return_ _) => apply ends_ret
  | |- ends (modify _) => apply ends_modify; by intros [? ? ? ? ? ? [] ? ? ? ?]
  | |- ends (match ?x with _ => _ end) => destruct x
  | |- consumes (match ?x with _ => _ end) => destruct x
  | |- ends _ => solve [auto with ends]
  | |- consumes _ => solve [auto with ends]
  end.

#[local] Ltac prove_ends := repeat ends_step.

Section Ends.
Context `{PC : !ParserContexts} (env : environment).

Lemma ends_EXP t : ends (EXP t).
Proof using. unfold EXP. prove_ends. Qed.

Lemma ends_yylval_txt : ends yylval_txt.
Proof using. unfold yylval_txt. prove_ends. Qed.

Lemma ends_invalidate : ends invalidate.
Proof using. unfold invalidate. prove_ends. Qed.
#[local] Hint Resolve ends_EXP ends_yylval_txt ends_invalidate : ends.

Lemma ends_invalidate_early : ends invalidate_early.
Proof using. unfold invalidate_early. prove_ends. Qed.
#[local] Hint Resolve ends_invalidate_early : ends.

Lemma ends_m_strtoll_range s u lo hi : ends (m_strtoll_range s u lo hi).
Proof using. unfold m_strtoll_range. prove_ends. Qed.
#[local] Hint Resolve ends_m_strtoll_range : ends.

Lemma ends_range_check what s : ends (range_check env what s).
Proof using. unfold range_check. prove_ends. Qed.

Lemma ends_check_uniq key : ends (check_uniq key).
Proof using. unfold check_uniq. prove_ends. Qed.

Lemma ends_check_upr key : ends (check_upr key).
Proof using. unfold check_upr. prove_ends. Qed.

Lemma ends_check_upr_init : ends check_upr_init.
Proof using. unfold check_upr_init. prove_ends. Qed.

Lemma ends_for_each {A} (f : A -> P unit) l : (forall x, ends (f x)) -> ends (for_each f l).
Proof using. intros Hf. induction l; cbn [for_each]; prove_ends. Qed.
#[local] Hint Resolve ends_range_check ends_check_uniq ends_check_upr ends_check_upr_init ends_for_each : ends.

(** *** Options *)

Lemma ends_parse_option_value field no : ends (parse_option_value field no).
Proof using. unfold parse_option_value, pe_field. prove_ends. Qed.
#[local] Hint Resolve ends_parse_option_value : ends.

Lemma ends_parse_option field no obey : ends (parse_option field no obey).
Proof using. unfold parse_option. prove_ends. Qed.
#[local] Hint Resolve ends_parse_option : ends.

Lemma ends___parse_options {D} ctx (delegate : option (bool -> D -> P D)) d :
  (forall f b d, delegate = Some f -> ends (f b d)) -> ends (__parse_options ctx delegate d).
Proof using.
  intros Hd. unfold __parse_options, option_turn, place_option. destruct delegate as [f|].
  - assert (forall b d, ends (f b d)) by eauto. prove_ends.
  - prove_ends.
Qed.

Lemma ends_parse_options ctx : ends (parse_options ctx).
Proof using. apply ends_bind; [by apply ends___parse_options|prove_ends]. Qed.
#[local] Hint Resolve ends_parse_options : ends.

Lemma ends_insert_pd b d : ends (insert_pd_options_delegate b d).
Proof using. unfold insert_pd_options_delegate. prove_ends. Qed.

Lemma ends_parse_disk_options a b c : ends (parse_disk_options a b c).
Proof using. apply ends___parse_options. intros f ? ? [= <-]. apply ends_insert_pd. Qed.
#[local] Hint Resolve ends_parse_disk_options : ends.

Lemma ends_parse_net_options flags : ends (parse_net_options flags).
Proof using.
  apply ends_bind; [|prove_ends]. apply ends___parse_options. intros f ? ? [= <-].
  unfold net_delegate. prove_ends.
Qed.
#[local] Hint Resolve ends_parse_net_options : ends.

Lemma ends_startup_delegate b d : ends (startup_delegate b d).
Proof using. unfold startup_delegate. prove_ends. Qed.

Lemma consumes_plugin_line : consumes plugin_line.
Proof using. unfold plugin_line. prove_ends. Qed.
#[local] Hint Resolve consumes_plugin_line : ends.

Lemma ends_proxy_delegate b d : ends (proxy_delegate b d).
Proof using. unfold proxy_delegate. prove_ends. Qed.

Lemma ends_parse_proxy_options d : ends (parse_proxy_options d).
Proof using.
  unfold parse_proxy_options. apply ends_bind; [prove_ends|]. intros _. apply ends___parse_options.
  intros f ? ? [= <-]. apply ends_proxy_delegate.
Qed.
#[local] Hint Resolve ends_parse_proxy_options : ends.

(** *** Addresses, volumes and hosts *)

Lemma ends___parse_address : ends (__parse_address env).
Proof using. unfold __parse_address. prove_ends. Qed.
#[local] Hint Resolve ends___parse_address : ends.

Lemma ends_parse_address : ends (parse_address env).
Proof using. unfold parse_address. prove_ends. Qed.

Lemma ends_parse_hosts c : ends (parse_hosts c).
Proof using. unfold parse_hosts. prove_ends. Qed.
#[local] Hint Resolve ends_parse_address ends_parse_hosts : ends.

Lemma ends_parse_proxy_section : ends (parse_proxy_section env).
Proof using. unfold parse_proxy_section, pperror. prove_ends. Qed.

Lemma ends_new_address : ends new_address.
Proof using. unfold new_address. prove_ends. Qed.
#[local] Hint Resolve ends_parse_proxy_section ends_new_address : ends.

Lemma ends_alloc_volume n m : ends (alloc_volume n m).
Proof using. unfold alloc_volume. prove_ends. Qed.
#[local] Hint Resolve ends_alloc_volume : ends.

Lemma ends_volume0 vs : ends (volume0 vs).
Proof using. unfold volume0. prove_ends. Qed.

Lemma ends_parse_meta_disk v : ends (parse_meta_disk v).
Proof using. unfold parse_meta_disk. prove_ends. Qed.

Lemma ends_explicit_minor hosts v : ends (explicit_minor env hosts v).
Proof using. unfold explicit_minor, check_minor_nonsense. prove_ends. Qed.

Lemma ends_unique_devices hosts d : ends (unique_devices hosts d).
Proof using. unfold unique_devices. apply ends_for_each. prove_ends. Qed.
#[local] Hint Resolve ends_volume0 ends_parse_meta_disk ends_explicit_minor ends_unique_devices : ends.

Lemma ends_parse_device hosts v : ends (parse_device env hosts v).
Proof using. unfold parse_device. prove_ends. Qed.

Lemma ends_parse_skip : ends parse_skip.
Proof using. unfold parse_skip. prove_ends. Qed.

Lemma ends_volume_disk_options v : ends (volume_disk_options v).
Proof using. unfold volume_disk_options. prove_ends. Qed.
#[local] Hint Resolve ends_parse_device ends_parse_skip ends_volume_disk_options : ends.

Lemma ends_parse_volume_stmt v hosts t : ends (parse_volume_stmt env v hosts t).
Proof using. unfold parse_volume_stmt. prove_ends. Qed.
#[local] Hint Resolve ends_parse_volume_stmt : ends.

Lemma ends_parse_volume n hosts : ends (parse_volume env n hosts).
Proof using. unfold parse_volume, volume_turn. prove_ends. Qed.

Lemma ends_parse_stacked_volume n : ends (parse_stacked_volume env n).
Proof using. unfold parse_stacked_volume. prove_ends. Qed.

Lemma ends_check_upr_hosts r hosts what : ends (check_upr_hosts r hosts what).
Proof using. unfold check_upr_hosts. apply ends_for_each. prove_ends. Qed.

Lemma ends_is_v9 : ends is_v9.
Proof using. apply ends_modify. intros st. by destruct (config_version st). Qed.
#[local] Hint Resolve ends_parse_volume ends_parse_stacked_volume ends_check_upr_hosts ends_is_v9 : ends.

Lemma ends_parse_node_id : ends (parse_node_id env).
Proof using. unfold parse_node_id. prove_ends. Qed.
#[local] Hint Resolve ends_parse_node_id : ends.

Lemma ends_node_id_statement r hosts : ends (node_id_statement env r hosts).
Proof using. unfold node_id_statement. prove_ends. Qed.

Lemma ends_vol0stmt h hosts t : ends (vol0stmt env h hosts t).
Proof using. unfold vol0stmt. prove_ends. Qed.
#[local] Hint Resolve ends_node_id_statement ends_vol0stmt : ends.

Lemma ends_host_statement r hosts h t : ends (host_statement env r hosts h t).
Proof using. unfold host_statement. destruct t; prove_ends. Qed.
#[local] Hint Resolve ends_host_statement : ends.

Lemma ends_host_statements r hosts h : ends (host_statements env r hosts h).
Proof using. unfold host_statements, host_turn. prove_ends. Qed.

Lemma ends_floating_head h : ends (floating_head env h).
Proof using. unfold floating_head. prove_ends. Qed.
#[local] Hint Resolve ends_host_statements ends_floating_head : ends.

Lemma ends_parse_host_section r hosts m f : ends (parse_host_section env r hosts m f).
Proof using. unfold parse_host_section. prove_ends. Qed.

Lemma ends_stacked_statement r h t : ends (stacked_statement env r h t).
Proof using. unfold stacked_statement, stacked_device. destruct t; prove_ends. Qed.
#[local] Hint Resolve ends_parse_host_section ends_stacked_statement : ends.

Lemma ends_parse_stacked_section r : ends (parse_stacked_section env r).
Proof using. unfold parse_stacked_section. prove_ends. Qed.
#[local] Hint Resolve ends_parse_stacked_section : ends.

(** *** Connections *)

Lemma ends_parse_via ha : ends (parse_via env ha).
Proof using. unfold parse_via. prove_ends. Qed.
#[local] Hint Resolve ends_parse_via : ends.

Lemma ends_pair_address ha : ends (pair_address env ha).
Proof using. unfold pair_address, parse_optional_via. prove_ends. Qed.
#[local] Hint Resolve ends_pair_address : ends.

Lemma ends_parse_hname_address_pair p t : ends (parse_hname_address_pair env p t).
Proof using. unfold parse_hname_address_pair, parse_optional_via. destruct t; prove_ends. Qed.

Lemma ends_parse_peer_device n : ends (parse_peer_device n).
Proof using. unfold parse_peer_device. prove_ends. Qed.

Lemma ends_parse_peer_node_id : ends (parse_peer_node_id env).
Proof using. unfold parse_peer_node_id. prove_ends. Qed.

Lemma ends_path0 ps : ends (path0 ps).
Proof using. unfold path0, alloc_path. prove_ends. Qed.

Lemma ends_count_host n : ends (count_host n).
Proof using. unfold count_host. prove_ends. Qed.
#[local] Hint Resolve ends_parse_hname_address_pair ends_parse_peer_device ends_parse_peer_node_id ends_path0 ends_count_host : ends.

Lemma ends_parse_path : ends (parse_path env).
Proof using. unfold parse_path, path_turn, alloc_path. prove_ends. Qed.
#[local] Hint Resolve ends_parse_path : ends.

Lemma ends_connection_statement flags c t : ends (connection_statement env flags c t).
Proof using. unfold connection_statement, parse_drbd_state. destruct t; prove_ends. Qed.
#[local] Hint Resolve ends_connection_statement : ends.

Lemma ends_connection_statements flags c : ends (connection_statements env flags c).
Proof using. unfold connection_statements, connection_turn. prove_ends. Qed.
#[local] Hint Resolve ends_connection_statements : ends.

Lemma ends_parse_connection flags : ends (parse_connection env flags).
Proof using. unfold parse_connection. prove_ends. Qed.

Lemma ends_parse_connection_mesh flags : ends (parse_connection_mesh flags).
Proof using. unfold parse_connection_mesh. prove_ends. Qed.
#[local] Hint Resolve ends_parse_connection ends_parse_connection_mesh : ends.

(** *** Resources and files *)

Lemma ends_parse_options_syncer r : ends (parse_options_syncer r).
Proof using. unfold parse_options_syncer, syncer_option. prove_ends. Qed.

Lemma ends_resource_disk r : ends (resource_disk r).
Proof using. unfold resource_disk. prove_ends. Qed.

Lemma ends_resource_volume0 r t : ends (resource_volume0 env r t).
Proof using. unfold resource_volume0. prove_ends. Qed.

Lemma ends_protocol_statement r : ends (protocol_statement r).
Proof using. unfold protocol_statement. prove_ends. Qed.

Lemma ends_startup_options d : ends (__parse_options startup_options_ctx (Some startup_delegate) d).
Proof using. apply ends___parse_options. intros f ? ? [= <-]. apply ends_startup_delegate. Qed.
#[local] Hint Resolve ends_parse_options_syncer ends_resource_disk ends_resource_volume0 ends_protocol_statement
  ends_startup_options : ends.

Lemma ends_resource_statement flags r t : ends (resource_statement env flags r t).
Proof using. unfold resource_statement. destruct t; prove_ends. Qed.
#[local] Hint Resolve ends_resource_statement : ends.

(** What is read of another file does not count. *)
Lemma ends_in_file {A} text name (p : P A) : ends p -> ends (in_file env text name p).
Proof using.
  intros Hp st. unfold in_file, mbind, P_bind, gets, modify.
  set (st1 := _ <| config_save := _ |>). specialize (Hp st1). destruct (p st1); [by cbn|done..].
Qed.

Lemma ends_in_directory {A} (p : P A) : ends p -> ends (in_directory p).
Proof using.
  intros Hp. unfold in_directory. apply ends_bind; [apply ends_gets|]. intros dir. apply ends_bind.
  { apply ends_modify. intros st. by destruct (existsb _ _). }
  prove_ends.
Qed.

Lemma ends_template_file f r : (forall name, ends (f name)) -> ends (template_file env f r).
Proof using.
  intros Hf. unfold template_file. apply ends_in_directory. prove_ends.
  apply ends_in_file. prove_ends.
Qed.

Lemma ends_parse_resource depth flags name : ends (parse_resource env depth flags name).
Proof using.
  revert flags name. induction depth as [|depth IH]; intros flags name; [done|]. cbn [parse_resource].
  unfold check_resource_section, resource_turn. prove_ends. by apply ends_template_file.
Qed.
#[local] Hint Resolve ends_parse_resource : ends.

Lemma ends_parse_global g : ends (parse_global env g).
Proof using. unfold parse_global, global_statement, global_integer, cmd_timeout. prove_ends. Qed.

Lemma ends_validate_kmod t : ends (validate_kmod env t).
Proof using. unfold validate_kmod. prove_ends. Qed.

Lemma ends_ensure_sanity name : ends (ensure_sanity_of_res_name name).
Proof using. unfold ensure_sanity_of_res_name. prove_ends. Qed.

Lemma ends_was_file_already_seen fn : ends (was_file_already_seen env fn).
Proof using. unfold was_file_already_seen. prove_ends. Qed.
#[local] Hint Resolve ends_parse_global ends_validate_kmod ends_ensure_sanity ends_was_file_already_seen : ends.

Lemma ends_include_stmt f str c : (forall c, ends (f c)) -> ends (include_stmt env f str c).
Proof using.
  intros Hf. unfold include_stmt. apply ends_in_directory. prove_ends.
  revert c. induction paths as [|path paths IH]; intros c; cbn [include_files]; prove_ends; try apply IH.
  by apply ends_in_file.
Qed.

Lemma ends_file_statement f depth c t : (forall c, ends (f c)) -> ends (file_statement env f depth c t).
Proof using. intros Hf. unfold file_statement. destruct t; prove_ends. by apply ends_include_stmt. Qed.

Lemma ends_my_parse depth c : ends (my_parse env depth c).
Proof using.
  revert c. induction depth as [|depth IH]; intros c; [done|]. cbn [my_parse]. prove_ends. by apply ends_file_statement.
Qed.


Lemma drbdsetup_show_endless_at_end depth st st' : drbdsetup_show env depth st = Endless st' -> input st' = "".
Proof using.
  intros Hp. assert (ends (drbdsetup_show env depth)) as He by (unfold drbdsetup_show, show_turn; prove_ends).
  specialize (He st). by rewrite Hp in He.
Qed.

End Ends.

#[local] Existing Instance text_parser_contexts.

