(* ===== verification/ConfigReads.v ===== *)
(** * What the parser of the configuration makes of a text

    A calculus for texts that the tools print: [reads] says that an operation of
    the parser (ConfigParser) reads a text and gives a value.  With it, the
    sections of options that drbdsetup shows (Options) are read as the options
    that drbdadm adjust compares ([parsed] of Adjust). *)

From S2P Require Import Prelude SharedTool ConfigFlags Options AdmConfig Adjust Argv Contexts ConfigScanner ConfigTokens ConfigParser.
From S2P Require Main.
From Stdlib Require Import Ascii String.
From stdpp Require Import strings.

#[local] Open Scope string_scope.
#[local] Open Scope list_scope.
#[local] Open Scope Z_scope.

(** ** Tokens *)

(** The text [t] starts with a token, and [u] is left; what follows does not
    matter. *)
Definition lexes (t : string) (tok : token) (w u : string) : Prop :=
  forall rest, yylex (t +:+ rest) = (tok, w, u +:+ rest).

(** Text that is passed over. *)
Definition blank (s : string) : Prop := forall rest, yylex (s +:+ rest) = yylex rest.

(** Whether a text starts with the end of a name. *)
Definition after_name (u : string) : Prop := match u with String c _ => ends_name c | EmptyString => False end.

Lemma lexes_blank s t tok w u : blank s -> lexes t tok w u -> lexes (s +:+ t) tok w u.
Proof. intros Hs Ht rest. by rewrite string_app_assoc, Hs. Qed.

Lemma lexes_word w u : config_word w -> after_name u -> lexes (w +:+ u) (token_of_word w) w u.
Proof.
  intros Hw Hu rest. destruct u as [|c u]; [done|]. rewrite string_app_assoc. by apply yylex_word.
Qed.

Lemma all_chars_impl (p q : ascii -> bool) w : (forall c, p c = true -> q c = true) -> all_chars p w = true -> all_chars q w = true.
Proof. intros Hpq. induction w as [|c w IH]; [done|]. cbn. intros [Hc Hw]%andb_true_iff. by rewrite Hpq, IH. Qed.

Lemma lexes_number w u : number_text w -> after_name u -> lexes (w +:+ u) TK_INTEGER w u.
Proof.
  intros Hw Hu. rewrite <- (token_of_number w) by done. apply lexes_word; [|done]. destruct Hw as [Hw Hl]. split_and!.
  - intros ->. cbn in Hl. lia.
  - apply (all_chars_impl isdigit); [apply for_all_chars; by vm_compute|done].
  - lia.
Qed.

Lemma lexes_op c u : one_of "{};[]" c = true -> lexes (String c u) (Op c) (String c "") u.
Proof. intros Hc rest. change (String c u +:+ rest) with (String c (u +:+ rest)). by apply yylex_op. Qed.

Lemma lexes_colon w u : number_text w -> after_name u -> lexes (String ":" (w +:+ u)) (Op ":") ":" (w +:+ u).
Proof.
  intros Hw Hu rest. destruct u as [|c u]; [done|].
  change (String ":" (w +:+ String c u) +:+ rest) with (String ":" ((w +:+ String c u) +:+ rest)).
  rewrite string_app_assoc. by apply yylex_colon.
Qed.

Lemma lexes_quoted v u :
  no_newline v -> (String.length v <= 255)%nat -> lexes (double_quote_string (Some v) +:+ u) TK_STRING v u.
Proof. intros Hv Hl rest. rewrite string_app_assoc. by apply yylex_quoted. Qed.

Lemma ipv4_word w : ipv4_text w -> config_word w.
Proof.
  intros Hw. pose proof (ipv4_dots w Hw) as Hd. split_and!.
  - by intros ->.
  - assert (within word_char IPV4ADDR) as Hin.
    { cbn [within IPV4ADDR SNUMB dot]. split_and!; apply for_all_chars; by vm_compute. }
    by apply (matches_within _ _ _ Hin), ipv4_matches.
  - destruct Hw as (a & b & c & d & -> & Hf). rewrite !Forall_cons in Hf. rewrite !string_length_app. cbn. lia.
Qed.

(** An address in front of a colon and a port. *)
Lemma lexes_ipv4 w p u :
  ipv4_text w -> number_text p -> after_name u -> lexes (w +:+ String ":" (p +:+ u)) TK_IPADDR w (String ":" (p +:+ u)).
Proof.
  intros Hw [Hp _] Hu rest. destruct u as [|c u]; [done|]. rewrite <- (token_of_ipv4 w) by done.
  rewrite string_app_assoc. change (String ":" (p +:+ String c u) +:+ rest) with (String ":" ((p +:+ String c u) +:+ rest)).
  rewrite string_app_assoc. change (String c u +:+ rest) with (String c (u +:+ rest)).
  by apply yylex_word_colon; [apply ipv4_word| |].
Qed.

Lemma lexes_ipv6 w u : ipv6_text w -> after_name u -> lexes (w +:+ u) TK_IPADDR6 w u.
Proof.
  intros Hw Hu rest. destruct u as [|c u]; [done|]. rewrite string_app_assoc. by apply yylex_ipv6.
Qed.

(** *** Blanks *)

Lemma blank_nil : blank "".
Proof. done. Qed.

Lemma blank_app s t : blank s -> blank t -> blank (s +:+ t).
Proof. intros Hs Ht rest. by rewrite string_app_assoc, Hs, Ht. Qed.

Lemma blank_cons c s : c = " "%char \/ c = TAB \/ c = NL -> blank s -> blank (String c s).
Proof.
  intros Hc Hs rest. change (String c s +:+ rest) with (String c (s +:+ rest)). by rewrite yylex_blank, Hs.
Qed.

Lemma blank_spaces n : blank (spaces n).
Proof. induction n as [|n IH]; [apply blank_nil|]. apply blank_cons; auto. Qed.

Lemma blank_comment w : no_newline w -> blank (String "#" w +:+ nl).
Proof.
  intros Hw rest. rewrite string_app_assoc. change (String "#" w +:+ nl +:+ rest) with (String "#" (w +:+ String NL rest)).
  by apply yylex_comment.
Qed.

Lemma blank_nl : blank nl.
Proof. apply blank_cons; [auto|apply blank_nil]. Qed.

(** ** Operations *)

(** The rest of the text, up to what is passed over. *)
Definition at_text (st : parser) (t : string) : Prop := exists s, input st = s +:+ t /\ blank s.

(** While drbdadm adjust parses. *)
Definition adjusting (st : parser) : Prop := config_valid st = 2.

(** With [y] and [v] in [yytext] and [yylval], [p] reads the text [t] and gives
    [r]; addresses from [a] to [a'] are used. *)
Definition reads {A} (y : string) (v : option string) (p : P A) (t : string) (a : Z) (r : A) (a' : Z) : Prop :=
  forall st rest, yytext st = y -> yylval st = v -> next_at st = a -> adjusting st -> at_text st (t +:+ rest) ->
  exists st', p st = Done r st' /\ at_text st' rest /\ adjusting st' /\ next_at st' = a'.

Lemma at_text_blank st s t : blank s -> at_text st (s +:+ t) -> at_text st t.
Proof.
  intros Hs (u & Hu & Hb). exists (u +:+ s). split; [by rewrite string_app_assoc|]. by apply blank_app.
Qed.

(** Text that is passed over behind what is read. *)
Lemma reads_blank {A} y v (p : P A) t s a r a' : blank s -> reads y v p t a r a' -> reads y v p (t +:+ s) a r a'.
Proof.
  intros Hs Hp st rest Hy Hv Ha Hadj Ht. rewrite string_app_assoc in Ht.
  destruct (Hp st _ Hy Hv Ha Hadj Ht) as (st' & Hst & Htext & Hok & Hn). exists st'. split_and!; [done| |done|done].
  by eapply at_text_blank.
Qed.

Lemma reads_ret {A} y v a (x : A) : reads y v (mret x) "" a x a.
Proof. intros st rest Hy Hv Ha Hadj Ht. by exists st. Qed.

Lemma reads_bind {A B} y v (p : P A) (k : A -> P B) t u a r a' r' a'' :
  reads y v p t a r a' -> (forall y v, reads y v (k r) u a' r' a'') -> reads y v (p ≫= k) (t +:+ u) a r' a''.
Proof.
  intros Hp Hk st rest Hy Hv Ha Hadj Ht. rewrite string_app_assoc in Ht.
  destruct (Hp st _ Hy Hv Ha Hadj Ht) as (st1 & Hst1 & Ht1 & Hadj1 & Ha1).
  destruct (Hk (yytext st1) (yylval st1) st1 rest eq_refl eq_refl Ha1 Hadj1 Ht1) as (st2 & Hst2 & ?).
  exists st2. split; [|done]. unfold mbind, P_bind. by rewrite Hst1.
Qed.

(** A token that is read. *)
Lemma next_token_lexes st t tok w u rest :
  lexes t tok w u -> at_text st (t +:+ rest) -> adjusting st ->
  exists st', next_token st = Done tok st' /\ yytext st' = w /\ yylval st' = (if copies tok then Some w else yylval st) /\
    next_at st' = next_at st /\ adjusting st' /\ at_text st' (u +:+ rest).
Proof.
  intros Hl (s & Hs & Hb) Hadj. unfold next_token. rewrite Hs, Hb, Hl. eexists. split_and!; [done..|].
  exists "". split; [done|apply blank_nil].
Qed.

Lemma reads_next {B} y v t tok w u (k : token -> P B) a r a' :
  lexes t tok w u -> reads w (if copies tok then Some w else v) (k tok) u a r a' -> reads y v (next_token ≫= k) t a r a'.
Proof.
  intros Hl Hk st rest Hy Hv Ha Hadj Ht. destruct (next_token_lexes _ _ _ _ _ _ Hl Ht Hadj) as (st1 & H1 & Hy1 & Hv1 & Ha1 & Hadj1 & Ht1).
  destruct (Hk st1 rest) as (st2 & H2 & ?); [done|by rewrite Hv1, Hv|by rewrite Ha1|done|done|].
  exists st2. split; [|done]. unfold mbind, P_bind. by rewrite H1.
Qed.

Lemma reads_EXP {B} y v t tok w u (k : unit -> P B) a r a' :
  lexes t tok w u -> reads w (if copies tok then Some w else v) (k ()) u a r a' -> reads y v (EXP tok ≫= k) t a r a'.
Proof.
  intros Hl Hk st rest Hy Hv Ha Hadj Ht. destruct (next_token_lexes _ _ _ _ _ _ Hl Ht Hadj) as (st1 & H1 & Hy1 & Hv1 & Ha1 & Hadj1 & Ht1).
  destruct (Hk st1 rest) as (st2 & H2 & ?); [done|by rewrite Hv1, Hv|by rewrite Ha1|done|done|].
  exists st2. split; [|done]. unfold EXP, mbind, P_bind. rewrite H1. by destruct (decide (tok = tok)).
Qed.

Lemma reads_yytext {B} y v t (k : string -> P B) a r a' :
  reads y v (k y) t a r a' -> reads y v (gets yytext ≫= k) t a r a'.
Proof. intros Hk st rest <-. by apply Hk. Qed.

Lemma reads_yylval {B} y x t (k : string -> P B) a r a' :
  reads y (Some x) (k x) t a r a' -> reads y (Some x) (yylval_txt ≫= k) t a r a'.
Proof.
  intros Hk st rest Hy Hv Ha Hadj Ht. destruct (Hk st rest Hy Hv Ha Hadj Ht) as (st' & Hst & ?). exists st'. split; [|done].
  unfold yylval_txt, gets, mbind, P_bind. by rewrite Hv.
Qed.

(** ** Loops *)

(** Turn after turn, from the state [s] to the state [s']. *)
Inductive chain {S A} (body : S -> P (S + A)) : Z -> S -> string -> Z -> S -> Prop :=
  | chain_nil a s : chain body a s "" a s
  | chain_cons a s t a1 s1 u a2 s2 :
      (forall y v, reads y v (body s) t a (inl s1) a1) -> t <> "" -> chain body a1 s1 u a2 s2 ->
      chain body a s (t +:+ u) a2 s2.

Lemma chain_app {S A} (body : S -> P (S + A)) a s t a1 s1 u a2 s2 :
  chain body a s t a1 s1 -> chain body a1 s1 u a2 s2 -> chain body a s (t +:+ u) a2 s2.
Proof.
  induction 1 as [|a s t b s' u' c s'' Hb Ht _ IH]; intros Hu; [done|]. rewrite string_app_assoc.
  eapply chain_cons; [exact Hb|done|by apply IH].
Qed.

Lemma chain_one {S A} (body : S -> P (S + A)) a s t a1 s1 :
  (forall y v, reads y v (body s) t a (inl s1) a1) -> t <> "" -> chain body a s t a1 s1.
Proof. intros Hb Ht. rewrite <- (string_app_nil_r t). eapply chain_cons; [done..|constructor]. Qed.

(** The turns of a chain, and those that are left. *)
Lemma chain_run {S A} (body : S -> P (S + A)) a s t a1 s1 :
  chain body a s t a1 s1 ->
  forall n st rest, (String.length t < n)%nat -> next_at st = a -> adjusting st -> at_text st (t +:+ rest) ->
  exists m st1, turns n body s st = turns (Datatypes.S m) body s1 st1 /\ at_text st1 rest /\ adjusting st1 /\ next_at st1 = a1.
Proof.
  induction 1 as [a s|a s t b s' u c s'' Hb Ht _ IH]; intros n st rest Hn Ha Hadj Htext.
  - destruct n as [|n]; [lia|]. by exists n, st.
  - rewrite string_app_assoc in Htext. destruct n as [|n]; [lia|].
    destruct (Hb _ _ st (u +:+ rest) eq_refl eq_refl Ha Hadj Htext) as (st1 & H1 & Htext1 & Hadj1 & Ha1).
    rewrite string_length_app in Hn. destruct (IH n st1 rest) as (m & st2 & H2 & ?); [destruct t; [done|]; cbn in Hn; lia|done..|].
    exists m, st2. split; [|done]. cbn [turns]. unfold mbind at 1, P_bind. by rewrite H1.
Qed.

Lemma reads_loop {S A} y v (body : S -> P (S + A)) a s t a1 s1 fin r a2 :
  chain body a s t a1 s1 -> (forall y v, reads y v (body s1) fin a1 (inr r) a2) ->
  reads y v (loop body s) (t +:+ fin) a r a2.
Proof.
  intros Hc Hfin st rest Hy Hv Ha Hadj Ht. unfold loop. rewrite string_app_assoc in Ht.
  destruct (chain_run body a s t a1 s1 Hc (Datatypes.S (String.length (input st))) st (fin +:+ rest))
    as (m & st1 & -> & Ht1 & Hadj1 & Ha1); [|done..|].
  { destruct Ht as (b & Hb & _). rewrite Hb, !string_length_app. lia. }
  destruct (Hfin _ _ st1 rest eq_refl eq_refl Ha1 Hadj1 Ht1) as (st2 & H2 & ?). exists st2. split; [|done].
  cbn [turns]. unfold mbind, P_bind. by rewrite H2.
Qed.

(** A list of items, each of which is read in a turn. *)
Fixpoint run_items {I S} (f : Z -> S -> I -> S) (cost : I -> Z) (a : Z) (s : S) (items : list I) : Z * S :=
  match items with
  | [] => (a, s)
  | i :: items' => run_items f cost (a + cost i) (f a s i) items'
  end.

Definition texts {I} (txt : I -> string) (items : list I) : string := String.concat "" (txt <$> items).

Lemma texts_cons {I} (txt : I -> string) i items : texts txt (i :: items) = txt i +:+ texts txt items.
Proof.
  unfold texts. cbn [fmap list_fmap]. destruct (txt <$> items) as [|x l] eqn:Hl; [by rewrite string_app_nil_r|done].
Qed.

Lemma chain_items {I S A} (body : S -> P (S + A)) (txt : I -> string) f cost (Inv : S -> Prop) a s items :
  Inv s ->
  (forall a s i, i ∈ items -> Inv s -> Inv (f a s i) /\ txt i <> "" /\
     forall y v, reads y v (body s) (txt i) a (inl (f a s i)) (a + cost i)) ->
  chain body a s (texts txt items) (run_items f cost a s items).1 (run_items f cost a s items).2.
Proof.
  intros Hs Hitems. revert a s Hs. induction items as [|i items IH]; intros a s Hs; [constructor|].
  rewrite texts_cons. cbn [run_items]. destruct (Hitems a s i) as (Hi & Hne & Hr); [by left|done|].
  eapply chain_cons; [exact Hr|done|]. apply IH; [|done]. intros a' s' j Hj. apply Hitems. by right.
Qed.

(** ** Options *)

(** The names of options are words that mean nothing else. *)
Definition option_name (name : string) : Prop :=
  config_word name /\ name <> "_unknown" /\ String.prefix "no-" name = false.

(** What may be shown for an option, so that it can be read again. *)
Definition shown_value (field : field_def) (v : string) : Prop :=
  if needs_double_quoting field then no_newline v /\ (String.length v <= 255)%nat else config_word v.

Definition readable (x : field_def * shown_option) : Prop :=
  option_name (fd_name x.1) /\ no_newline (default "" (fd_unit x.1)) /\
  match x.2 with
  | Shown str _ => exists v, str = Some v /\ shown_value x.1 v /\ exists e, fc_check (ops x.1) x.1 (Some v) = Ok e
  | Unknown => True
  end.

Lemma after_name_blank c u : c = " "%char \/ c = TAB \/ c = NL -> after_name (String c u).
Proof. by intros [-> |[-> | ->]]. Qed.

Lemma after_name_spaces n u : after_name u -> after_name (spaces n +:+ u).
Proof. destruct n as [|n]; [done|]. intros _. by apply (after_name_blank " "); left. Qed.

(** The value of an option, which is one token and not a semicolon. *)
Lemma lexes_value field v u :
  shown_value field v -> after_name u ->
  exists tok, tok <> Op ";" /\
    lexes ((if needs_double_quoting field then double_quote_string (Some v) else printf_s (Some v)) +:+ u) tok v u.
Proof.
  unfold shown_value. destruct (needs_double_quoting field).
  - intros [Hn Hl] _. exists TK_STRING. split; [done|]. by apply lexes_quoted.
  - intros Hw Hu. exists (token_of_word v). split; [|by apply lexes_word].
    pose proof (token_of_word_name v) as Hn. by intros He; rewrite He in Hn.
Qed.

Lemma reads_invalidate_early y v a : reads y v invalidate_early "" a () a.
Proof.
  intros st rest Hy Hv Ha Hadj Ht. exists st. unfold invalidate_early, gets, mbind, P_bind. unfold adjusting in Hadj.
  rewrite Hadj. by split_and!.
Qed.

(** The value of an option and the semicolon. *)
Lemma reads_option_value y v field no x a :
  shown_value field x -> (exists e, fc_check (ops field) field (Some x) = Ok e) ->
  reads y v (parse_option_value field no)
    ((if needs_double_quoting field then double_quote_string (Some x) else printf_s (Some x)) +:+ ";") a x a.
Proof.
  intros Hx (e & He). destruct (lexes_value field x ";" Hx) as (tok & Htok & Hl); [done|].
  unfold parse_option_value. apply (reads_next _ _ _ tok x ";"); [done|].
  destruct (decide (tok = Op ";")); [done|]. apply reads_yytext. rewrite <- (append_nil_l ";").
  apply (reads_bind _ _ _ _ "" ";" _ () a).
  - destruct (checked_in_postparse field); [apply reads_ret|]. rewrite He.
    apply (reads_bind _ _ _ _ "" "" _ e a); [apply reads_ret|]. intros ? ?.
    destruct (decide (e = CC_OK)); [apply reads_ret|apply reads_invalidate_early].
  - intros ? ?. eapply reads_EXP; [by apply lexes_op|]. apply reads_ret.
Qed.

(** The name of an option, and what follows it. *)
Lemma lexes_name name u : option_name name -> after_name u -> lexes (name +:+ u) (token_of_word name) name u.
Proof. intros (Hw & _) Hu. by apply lexes_word. Qed.

Lemma option_name_token name :
  option_name name -> token_of_word name <> Op "}" /\ token_of_word name <> TK__UNKNOWN.
Proof.
  intros (_ & Hu & _). split; [|intros H; by apply Hu, token_of_word_unknown].
  pose proof (token_of_word_name name) as Hn. by intros He; rewrite He in Hn.
Qed.

Lemma pad_right_blank n s u : pad_right n s +:+ u = s +:+ spaces (n - String.length s) +:+ u.
Proof. unfold pad_right. by rewrite string_app_assoc. Qed.

(** What follows the semicolon of a line. *)
Lemma blank_line_end field is_default :
  no_newline (default "" (fd_unit field)) ->
  blank ((if bool_decide (is_Some (fd_unit field)) || is_default then
         " # " +:+ default "" (fd_unit field) +:+
         (if bool_decide (is_Some (fd_unit field)) && is_default then ", " else "") +:+
         (if is_default then "default" else "")
       else "") +:+ nl).
Proof.
  intros Hu. destruct (bool_decide _ || is_default); [|by apply blank_nl].
  set (w := " " +:+ default "" (fd_unit field) +:+ (if bool_decide (is_Some (fd_unit field)) && is_default then ", " else "") +:+
         (if is_default then "default" else "")).
  change (blank (String " " (String "#" w +:+ nl))). apply blank_cons; [by left|]. apply blank_comment.
  unfold w, no_newline. rewrite !all_chars_app. rewrite Hu. by destruct (bool_decide _), is_default.
Qed.

Lemma reads_ret_bind {A B} y v (x : A) (k : A -> P B) t a r a' :
  reads y v (k x) t a r a' -> reads y v (mret x ≫= k) t a r a'.
Proof. intros Hk. exact Hk. Qed.

Lemma reads_bind_assoc {A B C} y v (p : P A) (q : A -> P B) (k : B -> P C) t a r a' :
  reads y v (p ≫= fun x => q x ≫= k) t a r a' -> reads y v ((p ≫= q) ≫= k) t a r a'.
Proof.
  intros Hk st rest Hy Hv Ha Hadj Ht. destruct (Hk st rest Hy Hv Ha Hadj Ht) as (st' & Hst & ?). exists st'. split; [|done].
  revert Hst. unfold mbind, P_bind. by destruct (p st).
Qed.

(** The end of an operation, before text that is passed over. *)
Lemma reads_done {A} y v s a (x : A) : blank s -> reads y v (mret x) s a x a.
Proof. intros Hs. rewrite <- (append_nil_l s). by apply reads_blank; [|apply reads_ret]. Qed.

(** An operation that reads nothing. *)
Lemma reads_then {A B} y v (p : P A) (k : A -> P B) u a r a' r' a'' :
  reads y v p "" a r a' -> (forall y v, reads y v (k r) u a' r' a'') -> reads y v (p ≫= k) u a r' a''.
Proof. intros Hp Hk. rewrite <- (append_nil_l u). by eapply reads_bind. Qed.

Lemma reads_check_uniq key y v a : reads y v (check_uniq key) "" a () a.
Proof.
  intros st rest Hy Hv Ha Hadj Ht. exists st. unfold adjusting in Hadj. split; [|done].
  unfold check_uniq, gets, mbind, P_bind. by rewrite Hadj.
Qed.

Lemma reads_check_upr key y v a : reads y v (check_upr key) "" a () a.
Proof.
  intros st rest Hy Hv Ha Hadj Ht. exists st. unfold adjusting in Hadj. split; [|done].
  unfold check_upr, gets, mbind, P_bind. by rewrite Hadj.
Qed.

Lemma reads_for_each {A} (f : A -> P unit) l y v a :
  (forall x y v, reads y v (f x) "" a () a) -> reads y v (for_each f l) "" a () a.
Proof.
  intros Hf. revert y v. induction l as [|x l IH]; intros y v; cbn [for_each]; [apply reads_ret|].
  eapply reads_then; [apply Hf|done].
Qed.

Lemma reads_new_address y v a : reads y v new_address "" a a (a + 1).
Proof.
  intros st rest Hy Hv Ha Hadj Ht. eexists. unfold new_address, gets, modify, mbind, P_bind. subst a. by split_and!.
Qed.

Section Sections.
Context `{PC : !ParserContexts} (env : environment).

(** What is done with the option of a field that was found. *)
Definition placed {D} (ctx : context_def) (delegate : option (bool -> D -> P D)) (field : field_def) (s : options * D)
    (r : d_option -> options * D) : Prop :=
  forall obey v t a opt,
    reads (fd_name field) v (parse_option field (no_prefix (fd_name field)) obey) t a opt a ->
    reads (fd_name field) v (place_option ctx delegate s (fd_name field) obey) t a (r opt) a.

Lemma reads_leading {A} y v (p : P A) s t a r a' : blank s -> reads y v p t a r a' -> reads y v p (s +:+ t) a r a'.
Proof using.
  intros Hs Hp st rest Hy Hv Ha Hadj Ht. apply Hp; try done. rewrite string_app_assoc in Ht. by eapply at_text_blank.
Qed.

(** The line of an option without what is passed over. *)
Lemma reads_parse_option field x v a o :
  readable (field, o) -> o = Shown (Some x) false \/ o = Shown (Some x) true ->
  reads (fd_name field) v (parse_option field (no_prefix (fd_name field)) true)
    ((if needs_double_quoting field then double_quote_string (Some x) else printf_s (Some x)) +:+ ";") a
    (new_opt (fd_name field) (Some x)) a.
Proof using.
  intros (_ & _ & Ho) Hox.
  assert (shown_value field x /\ exists e, fc_check (ops field) field (Some x) = Ok e) as [Hx He].
  { destruct Hox as [-> | ->]; destruct Ho as (? & [= <-] & ?); done. }
  unfold parse_option. rewrite <- (string_app_nil_r (_ +:+ ";")).
  eapply reads_bind; [by apply reads_option_value|]. intros ? ?. apply reads_ret.
Qed.

(** A line of a section is one option. *)
Lemma reads_option_line {D} ctx (delegate : option (bool -> D -> P D)) n x s r y v a :
  readable x -> placed ctx delegate x.1 s r ->
  reads y v (option_turn ctx delegate s) (spaces n +:+ option_line x.1 x.2) a (inl (r (parsed x))) a.
Proof using.
  unfold option_turn.
  destruct x as [field o]. cbn [fst snd]. intros Hread Hp. pose proof Hread as (Hname & Hunit & Ho). cbn [fst snd] in *.
  destruct (option_name_token _ Hname) as [Hbrace Hunknown].
  destruct o as [str is_default|]; cbn [option_line].
  - destruct Ho as (x & -> & _).
    set (val := if needs_double_quoting field then double_quote_string (Some x) else printf_s (Some x)).
    set (cmt := (if _ || _ then _ else _) +:+ nl).
    replace (spaces n +:+ pad_right 16 (fd_name field) +:+ String TAB val +:+ ";" +:+ cmt)
      with ((spaces n +:+ fd_name field +:+ (spaces (16 - String.length (fd_name field)) +:+ String TAB (val +:+ ";"))) +:+ cmt).
    2:{ rewrite pad_right_blank, !string_app_assoc. do 3 f_equal.
        change (String TAB (val +:+ ";") +:+ cmt) with (String TAB ((val +:+ ";") +:+ cmt)). by rewrite string_app_assoc. }
    apply reads_blank; [by apply blank_line_end|].
    eapply reads_next.
    { apply lexes_blank; [apply blank_spaces|]. apply lexes_name; [done|]. apply after_name_spaces. by apply after_name_blank; auto. }
    rewrite decide_False by done. rewrite decide_False by done.
    apply reads_ret_bind, reads_yytext. rewrite <- (string_app_nil_r (spaces _ +:+ String TAB _)).
    eapply reads_bind; [|intros ? ?; apply reads_ret]. apply Hp. apply reads_leading; [apply blank_spaces|].
    apply (reads_leading _ _ _ (String TAB "")); [apply blank_cons; [by auto|apply blank_nil]|].
    apply (reads_parse_option field x _ _ (Shown (Some x) is_default)); [done|]. destruct is_default; auto.
  - replace (spaces n +:+ "_unknown " +:+ pad_right 14 (fd_name field) +:+ ";" +:+ String TAB ("# not supported by kernel" +:+ nl))
      with ((spaces n +:+ "_unknown" +:+ " " +:+ fd_name field +:+ (spaces (14 - String.length (fd_name field)) +:+ ";")) +:+
            String TAB ("# not supported by kernel" +:+ nl)).
    2:{ rewrite pad_right_blank, !string_app_assoc. reflexivity. }
    apply reads_blank.
    { apply blank_cons; [by auto|]. apply (blank_comment " not supported by kernel"). by vm_compute. }
    eapply reads_next.
    { apply lexes_blank; [apply blank_spaces|]. apply lexes_word; [split_and!; [done|by vm_compute|cbn; lia]|done]. }
    replace (token_of_word "_unknown") with TK__UNKNOWN by (symmetry; by vm_compute).
    rewrite decide_False by done. rewrite decide_True by done. cbn [copies].
    apply reads_bind_assoc. eapply reads_next.
    { apply lexes_blank; [apply blank_cons; [by auto|apply blank_nil]|]. apply lexes_name; [done|]. by apply after_name_spaces. }
    apply reads_ret_bind, reads_yytext. rewrite <- (string_app_nil_r (spaces _ +:+ ";")).
    eapply reads_bind; [|intros ? ?; apply reads_ret]. apply Hp. apply reads_leading; [apply blank_spaces|].
    unfold parse_option. eapply reads_EXP; [by apply lexes_op|]. apply reads_ret.
Qed.

(** *** Where options go *)

Lemma find_field_name ctx field :
  field ∈ ctx_fields ctx -> NoDup (fd_name <$> ctx_fields ctx) -> String.prefix "no-" (fd_name field) = false ->
  find_field (Some ctx) (fd_name field) = Some field.
Proof using.
  intros Hin Hnd Hno. unfold find_field.
  assert ((match fd_name field with
           | String n (String o (String d rest)) =>
               if (Ascii.eqb n "n" && Ascii.eqb o "o" && Ascii.eqb d "-")%bool then rest else fd_name field
           | _ => fd_name field
           end) = fd_name field) as ->.
  { destruct (fd_name field) as [|n [|o [|d rest]]]; try done. destruct (_ && _)%bool eqn:Hp; [|done].
    apply andb_true_iff in Hp as [[->%Ascii.eqb_eq ->%Ascii.eqb_eq]%andb_true_iff ->%Ascii.eqb_eq]. by destruct rest. }
  clear Hno. induction (ctx_fields ctx) as [|f l IH]; [by apply elem_of_nil in Hin|]. cbn [List.find].
  destruct (String.eqb_spec (fd_name f) (fd_name field)) as [Heq|Hne].
  - apply elem_of_cons in Hin as [->|Hin]; [done|]. exfalso. apply list.NoDup_cons in Hnd as [Hf _]. apply Hf.
    rewrite Heq. by apply list_elem_of_fmap_2.
  - apply elem_of_cons in Hin as [->|Hin]; [done|]. apply IH; [done|]. by apply list.NoDup_cons in Hnd as [_ ?].
Qed.

(** An option of the context itself. *)
Lemma placed_in {D} ctx (delegate : option (bool -> D -> P D)) field opts d :
  find_field (Some ctx) (fd_name field) = Some field ->
  placed ctx delegate field (opts, d) (fun opt => (opts ++ [opt], d)).
Proof using.
  intros Hf obey v t a opt Hopt. unfold place_option. rewrite Hf. rewrite <- (string_app_nil_r t).
  eapply reads_bind; [exact Hopt|]. intros ? ?. apply reads_ret.
Qed.

(** The names of the tables are names of options. *)
Definition is_option_name (name : string) : bool :=
  negb (String.eqb name "") && all_chars word_char name && (String.length name <=? 128)%nat &&
  negb (String.eqb name "_unknown") && negb (String.prefix "no-" name).

Lemma is_option_name_spec name : is_option_name name = true -> option_name name.
Proof using.
  unfold is_option_name. rewrite !andb_true_iff, !negb_true_iff. intros ((((H1 & H2) & H3%Nat.leb_le) & H4) & H5).
  apply String.eqb_neq in H1, H4. done.
Qed.

Lemma context_option_names c : Forall option_name (context_table c).*1.
Proof using.
  assert (forallb is_option_name (context_table c).*1 = true) as Hf by (destruct c; by vm_compute).
  rewrite forallb_forall in Hf. apply Forall_forall. intros x Hx. by apply is_option_name_spec, Hf, list_elem_of_In.
Qed.

Lemma field_option_name c field : field ∈ ctx_fields (fields_of c) -> option_name (fd_name field).
Proof using.
  intros Hin. pose proof (context_option_names c) as Hn. rewrite <- field_names, Forall_fmap, Forall_forall in Hn. by apply Hn.
Qed.

(** *** Sections of options *)

(** What a section holds: options whose values can be read. *)
Definition readable_value (x : field_def * shown_option) : Prop :=
  no_newline (default "" (fd_unit x.1)) /\
  match x.2 with
  | Shown str _ => exists v, str = Some v /\ shown_value x.1 v /\ exists e, fc_check (ops x.1) x.1 (Some v) = Ok e
  | Unknown => True
  end.

Definition option_lines (n : nat) (shown : list (field_def * shown_option)) : string :=
  texts (fun x => spaces n +:+ option_line x.1 x.2) shown.

Lemma option_line_not_empty n x : spaces n +:+ option_line x.1 x.2 <> "".
Proof using.
  destruct n as [|n]; [|done]. change (spaces 0 +:+ option_line x.1 x.2) with (option_line x.1 x.2).
  destruct x.2; cbn [option_line]; [|done]. unfold pad_right. by destruct (fd_name x.1) as [|c n'].
Qed.

(** The lines of a section. *)
Lemma chain_options {D} ctx (delegate : option (bool -> D -> P D)) n shown (r : options * D -> d_option -> options * D) a s :
  Forall (fun x => readable x /\ forall s, placed ctx delegate x.1 s (r s)) shown ->
  chain (option_turn ctx delegate) a s (option_lines n shown) a (foldl r s (parsed <$> shown)).
Proof using.
  intros Hf. revert s. induction Hf as [|x shown [Hx Hp] _ IH]; intros s; [constructor|].
  unfold option_lines. rewrite texts_cons. cbn [fmap list_fmap foldl].
  eapply chain_cons; [|apply option_line_not_empty|apply IH]. intros y v. by apply reads_option_line.
Qed.

Lemma reads_options_end {D} ctx (delegate : option (bool -> D -> P D)) m s y v a :
  reads y v (option_turn ctx delegate s) (spaces m +:+ "}") a (inr s) a.
Proof using.
  unfold option_turn. eapply reads_next; [by apply lexes_blank; [apply blank_spaces|apply lexes_op]|].
  rewrite decide_True by done. apply reads_ret.
Qed.

Lemma foldl_in {D} (opts l : options) (d : D) : foldl (fun s opt => (s.1 ++ [opt], s.2)) (opts, d) l = (opts ++ l, d).
Proof using. revert opts. induction l as [|o l IH]; intros opts; cbn [foldl fst snd]; [by rewrite app_nil_r|]. by rewrite IH, <- app_assoc. Qed.

Lemma placed_in_context {D} ctx (delegate : option (bool -> D -> P D)) x s :
  readable x -> x.1 ∈ ctx_fields ctx -> NoDup (fd_name <$> ctx_fields ctx) ->
  placed ctx delegate x.1 s (fun opt => (s.1 ++ [opt], s.2)).
Proof using.
  intros ((_ & _ & Hno) & _) Hin Hnd. destruct s as [opts d]. apply placed_in. by apply find_field_name.
Qed.

(** A section of options of one context. *)
Lemma reads_section {D} ctx (delegate : option (bool -> D -> P D)) n m shown d y v a :
  Forall (fun x => readable x /\ x.1 ∈ ctx_fields ctx) shown -> NoDup (fd_name <$> ctx_fields ctx) ->
  reads y v (__parse_options ctx delegate d) (option_lines n shown +:+ spaces m +:+ "}") a (parsed <$> shown, d) a.
Proof using.
  intros Hf Hnd. unfold __parse_options. eapply reads_loop.
  - apply (chain_options _ _ _ _ (fun s opt => (s.1 ++ [opt], s.2))). eapply Forall_impl; [exact Hf|].
    intros x [Hx Hin]. split; [done|]. intros s. by apply placed_in_context.
  - intros y' v'. rewrite foldl_in. apply reads_options_end.
Qed.

Lemma reads_parse_options ctx n m shown y v a :
  Forall (fun x => readable x /\ x.1 ∈ ctx_fields ctx) shown -> NoDup (fd_name <$> ctx_fields ctx) ->
  reads y v (parse_options ctx) (option_lines n shown +:+ spaces m +:+ "}") a (parsed <$> shown) a.
Proof using.
  intros Hf Hnd. unfold parse_options. rewrite <- (string_app_nil_r (option_lines n shown +:+ _)).
  eapply reads_bind; [by apply reads_section|]. intros ? ?. apply reads_ret.
Qed.

Lemma reads_net_options flags n m shown y v a :
  Forall (fun x => readable x /\ x.1 ∈ ctx_fields show_net_options_ctx) shown ->
  NoDup (fd_name <$> ctx_fields show_net_options_ctx) ->
  reads y v (parse_net_options flags) (option_lines n shown +:+ spaces m +:+ "}") a (parsed <$> shown) a.
Proof using.
  intros Hf Hnd. unfold parse_net_options. rewrite <- (string_app_nil_r (option_lines n shown +:+ _)).
  eapply reads_bind; [by apply reads_section|]. intros ? ?. apply reads_ret.
Qed.

(** *** The options of a volume *)

Lemma disk_and_device_names name :
  name ∈ (context_table device_options_ctx).*1 ->
  name ∉ (context_table attach_cmd_ctx).*1 /\ name ∉ (context_table peer_device_options_ctx).*1.
Proof using.
  intros Hin.
  assert (forallb (fun name => bool_decide (name ∉ (context_table attach_cmd_ctx).*1) &&
    bool_decide (name ∉ (context_table peer_device_options_ctx).*1)) (context_table device_options_ctx).*1 = true) as Hf by by vm_compute.
  rewrite forallb_forall in Hf. apply list_elem_of_In, Hf, andb_true_iff in Hin as [H1 H2].
  split; by eapply bool_decide_eq_true.
Qed.

Lemma find_field_none ctx name :
  name ∉ (fd_name <$> ctx_fields ctx) -> String.prefix "no-" name = false -> find_field (Some ctx) name = None.
Proof using.
  intros Hnot Hno. destruct (find_field (Some ctx) name) as [f|] eqn:Hf; [|done]. exfalso. apply Hnot.
  unfold find_field in Hf.
  assert ((match name with
           | String n (String o (String d rest)) =>
               if (Ascii.eqb n "n" && Ascii.eqb o "o" && Ascii.eqb d "-")%bool then rest else name
           | _ => name
           end) = name) as Hname.
  { destruct name as [|n [|o [|d rest]]]; try done. destruct (_ && _)%bool eqn:Hp; [|done].
    apply andb_true_iff in Hp as [[->%Ascii.eqb_eq ->%Ascii.eqb_eq]%andb_true_iff ->%Ascii.eqb_eq]. by destruct rest. }
  rewrite Hname in Hf. apply find_some in Hf as [Hin <-%String.eqb_eq]. by apply list_elem_of_fmap_2, list_elem_of_In.
Qed.

(** An option of the device goes where the delegate puts it. *)
Definition add_device_option (s : options * peer_delegate_data) (opt : d_option) : options * peer_delegate_data :=
  (s.1, mk_peer_delegate_data (pdd_device_options s.2 ++ [opt]) (pdd_peer_device_options s.2) (pdd_net_options s.2)).

Lemma placed_device_option x s :
  readable x -> x.1 ∈ ctx_fields (fields_of device_options_ctx) ->
  placed (fields_of attach_cmd_ctx) (Some insert_pd_options_delegate) x.1 s (add_device_option s).
Proof using.
  intros ((_ & _ & Hno) & _) Hin obey v t a opt Hopt. destruct s as [opts d].
  assert (fd_name x.1 ∈ (context_table device_options_ctx).*1) as Hname by (rewrite <- field_names; by apply list_elem_of_fmap_2).
  destruct (disk_and_device_names _ Hname) as [Hdisk Hpd].
  unfold place_option. rewrite find_field_none by (by rewrite ?field_names). rewrite <- (string_app_nil_r t).
  eapply reads_bind; [|intros ? ?; apply reads_ret]. unfold insert_pd_options_delegate. apply reads_yytext.
  rewrite (find_field_none (fields_of peer_device_options_ctx)) by (by rewrite ?field_names).
  rewrite find_field_name by (done || apply fields_NoDup). rewrite <- (string_app_nil_r t).
  eapply reads_bind; [exact Hopt|]. intros ? ?. apply reads_ret.
Qed.

Lemma foldl_device_options l s :
  foldl add_device_option s l =
  (s.1, mk_peer_delegate_data (pdd_device_options s.2 ++ l) (pdd_peer_device_options s.2) (pdd_net_options s.2)).
Proof using.
  revert s. induction l as [|o l IH]; intros [opts [d p n]]; cbn [foldl fst snd pdd_device_options]; [by rewrite app_nil_r|].
  rewrite IH. cbn. by rewrite <- app_assoc.
Qed.

(** The disk section of a volume: options of the disk, then of the device. *)
Lemma reads_disk_options n m disk_shown device_shown device_options pd_options y v a :
  Forall (fun x => readable x /\ x.1 ∈ ctx_fields (fields_of attach_cmd_ctx)) disk_shown ->
  Forall (fun x => readable x /\ x.1 ∈ ctx_fields (fields_of device_options_ctx)) device_shown ->
  reads y v (parse_disk_options device_options pd_options None)
    (option_lines n disk_shown +:+ option_lines n device_shown +:+ spaces m +:+ "}") a
    (parsed <$> disk_shown, mk_peer_delegate_data (device_options ++ (parsed <$> device_shown)) pd_options None) a.
Proof using.
  intros Hdisk Hdevice. unfold parse_disk_options, __parse_options. rewrite <- (string_app_assoc (option_lines n disk_shown)).
  eapply reads_loop.
  - eapply chain_app.
    + apply (chain_options _ _ _ _ (fun s opt => (s.1 ++ [opt], s.2))). eapply Forall_impl; [exact Hdisk|].
      intros x [Hx Hin]. split; [done|]. intros s. apply placed_in_context; [done|done|apply fields_NoDup].
    + apply (chain_options _ _ _ _ add_device_option). eapply Forall_impl; [exact Hdevice|].
      intros x [Hx Hin]. split; [done|]. intros s. by apply placed_device_option.
  - intros y' v'. rewrite foldl_in, foldl_device_options. apply reads_options_end.
Qed.

End Sections.
