(* ===== verification/Show.v ===== *)
(** * drbdsetup show

    The text that drbdsetup show (user/v9/drbdsetup.c) prints of the resources
    of the kernel, which drbdadm adjust reads.  What the replies of the kernel
    give is an argument: the options of a nested attribute as [shown_options]
    (Options) finds them, [None] where there is no attribute, and the members
    of the lists of devices, connections and devices of peers.

    The variable [indent] is threaded through the functions that change it.
    Support for DRBD 8.4 and the output in JSON are left out.  [conn_str] is
    [drbd_conn_str], the name of a state of a connection, and [getnameinfo] the
    function of the C library; the texts fit into [ADDRESS_STR_MAX]. *)

From S2P Require Import Prelude SharedTool ConfigFlags Options Argv Headers.
From Stdlib Require Import Ascii String.
From stdpp Require Import strings.

#[local] Open Scope string_scope.
#[local] Open Scope list_scope.
#[local] Open Scope Z_scope.

Definition INDENT_WIDTH : nat := 4.

(** [printI] *)
Definition printI (indent : nat) (s : string) : string := spaces (INDENT_WIDTH * indent) +:+ s.

(** ** Options *)

Notation shown_list := (list (field_def * shown_option)).

(** The text, what is returned - whether a section is open - and [indent]. *)
Definition __print_options (indent : nat) (attr : option shown_list) (sect_name : string) (opened close : bool) :
    string * bool * nat :=
  match attr with
  | None => ("", false, indent)
  | Some shown =>
      let opens := negb opened && negb (bool_decide (shown = [])) in
      let head := if opens then printI indent (sect_name +:+ " {" +:+ nl) else "" in
      let indent := if opens then S indent else indent in
      let opened := opened || opens in
      let lines := String.concat "" ((fun x => printI indent (option_line x.1 x.2)) <$> shown) in
      if opened && close then (head +:+ lines +:+ printI (indent - 1) ("}" +:+ nl), opened, (indent - 1)%nat)
      else (head +:+ lines, opened, indent)
  end.

(** [print_options] of the code; Options has it for an attribute that is there. *)
Definition print_section (indent : nat) (attr : option shown_list) (sect_name : string) : string :=
  (__print_options indent attr sect_name false true).1.1.

Definition options_empty (attr : option shown_list) : bool :=
  match attr with None => true | Some shown => bool_decide (shown = []) end.

(** ** Devices *)

(** [struct devices_list]; [disk_conf_nl] and [device_conf_nl] are the shown
    options. *)
Record devices_list := mk_devices_list {
  d_ctx_volume : Z;
  d_minor : Z;
  backing_dev : string;
  meta_dev : string;
  meta_dev_idx : Z;
  is_intentional_diskless : Z;
  disk_conf_nl : option shown_list;
  device_conf_nl : option shown_list
}.

Definition tabs (n : nat) : string := String.concat "" (repeat (String TAB "") n).

Definition quoted (s : string) : string := double_quote_string (Some s).

Section Show.
Context `{!DrbdHeaders}.

Definition meta_disk_text (device : devices_list) : string :=
  if (meta_dev_idx device =? DRBD_MD_INDEX_INTERNAL) || (meta_dev_idx device =? DRBD_MD_INDEX_FLEX_INT) then "internal;" +:+ nl
  else if meta_dev_idx device =? DRBD_MD_INDEX_FLEX_EXT then quoted (meta_dev device) +:+ ";" +:+ nl
  else quoted (meta_dev device) +:+ " [ " +:+ show_int (meta_dev_idx device) +:+ " ];" +:+ nl.

Definition disk_text (indent : nat) (device : devices_list) : string :=
  if negb (String.eqb (backing_dev device) "") then
    printI indent ("disk" +:+ tabs 3 +:+ quoted (backing_dev device) +:+ ";" +:+ nl) +:+
    printI indent ("meta-disk" +:+ tabs 3) +:+ meta_disk_text device
  else if is_intentional_diskless device =? 1 then printI indent ("disk" +:+ tabs 3 +:+ "none;" +:+ nl)
  else "".

(** The text and [indent] after it: a section that is open is closed with the
    options of the device, if there are any. *)
Definition show_volume (indent : nat) (device : devices_list) : string * nat :=
  let head := printI indent ("volume " +:+ show_int (d_ctx_volume device) +:+ " {" +:+ nl) in
  let indent := S indent in
  let minor := printI indent ("device" +:+ tabs 3 +:+ "minor " +:+ show_int (d_minor device) +:+ ";" +:+ nl) in
  let disk := disk_text indent device in
  let '(disk_options, opened, indent) := __print_options indent (disk_conf_nl device) "disk" false false in
  let '(device_options, _, indent) := __print_options indent (device_conf_nl device) "disk" opened true in
  let indent := (indent - 1)%nat in
  (head +:+ minor +:+ disk +:+ disk_options +:+ device_options +:+ printI indent ("}" +:+ nl), indent).

End Show.

(** ** Connections *)

Inductive inet_family := AF_INET | AF_SSOCKS | AF_INET_SDP.

(** A [sockaddr]. *)
Inductive sockaddr :=
  | Sockaddr_in (f : inet_family) (a b c d port : Z)
  | Sockaddr_in6 (bytes : list Z) (port : Z)
  | Sockaddr_other.

Definition af_to_str (f : inet_family) : string :=
  match f with AF_INET => "ipv4" | AF_SSOCKS => "ssocks" | AF_INET_SDP => "sdp" end.

Definition inet_ntoa (a b c d : Z) : string :=
  show_unsigned a +:+ "." +:+ show_unsigned b +:+ "." +:+ show_unsigned c +:+ "." +:+ show_unsigned d.

Definition address_str (getnameinfo : list Z -> string) (address : sockaddr) : option string :=
  match address with
  | Sockaddr_in f a b c d port => Some (af_to_str f +:+ ":" +:+ inet_ntoa a b c d +:+ ":" +:+ show_unsigned port)
  | Sockaddr_in6 bytes port => Some ("ipv6:[" +:+ getnameinfo bytes +:+ "]:" +:+ show_unsigned port)
  | Sockaddr_other => None
  end.

(** The first colon becomes a blank. *)
Fixpoint blank_colon (s : string) : string :=
  match s with
  | EmptyString => ""
  | String c s' => if Ascii.eqb c ":" then String " " s' else String c (blank_colon s')
  end.

(** An attribute in the list of paths. *)
Inductive path_attr := T_my_addr (a : sockaddr) | T_peer_addr (a : sockaddr) | T_other.

(** [struct connections_list] and [struct peer_devices_list]. *)
Record connections_list := mk_connections_list {
  c_ctx_peer_node_id : Z;
  path_list : option (list path_attr);
  conn_connection_state : Z;
  net_conf : option shown_list
}.

Record peer_devices_list := mk_peer_devices_list {
  pd_ctx_peer_node_id : Z;
  pd_ctx_volume : Z;
  peer_device_conf : option shown_list
}.

Section Connections.
Context (getnameinfo : list Z -> string) (conn_str : Z -> string).

(** One attribute, and [indent] after it. *)
Definition print_path_attr (indent : nat) (nla : path_attr) : string * nat :=
  match nla with
  | T_my_addr a =>
      match address_str getnameinfo a with
      | None => ("", indent)
      | Some address =>
          (printI indent ("path {" +:+ nl) +:+ printI (S indent) ("_this_host " +:+ blank_colon address +:+ ";" +:+ nl), S indent)
      end
  | T_peer_addr a =>
      match address_str getnameinfo a with
      | None => ("", indent)
      | Some address =>
          (printI indent ("_remote_host " +:+ blank_colon address +:+ ";" +:+ nl) +:+ printI (indent - 1) ("}" +:+ nl), (indent - 1)%nat)
      end
  | T_other => ("", indent)
  end.

Fixpoint print_path_attrs (indent : nat) (nlas : list path_attr) : string * nat :=
  match nlas with
  | [] => ("", indent)
  | nla :: nlas' =>
      let '(s, indent) := print_path_attr indent nla in
      let '(rest, indent) := print_path_attrs indent nlas' in
      (s +:+ rest, indent)
  end.

Definition print_paths (indent : nat) (connection : connections_list) : string * nat :=
  match path_list connection with None => ("", indent) | Some nlas => print_path_attrs indent nlas end.

Definition show_peer_device (indent : nat) (peer_device : peer_devices_list) : string :=
  if options_empty (peer_device_conf peer_device) then ""
  else
    printI indent ("volume " +:+ show_int (pd_ctx_volume peer_device) +:+ " {" +:+ nl) +:+
    print_section (S indent) (peer_device_conf peer_device) "disk" +:+
    printI indent ("}" +:+ nl).

Definition show_connection (indent : nat) (connection : connections_list) (peer_devices : list peer_devices_list) : string * nat :=
  let head := printI indent ("connection {" +:+ nl) in
  let indent := S indent in
  let node_id := printI indent ("_peer_node_id " +:+ show_int (c_ctx_peer_node_id connection) +:+ ";" +:+ nl) in
  let '(paths, indent) := print_paths indent connection in
  let cstate := printI indent ("_cstate " +:+ conn_str (conn_connection_state connection) +:+ ";" +:+ nl) in
  let net := print_section indent (net_conf connection) "net" in
  let devices := String.concat "" ((fun pd =>
    if c_ctx_peer_node_id connection =? pd_ctx_peer_node_id pd then show_peer_device indent pd else "") <$> peer_devices) in
  let indent := (indent - 1)%nat in
  (head +:+ node_id +:+ paths +:+ cstate +:+ net +:+ devices +:+ printI indent ("}" +:+ nl), indent).

End Connections.

(** ** Resources *)

(** A resource with the lists that [show_resource_list] fetches for it;
    [connections] are sorted, [res_node_id] is the attribute [T_node_id]. *)
Record resources_list := mk_resources_list {
  rl_name : string;
  res_opts : option shown_list;
  res_node_id : option Z;
  rl_devices : list devices_list;
  rl_connections : list connections_list;
  rl_peer_devices : list peer_devices_list
}.

Section Resources.
Context `{!DrbdHeaders} (getnameinfo : list Z -> string) (conn_str : Z -> string).

Fixpoint show_volumes (indent : nat) (devices : list devices_list) : string * nat :=
  match devices with
  | [] => ("", indent)
  | device :: devices' =>
      let '(s, indent) := show_volume indent device in
      let '(rest, indent) := show_volumes indent devices' in
      (s +:+ rest, indent)
  end.

Fixpoint show_connections (indent : nat) (connections : list connections_list) (peer_devices : list peer_devices_list) :
    string * nat :=
  match connections with
  | [] => ("", indent)
  | connection :: connections' =>
      let '(s, indent) := show_connection getnameinfo conn_str indent connection peer_devices in
      let '(rest, indent) := show_connections indent connections' peer_devices in
      (s +:+ rest, indent)
  end.

Definition show_resource (indent : nat) (resource : resources_list) : string * nat :=
  let peer_devices :=
    if bool_decide (rl_devices resource = []) || bool_decide (rl_connections resource = []) then [] else rl_peer_devices resource in
  let head := printI indent ("resource " +:+ String QUOTE (rl_name resource +:+ String QUOTE (" {" +:+ nl))) in
  let indent := S indent in
  let opts := print_section indent (res_opts resource) "options" in
  let host := printI indent ("_this_host {" +:+ nl) in
  let indent := S indent in
  let node_id := match res_node_id resource with
                 | Some id => printI indent ("node-id" +:+ tabs 3 +:+ show_int id +:+ ";" +:+ nl)
                 | None => ""
                 end in
  let '(volumes, indent) := show_volumes indent (rl_devices resource) in
  let indent := (indent - 1)%nat in
  let host_end := printI indent ("}" +:+ nl) in
  let '(conns, indent) := show_connections indent (rl_connections resource) peer_devices in
  let indent := (indent - 1)%nat in
  (head +:+ opts +:+ host +:+ node_id +:+ volumes +:+ host_end +:+ conns +:+ printI indent ("}" +:+ nl +:+ nl), indent).

(** The resources with the name that was asked for. *)
Fixpoint show_resources (indent : nat) (resources : list resources_list) (old_objname : string) : string :=
  match resources with
  | [] => ""
  | resource :: resources' =>
      if negb (String.eqb old_objname "all") && negb (String.eqb old_objname (rl_name resource)) then
        show_resources indent resources' old_objname
      else
        let '(s, indent) := show_resource indent resource in s +:+ show_resources indent resources' old_objname
  end.

Definition show_resource_list (resources : list resources_list) (old_objname : string) : string :=
  (match resources with [] => "# No currently configured DRBD found." +:+ nl | _ => "" end) +:+
  show_resources 0 resources old_objname.

End Resources.
