(* ===== verification/ShowParsed.v ===== *)
(** * drbdadm adjust reads what drbdsetup shows

    The text of drbdsetup show (Show) is parsed by drbdadm (ConfigParser) into
    the resources it stands for. *)

From S2P Require Import Prelude Machine SharedTool ConfigFlags Options AdmConfig Adjust Argv Numerals Contexts Headers ConfigScanner ConfigTokens ConfigParser ConfigReads Show.
From S2P Require Main.
From Stdlib Require Import Ascii String.
From stdpp Require Import strings.

#[local] Open Scope string_scope.
#[local] Open Scope list_scope.
#[local] Open Scope Z_scope.

(** ** Numbers *)

Definition small (n : Z) : Prop := 0 <= n < 10 ^ 8.

Lemma show_u_number n : small n -> number_text (show_u n "").
Proof.
  unfold small. intros Hn. assert (in_u64 n) as Hu by solve_int. pose proof (show_u_digits n Hu) as Hd.
  split; [by destruct (show_u n "")|]. split.
  - destruct (show_u_cons n "") as (c & s & ->). cbn. lia.
  - pose proof (all_digits_length 20 n "" 8) as Hl. cbn [String.length] in Hl. unfold show_u. lia.
Qed.

Lemma show_int_number n : small n -> number_text (show_int n).
Proof. intros Hn. rewrite show_int_nonneg by (unfold small in Hn; lia). by apply show_u_number. Qed.

Lemma atoi_show_int n : small n -> atoi (show_int n) = n.
Proof.
  unfold small. intros Hn. unfold atoi. rewrite show_int_nonneg, strtol_show_u by (done || lia). apply s32_id. solve_int.
Qed.

Lemma atoi_show_u n : small n -> atoi (show_u n "") = n.
Proof. unfold small. intros Hn. unfold atoi. rewrite strtol_show_u by (done || lia). apply s32_id. solve_int. Qed.

Lemma m_strtoll_show_u n : in_u64 n -> m_strtoll (show_u n "") "1" = inl n.
Proof.
  intros Hn. unfold m_strtoll, new_strtoll. change (def_unit_shift "1") with (Some 0).
  rewrite scanf_show_u by done. by destruct (show_u_cons n "") as (c & s & ->).
Qed.

(** ** Keywords *)

(** A literal that is a token of its own. *)
Definition is_keyword (k : string) (t : token) : Prop := config_word k /\ token_of_word k = t.

Lemma lexes_keyword s k t u : is_keyword k t -> blank s -> after_name u -> lexes (s +:+ k +:+ u) t k u.
Proof. intros [Hk <-] Hs Hu. apply lexes_blank; [done|]. by apply lexes_word. Qed.

Ltac keyword := split; [split_and!; [done|by vm_compute|cbn; lia]|by vm_compute].

Lemma blank_tabs n : blank (tabs n).
Proof.
  induction n as [|n IH]; [apply blank_nil|]. unfold tabs in *. cbn [repeat].
  destruct (repeat (String TAB "") n) as [|x l] eqn:Hl; [apply blank_cons; [auto|apply blank_nil]|].
  change (blank (String TAB "" +:+ String.concat "" (x :: l))). apply blank_app; [apply blank_cons; [auto|apply blank_nil]|done].
Qed.

Lemma blank_one : blank " ".
Proof. apply blank_cons; [auto|apply blank_nil]. Qed.

Create HintDb blank.
#[export] Hint Resolve blank_nil blank_spaces blank_tabs blank_one blank_nl : blank.

(** A token that is a word of the text. *)
Ltac read_word s k t :=
  eapply reads_next; [eapply (lexes_keyword s k t); [keyword|auto with blank|done]|]; cbn [copies].

Ltac expect_word s k t :=
  eapply reads_EXP; [eapply (lexes_keyword s k t); [keyword|auto with blank|done]|]; cbn [copies].

Ltac expect_op s c :=
  eapply reads_EXP; [eapply (lexes_blank s); [auto with blank|by apply (lexes_op c)]|]; cbn [copies].

Ltac read_op s c :=
  eapply reads_next; [eapply (lexes_blank s); [auto with blank|by apply (lexes_op c)]|]; cbn [copies].

Ltac expect_number s :=
  eapply reads_EXP; [eapply (lexes_blank s); [auto with blank|apply lexes_number; [|done]]|]; cbn [copies].

Ltac assoc := repeat match goal with |- reads _ _ ((_ ≫= _) ≫= _) _ _ _ _ => apply reads_bind_assoc end.

(** Steps of an operation that read nothing. *)
Ltac step :=
  match goal with
  | |- reads _ _ ((_ ≫= _) ≫= _) _ _ _ _ => apply reads_bind_assoc
  | |- reads _ _ (mret _ ≫= _) _ _ _ _ => apply reads_ret_bind
  | |- reads _ _ (again _ ) _ _ _ _ => apply reads_done; auto with blank
  | |- reads _ _ (return_ _ ) _ _ _ _ => apply reads_done; auto with blank
  | |- reads _ _ (mret _ ) _ _ _ _ => apply reads_done; auto with blank
  | |- reads _ _ (yylval_txt ≫= _) _ _ _ _ => apply reads_yylval
  | |- reads _ _ (gets yytext ≫= _) _ _ _ _ => apply reads_yytext
  end.

Ltac steps := repeat step.

Section Parsed.
Context `{PC : !ParserContexts} `{!DrbdHeaders} (env : environment) (getnameinfo : list Z -> string).

(** The limits of ports and node ids are limits of plain numbers. *)
Definition plain_ranges : Prop := forall what, (range_of env what).2 = "1"%char.

Lemma reads_range_check what n y v a :
  plain_ranges -> in_u64 n -> reads y v (range_check env what (show_u n "")) "" a () a.
Proof using.
  intros Hr Hn. unfold range_check. specialize (Hr what). destruct (range_of env what) as [[min max] scale].
  cbn in Hr. subst scale. unfold m_strtoll_range. rewrite m_strtoll_show_u by done.
  destruct (_ || _); [apply reads_invalidate_early|apply reads_ret].
Qed.

(** ** Volumes *)

Lemma reads_unique_devices hosts d y v a : reads y v (unique_devices hosts d) "" a () a.
Proof using.
  unfold unique_devices. apply reads_for_each. intros h y' v'. eapply reads_then; [apply reads_check_uniq|]. intros ? ?.
  destruct (device d); [apply reads_check_uniq|apply reads_ret].
Qed.

Lemma reads_minor_line hosts n m sec y v a :
  small m -> device (vol sec) = None ->
  reads y v (volume_turn env hosts sec) (printI n ("device" +:+ tabs 3 +:+ "minor " +:+ show_int m +:+ ";" +:+ nl)) a
    (inl (on_volume (fun d => d <| device_minor := m |>) sec <| parsed_device := true |>)) a.
Proof using.
  intros Hm Hd. unfold volume_turn, printI. read_word (spaces (INDENT_WIDTH * n)) "device" TK_DEVICE.
  rewrite decide_False by done. cbn [parse_volume_stmt]. unfold parse_device.
  steps. read_word (tabs 3) "minor" TK_MINOR.
  steps. unfold explicit_minor. steps. 
  expect_number " "; [by apply show_int_number|].
  steps.
  expect_op "" ";"%char. rewrite atoi_show_int, u32_id by (unfold small in Hm; solve_int || done).
  set (sec' := on_volume _ sec). steps. eapply reads_then.
  { assert (device (vol sec') = None) as -> by exact Hd. destruct (concerns_me env hosts); apply reads_ret. }
  intros ? ?. steps. eapply reads_then; [apply reads_unique_devices|].
  intros ? ?. steps.
Qed.

(** The text of a device. *)
Definition quotable (s : string) : Prop := no_newline s /\ (String.length s <= 255)%nat.

Lemma lexes_quotable s v u : quotable v -> blank s -> lexes (s +:+ quoted v +:+ u) TK_STRING v u.
Proof using. intros [Hn Hl] Hs. apply lexes_blank; [done|]. by apply lexes_quoted. Qed.

Lemma reads_disk_line hosts n d sec y v a :
  quotable d ->
  reads y v (volume_turn env hosts sec) (printI n ("disk" +:+ tabs 3 +:+ quoted d +:+ ";" +:+ nl)) a
    (inl (on_volume (fun x => x <| disk := Some d |>) sec <| parsed_disk := true |>)) a.
Proof using.
  intros Hd. unfold volume_turn, printI. read_word (spaces (INDENT_WIDTH * n)) "disk" TK_DISK.
  rewrite decide_False by done. cbn [parse_volume_stmt]. steps.
  eapply reads_next; [by eapply (lexes_quotable (tabs 3)); [|auto with blank]|]; cbn [copies].
  steps. expect_op "" ";"%char.
  steps.
Qed.

Lemma reads_diskless_line hosts n sec y v a :
  reads y v (volume_turn env hosts sec) (printI n ("disk" +:+ tabs 3 +:+ "none;" +:+ nl)) a
    (inl (on_volume (fun x => x <| disk := Some "none" |>) sec <| parsed_disk := true |>)) a.
Proof using.
  unfold volume_turn, printI. read_word (spaces (INDENT_WIDTH * n)) "disk" TK_DISK.
  rewrite decide_False by done. cbn [parse_volume_stmt]. steps.
  read_word (tabs 3) "none" TK_STRING.
  steps. expect_op "" ";"%char.
  steps.
Qed.

(** The disk of the meta data, as it is parsed. *)
Definition shown_meta_disk (dev : devices_list) : string * string :=
  if (meta_dev_idx dev =? DRBD_MD_INDEX_INTERNAL) || (meta_dev_idx dev =? DRBD_MD_INDEX_FLEX_INT) then ("internal", "internal")
  else if meta_dev_idx dev =? DRBD_MD_INDEX_FLEX_EXT then (meta_dev dev, "flexible")
  else (meta_dev dev, show_int (meta_dev_idx dev)).

(** Meta data that are on a device of their own; its name is not internal. *)
Definition good_meta_disk (dev : devices_list) : Prop :=
  (meta_dev_idx dev = DRBD_MD_INDEX_INTERNAL \/ meta_dev_idx dev = DRBD_MD_INDEX_FLEX_INT) \/
  (quotable (meta_dev dev) /\ meta_dev dev <> "internal" /\
   (meta_dev_idx dev = DRBD_MD_INDEX_FLEX_EXT \/ small (meta_dev_idx dev))).

Lemma reads_meta_disk_line hosts n dev sec y v a :
  good_meta_disk dev ->
  reads y v (volume_turn env hosts sec) (printI n ("meta-disk" +:+ tabs 3) +:+ meta_disk_text dev) a
    (inl (set_meta_disk (shown_meta_disk dev).1 (shown_meta_disk dev).2 sec <| parsed_meta_disk := true |>)) a.
Proof using.
  intros Hm. unfold volume_turn, printI. rewrite !string_app_assoc.
  read_word (spaces (INDENT_WIDTH * n)) "meta-disk" TK_META_DISK.
  rewrite decide_False by done. cbn [parse_volume_stmt]. steps. unfold parse_meta_disk, meta_disk_text, shown_meta_disk.
  destruct (_ || _) eqn:Hint.
  - steps. expect_word (tabs 3) "internal" TK_STRING. steps. change (String.eqb "internal" "internal") with true. cbv iota.
    steps. expect_op "" ";"%char. steps.
  - apply orb_false_iff in Hint as [H1%Z.eqb_neq H2%Z.eqb_neq]. destruct Hm as [[?|?]|(Hq & Hne & Hidx)]; [done..|].
    assert (forall u, lexes (tabs 3 +:+ quoted (meta_dev dev) +:+ u) TK_STRING (meta_dev dev) u) as Hlex.
    { intros u. apply lexes_quotable; [done|auto with blank]. }
    assert (String.eqb "internal" (meta_dev dev) = false) as Hint by (apply String.eqb_neq; congruence).
    destruct (Z.eqb_spec (meta_dev_idx dev) DRBD_MD_INDEX_FLEX_EXT).
    + steps. eapply reads_EXP; [apply Hlex|]; cbn [copies]. steps. rewrite Hint. steps.
      read_op "" ";"%char. rewrite decide_False, decide_True by done. steps.
    + destruct Hidx as [?|Hidx]; [done|]. steps. eapply reads_EXP; [apply Hlex|]; cbn [copies]. steps. rewrite Hint. steps.
      read_op " " "["%char. rewrite decide_True by done. steps. expect_number " "; [by apply show_int_number|]. steps.
      expect_op " " "]"%char. steps. expect_op "" ";"%char. steps.
Qed.

(** The section of options, if there is one. *)
Definition shown (attr : option shown_list) : shown_list := default [] attr.

(** What is shown of the options of a context can be read. *)
Definition good_options (fields : list field_def) (attr : option shown_list) : Prop :=
  Forall (fun x => readable_value x /\ x.1 ∈ fields) (shown attr).

Lemma good_options_readable c attr :
  good_options (ctx_fields (fields_of c)) attr ->
  Forall (fun x => readable x /\ x.1 ∈ ctx_fields (fields_of c)) (shown attr).
Proof using.
  intros Hg. eapply Forall_impl; [exact Hg|]. intros x [[Hu Hv] Hin]. split; [|done].
  split; [by eapply field_option_name|done].
Qed.

Lemma reads_disk_section hosts n dev sec y v a :
  good_options (ctx_fields (fields_of attach_cmd_ctx)) (disk_conf_nl dev) ->
  good_options (ctx_fields (fields_of device_options_ctx)) (device_conf_nl dev) ->
  reads y v (volume_turn env hosts sec)
    (printI n ("disk {" +:+ nl) +:+ option_lines (INDENT_WIDTH * S n) (shown (disk_conf_nl dev)) +:+
     option_lines (INDENT_WIDTH * S n) (shown (device_conf_nl dev)) +:+ printI n ("}" +:+ nl)) a
    (inl (on_volume (fun d => d <| disk_options := parsed <$> shown (disk_conf_nl dev) |>
                                <| device_options := device_options (vol sec) ++ (parsed <$> shown (device_conf_nl dev)) |>) sec
          <| pd_options_of := pd_options_of sec |> <| parsed_disk := true |>)) a.
Proof using.
  intros Hdisk%good_options_readable Hdevice%good_options_readable. unfold volume_turn, printI.
  rewrite !string_app_assoc. read_word (spaces (INDENT_WIDTH * n)) "disk" TK_DISK.
  rewrite decide_False by done. cbn [parse_volume_stmt]. steps. read_op " " "{"%char.
  change (Ascii.eqb "{" "{") with true. cbv iota. unfold volume_disk_options. steps.
  apply (reads_leading _ _ _ nl); [auto with blank|].
  rewrite <- (string_app_assoc _ "}" nl), <- (string_app_assoc _ _ nl), <- (string_app_assoc _ _ nl).
  eapply reads_bind; [by apply reads_disk_options|]. intros ? ?. cbv beta iota. steps.
Qed.

(** *** A volume as a whole *)

(** Whether the section of options is closed: the code prints the brace with the
    options of the device. *)
Definition closed_options (dev : devices_list) : Prop :=
  is_Some (device_conf_nl dev) \/ shown (disk_conf_nl dev) = [].

Record good_device (dev : devices_list) : Prop := {
  good_volume_number : small (d_ctx_volume dev);
  good_minor : small (d_minor dev);
  good_disk : backing_dev dev <> "" -> quotable (backing_dev dev) /\ good_meta_disk dev;
  good_disk_options : good_options (ctx_fields (fields_of attach_cmd_ctx)) (disk_conf_nl dev);
  good_device_options : good_options (ctx_fields (fields_of device_options_ctx)) (device_conf_nl dev);
  good_end : closed_options dev
}.

Definition has_options (dev : devices_list) : bool :=
  negb (bool_decide (shown (disk_conf_nl dev) ++ shown (device_conf_nl dev) = [])).

(** The volume that is parsed from what is shown of a device. *)
Definition shown_volume (a : Z) (dev : devices_list) : volume_section :=
  let has_disk := negb (String.eqb (backing_dev dev) "") in
  let diskless := negb has_disk && (is_intentional_diskless dev =? 1) in
  mk_volume_section
    (mk_d_volume a (d_ctx_volume dev) (d_minor dev)
       (if has_disk then Some (backing_dev dev) else if diskless then Some "none" else None)
       (if has_disk then Some (shown_meta_disk dev).1 else None) (if has_disk then Some (shown_meta_disk dev).2 else None)
       (parsed <$> shown (disk_conf_nl dev)) false false false false false false None
       (parsed <$> shown (device_conf_nl dev)))
    [] false true (has_disk || diskless || has_options dev) has_disk false true.

Definition options_text (n : nat) (dev : devices_list) : string :=
  if has_options dev then
    printI n ("disk {" +:+ nl) +:+ option_lines (INDENT_WIDTH * S n) (shown (disk_conf_nl dev)) +:+
    option_lines (INDENT_WIDTH * S n) (shown (device_conf_nl dev)) +:+ printI n ("}" +:+ nl)
  else "".

(** What is printed of options. *)
Lemma print_options_none n name opened close : __print_options n None name opened close = ("", false, n).
Proof using. reflexivity. Qed.

Lemma print_options_nothing n name close : __print_options n (Some []) name false close = ("", false, n).
Proof using. unfold __print_options. by destruct close. Qed.

Lemma print_options_open n x l name :
  __print_options n (Some (x :: l)) name false false =
  (printI n (name +:+ " {" +:+ nl) +:+ option_lines (INDENT_WIDTH * S n) (x :: l), true, S n).
Proof using. reflexivity. Qed.

Lemma print_options_more n l name :
  __print_options (S n) (Some l) name true true =
  (option_lines (INDENT_WIDTH * S n) l +:+ printI n ("}" +:+ nl), true, n).
Proof using. unfold __print_options. cbn [negb andb orb]. by replace (S n - 1)%nat with n by lia. Qed.

Lemma print_options_whole n x l name :
  __print_options n (Some (x :: l)) name false true =
  (printI n (name +:+ " {" +:+ nl) +:+ option_lines (INDENT_WIDTH * S n) (x :: l) +:+ printI n ("}" +:+ nl), true, n).
Proof using. unfold __print_options. change (bool_decide (x :: l = [])) with false. cbn [negb andb orb].
  replace (S n - 1)%nat with n by lia. reflexivity.
Qed.

(** What is printed in each case. *)
Ltac print_cases :=
  rewrite ?print_options_none, ?print_options_nothing, ?print_options_open; cbv beta iota;
  rewrite ?print_options_none, ?print_options_nothing, ?print_options_more, ?print_options_whole; cbv beta iota;
  cbn [app]; repeat match goal with |- context [bool_decide (?x :: ?l = [])] => change (bool_decide (x :: l = [])) with false end;
  repeat match goal with |- context [bool_decide ([] = [])] => change (bool_decide ([] = [])) with true end;
  cbn [negb]; repeat match goal with |- context [(S ?n - 1)%nat] => replace (S n - 1)%nat with n by lia end.

Lemma show_volume_text n dev :
  closed_options dev ->
  show_volume n dev =
  (printI n ("volume " +:+ show_int (d_ctx_volume dev) +:+ " {" +:+ nl) +:+
   printI (S n) ("device" +:+ tabs 3 +:+ "minor " +:+ show_int (d_minor dev) +:+ ";" +:+ nl) +:+
   disk_text (S n) dev +:+ options_text (S n) dev +:+ printI n ("}" +:+ nl), n).
Proof using.
  intros Hc. unfold show_volume, options_text, has_options, closed_options in *. revert Hc.
  destruct (disk_conf_nl dev) as [[|x l]|], (device_conf_nl dev) as [[|x' l']|]; unfold shown; cbn [default id];
    intros [[? Hs]|Hs]; try done; print_cases; rewrite ?string_app_assoc; reflexivity.
Qed.

(** The lines about the disk of a volume, one or two. *)
Definition with_disk (dev : devices_list) (sec : volume_section) : volume_section :=
  if negb (String.eqb (backing_dev dev) "") then
    set_meta_disk (shown_meta_disk dev).1 (shown_meta_disk dev).2
      (on_volume (fun x => x <| disk := Some (backing_dev dev) |>) sec <| parsed_disk := true |>) <| parsed_meta_disk := true |>
  else if is_intentional_diskless dev =? 1 then
    on_volume (fun x => x <| disk := Some "none" |>) sec <| parsed_disk := true |>
  else sec.

Lemma printI_not_empty n s : s <> "" -> printI n s <> "".
Proof using. intros Hs. unfold printI. by destruct (spaces _). Qed.

Lemma app_not_empty s t : s <> "" -> s +:+ t <> "".
Proof using. by destruct s. Qed.

Lemma chain_disk hosts n dev sec a :
  good_device dev -> chain (volume_turn env hosts) a sec (disk_text n dev) a (with_disk dev sec).
Proof using.
  intros Hd. unfold disk_text, with_disk. destruct (String.eqb_spec (backing_dev dev) "") as [_|Hb]; cbn [negb].
  - destruct (_ =? 1); [|constructor]. apply chain_one; [|by apply printI_not_empty]. intros ? ?. apply reads_diskless_line.
  - destruct (good_disk dev Hd Hb) as [Hq Hm]. eapply chain_cons; [|by apply printI_not_empty|].
    + intros ? ?. by apply reads_disk_line.
    + apply chain_one; [|by apply app_not_empty, printI_not_empty]. intros ? ?. by apply reads_meta_disk_line.
Qed.

Definition with_options (dev : devices_list) (sec : volume_section) : volume_section :=
  if has_options dev then
    on_volume (fun d => d <| disk_options := parsed <$> shown (disk_conf_nl dev) |>
                          <| device_options := device_options (vol sec) ++ (parsed <$> shown (device_conf_nl dev)) |>) sec
      <| pd_options_of := pd_options_of sec |> <| parsed_disk := true |>
  else sec.

Lemma chain_volume_options hosts n dev sec a :
  good_device dev -> chain (volume_turn env hosts) a sec (options_text n dev) a (with_options dev sec).
Proof using.
  intros Hd. unfold options_text, with_options. destruct (has_options dev); [|constructor].
  apply chain_one; [|by apply app_not_empty, printI_not_empty]. intros ? ?. apply reads_disk_section; apply Hd.
Qed.

Lemma reads_volume_end hosts n sec y v a :
  reads y v (volume_turn env hosts sec) (printI n ("}" +:+ nl)) a (inr sec) a.
Proof using.
  unfold volume_turn, printI. read_op (spaces (INDENT_WIDTH * n)) "}"%char. rewrite decide_True by done. steps.
Qed.

(** The text of a volume after its number. *)
Definition volume_body (n : nat) (dev : devices_list) : string :=
  " {" +:+ nl +:+ printI (S n) ("device" +:+ tabs 3 +:+ "minor " +:+ show_int (d_minor dev) +:+ ";" +:+ nl) +:+
  disk_text (S n) dev +:+ options_text (S n) dev +:+ printI n ("}" +:+ nl).

Lemma reads_volume hosts n dev y v a :
  good_device dev ->
  reads y v (parse_volume env (d_ctx_volume dev) hosts) (volume_body n dev) a (shown_volume a dev) (a + 1).
Proof using.
  intros Hd. unfold parse_volume, alloc_volume, volume_body. steps. eapply reads_then; [apply reads_new_address|].
  intros ? ?. steps. expect_op " " "{"%char. apply (reads_leading _ _ _ nl); [auto with blank|].
  rewrite <- (string_app_assoc _ (disk_text _ _)), <- (string_app_assoc (_ +:+ disk_text _ _)).
  eapply reads_loop.
  - eapply chain_app; [eapply chain_app|].
    + apply chain_one; [|by apply printI_not_empty]. intros ? ?. apply reads_minor_line; [apply Hd|done].
    + by apply chain_disk.
    + by apply chain_volume_options.
  - intros ? ?. destruct Hd as [Hn Hm _ _ _ _].
    replace (shown_volume a dev) with (with_options dev (with_disk dev
      (on_volume (fun d => d <| device_minor := d_minor dev |>)
        (mk_volume_section (mk_d_volume a (u32 (d_ctx_volume dev)) (u32 (-1)) None None None [] false false false false false false None [])
           [] false false false false false true) <| parsed_device := true |>))).
    { apply reads_volume_end. }
    unfold small in *. rewrite u32_id by solve_int. unfold with_options, with_disk, shown_volume, has_options.
    destruct (String.eqb (backing_dev dev) ""), (is_intentional_diskless dev =? 1), (shown (disk_conf_nl dev)), (shown (device_conf_nl dev));
      reflexivity.
Qed.

(** ** This host *)

Lemma volume_head n v t :
  printI n ("volume " +:+ v +:+ " {" +:+ nl) +:+ t =
  spaces (INDENT_WIDTH * n) +:+ "volume" +:+ " " +:+ v +:+ " {" +:+ nl +:+ t.
Proof using. unfold printI. rewrite !string_app_assoc. reflexivity. Qed.

Definition volume_text (n : nat) (dev : devices_list) : string :=
  spaces (INDENT_WIDTH * n) +:+ "volume" +:+ " " +:+ show_int (d_ctx_volume dev) +:+ volume_body n dev.

Lemma volume_text_not_empty n dev : volume_text n dev <> "".
Proof using. unfold volume_text. by destruct (spaces _). Qed.

Lemma show_volume_shown n dev : closed_options dev -> show_volume n dev = (volume_text n dev, n).
Proof using.
  intros Hc. rewrite show_volume_text by done. unfold volume_text, volume_body. by rewrite volume_head.
Qed.

Lemma show_volumes_shown n devs :
  Forall closed_options devs -> show_volumes n devs = (texts (volume_text n) devs, n).
Proof using.
  induction 1 as [|dev devs Hc _ IH]; [done|]. cbn [show_volumes].
  by rewrite show_volume_shown, IH, texts_cons by done.
Qed.

(** The host with the volumes, which are put in order. *)
Definition add_shown_volume (a : Z) (host : host_config) (dev : devices_list) : host_config :=
  host <| h_volumes := insert_section (h_volumes host) (shown_volume a dev) |>.

Lemma after_name_body n dev : after_name (volume_body n dev).
Proof using. done. Qed.

Lemma reads_host_volume name hosts n dev host y v a :
  good_device dev ->
  reads y v (host_turn env name hosts host) (volume_text n dev) a (inl (add_shown_volume a host dev)) (a + 1).
Proof using.
  intros Hd. unfold host_turn, volume_text. read_word (spaces (INDENT_WIDTH * n)) "volume" TK_VOLUME.
  rewrite decide_False by done. cbn [host_statement]. steps.
  eapply reads_EXP; [eapply (lexes_blank " "); [auto with blank|apply lexes_number; [apply show_int_number, Hd|apply after_name_body]]|].
  cbn [copies]. steps. rewrite atoi_show_int by apply Hd. rewrite <- (string_app_nil_r (volume_body n dev)).
  eapply reads_bind; [by apply reads_volume|]. intros ? ?. steps.
Qed.

(** The volumes of this host, the first of which is at the address [a]. *)
Definition shown_volumes (a : Z) (host : host_config) (devs : list devices_list) : Z * host_config :=
  run_items add_shown_volume (fun _ => 1) a host devs.

Lemma chain_host_volumes name hosts n devs host a :
  Forall good_device devs ->
  chain (host_turn env name hosts) a host (texts (volume_text n) devs) (shown_volumes a host devs).1 (shown_volumes a host devs).2.
Proof using.
  intros Hd. apply (chain_items _ _ add_shown_volume (fun _ => 1) (fun _ => True)); [done|].
  intros a' s dev Hin _. split; [done|]. split; [apply volume_text_not_empty|]. intros ? ?.
  apply reads_host_volume. rewrite Forall_forall in Hd. by apply Hd.
Qed.

Lemma reads_is_v9 y v a : reads y v is_v9 "" a () a.
Proof using.
  intros st rest Hy Hv Ha Hadj Ht. eexists. unfold is_v9, modify. split; [done|].
  destruct (config_version st); by split_and!.
Qed.

Lemma reads_node_id_line name hosts n id host y v a :
  plain_ranges -> small id ->
  reads y v (host_turn env name hosts host) (printI n ("node-id" +:+ tabs 3 +:+ show_int id +:+ ";" +:+ nl)) a
    (inl (host <| h_node_id := Some (show_int id) |>)) a.
Proof using.
  intros Hr Hid. unfold host_turn, printI. read_word (spaces (INDENT_WIDTH * n)) "node-id" TK_NODE_ID.
  rewrite decide_False by done. cbn [host_statement]. unfold node_id_statement, parse_node_id. steps.
  expect_number (tabs 3); [by apply show_int_number|]. steps.
  eapply reads_then.
  { rewrite show_int_nonneg by (unfold small in Hid; lia). apply reads_range_check; [done|unfold small in Hid; solve_int]. }
  intros ? ?. steps. eapply reads_then; [apply reads_for_each; intros; apply reads_check_upr|].
  intros ? ?. steps. eapply reads_then; [apply reads_check_upr|]. intros ? ?. steps. expect_op "" ";"%char. steps.
  eapply reads_then; [apply reads_is_v9|]. intros ? ?. steps.
Qed.

Lemma reads_host_end name hosts n host y v a :
  reads y v (host_turn env name hosts host) (printI n ("}" +:+ nl)) a (inr host) a.
Proof using.
  unfold host_turn, printI. read_op (spaces (INDENT_WIDTH * n)) "}"%char. rewrite decide_True by done. steps.
Qed.

(** *** The section of this host *)

Definition node_id_text (n : nat) (id : option Z) : string :=
  match id with Some id => printI n ("node-id" +:+ tabs 3 +:+ show_int id +:+ ";" +:+ nl) | None => "" end.

Definition bare_host : host_config := mk_host_config ["_this_host"] [] no_address None None false false false [] None.

(** This host as it is parsed, and the next address. *)
Definition shown_host (a : Z) (res : resources_list) : Z * host_config :=
  shown_volumes a (bare_host <| h_node_id := show_int <$> res_node_id res |>) (rl_devices res).

Record good_host (res : resources_list) : Prop := {
  good_devices : Forall good_device (rl_devices res);
  good_node_id : forall id, res_node_id res = Some id -> small id
}.

Lemma reads_host_section name n res y v a :
  plain_ranges -> good_host res ->
  reads y v (parse_host_section env name ["_this_host"] false false)
    (nl +:+ node_id_text (S n) (res_node_id res) +:+ texts (volume_text (S n)) (rl_devices res) +:+ printI n ("}" +:+ nl))
    a (shown_host a res).2 (shown_host a res).1.
Proof using.
  intros Hr Hg. unfold parse_host_section. steps. cbv beta iota zeta.
  eapply reads_then; [apply reads_for_each; intros; apply reads_check_upr|]. intros ? ?.
  cbv beta iota. apply (reads_leading _ _ _ nl); [auto with blank|]. unfold host_statements, shown_host.
  rewrite <- string_app_assoc. eapply reads_loop; [|intros ? ?; apply reads_host_end].
  eapply chain_app; [|apply chain_host_volumes, Hg].
  destruct (res_node_id res) as [id|] eqn:Hid; [|constructor].
  apply chain_one; [|by apply printI_not_empty]. intros ? ?. apply reads_node_id_line; [done|]. by apply (good_node_id res).
Qed.
End Parsed.
