(* ===== verification/ShowConnections.v ===== *)
(** * drbdadm adjust reads the connections that drbdsetup shows

    The second half of what drbdsetup show (Show) prints of a resource, read by
    drbdadm (ConfigParser): the addresses, paths and connections with their
    options and devices, and the resources as a whole. *)

From S2P Require Import Prelude Machine SharedTool ConfigFlags Options AdmConfig Adjust Argv Numerals Contexts Headers ConfigScanner ConfigTokens ConfigParser ConfigReads Show ShowParsed.
From S2P Require Main.
From Stdlib Require Import Ascii String.
From stdpp Require Import strings.

#[local] Open Scope string_scope.
#[local] Open Scope list_scope.
#[local] Open Scope Z_scope.

(** All of the text is for the first operation. *)
Ltac reads_tail := match goal with |- reads _ _ _ ?t _ _ _ => rewrite <- (string_app_nil_r t) end.

(** ** Addresses *)

Definition byte (n : Z) : Prop := 0 <= n < 256.

Lemma show_byte n : byte n -> all_chars isdigit (show_u n "") = true /\ (1 <= String.length (show_u n "") <= 3)%nat.
Proof.
  unfold byte. intros Hn. pose proof (show_u_digits n ltac:(solve_int)) as Hd. split; [by destruct (show_u n "")|]. split.
  - destruct (show_u_cons n "") as (c & s & ->). cbn. lia.
  - pose proof (all_digits_length 20 n "" 3) as Hl. cbn [String.length] in Hl. unfold show_u. lia.
Qed.

Lemma inet_ntoa_ipv4 a b c d : Forall byte [a; b; c; d] -> ipv4_text (inet_ntoa a b c d).
Proof.
  intros Hb. rewrite !Forall_cons in Hb. destruct Hb as (Ha & Hb & Hc & Hd & _). unfold inet_ntoa.
  rewrite !show_unsigned_id by (unfold byte in *; solve_int).
  exists (show_u a ""), (show_u b ""), (show_u c ""), (show_u d ""). split; [done|].
  repeat (apply Forall_cons_2; [by apply show_byte|]). done.
Qed.

Section Connections.
Context `{PC : !ParserContexts} `{!DrbdHeaders} (env : environment) (getnameinfo : list Z -> string) (conn_str : Z -> string).

(** The addresses that the kernel gives; the numeric text of an IPv6 address is
    what the scanner takes for one. *)
Inductive good_sockaddr : sockaddr -> Prop :=
  | good_in f a b c d port : Forall byte [a; b; c; d] -> small port -> good_sockaddr (Sockaddr_in f a b c d port)
  | good_in6 bytes port : ipv6_text (getnameinfo bytes) -> small port -> good_sockaddr (Sockaddr_in6 bytes port).

Definition shown_port (port : Z) : string := show_u port "".

Definition shown_address (sa : sockaddr) : address :=
  match sa with
  | Sockaddr_in f a b c d port =>
      mk_address (Some (af_to_str f)) (Some (inet_ntoa a b c d)) (Some (shown_port port)) (addr_scope_local env (inet_ntoa a b c d))
  | Sockaddr_in6 bytes port =>
      mk_address (Some "ipv6") (Some (getnameinfo bytes)) (Some (shown_port port)) (addr_scope_local env (getnameinfo bytes))
  | Sockaddr_other => no_address
  end.

(** The text, with a blank in the place of the first colon. *)
Definition sockaddr_text (sa : sockaddr) : string :=
  match sa with
  | Sockaddr_in f a b c d port => af_to_str f +:+ " " +:+ inet_ntoa a b c d +:+ String ":" (shown_port port)
  | Sockaddr_in6 bytes port => "ipv6 [" +:+ getnameinfo bytes +:+ "]" +:+ String ":" (shown_port port)
  | Sockaddr_other => ""
  end.

Lemma address_str_text sa :
  good_sockaddr sa -> exists s, address_str getnameinfo sa = Some s /\ blank_colon s = sockaddr_text sa.
Proof using.
  intros [f a b c d port _ Hp|bytes port _ Hp]; unfold small in Hp; cbn [address_str]; eexists; (split; [done|]);
    rewrite show_unsigned_id by solve_int; [by destruct f|done].
Qed.

Lemma reads_port {B} y v port u (k : unit -> P B) a r a' :
  plain_ranges env -> small port -> after_name u -> (forall y v, reads y v (k ()) u a r a') ->
  reads y v (range_check env R_PORT (shown_port port) ≫= k) u a r a'.
Proof using.
  intros Hr Hp Hu Hk. eapply reads_then; [|exact Hk]. apply reads_range_check; [done|]. unfold small in Hp. solve_int.
Qed.

(** An address that is followed by the end of a name. *)
Lemma reads_parse_address {B} y v sa u (k : address -> P B) a r a' :
  plain_ranges env -> good_sockaddr sa -> after_name u -> (forall y v, reads y v (k (shown_address sa)) u a r a') ->
  reads y v (__parse_address env ≫= k) (sockaddr_text sa +:+ u) a r a'.
Proof using.
  intros Hr Hsa Hu Hk. unfold __parse_address. destruct Hsa as [f b1 b2 b3 b4 port Hb Hp|bytes port Hb Hp]; cbn [sockaddr_text].
  - rewrite !string_app_assoc. change (String ":" (shown_port port) +:+ u) with (String ":" (shown_port port +:+ u)).
    apply inet_ntoa_ipv4 in Hb. pose proof (show_u_number port Hp) as Hport.
    assert (forall t, is_keyword (af_to_str f) t -> copies t = true -> t ∈ [TK_SSOCKS; TK_SDP; TK_IPV4] ->
      reads y v (__parse_address env ≫= k) (af_to_str f +:+ " " +:+ inet_ntoa b1 b2 b3 b4 +:+ String ":" (shown_port port +:+ u)) a r a') as Hfam.
    { intros t Hkey Hcopy Ht. unfold __parse_address. steps. eapply reads_next.
      { by apply (lexes_keyword "" (af_to_str f) t). }
      rewrite Hcopy. assert (String.eqb (af_to_str f) "ipv6" = false) as Hv4 by by destruct f.
      repeat (apply elem_of_cons in Ht as [-> |Ht]); [..|by apply elem_of_nil in Ht].
      all: steps; eapply reads_EXP; [eapply (lexes_blank " "); [auto with blank|by apply lexes_ipv4]|]; cbn [copies].
      all: steps; rewrite Hv4; steps.
      all: eapply reads_EXP; [by apply lexes_colon|]; cbn [copies].
      all: steps; eapply reads_EXP; [by apply lexes_number|]; cbn [copies].
      all: steps; by apply reads_port. }
    destruct f; [apply (Hfam TK_IPV4)|apply (Hfam TK_SSOCKS)|apply (Hfam TK_SDP)]; try keyword; try done; by apply (bool_decide_unpack _).
  - rewrite !string_app_assoc. change (String ":" (shown_port port) +:+ u) with (String ":" (shown_port port +:+ u)).
    pose proof (show_u_number port Hp) as Hport. steps. read_word "" "ipv6" TK_IPV6. steps. expect_op " " "["%char. steps.
    eapply reads_EXP; [by apply lexes_ipv6|]; cbn [copies]. steps. expect_op "" "]"%char. steps.
    eapply reads_EXP; [by apply lexes_colon|]; cbn [copies].
    steps. eapply reads_EXP; [by apply lexes_number|]; cbn [copies]. steps. by apply reads_port.
Qed.

(** ** Paths *)

(** An address of a path, as it is parsed. *)
Definition shown_pair (name : string) (sa : sockaddr) : hname_address :=
  host_by_name name <| ha_address := shown_address sa |> <| parsed_address := true |>.

Lemma reads_pair_address y v name sa a :
  plain_ranges env -> good_sockaddr sa ->
  reads y v (pair_address env (host_by_name name)) (sockaddr_text sa +:+ ";" +:+ nl) a (shown_pair name sa) a.
Proof using.
  intros Hr Hsa. unfold pair_address. apply reads_parse_address; [done|done|done|]. intros ? ?.
  read_op "" ";"%char. unfold parse_optional_via. rewrite decide_False, decide_True by done. steps.
Qed.

(** The addresses of a path; the path refers to the two of them. *)
Definition shown_path (a : Z) (path : sockaddr * sockaddr) : path_config :=
  mk_path_config a [shown_pair "_this_host" path.1; shown_pair "_remote_host" path.2]
    (Some (shown_address path.1)) (Some (shown_address path.2)) false.

Definition path_lines (n : nat) (path : sockaddr * sockaddr) : string :=
  printI (S n) ("_this_host " +:+ sockaddr_text path.1 +:+ ";" +:+ nl) +:+
  printI (S n) ("_remote_host " +:+ sockaddr_text path.2 +:+ ";" +:+ nl).

Definition path_text (n : nat) (path : sockaddr * sockaddr) : string :=
  printI n ("path {" +:+ nl) +:+ path_lines n path +:+ printI n ("}" +:+ nl).

Definition good_path (path : sockaddr * sockaddr) : Prop := good_sockaddr path.1 /\ good_sockaddr path.2.

Lemma reads_this_host n p sa y v a :
  plain_ranges env -> good_sockaddr sa ->
  reads y v (path_turn env (p, 0)) (printI n ("_this_host " +:+ sockaddr_text sa +:+ ";" +:+ nl)) a
    (inl (p <| hname_address_pairs := hname_address_pairs p ++ [shown_pair "_this_host" sa] |>
            <| p_my_address := Some (shown_address sa) |>, 1)) a.
Proof using.
  intros Hr Hsa. unfold path_turn, printI. read_word (spaces (INDENT_WIDTH * n)) "_this_host" TK__THIS_HOST.
  cbn [starts_pair fst snd parse_hname_address_pair]. steps. apply (reads_leading _ _ _ " "); [auto with blank|].
  rewrite <- (string_app_nil_r (sockaddr_text sa +:+ _)).
  eapply reads_bind; [by apply reads_pair_address|]. intros ? ?. steps.
  eapply reads_then; [unfold count_host; apply reads_ret|]. intros ? ?. steps.
Qed.

Lemma reads_remote_host n p sa y v a :
  plain_ranges env -> good_sockaddr sa ->
  reads y v (path_turn env (p, 1)) (printI n ("_remote_host " +:+ sockaddr_text sa +:+ ";" +:+ nl)) a
    (inl (p <| hname_address_pairs := hname_address_pairs p ++ [shown_pair "_remote_host" sa] |>
            <| p_connect_to := Some (shown_address sa) |>, 2)) a.
Proof using.
  intros Hr Hsa. unfold path_turn, printI. read_word (spaces (INDENT_WIDTH * n)) "_remote_host" TK__REMOTE_HOST.
  cbn [starts_pair fst snd parse_hname_address_pair]. steps. apply (reads_leading _ _ _ " "); [auto with blank|].
  rewrite <- (string_app_nil_r (sockaddr_text sa +:+ _)).
  eapply reads_bind; [by apply reads_pair_address|]. intros ? ?. steps.
  eapply reads_then; [unfold count_host; apply reads_ret|]. intros ? ?. steps.
Qed.

(** What follows the word path. *)
Lemma reads_path n path y v a :
  plain_ranges env -> good_path path ->
  reads y v (parse_path env) (" {" +:+ nl +:+ path_lines n path +:+ printI n ("}" +:+ nl)) a (shown_path a path) (a + 1).
Proof using.
  intros Hr [Hmy Hpeer]. unfold parse_path, alloc_path. steps. eapply reads_then; [apply reads_new_address|].
  intros ? ?. steps. expect_op " " "{"%char. apply (reads_leading _ _ _ nl); [auto with blank|]. eapply reads_loop.
  - eapply chain_app; (apply chain_one; [|by apply printI_not_empty]); intros ? ?;
      [by apply reads_this_host|by apply reads_remote_host].
  - intros ? ?. unfold path_turn, printI. cbn [fst snd]. read_op (spaces (INDENT_WIDTH * n)) "}"%char.
    cbn [starts_pair]. rewrite decide_True by done. steps.
Qed.

(** The list of the attributes is one of pairs. *)
Definition path_attrs (paths : list (sockaddr * sockaddr)) : list path_attr :=
  paths ≫= fun p => [T_my_addr p.1; T_peer_addr p.2].

Lemma print_path_attrs_text n paths :
  Forall good_path paths -> print_path_attrs getnameinfo n (path_attrs paths) = (texts (path_text n) paths, n).
Proof using.
  induction 1 as [|[my peer] paths [Hmy Hpeer] _ IH]; [done|]. unfold path_attrs in *. cbn [mbind list_bind app fst snd print_path_attrs].
  destruct (address_str_text my Hmy) as (s1 & H1 & Hs1), (address_str_text peer Hpeer) as (s2 & H2 & Hs2).
  cbn [print_path_attr]. rewrite H1, H2. replace (S n - 1)%nat with n by lia. rewrite IH, texts_cons, Hs1, Hs2.
  unfold path_text, path_lines. cbn [fst snd]. by rewrite !string_app_assoc.
Qed.

(** ** Connections *)

(** The pairs of addresses in the attribute with the paths. *)
Fixpoint pairs (nlas : list path_attr) : list (sockaddr * sockaddr) :=
  match nlas with
  | T_my_addr my :: T_peer_addr peer :: nlas' => (my, peer) :: pairs nlas'
  | _ => []
  end.

Definition paths_of (connection : connections_list) : list (sockaddr * sockaddr) := pairs (default [] (path_list connection)).

(** The attribute holds nothing but pairs. *)
Definition only_pairs (connection : connections_list) : Prop :=
  default [] (path_list connection) = path_attrs (paths_of connection).

Lemma print_paths_text n connection :
  only_pairs connection -> Forall good_path (paths_of connection) ->
  print_paths getnameinfo n connection = (texts (path_text n) (paths_of connection), n).
Proof using.
  unfold only_pairs, print_paths. intros Hp Hg. destruct (path_list connection) as [nlas|] eqn:Hl; cbn [default id] in Hp.
  - rewrite Hp. by apply print_path_attrs_text.
  - unfold paths_of. by rewrite Hl.
Qed.

Lemma reads_path_section n flags hosts c path y v a :
  plain_ranges env -> good_path path ->
  reads y v (connection_turn env flags (c, hosts)) (path_text n path) a
    (inl (c <| c_paths := c_paths c ++ [shown_path a path] |>, hosts)) (a + 1).
Proof using.
  intros Hr Hp. unfold connection_turn, path_text, printI. rewrite string_app_assoc.
  read_word (spaces (INDENT_WIDTH * n)) "path" TK_PATH. cbn [starts_pair]. rewrite decide_False by done.
  cbn [connection_statement]. steps. reads_tail.
  eapply reads_bind; [by apply reads_path|]. intros ? ?. steps.
Qed.

Lemma reads_peer_node_id_line n flags hosts c id y v a :
  plain_ranges env -> small id ->
  reads y v (connection_turn env flags (c, hosts)) (printI n ("_peer_node_id " +:+ show_int id +:+ ";" +:+ nl)) a
    (inl (c <| c_peer := Some (mk_host_config [] [] no_address None None true false false [] (Some (show_int id))) |>, hosts)) a.
Proof using.
  intros Hr Hid. unfold connection_turn, printI. read_word (spaces (INDENT_WIDTH * n)) "_peer_node_id" TK__PEER_NODE_ID.
  cbn [starts_pair]. rewrite decide_False by done. cbn [connection_statement]. unfold parse_peer_node_id, parse_node_id. steps.
  expect_number " "; [by apply show_int_number|]. steps.
  eapply reads_then.
  { rewrite show_int_nonneg by (unfold small in Hid; lia). apply reads_range_check; [done|unfold small in Hid; solve_int]. }
  intros ? ?. steps. expect_op "" ";"%char. steps.
Qed.

Lemma index_of_lookup names i name k :
  NoDup names -> names !! k = Some name -> index_of names i name = i + Z.of_nat k.
Proof using.
  intros Hnd. revert i k. induction names as [|n names IH]; intros i [|k] Hk; try done; cbn [index_of].
  - injection Hk as ->. rewrite String.eqb_refl. lia.
  - apply list.NoDup_cons in Hnd as [Hn Hnd]. cbn in Hk.
    destruct (String.eqb_spec n name) as [->|]; [by apply list_elem_of_lookup_2 in Hk|]. rewrite (IH Hnd _ k) by done. lia.
Qed.

(** The names of the states of a connection. *)
Definition good_states : Prop :=
  NoDup (drbd_conn_state_names env) /\ Forall (fun name => is_keyword name TK_STRING) (drbd_conn_state_names env) /\
  forall k name, drbd_conn_state_names env !! k = Some name -> conn_str (Z.of_nat k) = name.

Lemma reads_cstate_line n flags hosts c s y v a :
  good_states -> 0 <= s < Z.of_nat (length (drbd_conn_state_names env)) ->
  reads y v (connection_turn env flags (c, hosts)) (printI n ("_cstate " +:+ conn_str s +:+ ";" +:+ nl)) a
    (inl (c <| c_cstate := s |>, hosts)) a.
Proof using.
  intros (Hnd & Hkey & Hstr) Hs. destruct (lookup_lt_is_Some_2 (drbd_conn_state_names env) (Z.to_nat s)) as [name Hname]; [lia|].
  pose proof (Hstr _ _ Hname) as Hconn. rewrite Z2Nat.id in Hconn by lia. rewrite Hconn.
  assert (is_keyword name TK_STRING) as Hn by exact (Forall_lookup_1 _ _ _ _ Hkey Hname).
  unfold connection_turn, printI. read_word (spaces (INDENT_WIDTH * n)) "_cstate" TK__CSTATE.
  cbn [starts_pair]. rewrite decide_False by done. cbn [connection_statement]. unfold parse_drbd_state. steps.
  eapply reads_EXP; [by eapply (lexes_keyword " " name TK_STRING); [|auto with blank|]|]; cbn [copies]. steps.
  expect_op "" ";"%char. steps. rewrite (index_of_lookup _ _ _ _ Hnd Hname). rewrite Z2Nat.id by lia. steps.
Qed.

(** *** Options and devices *)

Lemma show_net_fields :
  fd_name <$> ctx_fields show_net_options_ctx = (IMMUTABLE_NET_OPTIONS ++ CHANGEABLE_NET_OPTIONS).*1.
Proof using. rewrite <- show_net_table, <- list_fmap_compose. done. Qed.

Lemma show_net_names : Forall option_name (fd_name <$> ctx_fields show_net_options_ctx).
Proof using.
  rewrite show_net_fields. assert (forallb is_option_name (IMMUTABLE_NET_OPTIONS ++ CHANGEABLE_NET_OPTIONS).*1 = true) as Hf by by vm_compute.
  rewrite forallb_forall in Hf. apply Forall_forall. intros x Hx. by apply is_option_name_spec, Hf, list_elem_of_In.
Qed.

Lemma show_net_NoDup : NoDup (fd_name <$> ctx_fields show_net_options_ctx).
Proof using. rewrite show_net_fields. by apply (bool_decide_unpack _). Qed.

(** A section of options that is printed if there are any. *)
Definition section_text (n : nat) (name : string) (attr : option shown_list) : string :=
  if options_empty attr then ""
  else printI n (name +:+ " {" +:+ nl) +:+ option_lines (INDENT_WIDTH * S n) (shown attr) +:+ printI n ("}" +:+ nl).

Lemma print_section_text n attr name : print_section n attr name = section_text n name attr.
Proof using.
  unfold print_section, section_text. destruct attr as [[|x l]|]; cbn [options_empty shown default id]; [done| |done].
  by rewrite print_options_whole.
Qed.

(** The lines and the brace, after which a line ends. *)
Lemma reads_options_nl {D} (p : P D) n lines y v a r :
  reads y v p (lines +:+ spaces (INDENT_WIDTH * n) +:+ "}") a r a -> reads y v p (nl +:+ lines +:+ printI n ("}" +:+ nl)) a r a.
Proof using.
  intros Hp. apply (reads_leading _ _ _ nl); [auto with blank|]. unfold printI.
  rewrite <- (string_app_assoc (spaces _)), <- (string_app_assoc lines). by apply reads_blank; [auto with blank|].
Qed.

Definition readable_net (attr : option shown_list) : Prop := good_options (ctx_fields show_net_options_ctx) attr.

Lemma chain_net n flags hosts c attr a :
  readable_net attr -> c_net_options c = [] ->
  chain (connection_turn env flags) a (c, hosts) (section_text n "net" attr) a (c <| c_net_options := parsed <$> shown attr |>, hosts).
Proof using.
  intros Hg Hc. unfold section_text. destruct (options_empty attr) eqn:He.
  { assert (shown attr = []) as -> by by destruct attr as [[|? ?]|].
    assert (c <| c_net_options := parsed <$> [] |> = c) as -> by (destruct c; cbn in *; by subst). constructor. }
  apply chain_one; [|by apply app_not_empty, printI_not_empty]. intros ? ?. unfold connection_turn, printI.
  rewrite !string_app_assoc. read_word (spaces (INDENT_WIDTH * n)) "net" TK_NET.
  cbn [starts_pair]. rewrite decide_False by done. cbn [connection_statement]. rewrite Hc. steps. expect_op " " "{"%char. steps.
  reads_tail. eapply reads_bind.
  - apply reads_options_nl. apply reads_net_options; [|apply show_net_NoDup]. eapply Forall_impl; [exact Hg|].
    intros x [[Hu Hv] Hin]. split; [|done]. split; [|done]. pose proof show_net_names as Hn. rewrite Forall_forall in Hn.
    apply Hn. by apply list_elem_of_fmap_2.
  - intros ? ?. steps.
Qed.

(** A device of a peer. *)
Definition shown_peer_device (pd : peer_devices_list) : peer_device :=
  mk_peer_device (pd_ctx_volume pd) (parsed <$> shown (peer_device_conf pd)).

Definition device_text (n : nat) (pd : peer_devices_list) : string :=
  printI n ("volume " +:+ show_int (pd_ctx_volume pd) +:+ " {" +:+ nl) +:+
  section_text (S n) "disk" (peer_device_conf pd) +:+ printI n ("}" +:+ nl).

Record good_peer_device (pd : peer_devices_list) : Prop := {
  good_pd_volume : small (pd_ctx_volume pd);
  good_pd_options : good_options (ctx_fields (fields_of peer_device_options_ctx)) (peer_device_conf pd)
}.

(** The devices that are shown for a connection. *)
Definition devices_of (connection : connections_list) (pds : list peer_devices_list) : list peer_devices_list :=
  List.filter (fun pd => (c_ctx_peer_node_id connection =? pd_ctx_peer_node_id pd) && negb (options_empty (peer_device_conf pd))) pds.

Lemma peer_devices_text n connection pds :
  String.concat "" ((fun pd => if c_ctx_peer_node_id connection =? pd_ctx_peer_node_id pd then show_peer_device n pd else "") <$> pds) =
  texts (device_text n) (devices_of connection pds).
Proof using.
  change (texts (fun pd => if c_ctx_peer_node_id connection =? pd_ctx_peer_node_id pd then show_peer_device n pd else "") pds =
    texts (device_text n) (devices_of connection pds)).
  induction pds as [|pd pds IH]; [done|]. rewrite texts_cons, IH. unfold devices_of. cbn [List.filter].
  destruct (_ =? _); [|done]. unfold show_peer_device, device_text. cbn [andb]. destruct (options_empty _) eqn:He; [done|].
  cbn [negb]. rewrite texts_cons, print_section_text. done.
Qed.

Lemma reads_peer_device n flags hosts c pd y v a :
  good_peer_device pd -> options_empty (peer_device_conf pd) = false ->
  reads y v (connection_turn env flags (c, hosts)) (device_text n pd) a
    (inl (c <| c_peer_devices := c_peer_devices c ++ [shown_peer_device pd] |>, hosts)) a.
Proof using.
  intros [Hv Hg%good_options_readable] He. unfold connection_turn, device_text, section_text. rewrite He.
  unfold printI. rewrite !string_app_assoc. read_word (spaces (INDENT_WIDTH * n)) "volume" TK_VOLUME.
  cbn [starts_pair]. rewrite decide_False by done. cbn [connection_statement]. steps.
  expect_number " "; [by apply show_int_number|]. steps. rewrite atoi_show_int by done. unfold parse_peer_device. steps.
  expect_op " " "{"%char. steps. apply (reads_leading _ _ _ nl); [auto with blank|].
  expect_word (spaces (INDENT_WIDTH * S n)) "disk" TK_DISK. steps. expect_op " " "{"%char. steps.
  apply (reads_leading _ _ _ nl); [auto with blank|].
  rewrite <- (string_app_assoc _ "}"), <- (string_app_assoc (option_lines _ _)).
  eapply reads_bind; [apply reads_parse_options; [exact Hg|apply fields_NoDup]|]. intros ? ?. steps.
  apply (reads_leading _ _ _ nl); [auto with blank|]. expect_op (spaces (INDENT_WIDTH * n)) "}"%char. steps.
Qed.

(** *** A connection as a whole *)

Fixpoint shown_paths (a : Z) (paths : list (sockaddr * sockaddr)) : list path_config :=
  match paths with
  | [] => []
  | p :: paths' => shown_path a p :: shown_paths (a + 1) paths'
  end.

Lemma chain_paths n flags hosts c paths a :
  plain_ranges env -> Forall good_path paths ->
  chain (connection_turn env flags) a (c, hosts) (texts (path_text n) paths) (a + Z.of_nat (length paths))
    (c <| c_paths := c_paths c ++ shown_paths a paths |>, hosts).
Proof using.
  intros Hr Hg. revert c a. induction Hg as [|p paths Hp _ IH]; intros c a.
  - cbn [length shown_paths]. replace (a + Z.of_nat 0) with a by lia.
    assert (c <| c_paths := c_paths c ++ [] |> = c) as -> by (destruct c; cbn; by rewrite app_nil_r). constructor.
  - rewrite texts_cons. eapply chain_cons; [intros ? ?; by apply reads_path_section|by apply app_not_empty, printI_not_empty|].
    cbn [length shown_paths]. replace (a + Z.of_nat (S (length paths))) with (a + 1 + Z.of_nat (length paths)) by lia.
    replace (c <| c_paths := c_paths c ++ shown_path a p :: shown_paths (a + 1) paths |>)
      with (c <| c_paths := c_paths c ++ [shown_path a p] |> <| c_paths := (c_paths c ++ [shown_path a p]) ++ shown_paths (a + 1) paths |>)
      by (rewrite <- app_assoc; reflexivity).
    apply IH.
Qed.

Lemma chain_peer_devices n flags hosts c pds a :
  Forall (fun pd => good_peer_device pd /\ options_empty (peer_device_conf pd) = false) pds ->
  chain (connection_turn env flags) a (c, hosts) (texts (device_text n) pds) a
    (c <| c_peer_devices := c_peer_devices c ++ (shown_peer_device <$> pds) |>, hosts).
Proof using.
  intros Hg. revert c. induction Hg as [|pd pds [Hp He] _ IH]; intros c.
  - assert (c <| c_peer_devices := c_peer_devices c ++ (shown_peer_device <$> []) |> = c) as ->
      by (destruct c; cbn; by rewrite app_nil_r). constructor.
  - rewrite texts_cons. eapply chain_cons; [intros ? ?; by apply reads_peer_device|by apply app_not_empty, printI_not_empty|].
    replace (c <| c_peer_devices := c_peer_devices c ++ (shown_peer_device <$> pd :: pds) |>)
      with (c <| c_peer_devices := c_peer_devices c ++ [shown_peer_device pd] |>
              <| c_peer_devices := (c_peer_devices c ++ [shown_peer_device pd]) ++ (shown_peer_device <$> pds) |>)
      by (rewrite <- app_assoc; reflexivity).
    apply IH.
Qed.

Record good_connection (connection : connections_list) : Prop := {
  good_peer : small (c_ctx_peer_node_id connection);
  good_pairs : only_pairs connection;
  good_paths : Forall good_path (paths_of connection);
  good_state : 0 <= conn_connection_state connection < Z.of_nat (length (drbd_conn_state_names env));
  good_net : readable_net (net_conf connection)
}.

(** The connection that is parsed, at the address [a]; its paths come after it. *)
Definition shown_connection (a : Z) (connection : connections_list) (pds : list peer_devices_list) : connection_config :=
  mk_connection_config a (shown_paths (a + 1) (paths_of connection)) (shown_peer_device <$> devices_of connection pds)
    (Some (mk_host_config [] [] no_address None None true false false [] (Some (show_int (c_ctx_peer_node_id connection)))))
    (parsed <$> shown (net_conf connection)) [] (conn_connection_state connection).

Definition connection_cost (connection : connections_list) : Z := 1 + Z.of_nat (length (paths_of connection)).

Definition connection_body (n : nat) (connection : connections_list) (pds : list peer_devices_list) : string :=
  printI (S n) ("_peer_node_id " +:+ show_int (c_ctx_peer_node_id connection) +:+ ";" +:+ nl) +:+
  texts (path_text (S n)) (paths_of connection) +:+
  printI (S n) ("_cstate " +:+ conn_str (conn_connection_state connection) +:+ ";" +:+ nl) +:+
  section_text (S n) "net" (net_conf connection) +:+
  texts (device_text (S n)) (devices_of connection pds).

Definition connection_text (n : nat) (pds : list peer_devices_list) (connection : connections_list) : string :=
  printI n ("connection {" +:+ nl) +:+ connection_body n connection pds +:+ printI n ("}" +:+ nl).

Lemma show_connection_shown n connection pds :
  good_connection connection ->
  show_connection getnameinfo conn_str n connection pds = (connection_text n pds connection, n).
Proof using.
  intros Hg. unfold show_connection, connection_text, connection_body.
  rewrite print_paths_text, peer_devices_text, print_section_text by apply Hg. replace (S n - 1)%nat with n by lia.
  by rewrite !string_app_assoc.
Qed.

Lemma chain_connection n flags connection pds a :
  plain_ranges env -> good_states -> good_connection connection -> Forall good_peer_device pds ->
  chain (connection_turn env flags) (a + 1) (mk_connection_config a [] [] None [] [] 0, 0) (connection_body n connection pds)
    (a + connection_cost connection) (shown_connection a connection pds, 0).
Proof using.
  intros Hr Hs Hg Hpds. unfold connection_body, connection_cost.
  replace (a + (1 + Z.of_nat (length (paths_of connection)))) with (a + 1 + Z.of_nat (length (paths_of connection))) by lia.
  eapply chain_cons; [intros ? ?; apply reads_peer_node_id_line; [done|apply Hg]|by apply printI_not_empty|].
  eapply chain_app; [by apply chain_paths, Hg|].
  eapply chain_cons; [intros ? ?; apply reads_cstate_line; [done|apply Hg]|by apply printI_not_empty|].
  eapply chain_app; [by apply chain_net; [apply Hg|]|]. 
  match goal with |- chain _ _ (?c, 0) _ _ _ =>
    replace (shown_connection a connection pds)
      with (c <| c_peer_devices := c_peer_devices c ++ (shown_peer_device <$> devices_of connection pds) |>) by reflexivity end.
  apply chain_peer_devices. apply Forall_forall. intros pd [Hpd Hin]%list_elem_of_In%filter_In.
  apply andb_true_iff in Hin as [_ Hne%negb_true_iff]. split; [|done]. rewrite Forall_forall in Hpds.
  by apply Hpds, list_elem_of_In.
Qed.

(** What follows the word connection. *)
Lemma reads_connection n connection pds flags y v a :
  flags = PARSE_FOR_ADJUST ->
  plain_ranges env -> good_states -> good_connection connection -> Forall good_peer_device pds ->
  reads y v (parse_connection env flags) (" {" +:+ nl +:+ connection_body n connection pds +:+ printI n ("}" +:+ nl)) a
    (shown_connection a connection pds) (a + connection_cost connection).
Proof using.
  intros -> Hr Hs Hg Hpds. unfold parse_connection. eapply reads_then; [apply reads_new_address|]. intros ? ?.
  read_op " " "{"%char. rewrite decide_True by done. steps. apply (reads_leading _ _ _ nl); [auto with blank|].
  unfold connection_statements. eapply reads_loop; [by apply chain_connection|]. intros ? ?.
  unfold connection_turn, printI. read_op (spaces (INDENT_WIDTH * n)) "}"%char. cbn [starts_pair]. rewrite decide_True by done.
  rewrite andb_false_r. steps.
Qed.

(** ** Resources *)

Definition peer_devices_of (resource : resources_list) : list peer_devices_list :=
  if bool_decide (rl_devices resource = []) || bool_decide (rl_connections resource = []) then [] else rl_peer_devices resource.

(** A name that is printed as it is. *)
Definition plain_name (name : string) : Prop :=
  escape_quotes name = name /\ no_newline name /\ (String.length name <= 255)%nat.

Record good_resource (resource : resources_list) : Prop := {
  good_name : plain_name (rl_name resource);
  good_res_options : good_options (ctx_fields (fields_of resource_options_ctx)) (res_opts resource);
  good_this_host : good_host resource;
  good_connections : Forall good_connection (rl_connections resource);
  good_peer_devices : Forall good_peer_device (rl_peer_devices resource)
}.

Fixpoint shown_connections (a : Z) (connections : list connections_list) (pds : list peer_devices_list) : list connection_config :=
  match connections with
  | [] => []
  | c :: connections' => shown_connection a c pds :: shown_connections (a + connection_cost c) connections' pds
  end.

Fixpoint connections_cost (connections : list connections_list) : Z :=
  match connections with [] => 0 | c :: connections' => connection_cost c + connections_cost connections' end.

(** The resource that is parsed, and the next address. *)
Definition shown_resource (a : Z) (resource : resources_list) : resource_config :=
  new_resource (rl_name resource)
    <| r_res_options := parsed <$> shown (res_opts resource) |>
    <| r_all_hosts := [(shown_host a resource).2] |>
    <| r_connections := shown_connections (shown_host a resource).1 (rl_connections resource) (peer_devices_of resource) |>.

Definition resource_cost (a : Z) (resource : resources_list) : Z :=
  (shown_host a resource).1 + connections_cost (rl_connections resource).

Definition host_text (n : nat) (resource : resources_list) : string :=
  printI n ("_this_host {" +:+ nl) +:+ node_id_text (S n) (res_node_id resource) +:+
  texts (volume_text (S n)) (rl_devices resource) +:+ printI n ("}" +:+ nl).

Definition resource_body (n : nat) (resource : resources_list) : string :=
  section_text (S n) "options" (res_opts resource) +:+ host_text (S n) resource +:+
  texts (connection_text (S n) (peer_devices_of resource)) (rl_connections resource).

Definition resource_text (n : nat) (resource : resources_list) : string :=
  printI n ("resource " +:+ quoted (rl_name resource) +:+ " {" +:+ nl) +:+ resource_body n resource +:+
  printI n ("}" +:+ nl +:+ nl).

Lemma show_connections_shown n connections pds :
  Forall good_connection connections ->
  show_connections getnameinfo conn_str n connections pds = (texts (connection_text n pds) connections, n).
Proof using.
  induction 1 as [|c connections Hc _ IH]; [done|]. cbn [show_connections].
  by rewrite show_connection_shown, IH, texts_cons by done.
Qed.

Lemma show_resource_shown n resource :
  good_resource resource -> show_resource getnameinfo conn_str n resource = (resource_text n resource, n).
Proof using.
  intros [[Hq _] _ Hh Hc _]. unfold show_resource, resource_text, resource_body, host_text.
  rewrite show_volumes_shown by (eapply Forall_impl; [apply Hh|]; by intros dev []).
  replace (S (S n) - 1)%nat with (S n) by lia. fold (peer_devices_of resource). rewrite show_connections_shown by done.
  replace (S n - 1)%nat with n by lia. rewrite print_section_text. unfold node_id_text.
  assert (String QUOTE (rl_name resource +:+ String QUOTE (" {" +:+ nl)) = quoted (rl_name resource) +:+ " {" +:+ nl) as ->.
  { unfold quoted. cbn [double_quote_string]. rewrite Hq.
    change (String QUOTE (rl_name resource +:+ String QUOTE "") +:+ " {" +:+ nl)
      with (String QUOTE ((rl_name resource +:+ String QUOTE "") +:+ " {" +:+ nl)). by rewrite string_app_assoc. }
  by rewrite !string_app_assoc.
Qed.

(** *** Statements of a resource *)

Section Statements.
Context (parse_template : string -> P resource) (flags : pr_flags) (Hflags : flags = PARSE_FOR_ADJUST) (name : string).

Notation turn := (resource_turn env parse_template flags name).

Lemma chain_res_options n r attr a :
  good_options (ctx_fields (fields_of resource_options_ctx)) attr ->
  chain turn a (r, None) (section_text n "options" attr) a (r <| r_res_options := r_res_options r ++ (parsed <$> shown attr) |>, None).
Proof using.
  intros Hg%good_options_readable. unfold section_text. destruct (options_empty attr) eqn:He.
  { assert (shown attr = []) as -> by by destruct attr as [[|? ?]|].
    assert (r <| r_res_options := r_res_options r ++ (parsed <$> []) |> = r) as -> by (destruct r; cbn; by rewrite app_nil_r).
    constructor. }
  apply chain_one; [|by apply app_not_empty, printI_not_empty]. intros ? ?. unfold resource_turn, printI.
  rewrite !string_app_assoc. read_word (spaces (INDENT_WIDTH * n)) "options" TK_OPTIONS.
  change (ends_resource TK_OPTIONS) with false. cbv iota. rewrite decide_False by done. cbn [resource_statement]. steps.
  eapply reads_then; [apply reads_check_upr|]. intros ? ?. steps. expect_op " " "{"%char. steps.
  reads_tail. eapply reads_bind.
  - apply reads_options_nl. apply reads_parse_options; [exact Hg|apply fields_NoDup].
  - intros ? ?. steps.
Qed.

Lemma reads_this_host_section n r resource y v a :
  plain_ranges env -> good_host resource ->
  reads y v (turn (r, None)) (host_text n resource) a
    (inl (r <| r_all_hosts := r_all_hosts r ++ [(shown_host a resource).2] |>, None)) (shown_host a resource).1.
Proof using.
  intros Hr Hg. unfold resource_turn, host_text, printI. rewrite !string_app_assoc.
  read_word (spaces (INDENT_WIDTH * n)) "_this_host" TK__THIS_HOST.
  change (ends_resource TK__THIS_HOST) with false. cbv iota. rewrite decide_False by done. cbn [resource_statement]. steps.
  expect_op " " "{"%char. steps. reads_tail.
  eapply reads_bind; [by apply reads_host_section|]. intros ? ?. steps.
Qed.

Lemma reads_connection_section n r connection pds y v a :
  plain_ranges env -> good_states -> good_connection connection -> Forall good_peer_device pds ->
  reads y v (turn (r, None)) (connection_text n pds connection) a
    (inl (r <| r_connections := r_connections r ++ [shown_connection a connection pds] |>, None)) (a + connection_cost connection).
Proof using Hflags.
  intros Hr Hs Hg Hpds. unfold resource_turn, connection_text, printI. rewrite !string_app_assoc.
  read_word (spaces (INDENT_WIDTH * n)) "connection" TK_CONNECTION.
  change (ends_resource TK_CONNECTION) with false. cbv iota. rewrite decide_False by done. cbn [resource_statement]. steps.
  reads_tail. eapply reads_bind; [by apply reads_connection|]. intros ? ?.
  steps. eapply reads_then; [apply reads_is_v9|]. intros ? ?. steps.
Qed.

Lemma chain_connections n r connections pds a :
  plain_ranges env -> good_states -> Forall good_connection connections -> Forall good_peer_device pds ->
  chain turn a (r, None) (texts (connection_text n pds) connections) (a + connections_cost connections)
    (r <| r_connections := r_connections r ++ shown_connections a connections pds |>, None).
Proof using Hflags.
  intros Hr Hs Hg Hpds. revert r a. induction Hg as [|c connections Hc _ IH]; intros r a; cbn [connections_cost shown_connections].
  - assert (r <| r_connections := r_connections r ++ [] |> = r) as -> by (destruct r; cbn; by rewrite app_nil_r).
    replace (a + 0) with a by lia. constructor.
  - rewrite texts_cons. eapply chain_cons; [intros ? ?; by apply reads_connection_section|by apply app_not_empty, printI_not_empty|].
    replace (a + (connection_cost c + connections_cost connections)) with (a + connection_cost c + connections_cost connections) by lia.
    replace (r <| r_connections := r_connections r ++ shown_connection a c pds :: shown_connections (a + connection_cost c) connections pds |>)
      with (r <| r_connections := r_connections r ++ [shown_connection a c pds] |>
              <| r_connections := (r_connections r ++ [shown_connection a c pds]) ++
                   shown_connections (a + connection_cost c) connections pds |>)
      by (rewrite <- app_assoc; reflexivity).
    apply IH.
Qed.

Lemma chain_resource n resource a :
  plain_ranges env -> good_states -> good_resource resource ->
  chain turn a (new_resource (rl_name resource), None) (resource_body n resource) (resource_cost a resource)
    (shown_resource a resource, None).
Proof using Hflags.
  intros Hr Hs [_ Ho Hh Hc Hp]. unfold resource_body, resource_cost.
  eapply chain_app; [by apply chain_res_options|].
  eapply chain_cons; [intros ? ?; by apply reads_this_host_section|by apply app_not_empty, printI_not_empty|].
  apply chain_connections; [done..|]. unfold peer_devices_of. by destruct (_ || _).
Qed.

Lemma reads_resource_end n s y v a : reads y v (turn s) (printI n ("}" +:+ nl +:+ nl)) a (inr s) a.
Proof using.
  unfold resource_turn, printI. destruct s as [r template]. read_op (spaces (INDENT_WIDTH * n)) "}"%char.
  change (ends_resource (Op "}")) with true. cbv iota. apply reads_done. apply blank_app; auto with blank.
Qed.
End Statements.

(** *** Resources as a whole *)

Lemma reads_check_upr_init y v a : reads y v check_upr_init "" a () a.
Proof using.
  intros st rest Hy Hv Ha Hadj Ht. exists st. unfold adjusting in Hadj. split; [|done].
  unfold check_upr_init, gets, mbind, P_bind. by rewrite Hadj.
Qed.

Lemma reads_check_resource_section name y v a : reads y v (check_resource_section name) "" a () a.
Proof using.
  intros st rest Hy Hv Ha Hadj Ht. exists st. unfold adjusting in Hadj. split; [|done].
  unfold check_resource_section, gets, mbind, P_bind. by rewrite Hadj.
Qed.

Lemma reads_parse_resource depth n resource y v a :
  plain_ranges env -> good_states -> good_resource resource ->
  reads y v (parse_resource env (S depth) PARSE_FOR_ADJUST (rl_name resource))
    (nl +:+ resource_body n resource +:+ printI n ("}" +:+ nl +:+ nl)) a
    (Resource (shown_resource a resource) None) (resource_cost a resource).
Proof using.
  intros Hr Hs Hg. cbn [parse_resource]. eapply reads_then; [apply reads_check_upr_init|]. intros ? ?.
  eapply reads_then; [apply reads_check_resource_section|]. intros ? ?. apply (reads_leading _ _ _ nl); [auto with blank|].
  reads_tail. eapply reads_bind; [eapply reads_loop; [by apply chain_resource|]; intros ? ?; apply reads_resource_end|].
  intros ? ?. cbv beta iota. change (bool_decide (PARSE_FOR_ADJUST = NO_HOST_SECT_ALLOWED)) with false. cbn [andb]. steps.
Qed.

Lemma reads_show_turn depth n resource running y v a :
  plain_ranges env -> good_states -> good_resource resource ->
  reads y v (show_turn env (S depth) running) (resource_text n resource) a
    (inl (running ++ [Resource (shown_resource a resource) None])) (resource_cost a resource).
Proof using.
  intros Hr Hs Hg. pose proof Hg as [(_ & Hq) _ _ _ _]. unfold show_turn, resource_text, printI. rewrite !string_app_assoc.
  read_word (spaces (INDENT_WIDTH * n)) "resource" TK_RESOURCE. rewrite decide_True by done.
  eapply reads_next; [by eapply (lexes_quotable " "); [|auto with blank]|]; cbn [copies]. rewrite decide_True by done.
  read_op " " "{"%char. rewrite decide_True by done. steps. reads_tail.
  eapply reads_bind; [by apply reads_parse_resource|]. intros ? ?. steps.
Qed.

(** *** The whole output *)

(** The resources that are printed. *)
Definition selected (old_objname : string) (resources : list resources_list) : list resources_list :=
  List.filter (fun r => String.eqb old_objname "all" || String.eqb old_objname (rl_name r)) resources.

Lemma show_resources_shown resources old_objname :
  Forall good_resource (selected old_objname resources) ->
  show_resources getnameinfo conn_str 0 resources old_objname = texts (resource_text 0) (selected old_objname resources).
Proof using.
  induction resources as [|r resources IH]; [done|]. unfold selected in *. cbn [List.filter show_resources].
  destruct (String.eqb old_objname "all"), (String.eqb old_objname (rl_name r)); cbn [negb andb orb]; try exact IH;
    intros [Hr Hrest]%Forall_cons; by rewrite show_resource_shown, IH, texts_cons.
Qed.

(** The resources that are parsed, the first of which starts at the address [a]. *)
Fixpoint parsed_resources (a : Z) (resources : list resources_list) : list resource :=
  match resources with
  | [] => []
  | r :: resources' => Resource (shown_resource a r) None :: parsed_resources (resource_cost a r) resources'
  end.

Fixpoint parsed_end (a : Z) (resources : list resources_list) : Z :=
  match resources with [] => a | r :: resources' => parsed_end (resource_cost a r) resources' end.

Lemma chain_resources depth resources running a :
  plain_ranges env -> good_states -> Forall good_resource resources ->
  chain (show_turn env (S depth)) a running (texts (resource_text 0) resources) (parsed_end a resources)
    (running ++ parsed_resources a resources).
Proof using.
  intros Hr Hs Hg. revert running a. induction Hg as [|r resources Hres _ IH]; intros running a; cbn [parsed_resources parsed_end].
  - rewrite app_nil_r. constructor.
  - rewrite texts_cons, cons_middle, (app_assoc running).
    eapply chain_cons; [intros ? ?; by apply reads_show_turn|by apply app_not_empty, printI_not_empty|].
    apply IH.
Qed.

(** At the end of the output the loop ends. *)
Lemma show_turn_end depth st running :
  at_text st "" -> adjusting st ->
  exists st', show_turn env depth running st = Done (inr running) st' /\ input st' = "" /\ adjusting st'.
Proof using.
  intros (s & Hin & Hb) Hadj. unfold show_turn, next_token, mbind, P_bind. rewrite Hin, Hb.
  change (yylex "") with (TK_EOF, "", ""). cbv iota beta. rewrite decide_False by done. by eexists.
Qed.

(** C38: drbdadm adjust reads what drbdsetup show prints: the text of the
    resources that were asked for is parsed to its end, without an error, into
    exactly these resources, in the order of the output: every option with the
    value that is shown for it, every volume with its number, minor and disks,
    every path with its two addresses, every connection with its peer, its state
    and the options of its devices.  This is for what the scanner has tokens for
    ([good_resource]): numbers of up to eight digits, names without quotes and
    backslashes, texts in one line of up to 255 characters and words of up to
    128, IPv4 addresses and IPv6 addresses of the form the scanner knows, paths
    with both addresses, states with a name, and disk sections that are closed
    ([closed_options]). *)
Theorem show_is_parsed depth resources old_objname st :
  plain_ranges env -> good_states -> Forall good_resource (selected old_objname resources) ->
  exists st',
    drbdsetup_show env (S depth) (show_output (show_resource_list getnameinfo conn_str resources old_objname) st) =
    Done (parsed_resources (next_at st) (selected old_objname resources)) st' /\
    input st' = "" /\ config_valid st' = 2.
Proof using.
  intros Hr Hs Hg. unfold show_resource_list. rewrite show_resources_shown by done.
  set (head := match resources with [] => _ | _ => _ end). set (text := texts _ _).
  assert (blank head) as Hhead.
  { destruct resources; [|apply blank_nil]. by apply (blank_comment " No currently configured DRBD found."). }
  set (st0 := show_output (head +:+ text) st). unfold drbdsetup_show, loop.
  destruct (chain_run _ _ _ _ _ _ (chain_resources depth _ [] (next_at st) Hr Hs Hg) (Datatypes.S (String.length (input st0))) st0 "")
    as (m & st1 & -> & Htext & Hadj & _).
  - change (input st0) with (head +:+ text). rewrite string_length_app. unfold text. lia.
  - done.
  - done.
  - rewrite string_app_nil_r. by exists head.
  - cbn [app] in *. destruct (show_turn_end (S depth) st1 (parsed_resources (next_at st) (selected old_objname resources)) Htext Hadj)
      as (st' & Hend & ?). exists st'. split; [|done]. cbn [turns]. unfold mbind, P_bind. by rewrite Hend.
Qed.

End Connections.

(** ** An example *)

#[local] Existing Instance text_parser_contexts.

(** The option of a context with a value that is shown for it. *)
Definition option_shown (ctx : context_def) (name value : string) : shown_list :=
  match List.find (fun f => String.eqb (fd_name f) name) (ctx_fields ctx) with
  | Some f => [(f, Shown (Some value) false)]
  | None => []
  end.

(** A resource with two volumes, and a connection with two paths. *)
Definition example_volumes : list devices_list :=
  [mk_devices_list 0 10 "/dev/vg/a" "" DRBD_MD_INDEX_FLEX_INT 0 (Some (option_shown (fields_of attach_cmd_ctx) "on-io-error" "detach"))
     (Some []);
   mk_devices_list 1 11 "/dev/vg/b" "/dev/vg/md" 3 0 (Some []) (Some [])].

Definition example_connection : connections_list :=
  mk_connections_list 1
    (Some (path_attrs [(Sockaddr_in AF_INET 10 0 0 1 7788, Sockaddr_in AF_INET 10 0 0 2 7788);
                       (Sockaddr_in6 [1] 7789, Sockaddr_in6 [2] 7789)]))
    4 (Some (option_shown show_net_options_ctx "protocol" "C")).

Definition example_resource : resources_list :=
  mk_resources_list "r0" (Some (option_shown (fields_of resource_options_ctx) "quorum" "majority")) (Some 0) example_volumes
    [example_connection]
    [mk_peer_devices_list 1 0 (Some (option_shown (fields_of peer_device_options_ctx) "c-max-rate" "102400"))].

(** Two addresses of the link. *)
Definition example_getnameinfo (bytes : list Z) : string :=
  match bytes with [1] => "fe80::1%eth0" | _ => "fe80::2%eth0" end.

Definition example_conn_str (s : Z) : string :=
  default "Unknown" (drbd_conn_state_names example_environment !! Z.to_nat s).

Definition example_shown : string := show_resource_list example_getnameinfo example_conn_str [example_resource] "r0".

Lemma example_states : good_states example_environment example_conn_str.
Proof.
  split_and!.
  - apply (bool_decide_unpack _). by vm_compute.
  - repeat (apply Forall_cons_2; [keyword|]). done.
  - intros k name Hk. unfold example_conn_str. by rewrite Nat2Z.id, Hk.
Qed.

Definition text_like (f : field_def) : Prop :=
  fd_ops f = fc_string /\ fd_u f = U_s 512 /\ fd_unit f = None /\ needs_double_quoting f = true.

Lemma example_option ctx name value :
  (forall f, f ∈ ctx_fields ctx -> text_like f) -> quotable value ->
  good_options (ctx_fields ctx) (Some (option_shown ctx name value)).
Proof.
  intros Hctx [Hn Hl]. unfold good_options, option_shown. cbn [shown default id].
  destruct (List.find _ _) as [f|] eqn:Hf; [|by constructor]. apply find_some in Hf as [Hin%list_elem_of_In _].
  destruct (Hctx f Hin) as (Hops & Hu & Hunit & Hquote). apply Forall_singleton. split; [|exact Hin].
  split; cbn [fst snd]; [by rewrite Hunit|].
  exists value. split; [done|]. unfold shown_value. rewrite Hquote. split; [done|]. unfold ops. rewrite Hops.
  cbn [fc_check class_of]. unfold string_check, u_s. rewrite Hu. eexists. reflexivity.
Qed.

Lemma context_texts (table : list (string * bool)) f :
  f ∈ ctx_fields (text_context table) -> text_like f.
Proof. cbn [ctx_fields text_context]. intros (i & x & -> & _)%elem_of_lookup_imap. done. Qed.

Lemma example_quotable s :
  all_chars not_newline s && (String.length s <=? 255)%nat = true -> quotable s.
Proof. intros [Hn Hl%Nat.leb_le]%andb_true_iff. done. Qed.

Lemma example_options (c : setup_context) name value :
  quotable value -> good_options (ctx_fields (fields_of c)) (Some (option_shown (fields_of c) name value)).
Proof. apply example_option, context_texts. Qed.

Lemma example_volumes_good : Forall good_device example_volumes.
Proof.
  unfold example_volumes. apply Forall_cons_2; [|apply Forall_cons_2; [|done]]; split;
    cbn [d_ctx_volume d_minor backing_dev meta_dev meta_dev_idx disk_conf_nl device_conf_nl]; try (unfold small; lia).
  - intros _. split; [by apply example_quotable|]. by left; right.
  - by apply (example_options attach_cmd_ctx), example_quotable.
  - by constructor.
  - left. by eexists.
  - intros _. split; [by apply example_quotable|]. right. split; [by apply example_quotable|]. split; [done|]. right. unfold small. cbn. lia.
  - by constructor.
  - by constructor.
  - left. by eexists.
Qed.

Lemma example_connection_good : good_connection example_environment example_getnameinfo example_connection.
Proof.
  split.
  - unfold small. cbn. lia.
  - reflexivity.
  - assert (forall b, ipv6_text (example_getnameinfo b)) as H6.
    { intros b. split; [apply matches_derivs|]; unfold example_getnameinfo; repeat case_match; by vm_compute. }
    assert (forall d port, byte d -> small port -> good_sockaddr example_getnameinfo (Sockaddr_in AF_INET 10 0 0 d port)) as H4.
    { intros d port Hd Hp. apply good_in; [|done]. repeat (apply Forall_cons_2; [unfold byte in *; lia|]). done. }
    repeat (apply Forall_cons_2; [split; cbn [fst snd]; first [apply H4|apply good_in6; [apply H6|]]; unfold byte, small; lia|]). done.
  - cbn. lia.
  - apply example_option; [apply context_texts|by apply example_quotable].
Qed.

Lemma example_resource_good : good_resource example_environment example_getnameinfo example_resource.
Proof.
  split.
  - split_and!; [done|done|cbn; lia].
  - by apply (example_options resource_options_ctx), example_quotable.
  - split; [exact example_volumes_good|]. intros id [= <-]. unfold small. lia.
  - apply Forall_singleton. exact example_connection_good.
  - apply Forall_singleton. split; [unfold small; cbn; lia|]. by apply (example_options peer_device_options_ctx), example_quotable.
Qed.

(** What the example shows is parsed. *)
Lemma show_is_parsed_witness :
  exists st',
    drbdsetup_show example_environment 1 (show_output example_shown (example_parser "")) =
    Done (parsed_resources example_environment example_getnameinfo 0 [example_resource]) st' /\
    input st' = "" /\ config_valid st' = 2.
Proof.
  apply (show_is_parsed example_environment example_getnameinfo example_conn_str 0 [example_resource] "r0" (example_parser "")).
  - by intros [].
  - exact example_states.
  - apply Forall_singleton. exact example_resource_good.
Defined.
